(* ===== verification/_CoqProject ===== *)
-Q . S2P
Prelude.v
Mem.v
CString.v
State.v
Spinlock.v
Mmu.v
Kalloc.v
Vm.v
VmSpec.v
Uvm.v
Kvm.v
Copyuvm.v
Copyout.v
Boot.v
Demo.v
VmCorrect.v
Proc.v
Sched.v
SleepWake.v
Sleeplock.v
Disk.v
Bio.v
BioSpec.v
BioCorrect.v
Log.v
LogSpec.v
LogCommit.v
LogCrash.v
LogTx.v
LogCorrect.v
Fs.v
FsTx.v
FsFile.v
FsBmap.v
FsDinode.v
FsWrite.v
FsRw.v
FsInv.v
Dir.v
Pipe.v
Rely.v
PipeSpec.v
File.v
FileSpec.v
UserMem.v
UserSpec.v
ProcLife.v
ForkSpec.v
WaitSpec.v
Rtc.v
Exec.v
SysProc.v
SysSpec.v
SysFile.v
Console.v
Kbd.v
Ide.v
Trap.v
Ulib.v
Grep.v
Umalloc.v
UmallocSpec.v
Sh.v
ShSpec.v
ShRun.v
Mkfs.v
MkfsSpec.v
MkfsCorrect.v
ConsoleSpec.v
DirSpec.v
Segment.v
Asm.v
AsmSpec.v
Mp.v
Bootmain.v
Irq.v
AsmTypes.v
SyscallSpec.v
Uprog.v
UprogSpec.v
