(* ===== verification/Prelude.v ===== *)
(** * A verification library for the xv6 kernel of this repository

    xv6 is a small Unix kernel for x86 machines.  This repository extends it
    with exit statuses, [dup2], [date], process priorities, a stack guard page
    and lazy allocation of user memory.  The library models the kernel's C code
    as functions on an explicit kernel state and proves what each part promises
    to the others.

    ** The program and its model

    The kernel is a set of C routines that share tables and the physical memory.
    A routine is a function of the monad [M] of this file: it returns a value
    and a new state, calls [panic], gives up the processor ([Swtch], to be
    resumed in a state other threads have changed), or is still asleep after the
    number of wake-ups it is followed through ([Spin]).  The state is the record
    [kernel] of State.v, which has the kernel's global tables as its fields;
    pointers into tables are indices; the physical memory is a finite map from
    addresses to bytes in which page tables, the free list and user pages live as
    they do in the machine.  C integers are [Z] with their wrap-around written
    out ([u32], [i32], ...).

    - Prelude.v: the monad, its tactics [mrun] and [mcall], hint databases, lists,
      little-endian words.  Mem.v: the byte memory.  CString.v: src/string.c.
    - State.v: the structures of proc.h, file.h, fs.h, buf.h, sleeplock.h, log.c,
      pipe.c, console.c and ide.c, and the global tables.
    - Spinlock.v: src/spinlock.c, once as calls on the kernel state and once as
      the interleaved instructions of any number of processors.
    - Mmu.v, Kalloc.v, Vm.v: src/mmu.h, src/memlayout.h, src/kalloc.c, src/vm.c.
      VmSpec.v, Uvm.v, Kvm.v, Copyuvm.v, Copyout.v relate page tables in memory to
      an abstract address space ([aspace], [rep], [vm_inv]); VmCorrect.v has the
      theorems.  Boot.v: the memory set-up of src/main.c.  Demo.v: a small machine
      for the examples.
    - Proc.v, Sched.v, SleepWake.v, ProcLife.v: src/proc.c (the table, [sleep],
      [wakeup], [kill], priorities; the scheduler; [sleep] and [wakeup] as
      interleaved lock operations; [fork], [exit], [wait]).  ForkSpec.v and
      WaitSpec.v say what [fork] and [wait] do to memory, files and the table.
    - Sleeplock.v, Disk.v, Bio.v: src/sleeplock.c, src/memide.c, src/bio.c.
      BioSpec.v and BioCorrect.v relate the cache to an abstract block store.
    - Log.v: src/log.c.  LogSpec.v, LogCommit.v, LogCrash.v, LogTx.v,
      LogCorrect.v: the write history of the disk, what a crash at any point of it
      leaves, and what recovery makes of that.
    - Fs.v, Dir.v: src/fs.c.  FsTx.v, FsFile.v, FsBmap.v, FsDinode.v, FsWrite.v,
      FsRw.v, FsInv.v relate inodes and blocks to file contents and state the
      invariant of the whole file system ([fs_ok]).  DirSpec.v: directories as
      lists of entries.
    - Pipe.v, File.v: src/pipe.c, src/file.c.  Rely.v and PipeSpec.v: a
      rely/guarantee logic for routines that sleep, and the pipe between two
      processes.  FileSpec.v: [filewrite] and [fileread] on the whole stack.
    - UserMem.v: src/syscall.c (arguments) and the page-fault handler of
      src/trap.c; UserSpec.v: user memory as the process sees it.
    - SysProc.v, SysFile.v, Exec.v, Rtc.v, Trap.v: src/sysproc.c, src/sysfile.c,
      src/exec.c with [loaduvm], [cmostime] of src/lapic.c, the system-call table
      of src/syscall.c and src/trap.c.  SysSpec.v: [argptr] and [sbrk].
    - Console.v, Kbd.v, Ide.v: src/console.c with src/uart.c, src/kbd.c, src/ide.c.
      ConsoleSpec.v: the console as a line editor.
    - Segment.v: the descriptor tables and the task state (src/mmu.h, src/asm.h,
      [seginit], [tvinit], [switchuvm]).  Asm.v: the registers of a processor,
      the instructions used by src/trapasm.S, src/vectors.pl, src/swtch.S,
      src/initcode.S and src/user/usys.S, and those files as lists of
      instructions; what the processor does on a trap and on [iret].  AsmSpec.v,
      AsmTypes.v and SyscallSpec.v have the theorems.
    - Bootmain.v: src/bootmain.c.  Mp.v: src/mp.c.  Irq.v: src/ioapic.c,
      src/picirq.c, src/lapic.c, the set-up of the devices in the order of
      src/main.c, [mycpu], and the start of another processor.
    - Mkfs.v: src/mkfs.c, on the blocks of the image.  MkfsSpec.v and MkfsCorrect.v
      follow the invariant of the file system from the empty image to the end.
    - User space.  Ulib.v: src/user/ulib.c, src/user/printf.c and the status macros
      of src/user/user.h.  Grep.v: src/user/grep.c.  Umalloc.v: src/user/umalloc.c,
      on the byte memory; UmallocSpec.v: the heap as a tiling by blocks.  Sh.v:
      src/user/sh.c; ShSpec.v: the grammar of its command lines; ShRun.v: the
      processes a command starts and their descriptors.  Uprog.v: the small
      programs as interaction trees over their system calls; UprogSpec.v runs
      [cat] and [wc] on a model of files.

    ** What the theorems show

    - Memory: the page allocator and the page-table routines conserve pages, map
      and unmap exactly what they should, and keep all other contents, also when
      memory runs out (VmCorrect.v, Boot.v, Kalloc.v).  Demand paging is invisible
      to a process, and every outcome of a page fault is as stated (UserSpec.v).
      [argptr] lets through blocks inside of the process only, as long as [sbrk]
      has not moved its size past [KERNBASE], which nothing prevents (SysSpec.v).
    - Concurrency: mutual exclusion of spinlocks in every interleaving, nesting of
      interrupt disabling, no lost wake-ups, sleep-locks, pipes as queues of bytes
      between processes that interleave in any way (Spinlock.v, SleepWake.v,
      Sleeplock.v, PipeSpec.v).
    - Processes: the scheduler runs what the priorities say and starves no normal
      process (Sched.v); [fork] makes a copy or leaves no trace (ForkSpec.v);
      [wait] collects a child and all its memory (WaitSpec.v).
    - Storage: the buffer cache is a block store (BioCorrect.v); a transaction is
      atomic under any number of crashes (LogCorrect.v); [filewrite] and
      [fileread] act on the bytes of a file, keep the file system consistent, and
      [filewrite] does so across crashes (FileSpec.v); what [dirlink] enters,
      [dirlookup] finds (DirSpec.v).
    - Traps: the frame [trap] gets is the exact state of the program and the return
      restores what the frame says; [swtch] resumes a context where it was saved;
      a new process starts in the state of its frame (AsmSpec.v); a system call
      from user code is a function call (SyscallSpec.v); registers keep their
      widths (AsmTypes.v).
    - Start-up: the boot loader puts every segment of the kernel in memory
      (Bootmain.v); [mpinit] finds and reads the tables of the firmware, and does
      not end on an entry it does not know (Mp.v); exactly the interrupts the
      kernel handles are enabled, and a started processor enters the kernel on its
      own stack (Irq.v).
    - Console: the ring buffer implements a line editor with a queue, and output
      cannot panic (ConsoleSpec.v).
    - The image [mkfs] makes satisfies the invariant of the file system and has the
      files it was given (MkfsCorrect.v).
    - User space: [malloc] and [free] hand out blocks that do not overlap and
      their searches end (UmallocSpec.v); the parser of the shell ends on every
      line and reads back every line of its grammar (ShSpec.v); a command is run
      with the descriptors it asks for (ShRun.v); [grep] matches what its patterns
      mean (Grep.v); [printint] fits its buffer and prints the number (Ulib.v);
      [cat] copies and [wc] counts whatever pieces the bytes come in
      (UprogSpec.v).

    ** Bounds and fuel

    Loops that the code bounds by a table or a size are recursion on that bound or
    on a fuel that is computed from it (for example [page_steps] in Vm.v), and the
    theorems show that the result is reached: none of them is of the form
    "if it returns".  Loops that wait for other threads are followed through
    [wakeups] rounds, for every value of it; a routine that is still asleep then
    ends in [Spin], and the theorems on such routines say what holds if they are
    woken.  The scheduler runs for ever and is modelled turn by turn.

    ** Not modelled

    - The change from real to paged protected mode: bootasm.S, entry.S and the
      first half of entryother.S, which run before there is a stack; their segment
      table and the loads of entryother.S are modelled.  The instructions that
      load the table registers ([lgdt], [lidt], [ltr]).
    - Faults of the kernel's own assembly, and timing: waits for a device that only
      poll a status register are taken to end, and a message between processors is
      delivered at once.
    - The loop of [startothers] around what it does for one processor.
    - Diagnostics printed by routines other than the console.
    - One [struct cpu] for each processor: a routine runs on one
      processor, whose current process is [k_cur]; that several run at once is in
      the interleaving models of Spinlock.v, SleepWake.v and PipeSpec.v.
    - The test programs of src/user, whose expectations are what the theorems state
      of the system calls. *)

From stdpp Require Export base gmap list strings numbers sorting.
From Stdlib Require Export ZArith Lia.

#[global] Set Default Goal Selector "!".
#[global] Open Scope Z_scope.
Coercion Z.of_nat : nat >-> Z.
#[global] Arguments Z.to_nat : simpl never.

(** ** Machine integers *)

(** C's [uint] (32 bits, wraps), [ushort] and [uchar], and the signed [int]
    that the same 32 bits denote. *)
Definition u32 (z : Z) : Z := z mod 4294967296.
Definition u16 (z : Z) : Z := z mod 65536.
Definition u8 (z : Z) : Z := z mod 256.
Definition i32 (z : Z) : Z :=
  let w := u32 z in if w <? 2147483648 then w else w - 4294967296.
Definition i16 (z : Z) : Z :=
  let w := u16 z in if w <? 32768 then w else w - 65536.
Definition i8 (z : Z) : Z :=
  let w := u8 z in if w <? 128 then w else w - 256.

Definition is_u32 (z : Z) : Prop := 0 <= z < 4294967296.
Definition is_byte (z : Z) : Prop := 0 <= z < 256.

Create HintDb kernel.
Create Rewrite HintDb u32.

Lemma u32_range z : is_u32 (u32 z).
Proof. unfold is_u32, u32. apply Z.mod_pos_bound. lia. Qed.

Lemma u32_small z : is_u32 z → u32 z = z.
Proof. unfold is_u32, u32. intros. by apply Z.mod_small. Qed.

Lemma u32_idemp z : u32 (u32 z) = u32 z.
Proof. apply u32_small, u32_range. Qed.

Lemma i32_range z : -(2 ^ 31) <= i32 z < 2 ^ 31.
Proof. unfold i32. pose proof (u32_range z). unfold is_u32 in *. case_match; lia. Qed.

Lemma i32_small z : 0 <= z < 2147483648 → i32 z = z.
Proof.
  intros H. unfold i32. rewrite u32_small by (unfold is_u32; lia). case_match eqn:E; [done|].
  apply Z.ltb_ge in E. lia.
Qed.

Lemma u32_i32 z : u32 (i32 z) = u32 z.
Proof.
  unfold i32. case_match; [apply u32_idemp|]. unfold u32. rewrite Zminus_mod, Z_mod_same_full, Z.sub_0_r, !Zmod_mod. done.
Qed.

Lemma u8_range z : is_byte (u8 z).
Proof. unfold is_byte, u8. apply Z.mod_pos_bound. lia. Qed.

Lemma u8_small z : is_byte z → u8 z = z.
Proof. unfold is_byte, u8. intros. by apply Z.mod_small. Qed.

Lemma u32_add_l a b : u32 (u32 a + b) = u32 (a + b).
Proof. unfold u32. by rewrite Zplus_mod_idemp_l. Qed.

Lemma u32_add_r a b : u32 (a + u32 b) = u32 (a + b).
Proof. unfold u32. by rewrite Zplus_mod_idemp_r. Qed.

Lemma u32_sub_l a b : u32 (u32 a - b) = u32 (a - b).
Proof. unfold u32. by rewrite Zminus_mod_idemp_l. Qed.

Lemma u32_sub_r a b : u32 (a - u32 b) = u32 (a - b).
Proof. unfold u32. by rewrite Zminus_mod_idemp_r. Qed.

#[export] Hint Resolve u32_range u8_range : kernel.
#[export] Hint Rewrite u32_idemp u32_add_l u32_add_r u32_sub_l u32_sub_r : u32.

(** A word put together from a high and a low part. *)
Lemma lor_low (a b k : Z) : 0 <= k → 0 <= b < 2 ^ k → Z.lor (a * 2 ^ k) b = a * 2 ^ k + b.
Proof.
  intros Hk Hb. rewrite <- Z.shiftl_mul_pow2 by lia.
  rewrite <- Z.add_lor_land. enough (Z.land (Z.shiftl a k) b = 0) by lia.
  apply Z.bits_inj'. intros n Hn. rewrite Z.land_spec, Z.shiftl_spec, Z.bits_0 by lia.
  destruct (decide (n < k)); [by rewrite Z.testbit_neg_r by lia|].
  destruct (decide (b = 0)) as [->|]; [by rewrite Z.bits_0, andb_false_r|].
  rewrite (Z.bits_above_log2 b n), andb_false_r; [done|lia|]. apply Z.log2_lt_pow2; [lia|].
  eapply Z.lt_le_trans; [apply Hb|]. apply Z.pow_le_mono_r; lia.
Qed.

(** ** The kernel monad

    A kernel routine runs on a state and ends in one of four ways: it returns a
    value, it calls [panic] (which never returns), it calls [swtch] and is
    resumed later in a state that other threads may have changed, or it is
    still in a sleep loop when the number of wake-ups it is given runs out. *)
Inductive result (S A : Type) : Type :=
| Ret (a : A) (s : S)
| Panic (msg : string)
| Swtch (s : S) (resume : S → result S A)
| Spin.
Arguments Ret {S A} _ _.
Arguments Panic {S A} _.
Arguments Swtch {S A} _ _.
Arguments Spin {S A}.

Definition M (S A : Type) : Type := S → result S A.

Fixpoint rbind {S A B} (r : result S A) (f : A → M S B) : result S B :=
  match r with
  | Ret a s => f a s
  | Panic m => Panic m
  | Swtch s k => Swtch s (λ s', rbind (k s') f)
  | Spin => Spin
  end.

Definition ret {S A} (a : A) : M S A := λ s, Ret a s.
Definition bind {S A B} (m : M S A) (f : A → M S B) : M S B := λ s, rbind (m s) f.
Definition panic {S A} (msg : string) : M S A := λ _, Panic msg.
Definition get {S} : M S S := λ s, Ret s s.
Definition gets {S A} (f : S → A) : M S A := λ s, Ret (f s) s.
Definition when {S} (b : bool) (m : M S unit) : M S unit := if b then m else ret tt.
Definition modify {S} (f : S → S) : M S unit := λ s, Ret tt (f s).

(** The number of wake-ups a sleep loop is followed through.  Theorems are
    stated for every value of it. *)
Class Wakeups := wakeups : nat.

Declare Scope kernel_scope.
Delimit Scope kernel_scope with kernel.
Notation "x <- c ;; k" := (bind c (λ x, k))
  (at level 100, c at next level, right associativity) : kernel_scope.
Notation "c ;;; k" := (bind c (λ _, k))
  (at level 100, right associativity) : kernel_scope.
#[global] Open Scope kernel_scope.

Lemma bind_ret_l {S A B} (a : A) (f : A → M S B) s : bind (ret a) f s = f a s.
Proof. done. Qed.

Lemma bind_gets {S A B} (g : S → A) (f : A → M S B) s : bind (gets g) f s = f (g s) s.
Proof. done. Qed.

Lemma bind_get {S B} (f : S → M S B) s : bind get f s = f s s.
Proof. done. Qed.

Lemma bind_modify {S B} (g : S → S) (f : unit → M S B) s : bind (modify g) f s = f tt (g s).
Proof. done. Qed.

Lemma bind_eq {S A B} (m : M S A) (f : A → M S B) s a s' :
  m s = Ret a s' → bind m f s = f a s'.
Proof. unfold bind. by intros ->. Qed.

(** A call at the head of a block that is itself the head of a bind. *)
Lemma bind_bind_eq {S A B C} (m : M S A) (f : A → M S B) (g : B → M S C) s a s' :
  m s = Ret a s' → bind (bind m f) g s = bind (f a) g s'.
Proof. unfold bind. by intros ->. Qed.

Lemma bind_bind_gets {S A B C} (h : S → A) (f : A → M S B) (g : B → M S C) s :
  bind (bind (gets h) f) g s = bind (f (h s)) g s.
Proof. done. Qed.

Lemma bind_bind_modify {S B C} (h : S → S) (f : unit → M S B) (g : B → M S C) s :
  bind (bind (modify h) f) g s = bind (f tt) g (h s).
Proof. done. Qed.

Lemma bind_bind_ret {S A B C} (a : A) (f : A → M S B) (g : B → M S C) s :
  bind (bind (ret a) f) g s = bind (f a) g s.
Proof. done. Qed.

Lemma bind_panic {S A B} (m : M S A) (f : A → M S B) s msg :
  m s = Panic msg → bind m f s = Panic msg.
Proof. unfold bind. by intros ->. Qed.

Lemma bind_inv {S A B} (m : M S A) (f : A → M S B) s b s' :
  bind m f s = Ret b s' → ∃ a s1, m s = Ret a s1 ∧ f a s1 = Ret b s'.
Proof. unfold bind. destruct (m s) eqn:E; simpl; naive_solver. Qed.

Create Rewrite HintDb monad.
#[export] Hint Rewrite @bind_ret_l @bind_gets @bind_get @bind_modify
  @bind_bind_gets @bind_bind_modify @bind_bind_ret : monad.

(** Run the monadic steps at the head of the goal. *)
Ltac mrun := autorewrite with monad; cbv beta.
(** Run the call at the head of the goal whose outcome [H] states. *)
Ltac mcall H := first [rewrite (bind_eq _ _ _ _ _ H) | rewrite (bind_bind_eq _ _ _ _ _ _ H)]; mrun.

(** Run the loop body on each element in turn, as [for(x = first; ..; x++)]. *)
Fixpoint foreach {S X} (l : list X) (body : X → M S unit) : M S unit :=
  match l with
  | [] => ret tt
  | x :: l' => body x ;;; foreach l' body
  end.

(** The same with a body that may leave the loop: [Some r] is the value the
    loop is left with, [None] goes on. *)
Fixpoint foreach_exit {S X R} (l : list X) (body : X → M S (option R)) : M S (option R) :=
  match l with
  | [] => ret None
  | x :: l' => o <- body x ;; match o with Some r => ret (Some r) | None => foreach_exit l' body end
  end.

Lemma foreach_app {S X} (l1 l2 : list X) (body : X → M S unit) s s1 :
  foreach l1 body s = Ret tt s1 → foreach (l1 ++ l2) body s = foreach l2 body s1.
Proof.
  revert s. induction l1 as [|x l1 IH]; intros s; simpl; [by intros [= ->]|].
  intros (a & s2 & Hx & Hl)%bind_inv. rewrite (bind_eq _ _ _ _ _ Hx). eauto.
Qed.

(** What a routine guarantees when it returns, if every time it gives up the
    CPU the other threads change the state within [rely]; it does not panic. *)
Inductive post {S A} (rely : S → S → Prop) (Q : A → S → Prop) : result S A → Prop :=
| post_ret a s : Q a s → post rely Q (Ret a s)
| post_swtch s resume : (∀ s', rely s s' → post rely Q (resume s')) → post rely Q (Swtch s resume)
| post_spin : post rely Q Spin.

Lemma post_rbind {S A B} (rely : S → S → Prop) (P : A → S → Prop) (Q : B → S → Prop) r (f : A → M S B) :
  post rely P r → (∀ a s, P a s → post rely Q (f a s)) → post rely Q (rbind r f).
Proof. intros H Hf. induction H; simpl; [by apply Hf|by constructor|constructor]. Qed.

Lemma post_bind {S A B} (rely : S → S → Prop) (P : A → S → Prop) (Q : B → S → Prop) (m : M S A) (f : A → M S B) s :
  post rely P (m s) → (∀ a s, P a s → post rely Q (f a s)) → post rely Q (bind m f s).
Proof. apply post_rbind. Qed.

Lemma post_weaken {S A} (rely : S → S → Prop) (P Q : A → S → Prop) r :
  post rely P r → (∀ a s, P a s → Q a s) → post rely Q r.
Proof. intros H HPQ. induction H; constructor; auto. Qed.

(** ** Lists *)

(** Index of the first element that satisfies [P]: the scans
    [for(p = tab; p < &tab[N]; p++) if(P(p)) goto found;]. *)
Fixpoint find_index {A} (P : A → bool) (l : list A) : option nat :=
  match l with
  | [] => None
  | x :: l' => if P x then Some O else S <$> find_index P l'
  end.

Lemma find_index_Some {A} (P : A → bool) (l : list A) i :
  find_index P l = Some i ↔
  (∃ x, l !! i = Some x ∧ P x = true) ∧ (∀ j y, (j < i)%nat → l !! j = Some y → P y = false).
Proof.
  revert i. induction l as [|x l IH]; intros i; simpl.
  - split; [done|]. intros [(? & Hl & _) _]. by rewrite lookup_nil in Hl.
  - destruct (P x) eqn:Px.
    + split.
      * intros [= <-]. split; [by exists x|]. lia.
      * intros [_ H]. destruct i; [done|]. specialize (H O x ltac:(lia) eq_refl). congruence.
    + split.
      * intros (k & Hk & ->)%fmap_Some. apply IH in Hk as [H1 H2]. split; [done|].
        intros [|j] y ? Hj; [by simplify_eq/=|]. apply (H2 j); [lia|done].
      * intros [(y & Hy & Py) H]. destruct i as [|i]; [simplify_eq/=; congruence|].
        rewrite (proj2 (IH i)); [done|]. split; [eauto|].
        intros j z ? Hz. apply (H (S j)); [lia|done].
Qed.

Lemma find_index_None {A} (P : A → bool) (l : list A) :
  find_index P l = None ↔ ∀ i y, l !! i = Some y → P y = false.
Proof.
  induction l as [|x l IH]; simpl.
  - split; [|done]. intros _ i y. by rewrite lookup_nil.
  - destruct (P x) eqn:Px.
    + split; [done|]. intros H. specialize (H O x eq_refl). congruence.
    + rewrite fmap_None, IH. split.
      * intros H [|i] y; simpl; [congruence|apply H].
      * intros H i y Hy. by apply (H (S i)).
Qed.

Lemma find_index_lt {A} (P : A → bool) (l : list A) i :
  find_index P l = Some i → (i < length l)%nat.
Proof. intros [(x & Hx & _) _]%find_index_Some. by apply lookup_lt_Some in Hx. Qed.

(** [splice l off new] overwrites [l] at [off .. off + length new), the effect
    of [memmove(l + off, new, n)] on an array [l]. *)
Definition splice {A} (l : list A) (off : nat) (new : list A) : list A :=
  take off l ++ new ++ drop (off + length new) l.

Lemma length_splice {A} (l : list A) off new :
  (off + length new ≤ length l)%nat → length (splice l off new) = length l.
Proof. intros. unfold splice. rewrite !length_app, length_take, length_drop. lia. Qed.

Lemma lookup_splice_in {A} (l : list A) off new i :
  (off + length new ≤ length l)%nat → (off ≤ i < off + length new)%nat →
  splice l off new !! i = new !! (i - off)%nat.
Proof.
  intros. unfold splice. rewrite lookup_app_r by (rewrite length_take; lia).
  rewrite length_take, Nat.min_l by lia. apply lookup_app_l. lia.
Qed.

Lemma lookup_splice_out {A} (l : list A) off new i :
  (off + length new ≤ length l)%nat → ¬ (off ≤ i < off + length new)%nat →
  splice l off new !! i = l !! i.
Proof.
  intros. unfold splice. destruct (decide (i < off)%nat).
  - rewrite lookup_app_l by (rewrite length_take; lia). by apply lookup_take_lt.
  - rewrite lookup_app_r by (rewrite length_take; lia).
    rewrite lookup_app_r by (rewrite length_take; lia).
    rewrite lookup_drop, length_take. f_equal. lia.
Qed.

(** Bytes [off .. off+n) of an array. *)
Definition slice {A} (l : list A) (off n : nat) : list A := take n (drop off l).

Lemma length_slice {A} (l : list A) off n :
  (off + n ≤ length l)%nat → length (slice l off n) = n.
Proof. intros. unfold slice. rewrite length_take, length_drop. lia. Qed.

Lemma lookup_slice {A} (l : list A) off n i :
  (i < n)%nat → slice l off n !! i = l !! (off + i)%nat.
Proof. intros. unfold slice. rewrite lookup_take_lt by done. apply lookup_drop. Qed.

Lemma slice_splice_same {A} (l : list A) off new :
  (off + length new ≤ length l)%nat → slice (splice l off new) off (length new) = new.
Proof.
  intros. unfold slice, splice.
  rewrite drop_app_length' by (rewrite length_take; lia).
  by rewrite take_app_length.
Qed.

Lemma slice_splice_disj {A} (l : list A) off new off' n :
  (off + length new ≤ length l)%nat → (off' + n ≤ length l)%nat →
  (off' + n ≤ off ∨ off + length new ≤ off')%nat →
  slice (splice l off new) off' n = slice l off' n.
Proof.
  intros. apply list_eq_same_length with n.
  - by rewrite length_slice.
  - rewrite length_slice; [done|]. rewrite length_splice; lia.
  - intros i x y Hi. rewrite !lookup_slice, lookup_splice_out by lia. congruence.
Qed.

(** ** Little-endian words in byte arrays *)

Definition bytes_of_u32 (v : Z) : list Z :=
  [u8 v; u8 (v / 256); u8 (v / 65536); u8 (v / 16777216)].
Definition bytes_of_u16 (v : Z) : list Z := [u8 v; u8 (v / 256)].

Definition u32_of_bytes (l : list Z) : Z :=
  match l with
  | [a; b; c; d] => a + 256 * b + 65536 * c + 16777216 * d
  | _ => 0
  end.
Definition u16_of_bytes (l : list Z) : Z :=
  match l with
  | [a; b] => a + 256 * b
  | _ => 0
  end.

Ltac divmod := unfold u32, u16, u8, is_u32, is_byte in *; Z.div_mod_to_equations; lia.

Lemma u32_of_bytes_of_u32 v : u32_of_bytes (bytes_of_u32 v) = u32 v.
Proof.
  unfold u32_of_bytes, bytes_of_u32. divmod.
Qed.

Lemma u16_of_bytes_of_u16 v : u16_of_bytes (bytes_of_u16 v) = u16 v.
Proof. unfold u16_of_bytes, bytes_of_u16. divmod. Qed.

Lemma bytes_of_u32_of_bytes l :
  length l = 4%nat → Forall is_byte l → bytes_of_u32 (u32_of_bytes l) = l.
Proof.
  destruct l as [|a [|b [|c [|d [|]]]]]; try discriminate. intros _.
  rewrite !Forall_cons. intros (? & ? & ? & ? & _).
  unfold bytes_of_u32, u32_of_bytes. repeat f_equal; divmod.
Qed.

Lemma bytes_of_u32_byte v : Forall is_byte (bytes_of_u32 v).
Proof. unfold bytes_of_u32. repeat constructor; apply u8_range. Qed.

(** The word at byte offset [off] of an array, and its update. *)
Definition get32 (l : list Z) (off : nat) : Z := u32_of_bytes (slice l off 4).
Definition put32 (l : list Z) (off : nat) (v : Z) : list Z := splice l off (bytes_of_u32 v).
Definition get16 (l : list Z) (off : nat) : Z := u16_of_bytes (slice l off 2).
Definition put16 (l : list Z) (off : nat) (v : Z) : list Z := splice l off (bytes_of_u16 v).

Lemma length_put32 l off v : (off + 4 ≤ length l)%nat → length (put32 l off v) = length l.
Proof. intros. by apply length_splice. Qed.

Lemma get32_put32_same l off v : (off + 4 ≤ length l)%nat → get32 (put32 l off v) off = u32 v.
Proof.
  intros. unfold get32, put32. change 4%nat with (length (bytes_of_u32 v)).
  rewrite slice_splice_same by done. apply u32_of_bytes_of_u32.
Qed.

Lemma get32_put32_disj l off off' v :
  (off + 4 ≤ length l)%nat → (off' + 4 ≤ length l)%nat → (off' + 4 ≤ off ∨ off + 4 ≤ off')%nat →
  get32 (put32 l off v) off' = get32 l off'.
Proof. intros. unfold get32, put32. by rewrite slice_splice_disj. Qed.
