(* ===== verification/Mem.v ===== *)
(** * Machine memory

    The memory the kernel dereferences, byte by byte.  Addresses are the kernel
    virtual addresses the C code computes with (the direct map at [KERNBASE]);
    a byte that was never written reads as 0.  [ld32]/[st32] are the 4-byte
    little-endian accesses of [uint] lvalues, [stosb]/[stosl] the string
    instructions of src/x86.h. *)

From S2P Require Import Prelude.

Notation mem := (gmap Z Z).

Definition ldb (m : mem) (a : Z) : Z := u8 (default 0 (m !! a)).
Definition stb (m : mem) (a v : Z) : mem := <[a := u8 v]> m.

Definition ld32 (m : mem) (a : Z) : Z :=
  u32_of_bytes [ldb m a; ldb m (a + 1); ldb m (a + 2); ldb m (a + 3)].
Definition st32 (m : mem) (a v : Z) : mem :=
  stb (stb (stb (stb m a v) (a + 1) (v / 256)) (a + 2) (v / 65536)) (a + 3) (v / 16777216).

(** [stosb(addr, data, cnt)]: store the low byte of [data] [cnt] times. *)
Fixpoint stosb (m : mem) (addr data : Z) (cnt : nat) : mem :=
  match cnt with
  | O => m
  | S c => stosb (stb m addr data) (addr + 1) data c
  end.

(** [stosl(addr, data, cnt)]: store the word [data] [cnt] times. *)
Fixpoint stosl (m : mem) (addr data : Z) (cnt : nat) : mem :=
  match cnt with
  | O => m
  | S c => stosl (st32 m addr data) (addr + 4) data c
  end.

(** The bytes [a .. a+n). *)
Definition mem_bytes (m : mem) (a : Z) (n : nat) : list Z :=
  (λ i : nat, ldb m (a + i)) <$> seq 0 n.

#[global] Arguments mem_bytes : simpl never.
#[global] Arguments ldb : simpl never.
#[global] Arguments stb : simpl never.
#[global] Arguments ld32 : simpl never.
#[global] Arguments st32 : simpl never.

Lemma ldb_stb m a v b : ldb (stb m a v) b = if decide (a = b) then u8 v else ldb m b.
Proof.
  unfold ldb, stb. case_decide as E.
  - subst. rewrite lookup_insert_eq. simpl. apply u8_small, u8_range.
  - by rewrite lookup_insert_ne.
Qed.

Lemma ldb_byte m a : is_byte (ldb m a).
Proof. apply u8_range. Qed.

Lemma u8_ldb m a : u8 (ldb m a) = ldb m a.
Proof. apply u8_small, ldb_byte. Qed.

Lemma ld32_range m a : is_u32 (ld32 m a).
Proof.
  pose proof (ldb_byte m a). pose proof (ldb_byte m (a + 1)).
  pose proof (ldb_byte m (a + 2)). pose proof (ldb_byte m (a + 3)).
  unfold ld32, u32_of_bytes, is_u32, is_byte in *. lia.
Qed.

#[export] Hint Resolve ldb_byte ld32_range : kernel.
#[export] Hint Rewrite u8_ldb : u32.

Lemma ldb_st32 m a v b :
  ldb (st32 m a v) b =
    if decide (b = a) then u8 v else
    if decide (b = a + 1) then u8 (v / 256) else
    if decide (b = a + 2) then u8 (v / 65536) else
    if decide (b = a + 3) then u8 (v / 16777216) else ldb m b.
Proof. unfold st32. rewrite !ldb_stb. repeat case_decide; done || lia. Qed.

Lemma ldb_st32_out m a v b : ¬ (a <= b < a + 4) → ldb (st32 m a v) b = ldb m b.
Proof. intros. rewrite ldb_st32. repeat case_decide; done || lia. Qed.

Lemma ld32_st32_same m a v : ld32 (st32 m a v) a = u32 v.
Proof.
  unfold ld32. rewrite !ldb_st32. repeat case_decide; try lia.
  apply (u32_of_bytes_of_u32 v).
Qed.

Lemma ld32_st32_ne m a v b : (b + 4 <= a ∨ a + 4 <= b) → ld32 (st32 m a v) b = ld32 m b.
Proof. intros. unfold ld32. by rewrite !ldb_st32_out by lia. Qed.

(** Word loads depend on the four bytes they read. *)
Lemma ld32_ext m m' a :
  (∀ b, a <= b < a + 4 → ldb m b = ldb m' b) → ld32 m a = ld32 m' a.
Proof. intros H. unfold ld32. by rewrite !H by lia. Qed.

Lemma ldb_stosb m a d c b :
  ldb (stosb m a d c) b = if decide (a <= b < a + c) then u8 d else ldb m b.
Proof.
  revert m a. induction c as [|c IH]; intros m a; simpl; [by case_decide; [lia|]|].
  rewrite IH, ldb_stb. repeat case_decide; done || lia.
Qed.

(** A word whose four bytes are all the byte [d] fills memory like [d] does. *)
Lemma ldb_stosl m a d c b :
  u8 (d / 256) = u8 d → u8 (d / 65536) = u8 d → u8 (d / 16777216) = u8 d →
  ldb (stosl m a d c) b = if decide (a <= b < a + 4 * c) then u8 d else ldb m b.
Proof.
  intros H1 H2 H3. revert m a.
  induction c as [|c IH]; intros m a; simpl; [by case_decide; [lia|]|].
  rewrite IH, ldb_st32, H1, H2, H3. repeat case_decide; done || lia.
Qed.

Lemma length_mem_bytes m a n : length (mem_bytes m a n) = n.
Proof. unfold mem_bytes. by rewrite length_fmap, length_seq. Qed.

Lemma lookup_mem_bytes m a n i :
  (i < n)%nat → mem_bytes m a n !! i = Some (ldb m (a + i)).
Proof.
  intros. unfold mem_bytes. rewrite list_lookup_fmap, lookup_seq_lt by done. done.
Qed.

Lemma mem_bytes_ext m m' a a' n :
  (∀ i : nat, (i < n)%nat → ldb m (a + i) = ldb m' (a' + i)) →
  mem_bytes m a n = mem_bytes m' a' n.
Proof.
  intros H. apply list_eq_same_length with n; [by rewrite length_mem_bytes..|].
  intros i x y Hi. rewrite !lookup_mem_bytes by done. rewrite H by done. congruence.
Qed.

Lemma mem_bytes_S m a n : mem_bytes m a (S n) = ldb m a :: mem_bytes m (a + 1) n.
Proof.
  unfold mem_bytes. rewrite <- cons_seq, fmap_cons. f_equal; [f_equal; lia|].
  rewrite <- fmap_S_seq, <- list_fmap_compose. apply list_fmap_ext.
  intros i x Hi. simpl. f_equal. lia.
Qed.
