(* ===== verification/CString.v ===== *)
(** * The C string and memory routines (src/string.c)

    Each routine is a function of the memory it runs on.  The theorems relate
    them to their contracts on byte sequences: [memmove] copies correctly even
    when source and destination overlap, both code paths of [memset] fill, the
    bounded string copies stay inside the destination and terminate it, and
    [strncmp] decides equality of bounded C strings. *)

From S2P Require Import Prelude Mem.

(** [memset(dst, c, n)]: word stores when both address and length are
    multiples of 4, byte stores otherwise. *)
Definition memset (m : mem) (dst c : Z) (n : nat) : mem :=
  if (Z.rem (i32 dst) 4 =? 0) && (Z.of_nat n mod 4 =? 0) then
    let c := Z.land c 255 in
    stosl m dst
      (Z.lor (Z.lor (Z.lor (Z.shiftl c 24) (Z.shiftl c 16)) (Z.shiftl c 8)) c) (n / 4)
  else stosb m dst c n.

(** [memcmp(v1, v2, n)]. *)
Fixpoint memcmp (m : mem) (v1 v2 : Z) (n : nat) : Z :=
  match n with
  | O => 0
  | S n => if negb (ldb m v1 =? ldb m v2) then ldb m v1 - ldb m v2
           else memcmp m (v1 + 1) (v2 + 1) n
  end.

(** The two loops of [memmove]: [*--d = *--s] from the end, [*d++ = *s++]. *)
Fixpoint move_down (m : mem) (d s : Z) (n : nat) : mem :=
  match n with
  | O => m
  | S n => move_down (stb m (d - 1) (ldb m (s - 1))) (d - 1) (s - 1) n
  end.
Fixpoint move_up (m : mem) (d s : Z) (n : nat) : mem :=
  match n with
  | O => m
  | S n => move_up (stb m d (ldb m s)) (d + 1) (s + 1) n
  end.
Definition memmove (m : mem) (dst src : Z) (n : nat) : mem :=
  let s := src in
  let d := dst in
  if (s <? d) && (s + n >? d) then move_down m (d + n) (s + n) n
  else move_up m d s n.

(** [strncmp(p, q, n)]. *)
Fixpoint strncmp (m : mem) (p q : Z) (n : nat) : Z :=
  match n with
  | O => 0
  | S n' =>
      if negb (ldb m p =? 0) && (ldb m p =? ldb m q) then strncmp m (p + 1) (q + 1) n'
      else ldb m p - ldb m q
  end.

(** [strncpy(s, t, n)]: copy up to and including the NUL, then zero the rest. *)
Fixpoint strncpy_zero (m : mem) (s : Z) (n : nat) : mem :=
  match n with
  | O => m
  | S n => strncpy_zero (stb m s 0) (s + 1) n
  end.
Fixpoint strncpy_loop (m : mem) (s t : Z) (n : nat) : mem :=
  match n with
  | O => m
  | S n =>
      let c := ldb m t in
      let m := stb m s c in
      if c =? 0 then strncpy_zero m (s + 1) n else strncpy_loop m (s + 1) (t + 1) n
  end.
Definition strncpy (m : mem) (s t n : Z) : mem := strncpy_loop m s t (Z.to_nat n).

(** [safestrcpy(s, t, n)]: the loop runs [n - 1] times at most; the final
    [*s = 0] is one past the byte last copied. *)
Fixpoint safestrcpy_loop (m : mem) (s t : Z) (n : nat) : mem * Z :=
  match n with
  | O => (m, s)
  | S n =>
      let c := ldb m t in
      let m := stb m s c in
      if c =? 0 then (m, s + 1) else safestrcpy_loop m (s + 1) (t + 1) n
  end.
Definition safestrcpy (m : mem) (s t n : Z) : mem :=
  if n <=? 0 then m
  else let '(m, s) := safestrcpy_loop m s t (Z.to_nat (n - 1)) in stb m s 0.

(** [strlen(s)] looks for the NUL in the first [fuel] bytes. *)
Fixpoint strlen_from (fuel : nat) (m : mem) (s n : Z) : option Z :=
  match fuel with
  | O => None
  | S fuel => if ldb m (s + n) =? 0 then Some n else strlen_from fuel m s (n + 1)
  end.
Definition strlen (fuel : nat) (m : mem) (s : Z) : option Z := strlen_from fuel m s 0.

(** ** The C string in a bounded array: the bytes before the first NUL, or all
    of them. *)
Fixpoint cstr (l : list Z) : list Z :=
  match l with
  | [] => []
  | c :: l => if c =? 0 then [] else c :: cstr l
  end.

(** ** Copies *)

Lemma fill_word_bytes (c : Z) :
  let k := Z.land c 255 in
  let w := Z.lor (Z.lor (Z.lor (Z.shiftl k 24) (Z.shiftl k 16)) (Z.shiftl k 8)) k in
  u8 w = u8 c ∧ u8 (w / 256) = u8 c ∧ u8 (w / 65536) = u8 c ∧ u8 (w / 16777216) = u8 c.
Proof.
  simpl. replace (Z.land c 255) with (u8 c).
  2: { change 255 with (Z.ones 8). by rewrite Z.land_ones by lia. }
  generalize (u8_range c). generalize (u8 c). clear c. unfold is_byte. intros k Hk.
  assert (Forall (λ k : Z,
    let w := Z.lor (Z.lor (Z.lor (Z.shiftl k 24) (Z.shiftl k 16)) (Z.shiftl k 8)) k in
    u8 w = k ∧ u8 (w / 256) = k ∧ u8 (w / 65536) = k ∧ u8 (w / 16777216) = k) (seqZ 0 256)) as HF.
  { eapply (bool_decide_unpack _ (dec := Forall_dec _ _)). vm_compute. exact I. }
  rewrite Forall_forall in HF. apply HF, elem_of_seqZ. lia.
Qed.

(** Both paths of [memset] fill exactly [dst .. dst+n) with the byte [c]. *)
Lemma ldb_memset m dst c (n : nat) b :
  ldb (memset m dst c n) b = if decide (dst <= b < dst + n) then u8 c else ldb m b.
Proof.
  unfold memset. destruct (fill_word_bytes c) as (H0 & H1 & H2 & H3).
  destruct ((Z.rem (i32 dst) 4 =? 0) && (Z.of_nat n mod 4 =? 0)) eqn:E;
    [|apply ldb_stosb].
  apply andb_true_iff in E as [_ E%Z.eqb_eq].
  rewrite ldb_stosl by congruence.
  replace (4 * Z.of_nat (n / 4)) with (Z.of_nat n); [by rewrite H0|].
  rewrite Nat2Z.inj_div. change (Z.of_nat 4) with 4. divmod.
Qed.

Lemma ldb_move_up (n : nat) : ∀ m d s b, (d <= s ∨ s + n <= d) →
  ldb (move_up m d s n) b = if decide (d <= b < d + n) then ldb m (s + (b - d)) else ldb m b.
Proof.
  induction n as [|n IH]; intros m d s b Hov; simpl; [by case_decide; [lia|]|].
  rewrite IH by lia. rewrite !ldb_stb, u8_ldb.
  repeat case_decide; first [lia | done | f_equal; lia].
Qed.

Lemma ldb_move_down (n : nat) : ∀ m d s b, s <= d →
  ldb (move_down m d s n) b =
    if decide (d - n <= b < d) then ldb m (s - (d - b)) else ldb m b.
Proof.
  induction n as [|n IH]; intros m d s b Hov; simpl; [by case_decide; [lia|]|].
  rewrite IH by lia. rewrite !ldb_stb, u8_ldb.
  repeat case_decide; first [lia | done | f_equal; lia].
Qed.

Lemma ldb_memmove m d s (n : nat) b :
  ldb (memmove m d s n) b = if decide (d <= b < d + n) then ldb m (s + (b - d)) else ldb m b.
Proof.
  unfold memmove. destruct ((s <? d) && (s + n >? d)) eqn:E.
  - apply andb_true_iff in E as [?%Z.ltb_lt _].
    rewrite ldb_move_down by lia. repeat case_decide; first [lia | done | f_equal; lia].
  - apply andb_false_iff in E as [?%Z.ltb_ge|?]; apply ldb_move_up; lia.
Qed.

(** [memmove]: overlapping or not, the destination receives the bytes the source held
    before the call, and nothing else changes. *)
Theorem memmove_copies m d s (n : nat) :
  mem_bytes (memmove m d s n) d n = mem_bytes m s n ∧
  ∀ b, ¬ (d <= b < d + n) → ldb (memmove m d s n) b = ldb m b.
Proof.
  split.
  - apply mem_bytes_ext. intros i Hi. rewrite ldb_memmove, decide_True by lia. f_equal. lia.
  - intros b Hb. by rewrite ldb_memmove, decide_False.
Qed.

(** ** Bounded strings *)

Lemma strncmp_cons m p q n :
  strncmp m p q (S n) = 0 ↔
  ldb m p = ldb m q ∧ (ldb m p = 0 ∨ strncmp m (p + 1) (q + 1) n = 0).
Proof.
  simpl. destruct (Z.eqb_spec (ldb m p) 0), (Z.eqb_spec (ldb m p) (ldb m q)); simpl; lia.
Qed.

(** [strncmp] returns 0 exactly when the two arrays hold the same C string. *)
Lemma strncmp_zero (n : nat) : ∀ m p q,
  strncmp m p q n = 0 ↔ cstr (mem_bytes m p n) = cstr (mem_bytes m q n).
Proof.
  induction n as [|n IH]; intros m p q; [done|].
  rewrite strncmp_cons, IH, !mem_bytes_S. simpl.
  destruct (Z.eqb_spec (ldb m p) 0) as [E1|E1], (Z.eqb_spec (ldb m q) 0) as [E2|E2].
  - rewrite E1, E2. tauto.
  - rewrite E1. split; [intros [? _]; congruence|done].
  - split; [intros [? _]; congruence|done].
  - split; [intros [-> [?|H]]; [done|by rewrite H]|]. intros [= -> ->]. auto.
Qed.

Lemma memcmp_zero (n : nat) : ∀ m p q,
  memcmp m p q n = 0 ↔ mem_bytes m p n = mem_bytes m q n.
Proof.
  induction n as [|n IH]; intros m p q; [done|].
  rewrite !mem_bytes_S. simpl. destruct (Z.eqb_spec (ldb m p) (ldb m q)) as [E|E]; simpl.
  - rewrite IH, E. split; [by intros ->|by intros [= ->]].
  - split; [lia|]. intros [= ? _]. congruence.
Qed.

Lemma strlen_from_spec (fuel : nat) : ∀ m s n,
  strlen_from fuel m s n =
    let l := cstr (mem_bytes m (s + n) fuel) in
    if decide (length l < fuel)%nat then Some (n + length l) else None.
Proof.
  induction fuel as [|fuel IH]; intros m s n; [done|].
  rewrite mem_bytes_S. simpl. rewrite IH. destruct (ldb m (s + n) =? 0); simpl.
  - f_equal. lia.
  - rewrite Z.add_assoc. repeat case_decide; first [lia | done | f_equal; lia].
Qed.

(** [strlen] is the length of the C string, whenever the search reaches its NUL. *)
Lemma strlen_spec (fuel : nat) m s :
  let l := cstr (mem_bytes m s fuel) in
  strlen fuel m s = if decide (length l < fuel)%nat then Some (length l : Z) else None.
Proof. unfold strlen. rewrite strlen_from_spec, Z.add_0_r. simpl. by case_decide. Qed.

Lemma ldb_strncpy_zero (n : nat) : ∀ m s b,
  ldb (strncpy_zero m s n) b = if decide (s <= b < s + n) then 0 else ldb m b.
Proof.
  induction n as [|n IH]; intros m s b; simpl; [by case_decide; [lia|]|].
  rewrite IH, ldb_stb. repeat case_decide; first [lia | done].
Qed.

Lemma ldb_strncpy_out (n : nat) : ∀ m s t b,
  ¬ (s <= b < s + n) → ldb (strncpy_loop m s t n) b = ldb m b.
Proof.
  induction n as [|n IH]; intros m s t b Hb; simpl; [done|].
  case_match; [rewrite ldb_strncpy_zero, decide_False by lia|rewrite IH by lia];
    by rewrite ldb_stb, decide_False by lia.
Qed.

(** A C string stored in an array of [n] bytes: the string, zero padded. *)
Definition pad (n : nat) (l : list Z) : list Z := l ++ replicate (n - length l) 0.

Lemma mem_bytes_strncpy (n : nat) : ∀ m s t,
  (s + n <= t ∨ t + n <= s) →
  mem_bytes (strncpy_loop m s t n) s n = pad n (cstr (mem_bytes m t n)).
Proof.
  induction n as [|n IH]; intros m s t Hd; [done|].
  rewrite (mem_bytes_S m t). simpl. unfold pad.
  destruct (Z.eqb_spec (ldb m t) 0) as [E|E]; rewrite mem_bytes_S; simpl.
  - rewrite ldb_strncpy_zero, decide_False, ldb_stb, decide_True, u8_ldb by lia.
    f_equal; [done|]. apply list_eq_same_length with n;
      [by rewrite length_replicate|by rewrite length_mem_bytes|].
    intros i x y Hi. rewrite lookup_mem_bytes, lookup_replicate_2 by done.
    rewrite ldb_strncpy_zero, decide_True by lia. congruence.
  - rewrite ldb_strncpy_out, ldb_stb, decide_True, u8_ldb by lia.
    rewrite IH by lia. unfold pad. f_equal.
    by rewrite (mem_bytes_ext (stb m s _) m (t + 1) (t + 1)) by
      (intros i Hi; rewrite ldb_stb, decide_False by lia; done).
Qed.

Lemma cstr_pad n l : cstr (pad n (cstr l)) = cstr l.
Proof.
  unfold pad. generalize (n - length (cstr l))%nat. intros k.
  induction l as [|c l IH]; simpl; [by destruct k|].
  destruct (c =? 0) eqn:E; simpl; [by destruct k|]. by rewrite E, IH.
Qed.

(** A directory entry's name written by [strncpy(de.name, name, n)] compares
    equal to [name] with [strncmp(name, de.name, n)], and the write stays
    inside the [n] bytes. *)
Theorem strncpy_strncmp m s t (n : nat) :
  (s + n <= t ∨ t + n <= s) →
  strncmp (strncpy m s t n) t s n = 0 ∧
  mem_bytes (strncpy m s t n) s n = pad n (cstr (mem_bytes m t n)) ∧
  ∀ b, ¬ (s <= b < s + n) → ldb (strncpy m s t n) b = ldb m b.
Proof.
  intros Hd. unfold strncpy. rewrite Nat2Z.id.
  split_and!; [|by apply mem_bytes_strncpy|intros; by apply ldb_strncpy_out].
  apply strncmp_zero. rewrite mem_bytes_strncpy, cstr_pad by done. f_equal.
  apply mem_bytes_ext. intros i Hi. apply ldb_strncpy_out. lia.
Qed.

Lemma safestrcpy_loop_out (k : nat) : ∀ m s t m' s',
  safestrcpy_loop m s t k = (m', s') →
  s <= s' <= s + k ∧ ∀ b, ¬ (s <= b < s + k) → ldb m' b = ldb m b.
Proof.
  induction k as [|k IH]; intros m s t m' s' H; simpl in H; [simplify_eq; split; [lia|done]|].
  case_match; [simplify_eq|apply IH in H as [? H]]; (split; [lia|]);
    intros b Hb; rewrite ?H by lia; by rewrite ldb_stb, decide_False by lia.
Qed.

Lemma safestrcpy_loop_cstr (k : nat) : ∀ m s t m' s',
  (s + k <= t ∨ t + k <= s) →
  safestrcpy_loop m s t k = (m', s') →
  cstr (mem_bytes (stb m' s' 0) s (S k)) = cstr (mem_bytes m t k).
Proof.
  induction k as [|k IH]; intros m s t m' s' Hd H; simpl in H.
  - simplify_eq. rewrite mem_bytes_S, ldb_stb, decide_True by done. done.
  - rewrite (mem_bytes_S m), mem_bytes_S. cbn [cstr].
    destruct (Z.eqb_spec (ldb m t) 0) as [E|E].
    + simplify_eq. rewrite ldb_stb, decide_False, ldb_stb, decide_True, E by lia. done.
    + pose proof (safestrcpy_loop_out _ _ _ _ _ _ H) as [? Hout].
      rewrite ldb_stb, decide_False, Hout, ldb_stb, decide_True, u8_ldb by lia.
      rewrite (proj2 (Z.eqb_neq _ _)) by done. f_equal.
      apply IH in H; [|lia]. rewrite H. f_equal.
      apply mem_bytes_ext. intros i Hi. by rewrite ldb_stb, decide_False by lia.
Qed.

Lemma length_cstr_nul l : (length (cstr l) < length l)%nat ↔ 0 ∈ l.
Proof.
  induction l as [|c l IH]; simpl; [rewrite elem_of_nil; lia|].
  rewrite elem_of_cons. destruct (Z.eqb_spec c 0); simpl; [subst; split; [auto|lia]|].
  rewrite <- Nat.succ_lt_mono, IH. split; [auto|]. intros [?|?]; [congruence|done].
Qed.

(** [safestrcpy] always leaves a terminated string: the source truncated to
    [n - 1] bytes; it writes nothing outside the [n] bytes of the destination. *)
Theorem safestrcpy_terminates m s t (n : nat) :
  (0 < n)%nat → (s + n <= t ∨ t + n <= s) →
  cstr (mem_bytes (safestrcpy m s t n) s n) = cstr (mem_bytes m t (n - 1)) ∧
  0 ∈ mem_bytes (safestrcpy m s t n) s n ∧
  ∀ b, ¬ (s <= b < s + n) → ldb (safestrcpy m s t n) b = ldb m b.
Proof.
  intros Hn Hd. destruct n as [|k]; [lia|]. unfold safestrcpy.
  rewrite (proj2 (Z.leb_gt _ _)) by lia.
  replace (Z.to_nat (S k - 1)) with k by lia.
  destruct (safestrcpy_loop m s t k) as [m' s'] eqn:E.
  pose proof (safestrcpy_loop_out _ _ _ _ _ _ E) as [Hs Hout].
  replace (S k - 1)%nat with k by lia.
  split_and!.
  - apply (safestrcpy_loop_cstr k); [lia|done].
  - apply list_elem_of_lookup. exists (Z.to_nat (s' - s)).
    rewrite lookup_mem_bytes by lia. rewrite ldb_stb, decide_True by lia. done.
  - intros b Hb. rewrite ldb_stb, decide_False by lia. apply Hout. lia.
Qed.

(** Clients reason with the lemmas above: unfolding a page-sized fill by
    conversion would run it. *)
#[global] Opaque memset memmove.

(** ** Examples *)

Lemma strncpy_strncmp_witness :
  let m := stb (stb ∅ 200 97) 201 98 in
  strncmp (strncpy m 100 200 14%nat) 200 100 14 = 0 ∧
  mem_bytes (strncpy m 100 200 14%nat) 100 14 = pad 14 (cstr (mem_bytes m 200 14)) ∧
  ∀ b, ¬ (100 <= b < 100 + 14%nat) → ldb (strncpy m 100 200 14%nat) b = ldb m b.
Proof. intros m. apply (strncpy_strncmp m 100 200 14). lia. Defined.

Lemma safestrcpy_terminates_witness :
  let m := stb (stb ∅ 200 97) 201 98 in
  cstr (mem_bytes (safestrcpy m 100 200 16%nat) 100 16) = cstr (mem_bytes m 200 15) ∧
  0 ∈ mem_bytes (safestrcpy m 100 200 16%nat) 100 16 ∧
  ∀ b, ¬ (100 <= b < 100 + 16%nat) → ldb (safestrcpy m 100 200 16%nat) b = ldb m b.
Proof. intros m. apply (safestrcpy_terminates m 100 200 16); lia. Defined.
