(* ===== verification/State.v ===== *)
(** * The kernel state

    The structures of the kernel's headers (src/proc.h, src/file.h, src/buf.h,
    src/fs.h, src/sleeplock.h, src/spinlock.h, src/x86.h), the constants of
    src/param.h, and the record of the globals the kernel code shares.  Every
    routine of the kernel is a computation in [K], the monad of the prelude over
    this record. *)

From S2P Require Import Prelude Mem.

(** ** Constants (src/param.h, src/fs.h, src/stat.h, src/buf.h) *)

Definition NPROC : nat := 64.
Definition KSTACKSIZE : Z := 4096.
Definition NCPU : nat := 8.
Definition NOFILE : nat := 16.
Definition NFILE : nat := 100.
Definition NINODE : nat := 50.
Definition NDEV : Z := 10.
Definition ROOTDEV : Z := 1.
Definition MAXARG : nat := 32.
Definition MAXOPBLOCKS : Z := 10.
Definition LOGSIZE : Z := MAXOPBLOCKS * 3.
Definition NBUF : nat := 30.
Definition FSSIZE : Z := 1000.
Definition BSIZE : nat := 512.
Definition PIPESIZE : Z := 512.
Definition B_VALID : Z := 2.
Definition B_DIRTY : Z := 4.

(** ** Enumerations *)

(** [enum procstate] of src/proc.h. *)
Inductive procstate := UNUSED | EMBRYO | SLEEPING | RUNNABLE | RUNNING | ZOMBIE.
#[export] Instance procstate_eq_dec : EqDecision procstate.
Proof. solve_decision. Defined.

(** [enum proc_prio] of src/proc.h; the kernel stores the raw integer. *)
Definition NORM_PRIO : Z := 0.
Definition HI_PRIO : Z := 1.

(** The type of a [struct file]. *)
Inductive filetype := FD_NONE | FD_PIPE | FD_INODE.
#[export] Instance filetype_eq_dec : EqDecision filetype.
Proof. solve_decision. Defined.

(** The spinlocks, by the object they are part of. *)
Inductive lock :=
| LPtable | LKmem | LTicks | LBcache | LIcache | LLog | LFtable | LCons | LIde
| LBuf (i : nat) | LInode (i : nat) | LPipe (a : Z).
#[export] Instance lock_eq_dec : EqDecision lock.
Proof. solve_decision. Defined.

(** The sleep channels, the addresses the code passes to [sleep] and [wakeup]:
    a process, the sleep-lock of a buffer or an inode, a buffer, [&log], a
    pipe's [&nread] and [&nwrite], [&ticks], [&input.r]. *)
Inductive chan :=
| CProc (i : nat) | CBufLock (i : nat) | CInodeLock (i : nat) | CBuf (i : nat)
| CLog | CPipeR (a : Z) | CPipeW (a : Z) | CTicks | CInput.
#[export] Instance chan_eq_dec : EqDecision chan.
Proof. solve_decision. Defined.

(** ** Structures *)

(** [struct context] of src/proc.h: the registers saved by [swtch]. *)
Record context := mkContext {
  cx_edi : Z;
  cx_esi : Z;
  cx_ebx : Z;
  cx_ebp : Z;
  cx_eip : Z
}.

Definition set_cx_eip (v : Z) (x : context) : context := mkContext (cx_edi x) (cx_esi x) (cx_ebx
  x) (cx_ebp x) v.

(** [struct trapframe] of src/x86.h (without the ignored [oesp] and the padding). *)
Record trapframe := mkTrapframe {
  tf_edi : Z;
  tf_esi : Z;
  tf_ebp : Z;
  tf_ebx : Z;
  tf_edx : Z;
  tf_ecx : Z;
  tf_eax : Z;
  tf_gs : Z;
  tf_fs : Z;
  tf_es : Z;
  tf_ds : Z;
  tf_trapno : Z;
  tf_err : Z;
  tf_eip : Z;
  tf_cs : Z;
  tf_eflags : Z;
  tf_esp : Z;
  tf_ss : Z
}.

Definition set_tf_eax (v : Z) (x : trapframe) : trapframe := mkTrapframe (tf_edi x) (tf_esi x)
  (tf_ebp x) (tf_ebx x) (tf_edx x) (tf_ecx x) v (tf_gs x) (tf_fs x) (tf_es x) (tf_ds x)
  (tf_trapno x) (tf_err x) (tf_eip x) (tf_cs x) (tf_eflags x) (tf_esp x) (tf_ss x).
Definition set_tf_es (v : Z) (x : trapframe) : trapframe := mkTrapframe (tf_edi x) (tf_esi x)
  (tf_ebp x) (tf_ebx x) (tf_edx x) (tf_ecx x) (tf_eax x) (tf_gs x) (tf_fs x) v (tf_ds x)
  (tf_trapno x) (tf_err x) (tf_eip x) (tf_cs x) (tf_eflags x) (tf_esp x) (tf_ss x).
Definition set_tf_ds (v : Z) (x : trapframe) : trapframe := mkTrapframe (tf_edi x) (tf_esi x)
  (tf_ebp x) (tf_ebx x) (tf_edx x) (tf_ecx x) (tf_eax x) (tf_gs x) (tf_fs x) (tf_es x) v
  (tf_trapno x) (tf_err x) (tf_eip x) (tf_cs x) (tf_eflags x) (tf_esp x) (tf_ss x).
Definition set_tf_eip (v : Z) (x : trapframe) : trapframe := mkTrapframe (tf_edi x) (tf_esi x)
  (tf_ebp x) (tf_ebx x) (tf_edx x) (tf_ecx x) (tf_eax x) (tf_gs x) (tf_fs x) (tf_es x) (tf_ds x)
  (tf_trapno x) (tf_err x) v (tf_cs x) (tf_eflags x) (tf_esp x) (tf_ss x).
Definition set_tf_cs (v : Z) (x : trapframe) : trapframe := mkTrapframe (tf_edi x) (tf_esi x)
  (tf_ebp x) (tf_ebx x) (tf_edx x) (tf_ecx x) (tf_eax x) (tf_gs x) (tf_fs x) (tf_es x) (tf_ds x)
  (tf_trapno x) (tf_err x) (tf_eip x) v (tf_eflags x) (tf_esp x) (tf_ss x).
Definition set_tf_eflags (v : Z) (x : trapframe) : trapframe := mkTrapframe (tf_edi x) (tf_esi
  x) (tf_ebp x) (tf_ebx x) (tf_edx x) (tf_ecx x) (tf_eax x) (tf_gs x) (tf_fs x) (tf_es x) (tf_ds
  x) (tf_trapno x) (tf_err x) (tf_eip x) (tf_cs x) v (tf_esp x) (tf_ss x).
Definition set_tf_esp (v : Z) (x : trapframe) : trapframe := mkTrapframe (tf_edi x) (tf_esi x)
  (tf_ebp x) (tf_ebx x) (tf_edx x) (tf_ecx x) (tf_eax x) (tf_gs x) (tf_fs x) (tf_es x) (tf_ds x)
  (tf_trapno x) (tf_err x) (tf_eip x) (tf_cs x) (tf_eflags x) v (tf_ss x).
Definition set_tf_ss (v : Z) (x : trapframe) : trapframe := mkTrapframe (tf_edi x) (tf_esi x)
  (tf_ebp x) (tf_ebx x) (tf_edx x) (tf_ecx x) (tf_eax x) (tf_gs x) (tf_fs x) (tf_es x) (tf_ds x)
  (tf_trapno x) (tf_err x) (tf_eip x) (tf_cs x) (tf_eflags x) (tf_esp x) v.


(** [struct proc] of src/proc.h.  Pointers into [ptable], [ftable] and [icache]
    are indices; [tf] and [context], which the C code keeps on the kernel stack,
    are fields.  [prio] is the raw enum value. *)
Record proc := mkProc {
  p_sz : Z;
  p_pgdir : Z;
  p_kstack : Z;
  p_state : procstate;
  p_pid : Z;
  p_parent : option nat;
  p_tf : trapframe;
  p_context : context;
  p_chan : option chan;
  p_killed : bool;
  p_ofile : list (option nat);
  p_cwd : option nat;
  p_name : list Z;
  p_exit_status : Z;
  p_guard_page : Z;
  p_prio : Z
}.

Definition set_p_sz (v : Z) (x : proc) : proc := mkProc v (p_pgdir x) (p_kstack x) (p_state x)
  (p_pid x) (p_parent x) (p_tf x) (p_context x) (p_chan x) (p_killed x) (p_ofile x) (p_cwd x)
  (p_name x) (p_exit_status x) (p_guard_page x) (p_prio x).
Definition set_p_pgdir (v : Z) (x : proc) : proc := mkProc (p_sz x) v (p_kstack x) (p_state x)
  (p_pid x) (p_parent x) (p_tf x) (p_context x) (p_chan x) (p_killed x) (p_ofile x) (p_cwd x)
  (p_name x) (p_exit_status x) (p_guard_page x) (p_prio x).
Definition set_p_kstack (v : Z) (x : proc) : proc := mkProc (p_sz x) (p_pgdir x) v (p_state x)
  (p_pid x) (p_parent x) (p_tf x) (p_context x) (p_chan x) (p_killed x) (p_ofile x) (p_cwd x)
  (p_name x) (p_exit_status x) (p_guard_page x) (p_prio x).
Definition set_p_state (v : procstate) (x : proc) : proc := mkProc (p_sz x) (p_pgdir x)
  (p_kstack x) v (p_pid x) (p_parent x) (p_tf x) (p_context x) (p_chan x) (p_killed x) (p_ofile
  x) (p_cwd x) (p_name x) (p_exit_status x) (p_guard_page x) (p_prio x).
Definition set_p_pid (v : Z) (x : proc) : proc := mkProc (p_sz x) (p_pgdir x) (p_kstack x)
  (p_state x) v (p_parent x) (p_tf x) (p_context x) (p_chan x) (p_killed x) (p_ofile x) (p_cwd
  x) (p_name x) (p_exit_status x) (p_guard_page x) (p_prio x).
Definition set_p_parent (v : option nat) (x : proc) : proc := mkProc (p_sz x) (p_pgdir x)
  (p_kstack x) (p_state x) (p_pid x) v (p_tf x) (p_context x) (p_chan x) (p_killed x) (p_ofile
  x) (p_cwd x) (p_name x) (p_exit_status x) (p_guard_page x) (p_prio x).
Definition set_p_tf (v : trapframe) (x : proc) : proc := mkProc (p_sz x) (p_pgdir x) (p_kstack
  x) (p_state x) (p_pid x) (p_parent x) v (p_context x) (p_chan x) (p_killed x) (p_ofile x)
  (p_cwd x) (p_name x) (p_exit_status x) (p_guard_page x) (p_prio x).
Definition set_p_context (v : context) (x : proc) : proc := mkProc (p_sz x) (p_pgdir x)
  (p_kstack x) (p_state x) (p_pid x) (p_parent x) (p_tf x) v (p_chan x) (p_killed x) (p_ofile x)
  (p_cwd x) (p_name x) (p_exit_status x) (p_guard_page x) (p_prio x).
Definition set_p_chan (v : option chan) (x : proc) : proc := mkProc (p_sz x) (p_pgdir x)
  (p_kstack x) (p_state x) (p_pid x) (p_parent x) (p_tf x) (p_context x) v (p_killed x) (p_ofile
  x) (p_cwd x) (p_name x) (p_exit_status x) (p_guard_page x) (p_prio x).
Definition set_p_killed (v : bool) (x : proc) : proc := mkProc (p_sz x) (p_pgdir x) (p_kstack x)
  (p_state x) (p_pid x) (p_parent x) (p_tf x) (p_context x) (p_chan x) v (p_ofile x) (p_cwd x)
  (p_name x) (p_exit_status x) (p_guard_page x) (p_prio x).
Definition set_p_ofile (v : list (option nat)) (x : proc) : proc := mkProc (p_sz x) (p_pgdir x)
  (p_kstack x) (p_state x) (p_pid x) (p_parent x) (p_tf x) (p_context x) (p_chan x) (p_killed x)
  v (p_cwd x) (p_name x) (p_exit_status x) (p_guard_page x) (p_prio x).
Definition set_p_cwd (v : option nat) (x : proc) : proc := mkProc (p_sz x) (p_pgdir x) (p_kstack
  x) (p_state x) (p_pid x) (p_parent x) (p_tf x) (p_context x) (p_chan x) (p_killed x) (p_ofile
  x) v (p_name x) (p_exit_status x) (p_guard_page x) (p_prio x).
Definition set_p_name (v : list Z) (x : proc) : proc := mkProc (p_sz x) (p_pgdir x) (p_kstack x)
  (p_state x) (p_pid x) (p_parent x) (p_tf x) (p_context x) (p_chan x) (p_killed x) (p_ofile x)
  (p_cwd x) v (p_exit_status x) (p_guard_page x) (p_prio x).
Definition set_p_exit_status (v : Z) (x : proc) : proc := mkProc (p_sz x) (p_pgdir x) (p_kstack
  x) (p_state x) (p_pid x) (p_parent x) (p_tf x) (p_context x) (p_chan x) (p_killed x) (p_ofile
  x) (p_cwd x) (p_name x) v (p_guard_page x) (p_prio x).
Definition set_p_guard_page (v : Z) (x : proc) : proc := mkProc (p_sz x) (p_pgdir x) (p_kstack
  x) (p_state x) (p_pid x) (p_parent x) (p_tf x) (p_context x) (p_chan x) (p_killed x) (p_ofile
  x) (p_cwd x) (p_name x) (p_exit_status x) v (p_prio x).
Definition set_p_prio (v : Z) (x : proc) : proc := mkProc (p_sz x) (p_pgdir x) (p_kstack x)
  (p_state x) (p_pid x) (p_parent x) (p_tf x) (p_context x) (p_chan x) (p_killed x) (p_ofile x)
  (p_cwd x) (p_name x) (p_exit_status x) (p_guard_page x) v.


(** [struct file] of src/file.h; [f_pipe] is the address [kalloc] returned for the pipe. *)
Record file := mkFile {
  f_type : filetype;
  f_ref : Z;
  f_readable : bool;
  f_writable : bool;
  f_pipe : Z;
  f_ip : option nat;
  f_off : Z
}.

Definition set_f_type (v : filetype) (x : file) : file := mkFile v (f_ref x) (f_readable x)
  (f_writable x) (f_pipe x) (f_ip x) (f_off x).
Definition set_f_ref (v : Z) (x : file) : file := mkFile (f_type x) v (f_readable x) (f_writable
  x) (f_pipe x) (f_ip x) (f_off x).
Definition set_f_readable (v : bool) (x : file) : file := mkFile (f_type x) (f_ref x) v
  (f_writable x) (f_pipe x) (f_ip x) (f_off x).
Definition set_f_writable (v : bool) (x : file) : file := mkFile (f_type x) (f_ref x)
  (f_readable x) v (f_pipe x) (f_ip x) (f_off x).
Definition set_f_pipe (v : Z) (x : file) : file := mkFile (f_type x) (f_ref x) (f_readable x)
  (f_writable x) v (f_ip x) (f_off x).
Definition set_f_ip (v : option nat) (x : file) : file := mkFile (f_type x) (f_ref x)
  (f_readable x) (f_writable x) (f_pipe x) v (f_off x).
Definition set_f_off (v : Z) (x : file) : file := mkFile (f_type x) (f_ref x) (f_readable x)
  (f_writable x) (f_pipe x) (f_ip x) v.

(** [struct sleeplock] of src/sleeplock.h; its inner spinlock is a [lock] name. *)
Record sleeplock := mkSleeplock {
  lk_locked : bool;
  lk_pid : Z
}.

Definition set_lk_locked (v : bool) (x : sleeplock) : sleeplock := mkSleeplock v (lk_pid x).
Definition set_lk_pid (v : Z) (x : sleeplock) : sleeplock := mkSleeplock (lk_locked x) v.

(** [struct inode] of src/file.h, the in-memory copy of an inode. *)
Record inode := mkInode {
  i_dev : Z;
  i_inum : Z;
  i_ref : Z;
  i_lock : sleeplock;
  i_valid : bool;
  i_type : Z;
  i_major : Z;
  i_minor : Z;
  i_nlink : Z;
  i_size : Z;
  i_addrs : list Z
}.

Definition set_i_dev (v : Z) (x : inode) : inode := mkInode v (i_inum x) (i_ref x) (i_lock x)
  (i_valid x) (i_type x) (i_major x) (i_minor x) (i_nlink x) (i_size x) (i_addrs x).
Definition set_i_inum (v : Z) (x : inode) : inode := mkInode (i_dev x) v (i_ref x) (i_lock x)
  (i_valid x) (i_type x) (i_major x) (i_minor x) (i_nlink x) (i_size x) (i_addrs x).
Definition set_i_ref (v : Z) (x : inode) : inode := mkInode (i_dev x) (i_inum x) v (i_lock x)
  (i_valid x) (i_type x) (i_major x) (i_minor x) (i_nlink x) (i_size x) (i_addrs x).
Definition set_i_lock (v : sleeplock) (x : inode) : inode := mkInode (i_dev x) (i_inum x) (i_ref
  x) v (i_valid x) (i_type x) (i_major x) (i_minor x) (i_nlink x) (i_size x) (i_addrs x).
Definition set_i_valid (v : bool) (x : inode) : inode := mkInode (i_dev x) (i_inum x) (i_ref x)
  (i_lock x) v (i_type x) (i_major x) (i_minor x) (i_nlink x) (i_size x) (i_addrs x).
Definition set_i_type (v : Z) (x : inode) : inode := mkInode (i_dev x) (i_inum x) (i_ref x)
  (i_lock x) (i_valid x) v (i_major x) (i_minor x) (i_nlink x) (i_size x) (i_addrs x).
Definition set_i_major (v : Z) (x : inode) : inode := mkInode (i_dev x) (i_inum x) (i_ref x)
  (i_lock x) (i_valid x) (i_type x) v (i_minor x) (i_nlink x) (i_size x) (i_addrs x).
Definition set_i_minor (v : Z) (x : inode) : inode := mkInode (i_dev x) (i_inum x) (i_ref x)
  (i_lock x) (i_valid x) (i_type x) (i_major x) v (i_nlink x) (i_size x) (i_addrs x).
Definition set_i_nlink (v : Z) (x : inode) : inode := mkInode (i_dev x) (i_inum x) (i_ref x)
  (i_lock x) (i_valid x) (i_type x) (i_major x) (i_minor x) v (i_size x) (i_addrs x).
Definition set_i_size (v : Z) (x : inode) : inode := mkInode (i_dev x) (i_inum x) (i_ref x)
  (i_lock x) (i_valid x) (i_type x) (i_major x) (i_minor x) (i_nlink x) v (i_addrs x).
Definition set_i_addrs (v : list Z) (x : inode) : inode := mkInode (i_dev x) (i_inum x) (i_ref
  x) (i_lock x) (i_valid x) (i_type x) (i_major x) (i_minor x) (i_nlink x) (i_size x) v.

(** [struct buf] of src/buf.h; [prev] and [next] are indices into [bcache]. *)
Record buf := mkBuf {
  b_flags : Z;
  b_dev : Z;
  b_blockno : Z;
  b_lock : sleeplock;
  b_refcnt : Z;
  b_prev : nat;
  b_next : nat;
  b_data : list Z
}.

Definition set_b_flags (v : Z) (x : buf) : buf := mkBuf v (b_dev x) (b_blockno x) (b_lock x)
  (b_refcnt x) (b_prev x) (b_next x) (b_data x).
Definition set_b_dev (v : Z) (x : buf) : buf := mkBuf (b_flags x) v (b_blockno x) (b_lock x)
  (b_refcnt x) (b_prev x) (b_next x) (b_data x).
Definition set_b_blockno (v : Z) (x : buf) : buf := mkBuf (b_flags x) (b_dev x) v (b_lock x)
  (b_refcnt x) (b_prev x) (b_next x) (b_data x).
Definition set_b_lock (v : sleeplock) (x : buf) : buf := mkBuf (b_flags x) (b_dev x) (b_blockno
  x) v (b_refcnt x) (b_prev x) (b_next x) (b_data x).
Definition set_b_refcnt (v : Z) (x : buf) : buf := mkBuf (b_flags x) (b_dev x) (b_blockno x)
  (b_lock x) v (b_prev x) (b_next x) (b_data x).
Definition set_b_prev (v : nat) (x : buf) : buf := mkBuf (b_flags x) (b_dev x) (b_blockno x)
  (b_lock x) (b_refcnt x) v (b_next x) (b_data x).
Definition set_b_next (v : nat) (x : buf) : buf := mkBuf (b_flags x) (b_dev x) (b_blockno x)
  (b_lock x) (b_refcnt x) (b_prev x) v (b_data x).
Definition set_b_data (v : list Z) (x : buf) : buf := mkBuf (b_flags x) (b_dev x) (b_blockno x)
  (b_lock x) (b_refcnt x) (b_prev x) (b_next x) v.

(** [struct superblock] of src/fs.h. *)
Record superblock := mkSuperblock {
  sb_size : Z;
  sb_nblocks : Z;
  sb_ninodes : Z;
  sb_nlog : Z;
  sb_logstart : Z;
  sb_inodestart : Z;
  sb_bmapstart : Z
}.


(** [struct log] of src/log.c with its [struct logheader] ([lh_n], [lh_block]). *)
Record log := mkLog {
  l_start : Z;
  l_size : Z;
  l_outstanding : Z;
  l_committing : bool;
  l_dev : Z;
  lh_n : Z;
  lh_block : list Z
}.

Definition set_l_start (v : Z) (x : log) : log := mkLog v (l_size x) (l_outstanding x)
  (l_committing x) (l_dev x) (lh_n x) (lh_block x).
Definition set_l_size (v : Z) (x : log) : log := mkLog (l_start x) v (l_outstanding x)
  (l_committing x) (l_dev x) (lh_n x) (lh_block x).
Definition set_l_outstanding (v : Z) (x : log) : log := mkLog (l_start x) (l_size x) v
  (l_committing x) (l_dev x) (lh_n x) (lh_block x).
Definition set_l_committing (v : bool) (x : log) : log := mkLog (l_start x) (l_size x)
  (l_outstanding x) v (l_dev x) (lh_n x) (lh_block x).
Definition set_l_dev (v : Z) (x : log) : log := mkLog (l_start x) (l_size x) (l_outstanding x)
  (l_committing x) v (lh_n x) (lh_block x).
Definition set_lh_n (v : Z) (x : log) : log := mkLog (l_start x) (l_size x) (l_outstanding x)
  (l_committing x) (l_dev x) v (lh_block x).
Definition set_lh_block (v : list Z) (x : log) : log := mkLog (l_start x) (l_size x)
  (l_outstanding x) (l_committing x) (l_dev x) (lh_n x) v.

(** [struct pipe] of src/pipe.c. *)
Record pipe := mkPipe {
  pi_data : list Z;
  pi_nread : Z;
  pi_nwrite : Z;
  pi_readopen : bool;
  pi_writeopen : bool
}.

Definition set_pi_data (v : list Z) (x : pipe) : pipe := mkPipe v (pi_nread x) (pi_nwrite x)
  (pi_readopen x) (pi_writeopen x).
Definition set_pi_nread (v : Z) (x : pipe) : pipe := mkPipe (pi_data x) v (pi_nwrite x)
  (pi_readopen x) (pi_writeopen x).
Definition set_pi_nwrite (v : Z) (x : pipe) : pipe := mkPipe (pi_data x) (pi_nread x) v
  (pi_readopen x) (pi_writeopen x).
Definition set_pi_readopen (v : bool) (x : pipe) : pipe := mkPipe (pi_data x) (pi_nread x)
  (pi_nwrite x) v (pi_writeopen x).
Definition set_pi_writeopen (v : bool) (x : pipe) : pipe := mkPipe (pi_data x) (pi_nread x)
  (pi_nwrite x) (pi_readopen x) v.

(** The console's [input] ring of src/console.c. *)
Record input := mkInput {
  in_buf : list Z;
  in_r : Z;
  in_w : Z;
  in_e : Z
}.

Definition set_in_buf (v : list Z) (x : input) : input := mkInput v (in_r x) (in_w x) (in_e x).
Definition set_in_r (v : Z) (x : input) : input := mkInput (in_buf x) v (in_w x) (in_e x).
Definition set_in_w (v : Z) (x : input) : input := mkInput (in_buf x) (in_r x) v (in_e x).
Definition set_in_e (v : Z) (x : input) : input := mkInput (in_buf x) (in_r x) (in_w x) v.

(** The disk: its number of blocks ([disksize] of src/memide.c), its contents by
    block number, and the block writes so far, oldest first (a history kept for
    stating crash safety; no code reads it). *)
Record disk := mkDisk {
  d_size : Z;
  d_blocks : gmap Z (list Z);
  d_trace : list (Z * list Z)
}.



(** The console's output devices: the 25 rows of 80 cells of the CGA memory and
    its cursor, whether there is a serial port, what has been sent to it (oldest
    first), and the [panicked] flag of src/console.c. *)
Record screen := mkScreen {
  sc_crt : list Z;
  sc_pos : Z;
  sc_uart : bool;
  sc_serial : list Z;
  sc_panicked : bool
}.

Definition set_sc_crt (v : list Z) (x : screen) : screen := mkScreen v (sc_pos x) (sc_uart x)
  (sc_serial x) (sc_panicked x).
Definition set_sc_pos (v : Z) (x : screen) : screen := mkScreen (sc_crt x) v (sc_uart x)
  (sc_serial x) (sc_panicked x).
Definition set_sc_serial (v : list Z) (x : screen) : screen := mkScreen (sc_crt x) (sc_pos x)
  (sc_uart x) v (sc_panicked x).

(** The state of src/ide.c and its controller: [idequeue], the buffers linked by
    [qnext]; [havedisk1]; the disk and sector of the last command; the contents of
    disk 0 (disk 1, with the file system, is [k_disk]). *)
Record ide := mkIde {
  ide_queue : list nat;
  ide_havedisk1 : bool;
  ide_cmd : Z * Z;
  ide_disk0 : disk
}.

Definition set_ide_queue (v : list nat) (x : ide) : ide := mkIde v (ide_havedisk1 x) (ide_cmd x)
  (ide_disk0 x).
Definition set_ide_cmd (v : Z * Z) (x : ide) : ide := mkIde (ide_queue x) (ide_havedisk1 x) v
  (ide_disk0 x).
Definition set_ide_disk0 (v : disk) (x : ide) : ide := mkIde (ide_queue x) (ide_havedisk1 x)
  (ide_cmd x) v.

(** The kernel's globals, and the memory it manages.  [k_cur] is [myproc()] on
    the executing CPU, [k_held] the spinlocks that CPU holds, innermost first. *)
Record kernel := mkKernel {
  k_mem : mem;
  k_freelist : Z;
  k_use_lock : bool;
  k_kpgdir : Z;
  k_cr3 : Z;
  k_ptable : list proc;
  k_nextpid : Z;
  k_initproc : option nat;
  k_cur : option nat;
  k_held : list lock;
  k_ticks : Z;
  k_ftable : list file;
  k_pipes : gmap Z pipe;
  k_icache : list inode;
  k_sb : superblock;
  k_bcache : list buf;
  k_disk : disk;
  k_log : log;
  k_input : input;
  k_screen : screen;
  k_shift : Z;
  k_ide : ide
}.

Definition set_k_mem (v : mem) (x : kernel) : kernel := mkKernel v (k_freelist x) (k_use_lock x)
  (k_kpgdir x) (k_cr3 x) (k_ptable x) (k_nextpid x) (k_initproc x) (k_cur x) (k_held x) (k_ticks
  x) (k_ftable x) (k_pipes x) (k_icache x) (k_sb x) (k_bcache x) (k_disk x) (k_log x) (k_input
  x) (k_screen x) (k_shift x) (k_ide x).
Definition set_k_freelist (v : Z) (x : kernel) : kernel := mkKernel (k_mem x) v (k_use_lock x)
  (k_kpgdir x) (k_cr3 x) (k_ptable x) (k_nextpid x) (k_initproc x) (k_cur x) (k_held x) (k_ticks
  x) (k_ftable x) (k_pipes x) (k_icache x) (k_sb x) (k_bcache x) (k_disk x) (k_log x) (k_input
  x) (k_screen x) (k_shift x) (k_ide x).
Definition set_k_use_lock (v : bool) (x : kernel) : kernel := mkKernel (k_mem x) (k_freelist x)
  v (k_kpgdir x) (k_cr3 x) (k_ptable x) (k_nextpid x) (k_initproc x) (k_cur x) (k_held x)
  (k_ticks x) (k_ftable x) (k_pipes x) (k_icache x) (k_sb x) (k_bcache x) (k_disk x) (k_log x)
  (k_input x) (k_screen x) (k_shift x) (k_ide x).
Definition set_k_kpgdir (v : Z) (x : kernel) : kernel := mkKernel (k_mem x) (k_freelist x)
  (k_use_lock x) v (k_cr3 x) (k_ptable x) (k_nextpid x) (k_initproc x) (k_cur x) (k_held x)
  (k_ticks x) (k_ftable x) (k_pipes x) (k_icache x) (k_sb x) (k_bcache x) (k_disk x) (k_log x)
  (k_input x) (k_screen x) (k_shift x) (k_ide x).
Definition set_k_cr3 (v : Z) (x : kernel) : kernel := mkKernel (k_mem x) (k_freelist x)
  (k_use_lock x) (k_kpgdir x) v (k_ptable x) (k_nextpid x) (k_initproc x) (k_cur x) (k_held x)
  (k_ticks x) (k_ftable x) (k_pipes x) (k_icache x) (k_sb x) (k_bcache x) (k_disk x) (k_log x)
  (k_input x) (k_screen x) (k_shift x) (k_ide x).
Definition set_k_ptable (v : list proc) (x : kernel) : kernel := mkKernel (k_mem x) (k_freelist
  x) (k_use_lock x) (k_kpgdir x) (k_cr3 x) v (k_nextpid x) (k_initproc x) (k_cur x) (k_held x)
  (k_ticks x) (k_ftable x) (k_pipes x) (k_icache x) (k_sb x) (k_bcache x) (k_disk x) (k_log x)
  (k_input x) (k_screen x) (k_shift x) (k_ide x).
Definition set_k_nextpid (v : Z) (x : kernel) : kernel := mkKernel (k_mem x) (k_freelist x)
  (k_use_lock x) (k_kpgdir x) (k_cr3 x) (k_ptable x) v (k_initproc x) (k_cur x) (k_held x)
  (k_ticks x) (k_ftable x) (k_pipes x) (k_icache x) (k_sb x) (k_bcache x) (k_disk x) (k_log x)
  (k_input x) (k_screen x) (k_shift x) (k_ide x).
Definition set_k_initproc (v : option nat) (x : kernel) : kernel := mkKernel (k_mem x)
  (k_freelist x) (k_use_lock x) (k_kpgdir x) (k_cr3 x) (k_ptable x) (k_nextpid x) v (k_cur x)
  (k_held x) (k_ticks x) (k_ftable x) (k_pipes x) (k_icache x) (k_sb x) (k_bcache x) (k_disk x)
  (k_log x) (k_input x) (k_screen x) (k_shift x) (k_ide x).
Definition set_k_cur (v : option nat) (x : kernel) : kernel := mkKernel (k_mem x) (k_freelist x)
  (k_use_lock x) (k_kpgdir x) (k_cr3 x) (k_ptable x) (k_nextpid x) (k_initproc x) v (k_held x)
  (k_ticks x) (k_ftable x) (k_pipes x) (k_icache x) (k_sb x) (k_bcache x) (k_disk x) (k_log x)
  (k_input x) (k_screen x) (k_shift x) (k_ide x).
Definition set_k_held (v : list lock) (x : kernel) : kernel := mkKernel (k_mem x) (k_freelist x)
  (k_use_lock x) (k_kpgdir x) (k_cr3 x) (k_ptable x) (k_nextpid x) (k_initproc x) (k_cur x) v
  (k_ticks x) (k_ftable x) (k_pipes x) (k_icache x) (k_sb x) (k_bcache x) (k_disk x) (k_log x)
  (k_input x) (k_screen x) (k_shift x) (k_ide x).
Definition set_k_ticks (v : Z) (x : kernel) : kernel := mkKernel (k_mem x) (k_freelist x)
  (k_use_lock x) (k_kpgdir x) (k_cr3 x) (k_ptable x) (k_nextpid x) (k_initproc x) (k_cur x)
  (k_held x) v (k_ftable x) (k_pipes x) (k_icache x) (k_sb x) (k_bcache x) (k_disk x) (k_log x)
  (k_input x) (k_screen x) (k_shift x) (k_ide x).
Definition set_k_ftable (v : list file) (x : kernel) : kernel := mkKernel (k_mem x) (k_freelist
  x) (k_use_lock x) (k_kpgdir x) (k_cr3 x) (k_ptable x) (k_nextpid x) (k_initproc x) (k_cur x)
  (k_held x) (k_ticks x) v (k_pipes x) (k_icache x) (k_sb x) (k_bcache x) (k_disk x) (k_log x)
  (k_input x) (k_screen x) (k_shift x) (k_ide x).
Definition set_k_pipes (v : gmap Z pipe) (x : kernel) : kernel := mkKernel (k_mem x) (k_freelist
  x) (k_use_lock x) (k_kpgdir x) (k_cr3 x) (k_ptable x) (k_nextpid x) (k_initproc x) (k_cur x)
  (k_held x) (k_ticks x) (k_ftable x) v (k_icache x) (k_sb x) (k_bcache x) (k_disk x) (k_log x)
  (k_input x) (k_screen x) (k_shift x) (k_ide x).
Definition set_k_icache (v : list inode) (x : kernel) : kernel := mkKernel (k_mem x) (k_freelist
  x) (k_use_lock x) (k_kpgdir x) (k_cr3 x) (k_ptable x) (k_nextpid x) (k_initproc x) (k_cur x)
  (k_held x) (k_ticks x) (k_ftable x) (k_pipes x) v (k_sb x) (k_bcache x) (k_disk x) (k_log x)
  (k_input x) (k_screen x) (k_shift x) (k_ide x).
Definition set_k_sb (v : superblock) (x : kernel) : kernel := mkKernel (k_mem x) (k_freelist x)
  (k_use_lock x) (k_kpgdir x) (k_cr3 x) (k_ptable x) (k_nextpid x) (k_initproc x) (k_cur x)
  (k_held x) (k_ticks x) (k_ftable x) (k_pipes x) (k_icache x) v (k_bcache x) (k_disk x) (k_log
  x) (k_input x) (k_screen x) (k_shift x) (k_ide x).
Definition set_k_bcache (v : list buf) (x : kernel) : kernel := mkKernel (k_mem x) (k_freelist
  x) (k_use_lock x) (k_kpgdir x) (k_cr3 x) (k_ptable x) (k_nextpid x) (k_initproc x) (k_cur x)
  (k_held x) (k_ticks x) (k_ftable x) (k_pipes x) (k_icache x) (k_sb x) v (k_disk x) (k_log x)
  (k_input x) (k_screen x) (k_shift x) (k_ide x).
Definition set_k_disk (v : disk) (x : kernel) : kernel := mkKernel (k_mem x) (k_freelist x)
  (k_use_lock x) (k_kpgdir x) (k_cr3 x) (k_ptable x) (k_nextpid x) (k_initproc x) (k_cur x)
  (k_held x) (k_ticks x) (k_ftable x) (k_pipes x) (k_icache x) (k_sb x) (k_bcache x) v (k_log x)
  (k_input x) (k_screen x) (k_shift x) (k_ide x).
Definition set_k_log (v : log) (x : kernel) : kernel := mkKernel (k_mem x) (k_freelist x)
  (k_use_lock x) (k_kpgdir x) (k_cr3 x) (k_ptable x) (k_nextpid x) (k_initproc x) (k_cur x)
  (k_held x) (k_ticks x) (k_ftable x) (k_pipes x) (k_icache x) (k_sb x) (k_bcache x) (k_disk x)
  v (k_input x) (k_screen x) (k_shift x) (k_ide x).
Definition set_k_input (v : input) (x : kernel) : kernel := mkKernel (k_mem x) (k_freelist x)
  (k_use_lock x) (k_kpgdir x) (k_cr3 x) (k_ptable x) (k_nextpid x) (k_initproc x) (k_cur x)
  (k_held x) (k_ticks x) (k_ftable x) (k_pipes x) (k_icache x) (k_sb x) (k_bcache x) (k_disk x)
  (k_log x) v (k_screen x) (k_shift x) (k_ide x).
Definition set_k_screen (v : screen) (x : kernel) : kernel := mkKernel (k_mem x) (k_freelist x)
  (k_use_lock x) (k_kpgdir x) (k_cr3 x) (k_ptable x) (k_nextpid x) (k_initproc x) (k_cur x)
  (k_held x) (k_ticks x) (k_ftable x) (k_pipes x) (k_icache x) (k_sb x) (k_bcache x) (k_disk x)
  (k_log x) (k_input x) v (k_shift x) (k_ide x).
Definition set_k_shift (v : Z) (x : kernel) : kernel := mkKernel (k_mem x) (k_freelist x)
  (k_use_lock x) (k_kpgdir x) (k_cr3 x) (k_ptable x) (k_nextpid x) (k_initproc x) (k_cur x)
  (k_held x) (k_ticks x) (k_ftable x) (k_pipes x) (k_icache x) (k_sb x) (k_bcache x) (k_disk x)
  (k_log x) (k_input x) (k_screen x) v (k_ide x).
Definition set_k_ide (v : ide) (x : kernel) : kernel := mkKernel (k_mem x) (k_freelist x)
  (k_use_lock x) (k_kpgdir x) (k_cr3 x) (k_ptable x) (k_nextpid x) (k_initproc x) (k_cur x)
  (k_held x) (k_ticks x) (k_ftable x) (k_pipes x) (k_icache x) (k_sb x) (k_bcache x) (k_disk x)
  (k_log x) (k_input x) (k_screen x) (k_shift x) v.

(** A computation of the kernel. *)
Notation K := (M kernel).

#[export] Instance context_inhabited : Inhabited context := populate (mkContext 0 0 0 0 0).
Definition tf0 : trapframe := mkTrapframe 0 0 0 0 0 0 0 0 0 0 0 0 0 0 0 0 0 0.
(** What the kernel's zero-initialised tables hold at boot. *)
Definition proc0 : proc :=
  mkProc 0 0 0 UNUSED 0 None tf0 inhabitant None false (replicate NOFILE None) None
    (replicate 16 0) 0 0 0.
Definition file0 : file := mkFile FD_NONE 0 false false 0 None 0.
Definition sleeplock0 : sleeplock := mkSleeplock false 0.
Definition inode0 : inode := mkInode 0 0 0 sleeplock0 false 0 0 0 0 0 (replicate 13 0).
Definition buf0 : buf := mkBuf 0 0 0 sleeplock0 0 0 0 (replicate BSIZE 0).
#[export] Instance proc_inhabited : Inhabited proc := populate proc0.
#[export] Instance file_inhabited : Inhabited file := populate file0.
#[export] Instance inode_inhabited : Inhabited inode := populate inode0.
#[export] Instance buf_inhabited : Inhabited buf := populate buf0.

(** The kernel's data segment when [main] is entered. *)
Definition kernel0 : kernel :=
  mkKernel ∅ 0 false 0 0 (replicate NPROC proc0) 1 None None [] 0 (replicate NFILE file0) ∅
    (replicate NINODE inode0) (mkSuperblock 0 0 0 0 0 0 0) (replicate (S NBUF) buf0) (mkDisk 0 ∅ [])
    (mkLog 0 0 0 false 0 0 (replicate (Z.to_nat LOGSIZE) 0)) (mkInput (replicate 128 0) 0 0 0)
    (mkScreen (replicate 2000 0) 0 false [] false) 0 (mkIde [] false (0, 0) (mkDisk 0 ∅ [])).

(** ** Access to table entries *)

Definition proc_at (k : kernel) (i : nat) : proc := k_ptable k !!! i.
Definition upd_proc (i : nat) (f : proc → proc) (k : kernel) : kernel :=
  set_k_ptable (alter f i (k_ptable k)) k.
Definition file_at (k : kernel) (i : nat) : file := k_ftable k !!! i.
Definition upd_file (i : nat) (f : file → file) (k : kernel) : kernel :=
  set_k_ftable (alter f i (k_ftable k)) k.
Definition inode_at (k : kernel) (i : nat) : inode := k_icache k !!! i.
Definition upd_inode (i : nat) (f : inode → inode) (k : kernel) : kernel :=
  set_k_icache (alter f i (k_icache k)) k.
Definition buf_at (k : kernel) (i : nat) : buf := k_bcache k !!! i.
Definition upd_buf (i : nat) (f : buf → buf) (k : kernel) : kernel :=
  set_k_bcache (alter f i (k_bcache k)) k.
