(* ===== verification/Spinlock.v ===== *)
(** * Spinlocks and interrupt nesting (src/spinlock.c)

    Three views of the same code.  [pushcli]/[popcli] act on one CPU's interrupt
    flag and nesting depth.  [step] interleaves the instructions of [acquire]
    and [release] of any number of CPUs, down to the atomic exchange; its
    invariant gives mutual exclusion and says that the C test [holding] agrees
    with the list of locks a CPU has acquired and not released.  On that ground
    the rest of the kernel uses [acquire] and [release] on that list
    ([k_held]). *)

From stdpp Require Import functions.
From S2P Require Import Prelude Mem State.

(** ** Interrupt nesting on one CPU *)

(** The part of [struct cpu] (src/proc.h) the nesting uses, with the
    interrupt-enable bit of EFLAGS. *)
Record cpu := mkCpu { c_if : bool; c_ncli : Z; c_intena : bool }.

Definition pushcli (c : cpu) : cpu :=
  mkCpu false (c_ncli c + 1) (if c_ncli c =? 0 then c_if c else c_intena c).

Definition popcli (c : cpu) : cpu + string :=
  if c_if c then inr "popcli - interruptible"%string
  else
    let n := c_ncli c - 1 in
    if n <? 0 then inr "popcli"%string
    else inl (mkCpu ((n =? 0) && c_intena c) n (c_intena c)).

(** Interrupts are off whenever some [pushcli] is open. *)
Definition cpu_ok (c : cpu) : Prop := 0 <= c_ncli c ∧ (0 < c_ncli c → c_if c = false).

Lemma pushcli_ok c : cpu_ok c → cpu_ok (pushcli c).
Proof. unfold cpu_ok, pushcli. simpl. intros [? ?]. split; [lia|done]. Qed.

Lemma popcli_ok c c' : cpu_ok c → popcli c = inl c' → cpu_ok c'.
Proof.
  unfold cpu_ok, popcli. destruct c as [i n e]. simpl. intros [? Hi].
  destruct i; [done|]. destruct (Z.ltb_spec (n - 1) 0); [done|]. intros [= <-]. simpl.
  split; [done|]. intros. by rewrite (proj2 (Z.eqb_neq _ _)) by lia.
Qed.

(** What runs between a [pushcli] and its [popcli]: nested pairs. *)
Inductive nested : cpu → cpu → Prop :=
| nested_nil c : nested c c
| nested_pair c c1 c2 c3 :
    nested (pushcli c) c1 → popcli c1 = inl c2 → nested c2 c3 → nested c c3.

Lemma nested_inv c c' : nested c c' → cpu_ok c → 0 < c_ncli c →
  c_ncli c' = c_ncli c ∧ c_if c' = false ∧ c_intena c' = c_intena c.
Proof.
  induction 1 as [c|c c1 c2 c3 _ IH1 Hpop _ IH2]; intros Hok Hn.
  - by pose proof (proj2 Hok Hn).
  - destruct IH1 as (E1 & E2 & E3); [by apply pushcli_ok|simpl; lia|].
    unfold pushcli in E1, E3. simpl in E1, E3. rewrite (proj2 (Z.eqb_neq _ _)) in E3 by lia.
    unfold popcli in Hpop. rewrite E2, E1, E3 in Hpop.
    replace (c_ncli c + 1 - 1) with (c_ncli c) in Hpop by lia.
    rewrite (proj2 (Z.ltb_ge _ _)), (proj2 (Z.eqb_neq _ _)) in Hpop by lia.
    simplify_eq. destruct IH2 as (? & ? & ?); [split; simpl; [lia|done]|simpl; lia|].
    simpl in *. done.
Qed.

(** A [popcli] undoes its [pushcli], whatever nested pairs ran in between:
    interrupts stay off until then, and the enable flag and the depth come back
    as they were; the [popcli] itself cannot panic. *)
Theorem pushcli_popcli c c1 :
  cpu_ok c → nested (pushcli c) c1 →
  c_if c1 = false ∧
  ∃ c2, popcli c1 = inl c2 ∧ c_if c2 = c_if c ∧ c_ncli c2 = c_ncli c.
Proof.
  intros Hok Hn. pose proof (pushcli_ok _ Hok) as Hok1.
  destruct (nested_inv _ _ Hn Hok1) as (E1 & E2 & E3).
  { destruct Hok. simpl. lia. }
  split; [done|]. unfold popcli. rewrite E2, E1, E3. unfold pushcli. simpl.
  destruct Hok as [H0 Hi]. replace (c_ncli c + 1 - 1) with (c_ncli c) by lia.
  rewrite (proj2 (Z.ltb_ge _ _)) by lia. eexists. split; [done|]. simpl. split; [|done].
  destruct (Z.eqb_spec (c_ncli c) 0); simpl; [done|]. symmetry. apply Hi. lia.
Qed.

(** ** Spinlocks of several CPUs *)

(** [struct spinlock] (src/spinlock.h): the lock word and the CPU recorded as
    its holder. *)
Record spinlock := mkSpinlock { sl_locked : bool; sl_cpu : option nat }.

(** Where a CPU is inside [acquire] or [release]. *)
Inductive pc :=
| Idle
| Spinning (l : lock)     (* at the xchg loop *)
| Recording (l : lock)    (* got the lock word, before lk->cpu = mycpu() *)
| Releasing (l : lock)    (* cleared lk->cpu, before the store to lk->locked *)
| Popping.                (* before popcli() at the end of release *)

(** [m_held] is a history: the locks a CPU has got and not given back. *)
Record machine := mkMachine {
  m_cpu : nat → cpu;
  m_pc : nat → pc;
  m_lock : lock → spinlock;
  m_held : nat → list lock
}.

(** [holding(lk)] on CPU [c]. *)
Definition holding_hw (m : machine) (c : nat) (l : lock) : bool :=
  sl_locked (m_lock m l) && bool_decide (sl_cpu (m_lock m l) = Some c).

Definition remove_lock (l : lock) (ls : list lock) : list lock :=
  filter (λ l', l' ≠ l) ls.

(** One instruction of one CPU.  A CPU that fails a [panic] check has no step. *)
Inductive step : machine → machine → Prop :=
| step_acquire m c l :
    m_pc m c = Idle → holding_hw m c l = false →
    step m (mkMachine (<[c := pushcli (m_cpu m c)]> (m_cpu m)) (<[c := Spinning l]> (m_pc m))
              (m_lock m) (m_held m))
| step_xchg_busy m c l :
    m_pc m c = Spinning l → sl_locked (m_lock m l) = true →
    step m (mkMachine (m_cpu m) (m_pc m)
              (<[l := mkSpinlock true (sl_cpu (m_lock m l))]> (m_lock m)) (m_held m))
| step_xchg_free m c l :
    m_pc m c = Spinning l → sl_locked (m_lock m l) = false →
    step m (mkMachine (m_cpu m) (<[c := Recording l]> (m_pc m))
              (<[l := mkSpinlock true (sl_cpu (m_lock m l))]> (m_lock m))
              (<[c := l :: m_held m c]> (m_held m)))
| step_record m c l :
    m_pc m c = Recording l →
    step m (mkMachine (m_cpu m) (<[c := Idle]> (m_pc m))
              (<[l := mkSpinlock (sl_locked (m_lock m l)) (Some c)]> (m_lock m)) (m_held m))
| step_release m c l :
    m_pc m c = Idle → holding_hw m c l = true →
    step m (mkMachine (m_cpu m) (<[c := Releasing l]> (m_pc m))
              (<[l := mkSpinlock (sl_locked (m_lock m l)) None]> (m_lock m)) (m_held m))
| step_unlock m c l :
    m_pc m c = Releasing l →
    step m (mkMachine (m_cpu m) (<[c := Popping]> (m_pc m))
              (<[l := mkSpinlock false (sl_cpu (m_lock m l))]> (m_lock m))
              (<[c := remove_lock l (m_held m c)]> (m_held m)))
| step_popcli m c c' :
    m_pc m c = Popping → popcli (m_cpu m c) = inl c' →
    step m (mkMachine (<[c := c']> (m_cpu m)) (<[c := Idle]> (m_pc m)) (m_lock m) (m_held m)).

(** [initlock] has cleared every lock and no CPU has taken one. *)
Definition initlock : spinlock := mkSpinlock false None.
Definition machine_init (ifl : nat → bool) : machine :=
  mkMachine (λ c, mkCpu (ifl c) 0 false) (λ _, Idle) (λ _, initlock) (λ _, []).

Inductive reachable (ifl : nat → bool) : machine → Prop :=
| reach_init : reachable ifl (machine_init ifl)
| reach_step m m' : reachable ifl m → step m m' → reachable ifl m'.

Definition pending (p : pc) : Z :=
  match p with Spinning _ | Popping => 1 | _ => 0 end.

Record machine_inv (m : machine) : Prop := {
  mi_owner l c1 c2 : l ∈ m_held m c1 → l ∈ m_held m c2 → c1 = c2;
  mi_nodup c : NoDup (m_held m c);
  mi_locked l c : l ∈ m_held m c → sl_locked (m_lock m l) = true;
  mi_free l : sl_locked (m_lock m l) = true → ∃ c, l ∈ m_held m c;
  mi_cpu l c : sl_cpu (m_lock m l) = Some c →
    l ∈ m_held m c ∧ m_pc m c ≠ Recording l ∧ m_pc m c ≠ Releasing l;
  mi_rec l c : l ∈ m_held m c →
    sl_cpu (m_lock m l) = Some c ∨ m_pc m c = Recording l ∨ m_pc m c = Releasing l;
  mi_pc l c : m_pc m c = Recording l ∨ m_pc m c = Releasing l → l ∈ m_held m c;
  mi_spin l c : m_pc m c = Spinning l → l ∉ m_held m c;
  mi_ok c : cpu_ok (m_cpu m c);
  mi_ncli c : c_ncli (m_cpu m c) = length (m_held m c) + pending (m_pc m c)
}.

Lemma elem_of_remove_lock l l' ls : l' ∈ remove_lock l ls ↔ l' ≠ l ∧ l' ∈ ls.
Proof. unfold remove_lock. by rewrite list_elem_of_filter. Qed.

Lemma remove_lock_notin l ls : l ∉ ls → remove_lock l ls = ls.
Proof.
  unfold remove_lock. induction ls as [|x ls IH]; [done|].
  rewrite not_elem_of_cons. intros [? ?]. rewrite filter_cons, decide_True by done.
  by rewrite IH.
Qed.

Lemma remove_lock_cons l ls : l ∉ ls → remove_lock l (l :: ls) = ls.
Proof.
  intros. unfold remove_lock. rewrite filter_cons, decide_False by tauto.
  by apply remove_lock_notin.
Qed.

Lemma length_remove_lock l ls :
  NoDup ls → l ∈ ls → length ls = S (length (remove_lock l ls)).
Proof.
  induction 1 as [|x ls Hx _ IH]; [by intros ?%elem_of_nil|].
  rewrite elem_of_cons. intros [->|Hin]; [by rewrite remove_lock_cons|].
  unfold remove_lock. rewrite filter_cons, decide_True by (intros ->; done).
  simpl. f_equal. by apply IH.
Qed.

(** Case analysis on a function updated at a point, and the facts the
    invariant gives on the entry at hand. *)
Ltac case_insert :=
  repeat match goal with
  | _ => rewrite fn_lookup_insert in *
  | |- context [<[?a := _]> _ ?b] =>
      destruct (decide (a = b)) as [<-|?]; [|rewrite fn_lookup_insert_ne in * by done]
  | H : context [<[?a := _]> _ ?b] |- _ =>
      destruct (decide (a = b)) as [<-|?]; [|rewrite fn_lookup_insert_ne in * by done]
  end; simpl in *.

Lemma machine_init_inv ifl : machine_inv (machine_init ifl).
Proof.
  split; simpl; intros; try done;
    repeat match goal with
    | H : _ ∈ [] |- _ => by apply elem_of_nil in H
    | H : _ ∨ _ |- _ => by destruct H
    end.
  constructor.
Qed.

(** What the invariant and the step at hand say of an entry it does not name. *)
Ltac inv_auto :=
  intros; case_insert;
  repeat match goal with
  | H : Some _ = Some _ |- _ => simplify_eq
  | H : _ ∈ _ :: _ |- _ => apply elem_of_cons in H as [->|H]
  | H : _ ∈ remove_lock _ _ |- _ => apply elem_of_remove_lock in H as [? H]
  | H : _ = _ ∨ _ |- _ => destruct H
  | |- NoDup (_ :: _) => constructor
  | |- _ ∧ _ => split
  | |- _ ∈ _ :: _ => apply elem_of_cons
  | |- _ ∈ remove_lock _ _ => apply elem_of_remove_lock
  end; try congruence; eauto.

Ltac machine_facts Hinv :=
  pose proof Hinv as [Ho Hnd Hl Hf Hc Hr Hp Hs Hok Hn];
  pose proof (λ l c H, proj1 (Hc l c H)) as Hc1;
  pose proof (λ l c H, proj1 (proj2 (Hc l c H))) as Hc2;
  pose proof (λ l c H, proj2 (proj2 (Hc l c H))) as Hc3; clear Hc.

(** Each instruction preserves the invariant. *)
Section preservation.
Context (m : machine) (Hinv : machine_inv m).

Lemma acquire_inv c l :
  m_pc m c = Idle → holding_hw m c l = false →
  machine_inv (mkMachine (<[c := pushcli (m_cpu m c)]> (m_cpu m))
                 (<[c := Spinning l]> (m_pc m)) (m_lock m) (m_held m)).
Proof using Hinv.
  machine_facts Hinv. intros E Eh. pose proof (Hok c) as Hokc. pose proof (Hn c) as Hnc. rewrite E in Hnc.
  assert (l ∉ m_held m c) as Hnot.
  { intros Hin. destruct (Hr _ _ Hin) as [Hx|[Hx|Hx]]; [|congruence..].
    unfold holding_hw in Eh. by rewrite (Hl _ _ Hin), Hx, bool_decide_true in Eh. }
  split; simpl; inv_auto.
  - destruct (Hr l0 c) as [?|[?|?]]; [done|auto|congruence..].
  - by apply pushcli_ok.
  - lia.
Qed.

Lemma xchg_busy_inv l :
  sl_locked (m_lock m l) = true →
  machine_inv (mkMachine (m_cpu m) (m_pc m)
                 (<[l := mkSpinlock true (sl_cpu (m_lock m l))]> (m_lock m)) (m_held m)).
Proof using Hinv. machine_facts Hinv. intros El. split; simpl; inv_auto. Qed.

Lemma xchg_free_inv c l :
  m_pc m c = Spinning l → sl_locked (m_lock m l) = false →
  machine_inv (mkMachine (m_cpu m) (<[c := Recording l]> (m_pc m))
                 (<[l := mkSpinlock true (sl_cpu (m_lock m l))]> (m_lock m))
                 (<[c := l :: m_held m c]> (m_held m))).
Proof using Hinv.
  machine_facts Hinv. intros E El. pose proof (Hn c) as Hnc. rewrite E in Hnc. simpl in Hnc.
  assert (∀ c', l ∉ m_held m c') as Hnot by (intros c' ?%Hl; congruence).
  assert (sl_cpu (m_lock m l) = None) as Hnone.
  { destruct (sl_cpu (m_lock m l)) as [c'|] eqn:Ec; [|done]. by apply Hc1, Hnot in Ec. }
  split; simpl; inv_auto.
  all: try (exfalso; by eapply Hnot).
  - exists c. rewrite fn_lookup_insert. by left.
  - destruct (Hf l0) as [c0 ?]; [done|]. exists c0. case_insert; [by right|done].
  - destruct (Hr l0 c) as [?|[?|?]]; [done|auto|congruence..].
  - left. congruence.
  - lia.
Qed.

Lemma record_inv c l :
  m_pc m c = Recording l →
  machine_inv (mkMachine (m_cpu m) (<[c := Idle]> (m_pc m))
                 (<[l := mkSpinlock (sl_locked (m_lock m l)) (Some c)]> (m_lock m)) (m_held m)).
Proof using Hinv.
  machine_facts Hinv. intros E. pose proof (Hn c) as Hnc. rewrite E in Hnc. simpl in Hnc.
  assert (l ∈ m_held m c) as Hin by eauto.
  split; simpl; inv_auto.
  destruct (Hr l0 c) as [?|[?|?]]; [done|auto|congruence..].
Qed.

Lemma release_inv c l :
  m_pc m c = Idle → holding_hw m c l = true →
  machine_inv (mkMachine (m_cpu m) (<[c := Releasing l]> (m_pc m))
                 (<[l := mkSpinlock (sl_locked (m_lock m l)) None]> (m_lock m)) (m_held m)).
Proof using Hinv.
  machine_facts Hinv. intros E Eh. pose proof (Hn c) as Hnc. rewrite E in Hnc. simpl in Hnc.
  unfold holding_hw in Eh. apply andb_true_iff in Eh as [El Ec%bool_decide_eq_true].
  assert (l ∈ m_held m c) as Hin by eauto.
  split; simpl; inv_auto.
  - exfalso. eauto.
  - destruct (Hr l0 c) as [?|[?|?]]; [done|auto|congruence..].
Qed.

Lemma unlock_inv c l :
  m_pc m c = Releasing l →
  machine_inv (mkMachine (m_cpu m) (<[c := Popping]> (m_pc m))
                 (<[l := mkSpinlock false (sl_cpu (m_lock m l))]> (m_lock m))
                 (<[c := remove_lock l (m_held m c)]> (m_held m))).
Proof using Hinv.
  machine_facts Hinv. intros E. pose proof (Hn c) as Hnc. rewrite E in Hnc. simpl in Hnc.
  assert (l ∈ m_held m c) as Hin by eauto.
  pose proof (length_remove_lock l (m_held m c) (Hnd c) Hin) as Hlen.
  split; simpl; inv_auto.
  - apply NoDup_filter, Hnd.
  - destruct (Hf l0) as [c0 ?]; [done|]. exists c0.
    case_insert; [by apply elem_of_remove_lock|done].
  - exfalso. by eapply Hc3.
  - destruct (Hr l0 c) as [?|[?|?]]; [done|auto|congruence..].
  - lia.
Qed.

Lemma popcli_inv c c' :
  m_pc m c = Popping → popcli (m_cpu m c) = inl c' →
  machine_inv (mkMachine (<[c := c']> (m_cpu m)) (<[c := Idle]> (m_pc m)) (m_lock m) (m_held m)).
Proof using Hinv.
  machine_facts Hinv. intros E Ep. pose proof (Hn c) as Hnc. rewrite E in Hnc. simpl in Hnc.
  split; simpl; inv_auto.
  - destruct (Hr l c) as [?|[?|?]]; [done|auto|congruence..].
  - by eapply popcli_ok.
  - unfold popcli in Ep. repeat case_match; simplify_eq/=. lia.
Qed.
End preservation.

Lemma step_inv m m' : machine_inv m → step m m' → machine_inv m'.
Proof.
  intros Hinv Hstep. destruct Hstep;
    [by apply acquire_inv|by eapply xchg_busy_inv|by apply xchg_free_inv|by apply record_inv
    |by apply release_inv|by apply unlock_inv|by apply popcli_inv].
Qed.

Lemma reachable_inv ifl m : reachable ifl m → machine_inv m.
Proof. induction 1; eauto using machine_init_inv, step_inv. Qed.

Lemma holding_hw_held m c l :
  machine_inv m → m_pc m c = Idle → holding_hw m c l = bool_decide (l ∈ m_held m c).
Proof.
  intros Hinv E. unfold holding_hw.
  destruct (bool_decide_reflect (l ∈ m_held m c)) as [Hin|Hin].
  - destruct (mi_rec _ Hinv _ _ Hin) as [Hx|[Hx|Hx]]; [|congruence..].
    by rewrite (mi_locked _ Hinv _ _ Hin), Hx, bool_decide_true.
  - destruct (sl_locked (m_lock m l)) eqn:El; [simpl|done].
    apply bool_decide_eq_false. intros Ec. by apply (mi_cpu _ Hinv) in Ec as [? _].
Qed.

(** C2: In every interleaving of the CPUs: a lock is in the hands of one CPU at
    most; outside [acquire]/[release], [holding] says exactly whether this CPU
    has the lock, the nesting depth counts its locks, and interrupts are off
    while it has any; the [popcli] that ends [release] does not panic; and a
    CPU spinning on a lock does not have it (no self-deadlock) and gets it with
    its next exchange once the lock word is clear. *)
Theorem spinlock_correct ifl m :
  reachable ifl m →
  (∀ l c1 c2, l ∈ m_held m c1 → l ∈ m_held m c2 → c1 = c2) ∧
  (∀ c l, m_pc m c = Idle → holding_hw m c l = bool_decide (l ∈ m_held m c)) ∧
  (∀ c, m_pc m c = Idle → c_ncli (m_cpu m c) = length (m_held m c)) ∧
  (∀ c l, l ∈ m_held m c → c_if (m_cpu m c) = false) ∧
  (∀ c, m_pc m c = Popping → ∃ c', popcli (m_cpu m c) = inl c') ∧
  (∀ c l, m_pc m c = Spinning l → l ∉ m_held m c ∧
     (sl_locked (m_lock m l) = false → ∃ m', step m m' ∧ l ∈ m_held m' c)).
Proof.
  intros Hinv%reachable_inv. split_and!.
  - apply mi_owner, Hinv.
  - intros. by apply holding_hw_held.
  - intros c E. by rewrite (mi_ncli _ Hinv), E, Z.add_0_r.
  - intros c l Hin. apply (mi_ok _ Hinv). rewrite (mi_ncli _ Hinv).
    destruct (m_held m c); [by apply elem_of_nil in Hin|]. destruct (m_pc m c); simpl; lia.
  - intros c E. pose proof (mi_ok _ Hinv c) as [_ Hi]. pose proof (mi_ncli _ Hinv c) as Hn.
    rewrite E in Hn. simpl in Hn. unfold popcli. rewrite Hi by lia.
    rewrite (proj2 (Z.ltb_ge _ _)) by lia. eauto.
  - intros c l E. split; [by eapply mi_spin|]. intros El. eexists.
    split; [by eapply step_xchg_free|]. simpl. rewrite fn_lookup_insert. by left.
Qed.

(** ** Examples *)

Lemma pushcli_popcli_witness :
  let c := mkCpu true 0 false in
  c_if (pushcli c) = false ∧
  ∃ c2, popcli (pushcli c) = inl c2 ∧ c_if c2 = c_if c ∧ c_ncli c2 = c_ncli c.
Proof.
  intros c. apply (pushcli_popcli c (pushcli c)); [done|].
  apply (nested_pair _ (pushcli (pushcli c)) (pushcli c)); [apply nested_nil|done|apply nested_nil].
Defined.

(** CPU 0 has taken [kmem.lock] and CPU 1 is at its exchange loop. *)
Definition demo_machine : machine :=
  let m0 := machine_init (λ _, true) in
  let m1 := mkMachine (<[0%nat := pushcli (m_cpu m0 0)]> (m_cpu m0)) (<[0%nat := Spinning LKmem]> (m_pc m0))
              (m_lock m0) (m_held m0) in
  let m2 := mkMachine (m_cpu m1) (<[0%nat := Recording LKmem]> (m_pc m1))
              (<[LKmem := mkSpinlock true (sl_cpu (m_lock m1 LKmem))]> (m_lock m1))
              (<[0%nat := LKmem :: m_held m1 0]> (m_held m1)) in
  let m3 := mkMachine (m_cpu m2) (<[0%nat := Idle]> (m_pc m2))
              (<[LKmem := mkSpinlock (sl_locked (m_lock m2 LKmem)) (Some 0%nat)]> (m_lock m2)) (m_held m2) in
  mkMachine (<[1%nat := pushcli (m_cpu m3 1)]> (m_cpu m3)) (<[1%nat := Spinning LKmem]> (m_pc m3))
    (m_lock m3) (m_held m3).

Lemma demo_machine_reachable : reachable (λ _, true) demo_machine.
Proof.
  unfold demo_machine. eapply reach_step; [|by apply step_acquire].
  eapply reach_step; [|by apply step_record]. eapply reach_step; [|by apply step_xchg_free].
  eapply reach_step; [apply reach_init|by apply step_acquire].
Qed.

Lemma spinlock_correct_witness :
  (∀ l c1 c2, l ∈ m_held demo_machine c1 → l ∈ m_held demo_machine c2 → c1 = c2) ∧
  (∀ c l, m_pc demo_machine c = Idle → holding_hw demo_machine c l = bool_decide (l ∈ m_held demo_machine c)) ∧
  (∀ c, m_pc demo_machine c = Idle → c_ncli (m_cpu demo_machine c) = length (m_held demo_machine c)) ∧
  (∀ c l, l ∈ m_held demo_machine c → c_if (m_cpu demo_machine c) = false) ∧
  (∀ c, m_pc demo_machine c = Popping → ∃ c', popcli (m_cpu demo_machine c) = inl c') ∧
  (∀ c l, m_pc demo_machine c = Spinning l → l ∉ m_held demo_machine c ∧
     (sl_locked (m_lock demo_machine l) = false → ∃ m', step demo_machine m' ∧ l ∈ m_held m' c)).
Proof. exact (spinlock_correct _ demo_machine demo_machine_reachable). Defined.

(** ** The locks as the kernel routines use them *)

Definition holding (l : lock) : K bool := gets (λ k, bool_decide (l ∈ k_held k)).

Definition acquire (l : lock) : K unit :=
  h <- holding l ;;
  if h then panic "acquire" else modify (λ k, set_k_held (l :: k_held k) k).

Definition release (l : lock) : K unit :=
  h <- holding l ;;
  if negb h then panic "release" else modify (λ k, set_k_held (remove_lock l (k_held k)) k).

Lemma acquire_eq l k :
  l ∉ k_held k → acquire l k = Ret tt (set_k_held (l :: k_held k) k).
Proof. intros. unfold acquire, holding, bind, gets. simpl. by rewrite bool_decide_false. Qed.

Lemma release_eq l k ls :
  k_held k = l :: ls → l ∉ ls → release l k = Ret tt (set_k_held ls k).
Proof.
  intros E ?. unfold release, holding, bind, gets. simpl.
  rewrite bool_decide_true by (rewrite E; by left). simpl.
  unfold modify. by rewrite E, remove_lock_cons.
Qed.

Lemma release_any l k :
  l ∈ k_held k → release l k = Ret tt (set_k_held (remove_lock l (k_held k)) k).
Proof. intros. unfold release, holding, bind, gets. simpl. by rewrite bool_decide_true. Qed.

Lemma acquire_ret l k u k' :
  acquire l k = Ret u k' → l ∉ k_held k ∧ k' = set_k_held (l :: k_held k) k.
Proof.
  unfold acquire, holding, bind, gets. simpl. destruct (bool_decide_reflect (l ∈ k_held k)); [done|].
  by intros [= _ <-].
Qed.

Lemma release_ret l k u k' :
  release l k = Ret u k' → l ∈ k_held k ∧ k' = set_k_held (remove_lock l (k_held k)) k.
Proof.
  unfold release, holding, bind, gets. simpl. destruct (bool_decide_reflect (l ∈ k_held k)); [|done].
  by intros [= _ <-].
Qed.

#[global] Opaque acquire release.
