(* ===== verification/Mmu.v ===== *)
(** * Addresses and page-table entries (src/mmu.h, src/memlayout.h)

    The macros of the memory-management headers on 32-bit words, and the
    arithmetic facts that turn their masks and shifts into division and
    remainder. *)

From S2P Require Import Prelude.

(** ** src/memlayout.h *)
Definition EXTMEM : Z := 1048576.        (* 0x100000 *)
Definition PHYSTOP : Z := 234881024.     (* 0xE000000 *)
Definition DEVSPACE : Z := 4261412864.   (* 0xFE000000 *)
Definition KERNBASE : Z := 2147483648.   (* 0x80000000 *)
Definition KERNLINK : Z := KERNBASE + EXTMEM.
Definition V2P (a : Z) : Z := u32 (a - KERNBASE).
Definition P2V (a : Z) : Z := u32 (a + KERNBASE).

(** ** src/mmu.h *)
Definition NPDENTRIES : nat := 1024.
Definition NPTENTRIES : nat := 1024.
Definition PGSIZE : Z := 4096.
Definition PTXSHIFT : Z := 12.
Definition PDXSHIFT : Z := 22.
Definition PDX (va : Z) : Z := Z.land (Z.shiftr va PDXSHIFT) 1023.
Definition PTX (va : Z) : Z := Z.land (Z.shiftr va PTXSHIFT) 1023.
Definition PGADDR (d t o : Z) : Z :=
  u32 (Z.lor (Z.lor (Z.shiftl d PDXSHIFT) (Z.shiftl t PTXSHIFT)) o).
Definition PGROUNDUP (sz : Z) : Z := Z.land (u32 (sz + PGSIZE - 1)) (Z.lnot (PGSIZE - 1)).
Definition PGROUNDDOWN (a : Z) : Z := Z.land a (Z.lnot (PGSIZE - 1)).
Definition PTE_P : Z := 1.
Definition PTE_W : Z := 2.
Definition PTE_U : Z := 4.
Definition PTE_ADDR (pte : Z) : Z := Z.land pte (Z.lnot 4095).
Definition PTE_FLAGS (pte : Z) : Z := Z.land pte 4095.

(** Addresses of the kernel image, fixed by the linker script: the start of its
    writable data, the first byte after it, and the code of [forkret] and
    [trapret]. *)
Class Layout := { data_addr : Z; end_addr : Z; forkret_addr : Z; trapret_addr : Z }.
Class LayoutOk (L : Layout) : Prop := {
  layout_order : KERNLINK < data_addr <= end_addr;
  layout_data : data_addr mod PGSIZE = 0;
  layout_top : end_addr < KERNBASE + PHYSTOP
}.

(** ** Arithmetic *)

Lemma land_lnot_page x : Z.land x (Z.lnot 4095) = x / 4096 * 4096.
Proof.
  change 4095 with (Z.ones 12). rewrite <- Z.ldiff_land, Z.ldiff_ones_r by lia.
  rewrite Z.shiftl_mul_pow2, Z.shiftr_div_pow2 by lia. done.
Qed.

Lemma PGROUNDDOWN_eq a : PGROUNDDOWN a = a / 4096 * 4096.
Proof. apply land_lnot_page. Qed.

Lemma PGROUNDUP_eq a : is_u32 (a + 4095) → PGROUNDUP a = (a + 4095) / 4096 * 4096.
Proof.
  intros. unfold PGROUNDUP, PGSIZE. rewrite land_lnot_page. do 2 f_equal.
  rewrite u32_small by (unfold is_u32 in *; lia). lia.
Qed.

Lemma PTE_ADDR_eq a : PTE_ADDR a = a / 4096 * 4096.
Proof. apply land_lnot_page. Qed.

Lemma PTE_FLAGS_eq a : PTE_FLAGS a = a mod 4096.
Proof. unfold PTE_FLAGS. change 4095 with (Z.ones 12). by rewrite Z.land_ones by lia. Qed.

Lemma PDX_eq va : is_u32 va → PDX va = va / 4194304.
Proof.
  intros. unfold PDX, PDXSHIFT. change 1023 with (Z.ones 10).
  rewrite Z.land_ones, Z.shiftr_div_pow2 by lia. change (2 ^ 22) with 4194304.
  change (2 ^ 10) with 1024. divmod.
Qed.

Lemma PTX_eq va : PTX va = va / 4096 mod 1024.
Proof.
  unfold PTX, PTXSHIFT. change 1023 with (Z.ones 10).
  by rewrite Z.land_ones, Z.shiftr_div_pow2 by lia.
Qed.

Lemma PDX_range va : is_u32 va → 0 <= PDX va < 1024.
Proof. intros. rewrite PDX_eq by done. divmod. Qed.

Lemma PTX_range va : 0 <= PTX va < 1024.
Proof. rewrite PTX_eq. divmod. Qed.

(** The low bits of an aligned word or-ed with flags. *)
Lemma lor_page_flags a f :
  a mod 4096 = 0 → 0 <= f < 4096 → Z.lor a f = a + f.
Proof.
  intros Ha Hf.
  replace a with (Z.shiftl (a / 4096) 12).
  2: { rewrite Z.shiftl_mul_pow2 by lia. change (2 ^ 12) with 4096. divmod. }
  assert (Z.land (Z.shiftl (a / 4096) 12) f = 0) as Hz.
  { apply Z.bits_inj'. intros n Hn. rewrite Z.land_spec, Z.bits_0.
    destruct (decide (n < 12)).
    - by rewrite Z.shiftl_spec_low.
    - rewrite (Z.bits_above_log2 f), andb_false_r; [done|lia|].
      destruct (decide (f = 0)) as [->|]; [simpl; lia|].
      apply Z.log2_lt_pow2; [lia|]. apply Z.lt_le_trans with (2 ^ 12); [simpl; lia|].
      apply Z.pow_le_mono_r; lia. }
  by rewrite Z.add_nocarry_lor.
Qed.

(** Testing one flag bit of an entry. *)
Lemma land_flag_testbit x n : 0 <= n → (Z.land x (2 ^ n) =? 0) = negb (Z.testbit x n).
Proof.
  intros Hn. destruct (Z.testbit x n) eqn:E; simpl.
  - apply Z.eqb_neq. intros H. apply (f_equal (λ y, Z.testbit y n)) in H.
    rewrite Z.land_spec, Z.bits_0, E, Z.pow2_bits_true in H by done. done.
  - apply Z.eqb_eq, Z.bits_inj'. intros k Hk. rewrite Z.land_spec, Z.bits_0.
    destruct (decide (k = n)) as [->|]; [by rewrite E|].
    by rewrite Z.pow2_bits_false, andb_false_r by congruence.
Qed.

(** A layout the linker could produce, for examples. *)
Definition demo_layout : Layout := 
  {| data_addr := 2148573184; end_addr := 2148663296; forkret_addr := 2148541008; trapret_addr := 2148549632 |}.
Lemma demo_layout_ok : LayoutOk demo_layout.
Proof. split; vm_compute; done. Qed.
