(* ===== verification/Kalloc.v ===== *)
(** * The physical page allocator (src/kalloc.c)

    The free list is threaded through the free pages themselves: the first word
    of a free page is the address of the next one.  [free_list] relates that
    chain in memory to a list of pages, and [kalloc]/[kfree] refine taking from
    and adding to that list. *)

From S2P Require Import Prelude Mem CString State Mmu Spinlock.

Section kalloc.
Context `{L : Layout}.

Definition kfree_bad (v : Z) : bool :=
  negb (v mod PGSIZE =? 0) || (v <? end_addr) || (V2P v >=? PHYSTOP).

Definition kfree (v : Z) : K unit :=
  if kfree_bad v then panic "kfree"
  else
    (* Fill with junk to catch dangling refs. *)
    modify (λ k, set_k_mem (memset (k_mem k) v 1 (Z.to_nat PGSIZE)) k) ;;;
    u <- gets k_use_lock ;;
    when u (acquire LKmem) ;;;
    modify (λ k, set_k_mem (st32 (k_mem k) v (k_freelist k)) k) ;;;
    modify (set_k_freelist v) ;;;
    when u (release LKmem).

Definition kalloc : K Z :=
  u <- gets k_use_lock ;;
  when u (acquire LKmem) ;;;
  r <- gets k_freelist ;;
  when (negb (r =? 0)) (modify (λ k, set_k_freelist (ld32 (k_mem k) r) k)) ;;;
  when u (release LKmem) ;;;
  ret r.

(** [for(; p + PGSIZE <= vend; p += PGSIZE) kfree(p);] *)
Fixpoint freerange_loop (fuel : nat) (p vend : Z) : K unit :=
  if p + PGSIZE <=? vend then
    match fuel with
    | O => λ _, Spin
    | S fuel => kfree p ;;; freerange_loop fuel (p + PGSIZE) vend
    end
  else ret tt.

Definition freerange (vstart vend : Z) : K unit :=
  let p := PGROUNDUP vstart in
  freerange_loop (Z.to_nat ((vend - p) / PGSIZE + 1)) p vend.

Definition kinit1 (vstart vend : Z) : K unit :=
  modify (set_k_use_lock false) ;;; freerange vstart vend.

Definition kinit2 (vstart vend : Z) : K unit :=
  freerange vstart vend ;;; modify (set_k_use_lock true).

(** ** The free list in memory *)

(** A page [kfree] accepts. *)
Definition page_ok (v : Z) : Prop := v mod 4096 = 0 ∧ end_addr <= v < KERNBASE + PHYSTOP.

Fixpoint free_list (m : mem) (p : Z) (l : list Z) : Prop :=
  match l with
  | [] => p = 0
  | v :: l => p = v ∧ free_list m (ld32 m v) l
  end.

(** The allocator's invariant: the chain from [kmem.freelist] visits the pages
    [l], each of them a page of physical memory and none twice. *)
Record kmem_inv (k : kernel) (l : list Z) : Prop := {
  km_list : free_list (k_mem k) (k_freelist k) l;
  km_nodup : NoDup l;
  km_pages : Forall page_ok l;
  km_lock : LKmem ∉ k_held k
}.

(** The same free list, in a memory that differs outside the free pages only. *)
Lemma free_list_frame m m' p l :
  (∀ v b, v ∈ l → v <= b < v + 4 → ldb m' b = ldb m b) →
  free_list m p l → free_list m' p l.
Proof.
  revert p. induction l as [|v l IH]; intros p Hm; simpl; [done|].
  intros [-> Hl]. split; [done|].
  rewrite (ld32_ext m' m) by (intros; apply (Hm v); [by left|done]).
  apply IH; [|done]. intros w b Hw. apply Hm. by right.
Qed.

(** Only the memory and the free list differ. *)
Definition mem_only (k k' : kernel) : Prop :=
  k' = set_k_mem (k_mem k') (set_k_freelist (k_freelist k') k).

Lemma mem_only_refl k : mem_only k k.
Proof. by destruct k. Qed.

Lemma mem_only_trans k1 k2 k3 : mem_only k1 k2 → mem_only k2 k3 → mem_only k1 k3.
Proof. unfold mem_only. intros H1 H2. rewrite H2, H1. done. Qed.

Section ok.
Context {Lok : LayoutOk L}.

Lemma page_ok_range v : page_ok v → 2148532224 < v < 2382364672 ∧ is_u32 v.
Proof using Lok.
  destruct Lok as [H1 _ _]. unfold page_ok, is_u32, KERNBASE, PHYSTOP, KERNLINK, EXTMEM, KERNBASE in *.
  lia.
Qed.

Lemma kfree_bad_page v : is_u32 v → kfree_bad v = false ↔ page_ok v.
Proof using Lok.
  intros Hv. unfold kfree_bad, page_ok, PGSIZE. rewrite !orb_false_iff, negb_false_iff.
  rewrite Z.eqb_eq, Z.ltb_ge, Z.geb_leb, Z.leb_gt.
  destruct Lok as [H1 _ H2]. unfold V2P, KERNLINK, EXTMEM, KERNBASE, PHYSTOP in *.
  split.
  - intros [[? ?] Hp]. rewrite u32_small in Hp by (unfold is_u32 in *; lia). lia.
  - intros (? & ? & ?). rewrite u32_small by (unfold is_u32 in *; lia). lia.
Qed.

(** Two page-aligned addresses that differ are a page apart. *)
Lemma pages_apart v w : page_ok v → page_ok w → v ≠ w → v + 4096 <= w ∨ w + 4096 <= v.
Proof. intros [? _] [? _] ?. divmod. Qed.

(** ** Refinement: the allocator is a stack of pages *)

Lemma kalloc_eq k l :
  kmem_inv k l →
  kalloc k = Ret (default 0 (head l))
               (match l with [] => k | v :: _ => set_k_freelist (ld32 (k_mem k) v) k end).
Proof using Lok.
  intros [Hl _ Hp Hk]. unfold kalloc, bind, gets, when, modify, ret. simpl.
  assert (k_freelist k = default 0 (head l)) as E by (destruct l; simpl in Hl; [done|by destruct Hl]).
  assert (l ≠ [] → default 0 (head l) =? 0 = false) as E0.
  { destruct l as [|v l]; [done|]. intros _. simpl. apply Z.eqb_neq.
    apply Forall_cons in Hp as [Hv _]. apply page_ok_range in Hv. lia. }
  destruct (k_use_lock k); simpl.
  - rewrite acquire_eq by done. simpl. rewrite E. destruct l as [|v l]; simpl.
    + erewrite release_eq by done. simpl. by destruct k.
    + simpl in E0. rewrite E0 by done. simpl. erewrite release_eq by done. done.
  - rewrite E. destruct l as [|v l]; simpl; [done|]. simpl in E0. by rewrite E0.
Qed.

Lemma kalloc_inv k v l :
  kmem_inv k (v :: l) → kmem_inv (set_k_freelist (ld32 (k_mem k) v) k) l.
Proof.
  intros [[? Hl] Hnd Hp Hk]. apply NoDup_cons in Hnd as [? ?]. apply Forall_cons in Hp as [? ?].
  by split.
Qed.

(** The memory after [kfree(v)]: junk, and the link to the old head. *)
Definition freed_mem (k : kernel) (v : Z) : mem :=
  st32 (memset (k_mem k) v 1 (Z.to_nat PGSIZE)) v (k_freelist k).

Lemma freed_mem_out k v b : ¬ (v <= b < v + 4096) → ldb (freed_mem k v) b = ldb (k_mem k) b.
Proof.
  intros Hb. unfold freed_mem, PGSIZE. rewrite ldb_st32_out by lia.
  rewrite ldb_memset, decide_False; [done|]. rewrite Z2Nat.id by lia. lia.
Qed.

Lemma kfree_eq k l v :
  kmem_inv k l → page_ok v →
  kfree v k = Ret tt (set_k_freelist v (set_k_mem (freed_mem k v) k)).
Proof using Lok.
  intros [_ _ _ Hk] Hv. unfold kfree.
  rewrite (proj2 (kfree_bad_page v (proj2 (page_ok_range v Hv))) Hv).
  unfold bind, gets, when, modify. simpl. destruct (k_use_lock k) eqn:E; simpl; [|done].
  rewrite acquire_eq by done. simpl. erewrite release_eq by done. done.
Qed.

Lemma kfree_inv k l v :
  kmem_inv k l → page_ok v → v ∉ l →
  kmem_inv (set_k_freelist v (set_k_mem (freed_mem k v) k)) (v :: l).
Proof using Lok.
  intros [Hl Hnd Hp Hk] Hv Hin. split; simpl; [|by constructor|by constructor|done].
  split; [done|]. unfold freed_mem. rewrite ld32_st32_same, u32_small.
  - apply (free_list_frame (k_mem k)); [|done]. intros w b Hw Hb. apply freed_mem_out.
    assert (page_ok w) as Hw' by (by eapply Forall_forall in Hp).
    destruct (pages_apart v w); [done..|by intros ->|lia|lia].
  - destruct l as [|w l]; simpl in Hl; [by rewrite Hl|]. destruct Hl as [-> _].
    apply Forall_cons in Hp as [Hw _]. by apply page_ok_range.
Qed.

(** [kfree] panics exactly on what is not a page of allocatable memory. *)
Lemma kfree_panics k v :
  is_u32 v → ¬ page_ok v → kfree v k = Panic "kfree".
Proof using Lok.
  intros Hv Hn. unfold kfree. destruct (kfree_bad v) eqn:E; [done|].
  by apply kfree_bad_page in E.
Qed.

(** A client of the allocator: it asks for pages and gives back pages it has. *)
Inductive alloc_op := OpAlloc | OpFree (i : nat).

Fixpoint client (ops : list alloc_op) (own : list Z) : K (list Z) :=
  match ops with
  | [] => ret own
  | OpAlloc :: ops =>
      v <- kalloc ;; client ops (if v =? 0 then own else v :: own)
  | OpFree i :: ops =>
      match own !! i with
      | Some v => kfree v ;;; client ops (delete i own)
      | None => client ops own
      end
  end.

(** Whatever a client asks for and gives back, it and the free list together
    hold the same pages as at the start, none twice: [kalloc] never hands out a
    page that is in use, and [kfree] loses none. *)
Theorem client_conserves ops : ∀ own k l,
  kmem_inv k l → Forall page_ok own → NoDup (own ++ l) →
  ∃ own' k' l', client ops own k = Ret own' k' ∧ kmem_inv k' l' ∧ own' ++ l' ≡ₚ own ++ l.
Proof using Lok.
  induction ops as [|[|i] ops IH]; intros own k l Hk Hown Hnd; simpl.
  - by exists own, k, l.
  - rewrite (bind_eq _ _ _ _ _ (kalloc_eq _ _ Hk)). destruct l as [|v l]; simpl.
    + by apply IH.
    + pose proof (km_pages _ _ Hk) as [Hv _]%Forall_cons.
      rewrite (proj2 (Z.eqb_neq _ _)) by (apply page_ok_range in Hv; lia).
      destruct (IH (v :: own) _ _ (kalloc_inv _ _ _ Hk)) as (own' & k' & l' & ? & ? & HP).
      * by constructor.
      * simpl. by rewrite Permutation_middle.
      * exists own', k', l'. split_and!; [done..|]. rewrite HP. simpl. by rewrite Permutation_middle.
  - destruct (own !! i) as [v|] eqn:Ei; [|by apply IH].
    assert (page_ok v) as Hv by (by eapply Forall_lookup_1).
    assert (own ++ l ≡ₚ v :: delete i own ++ l) as HP by (by rewrite (delete_Permutation own i v Ei) at 1).
    rewrite HP in Hnd. apply NoDup_cons in Hnd as [Hin Hnd]. rewrite elem_of_app in Hin.
    rewrite (bind_eq _ _ _ _ _ (kfree_eq _ _ _ Hk Hv)).
    assert (v ∉ l) as Hvl by tauto.
    destruct (IH (delete i own) _ _ (kfree_inv _ _ _ Hk Hv Hvl)) as (own' & k' & l' & ? & ? & HP').
    + by apply Forall_delete.
    + rewrite <- Permutation_middle. apply NoDup_cons. rewrite elem_of_app. tauto.
    + exists own', k', l'. split_and!; [done..|]. by rewrite HP', HP, Permutation_middle.
Qed.

(** ** Building the free list *)

Definition page_range (p : Z) (n : nat) : list Z := (λ i : nat, p + 4096 * i) <$> seq 0 n.

Lemma page_range_S p n : page_range p (S n) = p :: page_range (p + 4096) n.
Proof.
  unfold page_range. rewrite <- cons_seq, fmap_cons. f_equal; [lia|].
  rewrite <- fmap_S_seq, <- list_fmap_compose. apply list_fmap_ext. intros. simpl. lia.
Qed.

Lemma elem_of_page_range p (n : nat) v :
  p mod 4096 = 0 → v ∈ page_range p n ↔ v mod 4096 = 0 ∧ p <= v < p + 4096 * n.
Proof.
  intros Hp. unfold page_range. rewrite list_elem_of_fmap. split.
  - intros (i & -> & Hi%elem_of_seq). divmod.
  - intros [? ?]. exists (Z.to_nat ((v - p) / 4096)). rewrite elem_of_seq. divmod.
Qed.

Lemma freerange_loop_spec (n : nat) : ∀ k l p vend,
  kmem_inv k l → p mod 4096 = 0 → end_addr <= p → p + 4096 * n <= vend <= KERNBASE + PHYSTOP →
  vend < p + 4096 * n + 4096 →
  (∀ v, v ∈ l → ¬ p <= v < vend) →
  ∃ k', freerange_loop (S n) p vend k = Ret tt k' ∧
        kmem_inv k' (reverse (page_range p n) ++ l) ∧ mem_only k k' ∧
        ∀ b, ¬ (p <= b < vend) → ldb (k_mem k') b = ldb (k_mem k) b.
Proof using Lok.
  induction n as [|n IH]; intros k l p vend Hk Hp He Hv Hlt Hd.
  - exists k. simpl. unfold PGSIZE. rewrite (proj2 (Z.leb_gt _ _)) by lia.
    split_and!; [done|done|apply mem_only_refl|done].
  - assert (page_ok p) as Hpok by (split; [done|lia]).
    assert (p ∉ l) as Hnin by (intros ?%Hd; lia).
    edestruct (IH _ _ (p + 4096) vend (kfree_inv _ _ _ Hk Hpok Hnin))
      as (k' & E & Hk' & Hmo & Hs); [divmod|lia|lia|lia| |].
    + intros v [->|Hin]%elem_of_cons; [lia|]. apply Hd in Hin. lia.
    + exists k'. rewrite page_range_S, reverse_cons, <- app_assoc.
      split_and!; [|done|by eapply mem_only_trans; [|exact Hmo]|].
      * cbn [freerange_loop]. unfold PGSIZE at 1. rewrite (proj2 (Z.leb_le _ _)) by lia.
        by rewrite (bind_eq _ _ _ _ _ (kfree_eq _ _ _ Hk Hpok)).
      * intros b Hb. rewrite Hs by lia. apply freed_mem_out. lia.
Qed.

Lemma freerange_spec k l vstart vend :
  kmem_inv k l → end_addr <= vstart → vstart <= vend → vend mod 4096 = 0 →
  vend <= KERNBASE + PHYSTOP →
  (∀ v, v ∈ l → v < vstart) →
  ∃ k' l', freerange vstart vend k = Ret tt k' ∧ kmem_inv k' l' ∧
    mem_only k k' ∧ (∀ b, b < vstart → ldb (k_mem k') b = ldb (k_mem k) b) ∧
    ∀ v, v ∈ l' ↔ v ∈ l ∨ (v mod 4096 = 0 ∧ vstart <= v < vend).
Proof using Lok.
  intros Hk He Hle Hm Hv Hd. unfold freerange.
  assert (is_u32 (vstart + 4095)).
  { destruct Lok as [H1 _ _]. unfold is_u32, KERNLINK, EXTMEM, KERNBASE, PHYSTOP in *. lia. }
  set (p := PGROUNDUP vstart).
  assert (p = (vstart + 4095) / 4096 * 4096) as Ep by (by apply PGROUNDUP_eq).
  set (n := Z.to_nat ((vend - p) / PGSIZE)).
  assert (vend = p + 4096 * n) as En by (unfold n, PGSIZE; rewrite Ep; divmod).
  assert (p mod 4096 = 0) as Hpm by divmod.
  destruct (freerange_loop_spec n k l p vend) as (k' & E & Hk' & Hu & Hs);
    [done|done|divmod|lia|lia| |].
  { intros v ?%Hd. divmod. }
  exists k', (reverse (page_range p n) ++ l). split_and!; [|done|done|intros; apply Hs; divmod|].
  - replace (Z.to_nat ((vend - p) / PGSIZE + 1)) with (S n); [done|].
    unfold n, PGSIZE. rewrite Z2Nat.inj_add by divmod. lia.
  - intros v. rewrite elem_of_app, elem_of_reverse, elem_of_page_range by done.
    rewrite <- En. split; [intros [[? ?]|?]; [right; divmod|by left]|].
    intros [?|[? ?]]; [by right|left; divmod].
Qed.

End ok.
End kalloc.

(** ** Examples *)

Definition two_pages : kernel :=
  set_k_mem (st32 ∅ 2149580800 2149584896) (set_k_freelist 2149580800 kernel0).

Lemma client_conserves_witness :
  ∃ own' k' l', client (L := demo_layout) [OpAlloc; OpAlloc; OpFree 1; OpAlloc] [2149588992] two_pages = Ret own' k' ∧
    kmem_inv (L := demo_layout) k' l' ∧ own' ++ l' ≡ₚ [2149588992; 2149580800; 2149584896].
Proof.
  apply (client_conserves (L := demo_layout) (Lok := demo_layout_ok) _ [2149588992] two_pages
    [2149580800; 2149584896]).
  - split; [vm_compute; done|apply (bool_decide_unpack _); vm_compute; done|repeat constructor; vm_compute; done
           |apply not_elem_of_nil].
  - repeat constructor; vm_compute; done.
  - apply (bool_decide_unpack _). vm_compute. done.
Defined.
