(* ===== verification/Vm.v ===== *)
(** * Virtual memory (src/vm.c)

    Two-level page tables in physical pages handed out by the allocator.  The
    routines are translated on the byte memory; the theorems read them through
    an abstract address space (which page-table pages there are and which
    virtual pages are mapped to what) that the memory represents. *)

From S2P Require Import Prelude Mem CString State Mmu Spinlock Kalloc.

Definition load32 (a : Z) : K Z := gets (λ k, ld32 (k_mem k) a).
Definition store32 (a v : Z) : K unit := modify (λ k, set_k_mem (st32 (k_mem k) a v) k).
Definition zero_page (a : Z) : K unit :=
  modify (λ k, set_k_mem (memset (k_mem k) a 0 (Z.to_nat PGSIZE)) k).

(** [entry & PTE_P]. *)
Definition present (v : Z) : bool := negb (Z.land v PTE_P =? 0).

(** Iterations of a loop that advances a page at a time from [a] to [b]. *)
Definition page_steps (a b : Z) : nat := Z.to_nat ((b - a) / PGSIZE + 1).

Section vm.
Context `{L : Layout}.

Definition walkpgdir (pgdir va : Z) (alloc : bool) : K Z :=
  let pde := pgdir + 4 * PDX va in
  e <- load32 pde ;;
  if present e then
    let pgtab := P2V (PTE_ADDR e) in
    ret (pgtab + 4 * PTX va)
  else if negb alloc then ret 0
  else
    pgtab <- kalloc ;;
    if pgtab =? 0 then ret 0
    else
      (* Make sure all those PTE_P bits are zero. *)
      zero_page pgtab ;;;
      store32 pde (Z.lor (Z.lor (Z.lor (V2P pgtab) PTE_P) PTE_W) PTE_U) ;;;
      ret (pgtab + 4 * PTX va).

Fixpoint mappages_loop (fuel : nat) (pgdir a last pa perm : Z) : K Z :=
  pte <- walkpgdir pgdir a true ;;
  if pte =? 0 then ret (-1)
  else
    e <- load32 pte ;;
    if present e then panic "remap"
    else
      store32 pte (Z.lor (Z.lor pa perm) PTE_P) ;;;
      if a =? last then ret 0
      else
        match fuel with
        | O => λ _, Spin
        | S fuel => mappages_loop fuel pgdir (u32 (a + PGSIZE)) last (u32 (pa + PGSIZE)) perm
        end.

Definition mappages (pgdir va size pa perm : Z) : K Z :=
  let a := PGROUNDDOWN va in
  let last := PGROUNDDOWN (u32 (va + size - 1)) in
  mappages_loop (page_steps a (a + u32 (last - a))) pgdir a last pa perm.

(** [deallocuvm]'s loop; a missing page table skips to the next directory entry. *)
Fixpoint deallocuvm_loop (fuel : nat) (pgdir a oldsz : Z) : K unit :=
  if a <? oldsz then
    match fuel with
    | O => λ _, Spin
    | S fuel =>
        pte <- walkpgdir pgdir a false ;;
        if pte =? 0 then
          let a := u32 (PGADDR (PDX a + 1) 0 0 - PGSIZE) in
          deallocuvm_loop fuel pgdir (u32 (a + PGSIZE)) oldsz
        else
          e <- load32 pte ;;
          when (present e)
            (let pa := PTE_ADDR e in
             when (pa =? 0) (panic "kfree") ;;;
             kfree (P2V pa) ;;;
             store32 pte 0) ;;;
          deallocuvm_loop fuel pgdir (u32 (a + PGSIZE)) oldsz
    end
  else ret tt.

Definition deallocuvm (pgdir oldsz newsz : Z) : K Z :=
  if newsz >=? oldsz then ret oldsz
  else
    let a := PGROUNDUP newsz in
    deallocuvm_loop (page_steps a oldsz) pgdir a oldsz ;;;
    ret newsz.

Fixpoint allocuvm_loop (fuel : nat) (pgdir a oldsz newsz : Z) : K Z :=
  if a <? newsz then
    match fuel with
    | O => λ _, Spin
    | S fuel =>
        mem <- kalloc ;;
        if mem =? 0 then
          deallocuvm pgdir newsz oldsz ;;; ret 0
        else
          zero_page mem ;;;
          r <- mappages pgdir a PGSIZE (V2P mem) (Z.lor PTE_W PTE_U) ;;
          if r <? 0 then
            deallocuvm pgdir newsz oldsz ;;; kfree mem ;;; ret 0
          else allocuvm_loop fuel pgdir (u32 (a + PGSIZE)) oldsz newsz
    end
  else ret newsz.

Definition allocuvm (pgdir oldsz newsz : Z) : K Z :=
  if newsz >=? KERNBASE then ret 0
  else if newsz <? oldsz then ret oldsz
  else
    let a := PGROUNDUP oldsz in
    allocuvm_loop (page_steps a newsz) pgdir a oldsz newsz.

Definition freevm (pgdir : Z) (dodeallocuvm : bool) : K unit :=
  if pgdir =? 0 then panic "freevm: no pgdir"
  else
    when dodeallocuvm (deallocuvm pgdir KERNBASE 0 ;;; ret tt) ;;;
    foreach (seq 0 NPDENTRIES) (λ i,
      e <- load32 (pgdir + 4 * i) ;;
      when (present e) (kfree (P2V (PTE_ADDR e)))) ;;;
    kfree pgdir.

(** The kernel's mappings: virtual start, physical start and end, permissions. *)
Definition kmap : list (Z * Z * Z * Z) :=
  [ (KERNBASE, 0, EXTMEM, PTE_W);
    (KERNLINK, V2P KERNLINK, V2P data_addr, 0);
    (data_addr, V2P data_addr, PHYSTOP, PTE_W);
    (DEVSPACE, DEVSPACE, 0, PTE_W) ].

Definition setupkvm : K Z :=
  pgdir <- kalloc ;;
  if pgdir =? 0 then ret 0
  else
    zero_page pgdir ;;;
    if P2V PHYSTOP >? DEVSPACE then panic "PHYSTOP too high"
    else
      o <- foreach_exit kmap (λ e,
        let '(virt, phys_start, phys_end, perm) := e in
        r <- mappages pgdir virt (u32 (phys_end - phys_start)) phys_start perm ;;
        if r <? 0 then freevm pgdir false ;;; ret (Some 0) else ret None) ;;
      match o with
      | Some r => ret r
      | None => ret pgdir
      end.

Definition switchkvm : K unit := modify (λ k, set_k_cr3 (V2P (k_kpgdir k)) k).

Definition kvmalloc : K unit :=
  p <- setupkvm ;; modify (set_k_kpgdir p) ;;; switchkvm.

(** The checks of [switchuvm] and the load of CR3; the task-state segment it
    also sets is read by the hardware only. *)
Definition switchuvm (p : option nat) : K unit :=
  match p with
  | None => panic "switchuvm: no process"
  | Some i =>
      p <- gets (λ k, proc_at k i) ;;
      if p_kstack p =? 0 then panic "switchuvm: no kstack"
      else if p_pgdir p =? 0 then panic "switchuvm: no pgdir"
      else modify (set_k_cr3 (V2P (p_pgdir p)))
  end.

(** [memmove] of bytes the kernel holds ([init], an argument string) to [dst]. *)
Fixpoint store_bytes (m : mem) (dst : Z) (bs : list Z) : mem :=
  match bs with
  | [] => m
  | b :: bs => store_bytes (stb m dst b) (dst + 1) bs
  end.

Definition inituvm (pgdir : Z) (init : list Z) : K unit :=
  if Z.of_nat (length init) >=? PGSIZE then panic "inituvm: more than a page"
  else
    mem <- kalloc ;;
    zero_page mem ;;;
    mappages pgdir 0 PGSIZE (V2P mem) (Z.lor PTE_W PTE_U) ;;;
    modify (λ k, set_k_mem (store_bytes (k_mem k) mem init) k).

Definition clearpteu (pgdir uva : Z) : K unit :=
  pte <- walkpgdir pgdir uva false ;;
  if pte =? 0 then panic "clearpteu"
  else e <- load32 pte ;; store32 pte (Z.land e (Z.lnot PTE_U)).

(** [copyuvm]'s loop: [true] when it runs to its end, [false] for the jump to [bad]. *)
Fixpoint copyuvm_loop (fuel : nat) (pgdir d i sz : Z) : K bool :=
  if i <? sz then
    match fuel with
    | O => λ _, Spin
    | S fuel =>
        pte <- walkpgdir pgdir i false ;;
        if pte =? 0 then copyuvm_loop fuel pgdir d (u32 (i + PGSIZE)) sz
        else
          e <- load32 pte ;;
          if negb (present e) then copyuvm_loop fuel pgdir d (u32 (i + PGSIZE)) sz
          else
            let pa := PTE_ADDR e in
            let flags := PTE_FLAGS e in
            mem <- kalloc ;;
            if mem =? 0 then ret false
            else
              modify (λ k, set_k_mem (memmove (k_mem k) mem (P2V pa) (Z.to_nat PGSIZE)) k) ;;;
              r <- mappages d i PGSIZE (V2P mem) flags ;;
              if r <? 0 then kfree mem ;;; ret false
              else copyuvm_loop fuel pgdir d (u32 (i + PGSIZE)) sz
    end
  else ret true.

Definition copyuvm (pgdir sz : Z) : K Z :=
  d <- setupkvm ;;
  if d =? 0 then ret 0
  else
    ok <- copyuvm_loop (page_steps 0 sz) pgdir d 0 sz ;;
    if ok : bool then ret d
    else freevm d true ;;; ret 0.

(** [uva2ka] dereferences the entry's address without testing it: where there
    is no page table it reads address 0. *)
Definition uva2ka (pgdir uva : Z) : K Z :=
  pte <- walkpgdir pgdir uva false ;;
  e <- load32 pte ;;
  if negb (present e) then ret 0
  else if Z.land e PTE_U =? 0 then ret 0
  else ret (P2V (PTE_ADDR e)).

Fixpoint copyout_loop (fuel : nat) (pgdir va : Z) (buf : list Z) : K Z :=
  match buf with
  | [] => ret 0
  | _ :: _ =>
      match fuel with
      | O => λ _, Spin
      | S fuel =>
          let va0 := PGROUNDDOWN va in
          pa0 <- uva2ka pgdir va0 ;;
          if pa0 =? 0 then ret (-1)
          else
            let n := Z.min (PGSIZE - (va - va0)) (length buf) in
            modify (λ k, set_k_mem
              (store_bytes (k_mem k) (pa0 + (va - va0)) (take (Z.to_nat n) buf)) k) ;;;
            copyout_loop fuel pgdir (u32 (va0 + PGSIZE)) (drop (Z.to_nat n) buf)
      end
  end.

Definition copyout (pgdir va : Z) (buf : list Z) : K Z :=
  copyout_loop (S (length buf)) pgdir va buf.
End vm.
