(* ===== verification/VmSpec.v ===== *)
(** * Address spaces represented by page tables

    [aspace] is what a page directory means: its page-table pages and its
    mapped pages.  [rep] says that a memory holds an address space, [vm_inv]
    that the allocator's free pages, the page-table pages and the other pages
    in use are all different.  The routines of Vm.v are specified on address
    spaces. *)

From S2P Require Import Prelude Mem CString State Mmu Spinlock Kalloc Vm.

(** ** Memories that agree outside some pages *)

Definition in_page (p b : Z) : Prop := p <= b < p + 4096.

Definition same_except (ps : list Z) (m m' : mem) : Prop :=
  ∀ b, (∀ p, p ∈ ps → ¬ in_page p b) → ldb m' b = ldb m b.

Lemma same_except_refl ps m : same_except ps m m.
Proof. by intros b _. Qed.

Lemma same_except_trans ps m1 m2 m3 :
  same_except ps m1 m2 → same_except ps m2 m3 → same_except ps m1 m3.
Proof. intros H1 H2 b Hb. rewrite H2, H1; done. Qed.

Lemma same_except_weaken ps qs m m' :
  ps ⊆ qs → same_except ps m m' → same_except qs m m'.
Proof. intros Hsub H b Hb. apply H. intros p Hp. by apply Hb, Hsub. Qed.

Lemma same_except_st32 p m a v : in_page p a → in_page p (a + 3) → same_except [p] m (st32 m a v).
Proof.
  unfold in_page. intros ? ? b Hb. apply ldb_st32_out.
  specialize (Hb p ltac:(by left)). unfold in_page in Hb. lia.
Qed.

Lemma same_except_memset p m c : same_except [p] m (memset m p c (Z.to_nat PGSIZE)).
Proof.
  intros b Hb. specialize (Hb p ltac:(by left)). rewrite ldb_memset, decide_False; [done|].
  unfold PGSIZE, in_page in *. lia.
Qed.

Definition aligned (p : Z) : Prop := p mod 4096 = 0.

Lemma in_page_apart p q b : aligned p → aligned q → p ≠ q → in_page p b → ¬ in_page q b.
Proof. unfold aligned, in_page. intros. divmod. Qed.

(** A word of a page that is not among the changed ones. *)
Lemma same_except_ld32 ps m m' p a :
  same_except ps m m' → Forall aligned ps → aligned p → p ∉ ps →
  in_page p a → in_page p (a + 3) → ld32 m' a = ld32 m a.
Proof.
  intros H Hps Hp Hin Ha Ha3. apply ld32_ext. intros b Hb. apply H. intros q Hq.
  rewrite Forall_forall in Hps. apply (in_page_apart p); [done|by apply Hps|by intros ->|].
  unfold in_page in *. lia.
Qed.

(** ** Address spaces *)

Record aspace := mkAspace {
  as_dir : Z;             (* the page directory *)
  as_pt : gmap Z Z;       (* directory index to page-table page *)
  as_map : gmap Z Z       (* virtual page number to page-table entry *)
}.

Definition pt_pages (A : aspace) : list Z := (map_to_list (as_pt A)).*2.

(** The memory [m] holds the address space [A]. *)
Record rep (m : mem) (A : aspace) : Prop := {
  rep_pt_dom i pt : as_pt A !! i = Some pt → 0 <= i < 1024;
  rep_map_dom n e : as_map A !! n = Some e → is_Some (as_pt A !! (n / 1024));
  rep_pde i : 0 <= i < 1024 →
    match as_pt A !! i with
    | Some pt => ld32 m (as_dir A + 4 * i) = V2P pt + 7
    | None => present (ld32 m (as_dir A + 4 * i)) = false
    end;
  rep_pte i pt j : as_pt A !! i = Some pt → 0 <= j < 1024 →
    match as_map A !! (1024 * i + j) with
    | Some e => ld32 m (pt + 4 * j) = e ∧ present e = true
    | None => present (ld32 m (pt + 4 * j)) = false
    end
}.

Lemma present_odd v : present v = Z.odd v.
Proof.
  unfold present, PTE_P. change 1 with (2 ^ 0). rewrite land_flag_testbit by lia.
  by rewrite negb_involutive, Z.bit0_odd.
Qed.

Section spec.
Context `{L : Layout} {Lok : LayoutOk L}.

(** Every page in use is owned once: the directory, the page tables, the pages
    [rest] that other structures use, and the free pages [l]. *)
Record vm_inv (k : kernel) (A : aspace) (rest l : list Z) : Prop := {
  vi_kmem : kmem_inv k l;
  vi_rep : rep (k_mem k) A;
  vi_nodup : NoDup (as_dir A :: pt_pages A ++ rest ++ l);
  vi_pages : Forall page_ok (as_dir A :: pt_pages A ++ rest)
}.

Lemma page_ok_aligned p : page_ok p → aligned p.
Proof. by intros [? _]. Qed.

Lemma V2P_page p : page_ok p → V2P p = p - KERNBASE ∧ V2P p mod 4096 = 0 ∧ 0 <= V2P p < PHYSTOP.
Proof using Lok.
  intros Hp. destruct (page_ok_range p Hp) as [? Hu]. destruct Hp as [Hm ?].
  unfold V2P, KERNBASE, PHYSTOP in *. rewrite u32_small by (unfold is_u32 in *; lia). divmod.
Qed.

Lemma P2V_V2P p : page_ok p → P2V (V2P p) = p.
Proof using Lok.
  intros Hp. destruct (V2P_page p Hp) as (-> & _ & _). destruct (page_ok_range p Hp) as [_ Hu].
  unfold P2V. replace (p - KERNBASE + KERNBASE) with p by lia. by apply u32_small.
Qed.

(** A directory or table entry that points at a page. *)
Lemma entry_page p f : page_ok p → 0 <= f < 4096 →
  Z.lor (V2P p) f = V2P p + f ∧ P2V (PTE_ADDR (V2P p + f)) = p ∧
  PTE_FLAGS (V2P p + f) = f ∧ is_u32 (V2P p + f).
Proof using Lok.
  intros Hp Hf. destruct (V2P_page p Hp) as (_ & Hm & Hr).
  split_and!.
  - by apply lor_page_flags.
  - replace (PTE_ADDR (V2P p + f)) with (V2P p); [by apply P2V_V2P|]. rewrite PTE_ADDR_eq. divmod.
  - rewrite PTE_FLAGS_eq. divmod.
  - unfold is_u32, PHYSTOP in *. lia.
Qed.

Lemma pt_pages_elem A i pt : as_pt A !! i = Some pt → pt ∈ pt_pages A.
Proof.
  intros H. unfold pt_pages. apply list_elem_of_fmap. exists (i, pt).
  split; [done|]. by apply elem_of_map_to_list.
Qed.

Lemma pt_pages_insert A i pt :
  as_pt A !! i = None →
  pt_pages (mkAspace (as_dir A) (<[i := pt]> (as_pt A)) (as_map A)) ≡ₚ pt :: pt_pages A.
Proof. intros. unfold pt_pages. simpl. by rewrite map_to_list_insert. Qed.

(** Page tables of different directory entries are different pages. *)
Lemma pt_pages_inj A i j p :
  NoDup (pt_pages A) → as_pt A !! i = Some p → as_pt A !! j = Some p → i = j.
Proof.
  unfold pt_pages. intros Hnd Hi Hj.
  apply elem_of_map_to_list in Hi, Hj.
  apply list_elem_of_lookup in Hi as [a Ha]. apply list_elem_of_lookup in Hj as [b Hb].
  assert (a = b) as ->; [|congruence].
  eapply (NoDup_lookup _ a b p Hnd); by rewrite list_lookup_fmap, ?Ha, ?Hb.
Qed.

(** A page table's word lies in its page. *)
Lemma word_in_page p j : 0 <= j < 1024 → in_page p (p + 4 * j) ∧ in_page p (p + 4 * j + 3).
Proof. unfold in_page. lia. Qed.

(** The owned pages of an address space, with the facts on them. *)
Lemma vm_inv_aligned k A rest l :
  vm_inv k A rest l → aligned (as_dir A) ∧ Forall aligned (pt_pages A) ∧ Forall aligned rest ∧
  Forall aligned l.
Proof.
  intros [Hk _ _ Hp]. apply Forall_cons in Hp as [Hd Hp]. apply Forall_app in Hp as [Hpt Hr].
  pose proof (km_pages _ _ Hk).
  split_and!; [by apply page_ok_aligned|eapply Forall_impl; [done|apply page_ok_aligned]..].
Qed.

Lemma vm_inv_pt k A rest l i pt :
  vm_inv k A rest l → as_pt A !! i = Some pt →
  page_ok pt ∧ pt ≠ as_dir A ∧ pt ∉ rest ∧ pt ∉ l.
Proof.
  intros Hinv Hi%pt_pages_elem. pose proof (vi_pages _ _ _ _ Hinv) as Hp.
  pose proof (vi_nodup _ _ _ _ Hinv) as Hnd.
  apply Forall_cons in Hp as [_ Hp]. apply Forall_app in Hp as [Hp _].
  rewrite Forall_forall in Hp. apply NoDup_cons in Hnd as [Hd Hnd].
  apply NoDup_app in Hnd as (_ & Hx & _).
  split_and!; [by apply Hp| |intros ?; apply (Hx pt Hi), elem_of_app; auto..].
  intros ->. apply Hd, elem_of_app. by left.
Qed.

Lemma vm_inv_dir k A rest l :
  vm_inv k A rest l →
  page_ok (as_dir A) ∧ as_dir A ∉ pt_pages A ∧ as_dir A ∉ rest ∧ as_dir A ∉ l.
Proof.
  intros [_ _ Hnd Hp]. apply Forall_cons in Hp as [Hd _]. apply NoDup_cons in Hnd as [Hn _].
  rewrite !elem_of_app in Hn. tauto.
Qed.

(** A representation survives changes to other pages. *)
Lemma rep_frame ps m m' A :
  rep m A → same_except ps m m' → Forall aligned ps → aligned (as_dir A) →
  Forall aligned (pt_pages A) → as_dir A ∉ ps → (∀ p, p ∈ pt_pages A → p ∉ ps) → rep m' A.
Proof.
  intros [H1 H2 H3 H4] Hs Hps Hd Hpt Hnd Hnp. split; [done..| |].
  - intros i Hi. destruct (word_in_page (as_dir A) i Hi).
    rewrite (same_except_ld32 ps m m' (as_dir A)) by done. by apply H3.
  - intros i pt j Hi Hj. destruct (word_in_page pt j Hj).
    pose proof (pt_pages_elem _ _ _ Hi) as Hin. rewrite Forall_forall in Hpt.
    rewrite (same_except_ld32 ps m m' pt) by auto. by apply H4.
Qed.

Lemma kmem_frame k l ps m' :
  kmem_inv k l → same_except ps (k_mem k) m' → Forall aligned ps → (∀ p, p ∈ ps → p ∉ l) →
  kmem_inv (set_k_mem m' k) l.
Proof.
  intros [Hl Hnd Hp Hk] Hs Hps Hd. split; [|done..]. eapply free_list_frame; [|done].
  intros w b Hw Hb. apply Hs. intros p Hin Hpb. rewrite Forall_forall in Hp, Hps.
  apply (in_page_apart p w b); [by apply Hps|by apply page_ok_aligned, Hp| |done|].
  - intros ->. by apply (Hd w).
  - unfold in_page. lia.
Qed.

(** Changes to pages that are neither tables nor free keep the invariant. *)
Lemma vm_inv_frame k A rest l ps m' :
  vm_inv k A rest l → same_except ps (k_mem k) m' → Forall aligned ps →
  (∀ p, p ∈ ps → p ≠ as_dir A ∧ p ∉ pt_pages A ∧ p ∉ l) →
  vm_inv (set_k_mem m' k) A rest l.
Proof.
  intros Hinv Hs Hps Hd. destruct (vm_inv_aligned _ _ _ _ Hinv) as (? & ? & _ & _).
  destruct Hinv as [Hk Hr Hnd Hp]. split; [| |done|done].
  - apply (kmem_frame _ _ ps); [done..|]. intros p Hin. by apply Hd.
  - apply (rep_frame ps (k_mem k)); [done..| |].
    + intros Hin. by apply Hd in Hin as [? _].
    + intros p Hp1 Hp2. by apply Hd in Hp2 as (_ & ? & _).
Qed.

Ltac aligned_tac :=
  repeat first [apply Forall_nil_2 | apply Forall_cons_2]; auto using page_ok_aligned.

(** ** [walkpgdir] *)

Lemma walk_present k A rest l va alloc pt :
  vm_inv k A rest l → is_u32 va → as_pt A !! PDX va = Some pt →
  walkpgdir (as_dir A) va alloc k = Ret (pt + 4 * PTX va) k.
Proof using Lok.
  intros Hinv Hva Hpt. pose proof (PDX_range va Hva) as Hr.
  pose proof (rep_pde _ _ (vi_rep _ _ _ _ Hinv) _ Hr) as Hpde. rewrite Hpt in Hpde.
  destruct (vm_inv_pt _ _ _ _ _ _ Hinv Hpt) as (Hp & _).
  destruct (entry_page pt 7 Hp) as (_ & Ha & _ & _); [lia|].
  destruct (V2P_page pt Hp) as (_ & Hm & _).
  unfold walkpgdir, bind, load32, gets. simpl. rewrite Hpde.
  rewrite present_odd, Z.odd_add, (proj2 (Z.odd_spec 7)) by (by exists 3).
  replace (Z.odd (V2P pt)) with false.
  - simpl. by rewrite Ha.
  - symmetry. rewrite <- Z.negb_even, negb_false_iff, Z.even_spec. exists (V2P pt / 2). divmod.
Qed.

Lemma walk_absent k A rest l va alloc :
  vm_inv k A rest l → is_u32 va → as_pt A !! PDX va = None → (alloc = false ∨ l = []) →
  walkpgdir (as_dir A) va alloc k = Ret 0 k.
Proof using Lok.
  intros Hinv Hva Hpt Hor. pose proof (PDX_range va Hva) as Hr.
  pose proof (rep_pde _ _ (vi_rep _ _ _ _ Hinv) _ Hr) as Hpde. rewrite Hpt in Hpde.
  unfold walkpgdir, bind at 1, load32, gets. simpl. rewrite Hpde. destruct Hor as [-> | ->]; [done|].
  destruct alloc; [|done]. simpl.
  by rewrite (bind_eq _ _ _ _ _ (kalloc_eq _ _ (vi_kmem _ _ _ _ Hinv))).
Qed.

(** The state after [walkpgdir] has allocated the page table [v]. *)
Definition walk_mem (k : kernel) (dir va v : Z) : mem :=
  st32 (memset (k_mem k) v 0 (Z.to_nat PGSIZE)) (dir + 4 * PDX va) (V2P v + 7).

Lemma walk_alloc_eq k A rest v l va :
  vm_inv k A rest (v :: l) → is_u32 va → as_pt A !! PDX va = None →
  walkpgdir (as_dir A) va true k =
    Ret (v + 4 * PTX va)
      (set_k_mem (walk_mem k (as_dir A) va v) (set_k_freelist (ld32 (k_mem k) v) k)).
Proof using Lok.
  intros Hinv Hva Hpt. pose proof (PDX_range va Hva) as Hr.
  pose proof (rep_pde _ _ (vi_rep _ _ _ _ Hinv) _ Hr) as Hpde. rewrite Hpt in Hpde.
  pose proof (km_pages _ _ (vi_kmem _ _ _ _ Hinv)) as [Hv _]%Forall_cons.
  destruct (page_ok_range v Hv) as [Hvr _].
  unfold walkpgdir, bind at 1, load32, gets. simpl. rewrite Hpde. simpl.
  rewrite (bind_eq _ _ _ _ _ (kalloc_eq _ _ (vi_kmem _ _ _ _ Hinv))). simpl.
  rewrite (proj2 (Z.eqb_neq v 0)) by lia.
  unfold bind, zero_page, store32, modify. simpl. unfold walk_mem.
  rewrite <- !Z.lor_assoc. change (Z.lor PTE_P (Z.lor PTE_W PTE_U)) with 7.
  destruct (entry_page v 7 Hv) as (-> & _); [lia|]. done.
Qed.

Lemma walk_mem_same k dir va v :
  is_u32 va → same_except [dir; v] (k_mem k) (walk_mem k dir va v).
Proof.
  intros Hva. unfold walk_mem. destruct (word_in_page dir (PDX va) (PDX_range va Hva)).
  apply same_except_trans with (memset (k_mem k) v 0 (Z.to_nat PGSIZE)).
  - apply (same_except_weaken [v]); [set_solver|apply same_except_memset].
  - apply (same_except_weaken [dir]); [set_solver|by apply same_except_st32].
Qed.

(** The new page table is empty, and the old tables are untouched. *)
Lemma walk_alloc_rep k A rest v l va :
  vm_inv k A rest (v :: l) → is_u32 va → as_pt A !! PDX va = None →
  rep (walk_mem k (as_dir A) va v)
      (mkAspace (as_dir A) (<[PDX va := v]> (as_pt A)) (as_map A)).
Proof using Lok.
  intros Hinv Hva Hpt. pose proof (PDX_range va Hva) as Hr.
  destruct (vi_rep _ _ _ _ Hinv) as [H1 H2 H3 H4].
  destruct (vm_inv_dir _ _ _ _ Hinv) as (Hd & Hdpt & _ & Hdl).
  apply not_elem_of_cons in Hdl as [Hdv _].
  pose proof (km_pages _ _ (vi_kmem _ _ _ _ Hinv)) as [Hv _]%Forall_cons.
  destruct (entry_page v 7 Hv) as (_ & _ & _ & Hu); [lia|].
  pose proof (walk_mem_same k (as_dir A) va v Hva) as Hsame.
  split; cbn [as_dir as_pt as_map].
  - intros i pt. rewrite lookup_insert. case_decide; [intros _; by subst i|apply H1].
  - intros n e ?%H2. rewrite lookup_insert. by case_decide.
  - intros i Hi. destruct (word_in_page (as_dir A) i Hi). unfold walk_mem.
    rewrite lookup_insert. case_decide as Ei; [subst i; by rewrite ld32_st32_same, u32_small|].
    rewrite ld32_st32_ne by lia.
    rewrite (same_except_ld32 [v] (k_mem k) _ (as_dir A));
      [by apply H3|apply same_except_memset|aligned_tac
      |by apply page_ok_aligned|by rewrite list_elem_of_singleton|done|done].
  - intros i pt j Hi Hj. destruct (word_in_page pt j Hj) as [Hw1 Hw2].
    rewrite lookup_insert in Hi. case_decide as Ei.
    + simplify_eq. replace (as_map A !! (1024 * PDX va + j)) with (@None Z).
      2: { symmetry. apply eq_None_not_Some. intros [e He]. apply H2 in He as [? He].
           replace ((1024 * PDX va + j) / 1024) with (PDX va) in He by divmod. congruence. }
      unfold walk_mem. rewrite ld32_st32_ne.
      2: { destruct (pages_apart pt (as_dir A)); unfold in_page in *; [done..|lia|lia]. }
      rewrite present_odd. unfold ld32. rewrite !ldb_memset, !decide_True; [done|..];
        unfold PGSIZE, in_page in *; lia.
    + destruct (vm_inv_pt _ _ _ _ _ _ Hinv Hi) as (Hpt' & Hne & _ & Hnl).
      apply not_elem_of_cons in Hnl as [Hnv _].
      rewrite (same_except_ld32 [as_dir A; v] (k_mem k) _ pt);
        [by apply H4|done|aligned_tac|by apply page_ok_aligned
        |rewrite !not_elem_of_cons; auto using not_elem_of_nil|done|done].
Qed.

Lemma walk_alloc_inv k A rest v l va :
  vm_inv k A rest (v :: l) → is_u32 va → as_pt A !! PDX va = None →
  vm_inv (set_k_mem (walk_mem k (as_dir A) va v) (set_k_freelist (ld32 (k_mem k) v) k))
    (mkAspace (as_dir A) (<[PDX va := v]> (as_pt A)) (as_map A)) rest l.
Proof using Lok.
  intros Hinv Hva Hpt. pose proof (walk_mem_same k (as_dir A) va v Hva) as Hsame.
  destruct (vm_inv_aligned _ _ _ _ Hinv) as (Hda & _ & _ & Hla).
  destruct (vm_inv_dir _ _ _ _ Hinv) as (Hd & _ & _ & Hdl).
  pose proof (vi_kmem _ _ _ _ Hinv) as Hk. pose proof (kalloc_inv _ _ _ Hk) as Hk'.
  pose proof (km_pages _ _ Hk) as [Hv _]%Forall_cons.
  pose proof (km_nodup _ _ Hk) as [Hvl _]%NoDup_cons.
  apply Forall_cons in Hla as [Hva' Hla]. apply not_elem_of_cons in Hdl as [Hdv Hdl].
  split.
  - apply (kmem_frame _ _ [as_dir A; v] _ Hk'); [done|aligned_tac|].
    intros p. rewrite !elem_of_cons, elem_of_nil. intros [->|[->|[]]]; done.
  - by eapply walk_alloc_rep.
  - pose proof (vi_nodup _ _ _ _ Hinv) as Hnd. cbn [as_dir].
    rewrite pt_pages_insert by done. rewrite !app_assoc in *.
    rewrite <- (Permutation_middle (pt_pages A ++ rest)) in Hnd. done.
  - pose proof (vi_pages _ _ _ _ Hinv) as Hp. cbn [as_dir].
    rewrite pt_pages_insert by done. simpl.
    apply Forall_cons in Hp as [? ?]. by rewrite !Forall_cons.
Qed.

(** ** Writing a page-table entry *)

Definition set_map (A : aspace) (M : gmap Z Z) : aspace := mkAspace (as_dir A) (as_pt A) M.

(** A word that is present maps the page, one that is not unmaps it. *)
Definition write_entry (n w : Z) (M : gmap Z Z) : gmap Z Z :=
  if present w then <[n := w]> M else delete n M.

Lemma store_entry_rep m A i pt j w :
  rep m A → NoDup (as_dir A :: pt_pages A) → Forall aligned (as_dir A :: pt_pages A) →
  as_pt A !! i = Some pt → 0 <= j < 1024 → is_u32 w →
  rep (st32 m (pt + 4 * j) w) (set_map A (write_entry (1024 * i + j) w (as_map A))).
Proof.
  intros [H1 H2 H3 H4] Hnd Hal Hi Hj Hw.
  pose proof (H1 _ _ Hi) as Hri. pose proof (pt_pages_elem _ _ _ Hi) as Hin.
  apply NoDup_cons in Hnd as [Hd Hnd]. apply Forall_cons in Hal as [Hda Hal].
  rewrite Forall_forall in Hal. pose proof (Hal _ Hin) as Hpa.
  destruct (word_in_page pt j Hj) as [Hw1 Hw2].
  pose proof (same_except_st32 pt m _ w Hw1 Hw2) as Hs.
  split; unfold set_map; cbn [as_dir as_pt as_map]; [done| | |].
  - intros n e. unfold write_entry. destruct (present w).
    + rewrite lookup_insert. case_decide; [subst|apply H2].
      replace ((1024 * i + j) / 1024) with i by divmod. eauto.
    + rewrite lookup_delete. case_decide; [done|apply H2].
  - intros i' Hi'. destruct (word_in_page (as_dir A) i' Hi').
    rewrite (same_except_ld32 [pt] m _ (as_dir A));
      [by apply H3|done|aligned_tac|done|rewrite list_elem_of_singleton; by intros <-|done|done].
  - intros i' pt' j' Hi' Hj'. destruct (decide (1024 * i' + j' = 1024 * i + j)) as [E|E].
    + assert (i' = i) as -> by lia. assert (j' = j) as -> by lia. simplify_eq.
      rewrite ld32_st32_same, u32_small by done. unfold write_entry. destruct (present w) eqn:Ep.
      * by rewrite lookup_insert_eq.
      * by rewrite lookup_delete_eq.
    + replace (write_entry (1024 * i + j) w (as_map A) !! (1024 * i' + j'))
        with (as_map A !! (1024 * i' + j')).
      2: { unfold write_entry. destruct (present w);
             [by rewrite lookup_insert_ne|by rewrite lookup_delete_ne]. }
      replace (ld32 (st32 m (pt + 4 * j) w) (pt' + 4 * j')) with (ld32 m (pt' + 4 * j'));
        [by apply H4|]. symmetry. destruct (decide (pt' = pt)) as [->|Hne].
      * assert (i' = i) as -> by (by eapply pt_pages_inj). apply ld32_st32_ne. lia.
      * destruct (word_in_page pt' j' Hj'). pose proof (pt_pages_elem _ _ _ Hi').
        apply (same_except_ld32 [pt] m _ pt');
          [done|aligned_tac|by apply Hal|by rewrite list_elem_of_singleton|done|done].
Qed.

Lemma store_entry_inv k A rest l i pt j w :
  vm_inv k A rest l → as_pt A !! i = Some pt → 0 <= j < 1024 → is_u32 w →
  vm_inv (set_k_mem (st32 (k_mem k) (pt + 4 * j) w) k)
    (set_map A (write_entry (1024 * i + j) w (as_map A))) rest l.
Proof.
  intros Hinv Hi Hj Hw. destruct (vm_inv_aligned _ _ _ _ Hinv) as (Hda & Hpa & _ & _).
  destruct (vm_inv_pt _ _ _ _ _ _ Hinv Hi) as (Hp & _ & _ & Hl).
  destruct (word_in_page pt j Hj) as [Hw1 Hw2]. destruct Hinv as [Hk Hr Hnd Hpg].
  split; [| |done|done].
  - apply (kmem_frame _ _ [pt] _ Hk); [by apply same_except_st32|aligned_tac|].
    by intros p ->%list_elem_of_singleton.
  - apply store_entry_rep; [done| |by apply Forall_cons|done..].
    rewrite app_comm_cons in Hnd. by apply NoDup_app in Hnd as (? & _ & _).
Qed.

(** ** [mappages] *)

Lemma flags_present f : 0 <= f < 4096 → 0 <= Z.lor f PTE_P < 4096 ∧ Z.odd (Z.lor f PTE_P) = true.
Proof.
  intros Hf.
  assert (Forall (λ f, 0 <= Z.lor f PTE_P < 4096 ∧ Z.odd (Z.lor f PTE_P) = true) (seqZ 0 4096)) as H.
  { eapply (bool_decide_unpack _ (dec := Forall_dec _ _)). vm_compute. exact I. }
  rewrite Forall_forall in H. apply H, elem_of_seqZ. lia.
Qed.

(** The entry [pa | perm | PTE_P]. *)
Definition pte_for (pa perm : Z) : Z := Z.lor (Z.lor pa perm) PTE_P.

Lemma pte_for_spec pa perm :
  is_u32 pa → pa mod 4096 = 0 → 0 <= perm < 4096 →
  present (pte_for pa perm) = true ∧ is_u32 (pte_for pa perm) ∧
  PTE_ADDR (pte_for pa perm) = pa ∧ PTE_FLAGS (pte_for pa perm) = Z.lor perm PTE_P.
Proof.
  intros Hpa Hm Hp. destruct (flags_present perm Hp) as [Hr Ho].
  assert (pte_for pa perm = pa + Z.lor perm PTE_P) as ->.
  { unfold pte_for. rewrite <- Z.lor_assoc. by apply lor_page_flags. }
  rewrite present_odd, PTE_ADDR_eq, PTE_FLAGS_eq, Z.odd_add, Ho.
  replace (Z.odd pa) with false.
  - unfold is_u32 in *. split_and!; [done|divmod..].
  - symmetry. rewrite <- Z.negb_even, negb_false_iff, Z.even_spec. exists (pa / 2). divmod.
Qed.

(** The address space has grown by page tables taken from the free list. *)
Record grows (k k' : kernel) (A A' : aspace) (l l' : list Z) : Prop := {
  gr_mem_only : mem_only k k';
  gr_dir : as_dir A' = as_dir A;
  gr_pt : as_pt A ⊆ as_pt A';
  gr_pages : ∃ new, l = new ++ l' ∧ pt_pages A' ≡ₚ new ++ pt_pages A;
  gr_same : same_except (as_dir A :: pt_pages A ++ l) (k_mem k) (k_mem k')
}.

Lemma grows_refl k A M l : grows k k A (set_map A M) l l.
Proof. split; [apply mem_only_refl|done|done|by exists []|apply same_except_refl]. Qed.

Lemma grows_trans k1 k2 k3 A1 A2 A3 l1 l2 l3 :
  grows k1 k2 A1 A2 l1 l2 → grows k2 k3 A2 A3 l2 l3 → grows k1 k3 A1 A3 l1 l3.
Proof.
  intros [Hm1 Hd1 Hp1 (n1 & -> & HP1) Hs1] [Hm2 Hd2 Hp2 (n2 & -> & HP2) Hs2]. split.
  - by eapply mem_only_trans.
  - congruence.
  - by etrans.
  - exists (n1 ++ n2). split; [by rewrite app_assoc|].
    rewrite HP2, HP1, !app_assoc. by rewrite (Permutation_app_comm n2 n1).
  - eapply same_except_trans; [done|]. eapply same_except_weaken; [|done].
    rewrite Hd1. intros p. rewrite !elem_of_cons, !elem_of_app, HP1, !elem_of_app. tauto.
Qed.

Lemma page_number_index va :
  is_u32 va → va mod 4096 = 0 → 1024 * PDX va + PTX va = va / 4096.
Proof. intros Hva Hm. rewrite PDX_eq, PTX_eq by done. divmod. Qed.

(** [walkpgdir(pgdir, va, 1)] as it is used by [mappages]: out of memory with
    nothing changed, or the address of an entry of the grown address space. *)
Lemma walk_alloc k A rest l va :
  vm_inv k A rest l → is_u32 va →
  (walkpgdir (as_dir A) va true k = Ret 0 k ∧ l = [] ∧ as_pt A !! PDX va = None) ∨
  ∃ k' A' l' pt, walkpgdir (as_dir A) va true k = Ret (pt + 4 * PTX va) k' ∧
    vm_inv k' A' rest l' ∧ grows k k' A A' l l' ∧ as_map A' = as_map A ∧
    as_pt A' !! PDX va = Some pt ∧ (length l <= S (length l'))%nat.
Proof using Lok.
  intros Hinv Hva. destruct (as_pt A !! PDX va) as [pt|] eqn:Hpt.
  - right. exists k, (set_map A (as_map A)), l, pt. split_and!; [by eapply walk_present| |apply grows_refl|done|done|lia].
    by destruct A.
  - destruct l as [|v l]; [left; split_and!; [by eapply walk_absent; eauto|done|done]|].
    right. do 3 eexists. exists v.
    split_and!; [by eapply walk_alloc_eq|by apply walk_alloc_inv| |done|apply lookup_insert_eq|done].
    split; [done|done|by apply insert_subseteq|exists [v]; split; [done|by apply pt_pages_insert]|].
    apply (same_except_weaken [as_dir A; v]); [|by apply walk_mem_same].
    intros p. rewrite !elem_of_cons, elem_of_app, elem_of_cons, elem_of_nil. tauto.
Qed.

(** One turn of [mappages]' loop. *)
Lemma map_step k A rest l va pa perm :
  vm_inv k A rest l → is_u32 va → va mod 4096 = 0 → as_map A !! (va / 4096) = None →
  is_u32 pa → pa mod 4096 = 0 → 0 <= perm < 4096 →
  (walkpgdir (as_dir A) va true k = Ret 0 k ∧ l = []) ∨
  ∃ pte k1 k' A' l', walkpgdir (as_dir A) va true k = Ret pte k1 ∧ pte ≠ 0 ∧
    present (ld32 (k_mem k1) pte) = false ∧
    k' = set_k_mem (st32 (k_mem k1) pte (pte_for pa perm)) k1 ∧
    vm_inv k' A' rest l' ∧ grows k k' A A' l l' ∧
    as_map A' = <[va / 4096 := pte_for pa perm]> (as_map A) ∧ (length l <= S (length l'))%nat.
Proof using Lok.
  intros Hinv Hva Hm Hnone Hpa Hpm Hperm.
  destruct (walk_alloc _ _ _ _ va Hinv Hva) as [(? & ? & _)|(k1 & A1 & l1 & pt & Hw & Hinv1 & Hg & HM & Hpt & Hlen)];
    [by left|right].
  pose proof (PTX_range va) as Hj. destruct (pte_for_spec pa perm Hpa Hpm Hperm) as (Hpr & Hu & _ & _).
  destruct (vm_inv_pt _ _ _ _ _ _ Hinv1 Hpt) as (Hpok & _). destruct (page_ok_range pt Hpok).
  pose proof (rep_pte _ _ (vi_rep _ _ _ _ Hinv1) _ _ _ Hpt Hj) as He.
  rewrite page_number_index, HM, Hnone in He by done.
  pose proof (store_entry_inv _ _ _ _ _ _ _ _ Hinv1 Hpt Hj Hu) as Hinv2.
  rewrite page_number_index in Hinv2 by done. unfold write_entry in Hinv2. rewrite Hpr, HM in Hinv2.
  exists (pt + 4 * PTX va), k1. do 3 eexists.
  split_and!; [done|lia|done|done|done| |done|done].
  eapply grows_trans; [done|]. split; [done|done|done|by exists []|].
  destruct (word_in_page pt (PTX va) Hj). pose proof (pt_pages_elem _ _ _ Hpt).
  apply (same_except_weaken [pt]); [|by apply same_except_st32].
  intros p ->%list_elem_of_singleton. rewrite !elem_of_cons, elem_of_app. tauto.
Qed.

(** [n] consecutive pages from page number [vpn] on, mapped to [pa] and up. *)
Fixpoint map_pages (n : nat) (vpn pa perm : Z) (M : gmap Z Z) : gmap Z Z :=
  match n with
  | O => M
  | S n => map_pages n (vpn + 1) (pa + 4096) perm (<[vpn := pte_for pa perm]> M)
  end.

Lemma lookup_map_pages (n : nat) vpn pa perm M q :
  map_pages n vpn pa perm M !! q =
    if decide (vpn <= q < vpn + n) then Some (pte_for (pa + 4096 * (q - vpn)) perm) else M !! q.
Proof.
  revert vpn pa M. induction n as [|n IH]; intros vpn pa M; cbn [map_pages].
  - by rewrite decide_False by lia.
  - rewrite IH. destruct (decide (q = vpn)) as [->|Hne].
    + rewrite decide_False, decide_True, lookup_insert_eq by lia. do 2 f_equal. lia.
    + rewrite lookup_insert_ne by done.
      destruct (decide (vpn + 1 <= q < vpn + 1 + n)).
      * rewrite decide_True by lia. do 2 f_equal. lia.
      * by rewrite decide_False by lia.
Qed.

(** What a run of [mappages] over [n] pages leaves: all of them mapped, or the
    memory exhausted with a prefix of them mapped.  Each page takes at most one
    page table. *)
Definition mapped_or_oom (n : nat) (vpn pa perm : Z) (A : aspace) (rest l : list Z) (k : kernel)
    (r : Z) (k' : kernel) (A' : aspace) (l' : list Z) : Prop :=
  vm_inv k' A' rest l' ∧ grows k k' A A' l l' ∧
  ((r = 0 ∧ as_map A' = map_pages n vpn pa perm (as_map A) ∧ (length l <= n + length l')%nat) ∨
   (r = -1 ∧ l' = [] ∧ ∃ j : nat, (length l <= j < n)%nat ∧ as_map A' = map_pages j vpn pa perm (as_map A))).

Lemma mappages_loop_spec (n fuel : nat) k A rest l a pa perm :
  vm_inv k A rest l → (n <= fuel)%nat →
  0 <= a → a mod 4096 = 0 → a + 4096 * n < 2 ^ 32 →
  0 <= pa → pa mod 4096 = 0 → pa + 4096 * n < 2 ^ 32 → 0 <= perm < 4096 →
  (∀ q, a / 4096 <= q <= a / 4096 + n → as_map A !! q = None) →
  ∃ r k' A' l', mappages_loop fuel (as_dir A) a (a + 4096 * n) pa perm k = Ret r k' ∧
    mapped_or_oom (S n) (a / 4096) pa perm A rest l k r k' A' l'.
Proof using Lok.
  revert n k A l a pa. induction fuel as [|fuel IH]; intros n k A l a pa Hinv Hf Ha Ham Hab Hp Hpm Hpb Hperm Hnone.
  all: destruct (map_step k A rest l a pa perm) as [(Hw & ->)|(pte & k1 & k' & A' & l' & Hw & Hnz & Hnp & -> & Hinv' & Hg & HM & Hlen)];
    [done|unfold is_u32; lia|done|apply Hnone; lia|unfold is_u32; lia|done|done| |].
  all: cbn [mappages_loop]; rewrite (bind_eq _ _ _ _ _ Hw).
  1,3: exists (-1), k, (set_map A (as_map A)), []; split; [done|];
    (split; [by destruct A|split; [apply grows_refl|right]]); split_and!; [done|done|exists O; split; [cbn; lia|done]].
  all: replace (pte =? 0) with false by lia; unfold load32, store32; mrun; rewrite Hnp; mrun.
  - assert (n = O) as -> by lia. rewrite (proj2 (Z.eqb_eq a (a + 4096 * 0%nat))) by lia.
    eexists 0, _, A', l'. split; [done|]. split; [done|split; [done|left; split_and!; [done|done|lia]]].
  - destruct n as [|n].
    { rewrite (proj2 (Z.eqb_eq a (a + 4096 * 0%nat))) by lia.
      eexists 0, _, A', l'. split; [done|]. split; [done|split; [done|left; split_and!; [done|done|lia]]]. }
    rewrite (proj2 (Z.eqb_neq a (a + 4096 * S n))) by lia.
    unfold PGSIZE. rewrite !u32_small by (unfold is_u32; lia).
    destruct (IH n _ A' l' (a + 4096) (pa + 4096) Hinv') as (r & k2 & A2 & l2 & Hrun & Hinv2 & Hg2 & Hres);
      [lia|lia|divmod|lia|lia|divmod|lia|done| |].
    { intros q Hq. rewrite HM, lookup_insert_ne by divmod. apply Hnone. divmod. }
    replace ((a + 4096) / 4096) with (a / 4096 + 1) in Hres by divmod.
    rewrite (gr_dir _ _ _ _ _ _ Hg) in Hrun.
    exists r, k2, A2, l2. split; [replace (a + 4096 * S n) with (a + 4096 + 4096 * n) by lia; exact Hrun|].
    split; [done|split; [by eapply grows_trans|]]. cbn [map_pages]. rewrite HM in Hres.
    destruct Hres as [(? & ? & ?)|(-> & -> & j & Hj & HM2)]; [left; split_and!; [done|done|lia]|right].
    split_and!; [done|done|exists (S j); split; [lia|done]].
Qed.

Lemma mappages_spec (n : nat) k A rest l va size pa perm :
  vm_inv k A rest l →
  0 <= va → va mod 4096 = 0 → 0 < size → (size + 4095) / 4096 = n → va + 4096 * n <= 2 ^ 32 →
  0 <= pa → pa mod 4096 = 0 → pa + 4096 * n <= 2 ^ 32 → 0 <= perm < 4096 →
  (∀ q, va / 4096 <= q < va / 4096 + n → as_map A !! q = None) →
  ∃ r k' A' l', mappages (as_dir A) va size pa perm k = Ret r k' ∧
    mapped_or_oom n (va / 4096) pa perm A rest l k r k' A' l'.
Proof using Lok.
  intros Hinv Ha Ham Hs Hn Hab Hp Hpm Hpb Hperm Hnone. unfold mappages.
  assert (PGROUNDDOWN va = va) as -> by (rewrite PGROUNDDOWN_eq; unfold is_u32; divmod).
  assert (PGROUNDDOWN (u32 (va + size - 1)) = va + 4096 * (n - 1)%nat) as ->.
  { rewrite u32_small, PGROUNDDOWN_eq by (unfold is_u32; divmod). divmod. }
  destruct n as [|n]; [divmod|]. replace (S n - 1)%nat with n by lia.
  apply mappages_loop_spec; try done; [|divmod..|intros q Hq; apply Hnone; lia].
  unfold page_steps, PGSIZE. rewrite u32_small by (unfold is_u32; divmod).
  apply Nat2Z.inj_le. rewrite Z2Nat.id; divmod.
Qed.
End spec.
