(* ===== verification/Uvm.v ===== *)
(** * User memory (src/vm.c: deallocuvm, allocuvm, copyuvm)

    The user half of an address space owns one physical page per mapped virtual
    page.  [uvm] is that ownership on top of the page-table invariant; the
    routines that grow, shrink and copy a process image are proved against it,
    on their failure paths too. *)

From S2P Require Import Prelude Mem CString State Mmu Spinlock Kalloc Vm VmSpec.

(** The kernel address of the page an entry points at. *)
Definition frame (e : Z) : Z := P2V (PTE_ADDR e).

Definition user_map (M : gmap Z Z) : gmap Z Z := filter (λ p, p.1 < 524288) M.
Definition user_frames (M : gmap Z Z) : list Z := (λ p, frame p.2) <$> map_to_list (user_map M).

Lemma user_frames_insert M n e :
  M !! n = None → n < 524288 → user_frames (<[n := e]> M) ≡ₚ frame e :: user_frames M.
Proof.
  intros Hn Hu. unfold user_frames, user_map. rewrite map_filter_insert_True by done.
  rewrite map_to_list_insert; [done|]. apply map_lookup_filter_None. by left.
Qed.

Lemma user_frames_insert_kernel M n e :
  524288 <= n → user_frames (<[n := e]> M) = user_frames M.
Proof.
  intros Hn. unfold user_frames, user_map. f_equal. f_equal. apply map_eq. intros i.
  apply option_eq. intros x. rewrite !map_lookup_filter_Some. simpl.
  destruct (decide (i = n)) as [->|]; [|by rewrite lookup_insert_ne]. lia.
Qed.

Lemma user_frames_delete M n e :
  M !! n = Some e → n < 524288 → user_frames M ≡ₚ frame e :: user_frames (delete n M).
Proof.
  intros Hn Hu. rewrite <- (user_frames_insert (delete n M)); [|apply lookup_delete_eq|done].
  by rewrite insert_delete_id.
Qed.

Lemma user_frames_elem M n e : M !! n = Some e → n < 524288 → frame e ∈ user_frames M.
Proof. intros Hn Hu. rewrite (user_frames_delete M n e) by done. by left. Qed.

(** The entries of page numbers [lo] to [hi - 1] removed. *)
Definition unmap (lo hi : Z) (M : gmap Z Z) : gmap Z Z := filter (λ p, ¬ (lo <= p.1 < hi)) M.

Lemma lookup_unmap lo hi M n :
  unmap lo hi M !! n = if decide (lo <= n < hi) then None else M !! n.
Proof.
  unfold unmap. apply option_eq. intros x. rewrite map_lookup_filter_Some. simpl.
  case_decide; naive_solver.
Qed.

Lemma unmap_empty lo hi M : hi <= lo → unmap lo hi M = M.
Proof. intros. apply map_eq. intros n. rewrite lookup_unmap, decide_False; [done|lia]. Qed.

Lemma unmap_delete lo hi M : lo < hi → unmap lo hi M = unmap (lo + 1) hi (delete lo M).
Proof.
  intros H. apply map_eq. intros n. rewrite !lookup_unmap.
  destruct (decide (n = lo)) as [->|].
  - rewrite decide_True, decide_False, lookup_delete_eq by lia. done.
  - rewrite lookup_delete_ne by done. repeat case_decide; try done; lia.
Qed.

(** A range with nothing mapped at its start can be skipped. *)
Lemma unmap_skip lo mid hi M :
  lo <= mid → (∀ n, lo <= n < mid → M !! n = None) → unmap lo hi M = unmap mid hi M.
Proof.
  intros H HM. apply map_eq. intros n. rewrite !lookup_unmap.
  repeat case_decide; try done; try lia. symmetry. apply HM. lia.
Qed.

Section spec.
Context `{L : Layout} {Lok : LayoutOk L}.

Lemma vm_inv_perm k A r r' l : r ≡ₚ r' → vm_inv k A r l → vm_inv k A r' l.
Proof. intros HP [? ? Hnd Hp]. split; [done..| |]; by rewrite <- HP. Qed.

(** A page that is in use elsewhere is neither a table nor free. *)
Lemma vm_inv_owned k A v rest l :
  vm_inv k A (v :: rest) l →
  page_ok v ∧ v ≠ as_dir A ∧ v ∉ pt_pages A ∧ v ∉ rest ∧ v ∉ l.
Proof.
  intros [_ _ Hnd Hp]. simpl in Hp, Hnd. rewrite <- Permutation_middle in Hp, Hnd.
  rewrite Permutation_swap in Hp, Hnd. apply Forall_cons in Hp as [Hp _]. apply NoDup_cons in Hnd as [Hnd _].
  rewrite elem_of_cons, !elem_of_app in Hnd. tauto.
Qed.

(** The popped and the pushed free list, for whatever else owns the page. *)
Lemma vm_inv_take k A rest v l :
  vm_inv k A rest (v :: l) → vm_inv (set_k_freelist (ld32 (k_mem k) v) k) A (v :: rest) l.
Proof.
  intros [Hk Hr Hnd Hp]. pose proof (km_pages _ _ Hk) as [Hv _]%Forall_cons.
  split; [by apply kalloc_inv|done| |].
  - replace (as_dir A :: pt_pages A ++ (v :: rest) ++ l) with ((as_dir A :: pt_pages A) ++ v :: (rest ++ l)) by done.
    replace (as_dir A :: pt_pages A ++ rest ++ v :: l)
      with ((as_dir A :: pt_pages A ++ rest) ++ v :: l) in Hnd by (by simpl; rewrite <- app_assoc).
    rewrite <- Permutation_middle in Hnd |- *. simpl in Hnd |- *. by rewrite app_assoc.
  - rewrite app_comm_cons, <- Permutation_middle. by apply Forall_cons.
Qed.

Lemma freed_same k v : same_except [v] (k_mem k) (freed_mem k v).
Proof.
  intros b Hb. apply freed_mem_out. specialize (Hb v ltac:(by left)). unfold in_page in Hb. lia.
Qed.

Definition freed (k : kernel) (v : Z) : kernel := set_k_freelist v (set_k_mem (freed_mem k v) k).

Lemma vm_inv_free k A rest v l :
  vm_inv k A (v :: rest) l → kfree v k = Ret tt (freed k v) ∧ vm_inv (freed k v) A rest (v :: l).
Proof using Lok.
  intros Hinv. destruct (vm_inv_aligned _ _ _ _ Hinv) as (Hda & Hpa & [Hva _]%Forall_cons & _).
  destruct Hinv as [Hk Hr Hnd Hp].
  assert (as_dir A :: pt_pages A ++ (v :: rest) ++ l ≡ₚ v :: as_dir A :: pt_pages A ++ rest ++ l) as HP.
  { simpl. rewrite <- Permutation_middle. apply Permutation_swap. }
  rewrite HP in Hnd. apply NoDup_cons in Hnd as [Hn Hnd].
  rewrite app_comm_cons, <- Permutation_middle in Hp. apply Forall_cons in Hp as [Hv Hp].
  rewrite elem_of_cons, !elem_of_app in Hn.
  split; [by eapply kfree_eq|]. split; [apply kfree_inv; tauto| | |done].
  - apply (rep_frame [v] (k_mem k)); [done|apply freed_same|by repeat constructor|done|done| |].
    + rewrite list_elem_of_singleton. intros E. rewrite E in Hn. tauto.
    + intros p Hp' ->%list_elem_of_singleton. tauto.
  - replace (as_dir A :: pt_pages A ++ rest ++ v :: l)
      with ((as_dir A :: pt_pages A ++ rest) ++ v :: l) by (by simpl; rewrite <- app_assoc).
    rewrite <- Permutation_middle. apply NoDup_cons. simpl. rewrite <- app_assoc.
    split; [|done]. rewrite elem_of_cons, !elem_of_app. tauto.
Qed.

(** The user half owns its frames. *)
Definition uvm (k : kernel) (A : aspace) (rest l : list Z) : Prop :=
  vm_inv k A (user_frames (as_map A) ++ rest) l.

(** User pages have gone back to the free list; no other page that is still in
    use has changed, the page tables apart. *)
Record shrinks (k k' : kernel) (A A' : aspace) (l l' : list Z) : Prop := {
  sh_mem_only : mem_only k k';
  sh_dir : as_dir A' = as_dir A;
  sh_pt : as_pt A' = as_pt A;
  sh_free : ∃ fr, l' = fr ++ l;
  sh_pages : user_frames (as_map A) ++ l ≡ₚ user_frames (as_map A') ++ l';
  sh_same : same_except (pt_pages A ++ l') (k_mem k) (k_mem k')
}.

Lemma shrinks_refl k A l : shrinks k k A A l l.
Proof. split; [apply mem_only_refl|done|done|by exists []|done|apply same_except_refl]. Qed.

Lemma shrinks_trans k1 k2 k3 A1 A2 A3 l1 l2 l3 :
  shrinks k1 k2 A1 A2 l1 l2 → shrinks k2 k3 A2 A3 l2 l3 → shrinks k1 k3 A1 A3 l1 l3.
Proof.
  intros [Hm1 Hd1 Hp1 (f1 & ->) HP1 Hs1] [Hm2 Hd2 Hp2 (f2 & ->) HP2 Hs2]. split.
  - by eapply mem_only_trans.
  - congruence.
  - congruence.
  - exists (f2 ++ f1). by rewrite app_assoc.
  - by rewrite HP1.
  - unfold pt_pages in *. rewrite Hp1 in Hs2.
    apply same_except_trans with (k_mem k2); [|done].
    eapply same_except_weaken; [|exact Hs1]. intros p. rewrite !elem_of_app. tauto.
Qed.

Lemma uvm_frame_ok k A rest l n e :
  uvm k A rest l → as_map A !! n = Some e → n < 524288 →
  page_ok (frame e) ∧ frame e ≠ as_dir A ∧ frame e ∉ pt_pages A ∧ frame e ∉ rest ∧ frame e ∉ l.
Proof.
  intros Hinv Hn Hu.
  apply (vm_inv_perm _ _ _ (frame e :: (user_frames (delete n (as_map A)) ++ rest))) in Hinv;
    [|by rewrite (user_frames_delete _ _ _ Hn Hu)].
  apply vm_inv_owned in Hinv. rewrite elem_of_app in Hinv. tauto.
Qed.

(** Freeing one mapped page, as in [deallocuvm]'s loop. *)
Lemma free_entry k A rest l i j pt e :
  let n := 1024 * i + j in
  let k1 := freed k (frame e) in
  let k2 := set_k_mem (st32 (k_mem k1) (pt + 4 * j) 0) k1 in
  let A' := set_map A (delete n (as_map A)) in
  uvm k A rest l → as_map A !! n = Some e → n < 524288 → as_pt A !! i = Some pt → 0 <= j < 1024 →
  kfree (frame e) k = Ret tt k1 ∧ uvm k2 A' rest (frame e :: l) ∧ shrinks k k2 A A' l (frame e :: l).
Proof using Lok.
  intros n k1 k2 A' Hinv He Hu Hpt Hj.
  pose proof (user_frames_delete _ _ _ He Hu) as HP.
  apply (vm_inv_perm _ _ _ (frame e :: (user_frames (delete n (as_map A)) ++ rest))) in Hinv as Hinv1;
    [|by rewrite HP].
  apply vm_inv_free in Hinv1 as [Hkf Hinv1]. split; [done|].
  pose proof (store_entry_inv _ _ _ _ _ _ _ 0 Hinv1 Hpt Hj ltac:(unfold is_u32; lia)) as Hinv2.
  unfold write_entry in Hinv2. simpl in Hinv2. split; [done|].
  split; [done|done|done|by exists [frame e]| |].
  - cbn [as_map A' set_map]. by rewrite HP, <- Permutation_middle.
  - destruct (word_in_page pt j Hj). pose proof (pt_pages_elem _ _ _ Hpt).
    apply same_except_trans with (k_mem k1).
    + apply (same_except_weaken [frame e]); [|apply freed_same].
      intros p ->%list_elem_of_singleton. rewrite elem_of_app, elem_of_cons. tauto.
    + apply (same_except_weaken [pt]); [|by apply same_except_st32].
      intros p ->%list_elem_of_singleton. rewrite elem_of_app. tauto.
Qed.

Lemma frame_nonzero e : page_ok (frame e) → PTE_ADDR e ≠ 0.
Proof using Lok.
  intros Hp E. apply page_ok_range in Hp as [Hp _]. unfold frame, P2V in Hp. rewrite E in Hp.
  unfold KERNBASE in Hp. rewrite u32_small in Hp by (unfold is_u32; lia). lia.
Qed.

Lemma PGADDR_next a : 0 <= a < 2147483648 →
  u32 (u32 (PGADDR (PDX a + 1) 0 0 - PGSIZE) + PGSIZE) = (a / 4194304 + 1) * 4194304.
Proof.
  intros Ha. rewrite PDX_eq by (unfold is_u32; lia).
  unfold PGADDR, PDXSHIFT, PTXSHIFT, PGSIZE. rewrite Z.shiftl_0_l, !Z.lor_0_r, Z.shiftl_mul_pow2 by lia.
  change (2 ^ 22) with 4194304.
  rewrite (u32_small ((a / 4194304 + 1) * 4194304)) by (unfold is_u32; divmod).
  rewrite !u32_small; [lia|unfold is_u32; divmod|rewrite u32_small; unfold is_u32; divmod].
Qed.

(** Where a page table is missing, nothing of its 4 MB is mapped. *)
Lemma no_table_unmapped m A a n :
  rep m A → is_u32 a → as_pt A !! PDX a = None → a / 4096 <= n < (a / 4194304 + 1) * 1024 →
  as_map A !! n = None.
Proof.
  intros Hr Ha Hpt Hn. destruct (as_map A !! n) as [e|] eqn:E; [|done].
  apply (rep_map_dom _ _ Hr) in E as [pt E].
  rewrite PDX_eq in Hpt by done. replace (n / 1024) with (a / 4194304) in E by divmod. congruence.
Qed.

(** The outcome of [deallocuvm] on pages [lo] to [hi - 1]. *)
Definition unmapped (lo hi : Z) (A : aspace) (rest l : list Z) (k k' : kernel) (l' : list Z) : Prop :=
  let A' := set_map A (unmap lo hi (as_map A)) in
  uvm k' A' rest l' ∧ shrinks k k' A A' l l'.

Lemma unmapped_none lo hi k A rest l :
  uvm k A rest l → hi <= lo → unmapped lo hi A rest l k k l.
Proof.
  intros Hinv Hr. unfold unmapped. rewrite unmap_empty by done.
  replace (set_map A (as_map A)) with A by (by destruct A). split; [done|apply shrinks_refl].
Qed.

Lemma deallocuvm_loop_spec (fuel : nat) k A rest l a oldsz :
  uvm k A rest l → 0 <= a → a mod 4096 = 0 → oldsz <= 2147483648 → oldsz <= a + 4096 * fuel →
  ∃ k' l', deallocuvm_loop fuel (as_dir A) a oldsz k = Ret tt k' ∧
    unmapped (a / 4096) ((oldsz + 4095) / 4096) A rest l k k' l'.
Proof using Lok.
  revert k A l a. induction fuel as [|fuel IH]; intros k A l a Hinv Ha Ham Ho Hf; cbn [deallocuvm_loop].
  all: destruct (Z.ltb_spec a oldsz);
    [|exists k, l; split; [done|apply unmapped_none; [done|divmod]]].
  { lia. }
  assert (is_u32 a) as Hau by (unfold is_u32; lia).
  destruct (as_pt A !! PDX a) as [pt|] eqn:Hpt.
  - mcall (walk_present _ _ _ _ a false _ Hinv Hau Hpt).
    destruct (vm_inv_pt _ _ _ _ _ _ Hinv Hpt) as [Hpok _]. apply page_ok_range in Hpok as [? _].
    pose proof (PTX_range a) as Hj.
    rewrite (proj2 (Z.eqb_neq (pt + 4 * PTX a) 0)) by lia. unfold load32, store32; mrun.
    pose proof (rep_pte _ _ (vi_rep _ _ _ _ Hinv) _ _ _ Hpt Hj) as He.
    unfold PGSIZE. rewrite (u32_small (a + 4096)) by (unfold is_u32; lia).
    replace (a / 4096) with (1024 * PDX a + PTX a) by (by apply page_number_index).
    destruct (as_map A !! (1024 * PDX a + PTX a)) as [e|] eqn:HM.
    + destruct He as [-> He]. rewrite He. cbn [when].
      assert (1024 * PDX a + PTX a < 524288) as Hu by (rewrite page_number_index by done; divmod).
      destruct (uvm_frame_ok _ _ _ _ _ _ Hinv HM Hu) as [Hfok _].
      rewrite (proj2 (Z.eqb_neq _ _) (frame_nonzero _ Hfok)). cbn [when].
      destruct (free_entry _ _ _ _ _ _ _ _ Hinv HM Hu Hpt Hj) as (Hkf & Hinv' & Hsh).
      rewrite (bind_eq _ _ _ tt (set_k_mem (st32 (k_mem (freed k (frame e))) (pt + 4 * PTX a) 0) (freed k (frame e))));
        [|mrun; by mcall Hkf].
      destruct (IH _ _ _ (a + 4096) Hinv') as (k' & l' & Hrun & Hres); [lia|divmod|lia|lia|].
      exists k', l'. split; [exact Hrun|]. destruct Hres as [Hu1 Hs1].
      replace ((a + 4096) / 4096) with (1024 * PDX a + PTX a + 1) in Hu1, Hs1
        by (rewrite page_number_index by done; divmod).
      unfold unmapped. rewrite unmap_delete by (rewrite page_number_index by done; divmod).
      split; [exact Hu1|]. by eapply shrinks_trans.
    + rewrite He. cbn [when]. mrun.
      destruct (IH _ _ _ (a + 4096) Hinv) as (k' & l' & Hrun & Hres); [lia|divmod|lia|lia|].
      exists k', l'. split; [exact Hrun|]. unfold unmapped.
      rewrite (unmap_skip _ (1024 * PDX a + PTX a + 1)); [|lia|intros n Hn; by replace n with (1024 * PDX a + PTX a) by lia].
      by replace (1024 * PDX a + PTX a + 1) with ((a + 4096) / 4096) by (rewrite page_number_index by done; divmod).
  - mcall (walk_absent _ _ _ _ a false Hinv Hau Hpt ltac:(by left)). cbn [Z.eqb]. cbv zeta.
    rewrite PGADDR_next by lia.
    destruct (IH _ _ _ ((a / 4194304 + 1) * 4194304) Hinv) as (k' & l' & Hrun & Hres); [divmod|divmod|lia|divmod|].
    exists k', l'. split; [exact Hrun|]. unfold unmapped.
    rewrite (unmap_skip _ ((a / 4194304 + 1) * 1024)); [|divmod|intros n Hn; by eapply no_table_unmapped; [apply Hinv|..]].
    by replace ((a / 4194304 + 1) * 1024) with ((a / 4194304 + 1) * 4194304 / 4096) by divmod.
Qed.

Lemma deallocuvm_spec k A rest l oldsz newsz :
  uvm k A rest l → 0 <= newsz < oldsz → oldsz <= 2147483648 →
  ∃ k' l', deallocuvm (as_dir A) oldsz newsz k = Ret newsz k' ∧
    unmapped ((newsz + 4095) / 4096) ((oldsz + 4095) / 4096) A rest l k k' l'.
Proof using Lok.
  intros Hinv Hn Ho. unfold deallocuvm. rewrite Z.geb_leb, (proj2 (Z.leb_gt _ _)) by lia. cbv zeta.
  rewrite PGROUNDUP_eq by (unfold is_u32; lia).
  destruct (deallocuvm_loop_spec (page_steps ((newsz + 4095) / 4096 * 4096) oldsz) k A rest l
    ((newsz + 4095) / 4096 * 4096) oldsz Hinv) as (k' & l' & Hrun & Hres); [divmod|divmod|lia| |].
  - unfold page_steps, PGSIZE. destruct (decide (oldsz < (newsz + 4095) / 4096 * 4096)); [lia|].
    rewrite Z2Nat.id; divmod.
  - rewrite Z.div_mul in Hres by lia. exists k', l'. split; [by mcall Hrun|done].
Qed.

(** ** [allocuvm] *)

Lemma frame_pte_for v perm : page_ok v → 0 <= perm < 4096 → frame (pte_for (V2P v) perm) = v.
Proof using Lok.
  intros Hv Hp. destruct (V2P_page v Hv) as (_ & Hm & Hr).
  destruct (pte_for_spec (V2P v) perm) as (_ & _ & Ha & _);
    [unfold is_u32, PHYSTOP in *; lia|done|done|].
  unfold frame. rewrite Ha. by apply P2V_V2P.
Qed.

Definition zero_filled (m : mem) (v : Z) : Prop := ∀ b, in_page v b → ldb m b = 0.

(** The state after [kalloc] has handed out [v] and its contents have become those of [m]. *)
Definition taken (k : kernel) (v : Z) (m : mem) : kernel :=
  set_k_mem m (set_k_freelist (ld32 (k_mem k) v) k).

Lemma vm_inv_take_fill k A rest v l m :
  vm_inv k A rest (v :: l) → same_except [v] (k_mem k) m →
  kalloc k = Ret v (set_k_freelist (ld32 (k_mem k) v) k) ∧ page_ok v ∧ vm_inv (taken k v m) A (v :: rest) l.
Proof using Lok.
  intros Hinv Hm. pose proof (km_pages _ _ (vi_kmem _ _ _ _ Hinv)) as [Hv _]%Forall_cons.
  split; [exact (kalloc_eq _ _ (vi_kmem _ _ _ _ Hinv))|]. split; [done|].
  apply vm_inv_take in Hinv. pose proof (vm_inv_owned _ _ _ _ _ Hinv) as Hnd.
  apply (vm_inv_frame _ _ _ _ [v] _ Hinv); [done|by repeat constructor; apply page_ok_aligned|].
  intros p ->%list_elem_of_singleton. tauto.
Qed.

Lemma memset_zero_filled m v : zero_filled (memset m v 0 (Z.to_nat PGSIZE)) v.
Proof.
  intros b Hb. rewrite ldb_memset, decide_True; [done|]. unfold in_page, PGSIZE in *. lia.
Qed.

(** Pages have moved between the free list, the tables and the user half, and
    only the tables and pages that were or are free have changed. *)
Record evolves (k k' : kernel) (A A' : aspace) (l l' : list Z) : Prop := {
  ev_mem_only : mem_only k k';
  ev_dir : as_dir A' = as_dir A;
  ev_pt : as_pt A ⊆ as_pt A';
  ev_pages : pt_pages A ++ user_frames (as_map A) ++ l ≡ₚ pt_pages A' ++ user_frames (as_map A') ++ l';
  ev_same : same_except (as_dir A :: pt_pages A ++ l ++ l') (k_mem k) (k_mem k')
}.

Lemma evolves_refl k A l : evolves k k A A l l.
Proof. split; [apply mem_only_refl|done|done|done|apply same_except_refl]. Qed.

Lemma evolves_trans k1 k2 k3 A1 A2 A3 l1 l2 l3 :
  evolves k1 k2 A1 A2 l1 l2 → evolves k2 k3 A2 A3 l2 l3 →
  pt_pages A2 ++ l2 ⊆ pt_pages A1 ++ l1 ++ l3 → evolves k1 k3 A1 A3 l1 l3.
Proof.
  intros [Hm1 Hd1 Hp1 HP1 Hs1] [Hm2 Hd2 Hp2 HP2 Hs2] Hsub. split.
  - by eapply mem_only_trans.
  - congruence.
  - by etrans.
  - by rewrite HP1.
  - assert (∀ p, p ∈ pt_pages A2 ∨ p ∈ l2 → p ∈ pt_pages A1 ∨ p ∈ l1 ∨ p ∈ l3) as Hsub'.
    { intros p Hp. specialize (Hsub p). rewrite !elem_of_app in Hsub. tauto. }
    apply same_except_trans with (k_mem k2); (eapply same_except_weaken; [|eassumption]);
      intros p; specialize (Hsub' p); rewrite ?Hd1, !elem_of_cons, !elem_of_app; tauto.
Qed.

Lemma shrinks_evolves k k' A A' l l' : shrinks k k' A A' l l' → evolves k k' A A' l l'.
Proof.
  intros [? ? Hp ? HP Hs]. unfold pt_pages in *. split; [done|done|by rewrite Hp| |].
  - unfold pt_pages. by rewrite Hp, HP.
  - eapply same_except_weaken; [|exact Hs]. unfold pt_pages.
    intros p. rewrite elem_of_cons, !elem_of_app. tauto.
Qed.

(** The free list has only been drawn on, for tables at most. *)
Definition drawn (A A' : aspace) (l l' : list Z) : Prop :=
  l' ⊆ l ∧ pt_pages A' ⊆ pt_pages A ++ l.

Lemma drawn_app A A' l l' : drawn A A' l l' → pt_pages A' ++ l' ⊆ pt_pages A ++ l.
Proof.
  intros [H1 H2] p. specialize (H1 p). specialize (H2 p). rewrite !elem_of_app in *. tauto.
Qed.

Lemma drawn_trans A1 A2 A3 l1 l2 l3 :
  drawn A1 A2 l1 l2 → drawn A2 A3 l2 l3 → drawn A1 A3 l1 l3.
Proof.
  intros H12 [H3 H4]. pose proof (drawn_app _ _ _ _ H12) as Happ. destruct H12 as [H1 H2].
  split; [by etrans|]. intros p Hp%H4. by apply Happ.
Qed.

(** A step that maps the fresh pages [new] in the user half, the pages [keep]
    being held by the caller. *)
Lemma grows_evolves k k' A A' l l' new keep :
  grows k k' A A' l l' → user_frames (as_map A') ≡ₚ new ++ user_frames (as_map A) →
  evolves k k' A A' (new ++ keep ++ l) (keep ++ l') ∧ drawn A A' l l'.
Proof.
  intros [? ? Hp (n & -> & HP) Hs] Hu. split; [split; [done|done|done| |]|].
  - rewrite HP, Hu. solve_Permutation.
  - eapply same_except_weaken; [|exact Hs]. intros p. rewrite !elem_of_cons, !elem_of_app. tauto.
  - split; intros p; rewrite ?elem_of_app, ?HP, ?elem_of_app; tauto.
Qed.

Lemma taken_evolves k A v l m :
  same_except [v] (k_mem k) m → evolves k (taken k v m) A A (v :: l) (v :: l).
Proof.
  intros Hm. split; [done|done|done|done|]. apply (same_except_weaken [v]); [|done].
  intros p ->%list_elem_of_singleton. rewrite elem_of_cons, !elem_of_app, elem_of_cons. tauto.
Qed.

(** A page keeps its contents when other pages change. *)
Lemma page_kept ps m m' v b :
  same_except ps m m' → Forall aligned ps → aligned v → v ∉ ps → in_page v b → ldb m' b = ldb m b.
Proof.
  intros Hs Hps Hv Hin Hb. apply Hs. intros p Hp Hpb. rewrite Forall_forall in Hps.
  eapply (in_page_apart p v b); [by apply Hps|done|by intros ->|done|done].
Qed.

Lemma perm_WU : Z.lor PTE_W PTE_U = 6.
Proof. done. Qed.

(** A fresh page [v], filled by the caller, mapped at the user page [a]. *)
Lemma map_fresh k A rest v l a m perm :
  uvm k A rest (v :: l) → same_except [v] (k_mem k) m → 0 <= perm < 4096 →
  0 <= a < 2147483648 → a mod 4096 = 0 → as_map A !! (a / 4096) = None →
  ∃ r k' A' l', mappages (as_dir A) a PGSIZE (V2P v) perm (taken k v m) = Ret r k' ∧
   ((r = 0 ∧ uvm k' A' rest l' ∧ as_map A' = <[a / 4096 := pte_for (V2P v) perm]> (as_map A) ∧
     (∀ b, in_page v b → ldb (k_mem k') b = ldb m b) ∧
     evolves k k' A A' (v :: l) l' ∧ drawn A A' (v :: l) l' ∧ (length l <= S (length l'))%nat) ∨
    (r = -1 ∧ l' = [] ∧ uvm k' A' (v :: rest) [] ∧ as_map A' = as_map A ∧
     evolves k k' A A' (v :: l) [v] ∧ pt_pages A' ⊆ pt_pages A ++ v :: l ∧ l = [])).
Proof using Lok.
  intros Hinv Hm Hperm Ha Ham Hnone.
  destruct (vm_inv_take_fill _ _ _ _ _ m Hinv Hm) as (_ & Hv & Hinv1).
  destruct (V2P_page v Hv) as (_ & Hvm & Hvr). unfold PHYSTOP in Hvr.
  destruct (mappages_spec 1 _ A _ _ a PGSIZE (V2P v) perm Hinv1)
    as (r & k' & A' & l' & Hrun & Hinv' & Hg & Hres);
    [lia|done|done|done|lia|lia|done|lia|done|intros q Hq; by replace q with (a / 4096) by lia|].
  exists r, k', A', l'. split; [done|].
  destruct (vm_inv_aligned _ _ _ _ Hinv1) as (Hda & Hpa & _ & Hla).
  pose proof (vm_inv_owned _ _ _ _ _ Hinv1) as Hnd.
  destruct Hres as [(-> & HM & Hlen)|(-> & -> & j & Hj & HM)]; [left|right].
  - cbn [map_pages] in HM.
    assert (user_frames (as_map A') ≡ₚ v :: user_frames (as_map A)) as Hu.
    { rewrite HM, user_frames_insert by (done || divmod). by rewrite frame_pte_for. }
    destruct (grows_evolves _ _ _ _ _ _ [v] [] Hg Hu) as [Hev Hsub].
    split_and!; [done| |done| | | |done].
    + eapply vm_inv_perm; [|exact Hinv']. by rewrite Hu.
    + intros b Hb. rewrite (page_kept _ _ _ v b (gr_same _ _ _ _ _ _ Hg)); [done| | | |done].
      * apply Forall_cons. split; [done|]. by apply Forall_app.
      * by apply page_ok_aligned.
      * rewrite elem_of_cons, elem_of_app. tauto.
    + eapply evolves_trans; [by apply taken_evolves|exact Hev|]. intros p. rewrite !elem_of_app. tauto.
    + destruct Hsub as [H1 H2]. split; intros p Hp; [right; by apply H1|].
      apply H2, elem_of_app in Hp. rewrite elem_of_app, elem_of_cons. tauto.
  - assert (j = O) as -> by lia. cbn [map_pages] in HM.
    destruct (grows_evolves _ _ _ _ _ _ [] [v] Hg) as [Hev Hsub]; [by rewrite HM|].
    split_and!; [done|done| |done| | |apply length_zero_iff_nil; lia].
    + eapply vm_inv_perm; [|exact Hinv']. rewrite HM. apply Permutation_middle.
    + eapply evolves_trans; [by apply taken_evolves|exact Hev|]. intros p. rewrite !elem_of_app. tauto.
    + destruct Hsub as [_ Hsub]. intros p Hp%Hsub. rewrite elem_of_app, elem_of_cons in *. tauto.
Qed.

Lemma evolves_keep v k k' A A' l l' :
  evolves k k' A A' l l' → evolves k k' A A' (v :: l) (v :: l').
Proof.
  intros [? ? ? HP Hs]. split; [done|done|done| |].
  - rewrite !app_assoc, <- !Permutation_middle, <- !app_assoc. by constructor.
  - eapply same_except_weaken; [|exact Hs]. intros p. rewrite !elem_of_cons, !elem_of_app, !elem_of_cons. tauto.
Qed.

Lemma freed_evolves k A v l : evolves k (freed k v) A A (v :: l) (v :: l).
Proof.
  split; [done|done|done|done|]. apply (same_except_weaken [v]); [|apply freed_same].
  intros p ->%list_elem_of_singleton. rewrite elem_of_cons, !elem_of_app, elem_of_cons. tauto.
Qed.

(** [allocuvm]'s clean-up when a page table cannot be had for the page [v]. *)
Lemma alloc_undo k A rest v oldsz newsz :
  uvm k A (v :: rest) [] → 0 <= oldsz < newsz → newsz <= 2147483648 →
  ∃ k' l', (deallocuvm (as_dir A) newsz oldsz ;;; kfree v ;;; ret 0) k = Ret 0 k' ∧
    let A' := set_map A (unmap ((oldsz + 4095) / 4096) ((newsz + 4095) / 4096) (as_map A)) in
    uvm k' A' rest l' ∧ evolves k k' A A' [v] l'.
Proof using Lok.
  intros Hinv Ho Hn. destruct (deallocuvm_spec _ _ _ _ newsz oldsz Hinv) as (k1 & l1 & Hrun & Hinv1 & Hsh);
    [lia|lia|]. mcall Hrun. unfold uvm in Hinv1.
  apply (vm_inv_perm _ _ _ (v :: (user_frames (as_map (set_map A (unmap ((oldsz + 4095) / 4096) ((newsz + 4095) / 4096) (as_map A)))) ++ rest))) in Hinv1;
    [|symmetry; apply Permutation_middle].
  apply vm_inv_free in Hinv1 as [Hkf Hinv2]. mcall Hkf.
  exists (freed k1 v), (v :: l1). split; [done|]. split; [done|].
  eapply evolves_trans; [apply evolves_keep, shrinks_evolves, Hsh|apply freed_evolves|].
  intros p. unfold pt_pages. rewrite (sh_pt _ _ _ _ _ _ Hsh), !elem_of_app. tauto.
Qed.

(** What [allocuvm] leaves, from page number [lo] on: every page of the range
    mapped to a fresh zeroed page, or the range unmapped again. *)
Definition alloc_result (lo0 lo hi newsz : Z) (A : aspace) (rest l : list Z) (k : kernel)
    (r : Z) (k' : kernel) (A' : aspace) (l' : list Z) : Prop :=
  uvm k' A' rest l' ∧ evolves k k' A A' l l' ∧
  ((r = newsz ∧ drawn A A' l l' ∧
    (∀ n, lo <= n < hi → ∃ v, v ∈ l ∧ as_map A' !! n = Some (pte_for (V2P v) 6) ∧ zero_filled (k_mem k') v) ∧
    (∀ n, ¬ (lo <= n < hi) → as_map A' !! n = as_map A !! n)) ∨
   (r = 0 ∧ as_map A' = unmap lo0 hi (as_map A))).

(** The page mapped first keeps its zeros while the others are mapped. *)
Lemma alloc_result_keeps lo0 lo hi newsz A rest l k r k' A' l' n v :
  uvm k A rest l → alloc_result lo0 lo hi newsz A rest l k r k' A' l' →
  drawn A A' l l' →
  as_map A !! n = Some (pte_for (V2P v) 6) → page_ok v → n < 524288 →
  zero_filled (k_mem k) v → zero_filled (k_mem k') v.
Proof using Lok.
  intros Hinv (Hinv' & Hev & _) Hsub Hn Hv Hu Hz b Hb.
  destruct (vm_inv_aligned _ _ _ _ Hinv) as (Hda & Hpa & _ & Hla).
  destruct (vm_inv_aligned _ _ _ _ Hinv') as (_ & _ & _ & Hla').
  destruct (uvm_frame_ok _ _ _ _ _ _ Hinv Hn Hu) as (_ & Hnd).
  rewrite frame_pte_for in Hnd by (done || lia).
  rewrite (page_kept _ _ _ v b (ev_same _ _ _ _ _ _ Hev)); [by apply Hz| | | |done].
  - apply Forall_cons. split; [done|]. rewrite !Forall_app. done.
  - by apply page_ok_aligned.
  - destruct Hsub as [Hsub _]. specialize (Hsub v). rewrite elem_of_cons, !elem_of_app. tauto.
Qed.


(** The rest of the loop after the page [v] has been mapped at [lo]. *)
Lemma alloc_result_step lo0 lo hi newsz k k1 A A1 rest l l1 v r k' A' l' :
  lo0 <= lo → lo < hi → hi <= 524288 → page_ok v → v ∈ l → as_map A !! lo = None →
  uvm k1 A1 rest l1 → as_map A1 = <[lo := pte_for (V2P v) 6]> (as_map A) →
  zero_filled (k_mem k1) v → evolves k k1 A A1 l l1 → drawn A A1 l l1 →
  alloc_result lo0 (lo + 1) hi newsz A1 rest l1 k1 r k' A' l' →
  alloc_result lo0 lo hi newsz A rest l k r k' A' l'.
Proof using Lok.
  intros Hlo Hlt Hhi Hv Hvl Hnone Hinv1 HM Hz Hev Hsub Hres. pose proof Hres as (Hinv' & Hev' & Hcase).
  assert (as_map A1 !! lo = Some (pte_for (V2P v) 6)) as Hlo1 by (by rewrite HM, lookup_insert_eq).
  split; [done|]. split.
  { eapply evolves_trans; [done|done|]. intros p Hp%(drawn_app _ _ _ _ Hsub).
    rewrite !elem_of_app in *. tauto. }
  destruct Hcase as [(-> & Hsub' & Hnew & Hold)|(-> & HM')]; [left|right].
  - split_and!; [done|by eapply drawn_trans| |].
    + intros n Hn. destruct (decide (n = lo)) as [->|].
      * exists v. rewrite Hold by lia. split_and!; [done|done|].
        by eapply alloc_result_keeps; [exact Hinv1|exact Hres|done|exact Hlo1|done|lia|done].
      * destruct (Hnew n) as (w & Hw & ? & ?); [lia|]. exists w. split_and!; [by apply Hsub|done|done].
    + intros n Hn. rewrite Hold, HM, lookup_insert_ne by lia. done.
  - split; [done|]. rewrite HM', HM. apply map_eq. intros n. rewrite !lookup_unmap.
    case_decide; [done|]. by rewrite lookup_insert_ne by lia.
Qed.

Lemma allocuvm_loop_spec (fuel : nat) k A rest l a oldsz newsz :
  let hi := (newsz + 4095) / 4096 in
  uvm k A rest l → 0 <= oldsz <= a → a mod 4096 = 0 → newsz < 2147483648 → newsz <= a + 4096 * fuel →
  (∀ n, a / 4096 <= n < hi → as_map A !! n = None) →
  ∃ r k' A' l', allocuvm_loop fuel (as_dir A) a oldsz newsz k = Ret r k' ∧
    alloc_result ((oldsz + 4095) / 4096) (a / 4096) hi newsz A rest l k r k' A' l'.
Proof using Lok.
  intros hi. revert k A l a. induction fuel as [|fuel IH]; intros k A l a Hinv Ha Ham Hn Hf Hnone;
    cbn [allocuvm_loop].
  all: destruct (Z.ltb_spec a newsz) as [Hlt|Hge];
    [|exists newsz, k, A, l; split; [done|]; split; [done|]; split; [apply evolves_refl|left];
      split_and!; [done|split; [done|intros p; rewrite elem_of_app; tauto]
                  |intros n Hr; subst hi; divmod|done]].
  { lia. }
  destruct l as [|v l].
  - mcall (kalloc_eq _ _ (vi_kmem _ _ _ _ Hinv)). cbn [head default Z.eqb].
    destruct (deallocuvm_spec _ _ _ _ newsz oldsz Hinv) as (k' & l' & Hrun & Hinv' & Hsh); [lia|lia|].
    mcall Hrun. eexists 0, k', _, l'. split; [done|]. split; [exact Hinv'|].
    split; [by apply shrinks_evolves|]. by right.
  - destruct (vm_inv_take_fill _ _ _ _ _ _ Hinv (same_except_memset v _ 0)) as (Hka & Hv & _). mcall Hka.
    destruct (page_ok_range v Hv) as [Hv0 _]. rewrite (proj2 (Z.eqb_neq v 0)) by lia.
    unfold zero_page. mrun. rewrite perm_WU.
    destruct (map_fresh _ _ _ _ _ a _ 6 Hinv (same_except_memset v _ 0)) as (r & k1 & A1 & l1 & Hmap & Hcase);
      [lia|lia|done|apply Hnone; subst hi; divmod|]. unfold taken in Hmap. mcall Hmap.
    destruct Hcase as [(-> & Hinv1 & HM & Hz & Hev & Hsub & _)|(-> & -> & Hinv1 & HM & Hev & Hsub & _)].
    + cbn [Z.ltb Z.compare]. unfold PGSIZE. rewrite u32_small by (unfold is_u32; lia).
      destruct (IH k1 A1 l1 (a + 4096) Hinv1) as (r & k' & A' & l' & Hrun & Hres); [lia|divmod|lia|lia| |].
      { intros n Hr. rewrite HM, lookup_insert_ne by divmod. apply Hnone. divmod. }
      rewrite (ev_dir _ _ _ _ _ _ Hev) in Hrun. exists r, k', A', l'. split; [done|].
      replace ((a + 4096) / 4096) with (a / 4096 + 1) in Hres by divmod.
      eapply (alloc_result_step _ _ _ _ k k1 A A1); try done; subst hi;
        [divmod|divmod|divmod|by left|apply Hnone; divmod|].
      intros b Hb. rewrite Hz by done. by apply memset_zero_filled.
    + cbn [Z.ltb Z.compare]. rewrite <- (ev_dir _ _ _ _ _ _ Hev).
      destruct (alloc_undo _ _ _ _ oldsz newsz Hinv1) as (k2 & l2 & Hrun & Hinv2 & Hev2); [lia|lia|].
      eexists 0, k2, _, l2. split; [exact Hrun|]. split; [exact Hinv2|]. split.
      * eapply evolves_trans; [done|done|]. intros p. specialize (Hsub p).
        rewrite !elem_of_app, elem_of_cons, elem_of_nil in *. rewrite elem_of_cons in *. tauto.
      * right. by rewrite <- HM.
Qed.
End spec.
