(* ===== verification/Kvm.v ===== *)
(** * Address spaces as a whole (src/vm.c: freevm, setupkvm, copyuvm)

    Building the kernel half of a page table, tearing an address space down and
    duplicating one for [fork]. *)

From S2P Require Import Prelude Mem CString State Mmu Spinlock Kalloc Vm VmSpec Uvm.

Section spec.
Context `{L : Layout} {Lok : LayoutOk L}.

(** ** [freevm] *)

Definition tables (P : gmap Z Z) (js : list nat) : list Z := omap (λ i : nat, P !! (i : Z)) js.

Lemma tables_all P :
  (∀ i pt, P !! i = Some pt → 0 <= i < 1024) →
  tables P (seq 0 NPDENTRIES) ≡ₚ (map_to_list P).*2.
Proof.
  intros Hdom.
  assert (omap (λ i : nat, (λ p, ((i : Z), p)) <$> P !! (i : Z)) (seq 0 NPDENTRIES) ≡ₚ map_to_list P) as HP.
  { apply NoDup_Permutation; [|apply NoDup_map_to_list|].
    - generalize NPDENTRIES. intros n. clear Hdom. pose proof (NoDup_seq 0 n) as Hnd.
      induction (seq 0 n) as [|i js IH]; simpl; [constructor|].
      apply NoDup_cons in Hnd as [Hi Hnd]. destruct (P !! (i : Z)); simpl; [|by apply IH].
      constructor; [|by apply IH]. rewrite list_elem_of_omap. intros (j & Hj & E).
      by destruct (P !! (j : Z)); simplify_eq/=.
    - intros [i p]. rewrite list_elem_of_omap, elem_of_map_to_list. split.
      + intros (j & _ & E). destruct (P !! (j : Z)) eqn:Ej; by simplify_eq/=.
      + intros E. specialize (Hdom _ _ E). exists (Z.to_nat i). rewrite Z2Nat.id by lia.
        rewrite E. split; [|done]. apply elem_of_seq. unfold NPDENTRIES. lia. }
  rewrite <- HP. unfold tables. clear. induction (seq 0 NPDENTRIES) as [|i js IH]; simpl; [done|].
  destruct (P !! (i : Z)); simpl; by rewrite ?IH.
Qed.

Lemma free_tables P dir js : ∀ k l,
  kmem_inv k l → page_ok dir → NoDup (dir :: tables P js ++ l) → Forall page_ok (tables P js) →
  Forall (λ i : nat, 0 <= i < 1024) js →
  (∀ i : nat, i ∈ js → match P !! (i : Z) with
                 | Some pt => ld32 (k_mem k) (dir + 4 * i) = V2P pt + 7
                 | None => present (ld32 (k_mem k) (dir + 4 * i)) = false end) →
  ∃ k' l', foreach js (λ i : nat, e <- load32 (dir + 4 * i) ;; when (present e) (kfree (P2V (PTE_ADDR e)))) k
             = Ret tt k' ∧
    kmem_inv k' l' ∧ l' ≡ₚ tables P js ++ l ∧ mem_only k k' ∧ same_except (tables P js) (k_mem k) (k_mem k').
Proof using Lok.
  induction js as [|i js IH]; intros k l Hk Hd Hnd Hok Hr He.
  { exists k, l. split_and!; [done|done|done|apply mem_only_refl|apply same_except_refl]. }
  apply Forall_cons in Hr as [Hi Hr]. pose proof (He i ltac:(by left)) as Hei.
  cbn [foreach]. unfold tables in *. cbn [omap list_omap] in *. destruct (P !! (i : Z)) as [pt|].
  - apply Forall_cons in Hok as [Hpt Hok]. rewrite <- app_comm_cons, Permutation_swap in Hnd.
    apply NoDup_cons in Hnd as [Hn Hnd]. rewrite elem_of_cons, elem_of_app in Hn.
    destruct (entry_page pt 7 Hpt ltac:(lia)) as (_ & Ha & _ & _).
    destruct (V2P_page pt Hpt) as (_ & Hm & _).
    assert (present (V2P pt + 7) = true) as Hpr.
    { rewrite present_odd. apply Z.odd_spec. exists (V2P pt / 2 + 3). divmod. }
    rewrite (bind_eq _ _ _ tt (freed k pt)).
    2: { unfold load32. mrun. rewrite Hei, Hpr. cbn [when]. rewrite Ha. by eapply kfree_eq. }
    destruct (IH (freed k pt) (pt :: l)) as (k' & l' & Hrun & Hk' & HP & Hmo & Hs); [| |..|].
    + apply kfree_inv; [done|done|tauto].
    + done.
    + rewrite <- Permutation_middle, Permutation_swap. apply NoDup_cons.
      rewrite elem_of_cons, elem_of_app. split; [tauto|done].
    + done.
    + done.
    + intros j Hj. assert (0 <= j < 1024) as Hjr by (rewrite Forall_forall in Hr; by apply Hr).
      destruct (word_in_page dir j Hjr). rewrite (same_except_ld32 [pt] (k_mem k) _ dir);
        [apply He; by right|apply freed_same|by repeat constructor; apply page_ok_aligned
        |by apply page_ok_aligned|rewrite list_elem_of_singleton; intros E; rewrite E in Hn; tauto|done|done].
    + exists k', l'. split_and!; [exact Hrun|done|by rewrite HP, <- Permutation_middle
        |by eapply mem_only_trans; [|exact Hmo]|].
      apply same_except_trans with (k_mem (freed k pt)).
      * apply (same_except_weaken [pt]); [|apply freed_same].
        intros p ->%list_elem_of_singleton. by left.
      * eapply same_except_weaken; [|exact Hs]. intros p ?. by right.
  - rewrite (bind_eq _ _ _ tt k) by (unfold load32; mrun; by rewrite Hei).
    apply IH; [done..|]. intros j Hj. apply He. by right.
Qed.

Lemma vm_inv_nodup_tables k A rest l : vm_inv k A rest l → NoDup (as_dir A :: pt_pages A ++ l).
Proof.
  intros [_ _ Hnd _].
  assert (as_dir A :: pt_pages A ++ rest ++ l ≡ₚ rest ++ as_dir A :: pt_pages A ++ l) as HP
    by solve_Permutation.
  rewrite HP in Hnd. by apply NoDup_app in Hnd as (_ & _ & ?).
Qed.

(** The directory and its tables go back to the free list. *)
Lemma free_dir k A rest l :
  vm_inv k A rest l →
  ∃ k' l', (foreach (seq 0 NPDENTRIES) (λ i : nat,
              e <- load32 (as_dir A + 4 * i) ;; when (present e) (kfree (P2V (PTE_ADDR e)))) ;;;
            kfree (as_dir A)) k = Ret tt k' ∧
    kmem_inv k' l' ∧ l' ≡ₚ as_dir A :: pt_pages A ++ l ∧ mem_only k k' ∧
    same_except (as_dir A :: pt_pages A) (k_mem k) (k_mem k').
Proof using Lok.
  intros Hinv. pose proof (vm_inv_nodup_tables _ _ _ _ Hinv) as Hnd. destruct Hinv as [Hk Hr _ Hp].
  apply Forall_cons in Hp as [Hd Hp]. apply Forall_app in Hp as [Hp _].
  pose proof (tables_all (as_pt A) (rep_pt_dom _ _ Hr)) as HP. fold (pt_pages A) in HP.
  destruct (free_tables (as_pt A) (as_dir A) (seq 0 NPDENTRIES) k l) as (k1 & l1 & Hrun & Hk1 & HP1 & Hmo & Hs).
  - done.
  - done.
  - by rewrite HP.
  - by rewrite HP.
  - apply Forall_forall. intros i Hi%elem_of_seq. unfold NPDENTRIES in Hi. lia.
  - intros i Hi%elem_of_seq. unfold NPDENTRIES in Hi. apply (rep_pde _ _ Hr). lia.
  - mcall Hrun. rewrite HP in HP1. exists (freed k1 (as_dir A)), (as_dir A :: l1).
    apply NoDup_cons in Hnd as [Hnd _]. split_and!.
    + by eapply kfree_eq.
    + apply kfree_inv; [done|done|by rewrite HP1].
    + by rewrite HP1.
    + by eapply mem_only_trans.
    + apply same_except_trans with (k_mem k1).
      * eapply same_except_weaken; [|exact Hs]. intros p. rewrite HP, elem_of_cons. tauto.
      * apply (same_except_weaken [as_dir A]); [|apply freed_same].
        intros p ->%list_elem_of_singleton. by left.
Qed.

Lemma user_frames_none M : (∀ n e, M !! n = Some e → 524288 <= n) → user_frames M = [].
Proof.
  intros H. unfold user_frames, user_map. replace (filter _ M) with (∅ : gmap Z Z); [by rewrite map_to_list_empty|].
  symmetry. apply map_empty. intros n. apply map_lookup_filter_None. right. intros e He%H. simpl. lia.
Qed.

Lemma freevm_spec (d : bool) k A rest l :
  uvm k A rest l →
  ∃ k' l', freevm (as_dir A) d k = Ret tt k' ∧ kmem_inv k' l' ∧
    l' ≡ₚ as_dir A :: pt_pages A ++ (if d then user_frames (as_map A) else []) ++ l ∧ mem_only k k' ∧
    same_except (as_dir A :: pt_pages A ++ user_frames (as_map A) ++ l) (k_mem k) (k_mem k').
Proof using Lok.
  intros Hinv. destruct (vm_inv_dir _ _ _ _ Hinv) as (Hd & _). apply page_ok_range in Hd as [Hd _].
  unfold freevm. rewrite (proj2 (Z.eqb_neq _ _)) by lia. destruct d; cbn [when].
  - destruct (deallocuvm_spec k A rest l KERNBASE 0 Hinv) as (k1 & l1 & Hrun & Hinv1 & Hsh);
      [unfold KERNBASE; lia|unfold KERNBASE; lia|].
    set (A1 := set_map A _) in *.
    assert (user_frames (as_map A1) = []) as Hu.
    { apply user_frames_none. intros n e He. pose proof He as [pt Hpt]%(rep_map_dom _ _ (vi_rep _ _ _ _ Hinv1)).
      apply (rep_pt_dom _ _ (vi_rep _ _ _ _ Hinv1)) in Hpt. cbn [A1 as_map set_map] in He.
      rewrite lookup_unmap in He. case_decide as Hd1; [done|]. unfold KERNBASE in Hd1. divmod. }
    rewrite (bind_eq _ _ _ tt k1) by (by mcall Hrun).
    destruct (free_dir _ _ _ _ Hinv1) as (k2 & l2 & Hrun2 & Hk2 & HP & Hmo & Hs).
    exists k2, l2. split_and!; [exact Hrun2|done| | |].
    + rewrite HP, (sh_pages _ _ _ _ _ _ Hsh), Hu. done.
    + eapply mem_only_trans; [apply Hsh|done].
    + apply same_except_trans with (k_mem k1).
      * eapply same_except_weaken; [|apply Hsh]. intros p. rewrite (sh_pages _ _ _ _ _ _ Hsh), Hu.
        rewrite elem_of_cons, !elem_of_app. tauto.
      * eapply same_except_weaken; [|exact Hs]. intros p.
        change (pt_pages A1) with (pt_pages A). rewrite !elem_of_cons, !elem_of_app. tauto.
  - mrun. destruct (free_dir _ _ _ _ Hinv) as (k2 & l2 & Hrun2 & Hk2 & HP & Hmo & Hs).
    exists k2, l2. split_and!; [exact Hrun2|done|done|done|].
    eapply same_except_weaken; [|exact Hs]. intros p. rewrite !elem_of_cons, !elem_of_app. tauto.
Qed.

(** ** [setupkvm] *)

Lemma rep_empty m dir : zero_filled m dir → rep m (mkAspace dir ∅ ∅).
Proof.
  intros Hz. split; cbn [as_dir as_pt as_map]; [intros i pt H; by rewrite lookup_empty in H..| |].
  - intros i Hi. rewrite lookup_empty, present_odd. destruct (word_in_page dir i Hi) as [H1 H2].
    replace (ld32 m (dir + 4 * i)) with 0; [done|].
    assert (∀ b, dir + 4 * i <= b <= dir + 4 * i + 3 → ldb m b = 0) as Hb.
    { intros b Hb. apply Hz. unfold in_page in *. lia. }
    unfold ld32. rewrite !Hb by lia. done.
  - intros i pt j H. by rewrite lookup_empty in H.
Qed.

(** The pages of a region of [kmap]. *)
Definition region := (Z * Z * Z * Z)%type.
Definition region_size (e : region) : Z := let '(_, s, t, _) := e in u32 (t - s).
Definition map_region (M : gmap Z Z) (e : region) : gmap Z Z :=
  let '(v, s, _, p) := e in map_pages (Z.to_nat (region_size e / 4096)) (v / 4096) s p M.

Fixpoint regions_ok (lo : Z) (es : list region) : Prop :=
  match es with
  | [] => True
  | (v, s, t, p) as e :: es =>
      lo <= v ∧ v mod 4096 = 0 ∧ 0 <= s ∧ s mod 4096 = 0 ∧ 0 <= p < 4096 ∧
      0 < region_size e ∧ region_size e mod 4096 = 0 ∧
      v + region_size e <= 2 ^ 32 ∧ s + region_size e <= 2 ^ 32 ∧ regions_ok (v + region_size e) es
  end.

Definition setup_body (pgdir : Z) (e : region) : K (option Z) :=
  let '(virt, phys_start, phys_end, perm) := e in
  r <- mappages pgdir virt (u32 (phys_end - phys_start)) phys_start perm ;;
  if r <? 0 then freevm pgdir false ;;; ret (Some 0) else ret None.

(** The outcome of mapping regions: all are mapped, or every page the address
    space had is free again. *)
Definition setup_result (es : list region) (A : aspace) (used l : list Z) (k : kernel)
    (o : option Z) (k' : kernel) (l' : list Z) : Prop :=
  mem_only k k' ∧ same_except (as_dir A :: pt_pages A ++ l) (k_mem k) (k_mem k') ∧
  match o with
  | Some r => r = 0 ∧ kmem_inv k' l' ∧ l' ≡ₚ as_dir A :: pt_pages A ++ l
  | None => ∃ A', vm_inv k' A' used l' ∧ as_dir A' = as_dir A ∧ pt_pages A' ++ l' ≡ₚ pt_pages A ++ l ∧
              as_map A' = foldl map_region (as_map A) es
  end.

Lemma grows_perm k k' A A' l l' : grows k k' A A' l l' → pt_pages A' ++ l' ≡ₚ pt_pages A ++ l.
Proof. intros [_ _ _ (new & -> & HP) _]. rewrite HP. solve_Permutation. Qed.

Lemma setup_loop es : ∀ lo k A used l,
  regions_ok lo es → 2147483648 <= lo → vm_inv k A used l → 
  (∀ q e, as_map A !! q = Some e → 524288 <= q ∧ 4096 * q + 4096 <= lo) →
  ∃ o k' l', foreach_exit es (setup_body (as_dir A)) k = Ret o k' ∧ setup_result es A used l k o k' l'.
Proof using Lok.
  induction es as [|[[[v s] t] p] es IH]; intros lo k A used l Hok Hlo Hinv Hfree.
  { exists None, k, l. split; [done|]. split; [apply mem_only_refl|]. split; [apply same_except_refl|].
    by exists A. }
  cbn [regions_ok] in Hok. destruct Hok as (Hv & Hvm & Hs & Hsm & Hp & Hsz & Hszm & Hb1 & Hb2 & Hok).
  remember (region_size (v, s, t, p)) as sz eqn:Esz.
  destruct (mappages_spec (Z.to_nat (sz / 4096)) k A used l v sz s p Hinv)
    as (r & k1 & A1 & l1 & Hrun & Hinv1 & Hg & Hres); [lia|done|done|divmod|divmod|done|done|divmod|done| |].
  { intros q Hq. destruct (as_map A !! q) eqn:E; [|done]. apply Hfree in E. divmod. }
  cbn [foreach_exit]. unfold setup_body at 1. change (u32 (t - s)) with (region_size (v, s, t, p)).
  rewrite <- Esz. pose proof (grows_perm _ _ _ _ _ _ Hg) as HP.
  pose proof (gr_dir _ _ _ _ _ _ Hg) as Hdir.
  destruct Hres as [(-> & HM & _)|(-> & -> & j & Hj & HM)].
  - rewrite (bind_eq _ _ _ None k1) by (by mcall Hrun).
    destruct (IH (v + sz) k1 A1 used l1) as (o & k2 & l2 & Hrun2 & Hmo & Hsame & Hres); [done|lia|done| |].
    { intros q e. rewrite HM, lookup_map_pages. case_decide as Hd; [intros _; divmod|].
      intros Hq%Hfree. lia. }
    rewrite Hdir in Hrun2. exists o, k2, l2. split; [exact Hrun2|]. split; [eapply mem_only_trans; [apply Hg|done]|].
    split.
    { apply same_except_trans with (k_mem k1); [apply Hg|]. eapply same_except_weaken; [|exact Hsame].
      intros q. by rewrite Hdir, HP. }
    destruct o as [r|]; [by rewrite Hdir, HP in Hres|].
    destruct Hres as (A' & ? & ? & HP' & HM'). exists A'. split_and!; [done|congruence|by rewrite HP'|].
    rewrite HM', HM. cbn [foldl]. f_equal. unfold map_region. by rewrite <- Esz.
  - destruct (freevm_spec false k1 A1 used []) as (k2 & l2 & Hrun2 & Hk2 & HP2 & Hmo & Hsame).
    { unfold uvm. rewrite user_frames_none; [done|]. intros q e.
      rewrite HM, lookup_map_pages. case_decide; [intros _; divmod|]. by intros [? _]%Hfree. }
    assert (l2 ≡ₚ as_dir A :: pt_pages A ++ l) as HP3 by (by rewrite HP2, Hdir, <- HP).
    rewrite (bind_eq _ _ _ (Some 0) k2) by (mcall Hrun; cbn [Z.ltb Z.compare]; rewrite <- Hdir; by mcall Hrun2).
    exists (Some 0), k2, l2. split; [done|]. split; [eapply mem_only_trans; [apply Hg|done]|]. split; [|done].
    apply same_except_trans with (k_mem k1); [apply Hg|]. eapply same_except_weaken; [|exact Hsame].
    intros q. rewrite Hdir, <- HP, user_frames_none; [done|]. intros q' e.
    rewrite HM, lookup_map_pages. case_decide; [intros _; divmod|]. by intros [? _]%Hfree.
Qed.

Lemma kmap_ok : regions_ok KERNBASE kmap.
Proof using Lok.
  destruct Lok as [H1 H2 H3]. unfold KERNLINK, KERNBASE, EXTMEM, PGSIZE, PHYSTOP in *.
  unfold kmap. cbn [regions_ok]. unfold region_size, V2P, KERNLINK, KERNBASE, EXTMEM, DEVSPACE, PHYSTOP, PTE_W.
  rewrite !(u32_small (data_addr - _)) by (unfold is_u32; lia).
  rewrite !(u32_small (234881024 - _)) by (unfold is_u32; lia).
  change (u32 (2147483648 + 1048576 - 2147483648)) with 1048576.
  rewrite !(u32_small (data_addr - _ - _)) by (unfold is_u32; lia).
  change (u32 (1048576 - 0)) with 1048576. change (u32 (0 - 4261412864)) with 33554432.
  split_and!; try done; divmod.
Qed.

(** The mappings every page table has. *)
Definition kernel_map : gmap Z Z := foldl map_region ∅ kmap.

Lemma map_regions_dom es : ∀ lo M,
  regions_ok lo es → 2147483648 <= lo → (∀ n e, M !! n = Some e → 524288 <= n) →
  ∀ n e, foldl map_region M es !! n = Some e → 524288 <= n.
Proof.
  induction es as [|[[[v s] t] p] es IH]; intros lo M Hok Hlo HM; [done|]. cbn [foldl].
  cbn [regions_ok] in Hok. destruct Hok as (Hv & _ & _ & _ & _ & Hsz & _ & _ & _ & Hok).
  apply (IH (v + region_size (v, s, t, p))); [done|lia|]. intros n e. unfold map_region.
  assert (524288 <= v / 4096) by (apply Z.div_le_lower_bound; lia).
  rewrite lookup_map_pages. case_decide; [intros _; lia|apply HM].
Qed.

Lemma kernel_map_dom n e : kernel_map !! n = Some e → 524288 <= n.
Proof using Lok.
  unfold kernel_map. intros H. eapply (map_regions_dom kmap KERNBASE ∅ kmap_ok); [done| |exact H].
  intros n' e'. by rewrite lookup_empty.
Qed.

Lemma setupkvm_spec k used l :
  kmem_inv k l → NoDup (used ++ l) → Forall page_ok used →
  ∃ r k' l', setupkvm k = Ret r k' ∧ mem_only k k' ∧ same_except l (k_mem k) (k_mem k') ∧
    ((r = 0 ∧ kmem_inv k' l' ∧ l' ≡ₚ l) ∨
     ∃ A, r = as_dir A ∧ vm_inv k' A used l' ∧ as_map A = kernel_map ∧
       as_dir A :: pt_pages A ++ l' ≡ₚ l).
Proof using Lok.
  intros Hk Hnd Hused. unfold setupkvm. destruct l as [|v l].
  { mcall (kalloc_eq _ _ Hk). exists 0, k, []. split_and!; [done|apply mem_only_refl|apply same_except_refl|by left]. }
  mcall (kalloc_eq _ _ Hk). change (default 0 (head (v :: l))) with v.
  pose proof (km_pages _ _ Hk) as [Hv _]%Forall_cons. pose proof (page_ok_range v Hv) as [Hv0 _].
  rewrite (proj2 (Z.eqb_neq v 0)) by lia. unfold zero_page. mrun. set (k0 := taken k v (memset (k_mem k) v 0 (Z.to_nat PGSIZE))).
  match goal with |- context [set_k_mem ?m ?x] => change (set_k_mem m x) with k0 end.
  change (P2V PHYSTOP >? DEVSPACE) with false. cbv iota.
  assert (vm_inv k0 (mkAspace v ∅ ∅) used l) as Hinv.
  { pose proof (kalloc_inv _ _ _ Hk) as Hk1. rewrite <- Permutation_middle in Hnd.
    split; [| |done|by constructor].
    - apply (kmem_frame _ _ [v] _ Hk1); [apply same_except_memset|by repeat constructor; apply page_ok_aligned|].
      intros p ->%list_elem_of_singleton. pose proof (km_nodup _ _ Hk) as Hl. by apply NoDup_cons in Hl as [? _].
    - apply rep_empty, memset_zero_filled. }
  destruct (setup_loop kmap KERNBASE _ _ used l kmap_ok ltac:(done) Hinv) as (o & k' & l' & Hrun & Hmo & Hs & Hres).
  { intros q e. cbn [as_map]. by rewrite lookup_empty. }
  cbn [as_dir] in Hrun. unfold setup_body in Hrun. mcall Hrun.
  assert (mem_only k k') as Hmo' by (by eapply mem_only_trans; [|exact Hmo]).
  assert (same_except (v :: l) (k_mem k) (k_mem k')) as Hs'.
  { apply same_except_trans with (k_mem k0); [|exact Hs].
    apply (same_except_weaken [v]); [|apply same_except_memset]. intros p ->%list_elem_of_singleton. by left. }
  destruct o as [r|].
  - destruct Hres as (-> & Hk' & HP). exists 0, k', l'. split_and!; [done..|by left].
  - destruct Hres as (A' & Hinv' & Hdir & HP & HM). exists v, k', l'. split_and!; [done..|].
    right. exists A'. split_and!; [done|done|done|]. by rewrite Hdir, HP.
Qed.
End spec.
#[global] Opaque kernel_map.
