(* ===== verification/Copyuvm.v ===== *)
(** * Duplicating an address space (src/vm.c: copyuvm) *)

From S2P Require Import Prelude Mem CString State Mmu Spinlock Kalloc Vm VmSpec Uvm Kvm.

(** The pages an address space owns. *)
Definition owned (A : aspace) : list Z := as_dir A :: pt_pages A ++ user_frames (as_map A).

Section spec.
Context `{L : Layout} {Lok : LayoutOk L}.

(** Two address spaces side by side: either may be taken as the current one. *)
Lemma other_space k S D rest l :
  uvm k D (owned S ++ rest) l → rep (k_mem k) S → uvm k S (owned D ++ rest) l.
Proof.
  intros [Hk Hr Hnd Hp] HS. unfold owned in *. split; [done|done| |].
  - eapply NoDup_Permutation_proper; [|exact Hnd]. solve_Permutation.
  - eapply Forall_Permutation; [| |exact Hp]; [done|]. solve_Permutation.
Qed.

Lemma uvm_apart k D used l p :
  uvm k D used l → p ∈ used → page_ok p ∧ p ∉ as_dir D :: pt_pages D ++ l.
Proof.
  intros Hinv Hp. apply elem_of_Permutation in Hp as [used' HP].
  apply (vm_inv_perm _ _ _ (p :: user_frames (as_map D) ++ used')) in Hinv;
    [|rewrite HP; symmetry; apply Permutation_middle].
  apply vm_inv_owned in Hinv. rewrite elem_of_cons, elem_of_app. tauto.
Qed.

(** What other structures own is left alone. *)
Lemma evolves_apart k k' D D' used l l' p b :
  uvm k D used l → uvm k' D' used l' → evolves k k' D D' l l' → p ∈ used → in_page p b →
  ldb (k_mem k') b = ldb (k_mem k) b.
Proof.
  intros Hinv Hinv' Hev Hp Hb. destruct (uvm_apart _ _ _ _ _ Hinv Hp) as [Hok H1].
  destruct (uvm_apart _ _ _ _ _ Hinv' Hp) as [_ H2].
  destruct (vm_inv_aligned _ _ _ _ Hinv) as (Hda & Hpa & _ & Hla).
  destruct (vm_inv_aligned _ _ _ _ Hinv') as (_ & _ & _ & Hla').
  apply (page_kept _ _ _ p b (ev_same _ _ _ _ _ _ Hev)); [| | |done].
  - rewrite Forall_cons, !Forall_app. done.
  - by apply page_ok_aligned.
  - rewrite elem_of_cons, elem_of_app in H1, H2. rewrite elem_of_cons, !elem_of_app. tauto.
Qed.

Lemma word_ext m m' p j :
  (∀ b, in_page p b → ldb m' b = ldb m b) → 0 <= j < 1024 → ld32 m' (p + 4 * j) = ld32 m (p + 4 * j).
Proof. intros H Hj. apply ld32_ext. intros b Hb. apply H. unfold in_page. lia. Qed.

Lemma rep_ext m m' A :
  (∀ p b, p ∈ owned A → in_page p b → ldb m' b = ldb m b) → rep m A → rep m' A.
Proof.
  intros H [H1 H2 H3 H4]. split; [done|done| |].
  - intros i Hi. rewrite (word_ext m m') by (done || (intros b; apply H; by left)). by apply H3.
  - intros i pt j Hi Hj. rewrite (word_ext m m'); [by apply H4| |done].
    intros b. apply H. right. apply elem_of_app. left. by eapply pt_pages_elem.
Qed.

(** The pages [lo] to [hi - 1] of [D'] are copies of those of [S] that exist. *)
Definition copied (m m' : mem) (lo hi : Z) (S D D' : aspace) (l : list Z) : Prop :=
  (∀ n, lo <= n < hi →
    match as_map S !! n with
    | None => as_map D' !! n = None
    | Some e => ∃ v, as_map D' !! n = Some (pte_for (V2P v) (PTE_FLAGS e)) ∧ v ∈ l ∧
        ∀ o, 0 <= o < 4096 → ldb m' (v + o) = ldb m (frame e + o)
    end) ∧
  (∀ n, ¬ (lo <= n < hi) → as_map D' !! n = as_map D !! n).

Lemma copied_none m S D lo hi l : hi <= lo → copied m m lo hi S D D l.
Proof. intros H. split; [intros n Hn; lia|done]. Qed.

(** A page the source does not have is skipped. *)
Lemma copied_skip m m' lo hi S D D' l :
  as_map S !! lo = None → as_map D !! lo = None →
  copied m m' (lo + 1) hi S D D' l → copied m m' lo hi S D D' l.
Proof.
  intros HS HD [H1 H2]. split.
  - intros n Hn. destruct (decide (n = lo)) as [->|]; [|apply H1; lia].
    rewrite HS, H2 by lia. done.
  - intros n Hn. apply H2. lia.
Qed.

(** The page [v] has been filled from the page of [e] and mapped at [lo]; the
    loop does the rest. *)
Lemma copied_step k k1 k' S D D1 D' rest l l1 l' lo hi e v :
  let used := owned S ++ rest in
  lo < hi <= 524288 → as_map S !! lo = Some e →
  uvm k D used l → uvm k1 D1 used l1 → uvm k' D' used l' →
  evolves k k1 D D1 l l1 → drawn D D1 l l1 → evolves k1 k' D1 D' l1 l' → drawn D1 D' l1 l' →
  v ∈ l → page_ok v → as_map D1 = <[lo := pte_for (V2P v) (PTE_FLAGS e)]> (as_map D) →
  (∀ o, 0 <= o < 4096 → ldb (k_mem k1) (v + o) = ldb (k_mem k) (frame e + o)) →
  copied (k_mem k1) (k_mem k') (lo + 1) hi S D1 D' l1 →
  copied (k_mem k) (k_mem k') lo hi S D D' l.
Proof using Lok.
  intros used Hlo HS Hi0 Hi1 Hi2 Hev Hdr Hev' Hdr' Hv Hvok HM Hcp [H1 H2].
  assert (0 <= PTE_FLAGS e < 4096) as Hfl by (rewrite PTE_FLAGS_eq; divmod).
  assert (∀ n e', n < 524288 → as_map S !! n = Some e' → frame e' ∈ used) as Hused.
  { intros n e' Hn He'. apply elem_of_app. left. right. apply elem_of_app. right. by eapply user_frames_elem. }
  assert (as_map D1 !! lo = Some (pte_for (V2P v) (PTE_FLAGS e))) as HD1 by (by rewrite HM, lookup_insert_eq).
  split.
  - intros n Hn. destruct (decide (n = lo)) as [->|].
    + rewrite HS, H2 by lia. exists v. split_and!; [done|done|]. intros o Ho.
      rewrite <- Hcp by done. destruct (vm_inv_aligned _ _ _ _ Hi1) as (Hda & Hpa & _ & Hla).
      destruct (vm_inv_aligned _ _ _ _ Hi2) as (_ & _ & _ & Hla').
      destruct (uvm_frame_ok _ _ _ _ _ _ Hi1 HD1 ltac:(lia)) as (_ & Hnd). rewrite frame_pte_for in Hnd by done.
      apply (page_kept _ _ _ v _ (ev_same _ _ _ _ _ _ Hev')); [| | |unfold in_page; lia].
      * rewrite Forall_cons, !Forall_app. done.
      * by apply page_ok_aligned.
      * destruct Hdr' as [Hdr' _]. specialize (Hdr' v). rewrite elem_of_cons, !elem_of_app. tauto.
    + specialize (H1 n ltac:(lia)). destruct (as_map S !! n) as [e'|] eqn:E; [|done].
      destruct H1 as (w & Hw & Hwl & Hc). exists w. split_and!; [done|by apply Hdr|].
      intros o Ho. rewrite Hc by done.
      eapply evolves_apart; [exact Hi0|exact Hi1|done|eapply Hused; [|done]; lia|unfold in_page; lia].
  - intros n Hn. rewrite H2, HM, lookup_insert_ne by lia. done.
Qed.

Lemma same_except_memmove m v src : same_except [v] m (memmove m v src (Z.to_nat PGSIZE)).
Proof.
  intros b Hb. specialize (Hb v ltac:(by left)). rewrite ldb_memmove, decide_False; [done|].
  unfold PGSIZE, in_page in *. lia.
Qed.

(** The entry of the source's page [i]. *)
Lemma source_entry k S D rest l i :
  uvm k D (owned S ++ rest) l → rep (k_mem k) S → 0 <= i < 2147483648 → i mod 4096 = 0 →
  (walkpgdir (as_dir S) i false k = Ret 0 k ∧ as_map S !! (i / 4096) = None) ∨
  ∃ pte, walkpgdir (as_dir S) i false k = Ret pte k ∧ pte ≠ 0 ∧
    match as_map S !! (i / 4096) with
    | None => present (ld32 (k_mem k) pte) = false
    | Some e => ld32 (k_mem k) pte = e ∧ present e = true
    end.
Proof using Lok.
  intros Hinv Hrep Hi Him. pose proof (other_space _ _ _ _ _ Hinv Hrep) as HS.
  assert (is_u32 i) as Hiu by (unfold is_u32; lia).
  destruct (as_pt S !! PDX i) as [pt|] eqn:Hpt.
  - right. exists (pt + 4 * PTX i). pose proof (PTX_range i).
    destruct (vm_inv_pt _ _ _ _ _ _ HS Hpt) as [[? _]%page_ok_range _].
    split_and!; [by eapply walk_present|lia|]. rewrite <- page_number_index by done.
    by apply (rep_pte _ _ Hrep).
  - left. split; [eapply walk_absent; eauto|]. eapply no_table_unmapped; [done..|]. divmod.
Qed.

(** What the loop promises from page [lo] on. *)
Definition copy_ok (S : aspace) (rest : list Z) (lo hi : Z) (k : kernel) (D : aspace) (l : list Z)
    (r : result kernel bool) : Prop :=
  ∃ b k' D' l', r = Ret b k' ∧ uvm k' D' (owned S ++ rest) l' ∧ evolves k k' D D' l l' ∧ drawn D D' l l' ∧
    (b = true → copied (k_mem k) (k_mem k') lo hi S D D' l).

(** When the loop may be entered. *)
Definition copy_pre (S : aspace) (rest : list Z) (lo : Z) (k : kernel) (D : aspace) (l : list Z) : Prop :=
  uvm k D (owned S ++ rest) l ∧ rep (k_mem k) S ∧ ∀ n, lo <= n < 524288 → as_map D !! n = None.

Lemma drawn_refl A (l : list Z) : drawn A A l l.
Proof. split; [done|]. intros p. rewrite elem_of_app. tauto. Qed.

(** The body of the loop for a page [e] the source has. *)
Definition copy_page (d i e : Z) (cont : K bool) : K bool :=
  mem <- kalloc ;;
  if mem =? 0 then ret false
  else
    modify (λ k, set_k_mem (memmove (k_mem k) mem (P2V (PTE_ADDR e)) (Z.to_nat PGSIZE)) k) ;;;
    r <- mappages d i PGSIZE (V2P mem) (PTE_FLAGS e) ;;
    if r <? 0 then kfree mem ;;; ret false else cont.

Lemma copy_page_spec k S D rest l i hi e (cont : K bool) :
  copy_pre S rest (i / 4096) k D l → 0 <= i < 2147483648 → i mod 4096 = 0 → i / 4096 < hi <= 524288 →
  as_map S !! (i / 4096) = Some e →
  (∀ k1 D1 l1, as_dir D1 = as_dir D → copy_pre S rest (i / 4096 + 1) k1 D1 l1 →
     copy_ok S rest (i / 4096 + 1) hi k1 D1 l1 (cont k1)) →
  copy_ok S rest (i / 4096) hi k D l (copy_page (as_dir D) i e cont k).
Proof using Lok.
  intros (Hinv & Hrep & Hnone) Hi Him Hhi HS Hcont. unfold copy_page. fold (frame e).
  destruct l as [|v l].
  { mcall (kalloc_eq _ _ (vi_kmem _ _ _ _ Hinv)). exists false, k, D, [].
    split_and!; [done|done|apply evolves_refl|apply drawn_refl|done]. }
  assert (0 <= PTE_FLAGS e < 4096) as Hfl by (rewrite PTE_FLAGS_eq; divmod).
  pose proof (same_except_memmove (k_mem k) v (frame e)) as Hmm.
  destruct (vm_inv_take_fill _ _ _ _ _ _ Hinv Hmm) as (Hka & Hv & _). mcall Hka.
  destruct (page_ok_range v Hv) as [Hv0 _]. rewrite (proj2 (Z.eqb_neq v 0)) by lia. mrun.
  destruct (map_fresh _ _ _ _ _ i _ (PTE_FLAGS e) Hinv Hmm) as (r & k1 & D1 & l1 & Hmap & Hcase);
    [done|lia|done|apply Hnone; lia|]. unfold taken in Hmap. mcall Hmap.
  destruct Hcase as [(-> & Hinv1 & HM & Hc & Hev & Hdr & _)|(-> & -> & Hinv1 & HM & Hev & Hpt & _)];
    cbn [Z.ltb Z.compare].
  - assert (copy_pre S rest (i / 4096 + 1) k1 D1 l1) as Hpre.
    { split_and!; [done| |].
      - eapply rep_ext; [|exact Hrep]. intros p b Hp Hb.
        eapply evolves_apart; [exact Hinv|exact Hinv1|done|by apply elem_of_app; left|done].
      - intros n Hn. rewrite HM, lookup_insert_ne by lia. apply Hnone. lia. }
    destruct (Hcont k1 D1 l1 (ev_dir _ _ _ _ _ _ Hev) Hpre) as (b & k' & D' & l' & -> & Hinv' & Hev' & Hdr' & Hres).
    exists b, k', D', l'. split_and!; [done|done| |by eapply drawn_trans|].
    + eapply evolves_trans; [done|done|]. intros p Hp%(drawn_app _ _ _ _ Hdr). rewrite !elem_of_app in *. tauto.
    + intros Hb. eapply (copied_step k k1 k' S D D1 D'); try done; [by left| |by apply Hres].
      intros o Ho. rewrite Hc by (unfold in_page; lia). rewrite ldb_memmove, decide_True; [f_equal; lia|].
      unfold PGSIZE. lia.
  - apply (vm_inv_perm _ _ _ (v :: (user_frames (as_map D1) ++ owned S ++ rest))) in Hinv1;
      [|symmetry; apply Permutation_middle].
    apply vm_inv_free in Hinv1 as [Hkf Hinv2]. mcall Hkf. exists false, (freed k1 v), D1, [v].
    split_and!; [done|done| | |done].
    + eapply evolves_trans; [done|apply freed_evolves|]. intros p Hp. specialize (Hpt p).
      rewrite !elem_of_app, ?elem_of_cons in *. tauto.
    + split; [|done]. intros p ->%list_elem_of_singleton. by left.
Qed.

Lemma copyuvm_loop_spec (fuel : nat) k S D rest l i sz :
  copy_pre S rest (i / 4096) k D l → 0 <= i → i mod 4096 = 0 → sz <= 2147483648 → sz <= i + 4096 * fuel →
  copy_ok S rest (i / 4096) ((sz + 4095) / 4096) k D l (copyuvm_loop fuel (as_dir S) (as_dir D) i sz k).
Proof using Lok.
  revert k D l i. induction fuel as [|fuel IH]; intros k D l i Hpre Hi Him Hsz Hf; cbn [copyuvm_loop].
  all: pose proof Hpre as (Hinv & Hrep & Hnone).
  all: destruct (Z.ltb_spec i sz) as [Hlt|Hge];
    [|exists true, k, D, l; split_and!; [done|done|apply evolves_refl|apply drawn_refl|intros _; apply copied_none; divmod]].
  { lia. }
  assert (u32 (i + PGSIZE) = i + 4096) as -> by (apply u32_small; unfold is_u32, PGSIZE; lia).
  assert (∀ k1 D1 l1, as_dir D1 = as_dir D → copy_pre S rest (i / 4096 + 1) k1 D1 l1 →
    copy_ok S rest (i / 4096 + 1) ((sz + 4095) / 4096) k1 D1 l1
      (copyuvm_loop fuel (as_dir S) (as_dir D) (i + 4096) sz k1)) as Hrest.
  { intros k1 D1 l1 <-. replace (i / 4096 + 1) with ((i + 4096) / 4096) by divmod.
    intros. apply IH; [done|lia|divmod|lia|lia]. }
  clear IH. assert (as_map D !! (i / 4096) = None) as HnD by (apply Hnone; divmod).
  assert (as_map S !! (i / 4096) = None →
    copy_ok S rest (i / 4096) ((sz + 4095) / 4096) k D l
      (copyuvm_loop fuel (as_dir S) (as_dir D) (i + 4096) sz k)) as Hskip.
  { intros HnS. destruct (Hrest k D l) as (b & k' & D' & l' & ? & ? & ? & ? & Hc); [done| |].
    - split_and!; [done|done|]. intros n Hn. apply Hnone. lia.
    - exists b, k', D', l'. split_and!; [done..|]. intros Hb. apply copied_skip; auto. }
  destruct (source_entry _ _ _ _ _ i Hinv Hrep) as [(Hw & HnS)|(pte & Hw & Hnz & He)]; [lia|done|..]; mcall Hw.
  - by apply Hskip.
  - rewrite (proj2 (Z.eqb_neq pte 0)) by done. unfold load32. mrun.
    destruct (as_map S !! (i / 4096)) as [e|] eqn:HS.
    + destruct He as [-> ->]. cbn [negb]. apply copy_page_spec; [done|lia|done|divmod|done|done].
    + rewrite He. by apply Hskip.
Qed.

(** The new address space [D] is a copy of the first [hi] pages of [S] beside
    the kernel's mappings. *)
Definition image_of (m m' : mem) (hi : Z) (S D : aspace) : Prop :=
  (∀ n, 0 <= n < hi →
    match as_map S !! n with
    | None => as_map D !! n = None
    | Some e => ∃ v, as_map D !! n = Some (pte_for (V2P v) (PTE_FLAGS e)) ∧
        ∀ o, 0 <= o < 4096 → ldb m' (v + o) = ldb m (frame e + o)
    end) ∧
  (∀ n, ¬ (0 <= n < hi) → as_map D !! n = kernel_map !! n).

Lemma apart_setup k k' S rest l p b :
  uvm k S rest l → same_except l (k_mem k) (k_mem k') → p ∈ owned S ++ rest → in_page p b →
  ldb (k_mem k') b = ldb (k_mem k) b.
Proof.
  intros Hinv Hs Hp Hb. destruct (vm_inv_aligned _ _ _ _ Hinv) as (Hda & Hpa & Hra & Hla).
  pose proof (vi_nodup _ _ _ _ Hinv) as Hnd. unfold owned in Hp.
  assert (as_dir S :: pt_pages S ++ (user_frames (as_map S) ++ rest) ++ l ≡ₚ
    ((as_dir S :: pt_pages S ++ user_frames (as_map S)) ++ rest) ++ l) as HP by solve_Permutation.
  rewrite HP in Hnd. apply NoDup_app in Hnd as (_ & Hx & _).
  apply (page_kept _ _ _ p b Hs); [done| |by apply Hx|done].
  rewrite Forall_app in Hra. rewrite !elem_of_app, elem_of_cons, elem_of_app in Hp.
  rewrite !Forall_forall in *. destruct Hra. destruct Hp as [[->|[?|?]]|?]; auto.
Qed.

Lemma uvm_back k k' S rest l l' :
  uvm k S rest l → same_except l (k_mem k) (k_mem k') → kmem_inv k' l' → l' ≡ₚ l → uvm k' S rest l'.
Proof.
  intros Hinv Hs Hk HP. split; [done| |rewrite HP; apply Hinv|apply Hinv].
  eapply rep_ext; [|apply (vi_rep _ _ _ _ Hinv)]. intros p b Hp.
  apply (apart_setup _ _ _ _ _ p b Hinv Hs). apply elem_of_app. by left.
Qed.

(** The jump to [bad]: everything the copy had is free again. *)
Lemma copyuvm_bad k k1 S D rest l l1 :
  uvm k S rest l → same_except l (k_mem k) (k_mem k1) → mem_only k k1 →
  uvm k1 D (owned S ++ rest) l1 → owned D ++ l1 ≡ₚ l →
  ∃ k2 l2, freevm (as_dir D) true k1 = Ret tt k2 ∧ mem_only k k2 ∧
    same_except l (k_mem k) (k_mem k2) ∧ uvm k2 S rest l2 ∧ l2 ≡ₚ l.
Proof using Lok.
  intros Hinv Hs Hmo Hinv1 HP. destruct (freevm_spec true _ _ _ _ Hinv1) as (k2 & l2 & Hrun & Hk2 & HP2 & Hmo2 & Hs2).
  assert (as_dir D :: pt_pages D ++ user_frames (as_map D) ++ l1 ≡ₚ l) as HPl.
  { rewrite <- HP. unfold owned. cbn [app]. by rewrite <- app_assoc. }
  assert (same_except l (k_mem k) (k_mem k2)) as Hs'.
  { apply same_except_trans with (k_mem k1); [done|]. eapply same_except_weaken; [|exact Hs2].
    intros p. by rewrite HPl. }
  assert (l2 ≡ₚ l) by (by rewrite HP2, HPl).
  exists k2, l2. split_and!; [done|by eapply mem_only_trans|done|by eapply uvm_back|done].
Qed.

(** [setupkvm] beside an address space [S]. *)
Lemma copyuvm_setup k S rest l :
  uvm k S rest l →
  ∃ r k0 l0, setupkvm k = Ret r k0 ∧ mem_only k k0 ∧ same_except l (k_mem k) (k_mem k0) ∧
    ((r = 0 ∧ uvm k0 S rest l0 ∧ l0 ≡ₚ l) ∨
     ∃ D, r = as_dir D ∧ r ≠ 0 ∧ copy_pre S rest 0 k0 D l0 ∧ as_map D = kernel_map ∧
       user_frames (as_map D) = [] ∧ owned D ++ l0 ≡ₚ l).
Proof using Lok.
  intros Hinv.
  assert (NoDup ((owned S ++ rest) ++ l) ∧ Forall page_ok (owned S ++ rest)) as [Hnd Hok].
  { destruct Hinv as [_ _ Hnd Hok]. unfold owned.
    split; [eapply NoDup_Permutation_proper; [|exact Hnd]|eapply Forall_Permutation; [| |exact Hok]; [done|]];
      solve_Permutation. }
  destruct (setupkvm_spec _ _ _ (vi_kmem _ _ _ _ Hinv) Hnd Hok) as (r & k0 & l0 & Hrun & Hmo & Hs & Hcase).
  exists r, k0, l0. split_and!; [done..|].
  destruct Hcase as [(-> & Hk0 & HP)|(D & -> & Hinv0 & HM & HP)]; [left|right].
  { split_and!; [done|by eapply uvm_back|done]. }
  destruct (vm_inv_dir _ _ _ _ Hinv0) as ([Hd _]%page_ok_range & _).
  assert (user_frames (as_map D) = []) as Hu by (rewrite HM; apply user_frames_none, kernel_map_dom).
  exists D. split_and!; [done|lia| |done|done|].
  - split_and!; [by unfold uvm; rewrite Hu| |].
    + eapply rep_ext; [|apply (vi_rep _ _ _ _ Hinv)]. intros p b Hp.
      apply (apart_setup _ _ _ _ _ p b Hinv Hs). apply elem_of_app. by left.
    + intros n Hn. rewrite HM. destruct (kernel_map !! n) eqn:E; [|reflexivity]. apply kernel_map_dom in E. lia.
  - rewrite <- HP. unfold owned. rewrite Hu. cbn [app]. by rewrite app_nil_r.
Qed.

Lemma copyuvm_spec k S rest l sz :
  uvm k S rest l → 0 <= sz <= KERNBASE →
  ∃ r k' l', copyuvm (as_dir S) sz k = Ret r k' ∧ mem_only k k' ∧ same_except l (k_mem k) (k_mem k') ∧
    ((r = 0 ∧ uvm k' S rest l' ∧ l' ≡ₚ l) ∨
     (∃ D, r = as_dir D ∧ r ≠ 0 ∧ uvm k' S (owned D ++ rest) l' ∧ uvm k' D (owned S ++ rest) l' ∧
       owned D ++ l' ≡ₚ l ∧ image_of (k_mem k) (k_mem k') ((sz + 4095) / 4096) S D)).
Proof using Lok.
  intros Hinv Hsz. unfold KERNBASE in Hsz. unfold copyuvm.
  destruct (copyuvm_setup _ _ _ _ Hinv) as (r & k0 & l0 & Hrun & Hmo & Hs & Hcase). mcall Hrun.
  destruct Hcase as [(-> & Hinv0 & HP)|(D0 & -> & Hnz & Hpre & HM & Hu0 & HP)].
  { exists 0, k0, l0. split_and!; [done..|]. by left. }
  rewrite (proj2 (Z.eqb_neq (as_dir D0) 0)) by done.
  destruct (copyuvm_loop_spec (page_steps 0 sz) k0 S D0 rest l0 0 sz)
    as (b & k1 & D & l1 & Hloop & Hinv1 & Hev & Hdr & Hcp); [done|lia|done|lia| |].
  { unfold page_steps, PGSIZE. rewrite Z2Nat.id; divmod. }
  mcall Hloop. pose proof (ev_dir _ _ _ _ _ _ Hev) as Hdir. pose proof (ev_pages _ _ _ _ _ _ Hev) as HPe.
  assert (owned D ++ l1 ≡ₚ l) as HPl.
  { rewrite <- HP. unfold owned. cbn [app]. by rewrite <- !app_assoc, Hdir, HPe. }
  assert (mem_only k k1) as Hmo1 by (eapply mem_only_trans; [done|apply Hev]).
  assert (same_except l (k_mem k) (k_mem k1)) as Hs1.
  { apply same_except_trans with (k_mem k0); [done|]. eapply same_except_weaken; [|apply Hev].
    intros p. rewrite app_assoc, app_comm_cons, elem_of_app. intros [Hp|Hp].
    - rewrite <- HP. unfold owned. revert Hp. rewrite elem_of_app, !elem_of_cons, !elem_of_app. clear. tauto.
    - rewrite <- HPl. apply elem_of_app. by right. }
  destruct b.
  - exists (as_dir D0), k1, l1. split_and!; [done..|]. right. exists D.
    assert (rep (k_mem k1) S) as HrS1.
    { eapply rep_ext; [|apply (vi_rep _ _ _ _ Hinv)]. intros p b Hp.
      apply (apart_setup _ _ _ _ _ p b Hinv Hs1). apply elem_of_app. by left. }
    split_and!; [done|done|by apply other_space|done|done|].
    destruct (Hcp eq_refl) as [H1 H2]. replace (0 / 4096) with 0 in H1, H2 by done.
    split; [|intros n Hn; rewrite H2, HM by done; reflexivity]. intros n Hn. specialize (H1 n Hn).
    destruct (as_map S !! n) as [e|] eqn:HS; [|done]. destruct H1 as (v & ? & _ & Hc). exists v.
    split; [done|]. intros o Ho. rewrite Hc by done.
    apply (apart_setup _ _ _ _ _ (frame e) _ Hinv Hs); [|unfold in_page; lia].
    apply elem_of_app. left. right. apply elem_of_app. right. eapply user_frames_elem; [done|divmod].
  - rewrite <- Hdir. destruct (copyuvm_bad _ _ _ _ _ _ _ Hinv Hs1 Hmo1 Hinv1 HPl) as (k2 & l2 & Hrun2 & ? & ? & Hinv2 & HP2).
    mcall Hrun2. exists 0, k2, l2. split_and!; [done..|]. left.
    split; [reflexivity|split; [exact Hinv2|exact HP2]].
Qed.
End spec.
