(* ===== verification/Copyout.v ===== *)
(** * Copying to user memory (src/vm.c: uva2ka, copyout)

    [copyout] is specified by what the user program sees at its own virtual
    addresses, before and after. *)

From S2P Require Import Prelude Mem CString State Mmu Spinlock Kalloc Vm VmSpec Uvm.

(** The entry grants the user access. *)
Definition user_ok (e : Z) : bool := negb (Z.land e PTE_U =? 0).

(** The byte a user program reads at [va]; [None] is a page fault. *)
Definition uread (m : mem) (A : aspace) (va : Z) : option Z :=
  match as_map A !! (va / 4096) with
  | Some e => if user_ok e then Some (ldb m (frame e + va mod 4096)) else None
  | None => None
  end.

Definition accessible (A : aspace) (n : Z) : Prop :=
  ∃ e, as_map A !! n = Some e ∧ user_ok e = true.

Lemma ldb_store_bytes bs : ∀ m dst b, Forall is_byte bs →
  ldb (store_bytes m dst bs) b = if decide (dst <= b < dst + length bs) then bs !!! Z.to_nat (b - dst) else ldb m b.
Proof.
  induction bs as [|x bs IH]; intros m dst b Hbs; cbn [store_bytes length].
  - by rewrite decide_False by lia.
  - apply Forall_cons in Hbs as [Hx Hbs]. rewrite IH by done. rewrite ldb_stb.
    destruct (decide (b = dst)) as [->|Hne].
    + rewrite decide_False, (decide_True (P := dst <= dst < _)) by lia.
      rewrite decide_True by done. rewrite Z.sub_diag. by apply u8_small.
    + destruct (decide (dst + 1 <= b < dst + 1 + length bs)).
      * rewrite decide_True by lia. replace (Z.to_nat (b - dst)) with (S (Z.to_nat (b - (dst + 1)))) by lia. done.
      * rewrite decide_False by lia. by rewrite decide_False by lia.
Qed.

Lemma user_frames_inj M n n' e e' :
  NoDup (user_frames M) → M !! n = Some e → M !! n' = Some e' → n < 524288 → n' < 524288 →
  frame e = frame e' → n = n'.
Proof.
  intros Hnd Hn Hn' Hu Hu' Hf. destruct (decide (n = n')) as [->|Hne]; [done|exfalso].
  rewrite (user_frames_delete M n e) in Hnd by done. apply NoDup_cons in Hnd as [Hin _].
  apply Hin. rewrite Hf. apply (user_frames_elem _ n'); [by rewrite lookup_delete_ne|done].
Qed.

Section spec.
Context `{L : Layout} {Lok : LayoutOk L}.

Lemma uvm_nodup_frames k A rest l : uvm k A rest l → NoDup (user_frames (as_map A)).
Proof.
  intros [_ _ Hnd _]. apply NoDup_cons in Hnd as [_ Hnd]. apply NoDup_app in Hnd as (_ & _ & Hnd).
  rewrite <- app_assoc in Hnd. by apply NoDup_app in Hnd as (? & _ & _).
Qed.

(** [uva2ka] on a page that has a page table. *)
Lemma uva2ka_spec k A rest l va pt :
  uvm k A rest l → 0 <= va < 2147483648 → va mod 4096 = 0 → as_pt A !! PDX va = Some pt →
  uva2ka (as_dir A) va k =
    Ret (match as_map A !! (va / 4096) with
         | Some e => if user_ok e then frame e else 0
         | None => 0 end) k.
Proof using Lok.
  intros Hinv Hva Hm Hpt. unfold uva2ka. assert (is_u32 va) as Hu by (unfold is_u32; lia).
  mcall (walk_present _ _ _ _ va false _ Hinv Hu Hpt). unfold load32. mrun.
  pose proof (rep_pte _ _ (vi_rep _ _ _ _ Hinv) _ _ _ Hpt (PTX_range va)) as He.
  rewrite page_number_index in He by done. destruct (as_map A !! (va / 4096)) as [e|].
  - destruct He as [-> ->]. cbn [negb]. unfold user_ok. by destruct (Z.land e PTE_U =? 0).
  - by rewrite He.
Qed.

(** Storing into one user page changes what the user reads there, only. *)
Lemma uread_store k A rest l va bs e :
  uvm k A rest l → Forall is_byte bs → 0 <= va < 2147483648 →
  va mod 4096 + length bs <= 4096 → as_map A !! (va / 4096) = Some e → user_ok e = true →
  let k' := set_k_mem (store_bytes (k_mem k) (frame e + va mod 4096) bs) k in
  uvm k' A rest l ∧
  ∀ a, 0 <= a < 2147483648 → uread (k_mem k') A a =
    if decide (va <= a < va + length bs) then Some (bs !!! Z.to_nat (a - va)) else uread (k_mem k) A a.
Proof using Lok.
  intros Hinv Hbs Hva Hlen He Hu k'.
  assert (va / 4096 < 524288) as Hn by divmod.
  destruct (uvm_frame_ok _ _ _ _ _ _ Hinv He Hn) as (Hf & Hnd). split.
  - apply (vm_inv_frame _ _ _ _ [frame e] _ Hinv).
    + intros b Hb. rewrite ldb_store_bytes by done. rewrite decide_False; [done|].
      specialize (Hb (frame e) ltac:(by left)). unfold in_page in Hb. divmod.
    + by repeat constructor; apply page_ok_aligned.
    + intros p ->%list_elem_of_singleton. tauto.
  - intros a Ha. unfold uread. cbn [k_mem k' set_k_mem].
    destruct (decide (a / 4096 = va / 4096)) as [E|E].
    + rewrite E, He, Hu, ldb_store_bytes by done.
      destruct (decide (va <= a < va + length bs)).
      * rewrite decide_True by divmod. do 3 f_equal. divmod.
      * rewrite decide_False by divmod. done.
    + rewrite (decide_False (P := va <= a < _)) by divmod.
      destruct (as_map A !! (a / 4096)) as [e'|] eqn:He'; [|done]. destruct (user_ok e'); [|done].
      f_equal. rewrite ldb_store_bytes by done. rewrite decide_False; [done|].
      assert (a / 4096 < 524288) as Hn' by divmod.
      destruct (uvm_frame_ok _ _ _ _ _ _ Hinv He' Hn') as (Hf' & _).
      assert (frame e ≠ frame e') as Hne.
      { intros Hff. apply E. symmetry. eapply user_frames_inj; [by eapply uvm_nodup_frames|done..]. }
      destruct (pages_apart _ _ Hf Hf' Hne); divmod.
Qed.

(** The first [w] bytes of [buf] are in place at [va]. *)
Definition written (m m' : mem) (A : aspace) (va : Z) (buf : list Z) (w : Z) : Prop :=
  ∀ a, 0 <= a < 2147483648 → uread m' A a =
    if decide (va <= a < va + w) then Some (buf !!! Z.to_nat (a - va)) else uread m A a.

Lemma written_0 m A va buf : written m m A va buf 0.
Proof. intros a _. by rewrite decide_False by lia. Qed.

Lemma written_app m m1 m2 A va bs1 bs2 w :
  written m m1 A va bs1 (length bs1) → written m1 m2 A (va + length bs1) bs2 w → 0 <= w →
  written m m2 A va (bs1 ++ bs2) (length bs1 + w).
Proof.
  intros H1 H2 Hw a Ha. rewrite H2, H1 by done.
  destruct (decide (va <= a < va + length bs1)).
  - rewrite decide_False, decide_True by lia. rewrite lookup_total_app_l by lia. done.
  - destruct (decide (va + length bs1 <= a < va + length bs1 + w)).
    + rewrite decide_True by lia. rewrite lookup_total_app_r by lia. do 2 f_equal. lia.
    + by rewrite decide_False by lia.
Qed.

Lemma copyout_loop_spec (fuel : nat) : ∀ k A rest l va buf,
  uvm k A rest l → Forall is_byte buf → 0 <= va → va + length buf <= 2147483648 →
  (∀ n, va / 4096 <= n <= (va + length buf - 1) / 4096 → is_Some (as_pt A !! (n / 1024))) →
  (length buf <= fuel)%nat →
  ∃ r k' w, copyout_loop fuel (as_dir A) va buf k = Ret r k' ∧ k' = set_k_mem (k_mem k') k ∧
    uvm k' A rest l ∧ 0 <= w ∧ written (k_mem k) (k_mem k') A va buf w ∧
    ((r = 0 ∧ w = length buf) ∨ (r = -1 ∧ w < length buf ∧ ¬ accessible A ((va + w) / 4096))).
Proof using Lok.
  induction fuel as [|fuel IH]; intros k A rest l va buf Hinv Hb Hva Hlen Hpts Hf.
  all: destruct buf as [|x buf'] eqn:Ebuf;
    [exists 0, k, 0; split_and!; [done|by destruct k|done|lia|apply written_0|by left]|rewrite <- Ebuf in *].
  { subst. simpl in Hf. lia. }
  assert (0 < length buf)%nat as Hpos by (subst; simpl; lia).
  rewrite Ebuf. cbn [copyout_loop]. rewrite <- Ebuf. clear x buf' Ebuf. cbv zeta.
  rewrite PGROUNDDOWN_eq. unfold PGSIZE.
  destruct (Hpts (va / 4096)) as [pt Hpt]; [divmod|].
  rewrite (bind_eq _ _ _ _ _ (uva2ka_spec k A rest l (va / 4096 * 4096) pt Hinv ltac:(divmod) ltac:(divmod)
    ltac:(rewrite PDX_eq by (unfold is_u32; divmod); rewrite <- Hpt; f_equal; divmod))).
  rewrite Z.div_mul by lia.
  destruct (as_map A !! (va / 4096)) as [e|] eqn:He; [destruct (user_ok e) eqn:Hu|].
  2,3: exists (-1), k, 0; split_and!; [done|by destruct k|done|lia|apply written_0|right];
    (split_and!; [done|lia|]; intros (e' & He' & Hu'); rewrite Z.add_0_r in He'; congruence).
  assert (va / 4096 < 524288) as Hn by divmod.
  destruct (uvm_frame_ok _ _ _ _ _ _ Hinv He Hn) as ([Hf0 _]%page_ok_range & _).
  rewrite (proj2 (Z.eqb_neq (frame e) 0)) by lia. mrun.
  set (n := Z.to_nat (Z.min (4096 - (va - va / 4096 * 4096)) (length buf))).
  assert (va - va / 4096 * 4096 = va mod 4096) as Emod by divmod. rewrite Emod.
  assert (0 < n <= length buf)%nat as Hnr by (subst n; divmod).
  assert (length (take n buf) = n) as Htake by (rewrite length_take; lia).
  destruct (uread_store k A rest l va (take n buf) e) as [Hinv1 Hw1]; [done|by apply Forall_take|divmod
    |rewrite Htake; subst n; divmod|done|done|].
  set (k1 := set_k_mem _ k) in *. fold (written (k_mem k) (k_mem k1) A va (take n buf) (length (take n buf))) in Hw1.
  destruct (decide (n = length buf)) as [Hall|Hpart].
  - rewrite (drop_ge buf n) by lia. exists 0, k1, (length buf).
    split_and!; [by destruct fuel|done|done|lia| |by left].
    rewrite Htake, take_ge, Hall in Hw1 by lia. exact Hw1.
  - assert (va / 4096 * 4096 + 4096 = va + n) as Enext by (subst n; divmod).
    rewrite Enext, u32_small by (unfold is_u32; divmod).
    destruct (IH k1 A rest l (va + n) (drop n buf) Hinv1) as (r & k' & w & Hrun & Hk' & Hinv' & Hw0 & Hw & Hres);
      [by apply Forall_drop|lia|rewrite length_drop; lia| |rewrite length_drop; lia|].
    { rewrite length_drop. intros q Hq. apply Hpts. divmod. }
    exists r, k', (n + w). split_and!; [exact Hrun|by rewrite Hk'|done|lia| |].
    + assert (written (k_mem k) (k_mem k') A va (take n buf ++ drop n buf) (length (take n buf) + w)) as Hw2.
      { apply (written_app _ (k_mem k1)); [done|by rewrite Htake|lia]. }
      by rewrite take_drop, Htake in Hw2.
    + rewrite length_drop in Hres. replace (va + (n + w)) with (va + n + w) by lia.
      destruct Hres as [[-> ->]|(-> & ? & ?)]; [left|right]; split_and!; try done; lia.
Qed.
End spec.
