(* ===== verification/Boot.v ===== *)
(** * Memory at boot (src/main.c)

    The calls of [main] that set up physical and kernel virtual memory, in
    their order: [kinit1], [kvmalloc], the stacks [startothers] allocates for
    the other processors, [kinit2]. *)

From S2P Require Import Prelude Mem CString State Mmu Spinlock Kalloc Vm VmSpec Uvm Kvm Copyuvm.

Section boot.
Context `{L : Layout}.

(** [startothers]: one [kalloc()] per processor other than this one. *)
Fixpoint startothers (others : nat) : K (list Z) :=
  match others with
  | O => ret []
  | S n => stack <- kalloc ;; ss <- startothers n ;; ret (stack :: ss)
  end.

Definition main_memory (others : nat) : K (list Z) :=
  kinit1 end_addr (P2V 4194304) ;;;
  kvmalloc ;;;
  ss <- startothers others ;;
  kinit2 (P2V 4194304) (P2V PHYSTOP) ;;;
  ret ss.

Context {Lok : LayoutOk L}.

Lemma startothers_spec (n : nat) : ∀ k l, kmem_inv k l →
  ∃ ss k' l', startothers n k = Ret ss k' ∧ kmem_inv k' l' ∧ mem_only k k' ∧ k_mem k' = k_mem k ∧
    filter (λ s, s ≠ 0) ss ++ l' ≡ₚ l.
Proof using Lok.
  induction n as [|n IH]; intros k l Hk; cbn [startothers].
  { exists [], k, l. split_and!; [done|done|apply mem_only_refl|done|done]. }
  mcall (kalloc_eq _ _ Hk). destruct l as [|v l]; cbn [head default].
  - destruct (IH k [] Hk) as (ss & k' & l' & Hrun & ? & ? & ? & ?). mcall Hrun.
    exists (0 :: ss), k', l'. split_and!; [done..|]. by rewrite filter_cons_False by (intros H'; by apply H').
  - destruct (IH _ _ (kalloc_inv _ _ _ Hk)) as (ss & k' & l' & Hrun & ? & ? & ? & HP). mcall Hrun.
    pose proof (km_pages _ _ Hk) as [[Hv _]%page_ok_range _]%Forall_cons.
    exists (v :: ss), k', l'. split_and!; [done|done|by eapply mem_only_trans; [|done]|done|].
    rewrite filter_cons_True by lia. simpl. by rewrite HP.
Qed.

Lemma kvmalloc_spec k l :
  kmem_inv k l →
  ∃ k' l' A, kvmalloc k = Ret tt k' ∧ k_use_lock k' = k_use_lock k ∧
    k_cr3 k' = V2P (k_kpgdir k') ∧
    ((k_kpgdir k' = 0 ∧ kmem_inv k' l' ∧ l' ≡ₚ l) ∨
     (k_kpgdir k' = as_dir A ∧ vm_inv k' A [] l' ∧ as_map A = kernel_map ∧ as_dir A :: pt_pages A ++ l' ≡ₚ l)).
Proof using Lok.
  intros Hk. destruct (setupkvm_spec k [] l Hk (km_nodup _ _ Hk) ltac:(done))
    as (r & k1 & l1 & Hrun & Hmo & _ & Hcase).
  unfold kvmalloc, switchkvm. mcall Hrun.
  assert (∀ p, kmem_inv k1 l1 → kmem_inv (set_k_cr3 (V2P p) (set_k_kpgdir p k1)) l1) as Hset.
  { intros p [? ? ? ?]. by split. }
  destruct Hcase as [(-> & Hk1 & HP)|(A & -> & Hinv & HM & HP)].
  - eexists _, l1, (mkAspace 0 ∅ ∅). split; [done|]. cbn [k_use_lock k_cr3 k_kpgdir].
    split; [by rewrite Hmo|]. split; [done|left]. split_and!; [done|by apply (Hset 0)|done].
  - eexists _, l1, A. split; [done|]. cbn [k_use_lock k_cr3 k_kpgdir].
    split; [by rewrite Hmo|]. split; [done|right]. split_and!; [done| |done|done].
    destruct Hinv as [? ? ? ?]. split; [by apply (Hset (as_dir A))|done..].
Qed.

(** What is in use after boot, given the pages free before [kinit2]. *)
Lemma kinit2_spec k l (used : list Z) :
  let mid := 2151677952 in
  kmem_inv k l → end_addr <= mid → (∀ v, v ∈ used ++ l ↔ page_ok v ∧ v < mid) → NoDup (used ++ l) →
  ∃ k' l', kinit2 (P2V 4194304) (P2V PHYSTOP) k = Ret tt k' ∧ kmem_inv k' l' ∧
    k_use_lock k' = true ∧ k_kpgdir k' = k_kpgdir k ∧
    (∀ b, b < mid → ldb (k_mem k') b = ldb (k_mem k) b) ∧
    NoDup (used ++ l') ∧ ∀ v, v ∈ used ++ l' ↔ page_ok v.
Proof using Lok.
  intros mid Hk He Hall Hnd. change (P2V 4194304) with mid. change (P2V PHYSTOP) with 2382364672.
  assert (∀ v, v ∈ used ∨ v ∈ l ↔ page_ok v ∧ v < mid) as Hall' by (intros v; by rewrite <- Hall, elem_of_app).
  destruct (freerange_spec k l mid 2382364672) as (k2 & l2 & E & Hk2 & Hmo & Hs & Hl2);
    [done|done|done|done|done|intros v Hv; apply Hall'; by right|].
  exists (set_k_use_lock true k2), l2. apply NoDup_app in Hnd as (Hnd1 & Hdis & Hnd2).
  split_and!; [unfold kinit2; by mcall E|by destruct Hk2|done|by rewrite Hmo|done| |].
  - apply NoDup_app. split_and!; [done| |apply Hk2]. intros v Hv. rewrite Hl2.
    specialize (Hdis v Hv). destruct (proj1 (Hall' v) (or_introl Hv)) as [_ ?]. intros [?|[_ ?]]; [done|lia].
  - intros v. rewrite elem_of_app, Hl2. specialize (Hall' v). unfold page_ok, KERNBASE, PHYSTOP in *.
    split; [|intros [? ?]; destruct (decide (v < mid)); [tauto|]; right; right; subst mid; lia].
    intros [?|[?|[? ?]]]; [tauto|tauto|]. subst mid. lia.
Qed.

Lemma rep_low m m' A (mid : Z) :
  rep m A → (∀ p, p ∈ as_dir A :: pt_pages A → aligned p ∧ p < mid) → mid mod 4096 = 0 →
  (∀ b, b < mid → ldb m' b = ldb m b) → rep m' A.
Proof.
  intros [H1 H2 H3 H4] Hp Hm Hs. split; [done|done| |].
  - intros i Hi. rewrite (word_ext m m'); [by apply H3| |done]. intros b Hb. apply Hs.
    destruct (Hp (as_dir A) ltac:(by left)) as [Ha ?]. unfold aligned, in_page in *. divmod.
  - intros i pt j Hi Hj. rewrite (word_ext m m'); [by apply H4| |done]. intros b Hb. apply Hs.
    destruct (Hp pt) as [Ha ?]; [right; by eapply pt_pages_elem|]. unfold aligned, in_page in *. divmod.
Qed.

(** The pages an initialised kernel page table takes. *)
Definition kernel_pages (A : aspace) (ok : bool) : list Z := if ok then as_dir A :: pt_pages A else [].

(** C38: After the memory part of [main] every page between the end of the kernel
    and [PHYSTOP] is accounted for once: it is part of the kernel's page table,
    a stack of another processor, or free.  The page table maps the kernel
    exactly as [kmap] says, unless the first 4 MB were too small for it. *)
Theorem main_memory_correct (others : nat) k :
  k_freelist k = 0 → k_held k = [] → end_addr <= P2V 4194304 →
  ∃ ss k' l A ok, main_memory others k = Ret ss k' ∧ k_use_lock k' = true ∧ kmem_inv k' l ∧
    let used := kernel_pages A ok ++ filter (λ s, s ≠ 0) ss in
    NoDup (used ++ l) ∧ (∀ v, v ∈ used ++ l ↔ page_ok v) ∧
    k_kpgdir k' = (if ok then as_dir A else 0) ∧
    (ok = true → vm_inv k' A (filter (λ s, s ≠ 0) ss) l ∧ as_map A = kernel_map).
Proof using Lok.
  intros Hf Hh He. change (P2V 4194304) with 2151677952 in He. unfold main_memory.
  destruct (freerange_spec (set_k_use_lock false k) [] end_addr 2151677952)
    as (k1 & l1 & E1 & Hk1 & Hmo1 & _ & Hl1); [|lia|done|done|done|by intros ? ?%elem_of_nil|].
  { split; cbn; [done|constructor|done|]. rewrite Hh. apply not_elem_of_nil. }
  rewrite (bind_eq _ _ _ tt k1) by (unfold kinit1; mrun; exact E1).
  destruct (kvmalloc_spec _ _ Hk1) as (k2 & l2 & A & E2 & _ & _ & Hcase). mcall E2.
  set (ok := bool_decide (k_kpgdir k2 ≠ 0)).
  assert (kmem_inv k2 l2 ∧ kernel_pages A ok ++ l2 ≡ₚ l1 ∧ k_kpgdir k2 = (if ok then as_dir A else 0) ∧
    (ok = true → vm_inv k2 A [] l2 ∧ as_map A = kernel_map)) as (Hk2 & HP2 & Hkp & Hok).
  { destruct Hcase as [(Hz & ? & ?)|(Hd & Hinv & HM & HPd)].
    - subst ok. rewrite bool_decide_eq_false_2 by auto. done.
    - subst ok. destruct (vm_inv_dir _ _ _ _ Hinv) as ([? _]%page_ok_range & _).
      rewrite bool_decide_eq_true_2 by lia.
      split; [apply Hinv|split; [exact HPd|split; [exact Hd|intros _; split; [exact Hinv|exact HM]]]]. }
  destruct (startothers_spec others _ _ Hk2) as (ss & k3 & l3 & E3 & Hk3 & Hmo3 & Hm3 & HP3). mcall E3.
  assert ((kernel_pages A ok ++ filter (λ s, s ≠ 0) ss) ++ l3 ≡ₚ l1) as HP by (by rewrite <- app_assoc, HP3).
  destruct (kinit2_spec k3 l3 (kernel_pages A ok ++ filter (λ s, s ≠ 0) ss))
    as (k4 & l4 & E4 & Hk4 & Hu & Hkp4 & Hs & Hnd & Hall); [done|done| |rewrite HP; apply Hk1|].
  { intros v. rewrite HP, Hl1, elem_of_nil. unfold page_ok, KERNBASE, PHYSTOP. lia. }
  mcall E4. exists ss, k4, l4, A, ok. split_and!; [done|done|done|done|done| |].
  - by rewrite Hkp4, Hmo3.
  - intros Hb. destruct (Hok Hb) as [Hinv ?]. split; [|done].
    assert (∀ p, p ∈ as_dir A :: pt_pages A → page_ok p) as Hpg.
    { intros p Hp. apply Hall. rewrite Hb. rewrite !elem_of_app. left. by left. }
    split; [done| | |].
    + apply (rep_low (k_mem k2) _ _ 2151677952); [apply Hinv| |done|intros b Hlt; by rewrite <- Hm3, Hs].
      intros p Hp. split; [by apply page_ok_aligned, Hpg|].
      assert (p ∈ l1) as Hin; [|rewrite Hl1, elem_of_nil in Hin; lia].
      rewrite <- HP, Hb, !elem_of_app. left. by left.
    + rewrite Hb in Hnd. by rewrite <- app_assoc in Hnd.
    + apply Forall_forall. intros p Hp. apply Hall. rewrite Hb. apply elem_of_app. by left.
Qed.
End boot.

Lemma main_memory_correct_witness :
  ∃ ss k' l A ok, main_memory (L := demo_layout) 1 kernel0 = Ret ss k' ∧ k_use_lock k' = true ∧
    kmem_inv (L := demo_layout) k' l ∧
    let used := kernel_pages A ok ++ filter (λ s, s ≠ 0) ss in
    NoDup (used ++ l) ∧ (∀ v, v ∈ used ++ l ↔ page_ok (L := demo_layout) v) ∧
    k_kpgdir k' = (if ok then as_dir A else 0) ∧
    (ok = true → vm_inv (L := demo_layout) k' A (filter (λ s, s ≠ 0) ss) l ∧
       as_map A = kernel_map (L := demo_layout)).
Proof. apply (main_memory_correct (L := demo_layout) (Lok := demo_layout_ok) 1 kernel0); done. Defined.
