(* ===== verification/Demo.v ===== *)
(** * A small concrete machine

    A layout, a free list of a few pages and an address space with two user
    pages, checked to satisfy the invariants of the memory components.  The
    theorems on virtual memory are applied to it as examples. *)

From S2P Require Import Prelude Mem CString State Mmu Spinlock Kalloc Vm VmSpec Uvm.

#[export] Existing Instance demo_layout.
#[export] Existing Instance demo_layout_ok.

(** The pages from 0x80200000 on. *)
Definition page (i : Z) : Z := 2149580800 + 4096 * i.

(** A memory whose free list is the pages of [l]. *)
Fixpoint chain (l : list Z) : mem :=
  match l with
  | [] => ∅
  | v :: l => st32 (chain l) v (default 0 (head l))
  end.

Definition demo_free : list Z := page <$> [1; 2; 3; 4; 5; 6; 7].
Definition demo0 : kernel := set_k_mem (chain demo_free) (set_k_freelist (page 1) kernel0).

(** [allocuvm(pgdir, 0, 8192)] for an empty directory at [page 0]. *)
Definition demo1 : kernel :=
  match allocuvm (page 0) 0 8192 demo0 with Ret _ k => k | _ => demo0 end.

Definition demo_space : aspace :=
  mkAspace (page 0) {[0 := page 2]}
    {[0 := pte_for (V2P (page 1)) 6; 1 := pte_for (V2P (page 3)) 6]}.

(** ** Checking the invariants by computation *)

Definition rep_b (m : mem) (A : aspace) : bool :=
  forallb (λ p, (0 <=? p.1) && (p.1 <? 1024)) (map_to_list (as_pt A)) &&
  forallb (λ p, bool_decide (is_Some (as_pt A !! (p.1 / 1024)))) (map_to_list (as_map A)) &&
  forallb (λ i, match as_pt A !! i with
                | Some pt => ld32 m (as_dir A + 4 * i) =? V2P pt + 7
                | None => negb (present (ld32 m (as_dir A + 4 * i)))
                end) (seqZ 0 1024) &&
  forallb (λ p, forallb (λ j, match as_map A !! (1024 * p.1 + j) with
                | Some e => (ld32 m (p.2 + 4 * j) =? e) && present e
                | None => negb (present (ld32 m (p.2 + 4 * j)))
                end) (seqZ 0 1024)) (map_to_list (as_pt A)).

Lemma forallb_elem {X} (f : X → bool) l x : forallb f l = true → x ∈ l → f x = true.
Proof. rewrite forallb_forall. intros H Hx. by apply H, list_elem_of_In. Qed.

Lemma rep_b_sound m A : rep_b m A = true → rep m A.
Proof.
  unfold rep_b. rewrite !andb_true_iff. intros [[[H1 H2] H3] H4]. split.
  - intros i pt Hi. apply elem_of_map_to_list in Hi.
    pose proof (forallb_elem _ _ _ H1 Hi) as E. apply andb_true_iff in E as [?%Z.leb_le ?%Z.ltb_lt]. done.
  - intros n e Hn. apply elem_of_map_to_list in Hn.
    pose proof (forallb_elem _ _ _ H2 Hn) as E. by apply bool_decide_eq_true in E.
  - intros i Hi. assert (i ∈ seqZ 0 1024) as Hin by (apply elem_of_seqZ; lia).
    pose proof (forallb_elem _ _ _ H3 Hin) as E. cbv beta in E. destruct (as_pt A !! i).
    + by apply Z.eqb_eq.
    + by apply negb_true_iff.
  - intros i pt j Hi Hj. apply elem_of_map_to_list in Hi.
    pose proof (forallb_elem _ _ _ H4 Hi) as E. cbv beta in E.
    assert (j ∈ seqZ 0 1024) as Hin by (apply elem_of_seqZ; lia).
    pose proof (forallb_elem _ _ _ E Hin) as E'. cbn [fst snd] in E'. destruct (as_map A !! (1024 * i + j)).
    + apply andb_true_iff in E' as [?%Z.eqb_eq ?]. done.
    + by apply negb_true_iff.
Qed.

Definition demo_rest_free : list Z := page <$> [4; 5; 6; 7].

Lemma demo_kmem0 : kmem_inv demo0 demo_free.
Proof.
  split; [vm_compute; done|..].
  - apply (bool_decide_unpack _). vm_compute. done.
  - repeat constructor; vm_compute; done.
  - apply (bool_decide_unpack _). vm_compute. done.
Qed.

Lemma demo_uvm : uvm demo1 demo_space [] demo_rest_free.
Proof.
  split; [split; [vm_compute; tauto|..]|..].
  - apply (bool_decide_unpack _). vm_compute. done.
  - repeat constructor; vm_compute; done.
  - apply (bool_decide_unpack _). vm_compute. done.
  - apply rep_b_sound. vm_compute. done.
  - apply (bool_decide_unpack _). vm_compute. done.
  - repeat constructor; vm_compute; done.
Qed.

Lemma demo_unmapped n : 2 <= n → as_map demo_space !! n = None.
Proof. intros Hn. apply lookup_insert_None. split; [apply lookup_singleton_None; lia|lia]. Qed.
#[global] Opaque demo0 demo1.
