(* ===== verification/VmCorrect.v ===== *)
(** * The promises of src/vm.c

    What the routines of src/vm.c guarantee to [exec], [fork], [growproc] and
    the page-fault handler, on every path including exhaustion of memory. *)

From S2P Require Import Prelude Mem CString State Mmu Spinlock Kalloc Vm VmSpec Uvm Kvm Copyuvm Copyout Demo.

Section correct.
Context `{L : Layout} {Lok : LayoutOk L}.

(** [mappages] over a range of unmapped pages returns 0 with exactly those
    pages mapped to consecutive physical pages, or -1 when the allocator is
    empty, with a proper prefix of them mapped.  Every other mapping is kept,
    new page tables come from the free list, and no other memory changes. *)
Theorem mappages_correct (n : nat) k A rest l va size pa perm :
  vm_inv k A rest l →
  0 <= va → va mod 4096 = 0 → 0 < size → (size + 4095) / 4096 = n → va + 4096 * n <= 2 ^ 32 →
  0 <= pa → pa mod 4096 = 0 → pa + 4096 * n <= 2 ^ 32 → 0 <= perm < 4096 →
  (∀ q, va / 4096 <= q < va / 4096 + n → as_map A !! q = None) →
  ∃ r k' A' l', mappages (as_dir A) va size pa perm k = Ret r k' ∧
    mapped_or_oom n (va / 4096) pa perm A rest l k r k' A' l'.
Proof using Lok. apply mappages_spec. Qed.

(** [deallocuvm] unmaps the pages from [newsz] rounded up to [oldsz], and no
    others; their frames, and nothing else, go back to the free list; it never
    panics and never runs past the end; pages still in use keep their contents. *)
Theorem deallocuvm_correct k A rest l oldsz newsz :
  uvm k A rest l → 0 <= newsz < oldsz → oldsz <= KERNBASE →
  ∃ k' l', deallocuvm (as_dir A) oldsz newsz k = Ret newsz k' ∧
    let A' := set_map A (unmap ((newsz + 4095) / 4096) ((oldsz + 4095) / 4096) (as_map A)) in
    uvm k' A' rest l' ∧ shrinks k k' A A' l l'.
Proof using Lok. intros Hinv Hn Ho. by apply deallocuvm_spec. Qed.

(** [allocuvm] either maps every page from [oldsz] rounded up to [newsz] to a
    fresh page of zeros and returns [newsz], or returns 0 with the mappings as
    they were before the call; no page is lost or handed out twice either way,
    and pages that were in use keep their contents. *)
Theorem allocuvm_correct k A rest l oldsz newsz :
  let lo := (oldsz + 4095) / 4096 in
  let hi := (newsz + 4095) / 4096 in
  uvm k A rest l → 0 <= oldsz <= newsz → newsz < KERNBASE →
  (∀ n, lo <= n < hi → as_map A !! n = None) →
  ∃ r k' A' l', allocuvm (as_dir A) oldsz newsz k = Ret r k' ∧
    uvm k' A' rest l' ∧ evolves k k' A A' l l' ∧
    ((r = newsz ∧
      (∀ n, lo <= n < hi → ∃ v, v ∈ l ∧ as_map A' !! n = Some (pte_for (V2P v) (Z.lor PTE_W PTE_U)) ∧
         zero_filled (k_mem k') v) ∧
      (∀ n, ¬ (lo <= n < hi) → as_map A' !! n = as_map A !! n)) ∨
     (r = 0 ∧ as_map A' = as_map A)).
Proof using Lok.
  intros lo hi Hinv Ho Hn Hnone. unfold allocuvm, KERNBASE in *.
  rewrite Z.geb_leb, (proj2 (Z.leb_gt _ _)), (proj2 (Z.ltb_ge _ _)) by lia. cbv zeta.
  rewrite PGROUNDUP_eq by (unfold is_u32; lia).
  destruct (allocuvm_loop_spec (page_steps ((oldsz + 4095) / 4096 * 4096) newsz) k A rest l
    ((oldsz + 4095) / 4096 * 4096) oldsz newsz Hinv) as (r & k' & A' & l' & Hrun & Hinv' & Hev & Hres);
    [divmod|divmod|lia| |by rewrite Z.div_mul by lia|].
  { unfold page_steps, PGSIZE. destruct (decide (newsz < (oldsz + 4095) / 4096 * 4096)); [lia|].
    rewrite Z2Nat.id; divmod. }
  rewrite Z.div_mul in Hres by lia. rewrite perm_WU. exists r, k', A', l'. split_and!; [done..|].
  destruct Hres as [(-> & _ & ? & ?)|(-> & ->)]; [left; done|right]. split; [done|].
  apply map_eq. intros n. rewrite lookup_unmap. case_decide; [by rewrite Hnone|done].
Qed.


(** [freevm] takes a whole address space apart: its directory, its page
    tables and its user frames are on the free list afterwards, each once, and
    no page outside of them is touched. *)
Theorem freevm_correct k A rest l :
  uvm k A rest l →
  ∃ k' l', freevm (as_dir A) true k = Ret tt k' ∧ kmem_inv k' l' ∧ l' ≡ₚ owned A ++ l ∧ mem_only k k' ∧
    same_except (owned A ++ l) (k_mem k) (k_mem k').
Proof using Lok.
  intros Hinv. destruct (freevm_spec true _ _ _ _ Hinv) as (k' & l' & ? & ? & HP & ? & Hs).
  exists k', l'. unfold owned. cbn [app]. rewrite <- app_assoc. split_and!; done.
Qed.

(** C34: [copyout] delivers the buffer to the user's virtual addresses page by
    page: it returns 0 exactly when all of it is in place, else -1 with the
    bytes up to the first page the user may not access; every other user
    address reads as before. *)
Theorem copyout_correct k A rest l va buf :
  uvm k A rest l → Forall is_byte buf → 0 <= va → va + length buf <= KERNBASE →
  (∀ n, va / 4096 <= n <= (va + length buf - 1) / 4096 → is_Some (as_pt A !! (n / 1024))) →
  ∃ r k' w, copyout (as_dir A) va buf k = Ret r k' ∧ k' = set_k_mem (k_mem k') k ∧
    uvm k' A rest l ∧ 0 <= w ∧ written (k_mem k) (k_mem k') A va buf w ∧
    ((r = 0 ∧ w = length buf) ∨ (r = -1 ∧ w < length buf ∧ ¬ accessible A ((va + w) / 4096))).
Proof using Lok. intros Hinv Hb Hva Hl Hpt. apply copyout_loop_spec; [done..|lia]. Qed.
End correct.

(** ** The theorems on the machine of Demo.v *)

Lemma mappages_correct_witness :
  ∃ r k' A' l', mappages (page 0) 1073741824 8192 (V2P (page 6)) 6 demo1 = Ret r k' ∧
    mapped_or_oom 2 262144 (V2P (page 6)) 6 demo_space [page 1; page 3] demo_rest_free demo1 r k' A' l'.
Proof.
  apply (mappages_correct 2 demo1 demo_space [page 1; page 3] demo_rest_free 1073741824 8192 (V2P (page 6)) 6);
    [|vm_compute; done..|].
  - eapply vm_inv_perm; [|exact demo_uvm]. apply (bool_decide_unpack _). vm_compute. done.
  - intros q Hq. apply demo_unmapped. divmod.
Defined.

Lemma deallocuvm_correct_witness :
  ∃ k' l', deallocuvm (page 0) 8192 4096 demo1 = Ret 4096 k' ∧
    let A' := set_map demo_space (unmap 1 2 (as_map demo_space)) in
    uvm k' A' [] l' ∧ shrinks demo1 k' demo_space A' demo_rest_free l'.
Proof. apply (deallocuvm_correct demo1 demo_space [] demo_rest_free 8192 4096 demo_uvm); vm_compute; done. Defined.

Lemma allocuvm_correct_witness :
  ∃ r k' A' l', allocuvm (page 0) 8192 16000 demo1 = Ret r k' ∧
    uvm k' A' [] l' ∧ evolves demo1 k' demo_space A' demo_rest_free l' ∧
    ((r = 16000 ∧
      (∀ n, 2 <= n < 4 → ∃ v, v ∈ demo_rest_free ∧ as_map A' !! n = Some (pte_for (V2P v) (Z.lor PTE_W PTE_U)) ∧
         zero_filled (k_mem k') v) ∧
      (∀ n, ¬ (2 <= n < 4) → as_map A' !! n = as_map demo_space !! n)) ∨
     (r = 0 ∧ as_map A' = as_map demo_space)).
Proof.
  apply (allocuvm_correct demo1 demo_space [] demo_rest_free 8192 16000 demo_uvm); [lia|done|].
  intros n Hn. apply demo_unmapped. divmod.
Defined.


Lemma freevm_correct_witness :
  ∃ k' l', freevm (page 0) true demo1 = Ret tt k' ∧ kmem_inv k' l' ∧
    l' ≡ₚ owned demo_space ++ demo_rest_free ∧ mem_only demo1 k' ∧
    same_except (owned demo_space ++ demo_rest_free) (k_mem demo1) (k_mem k').
Proof. apply (freevm_correct demo1 demo_space [] demo_rest_free demo_uvm). Defined.

Lemma copyout_correct_witness :
  ∃ r k' w, copyout (page 0) 4094 [1; 2; 3] demo1 = Ret r k' ∧ k' = set_k_mem (k_mem k') demo1 ∧
    uvm k' demo_space [] demo_rest_free ∧ 0 <= w ∧ written (k_mem demo1) (k_mem k') demo_space 4094 [1; 2; 3] w ∧
    ((r = 0 ∧ w = 3%nat) ∨ (r = -1 ∧ w < 3%nat ∧ ¬ accessible demo_space ((4094 + w) / 4096))).
Proof.
  apply (copyout_correct demo1 demo_space [] demo_rest_free 4094 [1; 2; 3] demo_uvm).
  - repeat constructor; done.
  - done.
  - done.
  - simpl. intros n Hn. replace (n / 1024) with 0 by divmod. by exists (page 2).
Defined.
