(* ===== verification/Proc.v ===== *)
(** * Processes: the table, sleep and wakeup (src/proc.c)

    The process table and the routines that move a process between its states.
    A pointer to a process is its index; dereferencing [myproc()] when no
    process runs on the CPU faults in the kernel, which is rendered as a panic. *)

From S2P Require Import Prelude Mem CString State Mmu Spinlock Kalloc Vm.

Definition myproc : K (option nat) := gets k_cur.

(** [myproc()] where the code goes on to dereference it. *)
Definition curproc : K nat :=
  p <- myproc ;; match p with Some i => ret i | None => panic "null dereference" end.

Definition upd (i : nat) (f : proc → proc) : K unit := modify (upd_proc i f).

Definition is_state (s : procstate) (p : proc) : bool := bool_decide (p_state p = s).

(** [sizeof(struct trapframe)] and [sizeof(struct context)]. *)
Definition TF_SIZE : Z := 76.
Definition CONTEXT_SIZE : Z := 20.

Section proc.
Context `{L : Layout}.

Definition allocproc : K (option nat) :=
  acquire LPtable ;;;
  o <- gets (λ k, find_index (is_state UNUSED) (k_ptable k)) ;;
  match o with
  | None => release LPtable ;;; ret None
  | Some i =>
      upd i (set_p_state EMBRYO) ;;;
      pid <- gets k_nextpid ;;
      upd i (set_p_pid pid) ;;;
      modify (set_k_nextpid (i32 (pid + 1))) ;;;
      upd i (set_p_prio NORM_PRIO) ;;;
      release LPtable ;;;
      (* Allocate kernel stack. *)
      kstack <- kalloc ;;
      upd i (set_p_kstack kstack) ;;;
      if kstack =? 0 then upd i (set_p_state UNUSED) ;;; ret None
      else
        let sp := kstack + KSTACKSIZE - TF_SIZE in
        let sp := sp - 4 in
        store32 sp trapret_addr ;;;
        upd i (set_p_context (mkContext 0 0 0 0 forkret_addr)) ;;;
        ret (Some i)
  end.

(** [growproc(n)]; [lcr3] reloads the page table of the current process. *)
Definition growproc (n : Z) : K Z :=
  i <- curproc ;;
  p <- gets (λ k, proc_at k i) ;;
  let finish sz :=
    upd i (set_p_sz sz) ;;; modify (set_k_cr3 (V2P (p_pgdir p))) ;;; ret 0 in
  if n >? 0 then
    sz <- allocuvm (p_pgdir p) (p_sz p) (u32 (p_sz p + n)) ;;
    if sz =? 0 then ret (-1) else finish sz
  else if n <? 0 then
    sz <- deallocuvm (p_pgdir p) (p_sz p) (u32 (p_sz p + n)) ;;
    if sz =? 0 then ret (-1) else finish sz
  else finish (p_sz p).
End proc.

(** [sched]'s checks and [swtch]: the CPU goes to the scheduler and the
    routine goes on when this process is switched to again. *)
Definition sched : K unit :=
  p <- curproc ;;
  h <- holding LPtable ;;
  if negb h then panic "sched ptable.lock"
  else
    n <- gets (λ k, length (k_held k)) ;;
    if negb (Nat.eqb n 1) then panic "sched locks"
    else
      r <- gets (λ k, is_state RUNNING (proc_at k p)) ;;
      if r : bool then panic "sched running"
      else λ k, Swtch k (λ k', Ret tt k').

Definition yield : K unit :=
  acquire LPtable ;;;
  p <- curproc ;;
  upd p (set_p_state RUNNABLE) ;;;
  sched ;;;
  release LPtable.

Definition sleep (c : chan) (lk : lock) : K unit :=
  o <- myproc ;;
  match o with
  | None => panic "sleep"
  | Some p =>
      when (negb (bool_decide (lk = LPtable))) (acquire LPtable ;;; release lk) ;;;
      upd p (set_p_chan (Some c)) ;;;
      upd p (set_p_state SLEEPING) ;;;
      sched ;;;
      upd p (set_p_chan None) ;;;
      when (negb (bool_decide (lk = LPtable))) (release LPtable ;;; acquire lk)
  end.

Definition wakes (c : chan) (p : proc) : bool :=
  is_state SLEEPING p && bool_decide (p_chan p = Some c).

Definition wakeup1 (c : chan) : K unit :=
  modify (λ k, set_k_ptable
    ((λ p, if wakes c p then set_p_state RUNNABLE p else p) <$> k_ptable k) k).

Definition wakeup (c : chan) : K unit :=
  acquire LPtable ;;; wakeup1 c ;;; release LPtable.

(** The first slot whose [pid] field is [pid]. *)
Definition find_pid (k : kernel) (pid : Z) : option nat :=
  find_index (λ p, p_pid p =? pid) (k_ptable k).

Definition kill (pid : Z) : K Z :=
  acquire LPtable ;;;
  o <- gets (λ k, find_pid k pid) ;;
  match o with
  | None => release LPtable ;;; ret (-1)
  | Some i =>
      upd i (set_p_killed true) ;;;
      s <- gets (λ k, is_state SLEEPING (proc_at k i)) ;;
      when s (upd i (set_p_state RUNNABLE)) ;;;
      release LPtable ;;; ret 0
  end.

Definition getprio (pid : Z) : K Z :=
  acquire LPtable ;;;
  o <- gets (λ k, find_pid k pid) ;;
  match o with
  | None => release LPtable ;;; ret (-1)
  | Some i => release LPtable ;;; gets (λ k, p_prio (proc_at k i))
  end.

Definition setprio (pid prio : Z) : K Z :=
  acquire LPtable ;;;
  o <- gets (λ k, find_pid k pid) ;;
  match o with
  | None => release LPtable ;;; ret (-1)
  | Some i => upd i (set_p_prio prio) ;;; release LPtable ;;; ret 0
  end.
