(* ===== verification/Sched.v ===== *)
(** * The scheduler (src/proc.c: scheduler)

    One turn of the scheduler's endless loop: a pass over the table that runs
    every runnable process of high priority, and, when there was none, one
    process of normal priority, taken round-robin.  What a process does between
    being switched to and switching back is the parameter [run]. *)

From S2P Require Import Prelude Mem CString State Mmu Spinlock Kalloc Vm Proc.

Definition runnable_at (prio : Z) (p : proc) : bool :=
  (p_prio p =? prio) && is_state RUNNABLE p.

Section sched.
Context (run : nat → K unit).

(** The dispatch of process [i], as both loops of the scheduler do it. *)
Definition dispatch (i : nat) : K unit :=
  modify (set_k_cur (Some i)) ;;;
  switchuvm (Some i) ;;;
  upd i (set_p_state RUNNING) ;;;
  run i ;;;
  switchkvm ;;;
  modify (set_k_cur None).

(** The pass over the high-priority processes.  The result lists the processes
    dispatched, each with the state it was chosen in; [flagHI] is its
    non-emptiness. *)
Fixpoint hi_pass (slots : list nat) : K (list (nat * kernel)) :=
  match slots with
  | [] => ret []
  | i :: slots =>
      k <- get ;;
      if runnable_at HI_PRIO (proc_at k i) then
        dispatch i ;;; ran <- hi_pass slots ;; ret ((i, k) :: ran)
      else hi_pass slots
  end.

(** The search for one normal-priority process. *)
Fixpoint norm_pass (slots : list nat) : K (option (nat * kernel)) :=
  match slots with
  | [] => ret None
  | i :: slots =>
      k <- get ;;
      if runnable_at NORM_PRIO (proc_at k i) then dispatch i ;;; ret (Some (i, k))
      else norm_pass slots
  end.

(** Where the search starts: after [ultimo_proceso_ejecutado_norm]. *)
Definition norm_start (last : option nat) : nat := match last with Some p => S p | None => O end.

(** The part under [if(!flagHI)], with [last] for [ultimo_proceso_ejecutado_norm];
    [p] is the loop variable when the loop is left. *)
Definition norm_turn (last : option nat) : K (option nat * list (nat * kernel)) :=
  let start := norm_start last in
  o <- norm_pass (seq start (NPROC - start)) ;;
  let p := match o with Some (i, _) => i | None => Nat.max start NPROC end in
  let last := match o with Some (i, _) => Some i | None => last end in
  let last := if Nat.leb NPROC (p + 1) then None else last in
  ret (last, match o with Some d => [d] | None => [] end).

(** One turn of [for(;;)]. *)
Definition scheduler_turn (last : option nat) : K (option nat * list (nat * kernel)) :=
  acquire LPtable ;;;
  his <- hi_pass (seq 0 NPROC) ;;
  r <- (match his with _ :: _ => ret (last, his) | [] => norm_turn last end) ;;
  release LPtable ;;;
  ret r.

Fixpoint scheduler (turns : nat) (last : option nat) : K (option nat * list (nat * kernel)) :=
  match turns with
  | O => ret (last, [])
  | S n =>
      r <- scheduler_turn last ;;
      r' <- scheduler n r.1 ;;
      ret (r'.1, r.2 ++ r'.2)
  end.

(** ** What holds at every dispatch *)

(** A runnable process has a kernel stack and a page table. *)
Definition table_ok (k : kernel) : Prop :=
  length (k_ptable k) = NPROC ∧
  ∀ i p, k_ptable k !! i = Some p → p_state p = RUNNABLE → p_kstack p ≠ 0 ∧ p_pgdir p ≠ 0.

Definition locked_ok (k : kernel) : Prop := k_held k = [LPtable] ∧ table_ok k.

(** A process that has been switched to comes back through [sched], holding
    [ptable.lock] and nothing else, with the table well formed. *)
Definition returns : Prop :=
  ∀ i k, locked_ok k → ∃ k', run i k = Ret tt k' ∧ locked_ok k'.

Lemma proc_at_lookup k i p : k_ptable k !! i = Some p → proc_at k i = p.
Proof. unfold proc_at. intros H. by rewrite list_lookup_total_alt, H. Qed.

Lemma upd_proc_table i f k : k_ptable (upd_proc i f k) = alter f i (k_ptable k).
Proof. done. Qed.

Lemma lookup_upd i f k j :
  k_ptable (upd_proc i f k) !! j = if decide (i = j) then f <$> k_ptable k !! i else k_ptable k !! j.
Proof. rewrite upd_proc_table. apply list_lookup_alter. Qed.

Lemma locked_ok_running k i :
  locked_ok k → locked_ok (upd_proc i (set_p_state RUNNING) k).
Proof.
  intros [Hh [Hl Hr]]. split; [done|]. split; [by rewrite upd_proc_table, length_alter|].
  intros j p. rewrite lookup_upd. case_decide; [|apply Hr].
  by intros (q & _ & ->)%fmap_Some.
Qed.

Lemma switchuvm_eq k i p :
  k_ptable k !! i = Some p → p_kstack p ≠ 0 → p_pgdir p ≠ 0 →
  switchuvm (Some i) k = Ret tt (set_k_cr3 (V2P (p_pgdir p)) k).
Proof.
  intros Hi Hk Hp. unfold switchuvm. mrun. rewrite (proc_at_lookup _ _ _ Hi).
  rewrite (proj2 (Z.eqb_neq _ _) Hk), (proj2 (Z.eqb_neq _ _) Hp). done.
Qed.

(** The state a process starts to run in. *)
Definition switched_to (k : kernel) (i : nat) : kernel :=
  upd_proc i (set_p_state RUNNING)
    (set_k_cr3 (V2P (p_pgdir (proc_at k i))) (set_k_cur (Some i) k)).

Hypothesis run_returns : returns.

Lemma dispatch_ok k i :
  locked_ok k → (i < NPROC)%nat → p_state (proc_at k i) = RUNNABLE →
  ∃ k1 k', run i (switched_to k i) = Ret tt k1 ∧ dispatch i k = Ret tt k' ∧ locked_ok k' ∧
    k_ptable k' = k_ptable k1.
Proof using run_returns.
  intros Hok Hi Hs. pose proof Hok as [Hh [Hl Hr]].
  destruct (lookup_lt_is_Some_2 (k_ptable k) i) as [p Hp]; [lia|].
  rewrite (proc_at_lookup _ _ _ Hp) in Hs. destruct (Hr _ _ Hp Hs) as [Hk Hd].
  destruct (run_returns i (switched_to k i)) as (k1 & Hrun & Hok1).
  { apply locked_ok_running. split; [done|split; [done|exact Hr]]. }
  exists k1. eexists. split; [exact Hrun|]. unfold dispatch. mrun.
  mcall (switchuvm_eq (set_k_cur (Some i) k) i p Hp Hk Hd).
  unfold switched_to in Hrun. rewrite (proc_at_lookup _ _ _ Hp) in Hrun. unfold upd. mrun. mcall Hrun.
  unfold switchkvm. mrun. split; [reflexivity|]. split; [exact Hok1|done].
Qed.

Lemma runnable_at_spec prio p :
  runnable_at prio p = true ↔ p_prio p = prio ∧ p_state p = RUNNABLE.
Proof. unfold runnable_at, is_state. rewrite andb_true_iff, Z.eqb_eq, bool_decide_eq_true. done. Qed.

Definition dispatched (prio : Z) (d : nat * kernel) : Prop :=
  (d.1 < NPROC)%nat ∧ runnable_at prio (proc_at d.2 d.1) = true.

Lemma hi_pass_ok slots : ∀ k,
  locked_ok k → Forall (λ i, i < NPROC)%nat slots →
  ∃ ran k', hi_pass slots k = Ret ran k' ∧ locked_ok k' ∧ Forall (dispatched HI_PRIO) ran ∧
    match find_index (λ i, runnable_at HI_PRIO (proc_at k i)) slots with
    | Some n => ∃ ran', ran = (slots !!! n, k) :: ran'
    | None => ran = [] ∧ k' = k
    end.
Proof using run_returns.
  induction slots as [|i slots IH]; intros k Hok Hs; cbn [hi_pass find_index].
  { exists [], k. done. }
  apply Forall_cons in Hs as [Hi Hs]. mrun. destruct (runnable_at HI_PRIO (proc_at k i)) eqn:Hr.
  - pose proof (proj1 (runnable_at_spec _ _) Hr) as [_ Hst].
    destruct (dispatch_ok k i Hok Hi Hst) as (k1 & k2 & _ & Hd & Hok2 & _). mcall Hd.
    destruct (IH k2 Hok2 Hs) as (ran & k3 & Hrun & Hok3 & Hall & _). mcall Hrun.
    exists ((i, k) :: ran), k3. split_and!; [done|done|by constructor|by exists ran].
  - destruct (IH k Hok Hs) as (ran & k3 & Hrun & Hok3 & Hall & Hcase).
    exists ran, k3. split_and!; [done|done|done|].
    destruct (find_index _ slots) as [n|]; [|done]. exact Hcase.
Qed.

Lemma norm_pass_ok slots : ∀ k,
  locked_ok k → Forall (λ i, i < NPROC)%nat slots →
  ∃ o k', norm_pass slots k = Ret o k' ∧ locked_ok k' ∧
    match find_index (λ i, runnable_at NORM_PRIO (proc_at k i)) slots with
    | Some n => o = Some (slots !!! n, k) ∧
        ∃ k1, run (slots !!! n) (switched_to k (slots !!! n)) = Ret tt k1 ∧ k_ptable k' = k_ptable k1
    | None => o = None ∧ k' = k
    end.
Proof using run_returns.
  induction slots as [|i slots IH]; intros k Hok Hs; cbn [norm_pass find_index].
  { exists None, k. done. }
  apply Forall_cons in Hs as [Hi Hs]. mrun. destruct (runnable_at NORM_PRIO (proc_at k i)) eqn:Hr.
  - pose proof (proj1 (runnable_at_spec _ _) Hr) as [_ Hst].
    destruct (dispatch_ok k i Hok Hi Hst) as (k1 & k2 & Hrun & Hd & Hok2 & Ht). mcall Hd.
    exists (Some (i, k)), k2. split_and!; [done|done|done|by exists k1].
  - destruct (IH k Hok Hs) as (o & k3 & Hrun & Hok3 & Hcase). exists o, k3. split_and!; [done|done|].
    destruct (find_index _ slots) as [n|]; [|done]. exact Hcase.
Qed.

Definition has_hi (k : kernel) : Prop :=
  ∃ i, (i < NPROC)%nat ∧ runnable_at HI_PRIO (proc_at k i) = true.

(** The first runnable process of normal priority from slot [start] on. *)
Definition next_norm (k : kernel) (start : nat) : option nat :=
  (Nat.add start) <$> find_index (λ i, runnable_at NORM_PRIO (proc_at k i)) (seq start (NPROC - start)).

Definition last_ok (last : option nat) : Prop := (norm_start last < NPROC)%nat.

Definition idle_ok (k : kernel) : Prop := k_held k = [] ∧ table_ok k.

(** What one turn does, by cases on the processes that are runnable. *)
Definition turn_result (last : option nat) (k : kernel)
    (last' : option nat) (ran : list (nat * kernel)) (k' : kernel) : Prop :=
  let kl := set_k_held [LPtable] k in
  (has_hi k ∧ last' = last ∧ ran ≠ [] ∧ Forall (dispatched HI_PRIO) ran) ∨
  (¬ has_hi k ∧
   match next_norm k (norm_start last) with
   | Some i => ran = [(i, kl)] ∧ last' = (if Nat.leb NPROC (i + 1) then None else Some i) ∧
       ∃ k1, run i (switched_to kl i) = Ret tt k1 ∧ k_ptable k' = k_ptable k1
   | None => ran = [] ∧ last' = None ∧ k_ptable k' = k_ptable k
   end).

Lemma seq_lookup_find {P : nat → bool} start n m :
  find_index P (seq start n) = Some m → seq start n !!! m = (start + m)%nat ∧ (m < n)%nat.
Proof.
  intros H. pose proof (find_index_lt _ _ _ H) as Hlt. rewrite length_seq in Hlt. split; [|done].
  by rewrite lookup_total_seq_lt.
Qed.

Lemma find_hi_spec k :
  match find_index (λ i, runnable_at HI_PRIO (proc_at k i)) (seq 0 NPROC) with
  | Some _ => has_hi k | None => ¬ has_hi k end.
Proof.
  destruct (find_index _ _) as [n|] eqn:E.
  - apply find_index_Some in E as [(i & Hi & Hr) _]. exists i. split; [|done].
    apply lookup_seq in Hi. lia.
  - intros (i & Hi & Hr). rewrite find_index_None in E.
    specialize (E i i). rewrite lookup_seq_lt in E by done. specialize (E eq_refl). congruence.
Qed.

Lemma norm_turn_spec last k :
  locked_ok k → last_ok last →
  ∃ last' ran k', norm_turn last k = Ret (last', ran) k' ∧ locked_ok k' ∧ last_ok last' ∧
    match next_norm k (norm_start last) with
    | Some i => ran = [(i, k)] ∧ last' = (if Nat.leb NPROC (i + 1) then None else Some i) ∧
        ∃ k1, run i (switched_to k i) = Ret tt k1 ∧ k_ptable k' = k_ptable k1
    | None => ran = [] ∧ last' = None ∧ k' = k
    end.
Proof using run_returns.
  intros Hok Hlast. unfold norm_turn, next_norm, last_ok in *.
  destruct (norm_pass_ok (seq (norm_start last) (NPROC - norm_start last)) k)
    as (o & k2 & Hrun & Hok2 & Hcase); [done|apply Forall_seq; lia|]. mcall Hrun.
  destruct (find_index _ (seq (norm_start last) _)) as [m|] eqn:Em; cbn [fmap option_fmap option_map].
  - destruct (seq_lookup_find _ _ _ Em) as [Hm Hlt]. rewrite Hm in Hcase.
    destruct Hcase as [-> Hk3]. eexists _, _, k2. split; [done|]. split; [done|]. split; [|done].
    destruct (Nat.leb_spec NPROC (norm_start last + m + 1)); simpl; lia.
  - destruct Hcase as [-> ->]. rewrite (proj2 (Nat.leb_le _ _)) by lia.
    eexists None, [], k. split; [done|]. split; [done|]. split; [unfold NPROC; simpl; lia|done].
Qed.

Lemma scheduler_turn_spec last k :
  idle_ok k → last_ok last →
  ∃ last' ran k', scheduler_turn last k = Ret (last', ran) k' ∧ idle_ok k' ∧ last_ok last' ∧
    turn_result last k last' ran k'.
Proof using run_returns.
  intros [Hh Ht] Hlast. unfold scheduler_turn.
  assert (LPtable ∉ k_held k) as Hnot by (rewrite Hh; apply not_elem_of_nil).
  mcall (acquire_eq LPtable k Hnot). rewrite Hh. set (kl := set_k_held [LPtable] k).
  assert (locked_ok kl) as Hkl by done.
  destruct (hi_pass_ok (seq 0 NPROC) kl) as (ran & k1 & Hrun & Hok1 & Hall & Hcase);
    [done|apply Forall_seq; lia|].
  mcall Hrun. pose proof (find_hi_spec k) as Hhi. change (proc_at kl) with (proc_at k) in Hcase.
  destruct (find_index _ (seq 0 NPROC)) as [n|].
  - destruct Hcase as [ran' ->]. mrun. mcall (release_eq LPtable k1 [] (proj1 Hok1) (not_elem_of_nil _)).
    eexists last, _, _. split; [done|]. split; [split; [done|apply Hok1]|]. split; [done|]. by left.
  - destruct Hcase as [-> ->].
    destruct (norm_turn_spec last kl Hkl Hlast) as (last' & ran & k2 & Hrun2 & Hok2 & Hl2 & Hcase2).
    mcall Hrun2. mcall (release_eq LPtable k2 [] (proj1 Hok2) (not_elem_of_nil _)).
    eexists last', ran, _. split; [done|]. split; [split; [done|apply Hok2]|]. split; [done|]. right.
    split; [done|]. change (next_norm kl) with (next_norm k) in Hcase2.
    destruct (next_norm k (norm_start last)); [done|]. destruct Hcase2 as (-> & -> & ->). done.
Qed.

(** Process [i] waits for the CPU and no process of high priority wants it. *)
Definition waiting (i : nat) (k : kernel) : Prop :=
  runnable_at NORM_PRIO (proc_at k i) = true ∧ ¬ has_hi k.

(** Turns until the round-robin reaches slot [i] at the latest. *)
Definition turns_to (i start : nat) : nat :=
  if decide (start <= i)%nat then (i - start + 1)%nat else (NPROC - start + i + 2)%nat.

Lemma next_norm_before k i start :
  runnable_at NORM_PRIO (proc_at k i) = true → (start <= i < NPROC)%nat →
  ∃ j, next_norm k start = Some j ∧ (start <= j <= i)%nat.
Proof.
  intros Hr Hi. unfold next_norm. destruct (find_index _ _) as [m|] eqn:Em.
  - exists (start + m)%nat. split; [done|]. apply find_index_Some in Em as [_ Hmin].
    destruct (decide (start + m <= i)%nat); [lia|]. exfalso.
    specialize (Hmin (i - start)%nat i). rewrite lookup_seq_lt in Hmin by lia.
    specialize (Hmin ltac:(lia) ltac:(f_equal; lia)). congruence.
  - exfalso. rewrite find_index_None in Em. specialize (Em (i - start)%nat i).
    rewrite lookup_seq_lt in Em by lia. specialize (Em ltac:(f_equal; lia)). congruence.
Qed.

Lemma next_norm_range k start j : next_norm k start = Some j → (start <= j < NPROC)%nat.
Proof.
  unfold next_norm. intros (m & Hm & ->)%fmap_Some. apply find_index_lt in Hm. rewrite length_seq in Hm. lia.
Qed.

Lemma proc_at_total k k' i : k_ptable k = k_ptable k' → proc_at k i = proc_at k' i.
Proof. unfold proc_at. by intros ->. Qed.

Lemma waiting_table i k k' : k_ptable k = k_ptable k' → waiting i k → waiting i k'.
Proof.
  intros E [H1 H2]. split; [by rewrite <- (proc_at_total k k' i E)|].
  intros (j & Hj & Hr). apply H2. exists j. by rewrite (proc_at_total k k' j E).
Qed.

Lemma proc_at_switched k i j :
  proc_at (switched_to k i) j = if decide (i = j) then proc_at (switched_to k i) j else proc_at k j.
Proof.
  case_decide; [done|]. unfold proc_at, switched_to. rewrite !list_lookup_total_alt, lookup_upd.
  by rewrite decide_False.
Qed.

(** Starting another process leaves [i] waiting. *)
Lemma waiting_switched k i j : j ≠ i → (j < length (k_ptable k))%nat → waiting i k → waiting i (switched_to k j).
Proof.
  intros Hne Hlt [H1 H2]. split.
  - rewrite proc_at_switched. by rewrite decide_False.
  - intros (j' & Hj' & Hr). apply H2. exists j'. split; [done|]. rewrite proc_at_switched in Hr.
    case_decide; [subst|done]. apply runnable_at_spec in Hr as [_ Hr]. exfalso. revert Hr.
    unfold proc_at, switched_to. rewrite list_lookup_total_alt, lookup_upd, decide_True by done.
    destruct (lookup_lt_is_Some_2 (k_ptable k) j' Hlt) as [p Hp]. cbn [set_k_cr3 set_k_cur k_ptable].
    rewrite Hp. done.
Qed.

(** While [i] waits, the other processes do not make a process of high
    priority runnable and do not take [i] off the run queue. *)
Hypothesis others_keep : ∀ i j k k',
  j ≠ i → locked_ok k → waiting i k → run j k = Ret tt k' → waiting i k'.

Lemma not_starved (n : nat) : ∀ i last k,
  (i < NPROC)%nat → idle_ok k → last_ok last → waiting i k → (turns_to i (norm_start last) <= n)%nat →
  ∃ m last' ran k' ki, (m <= n)%nat ∧ scheduler m last k = Ret (last', ran) k' ∧ (i, ki) ∈ ran.
Proof using run_returns others_keep.
  induction n as [|n IH]; intros i last k Hi Hok Hlast Hw Hn.
  { unfold turns_to in Hn. case_decide; lia. }
  destruct (scheduler_turn_spec last k Hok Hlast) as (last1 & ran1 & k1 & Hrun & Hok1 & Hlast1 & Hcase).
  destruct Hcase as [(Hhi & _)|(Hhi & Hcase)]; [by destruct (proj2 Hw)|].
  assert ((∃ ki, (i, ki) ∈ ran1) ∨ (waiting i k1 ∧ turns_to i (norm_start last1) <= n)%nat) as [(ki & Hin)|[Hw1 Hn1]].
  { unfold last_ok in Hlast. destruct (next_norm k (norm_start last)) as [j|] eqn:Ej.
    - destruct Hcase as (-> & -> & k2 & Hrj & Ht). destruct (decide (j = i)) as [->|Hne]; [left; eexists; by left|right].
      pose proof (next_norm_range _ _ _ Ej) as Hjr. split.
      + apply (waiting_table i k2 k1); [done|]. eapply (others_keep i j); [done| | |exact Hrj].
        * apply locked_ok_running. split; [done|apply Hok].
        * apply waiting_switched; [done|pose proof (proj1 (proj2 Hok)); cbn [set_k_held k_ptable]; lia|by destruct Hw].
      + unfold turns_to in *. destruct (decide (norm_start last <= i)%nat).
        * destruct (next_norm_before k i (norm_start last) (proj1 Hw)) as (j' & Ej' & Hj'); [lia|].
          rewrite Ej in Ej'. injection Ej' as <-.
          rewrite (proj2 (Nat.leb_gt _ _)) by lia. cbn [norm_start]. rewrite decide_True by lia. lia.
        * destruct (Nat.leb_spec NPROC (j + 1)); cbn [norm_start]; case_decide; lia.
    - destruct Hcase as (-> & -> & Ht). right. split; [by apply (waiting_table i k k1)|].
      unfold turns_to in *. cbn [norm_start]. rewrite decide_True by lia.
      destruct (decide (norm_start last <= i)%nat); [|lia].
      destruct (next_norm_before k i (norm_start last) (proj1 Hw)) as (j' & Ej' & _); [lia|congruence]. }
  - exists 1%nat, last1, ran1, k1, ki. split; [lia|]. split; [|done]. cbn [scheduler]. mcall Hrun.
    cbn [fst snd]. by rewrite app_nil_r.
  - destruct (IH i last1 k1 Hi Hok1 Hlast1 Hw1 Hn1) as (m & last2 & ran2 & k2 & ki & Hm & Hrun2 & Hin).
    exists (S m), last2, (ran1 ++ ran2), k2, ki. split; [lia|]. split; [|apply elem_of_app; by right].
    cbn [scheduler]. mcall Hrun. cbn [fst snd]. mcall Hrun2. done.
Qed.

Lemma turns_to_bound i start : (i < NPROC)%nat → (start < NPROC)%nat → (turns_to i start <= NPROC + 1)%nat.
Proof. unfold turns_to. intros. case_decide; lia. Qed.

(** ** Invariants of the scheduler's loop *)

Section inv.
Context (P : kernel → Prop).
Context (P_dispatch : ∀ j k k', P k → dispatch j k = Ret tt k' → P k').
Context (P_held : ∀ h k, P k → P (set_k_held h k)).

Lemma hi_pass_inv slots : ∀ k ran k',
  P k → hi_pass slots k = Ret ran k' → P k' ∧ Forall (λ d, P d.2 ∧ runnable_at HI_PRIO (proc_at d.2 d.1) = true) ran.
Proof using P_dispatch.
  induction slots as [|i slots IH]; intros k ran k' HP; cbn [hi_pass].
  { by intros [= <- <-]. }
  mrun. destruct (runnable_at HI_PRIO (proc_at k i)) eqn:Hr; [|by apply IH].
  intros ([] & k1 & Hd & (ran' & k2 & Hp & [= <- <-])%bind_inv)%bind_inv.
  destruct (IH k1 ran' k2) as [HP2 Hall]; [by eapply P_dispatch|done|]. split; [done|by constructor].
Qed.

Lemma norm_pass_inv slots : ∀ k o k',
  P k → norm_pass slots k = Ret o k' → P k' ∧ match o with
    | Some d => P d.2 ∧ runnable_at NORM_PRIO (proc_at d.2 d.1) = true | None => True end.
Proof using P_dispatch.
  induction slots as [|i slots IH]; intros k o k' HP; cbn [norm_pass].
  { by intros [= <- <-]. }
  mrun. destruct (runnable_at NORM_PRIO (proc_at k i)) eqn:Hr; [|by apply IH].
  intros ([] & k1 & Hd & [= <- <-])%bind_inv. split; [by eapply P_dispatch|done].
Qed.

Definition chosen (d : nat * kernel) : Prop :=
  P d.2 ∧ (runnable_at HI_PRIO (proc_at d.2 d.1) = true ∨ runnable_at NORM_PRIO (proc_at d.2 d.1) = true).

Lemma scheduler_turn_inv last k r k' :
  P k → scheduler_turn last k = Ret r k' → P k' ∧ Forall chosen r.2.
Proof using P_dispatch P_held.
  intros HP ([] & k1 & [_ ->]%acquire_ret & (his & k2 & Hhi & (r' & k3 & Hr & ([] & k4 & [_ ->]%release_ret & [= <- <-])%bind_inv)%bind_inv)%bind_inv)%bind_inv.
  apply hi_pass_inv in Hhi as [HP2 Hall]; [|by apply P_held].
  assert (P k3 ∧ Forall chosen r'.2) as [HP3 Hr'].
  { destruct his as [|d his].
    - unfold norm_turn in Hr. apply bind_inv in Hr as (o & k5 & Ho & [= <- <-]).
      apply norm_pass_inv in Ho as [HP5 Ho]; [|done]. split; [done|]. destruct o; simpl; [|done].
      constructor; [|done]. split; [apply Ho|right; apply Ho].
    - injection Hr as <- <-. split; [done|]. eapply Forall_impl; [exact Hall|]. intros e [? ?]. split; [done|by left]. }
  split; [by apply P_held|done].
Qed.

Lemma scheduler_inv n : ∀ last k r k',
  P k → scheduler n last k = Ret r k' → P k' ∧ Forall chosen r.2.
Proof using P_dispatch P_held.
  induction n as [|n IH]; intros last k r k' HP; cbn [scheduler].
  { by intros [= <- <-]. }
  intros (r1 & k1 & H1 & (r2 & k2 & H2 & [= <- <-])%bind_inv)%bind_inv.
  apply scheduler_turn_inv in H1 as [HP1 Hc1]; [|done]. apply IH in H2 as [HP2 Hc2]; [|done].
  split; [done|]. by apply Forall_app.
Qed.
End inv.
End sched.

(** ** The scheduler's promises *)

Section correct.


(** C35: No runnable process of normal priority starves: as long as no process of
    high priority becomes runnable, it is run within [NPROC] + 1 turns, wherever
    the round-robin stands. *)
Theorem norm_not_starved run i last k :
  returns run →
  (∀ i j k k', j ≠ i → locked_ok k → waiting i k → run j k = Ret tt k' → waiting i k') →
  (i < NPROC)%nat → idle_ok k → last_ok last → waiting i k →
  ∃ m last' ran k' ki, (m <= NPROC + 1)%nat ∧ scheduler run m last k = Ret (last', ran) k' ∧ (i, ki) ∈ ran.
Proof.
  intros Hret Hkeep Hi Hok Hlast Hw.
  apply (not_starved run Hret Hkeep (NPROC + 1)); [done..|]. by apply turns_to_bound.
Qed.

Lemma dispatch_prio run i v j k k' :
  (∀ j k k', run j k = Ret tt k' → p_prio (proc_at k' i) = p_prio (proc_at k i)) →
  p_prio (proc_at k i) = v → dispatch run j k = Ret tt k' → p_prio (proc_at k' i) = v.
Proof.
  intros Hrun <- Hd. unfold dispatch, switchkvm, upd in Hd. apply bind_inv in Hd as ([] & k1 & [= <-] & Hd).
  apply bind_inv in Hd as ([] & k2 & Hsw & Hd). unfold switchuvm in Hsw.
  apply bind_inv in Hsw as (p & k3 & [= <- <-] & Hsw).
  destruct (p_kstack _ =? 0); [done|]. destruct (p_pgdir _ =? 0); [done|]. injection Hsw as <-.
  apply bind_inv in Hd as ([] & k4 & [= <-] & Hd). apply bind_inv in Hd as ([] & k5 & Hr & [= <-]).
  apply Hrun in Hr. unfold proc_at in *. cbn [set_k_cur set_k_cr3 k_ptable]. rewrite Hr.
  rewrite !list_lookup_total_alt, lookup_upd. cbn [set_k_cur set_k_cr3 k_ptable].
  case_decide; [subst|done]. by destruct (k_ptable k !! i).
Qed.

(** C39: A process whose priority is neither [NORM_PRIO] nor [HI_PRIO] is never
    run again, however many turns the scheduler takes: both loops skip it. *)
Theorem invalid_prio_never_runs run i n last k r k' :
  (∀ j k k', run j k = Ret tt k' → p_prio (proc_at k' i) = p_prio (proc_at k i)) →
  p_prio (proc_at k i) ≠ NORM_PRIO → p_prio (proc_at k i) ≠ HI_PRIO →
  scheduler run n last k = Ret r k' → ∀ ki, (i, ki) ∉ r.2.
Proof.
  intros Hrun Hn Hh Hs ki Hin.
  destruct (scheduler_inv run (λ q, p_prio (proc_at q i) = p_prio (proc_at k i))
    (λ j q q' Hq, dispatch_prio run i _ j q q' Hrun Hq) (λ _ _ H, H) n last k r k' eq_refl Hs) as [_ Hall].
  rewrite Forall_forall in Hall. destruct (Hall _ Hin) as [HP [Hr|Hr]];
    apply runnable_at_spec in Hr as [Hr _]; cbn [fst snd] in *; congruence.
Qed.

(** [setprio] takes any value for the priority. *)
Lemma setprio_unchecked pid v k i :
  LPtable ∉ k_held k → find_pid k pid = Some i →
  setprio pid v k = Ret 0 (upd_proc i (set_p_prio v) k).
Proof.
  intros Hl Hf. unfold setprio. mcall (acquire_eq LPtable k Hl).
  change (find_pid (set_k_held _ k) pid) with (find_pid k pid). rewrite Hf. unfold upd. mrun.
  rewrite (bind_eq _ _ _ _ _ (release_eq LPtable (upd_proc i (set_p_prio v) (set_k_held (LPtable :: k_held k) k))
    (k_held k) eq_refl Hl)).
  by destruct k.
Qed.
End correct.

(** ** Examples *)

(** Slots 3 and 5 hold runnable processes; one that is run goes to sleep. *)
Definition demo_proc : proc := set_p_state RUNNABLE (set_p_kstack 4096 (set_p_pgdir 8192 proc0)).
Definition demo_sched : kernel :=
  set_k_ptable (<[3%nat := demo_proc]> (<[5%nat := demo_proc]> (replicate NPROC proc0))) kernel0.
Definition demo_run (i : nat) : K unit := upd i (set_p_state SLEEPING).

Lemma demo_run_returns : returns demo_run.
Proof.
  intros i k [Hh [Hl Hr]]. eexists. split; [done|]. split; [done|].
  split; [by rewrite upd_proc_table, length_alter|]. intros j p. rewrite lookup_upd.
  case_decide; [|apply Hr]. by intros (q & _ & ->)%fmap_Some.
Qed.

Lemma demo_sched_ok : idle_ok demo_sched.
Proof.
  split; [done|]. split; [done|]. intros i p Hi.
  assert (Forall (λ p, p_state p = RUNNABLE → p_kstack p ≠ 0 ∧ p_pgdir p ≠ 0) (k_ptable demo_sched)) as H.
  { apply (bool_decide_unpack _). vm_compute. done. }
  rewrite Forall_lookup in H. by apply (H i).
Qed.


Lemma demo_run_keeps i j k k' :
  j ≠ i → locked_ok k → waiting i k → demo_run j k = Ret tt k' → waiting i k'.
Proof.
  intros Hne _ [H1 H2] [= <-].
  assert (∀ q, q ≠ j → proc_at (upd_proc j (set_p_state SLEEPING) k) q = proc_at k q) as Hq.
  { intros q Hq. unfold proc_at. by rewrite !list_lookup_total_alt, lookup_upd, decide_False. }
  split; [by rewrite Hq|]. intros (q & Hlt & Hr). destruct (decide (q = j)) as [->|].
  - apply runnable_at_spec in Hr as [_ Hr]. revert Hr. unfold proc_at.
    rewrite list_lookup_total_alt, lookup_upd, decide_True by done. by destruct (k_ptable k !! j).
  - apply H2. exists q. by rewrite <- Hq.
Qed.

Lemma norm_not_starved_witness :
  ∃ m last' ran k' ki, (m <= NPROC + 1)%nat ∧
    scheduler demo_run m (Some 4%nat) demo_sched = Ret (last', ran) k' ∧ (3%nat, ki) ∈ ran.
Proof.
  apply (norm_not_starved demo_run 3 (Some 4%nat) demo_sched).
  - apply demo_run_returns.
  - apply demo_run_keeps.
  - vm_compute. lia.
  - apply demo_sched_ok.
  - vm_compute. lia.
  - split; [done|]. intros (i & Hi & Hr). revert Hr. unfold proc_at. rewrite list_lookup_total_alt.
    assert (Forall (λ p, runnable_at HI_PRIO p = false) (k_ptable demo_sched)) as H.
    { apply (bool_decide_unpack _). vm_compute. done. }
    rewrite Forall_lookup in H. destruct (k_ptable demo_sched !! i) eqn:E; [|done].
    simpl. by rewrite (H _ _ E).
Defined.

Lemma invalid_prio_never_runs_witness :
  match scheduler demo_run 3 None (upd_proc 3 (set_p_prio 7) demo_sched) with
  | Ret r _ => ∀ ki, (3%nat, ki) ∉ r.2
  | _ => False
  end.
Proof.
  destruct (scheduler demo_run 3 None (upd_proc 3 (set_p_prio 7) demo_sched)) as [r k'| | |] eqn:E.
  2,3,4: vm_compute in E; discriminate E.
  apply (invalid_prio_never_runs demo_run 3 3 None (upd_proc 3 (set_p_prio 7) demo_sched) r k').
  - intros j k q [= <-]. unfold proc_at. rewrite !list_lookup_total_alt, lookup_upd.
    case_decide; [subst|done]. by destruct (k_ptable k !! 3%nat).
  - done.
  - done.
  - exact E.
Defined.
