(* ===== verification/SleepWake.v ===== *)
(** * No wakeup is lost (src/proc.c: sleep, wakeup)

    Any number of kernel threads share a condition under a lock [lk].  Some run
    [acquire(lk); while(!cond) sleep(chan, lk); cond = 0; release(lk)], others
    [acquire(lk); cond = 1; wakeup(chan); release(lk)], as the users of [sleep]
    do (sleep-locks, pipes, the log, the disk).  [sw_step] is one instruction of
    one of them, with [sleep] and [wakeup] taken apart down to their lock
    operations; [SwSlept] is a thread in the middle of [sched]. *)

From stdpp Require Import functions.
From S2P Require Import Prelude.

Inductive swpc :=
(* a thread that waits for the condition *)
| SwStart       (* before acquire(lk) *)
| SwTest        (* has lk, at while(!cond) *)
| SwSleep       (* has lk, in sleep before acquire(&ptable.lock) *)
| SwHasPtable   (* has both, before release(lk) *)
| SwMark        (* has ptable.lock, before p->state = SLEEPING *)
| SwSched       (* has ptable.lock, state is SLEEPING, before swtch *)
| SwSlept       (* off the CPU; the scheduler has released ptable.lock *)
| SwResumed     (* switched to again, has ptable.lock *)
| SwReacquire   (* before acquire(lk) at the end of sleep *)
| SwGot         (* the condition held; has lk *)
| SwDone
(* a thread that makes the condition true *)
| WkStart       (* before acquire(lk) *)
| WkSet         (* has lk, before cond = 1 *)
| WkWakeup      (* has lk, in wakeup before acquire(&ptable.lock) *)
| WkScan        (* has both, before the scan of wakeup1 *)
| WkScanned     (* has both, before release(&ptable.lock) *)
| WkUnlock      (* has lk, before release(lk) *)
| WkDone.

Record swstate := mkSw {
  sw_pc : nat → swpc;
  sw_sleeping : nat → bool;        (* p->state == SLEEPING && p->chan == chan *)
  sw_cond : bool;
  sw_lk : option nat;              (* holder of lk *)
  sw_pt : option nat               (* holder of ptable.lock *)
}.

Definition goto (t : nat) (q : swpc) (s : swstate) : swstate :=
  mkSw (<[t := q]> (sw_pc s)) (sw_sleeping s) (sw_cond s) (sw_lk s) (sw_pt s).
Definition with_lk (o : option nat) (s : swstate) : swstate :=
  mkSw (sw_pc s) (sw_sleeping s) (sw_cond s) o (sw_pt s).
Definition with_pt (o : option nat) (s : swstate) : swstate :=
  mkSw (sw_pc s) (sw_sleeping s) (sw_cond s) (sw_lk s) o.
Definition with_cond (b : bool) (s : swstate) : swstate :=
  mkSw (sw_pc s) (sw_sleeping s) b (sw_lk s) (sw_pt s).
Definition with_sleeping (f : nat → bool) (s : swstate) : swstate :=
  mkSw (sw_pc s) f (sw_cond s) (sw_lk s) (sw_pt s).

Inductive sw_step : swstate → swstate → Prop :=
| sw_lock s t q q' :
    sw_pc s t = q → (q, q') ∈ [(SwStart, SwTest); (SwReacquire, SwTest); (WkStart, WkSet)] →
    sw_lk s = None → sw_step s (goto t q' (with_lk (Some t) s))
| sw_test_false s t :
    sw_pc s t = SwTest → sw_cond s = false → sw_step s (goto t SwSleep s)
| sw_test_true s t :
    sw_pc s t = SwTest → sw_cond s = true → sw_step s (goto t SwGot (with_cond false s))
| sw_lock_pt s t q q' :
    sw_pc s t = q → (q, q') ∈ [(SwSleep, SwHasPtable); (WkWakeup, WkScan)] →
    sw_pt s = None → sw_step s (goto t q' (with_pt (Some t) s))
| sw_unlock s t q q' :
    sw_pc s t = q → (q, q') ∈ [(SwHasPtable, SwMark); (SwGot, SwDone); (WkUnlock, WkDone)] →
    sw_step s (goto t q' (with_lk None s))
| sw_mark s t :
    sw_pc s t = SwMark → sw_step s (goto t SwSched (with_sleeping (<[t := true]> (sw_sleeping s)) s))
| sw_unlock_pt s t q q' :
    sw_pc s t = q → (q, q') ∈ [(SwSched, SwSlept); (SwResumed, SwReacquire); (WkScanned, WkUnlock)] →
    sw_step s (goto t q' (with_pt None s))
| sw_resume s t :
    sw_pc s t = SwSlept → sw_sleeping s t = false → sw_pt s = None →
    sw_step s (goto t SwResumed (with_pt (Some t) s))
| sw_set s t :
    sw_pc s t = WkSet → sw_step s (goto t WkWakeup (with_cond true s))
| sw_scan s t :
    sw_pc s t = WkScan → sw_step s (goto t WkScanned (with_sleeping (λ _, false) s)).

(** Each thread is about to wait or about to wake; the condition may be either. *)
Definition sw_init (waits : nat → bool) (c : bool) : swstate :=
  mkSw (λ t, if waits t then SwStart else WkStart) (λ _, false) c None None.

Inductive sw_reachable (waits : nat → bool) (c : bool) : swstate → Prop :=
| sw_reach_init : sw_reachable waits c (sw_init waits c)
| sw_reach_step s s' : sw_reachable waits c s → sw_step s s' → sw_reachable waits c s'.

Definition has_lk (q : swpc) : bool :=
  match q with
  | SwTest | SwSleep | SwHasPtable | SwGot | WkSet | WkWakeup | WkScan | WkScanned | WkUnlock => true
  | _ => false
  end.
Definition has_pt (q : swpc) : bool :=
  match q with SwHasPtable | SwMark | SwSched | SwResumed | WkScan | WkScanned => true | _ => false end.
(** Past the test, before or in the sleep. *)
Definition committed (q : swpc) : bool :=
  match q with SwMark | SwSched | SwSlept => true | _ => false end.

Record sw_inv (s : swstate) : Prop := {
  sw_inv_lk t : has_lk (sw_pc s t) = true ↔ sw_lk s = Some t;
  sw_inv_pt t : has_pt (sw_pc s t) = true ↔ sw_pt s = Some t;
  sw_inv_false t : sw_pc s t = SwSleep ∨ sw_pc s t = SwHasPtable → sw_cond s = false;
  sw_inv_sleeping t : sw_sleeping s t = true → sw_pc s t = SwSched ∨ sw_pc s t = SwSlept;
  (* a waker is on its way *)
  sw_inv_waker t : committed (sw_pc s t) = true → (sw_pc s t = SwSlept → sw_sleeping s t = true) →
    sw_cond s = true → ∃ w, sw_pc s w = WkWakeup ∨ sw_pc s w = WkScan
}.

Lemma sw_init_inv waits c : sw_inv (sw_init waits c).
Proof. split; simpl; intros t; destruct (waits t); simpl; naive_solver. Qed.

Ltac sw_cases :=
  repeat match goal with
  | H : _ ∈ _ :: _ |- _ => apply elem_of_cons in H as [H|H]
  | H : _ ∈ [] |- _ => by apply elem_of_nil in H
  | H : (_, _) = (_, _) |- _ => injection H as -> ->
  end.

(** The thread that moved, and every other one. *)
Ltac sw_thread t t' :=
  destruct (decide (t = t')) as [<-|?];
  [rewrite ?fn_lookup_insert in *|rewrite ?fn_lookup_insert_ne in * by done].

(** Ownership of a lock is a function of the program counters. *)
Lemma own_inv (has : swpc → bool) (pc : nat → swpc) o t q o' :
  (∀ t, has (pc t) = true ↔ o = Some t) →
  o' = (if has q then Some t else if has (pc t) then None else o) →
  (has q = true → has (pc t) = true ∨ o = None) →
  ∀ t', has ((<[t := q]> pc) t') = true ↔ o' = Some t'.
Proof.
  intros H -> Hq t'. pose proof (H t) as Ht. pose proof (H t') as Ht'. sw_thread t t'.
  - destruct (has q); [done|]. split; [done|]. destruct (has (pc t)); [done|]. intros E.
    apply Ht in E. congruence.
  - rewrite Ht'. destruct (has q); [|destruct (has (pc t)); [|done]].
    + destruct (Hq eq_refl) as [E|E]; [apply Ht in E|]; rewrite E; split; congruence.
    + rewrite (proj1 Ht eq_refl). split; congruence.
Qed.

(** A waker in progress stays in progress when another thread moves. *)
Lemma waker_kept pc t q :
  pc t ≠ WkWakeup → pc t ≠ WkScan →
  (∃ w, pc w = WkWakeup ∨ pc w = WkScan) →
  ∃ w : nat, (<[t := q]> pc) w = WkWakeup ∨ (<[t := q]> pc) w = WkScan.
Proof.
  intros H1 H2 (w & Hw). exists w. rewrite fn_lookup_insert_ne; [done|].
  intros <-. tauto.
Qed.

(** A move of [t] from [q] to [q'] that changes neither the condition nor who
    sleeps. *)
Lemma sw_move s t q q' lk pt :
  sw_inv s → sw_pc s t = q →
  (q' = SwSleep ∨ q' = SwHasPtable → sw_cond s = false) →
  (sw_sleeping s t = true → q' = SwSched ∨ q' = SwSlept) →
  (committed q' = true → (q' = SwSlept → sw_sleeping s t = true) → committed q = true ∧ (q = SwSlept → sw_sleeping s t = true) ∨ sw_cond s = false) →
  (q = WkWakeup → q' = WkScan) → q ≠ WkScan →
  (∀ t', has_lk ((<[t := q']> (sw_pc s)) t') = true ↔ lk = Some t') →
  (∀ t', has_pt ((<[t := q']> (sw_pc s)) t') = true ↔ pt = Some t') →
  sw_inv (mkSw (<[t := q']> (sw_pc s)) (sw_sleeping s) (sw_cond s) lk pt).
Proof.
  intros [Hlk Hpt Hf Hsl Hw] Hq H1 H2 H3 H4 H5 Hlk' Hpt'.
  assert ((∃ w, sw_pc s w = WkWakeup ∨ sw_pc s w = WkScan) →
    ∃ w, (<[t := q']> (sw_pc s)) w = WkWakeup ∨ (<[t := q']> (sw_pc s)) w = WkScan) as Hkeep.
  { intros (w & Hww). destruct (decide (w = t)) as [->|].
    - exists t. rewrite fn_lookup_insert. right. apply H4. destruct Hww; congruence.
    - exists w. by rewrite fn_lookup_insert_ne by done. }
  split; simpl; [done|done|..]; intros t'; sw_thread t t'; [auto|apply Hf|auto|apply Hsl| |].
  - intros Hc Hs Hcond. apply Hkeep. destruct (H3 Hc Hs) as [[? ?]|?]; [|congruence].
    apply (Hw t); [by rewrite Hq|by rewrite Hq|done].
  - intros Hc Hs Hcond. apply Hkeep. by apply (Hw t').
Qed.

(** Ownership after the move at hand, and the side conditions of [sw_move]. *)
Ltac sw_own Hinv Hq :=
  pose proof (sw_inv_lk _ Hinv) as Hlk; pose proof (sw_inv_pt _ Hinv) as Hpt;
  match type of Hq with sw_pc ?s ?t = _ =>
    pose proof (Hlk t) as Hlt; pose proof (Hpt t) as Hpp; rewrite Hq in Hlt, Hpp; simpl in Hlt, Hpp
  end.
Ltac sw_owned Hq :=
  match goal with
  | Hlk : ∀ t, has_lk _ = true ↔ _ |- ∀ t', has_lk _ = true ↔ _ => apply (own_inv has_lk _ _ _ _ _ Hlk)
  | Hpt : ∀ t, has_pt _ = true ↔ _ |- ∀ t', has_pt _ = true ↔ _ => apply (own_inv has_pt _ _ _ _ _ Hpt)
  end; rewrite Hq; simpl; tauto.

Lemma sw_asleep_pc s t : sw_inv s → sw_pc s t ≠ SwSched → sw_pc s t ≠ SwSlept → sw_sleeping s t = false.
Proof.
  intros Hinv H1 H2. destruct (sw_sleeping s t) eqn:E; [|done].
  destruct (sw_inv_sleeping _ Hinv t E); congruence.
Qed.

Ltac sw_plain Hinv Hq :=
  match type of Hq with sw_pc ?s ?t = ?q =>
    sw_own Hinv Hq; apply (sw_move s t q); [done|done|..];
    [by intros [?|?]
    |first [by auto|intros Hs; rewrite (sw_asleep_pc s t) in Hs by (done || by rewrite Hq); done]
    |try done|done|done|sw_owned Hq|sw_owned Hq]
  end.

Lemma sw_lock_inv s t q q' :
  sw_inv s → sw_pc s t = q → (q, q') ∈ [(SwStart, SwTest); (SwReacquire, SwTest); (WkStart, WkSet)] →
  sw_lk s = None → sw_inv (goto t q' (with_lk (Some t) s)).
Proof.
  intros Hinv Hq Hqq Hn. sw_cases; unfold goto, with_lk; simpl; sw_plain Hinv Hq.
Qed.

Lemma sw_lock_pt_inv s t q q' :
  sw_inv s → sw_pc s t = q → (q, q') ∈ [(SwSleep, SwHasPtable); (WkWakeup, WkScan)] →
  sw_pt s = None → sw_inv (goto t q' (with_pt (Some t) s)).
Proof.
  intros Hinv Hq Hqq Hn. pose proof (sw_inv_false _ Hinv t) as Hf.
  sw_cases; unfold goto, with_pt; simpl; [|sw_plain Hinv Hq].
  sw_own Hinv Hq. apply (sw_move s t SwSleep); [done|done|auto| |done|done|done|sw_owned Hq|sw_owned Hq].
  intros Hs. by rewrite (sw_asleep_pc s t) in Hs by (done || by rewrite Hq).
Qed.

Lemma sw_unlock_inv s t q q' :
  sw_inv s → sw_pc s t = q → (q, q') ∈ [(SwHasPtable, SwMark); (SwGot, SwDone); (WkUnlock, WkDone)] →
  sw_inv (goto t q' (with_lk None s)).
Proof.
  intros Hinv Hq Hqq. pose proof (sw_inv_false _ Hinv t) as Hf.
  sw_cases; unfold goto, with_lk; simpl; [|sw_plain Hinv Hq|sw_plain Hinv Hq].
  sw_own Hinv Hq. apply (sw_move s t SwHasPtable); [done|done|by intros [?|?]| |auto|done|done|sw_owned Hq|sw_owned Hq].
  intros Hs. by rewrite (sw_asleep_pc s t) in Hs by (done || by rewrite Hq).
Qed.

Lemma sw_unlock_pt_inv s t q q' :
  sw_inv s → sw_pc s t = q →
  (q, q') ∈ [(SwSched, SwSlept); (SwResumed, SwReacquire); (WkScanned, WkUnlock)] →
  sw_inv (goto t q' (with_pt None s)).
Proof.
  intros Hinv Hq Hqq. sw_cases; unfold goto, with_pt; simpl; [|sw_plain Hinv Hq|sw_plain Hinv Hq].
  sw_own Hinv Hq.
  apply (sw_move s t SwSched); [done|done|by intros [?|?]|auto|by left|done|done|sw_owned Hq|sw_owned Hq].
Qed.

Lemma sw_resume_inv s t :
  sw_inv s → sw_pc s t = SwSlept → sw_sleeping s t = false → sw_pt s = None →
  sw_inv (goto t SwResumed (with_pt (Some t) s)).
Proof.
  intros Hinv Hq Hns Hn. unfold goto, with_pt. simpl. sw_own Hinv Hq.
  apply (sw_move s t SwSlept); [done|done|by intros [?|?]|congruence|done|done|done|sw_owned Hq|sw_owned Hq].
Qed.

Lemma sw_test_false_inv s t :
  sw_inv s → sw_pc s t = SwTest → sw_cond s = false → sw_inv (goto t SwSleep s).
Proof. intros Hinv Hq Hc. unfold goto. sw_plain Hinv Hq. Qed.

(** The condition is consumed: nobody can be owed a wakeup. *)
Lemma sw_test_true_inv s t :
  sw_inv s → sw_pc s t = SwTest → sw_inv (goto t SwGot (with_cond false s)).
Proof.
  intros Hinv Hq. unfold goto, with_cond. simpl. sw_own Hinv Hq.
  split; simpl; [sw_owned Hq|sw_owned Hq|done| |done].
  intros t' Hs. destruct (decide (t = t')) as [<-|]; [|rewrite fn_lookup_insert_ne by done; by apply Hinv].
  by rewrite (sw_asleep_pc s t) in Hs by (done || by rewrite Hq).
Qed.

Lemma sw_mark_inv s t :
  sw_inv s → sw_pc s t = SwMark →
  sw_inv (goto t SwSched (with_sleeping (<[t := true]> (sw_sleeping s)) s)).
Proof.
  intros Hinv Hq. unfold goto, with_sleeping. simpl. sw_own Hinv Hq.
  split; simpl; [sw_owned Hq|sw_owned Hq|..]; intros t'; sw_thread t t';
    [by intros [?|?]|apply Hinv|by left|apply Hinv| |].
  - intros _ _ Hc. apply waker_kept; [by rewrite Hq|by rewrite Hq|].
    apply (sw_inv_waker _ Hinv t); [by rewrite Hq|by rewrite Hq|done].
  - intros H1 H2 Hc. apply waker_kept; [by rewrite Hq|by rewrite Hq|]. by apply (sw_inv_waker _ Hinv t').
Qed.

(** Setting the condition: the setter itself is the waker on its way. *)
Lemma sw_set_inv s t :
  sw_inv s → sw_pc s t = WkSet → sw_inv (goto t WkWakeup (with_cond true s)).
Proof.
  intros Hinv Hq. unfold goto, with_cond. simpl. sw_own Hinv Hq.
  split; simpl; [sw_owned Hq|sw_owned Hq|..]; intros t'; [| |intros _ _ _; exists t; rewrite fn_lookup_insert; by left];
    sw_thread t t'; [by intros [?|?]| | |apply Hinv].
  - intros Hor. assert (sw_lk s = Some t') as E by (apply Hlk; by destruct Hor as [->| ->]).
    rewrite (proj1 Hlt eq_refl) in E. congruence.
  - intros Hs. by rewrite (sw_asleep_pc s t) in Hs by (done || by rewrite Hq).
Qed.

(** The scan: with [ptable.lock] held nobody is between the test and the sleep. *)
Lemma sw_scan_inv s t :
  sw_inv s → sw_pc s t = WkScan → sw_inv (goto t WkScanned (with_sleeping (λ _, false) s)).
Proof.
  intros Hinv Hq. unfold goto, with_sleeping. simpl. sw_own Hinv Hq.
  split; simpl; [sw_owned Hq|sw_owned Hq|..]; intros t'; [|done|]; sw_thread t t';
    [by intros [?|?]|apply Hinv|done|].
  intros Hc Hs _. exfalso.
  assert (has_pt (sw_pc s t') = true) as Hp.
  { destruct (sw_pc s t') eqn:E; try done. by specialize (Hs eq_refl). }
  apply Hpt in Hp. rewrite (proj1 Hpp eq_refl) in Hp. congruence.
Qed.

Lemma sw_step_inv s s' : sw_inv s → sw_step s s' → sw_inv s'.
Proof.
  intros Hinv Hstep. destruct Hstep;
    eauto using sw_lock_inv, sw_lock_pt_inv, sw_unlock_inv, sw_unlock_pt_inv, sw_resume_inv,
      sw_test_false_inv, sw_test_true_inv, sw_mark_inv, sw_set_inv, sw_scan_inv.
Qed.

Lemma sw_reachable_inv waits c s : sw_reachable waits c s → sw_inv s.
Proof. induction 1; [apply sw_init_inv|by eapply sw_step_inv]. Qed.

(** C36: No wakeup is lost: in every interleaving, when the condition holds, no
    thread is asleep on the channel unless some [wakeup] that will find it is
    under way; a thread between releasing [lk] and being marked [SLEEPING] is
    covered too, because it has [ptable.lock]. *)
Theorem no_lost_wakeup waits c s :
  sw_reachable waits c s → sw_cond s = true →
  (∀ w, sw_pc s w ≠ WkWakeup ∧ sw_pc s w ≠ WkScan) →
  ∀ t, sw_sleeping s t = false ∧ sw_pc s t ≠ SwMark ∧ sw_pc s t ≠ SwSched.
Proof.
  intros Hr Hc Hno t. pose proof (sw_reachable_inv _ _ _ Hr) as Hinv.
  assert (committed (sw_pc s t) = true → (sw_pc s t = SwSlept → sw_sleeping s t = true) → False) as Hx.
  { intros H1 H2. destruct (sw_inv_waker _ Hinv t H1 H2 Hc) as (w & Hw). specialize (Hno w). tauto. }
  split_and!.
  - destruct (sw_sleeping s t) eqn:E; [|done]. exfalso.
    destruct (sw_inv_sleeping _ Hinv t E) as [E'|E']; apply Hx; by rewrite ?E'.
  - intros E. apply Hx; by rewrite ?E.
  - intros E. apply Hx; by rewrite ?E.
Qed.

(** ** Example *)

(** Thread 0 has gone to sleep; thread 1 has set the condition and scanned. *)
Definition demo_sw : swstate :=
  let s := sw_init (λ t, Nat.eqb t 0) false in
  let s := goto 0 SwTest (with_lk (Some 0%nat) s) in
  let s := goto 0 SwSleep s in
  let s := goto 0 SwHasPtable (with_pt (Some 0%nat) s) in
  let s := goto 0 SwMark (with_lk None s) in
  let s := goto 0 SwSched (with_sleeping (<[0%nat := true]> (sw_sleeping s)) s) in
  let s := goto 0 SwSlept (with_pt None s) in
  let s := goto 1 WkSet (with_lk (Some 1%nat) s) in
  let s := goto 1 WkWakeup (with_cond true s) in
  let s := goto 1 WkScan (with_pt (Some 1%nat) s) in
  goto 1 WkScanned (with_sleeping (λ _, false) s).

Lemma demo_sw_reachable : sw_reachable (λ t, Nat.eqb t 0) false demo_sw.
Proof.
  unfold demo_sw.
  eapply sw_reach_step; [|by apply sw_scan].
  eapply sw_reach_step; [|eapply sw_lock_pt; [done| |done]; by right; left].
  eapply sw_reach_step; [|by apply sw_set].
  eapply sw_reach_step; [|eapply sw_lock; [done| |done]; by right; right; left].
  eapply sw_reach_step; [|eapply sw_unlock_pt; [done|]; by left].
  eapply sw_reach_step; [|by apply sw_mark].
  eapply sw_reach_step; [|eapply sw_unlock; [done|]; by left].
  eapply sw_reach_step; [|eapply sw_lock_pt; [done| |done]; by left].
  eapply sw_reach_step; [|by apply sw_test_false].
  eapply sw_reach_step; [|eapply sw_lock; [done| |done]; by left].
  apply sw_reach_init.
Qed.

Lemma no_lost_wakeup_witness :
  sw_sleeping demo_sw 0 = false ∧ sw_pc demo_sw 0 ≠ SwMark ∧ sw_pc demo_sw 0 ≠ SwSched.
Proof.
  apply (no_lost_wakeup (λ t, Nat.eqb t 0) false demo_sw).
  - apply demo_sw_reachable.
  - done.
  - intros w. unfold demo_sw. simpl. destruct (decide (1%nat = w)) as [<-|]; [by rewrite fn_lookup_insert|].
    rewrite !fn_lookup_insert_ne by done. destruct (decide (0%nat = w)) as [<-|]; [by rewrite fn_lookup_insert|].
    rewrite !fn_lookup_insert_ne by done. by destruct w as [|[|w]].
Defined.
