(* ===== verification/Sleeplock.v ===== *)
(** * Sleep-locks (src/sleeplock.c) *)

From S2P Require Import Prelude Mem CString State Mmu Spinlock Kalloc Vm Proc.

(** The sleep-locks there are, with their inner spinlock and sleep channel. *)
Inductive slref := SlBuf (i : nat) | SlInode (i : nat).

Definition sl_spin (r : slref) : lock := match r with SlBuf i => LBuf i | SlInode i => LInode i end.
Definition sl_chan (r : slref) : chan := match r with SlBuf i => CBufLock i | SlInode i => CInodeLock i end.

Definition sl_at (k : kernel) (r : slref) : sleeplock :=
  match r with SlBuf i => b_lock (buf_at k i) | SlInode i => i_lock (inode_at k i) end.

Definition sl_set (r : slref) (v : sleeplock) (k : kernel) : kernel :=
  match r with
  | SlBuf i => upd_buf i (set_b_lock v) k
  | SlInode i => upd_inode i (set_i_lock v) k
  end.

Definition initsleeplock (r : slref) : K unit := modify (sl_set r (mkSleeplock false 0)).

(** [myproc()->pid] *)
Definition mypid : K Z := p <- curproc ;; gets (λ k, p_pid (proc_at k p)).

(** [while (lk->locked) sleep(lk, &lk->lk);] *)
Fixpoint sleep_while_locked (fuel : nat) (r : slref) : K unit :=
  b <- gets (λ k, lk_locked (sl_at k r)) ;;
  if b : bool then
    match fuel with
    | O => λ _, Spin
    | S fuel => sleep (sl_chan r) (sl_spin r) ;;; sleep_while_locked fuel r
    end
  else ret tt.

Definition acquiresleep `{Wakeups} (r : slref) : K unit :=
  acquire (sl_spin r) ;;;
  sleep_while_locked wakeups r ;;;
  pid <- mypid ;;
  modify (sl_set r (mkSleeplock true pid)) ;;;
  release (sl_spin r).

Definition releasesleep (r : slref) : K unit :=
  acquire (sl_spin r) ;;;
  modify (sl_set r (mkSleeplock false 0)) ;;;
  wakeup (sl_chan r) ;;;
  release (sl_spin r).

Definition holdingsleep (r : slref) : K bool :=
  acquire (sl_spin r) ;;;
  l <- gets (λ k, sl_at k r) ;;
  pid <- mypid ;;
  release (sl_spin r) ;;;
  ret (lk_locked l && (lk_pid l =? pid)).

(** ** Uncontended use *)

(** The process [p] with pid [pid] runs and holds no spinlock. *)
Definition running (k : kernel) (pid : Z) : Prop :=
  k_held k = [] ∧ ∃ p, k_cur k = Some p ∧ p_pid (proc_at k p) = pid.

Lemma sl_spin_not_ptable r : sl_spin r ≠ LPtable.
Proof. by destruct r. Qed.

Lemma sl_at_held k h r : sl_at (set_k_held h k) r = sl_at k r.
Proof. by destruct r. Qed.

Lemma mypid_eq k p : k_cur k = Some p → mypid k = Ret (p_pid (proc_at k p)) k.
Proof. intros H. unfold mypid, curproc, myproc, bind, gets. simpl. by rewrite H. Qed.

Lemma set_held_sl_set h r v k : set_k_held h (sl_set r v k) = sl_set r v (set_k_held h k).
Proof. by destruct r. Qed.

Lemma set_held_id k : set_k_held (k_held k) k = k.
Proof. by destruct k. Qed.

Lemma held_sl_set r v k : k_held (sl_set r v k) = k_held k.
Proof. by destruct r. Qed.
Lemma cur_sl_set r v k : k_cur (sl_set r v k) = k_cur k.
Proof. by destruct r. Qed.
Lemma ptable_sl_set r v k : k_ptable (sl_set r v k) = k_ptable k.
Proof. by destruct r. Qed.

Lemma acquiresleep_eq `{Wakeups} k pid r :
  running k pid → lk_locked (sl_at k r) = false →
  acquiresleep r k = Ret tt (sl_set r (mkSleeplock true pid) k).
Proof.
  intros (Hh & p & Hp & <-) Hl. unfold acquiresleep.
  mcall (acquire_eq (sl_spin r) k ltac:(rewrite Hh; apply not_elem_of_nil)). rewrite Hh.
  rewrite (bind_eq _ _ _ tt (set_k_held [sl_spin r] k)).
  2: { destruct wakeups; cbn [sleep_while_locked]; mrun; by rewrite sl_at_held, Hl. }
  mcall (mypid_eq (set_k_held [sl_spin r] k) p Hp).
  rewrite (release_eq (sl_spin r) _ []); [|by rewrite held_sl_set|apply not_elem_of_nil].
  rewrite set_held_sl_set. f_equal. f_equal. rewrite <- Hh. by destruct k.
Qed.

Lemma holdingsleep_eq k pid r :
  running k pid → holdingsleep r k = Ret (lk_locked (sl_at k r) && (lk_pid (sl_at k r) =? pid)) k.
Proof.
  intros (Hh & p & Hp & <-). unfold holdingsleep.
  mcall (acquire_eq (sl_spin r) k ltac:(rewrite Hh; apply not_elem_of_nil)). rewrite Hh, sl_at_held.
  mcall (mypid_eq (set_k_held [sl_spin r] k) p Hp).
  mcall (release_eq (sl_spin r) (set_k_held [sl_spin r] k) [] eq_refl (not_elem_of_nil _)).
  unfold ret. f_equal. rewrite <- Hh. by destruct k.
Qed.

(** The table after [wakeup(c)]. *)
Definition woken (c : chan) (k : kernel) : kernel :=
  set_k_ptable ((λ p, if wakes c p then set_p_state RUNNABLE p else p) <$> k_ptable k) k.

Lemma wakeup_eq c k : LPtable ∉ k_held k → wakeup c k = Ret tt (woken c k).
Proof.
  intros H. unfold wakeup, wakeup1. mcall (acquire_eq LPtable k H).
  rewrite (release_eq LPtable _ (k_held k)); [by destruct k|done|done].
Qed.

Lemma releasesleep_eq k r :
  k_held k = [] → releasesleep r k = Ret tt (woken (sl_chan r) (sl_set r (mkSleeplock false 0) k)).
Proof.
  intros Hh. unfold releasesleep.
  mcall (acquire_eq (sl_spin r) k ltac:(rewrite Hh; apply not_elem_of_nil)). rewrite Hh.
  assert (LPtable ∉ k_held (sl_set r (mkSleeplock false 0) (set_k_held [sl_spin r] k))) as Hn.
  { rewrite held_sl_set. cbn [set_k_held k_held]. rewrite list_elem_of_singleton. by destruct r. }
  mcall (wakeup_eq (sl_chan r) _ Hn).
  rewrite (release_eq (sl_spin r) _ []); [|cbn [woken set_k_ptable k_held]; by rewrite held_sl_set|apply not_elem_of_nil].
  f_equal. unfold woken. destruct r, k; simpl in *; by subst.
Qed.

(** ** Contended use *)

Definition sl_valid (r : slref) (k : kernel) : Prop :=
  match r with SlBuf i => (i < length (k_bcache k))%nat | SlInode i => (i < length (k_icache k))%nat end.

Lemma sl_at_set r v k : sl_valid r k → sl_at (sl_set r v k) r = v.
Proof.
  destruct r as [i|i]; simpl; intros Hi; unfold buf_at, inode_at, upd_buf, upd_inode; simpl;
    rewrite list_lookup_total_alter_eq by done; done.
Qed.

(** The thread of process [p] is on the CPU with the spinlocks [h]. *)
Record on_cpu (r : slref) (p : nat) (pid : Z) (h : list lock) (k : kernel) : Prop := {
  oc_cur : k_cur k = Some p;
  oc_held : k_held k = h;
  oc_slot : (p < length (k_ptable k))%nat;
  oc_pid : p_pid (proc_at k p) = pid;
  oc_valid : sl_valid r k
}.

(** What the scheduler and the other threads may do while [p] is off the CPU:
    anything but change its pid; [p] comes back holding [ptable.lock] only. *)
Definition resumes (r : slref) (p : nat) (pid : Z) (_ k' : kernel) : Prop := on_cpu r p pid [LPtable] k'.

Lemma on_cpu_upd r p pid h i f k :
  on_cpu r p pid h k → (∀ q, p_pid (f q) = p_pid q) → on_cpu r p pid h (upd_proc i f k).
Proof.
  intros [? ? ? Hpid ?] Hf. split; [done|done|by cbn; rewrite length_alter| |by destruct r].
  unfold proc_at, upd_proc in *. cbn. destruct (decide (i = p)) as [->|].
  - by rewrite list_lookup_total_alter_eq, Hf by done.
  - by rewrite list_lookup_total_alter_ne by done.
Qed.

Lemma on_cpu_held r p pid h h' k : on_cpu r p pid h k → on_cpu r p pid h' (set_k_held h' k).
Proof. intros [? ? ? ? ?]. split; [done|done|done|done|by destruct r]. Qed.

Lemma proc_at_upd_same i f k :
  (i < length (k_ptable k))%nat → proc_at (upd_proc i f k) i = f (proc_at k i).
Proof. intros. unfold proc_at, upd_proc. cbn. by rewrite list_lookup_total_alter_eq. Qed.

Lemma sched_post r p pid k :
  on_cpu r p pid [LPtable] k → p_state (proc_at k p) ≠ RUNNING →
  post (resumes r p pid) (λ _ k', on_cpu r p pid [LPtable] k') (sched k).
Proof.
  intros [Hc Hh Hs Hp Hv] Hst. unfold sched.
  rewrite (bind_eq _ _ _ p k) by (unfold curproc, myproc; mrun; by rewrite Hc). unfold holding. mrun.
  rewrite Hh, bool_decide_true by (by left). cbn [negb]. mrun. rewrite Hh. cbn [negb length Nat.eqb]. mrun. unfold is_state.
  rewrite bool_decide_false by done. constructor. intros k' Hk'. by constructor.
Qed.

(** [sleep] gives the lock up and comes back with it. *)
Lemma sleep_post r p pid c k :
  on_cpu r p pid [sl_spin r] k →
  post (resumes r p pid) (λ _ k', on_cpu r p pid [sl_spin r] k') (sleep c (sl_spin r) k).
Proof.
  intros Hoc. unfold sleep. rewrite (bind_eq _ _ _ (Some p) k) by (unfold myproc, gets; by rewrite (oc_cur _ _ _ _ _ Hoc)).
  rewrite bool_decide_false by (apply sl_spin_not_ptable). cbn [negb when].
  assert (LPtable ∉ [sl_spin r]) as Hn by (rewrite list_elem_of_singleton; by destruct r).
  assert (sl_spin r ∉ [LPtable]) as Hn' by (rewrite list_elem_of_singleton; by destruct r).
  rewrite (bind_eq _ _ _ tt (set_k_held [LPtable] k)).
  2: { mcall (acquire_eq LPtable k ltac:(by rewrite (oc_held _ _ _ _ _ Hoc))). rewrite (oc_held _ _ _ _ _ Hoc).
       rewrite (release_any (sl_spin r)) by (right; by left). cbn [k_held set_k_held].
       unfold remove_lock. rewrite filter_cons_True by (intros E; by apply (sl_spin_not_ptable r)).
       rewrite filter_cons_False by (intros H; by apply H). done. }
  unfold upd. mrun. apply (on_cpu_held _ _ _ _ [LPtable]) in Hoc.
  eapply post_bind.
  { apply (sched_post r p pid).
    - apply on_cpu_upd; [|done]. by apply on_cpu_upd.
    - rewrite proc_at_upd_same; [done|]. cbn [upd_proc set_k_ptable k_ptable]. rewrite length_alter. apply Hoc. }
  intros [] k' Hk'. mrun. apply (on_cpu_upd _ _ _ _ p (set_p_chan None)) in Hk'; [|done].
  rewrite (bind_eq _ _ _ tt (set_k_held [] (upd_proc p (set_p_chan None) k'))).
  2: { rewrite (release_eq LPtable _ []); [done|apply Hk'|apply not_elem_of_nil]. }
  rewrite acquire_eq by apply not_elem_of_nil. constructor.
  exact (on_cpu_held r p pid [LPtable] [sl_spin r] _ Hk').
Qed.

Lemma sleep_while_locked_post n r p pid : ∀ k,
  on_cpu r p pid [sl_spin r] k →
  post (resumes r p pid) (λ _ k', on_cpu r p pid [sl_spin r] k' ∧ lk_locked (sl_at k' r) = false)
    (sleep_while_locked n r k).
Proof.
  induction n as [|n IH]; intros k Hoc; cbn [sleep_while_locked]; mrun;
    destruct (lk_locked (sl_at k r)) eqn:El; [constructor|by constructor| |by constructor].
  eapply post_bind; [by apply sleep_post|]. intros u k' Hk'. by apply IH.
Qed.

(** Mutual exclusion of sleep-locks.  However often the thread sleeps and
    whatever the others do meanwhile, [acquiresleep] passes its loop only when it
    finds the lock free while it has the lock's spinlock, and when it returns the
    lock is held in the name of the calling process, with no spinlock left. *)
Theorem acquiresleep_correct `{Wakeups} r p pid k :
  on_cpu r p pid [] k →
  (∀ k1, on_cpu r p pid [sl_spin r] k1 →
     post (resumes r p pid) (λ _ k', on_cpu r p pid [sl_spin r] k' ∧ lk_locked (sl_at k' r) = false)
       (sleep_while_locked wakeups r k1)) ∧
  post (resumes r p pid) (λ _ k', on_cpu r p pid [] k' ∧ sl_at k' r = mkSleeplock true pid)
    (acquiresleep r k).
Proof.
  intros Hoc. split; [intros; by apply sleep_while_locked_post|]. unfold acquiresleep.
  mcall (acquire_eq (sl_spin r) k ltac:(rewrite (oc_held _ _ _ _ _ Hoc); apply not_elem_of_nil)).
  rewrite (oc_held _ _ _ _ _ Hoc). eapply post_bind.
  { eapply sleep_while_locked_post, on_cpu_held, Hoc. }
  intros u k' [[Hc Hh Hs Hp Hv] _]. mcall (mypid_eq k' p Hc). rewrite Hp.
  rewrite (release_eq (sl_spin r) _ []); [|by rewrite held_sl_set|apply not_elem_of_nil].
  constructor. rewrite sl_at_held, sl_at_set by done. split; [|done]. rewrite set_held_sl_set.
  split; [by rewrite cur_sl_set|by rewrite held_sl_set|by rewrite ptable_sl_set
         |unfold proc_at; by rewrite ptable_sl_set|].
  by destruct r; simpl in *; rewrite ?length_alter.
Qed.

(** ** Example *)

Definition demo_locked : kernel :=
  set_k_cur (Some 2%nat) (upd_proc 2 (set_p_pid 7)
    (upd_buf 4 (set_b_lock (mkSleeplock true 3)) kernel0)).

(** Process 7 wants the buffer that process 3 has locked. *)
Lemma acquiresleep_correct_witness :
  (∀ k1, on_cpu (SlBuf 4) 2 7 [LBuf 4] k1 →
     post (resumes (SlBuf 4) 2 7) (λ _ k', on_cpu (SlBuf 4) 2 7 [LBuf 4] k' ∧ lk_locked (sl_at k' (SlBuf 4)) = false)
       (sleep_while_locked 3 (SlBuf 4) k1)) ∧
  post (resumes (SlBuf 4) 2 7) (λ _ k', on_cpu (SlBuf 4) 2 7 [] k' ∧ sl_at k' (SlBuf 4) = mkSleeplock true 7)
    (acquiresleep (H := 3%nat) (SlBuf 4) demo_locked).
Proof.
  apply (acquiresleep_correct (H := 3%nat) (SlBuf 4) 2 7 demo_locked). split; vm_compute; try done; lia.
Defined.
