(* ===== verification/Disk.v ===== *)
(** * The disk driver's interface and the memory disk (src/memide.c)

    The buffer cache reaches the disk through one routine, [iderw].  The class
    [DiskDriver] is that routine, [DiskDriverOk] what the cache relies on; the
    memory disk of src/memide.c is an instance.  (The interrupt-driven driver of
    src/ide.c is treated in Ide.v.) *)

From S2P Require Import Prelude Mem CString State Mmu Spinlock Kalloc Vm Proc Sleeplock.

Class DiskDriver := iderw : nat → K unit.

Definition zero_block : list Z := replicate BSIZE 0.
Definition disk_block (d : disk) (b : Z) : list Z := default zero_block (d_blocks d !! b).
Definition write_block (b : Z) (data : list Z) (d : disk) : disk :=
  mkDisk (d_size d) (<[b := data]> (d_blocks d)) (d_trace d ++ [(b, data)]).

Definition valid (b : buf) : bool := negb (Z.land (b_flags b) B_VALID =? 0).
Definition dirty (b : buf) : bool := negb (Z.land (b_flags b) B_DIRTY =? 0).

Definition set_flags (i : nat) (f : Z → Z) : K unit :=
  modify (upd_buf i (λ b, set_b_flags (f (b_flags b)) b)).

Definition memide_iderw (i : nat) : K unit :=
  h <- holdingsleep (SlBuf i) ;;
  if negb h then panic "iderw: buf not locked"
  else
    b <- gets (λ k, buf_at k i) ;;
    if Z.land (b_flags b) (Z.lor B_VALID B_DIRTY) =? B_VALID then panic "iderw: nothing to do"
    else if negb (b_dev b =? 1) then panic "iderw: request not for disk 1"
    else
      size <- gets (λ k, d_size (k_disk k)) ;;
      if b_blockno b >=? size then panic "iderw: block out of range"
      else
        (if dirty b then
           set_flags i (λ f, Z.land f (Z.lnot B_DIRTY)) ;;;
           modify (λ k, set_k_disk (write_block (b_blockno b) (b_data b) (k_disk k)) k)
         else
           modify (λ k, upd_buf i (set_b_data (disk_block (k_disk k) (b_blockno b))) k)) ;;;
        set_flags i (λ f, Z.lor f B_VALID).

(** What [iderw] does to the buffer and the disk. *)
Definition synced (i : nat) (k : kernel) : kernel :=
  let b := buf_at k i in
  if dirty b then
    set_k_disk (write_block (b_blockno b) (b_data b) (k_disk k))
      (upd_buf i (set_b_flags (Z.lor (Z.land (b_flags b) (Z.lnot B_DIRTY)) B_VALID)) k)
  else
    upd_buf i (λ b, set_b_flags (Z.lor (b_flags b) B_VALID)
                      (set_b_data (disk_block (k_disk k) (b_blockno b)) b)) k.

(** When it may be called. *)
Definition can_sync (i : nat) (pid : Z) (k : kernel) : Prop :=
  let b := buf_at k i in
  (i < length (k_bcache k))%nat ∧ b_lock b = mkSleeplock true pid ∧
  (valid b = false ∨ dirty b = true) ∧ b_dev b = 1 ∧ 0 <= b_blockno b < d_size (k_disk k).

Class DiskDriverOk (D : DiskDriver) : Prop :=
  iderw_ok i pid k : running k pid → can_sync i pid k → iderw i k = Ret tt (synced i k).

#[export] Instance memide : DiskDriver := memide_iderw.

Lemma land_VD f :
  (Z.land f (Z.lor B_VALID B_DIRTY) =? B_VALID) = negb (Z.land f B_VALID =? 0) && (Z.land f B_DIRTY =? 0).
Proof.
  unfold B_VALID, B_DIRTY. change (Z.lor 2 4) with 6. change 2 with (2 ^ 1). change 4 with (2 ^ 2).
  rewrite !land_flag_testbit by lia.
  assert (Z.land f 6 = (if Z.testbit f 1 then 2 else 0) + (if Z.testbit f 2 then 4 else 0)) as ->.
  { change 6 with (Z.lor (2 ^ 1) (2 ^ 2)). rewrite Z.land_lor_distr_r.
    assert (∀ n, 0 <= n → Z.land f (2 ^ n) = if Z.testbit f n then 2 ^ n else 0) as Hb.
    { intros n Hn. apply Z.bits_inj'. intros m Hm. rewrite Z.land_spec, Z.pow2_bits_eqb by lia.
      destruct (Z.eqb_spec n m) as [->|Hne].
      - destruct (Z.testbit f m); [by rewrite Z.pow2_bits_true|by rewrite Z.bits_0].
      - rewrite andb_false_r. destruct (Z.testbit f n); [by rewrite Z.pow2_bits_false by lia|by rewrite Z.bits_0]. }
    rewrite !Hb by lia. by destruct (Z.testbit f 1), (Z.testbit f 2). }
  by destruct (Z.testbit f 1), (Z.testbit f 2).
Qed.

Lemma alter_alter {A} (f g : A → A) (l : list A) i : alter f i (alter g i l) = alter (f ∘ g) i l.
Proof. revert i. induction l as [|x l IH]; intros [|i]; simpl; [done..|]. f_equal. apply IH. Qed.

Lemma upd_buf_upd i f g k : upd_buf i f (upd_buf i g k) = upd_buf i (f ∘ g) k.
Proof. unfold upd_buf. cbn [k_bcache set_k_bcache]. by rewrite alter_alter. Qed.

Lemma upd_buf_ext i f g k : f (buf_at k i) = g (buf_at k i) → upd_buf i f k = upd_buf i g k.
Proof.
  intros H. unfold upd_buf. replace (alter f i (k_bcache k)) with (alter g i (k_bcache k)); [done|].
  apply list_alter_ext; [|done]. intros x Hx. unfold buf_at in H. by rewrite list_lookup_total_alt, Hx in H.
Qed.

Lemma upd_buf_disk i f d k : upd_buf i f (set_k_disk d k) = set_k_disk d (upd_buf i f k).
Proof. done. Qed.

(** The memory disk keeps the interface's promise. *)
#[export] Instance memide_ok : DiskDriverOk memide.
Proof.
  intros i pid k Hr (Hi & Hl & Hvd & Hd & Hb). unfold iderw, memide, memide_iderw.
  mcall (holdingsleep_eq k pid (SlBuf i) Hr). cbn [sl_at]. rewrite Hl. cbn [lk_locked lk_pid andb].
  rewrite Z.eqb_refl. cbn [negb]. mrun. rewrite land_VD. fold (valid (buf_at k i)).
  assert ((Z.land (b_flags (buf_at k i)) B_DIRTY =? 0) = negb (dirty (buf_at k i))) as ->
    by (unfold dirty; by rewrite negb_involutive).
  replace (valid (buf_at k i) && negb (dirty (buf_at k i))) with false
    by (destruct Hvd as [->| ->]; [done|by rewrite andb_false_r]).
  rewrite Hd. cbn [Z.eqb Pos.eqb negb]. mrun. rewrite Z.geb_leb, (proj2 (Z.leb_gt _ _)) by lia.
  unfold synced, set_flags. destruct (dirty (buf_at k i)) eqn:Ed.
  - mrun. unfold modify. f_equal. rewrite upd_buf_disk, upd_buf_upd. f_equal. by apply upd_buf_ext.
  - mrun. unfold modify. f_equal. rewrite upd_buf_upd. by apply upd_buf_ext.
Qed.
