(* ===== verification/Bio.v ===== *)
(** * The buffer cache (src/bio.c)

    Buffers are indices into [k_bcache]; the last entry is [bcache.head].  The
    list through [prev] and [next] is kept as the code keeps it, pointer by
    pointer. *)

From stdpp Require Import functions.
From S2P Require Import Prelude Mem CString State Mmu Spinlock Kalloc Vm Proc Sleeplock Disk.

(** [&bcache.head] *)
Definition bhead : nat := NBUF.

Definition set_next (i n : nat) : K unit := modify (upd_buf i (set_b_next n)).
Definition set_prev (i n : nat) : K unit := modify (upd_buf i (set_b_prev n)).
Definition get_next (i : nat) : K nat := gets (λ k, b_next (buf_at k i)).
Definition get_prev (i : nat) : K nat := gets (λ k, b_prev (buf_at k i)).

(** [b->next = head.next; b->prev = &head; head.next->prev = b; head.next = b] *)
Definition insert_front (i : nat) : K unit :=
  n <- get_next bhead ;; set_next i n ;;;
  set_prev i bhead ;;;
  n <- get_next bhead ;; set_prev n i ;;;
  set_next bhead i.

Definition binit : K unit :=
  set_prev bhead bhead ;;;
  set_next bhead bhead ;;;
  foreach (seq 0 NBUF) (λ i,
    n <- get_next bhead ;; set_next i n ;;;
    set_prev i bhead ;;;
    initsleeplock (SlBuf i) ;;;
    n <- get_next bhead ;; set_prev n i ;;;
    set_next bhead i).

(** [for(b = start; b != &bcache.head; b = step(b)) if(P(b)) ...]: the first
    buffer that satisfies [P], [None] when the list is exhausted. *)
Fixpoint scan (fuel : nat) (step : buf → nat) (P : buf → bool) (i : nat) : K (option nat) :=
  if Nat.eqb i bhead then ret None
  else
    b <- gets (λ k, buf_at k i) ;;
    if P b then ret (Some i)
    else match fuel with O => λ _, Spin | S fuel => scan fuel step P (step b) end.

Section bio.
Context `{W : Wakeups} `{D : DiskDriver}.

Definition is_block (dev blockno : Z) (b : buf) : bool := (b_dev b =? dev) && (b_blockno b =? blockno).
Definition recyclable (b : buf) : bool := (b_refcnt b =? 0) && negb (dirty b).

Definition bget (dev blockno : Z) : K nat :=
  acquire LBcache ;;;
  first <- get_next bhead ;;
  o <- scan NBUF b_next (is_block dev blockno) first ;;
  match o with
  | Some i =>
      modify (upd_buf i (λ b, set_b_refcnt (u32 (b_refcnt b + 1)) b)) ;;;
      release LBcache ;;;
      acquiresleep (SlBuf i) ;;;
      ret i
  | None =>
      last <- get_prev bhead ;;
      o <- scan NBUF b_prev recyclable last ;;
      match o with
      | Some i =>
          modify (upd_buf i (λ b, set_b_refcnt 1 (set_b_flags 0 (set_b_blockno blockno (set_b_dev dev b))))) ;;;
          release LBcache ;;;
          acquiresleep (SlBuf i) ;;;
          ret i
      | None => panic "bget: no buffers"
      end
  end.

Definition bread (dev blockno : Z) : K nat :=
  i <- bget dev blockno ;;
  b <- gets (λ k, buf_at k i) ;;
  when (negb (valid b)) (iderw i) ;;;
  ret i.

Definition bwrite (i : nat) : K unit :=
  h <- holdingsleep (SlBuf i) ;;
  if negb h then panic "bwrite"
  else
    set_flags i (λ f, Z.lor f B_DIRTY) ;;;
    iderw i.

Definition brelse (i : nat) : K unit :=
  h <- holdingsleep (SlBuf i) ;;
  if negb h then panic "brelse"
  else
    releasesleep (SlBuf i) ;;;
    acquire LBcache ;;;
    modify (upd_buf i (λ b, set_b_refcnt (u32 (b_refcnt b - 1)) b)) ;;;
    r <- gets (λ k, b_refcnt (buf_at k i)) ;;
    when (r =? 0)
      (n <- get_next i ;; p <- get_prev i ;; set_prev n p ;;;
       p <- get_prev i ;; n <- get_next i ;; set_next p n ;;;
       insert_front i) ;;;
    release LBcache.
End bio.

(** ** The list through the buffers *)

Fixpoint links (nx pv : nat → nat) (c : list nat) : Prop :=
  match c with
  | a :: ((b :: _) as c') => nx a = b ∧ pv b = a ∧ links nx pv c'
  | _ => True
  end.

Lemma links_app nx pv c1 a c2 :
  links nx pv (c1 ++ a :: c2) ↔ links nx pv (c1 ++ [a]) ∧ links nx pv (a :: c2).
Proof.
  induction c1 as [|x c1 IH]; [simpl; tauto|]. destruct c1 as [|y c1]; simpl in *; [tauto|]. rewrite IH. tauto.
Qed.

(** The links only depend on [nx] before the end and [pv] after the start. *)
Lemma links_ext nx pv nx' pv' a c b :
  (∀ x, x ∈ a :: c → nx' x = nx x) → (∀ x, x ∈ c ++ [b] → pv' x = pv x) →
  links nx pv (a :: c ++ [b]) → links nx' pv' (a :: c ++ [b]).
Proof.
  revert a. induction c as [|x c IH]; intros a H1 H2; simpl.
  - intros (? & ? & _). rewrite H1, H2 by (by left). done.
  - intros (? & ? & Hl). rewrite H1, H2 by (by left). split_and!; [done|done|].
    apply IH; [intros; apply H1; by right|intros; apply H2; by right|done].
Qed.

Lemma links_rev nx pv c : links nx pv c → links pv nx (reverse c).
Proof.
  induction c as [|a [|b c] IH]; [done|done|]. intros (H1 & H2 & H3).
  rewrite reverse_cons, reverse_cons, <- app_assoc. apply links_app.
  rewrite reverse_cons in IH. split; [by apply IH|]. simpl. done.
Qed.

Lemma exists_last' {A} (l : list A) : l = [] ∨ ∃ l' x, l = l' ++ [x].
Proof. destruct l as [|a l]; [by left|right]. destruct (exists_last (l := a :: l)) as (l' & x & ->); [done|eauto]. Qed.

(** An initial part of a chain. *)
Lemma links_prefix nx pv c1 c2 : links nx pv (c1 ++ c2) → links nx pv c1.
Proof.
  induction c1 as [|a [|b c1] IH]; [done|done|]. intros (? & ? & ?). split_and!; [done|done|by apply IH].
Qed.

(** The chain hung on another first element: [a'] takes [a]'s successor. *)
Lemma links_head nx pv nx' pv' a a' c b :
  NoDup (c ++ [b]) → nx' a' = nx a → pv' (nx a) = a' →
  (∀ x, x ∈ c → nx' x = nx x) → (∀ x, x ∈ c ++ [b] → x ≠ nx a → pv' x = pv x) →
  links nx pv (a :: c ++ [b]) → links nx' pv' (a' :: c ++ [b]).
Proof.
  intros Hnd E1 E2 H1 H2. destruct c as [|n r]; cbn [app].
  - intros (Hn & _). rewrite Hn in *. done.
  - intros (Hn & _ & Hl). rewrite Hn in *. cbn [app] in Hnd. apply NoDup_cons in Hnd as [Hnr _].
    refine (conj E1 (conj E2 _)). eapply (links_ext nx pv); [exact H1| |exact Hl].
    intros x Hx. apply H2; [by right|by intros ->].
Qed.

(** Moving [i] to the front of the ring through [h], as [brelse] does it. *)
Section move_front.
Context (nx pv : nat → nat) (h i : nat) (l1 l2 : list nat).
Context (Hnd : NoDup (h :: l1 ++ i :: l2)) (Hl : links nx pv (h :: (l1 ++ i :: l2) ++ [h])).

Definition moved_next : nat → nat :=
  let nx1 := <[pv i := nx i]> nx in
  <[h := i]> (<[i := nx1 h]> nx1).
Definition moved_prev : nat → nat :=
  let f := (<[pv i := nx i]> nx) h in
  <[f := i]> (<[i := h]> (<[nx i := pv i]> pv)).

Lemma move_front_first : l1 = [] → links moved_next moved_prev (h :: (i :: l2) ++ [h]).
Proof using Hnd Hl.
  intros ->. cbn [app] in Hl, Hnd. destruct Hl as (Hh & Hi & Hl2).
  rewrite NoDup_cons, NoDup_cons, not_elem_of_cons in Hnd. destruct Hnd as ((Hhi & Hhl) & Hil & Hnl).
  unfold moved_next, moved_prev. rewrite Hi, !fn_lookup_insert.
  destruct l2 as [|n r]; simpl in *.
  - destruct Hl2 as (Hn & Hp & _). rewrite Hn. rewrite fn_lookup_insert.
    rewrite (fn_lookup_insert_ne _ h i), fn_lookup_insert by congruence.
    rewrite fn_lookup_insert_ne, fn_lookup_insert by congruence.
    split_and!; [done|done|done|by rewrite fn_lookup_insert|done].
  - destruct Hl2 as (Hn & Hp & Hl2). rewrite Hn. rewrite not_elem_of_cons in Hhl, Hil.
    destruct Hhl as [Hhn Hhr], Hil as [Hin Hir]. apply NoDup_cons in Hnl as [Hnr Hnl].
    rewrite fn_lookup_insert. rewrite (fn_lookup_insert_ne _ h i), fn_lookup_insert by congruence.
    rewrite (fn_lookup_insert_ne _ n i), fn_lookup_insert by congruence. rewrite fn_lookup_insert.
    split_and!; [done|done|done|done|].
    eapply (links_ext nx pv); [| |exact Hl2].
    + intros x Hx. rewrite !fn_lookup_insert_ne; [done|..]; intros <-; rewrite elem_of_cons in Hx; tauto.
    + intros x Hx. rewrite !fn_lookup_insert_ne; [done|..]; intros <-; rewrite elem_of_app, list_elem_of_singleton in Hx; naive_solver.
Qed.

(** The elements of the ring are distinct. *)
Lemma ring_distinct :
  h ∉ l1 ∧ h ≠ i ∧ h ∉ l2 ∧ i ∉ l1 ∧ i ∉ l2 ∧ NoDup l1 ∧ NoDup l2 ∧ ∀ x, x ∈ l1 → x ∉ l2.
Proof using Hnd.
  apply NoDup_cons in Hnd as [H1 H2]. apply NoDup_app in H2 as (H2 & H3 & H4). apply NoDup_cons in H4 as [H4 H5].
  rewrite elem_of_app, elem_of_cons in H1. split_and!; try tauto.
  - intros Hi1. apply (H3 i Hi1). by left.
  - intros x Hx1 Hx2. apply (H3 x Hx1). by right.
Qed.

Lemma move_front_later f m : l1 = f :: m → links moved_next moved_prev (h :: (i :: l1 ++ l2) ++ [h]).
Proof using Hnd Hl.
  intros E. destruct (exists_last (l := l1)) as (q & p & Eq); [by rewrite E|].
  destruct ring_distinct as (Hh1 & Hhi & Hh2 & Hi1 & Hi2 & Hn1 & Hn2 & Hx).
  assert (p ∈ l1) as Hp by (rewrite Eq, elem_of_app; right; by left).
  assert (f ∈ l1) as Hf by (rewrite E; by left).
  pose proof Hl as Hl'. rewrite Eq in Hl'.
  replace (h :: ((q ++ [p]) ++ i :: l2) ++ [h]) with ((h :: q) ++ p :: (i :: l2 ++ [h])) in Hl'
    by (simpl; rewrite <- !app_assoc; done).
  apply links_app in Hl' as [Hlp (Hnp & Hpi & Hli)].
  assert (nx h = f) as Hnf by (rewrite E in Hl; cbn in Hl; tauto).
  assert (nx i ∈ l2 ∨ nx i = h) as Hni.
  { destruct l2 as [|n r]; cbn in Hli; destruct Hli as [-> _]; [by right|left; by left]. }
  unfold moved_next, moved_prev. rewrite Hpi.
  rewrite !(fn_lookup_insert_ne nx p h) by (intros ->; tauto). rewrite Hnf.
  set (nx' := <[h := i]> (<[i := f]> (<[p := nx i]> nx))).
  set (pv' := <[f := i]> (<[i := h]> (<[nx i := p]> pv))).
  assert (∀ x, x ∈ l1 ∨ x ∈ l2 → x ≠ p → nx' x = nx x) as Enx.
  { intros x Hxl Hxp. unfold nx'. rewrite !fn_lookup_insert_ne; [done|..]; intros <-; tauto. }
  assert (∀ x, x ∈ l1 ∨ x ∈ l2 ∨ x = h → x ≠ f → x ≠ nx i → pv' x = pv x) as Epv.
  { intros x Hxl Hxf Hxn. unfold pv'. rewrite !fn_lookup_insert_ne; [done|congruence| |congruence].
    intros <-. destruct Hxl as [?|[?|?]]; [tauto|tauto|congruence]. }
  assert (links nx' pv' ((h :: i :: q) ++ p :: (l2 ++ [h]))) as Hgoal; [|
    rewrite Eq; cbn [app] in *; rewrite <- !app_assoc; exact Hgoal].
  apply links_app. split; [refine (conj _ (conj _ _))|].
  - unfold nx'. by rewrite fn_lookup_insert.
  - unfold pv'. rewrite fn_lookup_insert_ne, fn_lookup_insert by (intros ->; tauto). done.
  - apply (links_head nx pv nx' pv' h i); rewrite <- ?Eq, ?Hnf; [done| | | | |rewrite Eq; exact Hlp].
    + unfold nx'. rewrite fn_lookup_insert_ne, fn_lookup_insert by congruence. done.
    + unfold pv'. by rewrite fn_lookup_insert.
    + intros x Hxq. apply Enx; [left; rewrite Eq, elem_of_app; by left|].
      intros ->. rewrite Eq in Hn1. apply NoDup_app in Hn1 as (_ & Hz & _). by apply (Hz p Hxq), list_elem_of_singleton.
    + intros x Hx1 Hxf. apply Epv; [by left|done|]. intros ->. destruct Hni as [Hni|Hni]; [by apply (Hx (nx i))|by rewrite Hni in Hx1].
  - apply (links_head nx pv nx' pv' i p); [| | | | |exact Hli].
    + apply NoDup_app. split_and!; [done| |apply NoDup_singleton]. intros x Hx2 ->%list_elem_of_singleton. done.
    + unfold nx'. rewrite fn_lookup_insert_ne, fn_lookup_insert_ne, fn_lookup_insert; [done|intros <-; tauto..].
    + unfold pv'. rewrite fn_lookup_insert_ne, fn_lookup_insert_ne, fn_lookup_insert; [done| |].
      * intros E'. rewrite <- E' in Hni. destruct Hni; [done|congruence].
      * intros E'. rewrite <- E' in Hni. destruct Hni; [by apply (Hx f)|congruence].
    + intros x Hx2. apply Enx; [by right|]. intros ->. by apply (Hx p).
    + intros x Hx2 Hxn. apply Epv; [|intros ->|done]; apply elem_of_app in Hx2 as [?|?%list_elem_of_singleton]; [tauto|tauto|by apply (Hx f)|congruence].
Qed.

Lemma move_front_links : links moved_next moved_prev (h :: (i :: l1 ++ l2) ++ [h]).
Proof using Hnd Hl.
  assert (l1 = [] ∨ ∃ f m, l1 = f :: m) as [E|(f & m & E)] by (case l1; eauto).
  - rewrite E. by apply move_front_first.
  - by apply (move_front_later f m).
Qed.
End move_front.
