(* ===== verification/BioSpec.v ===== *)
(** * What the buffer cache promises

    The cache is read as an abstract block store: the contents [V] its clients
    see, the set [Dt] of blocks that are dirty (pinned in the cache), and the map
    [H] of the blocks the running process has locked.  [binv] is the
    representation; each routine of src/bio.c is shown to act on it. *)

From stdpp Require Import functions.
From S2P Require Import Prelude Mem CString State Mmu Spinlock Kalloc Vm Proc Sleeplock Disk Bio.

Definition nexts (k : kernel) (i : nat) : nat := b_next (buf_at k i).
Definition prevs (k : kernel) (i : nat) : nat := b_prev (buf_at k i).

(** The buffers other than the head, most recently used first. *)
Record bring (k : kernel) (o : list nat) : Prop := {
  br_len : length (k_bcache k) = S NBUF;
  br_perm : o ≡ₚ seq 0 NBUF;
  br_links : links (nexts k) (prevs k) (bhead :: o ++ [bhead])
}.

Lemma bring_elem k o i : bring k o → i ∈ o ↔ (i < NBUF)%nat.
Proof. intros [_ Hp _]. rewrite Hp, elem_of_seq. lia. Qed.

Lemma bring_nodup k o : bring k o → NoDup (bhead :: o).
Proof.
  intros Hb. apply NoDup_cons. split.
  - rewrite (bring_elem k) by done. unfold bhead. lia.
  - rewrite (br_perm _ _ Hb). apply NoDup_seq.
Qed.

Lemma bring_bcache k k' o : k_bcache k' = k_bcache k → bring k o → bring k' o.
Proof.
  intros E [H1 H2 H3]. split; [by rewrite E|done|]. unfold nexts, prevs, buf_at in *. by rewrite E.
Qed.

(** ** Updates of one buffer *)

Lemma buf_at_upd k i f j :
  (i < length (k_bcache k))%nat →
  buf_at (upd_buf i f k) j = if decide (i = j) then f (buf_at k i) else buf_at k j.
Proof.
  intros Hi. unfold buf_at, upd_buf. cbn [k_bcache set_k_bcache]. case_decide as E.
  - subst. by rewrite list_lookup_total_alter_eq.
  - by rewrite list_lookup_total_alter_ne.
Qed.

Lemma length_upd_buf i f k : length (k_bcache (upd_buf i f k)) = length (k_bcache k).
Proof. unfold upd_buf. cbn [k_bcache set_k_bcache]. by rewrite length_alter. Qed.

(** A buffer without its list pointers. *)
Definition core (b : buf) : buf := set_b_next 0 (set_b_prev 0 b).

Definition same_links (b b' : buf) : Prop := b_next b' = b_next b ∧ b_prev b' = b_prev b.

Lemma links_eq nx pv nx' pv' c :
  (∀ x, nx' x = nx x) → (∀ x, pv' x = pv x) → links nx pv c → links nx' pv' c.
Proof.
  intros H1 H2. induction c as [|a [|b c] IH]; [done|done|]. intros (? & ? & ?).
  rewrite <- H1, <- H2 in *. split_and!; [done|done|by apply IH].
Qed.

Lemma bring_upd k o i f : (i < S NBUF)%nat → bring k o → same_links (buf_at k i) (f (buf_at k i)) → bring (upd_buf i f k) o.
Proof.
  intros Hi [Hl Hp Hk] Hf. split; [by rewrite length_upd_buf|done|].
  eapply links_eq; [| |exact Hk]; intros x; unfold nexts, prevs; rewrite buf_at_upd by lia;
    case_decide as E; subst; try done; apply Hf.
Qed.

(** ** Scans of the list *)

Lemma scan_eq fuel step P pv l k :
  (length l ≤ fuel)%nat → bhead ∉ l → links (λ i, step (buf_at k i)) pv (l ++ [bhead]) →
  scan fuel step P (hd bhead l) k = Ret (List.find (λ i, P (buf_at k i)) l) k.
Proof.
  revert fuel. induction l as [|i l IH]; intros fuel Hf Hn Hl; simpl in Hf.
  - destruct fuel; done.
  - rewrite not_elem_of_cons in Hn. destruct Hn as [Hn1 Hn2].
    assert (step (buf_at k i) = hd bhead l) as Hs by (destruct l; cbn in Hl; tauto).
    assert (links (λ i, step (buf_at k i)) pv (l ++ [bhead])) as Hl' by (destruct l; cbn in Hl; tauto).
    destruct fuel as [|fuel]; [lia|]. cbn [scan hd List.find]. rewrite (proj2 (Nat.eqb_neq _ _)) by done.
    mrun. destruct (P (buf_at k i)); [done|]. rewrite Hs. apply IH; [lia|done|done].
Qed.

Lemma hd_next k o : bring k o → b_next (buf_at k bhead) = hd bhead o.
Proof. intros [_ _ Hl]. destruct o; cbn in Hl; apply Hl. Qed.

Lemma bring_rev k o : bring k o → links (prevs k) (nexts k) (bhead :: reverse o ++ [bhead]).
Proof.
  intros [_ _ Hl]. apply links_rev in Hl. by rewrite reverse_cons, reverse_app in Hl.
Qed.

Lemma hd_prev k o : bring k o → b_prev (buf_at k bhead) = hd bhead (reverse o).
Proof. intros Hl%bring_rev. destruct (reverse o); cbn in Hl; apply Hl. Qed.

Lemma links_tail nx pv a c : links nx pv (a :: c) → links nx pv c.
Proof. destruct c; [done|]. by intros (_ & _ & ?). Qed.

Lemma bring_length k o : bring k o → length o = NBUF.
Proof. intros Hb. by rewrite (br_perm _ _ Hb), length_seq. Qed.

Lemma scan_next k o P : bring k o →
  scan NBUF b_next P (hd bhead o) k = Ret (List.find (λ i, P (buf_at k i)) o) k.
Proof.
  intros Hb. pose proof (bring_nodup _ _ Hb) as [Hn _]%NoDup_cons.
  eapply scan_eq; [by rewrite (bring_length _ _ Hb)|done|]. eapply links_tail, br_links, Hb.
Qed.

Lemma scan_prev k o P : bring k o →
  scan NBUF b_prev P (hd bhead (reverse o)) k = Ret (List.find (λ i, P (buf_at k i)) (reverse o)) k.
Proof.
  intros Hb. pose proof (bring_nodup _ _ Hb) as [Hn _]%NoDup_cons.
  eapply scan_eq; [by rewrite length_reverse, (bring_length _ _ Hb)|by rewrite elem_of_reverse|].
  eapply links_tail, bring_rev, Hb.
Qed.

(** ** The abstract store *)

(** All of the kernel but the cache, the disk and the process table. *)
Definition apart (k : kernel) : kernel := set_k_bcache [] (set_k_disk (mkDisk 0 ∅ []) (set_k_ptable [] k)).

(** Between the two tables some sleepers have been woken. *)
Definition wake_step (p p' : proc) : Prop := p' = p ∨ (p_state p = SLEEPING ∧ p' = set_p_state RUNNABLE p).

(** What a routine of the cache leaves alone. *)
Record bio_frame (k k' : kernel) : Prop := {
  bf_apart : apart k' = apart k;
  bf_procs : Forall2 wake_step (k_ptable k) (k_ptable k');
  bf_size : d_size (k_disk k') = d_size (k_disk k)
}.

(** Block [b] is in the cache in buffer [i]. *)
Definition caches (k : kernel) (i : nat) (b : Z) : Prop :=
  (i < NBUF)%nat ∧ b_dev (buf_at k i) = ROOTDEV ∧ b_blockno (buf_at k i) = b.

(** A buffer in the hands of the running process. *)
Record bheld (k : kernel) (pid : Z) (i : nat) : Prop := {
  bh_lock : b_lock (buf_at k i) = mkSleeplock true pid;
  bh_refcnt : b_refcnt (buf_at k i) = 1;
  bh_valid : valid (buf_at k i) = true
}.

Definition block_ok (data : list Z) : Prop := length data = BSIZE ∧ Forall is_byte data.

Lemma zero_block_ok : block_ok zero_block.
Proof. split; [apply length_replicate|]. apply Forall_replicate. unfold is_byte. lia. Qed.

Record binv (k : kernel) (pid : Z) (V : Z → list Z) (Dt : gset Z) (H : gmap Z nat) : Prop := {
  bi_run : running k pid;
  bi_ring : ∃ o, bring k o;
  bi_uniq : ∀ i j b, caches k i b → caches k j b → i = j;
  bi_held : ∀ b i, H !! b = Some i → caches k i b ∧ bheld k pid i ∧ 0 <= b < d_size (k_disk k);
  bi_free : ∀ i, (i < NBUF)%nat → (∀ b, H !! b ≠ Some i) →
    b_lock (buf_at k i) = mkSleeplock false 0 ∧ b_refcnt (buf_at k i) = 0;
  bi_data : ∀ i b, caches k i b → valid (buf_at k i) = true → b_data (buf_at k i) = V b;
  bi_dirty : ∀ i, (i < NBUF)%nat → dirty (buf_at k i) = true →
    valid (buf_at k i) = true ∧ ∃ b, caches k i b ∧ b ∈ Dt;
  bi_pinned : ∀ b, b ∈ Dt → 0 <= b < d_size (k_disk k) ∧ ∃ i, caches k i b ∧ dirty (buf_at k i) = true;
  bi_clean : ∀ b, b ∉ Dt → H !! b = None → V b = disk_block (k_disk k) b;
  bi_blocks : ∀ b, block_ok (V b)
}.

#[export] Instance wake_step_trans : Transitive wake_step.
Proof.
  intros p1 p2 p3 [->|[H1 ->]] [->|[H2 ->]]; unfold wake_step; [by left|by right|by right|]. done.
Qed.

Lemma bio_frame_refl k : bio_frame k k.
Proof. split; [done| |done]. apply Forall_Forall2_diag, Forall_true. by left. Qed.

Lemma bio_frame_trans k1 k2 k3 : bio_frame k1 k2 → bio_frame k2 k3 → bio_frame k1 k3.
Proof.
  intros [H1 H2 H3] [H4 H5 H6]. split; [congruence| |congruence].
  by transitivity (k_ptable k2).
Qed.
#[export] Hint Resolve bio_frame_refl : kernel.

(** A step that only changes the cache. *)
Lemma bio_frame_upd i f k : bio_frame k (upd_buf i f k).
Proof. split; [done| |done]. apply Forall_Forall2_diag, Forall_true. by left. Qed.

Lemma bio_frame_woken c k : bio_frame k (woken c k).
Proof.
  split; [done| |done]. unfold woken. cbn [k_ptable set_k_ptable].
  rewrite <- (list_fmap_id (k_ptable k)) at 1. apply Forall2_fmap_2, Forall_Forall2_diag, Forall_true.
  intros p. unfold wakes, is_state. destruct (bool_decide_reflect (p_state p = SLEEPING)); [|by left].
  case_match; [by right|by left].
Qed.

Lemma running_frame k k' pid : bio_frame k k' → running k pid → running k' pid.
Proof.
  intros [Ha Hp _] (Hh & p & Hc & Hpid). split.
  - transitivity (k_held (apart k')); [done|]. by rewrite Ha.
  - exists p. split; [transitivity (k_cur (apart k')); [done|]; by rewrite Ha|].
    unfold proc_at in *. rewrite list_lookup_total_alt in *.
    destruct (k_ptable k !! p) as [q|] eqn:E.
    + destruct (Forall2_lookup_l _ _ _ _ _ Hp E) as (q' & -> & [->|[_ ->]]); done.
    + apply Forall2_length in Hp. apply lookup_ge_None in E.
      rewrite (proj2 (lookup_ge_None _ _)) by lia. done.
Qed.

(** [binv] reads a buffer only through its core. *)
Section core.
Context (k k' : kernel) (i : nat) (E : core (buf_at k' i) = core (buf_at k i)).

Lemma core_caches b : caches k' i b ↔ caches k i b.
Proof using E.
  unfold caches. change (b_dev (buf_at k' i)) with (b_dev (core (buf_at k' i))).
  change (b_blockno (buf_at k' i)) with (b_blockno (core (buf_at k' i))). by rewrite E.
Qed.

Lemma core_bheld pid : bheld k pid i → bheld k' pid i.
Proof using E.
  intros [H1 H2 H3]. split.
  - transitivity (b_lock (core (buf_at k' i))); [done|by rewrite E].
  - transitivity (b_refcnt (core (buf_at k' i))); [done|by rewrite E].
  - transitivity (valid (core (buf_at k' i))); [done|by rewrite E].
Qed.

Lemma core_valid : valid (buf_at k' i) = valid (buf_at k i).
Proof using E. transitivity (valid (core (buf_at k' i))); [done|by rewrite E]. Qed.
Lemma core_dirty : dirty (buf_at k' i) = dirty (buf_at k i).
Proof using E. transitivity (dirty (core (buf_at k' i))); [done|by rewrite E]. Qed.
Lemma core_data : b_data (buf_at k' i) = b_data (buf_at k i).
Proof using E. transitivity (b_data (core (buf_at k' i))); [done|by rewrite E]. Qed.
Lemma core_lock : b_lock (buf_at k' i) = b_lock (buf_at k i).
Proof using E. transitivity (b_lock (core (buf_at k' i))); [done|by rewrite E]. Qed.
Lemma core_refcnt : b_refcnt (buf_at k' i) = b_refcnt (buf_at k i).
Proof using E. transitivity (b_refcnt (core (buf_at k' i))); [done|by rewrite E]. Qed.
End core.

Section changes.
Context (k k' : kernel) (pid : Z) (V V' : Z → list Z) (Dt Dt' : gset Z) (H H' : gmap Z nat) (j : nat) (b : Z).
Context (Hb : binv k pid V Dt H) (Hf : bio_frame k k') (Hring : ∃ o, bring k' o) (Hj : (j < NBUF)%nat).
Context (Hothers : ∀ i, (i < NBUF)%nat → i ≠ j → core (buf_at k' i) = core (buf_at k i)).

(** Buffer [j], which nobody has, now holds block [b] and is locked. *)
Lemma binv_load :
  (∀ b', H !! b' ≠ Some j) → H !! b = None → 0 <= b < d_size (k_disk k) →
  (∀ b', caches k j b' → b' ∈ Dt → b' = b) → (∀ i, caches k i b → i = j) →
  k_disk k' = k_disk k → caches k' j b → bheld k' pid j → b_data (buf_at k' j) = V b →
  (dirty (buf_at k' j) = true ↔ b ∈ Dt) →
  binv k' pid V Dt (<[b := j]> H).
Proof using Hb Hf Hring Hj Hothers.
  intros Hnj Hnb Hrange Hpin Huniq Hd Hc Hh Hdata Hdirty.
  assert (∀ i c, caches k' i c → (i = j ∧ c = b) ∨ (i ≠ j ∧ caches k i c)) as Hcases.
  { intros i c Hci. destruct (decide (i = j)) as [->|Hne].
    - left. split; [done|]. destruct Hci as (_ & _ & <-). apply Hc.
    - right. split; [done|]. by apply (core_caches k k'); [apply Hothers; [apply Hci|done]|]. }
  destruct Hb as [Hrun _ Hu Hhe Hfr Hda Hdi Hpi Hcl Hbl]. split.
  - by eapply running_frame.
  - done.
  - intros i1 i2 c [[-> ->]|[H1 H1']]%Hcases [[-> E]|[H2 H2']]%Hcases; [done| | |by eapply Hu].
    + symmetry. by apply Huniq.
    + subst c. by apply Huniq.
  - intros c i [[<- <-]|[Hne Hc2]]%lookup_insert_Some; [by rewrite Hd|].
    destruct (Hhe _ _ Hc2) as (Hci & Hbi & Hr). rewrite Hd.
    assert (i ≠ j) as Hij by (intros ->; by apply (Hnj c)).
    assert (core (buf_at k' i) = core (buf_at k i)) as E by (apply Hothers; [apply Hci|done]).
    split_and!; [by apply (core_caches k k' i E)|by apply (core_bheld k k' i E)|lia..].
  - intros i Hi Hn. assert (i ≠ j) as Hij.
    { intros ->. apply (Hn b). by rewrite lookup_insert_eq. }
    specialize (Hothers i Hi Hij). rewrite (core_lock k k' i Hothers), (core_refcnt k k' i Hothers).
    apply Hfr; [done|]. intros c Hc2. apply (Hn c). rewrite lookup_insert_ne; [done|]. congruence.
  - intros i c [[-> ->]|[H1 H1']]%Hcases Hv; [done|].
    specialize (Hothers i (proj1 H1') H1). rewrite (core_data k k' i Hothers), (core_valid k k' i Hothers) in *. by apply Hda.
  - intros i Hi Hdi'. destruct (decide (i = j)) as [->|Hij].
    + split; [apply Hh|]. exists b. split; [done|by apply Hdirty].
    + specialize (Hothers i Hi Hij). rewrite (core_dirty k k' i Hothers), (core_valid k k' i Hothers) in *.
      destruct (Hdi i Hi Hdi') as (Hv & c & Hci & Hcd). split; [done|]. exists c. by rewrite (core_caches k k' i Hothers).
  - intros c Hcd. destruct (Hpi c Hcd) as (Hr & i & Hci & Hdi'). rewrite Hd. split; [done|].
    destruct (decide (i = j)) as [->|Hij].
    + pose proof (Hpin c Hci Hcd) as ->. exists j. split; [done|by apply Hdirty].
    + exists i. specialize (Hothers i (proj1 Hci) Hij). by rewrite (core_caches k k' i Hothers), (core_dirty k k' i Hothers).
  - intros c Hcd Hn. rewrite Hd. apply Hcl; [done|]. rewrite lookup_insert_None in Hn. apply Hn.
  - done.
Qed.

(** Block [b], locked in buffer [j], changes; everything else stays. *)
Lemma binv_touch :
  H !! b = Some j →
  (∀ c, c ≠ b → V' c = V c ∧ (c ∈ Dt' ↔ c ∈ Dt) ∧ H' !! c = H !! c ∧
                disk_block (k_disk k') c = disk_block (k_disk k) c) →
  caches k' j b → valid (buf_at k' j) = true → b_data (buf_at k' j) = V' b →
  (dirty (buf_at k' j) = true ↔ b ∈ Dt') → block_ok (V' b) →
  (H' !! b = Some j ∧ bheld k' pid j) ∨
  (H' !! b = None ∧ b_lock (buf_at k' j) = mkSleeplock false 0 ∧ b_refcnt (buf_at k' j) = 0 ∧
     (b ∈ Dt' ∨ V' b = disk_block (k_disk k') b)) →
  binv k' pid V' Dt' H'.
Proof using All.
  intros Hhb Hsame Hc Hv Hdata Hdirty Hok Hend.
  assert (∀ i c, caches k' i c ↔ caches k i c) as Hcaches.
  { intros i c. destruct (decide (i = j)) as [->|Hne].
    - destruct (bi_held _ _ _ _ _ Hb b j Hhb) as ((_ & Hc1 & Hc2) & _ & _).
      destruct Hc as (_ & Hc3 & Hc4). unfold caches. rewrite Hc1, Hc2, Hc3, Hc4. done.
    - destruct (decide (i < NBUF)%nat); [by apply core_caches, Hothers|]. unfold caches. tauto. }
  assert (∀ i c, i ≠ j → caches k i c → c ≠ b) as Hne.
  { intros i c Hij Hci ->. apply Hij. eapply (bi_uniq _ _ _ _ _ Hb); [done|]. by apply Hcaches. }
  destruct Hb as [Hrun _ Hu Hhe Hfr Hda Hdi Hpi Hcl Hbl]. split.
  - by eapply running_frame.
  - done.
  - intros i1 i2 c. rewrite !Hcaches. apply Hu.
  - intros c i Hci. rewrite (bf_size _ _ Hf). destruct (decide (c = b)) as [->|Hcb].
    + destruct Hend as [[E Hh]|[E _]]; [|congruence]. assert (i = j) as -> by congruence.
      split_and!; [done|done|by eapply Hhe..].
    + destruct (Hsame c Hcb) as (_ & _ & E & _). rewrite E in Hci.
      destruct (Hhe _ _ Hci) as (Hca & Hbi & Hr).
      assert (i ≠ j) as Hij. { intros ->. apply Hcb. destruct Hca as (_ & _ & <-), (Hhe _ _ Hhb) as ((_ & _ & <-) & _). done. }
      split_and!; [by apply Hcaches| |lia..]. apply (core_bheld k k'); [|done]. apply Hothers; [apply Hca|done].
  - intros i Hi Hn. destruct (decide (i = j)) as [->|Hij].
    + destruct Hend as [[E _]|(_ & ? & ? & _)]; [by destruct (Hn b)|done].
    + specialize (Hothers i Hi Hij). rewrite (core_lock k k' i Hothers), (core_refcnt k k' i Hothers).
      apply Hfr; [done|]. intros c Hc2. destruct (decide (c = b)) as [->|Hcb]; [congruence|].
      destruct (Hsame c Hcb) as (_ & _ & E & _). apply (Hn c). congruence.
  - intros i c Hci Hvi. destruct (decide (i = j)) as [->|Hij].
    + destruct Hci as (_ & _ & <-), Hc as (_ & _ & ->). done.
    + apply Hcaches in Hci. specialize (Hothers i (proj1 Hci) Hij). rewrite (core_data k k' i Hothers), (core_valid k k' i Hothers) in *.
      destruct (Hsame c (Hne _ _ Hij Hci)) as (-> & _). by apply Hda.
  - intros i Hi Hdi'. destruct (decide (i = j)) as [->|Hij].
    + split; [done|]. exists b. split; [done|by apply Hdirty].
    + specialize (Hothers i Hi Hij). rewrite (core_dirty k k' i Hothers), (core_valid k k' i Hothers) in *.
      destruct (Hdi i Hi Hdi') as (Hvi & c & Hci & Hcd). split; [done|]. exists c. rewrite Hcaches. split; [done|].
      apply (Hsame c (Hne _ _ Hij Hci)). done.
  - intros c Hcd. rewrite (bf_size _ _ Hf). destruct (decide (c = b)) as [->|Hcb].
    + split; [by eapply Hhe|]. exists j. split; [done|by apply Hdirty].
    + destruct (Hsame c Hcb) as (_ & E & _). apply E in Hcd. destruct (Hpi c Hcd) as (Hr & i & Hci & Hdi').
      split; [done|]. exists i. rewrite Hcaches. split; [done|].
      assert (i ≠ j) as Hij. { intros ->. apply Hcb. destruct Hci as (_ & _ & <-), (Hhe _ _ Hhb) as ((_ & _ & <-) & _). done. }
      by rewrite (core_dirty k k' i (Hothers i (proj1 Hci) Hij)).
  - intros c Hcd Hn. destruct (decide (c = b)) as [->|Hcb].
    + destruct Hend as [[? _]|(_ & _ & _ & [?|?])]; [congruence|done|done].
    + destruct (Hsame c Hcb) as (-> & E & E' & ->). apply Hcl; [by rewrite <- E|congruence].
  - intros c. destruct (decide (c = b)) as [->|Hcb]; [done|]. destruct (Hsame c Hcb) as (-> & _). apply Hbl.
Qed.
End changes.

(** ** Getting a block *)

(** What [bget] leaves in the buffer it returns: block [b], locked. *)
Record got (k : kernel) (pid : Z) (V : Z → list Z) (Dt : gset Z) (H : gmap Z nat) (b : Z) (i : nat) (x : buf) : Prop := {
  got_lt : (i < NBUF)%nat;
  got_free : ∀ b', H !! b' ≠ Some i;
  got_pin : ∀ b', caches k i b' → b' ∈ Dt → b' = b;
  got_uniq : ∀ j, caches k j b → j = i;
  got_dev : b_dev x = ROOTDEV;
  got_blockno : b_blockno x = b;
  got_lock : b_lock x = mkSleeplock true pid;
  got_refcnt : b_refcnt x = 1;
  got_links : same_links (buf_at k i) x;
  got_data : (valid x = true ∧ b_data x = V b ∧ (dirty x = true ↔ b ∈ Dt)) ∨
             (valid x = false ∧ dirty x = false ∧ b ∉ Dt)
}.

Lemma is_block_caches k i b : (i < NBUF)%nat → is_block ROOTDEV b (buf_at k i) = true ↔ caches k i b.
Proof. intros Hi. unfold is_block, caches. rewrite andb_true_iff, !Z.eqb_eq. tauto. Qed.

(** A cached block is dirty exactly when it is pinned. *)
Lemma dirty_iff k pid V Dt H i b :
  binv k pid V Dt H → caches k i b → dirty (buf_at k i) = true ↔ b ∈ Dt.
Proof.
  intros Hb Hc. split.
  - intros Hd. destruct (bi_dirty _ _ _ _ _ Hb i (proj1 Hc) Hd) as (_ & c & (_ & _ & <-) & Hin).
    by destruct Hc as (_ & _ & <-).
  - intros (_ & j & Hj & Hd)%(bi_pinned _ _ _ _ _ Hb). by rewrite (bi_uniq _ _ _ _ _ Hb i j b).
Qed.

(** A buffer is always there when fewer than [NBUF] blocks are held or dirty. *)
Lemma recyclable_exists k pid V Dt H :
  binv k pid V Dt H → (size (Dt ∪ dom H) < NBUF)%nat →
  ∃ i, (i < NBUF)%nat ∧ recyclable (buf_at k i) = true.
Proof.
  intros Hb Hs. destruct (decide (Exists (λ i, recyclable (buf_at k i) = true) (seq 0 NBUF))) as [He|Hn].
  { apply Exists_exists in He as (i & Hi%elem_of_seq & ?). exists i. split; [lia|done]. }
  exfalso. rewrite <- Forall_Exists_neg, Forall_forall in Hn.
  assert (∀ i, (i < NBUF)%nat → ∃ c, caches k i c ∧ c ∈ Dt ∪ dom H) as Hall.
  { intros i Hi. assert (i ∈ seq 0 NBUF) as Hin by (apply elem_of_seq; lia). specialize (Hn i Hin). unfold recyclable in Hn.
    destruct (dirty (buf_at k i)) eqn:Ed.
    - destruct (bi_dirty _ _ _ _ _ Hb i Hi Ed) as (_ & c & Hc & Hcd). exists c. split; [done|]. apply elem_of_union. by left.
    - rewrite andb_true_r, Z.eqb_eq in Hn. destruct (decide (set_Exists (λ c, H !! c = Some i) (dom H))) as [(c & Hc1 & Hc2)|Hno].
      + exists c. split; [by apply (bi_held _ _ _ _ _ Hb)|]. apply elem_of_union. by right.
      + destruct Hn. apply (bi_free _ _ _ _ _ Hb i Hi). intros c Hc. apply Hno. exists c. split; [by eapply elem_of_dom_2|done]. }
  assert (size (list_to_set ((λ i, b_blockno (buf_at k i)) <$> seq 0 NBUF) : gset Z) = NBUF) as E.
  { rewrite size_list_to_set; [by rewrite length_fmap, length_seq|].
    apply NoDup_fmap_2_strong; [|apply NoDup_seq]. intros i j Hi%elem_of_seq Hj%elem_of_seq Eij.
    destruct (Hall i ltac:(lia)) as (c & Hc & _), (Hall j ltac:(lia)) as (c' & Hc' & _).
    apply (bi_uniq _ _ _ _ _ Hb i j c Hc). destruct Hc as (_ & _ & <-). destruct Hc' as (H1 & H2 & _). split_and!; [done|done|by symmetry]. }
  rewrite <- E in Hs. apply Nat.lt_nge in Hs. apply Hs. apply subseteq_size.
  intros c. rewrite elem_of_list_to_set, list_elem_of_fmap. intros (i & -> & Hi%elem_of_seq).
  destruct (Hall i ltac:(lia)) as (c & (? & ? & ->) & Hc). done.
Qed.

(** ** Moving a buffer to the front *)

Lemma links_next_in nx pv c z x : links nx pv (c ++ [z]) → x ∈ c → nx x ∈ c ++ [z].
Proof.
  intros Hl (c1 & c2 & ->)%list_elem_of_split. rewrite <- app_assoc in *. cbn [app] in *.
  apply links_app in Hl as [_ Hl]. apply elem_of_app. right. apply elem_of_cons. right.
  destruct c2 as [|y c2]; cbn in Hl |- *; destruct Hl as (-> & _ & _); by left.
Qed.

Lemma ring_bound nx pv h o x : links nx pv (h :: o ++ [h]) → (∀ y, y ∈ h :: o → (y ≤ NBUF)%nat) →
  x ∈ h :: o → (nx x ≤ NBUF)%nat.
Proof.
  intros Hl Hb Hx. apply Hb. apply (links_next_in nx pv (h :: o) h x) in Hx; [|done].
  cbn [app] in Hx. rewrite elem_of_cons, elem_of_app, list_elem_of_singleton in Hx. rewrite elem_of_cons. tauto.
Qed.

Lemma bring_bound k o x : bring k o → (x ≤ NBUF)%nat → (nexts k x ≤ NBUF)%nat ∧ (prevs k x ≤ NBUF)%nat.
Proof.
  intros Ho Hx.
  assert (∀ y, y ∈ bhead :: o ↔ (y ≤ NBUF)%nat) as Hin.
  { intros y. rewrite elem_of_cons, (bring_elem k o y Ho). unfold bhead. lia. }
  split.
  - eapply ring_bound; [apply Ho|apply Hin|by apply Hin].
  - eapply ring_bound; [apply bring_rev, Ho| |]; intros *; rewrite elem_of_cons, elem_of_reverse, <- elem_of_cons; apply Hin; done.
Qed.

Lemma nexts_set_next k a n x : (a < length (k_bcache k))%nat →
  nexts (upd_buf a (set_b_next n) k) x = (<[a := n]> (nexts k)) x ∧ prevs (upd_buf a (set_b_next n) k) x = prevs k x.
Proof.
  intros Ha. unfold nexts, prevs. rewrite buf_at_upd by done. case_decide as E.
  - subst. by rewrite fn_lookup_insert.
  - by rewrite fn_lookup_insert_ne.
Qed.

Lemma prevs_set_prev k a n x : (a < length (k_bcache k))%nat →
  prevs (upd_buf a (set_b_prev n) k) x = (<[a := n]> (prevs k)) x ∧ nexts (upd_buf a (set_b_prev n) k) x = nexts k x.
Proof.
  intros Ha. unfold nexts, prevs. rewrite buf_at_upd by done. case_decide as E.
  - subst. by rewrite fn_lookup_insert.
  - by rewrite fn_lookup_insert_ne.
Qed.

(** [k] is [k0] with the list pointers [nx] and [pv]. *)
Record relinked (k0 k : kernel) (nx pv : nat → nat) : Prop := {
  rl_len : length (k_bcache k0) = S NBUF;
  rl_bcache : k = set_k_bcache (k_bcache k) k0;
  rl_len' : length (k_bcache k) = S NBUF;
  rl_core : ∀ i, core (buf_at k i) = core (buf_at k0 i);
  rl_next : ∀ x, nexts k x = nx x;
  rl_prev : ∀ x, prevs k x = pv x
}.

Lemma relinked_refl k : length (k_bcache k) = S NBUF → relinked k k (nexts k) (prevs k).
Proof. intros. split; try done. by destruct k. Qed.

Lemma relinked_set_next k0 k nx pv a n : relinked k0 k nx pv → (a ≤ NBUF)%nat →
  relinked k0 (upd_buf a (set_b_next n) k) (<[a := n]> nx) pv.
Proof.
  intros [H1 H2 H3 H4 H5 H6] Ha. split; [done|unfold upd_buf; by rewrite H2 at 2|by rewrite length_upd_buf|..].
  - intros i. rewrite <- H4, buf_at_upd by lia. by case_decide; subst.
  - intros x. rewrite (proj1 (nexts_set_next k a n x ltac:(lia))). destruct (decide (a = x)) as [->|].
    + by rewrite !fn_lookup_insert.
    + by rewrite !fn_lookup_insert_ne.
  - intros x. by rewrite (proj2 (nexts_set_next k a n x ltac:(lia))).
Qed.

Lemma relinked_set_prev k0 k nx pv a n : relinked k0 k nx pv → (a ≤ NBUF)%nat →
  relinked k0 (upd_buf a (set_b_prev n) k) nx (<[a := n]> pv).
Proof.
  intros [H1 H2 H3 H4 H5 H6] Ha. split; [done|unfold upd_buf; by rewrite H2 at 2|by rewrite length_upd_buf|..].
  - intros i. rewrite <- H4, buf_at_upd by lia. by case_decide; subst.
  - intros x. by rewrite (proj2 (prevs_set_prev k a n x ltac:(lia))).
  - intros x. rewrite (proj1 (prevs_set_prev k a n x ltac:(lia))). destruct (decide (a = x)) as [->|].
    + by rewrite !fn_lookup_insert.
    + by rewrite !fn_lookup_insert_ne.
Qed.

Lemma relinked_frame k0 k nx pv : relinked k0 k nx pv → bio_frame k0 k.
Proof. intros Hr. rewrite (rl_bcache _ _ _ _ Hr). split; [done| |done]. apply Forall_Forall2_diag, Forall_true. by left. Qed.

(** The statements of [brelse] that move buffer [i] to the front. *)
Lemma move_front_run k o i : bring k o → (i < NBUF)%nat →
  ∃ k', (n <- get_next i ;; p <- get_prev i ;; set_prev n p ;;;
         p <- get_prev i ;; n <- get_next i ;; set_next p n ;;; insert_front i) k = Ret tt k' ∧
    relinked k k' (moved_next (nexts k) (prevs k) bhead i) (moved_prev (nexts k) (prevs k) bhead i).
Proof.
  intros Ho Hi. unfold insert_front, get_next, get_prev, set_next, set_prev. mrun.
  pose proof (bring_bound k o) as Hbound.
  set (nx := nexts k). set (pv := prevs k).
  fold (nexts k i) (prevs k i). fold nx pv.
  destruct (Hbound i Ho ltac:(lia)) as [Hn Hp]. destruct (Hbound bhead Ho ltac:(unfold bhead; lia)) as [Hnh _]. fold nx pv in Hn, Hp, Hnh.
  pose proof (relinked_refl k (br_len _ _ Ho)) as R. fold nx pv in R.
  apply (relinked_set_prev _ _ _ _ (nx i) (pv i)) in R; [|done].
  set (k1 := upd_buf (nx i) (set_b_prev (pv i)) k) in *.
  assert (b_prev (buf_at k1 i) = pv i) as ->.
  { fold (prevs k1 i). rewrite (rl_prev _ _ _ _ R). destruct (decide (nx i = i)) as [E|E].
    - rewrite E. apply fn_lookup_insert.
    - by rewrite fn_lookup_insert_ne. }
  assert (b_next (buf_at k1 i) = nx i) as -> by (fold (nexts k1 i); apply (rl_next _ _ _ _ R)).
  apply (relinked_set_next _ _ _ _ (pv i) (nx i)) in R; [|done].
  set (k2 := upd_buf (pv i) (set_b_next (nx i)) k1) in *.
  set (f := (<[pv i := nx i]> nx) bhead).
  assert (f ≤ NBUF)%nat as Hf.
  { unfold f. destruct (decide (pv i = bhead)) as [->|]; [by rewrite fn_lookup_insert|by rewrite fn_lookup_insert_ne]. }
  assert (b_next (buf_at k2 bhead) = f) as -> by (fold (nexts k2 bhead); apply (rl_next _ _ _ _ R)).
  apply (relinked_set_next _ _ _ _ i f) in R; [|lia]. apply (relinked_set_prev _ _ _ _ i bhead) in R; [|lia].
  set (k4 := upd_buf i (set_b_prev bhead) (upd_buf i (set_b_next f) k2)) in *.
  assert (b_next (buf_at k4 bhead) = f) as ->.
  { fold (nexts k4 bhead). rewrite (rl_next _ _ _ _ R), fn_lookup_insert_ne; [done|]. unfold bhead. lia. }
  apply (relinked_set_prev _ _ _ _ f i) in R; [|lia]. apply (relinked_set_next _ _ _ _ bhead i) in R; [|unfold bhead; lia].
  eexists. split; [reflexivity|]. exact R.
Qed.

Lemma moved_ring k k' o i : bring k o → (i < NBUF)%nat →
  relinked k k' (moved_next (nexts k) (prevs k) bhead i) (moved_prev (nexts k) (prevs k) bhead i) →
  ∃ o', bring k' o' ∧ head o' = Some i ∧ o' ≡ₚ o.
Proof.
  intros Ho Hi Hrl. apply (bring_elem k o i Ho), list_elem_of_split in Hi as (l1 & l2 & ->).
  exists (i :: l1 ++ l2). assert (i :: l1 ++ l2 ≡ₚ l1 ++ i :: l2) as Hp by solve_Permutation.
  split_and!; [|done|done]. split; [apply Hrl|rewrite Hp; apply Ho|].
  eapply links_eq; [apply (rl_next _ _ _ _ Hrl)|apply (rl_prev _ _ _ _ Hrl)|].
  apply move_front_links; [by eapply bring_nodup|apply Ho].
Qed.

Section bio_spec.
Context `{W : Wakeups}.

Lemma held_clear k : k_held k = [] → set_k_held [] k = k.
Proof. intros Hh. rewrite <- Hh at 1. by destruct k. Qed.

(** Both ends of [bget] release the cache and lock the buffer. *)
Lemma bget_tail k pid i f :
  running k pid → (i < S NBUF)%nat → length (k_bcache k) = S NBUF →
  b_lock (f (buf_at k i)) = mkSleeplock false 0 →
  (modify (upd_buf i f) ;;; release LBcache ;;; acquiresleep (SlBuf i) ;;; ret i) (set_k_held [LBcache] k)
  = Ret i (upd_buf i (set_b_lock (mkSleeplock true pid) ∘ f) k).
Proof.
  intros Hr Hi Hlen Hl. destruct Hr as (Hh & p & Hp & Hpid). mrun.
  mcall (release_eq LBcache (upd_buf i f (set_k_held [LBcache] k)) [] eq_refl (not_elem_of_nil _)).
  change (set_k_held [] (upd_buf i f (set_k_held [LBcache] k))) with (upd_buf i f (set_k_held [] k)).
  rewrite (held_clear k Hh).
  mcall (acquiresleep_eq (upd_buf i f k) pid (SlBuf i) (conj Hh (ex_intro _ p (conj Hp Hpid)))
    ltac:(cbn [sl_at]; rewrite buf_at_upd, decide_True by (done || lia); by rewrite Hl)).
  unfold ret. cbn [sl_set]. by rewrite upd_buf_upd.
Qed.

Lemma bget_spec k pid V Dt H b :
  binv k pid V Dt H → H !! b = None → b ∈ Dt ∨ (size (Dt ∪ dom H) < NBUF)%nat →
  ∃ i f, bget ROOTDEV b k = Ret i (upd_buf i f k) ∧ got k pid V Dt H b i (f (buf_at k i)).
Proof.
  intros Hb Hn Hs. pose proof (bi_run _ _ _ _ _ Hb) as Hr. destruct (bi_ring _ _ _ _ _ Hb) as [o Ho].
  pose proof (br_len _ _ Ho) as Hlen. unfold bget.
  mcall (acquire_eq LBcache k ltac:(rewrite (proj1 Hr); apply not_elem_of_nil)). rewrite (proj1 Hr).
  unfold get_next, get_prev. mrun.
  change (buf_at (set_k_held [LBcache] k) bhead) with (buf_at k bhead). rewrite (hd_next k o Ho).
  assert (bring (set_k_held [LBcache] k) o) as Ho' by (by destruct Ho).
  mcall (scan_next _ o (is_block ROOTDEV b) Ho').
  change (λ i : nat, is_block ROOTDEV b (buf_at (set_k_held [LBcache] k) i)) with (λ i, is_block ROOTDEV b (buf_at k i)).
  destruct (List.find _ o) as [i|] eqn:Ef.
  - apply find_some in Ef as [Hi Hc]. apply list_elem_of_In in Hi. rewrite (bring_elem k o i Ho) in Hi.
    rewrite is_block_caches in Hc by done.
    assert (∀ b', H !! b' ≠ Some i) as Hfree.
    { intros b' E. destruct (bi_held _ _ _ _ _ Hb _ _ E) as ((_ & _ & E1) & _). destruct Hc as (_ & _ & E2). congruence. }
    destruct (bi_free _ _ _ _ _ Hb i Hi Hfree) as [Hlock Href].
    exists i, (set_b_lock (mkSleeplock true pid) ∘ (λ x, set_b_refcnt (u32 (b_refcnt x + 1)) x)).
    split; [apply bget_tail; [done|lia|done|done]|].
    split; [done|done|by intros b' (_ & _ & <-) _; apply Hc|intros j Hj; by apply (bi_uniq _ _ _ _ _ Hb j i b)
           |apply Hc|apply Hc|done|simpl; by rewrite Href|done|].
    destruct (dirty_iff _ _ _ _ _ _ _ Hb Hc) as [Hd1 Hd2]. cbn. destruct (valid (buf_at k i)) eqn:Ev.
    + left. split_and!; [done|by apply (bi_data _ _ _ _ _ Hb)|done].
    + right. split; [done|]. assert (dirty (buf_at k i) = false) as Ed.
      { destruct (dirty (buf_at k i)) eqn:Ed; [|done]. destruct (bi_dirty _ _ _ _ _ Hb i Hi Ed). congruence. }
      split; [done|]. intros Hin. apply Hd2 in Hin. congruence.
  - mrun. change (buf_at (set_k_held [LBcache] k) bhead) with (buf_at k bhead). rewrite (hd_prev k o Ho). mcall (scan_prev _ o recyclable Ho').
    change (λ i : nat, recyclable (buf_at (set_k_held [LBcache] k) i)) with (λ i, recyclable (buf_at k i)).
    assert (∀ j, ¬ caches k j b) as Hnone.
    { intros j Hj. assert (j ∈ o) as Hjo by (apply (bring_elem k o j Ho), Hj).
      apply list_elem_of_In, (find_none _ _ Ef) in Hjo.
      pose proof (proj2 (is_block_caches k j b (proj1 Hj)) Hj). congruence. }
    assert (b ∉ Dt) as Hnd by (intros (_ & i & Hi & _)%(bi_pinned _ _ _ _ _ Hb); by apply (Hnone i)).
    destruct (List.find (λ i, recyclable (buf_at k i)) (reverse o)) as [i|] eqn:Ef2; [|exfalso].
    2: { destruct Hs as [Hs|Hs]; [done|]. destruct (recyclable_exists _ _ _ _ _ Hb Hs) as (i & Hi & Hrec).
         rewrite <- (bring_elem k o i Ho), <- elem_of_reverse, list_elem_of_In in Hi.
         apply (find_none _ _ Ef2) in Hi. congruence. }
    apply find_some in Ef2 as [Hi Hc]. apply list_elem_of_In in Hi. rewrite elem_of_reverse, (bring_elem k o i Ho) in Hi.
    unfold recyclable in Hc. rewrite andb_true_iff, Z.eqb_eq, negb_true_iff in Hc. destruct Hc as [Href Hd].
    assert (∀ b', H !! b' ≠ Some i) as Hfree.
    { intros b' E. destruct (bi_held _ _ _ _ _ Hb _ _ E) as (_ & [_ ? _] & _). lia. }
    destruct (bi_free _ _ _ _ _ Hb i Hi Hfree) as [Hlock _].
    exists i, (set_b_lock (mkSleeplock true pid) ∘ (λ x, set_b_refcnt 1 (set_b_flags 0 (set_b_blockno b (set_b_dev ROOTDEV x))))).
    split; [apply bget_tail; [done|lia|done|done]|].
    split; [done|done| |by intros j []%Hnone|done|done|done|done|done|by right].
    intros b' Hb' Hin. apply (dirty_iff _ _ _ _ _ _ _ Hb Hb') in Hin. congruence.
Qed.

Lemma others_upd k i f j : length (k_bcache k) = S NBUF → (i < NBUF)%nat → j ≠ i →
  core (buf_at (upd_buf i f k) j) = core (buf_at k j).
Proof. intros Hl Hi Hj. rewrite buf_at_upd by lia. by rewrite decide_False by congruence. Qed.

Lemma valid_lor b f : valid (set_b_flags (Z.lor f B_VALID) b) = true.
Proof.
  unfold valid, B_VALID. cbn [b_flags set_b_flags]. change 2 with (2 ^ 1). rewrite !land_flag_testbit by lia.
  rewrite Z.lor_spec, Z.pow2_bits_true by lia. by rewrite orb_true_r.
Qed.

Lemma dirty_lor_valid b f : dirty (set_b_flags (Z.lor f B_VALID) b) = dirty (set_b_flags f b).
Proof.
  unfold dirty, B_VALID, B_DIRTY. cbn [b_flags set_b_flags]. change 4 with (2 ^ 2). rewrite !land_flag_testbit by lia.
  rewrite Z.lor_spec. change 2 with (2 ^ 1). rewrite Z.pow2_bits_false by lia. by rewrite orb_false_r.
Qed.

Lemma dirty_lor b f : dirty (set_b_flags (Z.lor f B_DIRTY) b) = true.
Proof.
  unfold dirty, B_DIRTY. cbn [b_flags set_b_flags]. change 4 with (2 ^ 2). rewrite !land_flag_testbit by lia.
  rewrite Z.lor_spec, Z.pow2_bits_true by lia. by rewrite orb_true_r.
Qed.

Lemma valid_lor_dirty b f : valid (set_b_flags (Z.lor f B_DIRTY) b) = valid (set_b_flags f b).
Proof.
  unfold valid, B_VALID, B_DIRTY. cbn [b_flags set_b_flags]. change 2 with (2 ^ 1). rewrite !land_flag_testbit by lia.
  rewrite Z.lor_spec. change 4 with (2 ^ 2). rewrite Z.pow2_bits_false by lia. by rewrite orb_false_r.
Qed.

Lemma dirty_cleared b f : dirty (set_b_flags (Z.land f (Z.lnot B_DIRTY)) b) = false.
Proof.
  unfold dirty, B_DIRTY. cbn [b_flags set_b_flags]. change 4 with (2 ^ 2). rewrite !land_flag_testbit by lia.
  rewrite Z.land_spec, Z.lnot_spec, Z.pow2_bits_true by lia. by rewrite andb_false_r.
Qed.

(** The lock-holder may change the contents of its buffer. *)
Lemma bset_spec k pid V Dt H b i data :
  binv k pid V Dt H → H !! b = Some i → block_ok data →
  binv (upd_buf i (set_b_data data) k) pid (<[b := data]> V) Dt H.
Proof.
  intros Hb Hi Hok. destruct (bi_held _ _ _ _ _ Hb b i Hi) as (Hc & Hh & Hr).
  destruct (bi_ring _ _ _ _ _ Hb) as [o Ho]. pose proof (br_len _ _ Ho) as Hlen. pose proof (proj1 Hc) as Hlt.
  assert (buf_at (upd_buf i (set_b_data data) k) i = set_b_data data (buf_at k i)) as Ei
    by (rewrite buf_at_upd, decide_True by (done || lia); done).
  eapply (binv_touch k); try done.
  - apply bio_frame_upd.
  - exists o. apply bring_upd; [lia|done|done].
  - intros j Hj Hne. by apply others_upd.
  - intros c Hne. rewrite fn_lookup_insert_ne by done. done.
  - unfold caches. by rewrite Ei.
  - rewrite Ei. apply Hh.
  - by rewrite Ei, fn_lookup_insert.
  - rewrite Ei. by apply (dirty_iff k pid V Dt H).
  - by rewrite fn_lookup_insert.
  - left. split; [done|]. destruct Hh. split; by rewrite Ei.
Qed.

(** Setting [B_DIRTY] pins the block. *)
Lemma bpin_spec k pid V Dt H b i :
  binv k pid V Dt H → H !! b = Some i →
  binv (upd_buf i (λ x, set_b_flags (Z.lor (b_flags x) B_DIRTY) x) k) pid V (Dt ∪ {[b]}) H.
Proof.
  intros Hb Hi. destruct (bi_held _ _ _ _ _ Hb b i Hi) as (Hc & Hh & Hr).
  destruct (bi_ring _ _ _ _ _ Hb) as [o Ho]. pose proof (br_len _ _ Ho) as Hlen. pose proof (proj1 Hc) as Hlt.
  set (f := λ x, set_b_flags (Z.lor (b_flags x) B_DIRTY) x).
  assert (buf_at (upd_buf i f k) i = f (buf_at k i)) as Ei
    by (rewrite buf_at_upd, decide_True by (done || lia); done).
  assert (valid (f (buf_at k i)) = true) as Hv by (unfold f; rewrite valid_lor_dirty; apply Hh).
  eapply (binv_touch k); try done.
  - apply bio_frame_upd.
  - exists o. apply bring_upd; [lia|done|done].
  - intros j Hj Hne. by apply others_upd.
  - intros c Hne. split_and!; [done| |done|done]. rewrite elem_of_union, elem_of_singleton. tauto.
  - unfold caches. by rewrite Ei.
  - by rewrite Ei.
  - rewrite Ei. apply (bi_data _ _ _ _ _ Hb); [done|apply Hh].
  - rewrite Ei, elem_of_union, elem_of_singleton. unfold f. rewrite dirty_lor. tauto.
  - apply (bi_blocks _ _ _ _ _ Hb).
  - left. split; [done|]. destruct Hh. split; by rewrite Ei.
Qed.

Context `{D : DiskDriver} `{DOk : !DiskDriverOk D}.

Lemma bread_spec k pid V Dt H b :
  binv k pid V Dt H → H !! b = None → 0 <= b < d_size (k_disk k) → b ∈ Dt ∨ (size (Dt ∪ dom H) < NBUF)%nat →
  ∃ i k', bread ROOTDEV b k = Ret i k' ∧ binv k' pid V Dt (<[b := i]> H) ∧
    k_disk k' = k_disk k ∧ bio_frame k k'.
Proof.
  intros Hb Hn Hr Hs. destruct (bget_spec k pid V Dt H b Hb Hn Hs) as (i & f & Hget & Hgot).
  destruct (bi_ring _ _ _ _ _ Hb) as [o Ho]. pose proof (br_len _ _ Ho) as Hlen.
  pose proof (got_lt _ _ _ _ _ _ _ _ Hgot) as Hi. unfold bread. mcall Hget.
  assert (buf_at (upd_buf i f k) i = f (buf_at k i)) as Ei by (rewrite buf_at_upd, decide_True by (done || lia); done).
  rewrite Ei. destruct Hgot as [_ H1 H2 H3 Hdev Hbno Hlock Href Hlinks Hdata].
  destruct Hdata as [(Hv & Hda & Hdi)|(Hv & Hdi & Hnd)]; rewrite Hv; cbn [negb when].
  - mrun. exists i, (upd_buf i f k). split_and!; [done| |done|apply bio_frame_upd].
    eapply (binv_load k); try done.
    + apply bio_frame_upd.
    + exists o. apply bring_upd; [lia|done|done].
    + intros j Hj Hne. by apply others_upd.
    + split_and!; [done|by rewrite Ei|by rewrite Ei].
    + split; by rewrite Ei.
    + by rewrite Ei.
    + by rewrite Ei.
  - set (g := (λ x, set_b_flags (Z.lor (b_flags x) B_VALID) (set_b_data (disk_block (k_disk k) (b_blockno x)) x)) ∘ f).
    assert (iderw i (upd_buf i f k) = Ret tt (upd_buf i g k)) as Hio.
    { rewrite (iderw_ok i pid (upd_buf i f k)).
      - unfold synced. rewrite Ei, Hdi. unfold g. by rewrite <- upd_buf_upd.
      - apply (bi_run _ _ _ _ _ Hb).
      - unfold can_sync. rewrite Ei, length_upd_buf. split_and!; [lia|done|by left|done|rewrite Hbno; apply Hr..]. }
    mcall Hio. exists i, (upd_buf i g k).
    assert (buf_at (upd_buf i g k) i = g (buf_at k i)) as Eg by (rewrite buf_at_upd, decide_True by (done || lia); done).
    split_and!; [done| |done|apply bio_frame_upd].
    eapply (binv_load k); try done.
    + apply bio_frame_upd.
    + exists o. apply bring_upd; [lia|done|done].
    + intros j Hj Hne. by apply others_upd.
    + split_and!; [done|by rewrite Eg|by rewrite Eg].
    + split; rewrite Eg; [done|done|apply valid_lor].
    + rewrite Eg. unfold g. cbn. rewrite Hbno. symmetry. by apply (bi_clean _ _ _ _ _ Hb).
    + rewrite Eg. unfold g. cbn [compose]. rewrite dirty_lor_valid.
      split; [|done]. intros Hd'. unfold dirty in Hd', Hdi. cbn in Hd'. congruence.
Qed.

Lemma held_check k pid V Dt H b i : binv k pid V Dt H → H !! b = Some i →
  holdingsleep (SlBuf i) k = Ret true k.
Proof.
  intros Hb Hi. destruct (bi_held _ _ _ _ _ Hb b i Hi) as (_ & [Hl _ _] & _).
  rewrite (holdingsleep_eq k pid (SlBuf i) (bi_run _ _ _ _ _ Hb)). cbn [sl_at]. rewrite Hl. cbn.
  by rewrite Z.eqb_refl.
Qed.

Lemma bwrite_spec k pid V Dt H b i :
  binv k pid V Dt H → H !! b = Some i →
  ∃ k', bwrite i k = Ret tt k' ∧ binv k' pid V (Dt ∖ {[b]}) H ∧
    k_disk k' = write_block b (V b) (k_disk k) ∧ bio_frame k k'.
Proof.
  intros Hb Hi. destruct (bi_held _ _ _ _ _ Hb b i Hi) as (Hc & Hh & Hr).
  destruct (bi_ring _ _ _ _ _ Hb) as [o Ho]. pose proof (br_len _ _ Ho) as Hlen. pose proof (proj1 Hc) as Hlt.
  unfold bwrite, set_flags. mcall (held_check k pid V Dt H b i Hb Hi). cbn [negb]. mrun.
  set (f := λ x, set_b_flags (Z.lor (b_flags x) B_DIRTY) x).
  assert (buf_at (upd_buf i f k) i = f (buf_at k i)) as Ei
    by (rewrite buf_at_upd, decide_True by (done || lia); done).
  rewrite (iderw_ok i pid (upd_buf i f k)); [|apply (bi_run _ _ _ _ _ Hb)|].
  2: { unfold can_sync. rewrite Ei, length_upd_buf. split_and!; [lia|apply Hh|right; apply dirty_lor|apply Hc|..];
       rewrite (proj2 (proj2 Hc) : b_blockno (f (buf_at k i)) = b); apply Hr. }
  unfold synced. rewrite Ei. replace (dirty (f (buf_at k i))) with true by (symmetry; apply dirty_lor).
  destruct Hc as (_ & Hdev & Hbno). change (b_blockno (f (buf_at k i))) with (b_blockno (buf_at k i)). rewrite Hbno.
  assert (b_data (buf_at k i) = V b) as Hda by (apply (bi_data _ _ _ _ _ Hb); [done|apply Hh]).
  change (b_data (f (buf_at k i))) with (b_data (buf_at k i)). rewrite Hda.
  rewrite upd_buf_upd. set (g := set_b_flags _ ∘ f).
  assert (buf_at (upd_buf i g k) i = g (buf_at k i)) as Eg
    by (rewrite buf_at_upd, decide_True by (done || lia); done).
  eexists. split; [reflexivity|].
  assert (bio_frame k (set_k_disk (write_block b (V b) (k_disk (upd_buf i f k))) (upd_buf i g k))) as Hfr.
  { split; [done| |done]. apply Forall_Forall2_diag, Forall_true. by left. }
  split_and!; [|done|done].
  eapply (binv_touch k); try done.
  - exists o. apply (bring_bcache (upd_buf i g k)); [done|]. by apply bring_upd; [lia|..].
  - intros j Hj Hne. by apply (others_upd k i g).
  - intros c Hne. split_and!; [done|set_solver|done|].
    unfold disk_block, write_block. cbn. by rewrite lookup_insert_ne.
  - unfold caches. change (buf_at (set_k_disk _ ?z) i) with (buf_at z i). rewrite Eg. done.
  - change (buf_at (set_k_disk _ ?z) i) with (buf_at z i). rewrite Eg. apply valid_lor.
  - change (buf_at (set_k_disk _ ?z) i) with (buf_at z i). by rewrite Eg.
  - change (buf_at (set_k_disk _ ?z) i) with (buf_at z i). rewrite Eg. unfold g. cbn [compose].
    rewrite dirty_lor_valid, dirty_cleared. split; [done|set_solver].
  - apply (bi_blocks _ _ _ _ _ Hb).
  - left. split; [done|]. destruct Hh as [Hl Hrc _].
    split; change (buf_at (set_k_disk _ ?z) i) with (buf_at z i); rewrite Eg; [done|done|apply valid_lor].
Qed.

(** Giving a block back: it must be pinned or equal to the disk's copy. *)
Lemma brelse_spec k pid V Dt H b i :
  binv k pid V Dt H → H !! b = Some i → (b ∈ Dt ∨ V b = disk_block (k_disk k) b) →
  ∃ k', brelse i k = Ret tt k' ∧ binv k' pid V Dt (delete b H) ∧ k_disk k' = k_disk k ∧ bio_frame k k'.
Proof.
  intros Hb Hi Hclean. destruct (bi_held _ _ _ _ _ Hb b i Hi) as (Hc & Hh & Hr).
  destruct (bi_ring _ _ _ _ _ Hb) as [o Ho]. pose proof (proj1 Hc) as Hlt.
  destruct (bi_run _ _ _ _ _ Hb) as (Hheld & _).
  unfold brelse. mcall (held_check k pid V Dt H b i Hb Hi). cbn [negb].
  mcall (releasesleep_eq k (SlBuf i) Hheld). cbn [sl_set sl_chan].
  set (k1 := woken (CBufLock i) (upd_buf i (set_b_lock (mkSleeplock false 0)) k)).
  mcall (acquire_eq LBcache k1 ltac:(change (k_held k1) with (k_held k); rewrite Hheld; apply not_elem_of_nil)).
  change (k_held k1) with (k_held k). rewrite Hheld.
  set (f := λ b0, set_b_refcnt (u32 (b_refcnt b0 - 1)) b0).
  change (upd_buf i f (set_k_held [LBcache] k1)) with (set_k_held [LBcache] (upd_buf i f k1)).
  set (k2 := upd_buf i f k1).
  assert (bring (upd_buf i (set_b_lock (mkSleeplock false 0)) k) o) as Ho1 by (by apply bring_upd; [lia|..]).
  assert (bring k2 o) as Ho2.
  { apply bring_upd; [lia| |done]. by destruct Ho1. }
  assert (buf_at k2 i = f (set_b_lock (mkSleeplock false 0) (buf_at k i))) as E2.
  { unfold k2. rewrite buf_at_upd, decide_True; [|done|]; unfold k1.
    - change (buf_at (woken ?c ?z) i) with (buf_at z i). rewrite buf_at_upd, decide_True; [done|done|].
      rewrite (br_len _ _ Ho). lia.
    - change (k_bcache (woken ?c ?z)) with (k_bcache z). rewrite length_upd_buf, (br_len _ _ Ho). lia. }
  change (buf_at (set_k_held [LBcache] k2) i) with (buf_at k2 i). rewrite E2. unfold f at 1. cbn [b_refcnt set_b_refcnt set_b_lock].
  rewrite (bh_refcnt _ _ _ Hh). change (u32 (1 - 1) =? 0) with true. cbn [when].
  assert (bring (set_k_held [LBcache] k2) o) as Ho3 by (by destruct Ho2).
  destruct (move_front_run (set_k_held [LBcache] k2) o i Ho3 Hlt) as (k' & Hrun & Hrl).
  mcall Hrun.
  rewrite (release_eq LBcache k' []); [|by rewrite (rl_bcache _ _ _ _ Hrl)|apply not_elem_of_nil].
  eexists. split; [reflexivity|].
  assert (bio_frame k (set_k_held [] k')) as Hfr.
  { apply (bio_frame_trans k k1); [eapply bio_frame_trans; [apply bio_frame_upd|apply bio_frame_woken]|].
    rewrite (rl_bcache _ _ _ _ Hrl). split; [|apply Forall_Forall2_diag, Forall_true; by left|done].
    transitivity (apart (set_k_held [] k1)); [done|]. by rewrite (held_clear k1). }
  assert (∀ j, core (buf_at (set_k_held [] k') j) = core (buf_at k2 j)) as Hcore by apply (rl_core _ _ _ _ Hrl).
  assert (caches (set_k_held [] k') i b) as Hc'.
  { apply (core_caches k2); [apply Hcore|]. unfold caches. by rewrite E2. }
  split_and!; [|by rewrite (rl_bcache _ _ _ _ Hrl)|done].
  eapply (binv_touch k _ pid V V Dt Dt H _ i b); try done.
  - destruct (moved_ring (set_k_held [LBcache] k2) k' o i Ho3 Hlt Hrl) as (o' & Ho' & _).
    exists o'. by apply (bring_bcache k').
  - intros j Hj Hne. rewrite Hcore. unfold k2. rewrite others_upd; [|by rewrite <- (br_len _ _ Ho1)|done|done].
    unfold k1. change (buf_at (woken ?c ?z) j) with (buf_at z j). apply others_upd; [apply Ho|done|done].
  - intros c Hne. rewrite lookup_delete_ne by done. by rewrite (rl_bcache _ _ _ _ Hrl).
  - rewrite (core_valid k2); [|apply Hcore]. rewrite E2. apply Hh.
  - rewrite (core_data k2); [|apply Hcore]. rewrite E2. by apply (bi_data _ _ _ _ _ Hb); [|apply Hh].
  - rewrite (core_dirty k2); [|apply Hcore]. rewrite E2. by apply (dirty_iff k pid V Dt H).
  - apply (bi_blocks _ _ _ _ _ Hb).
  - right. rewrite lookup_delete_eq, (core_lock k2), (core_refcnt k2) by apply Hcore. rewrite E2.
    split_and!; [done|done| |by rewrite (rl_bcache _ _ _ _ Hrl)]. unfold f. cbn. by rewrite (bh_refcnt _ _ _ Hh).
Qed.
End bio_spec.
