(* ===== verification/BioCorrect.v ===== *)
(** * The buffer cache as a block store

    [binit] builds the ring; from then on every sequence of reads, updates,
    writes, pins and releases acts as the same sequence on an abstract store. *)

From stdpp Require Import functions.
From S2P Require Import Prelude Mem CString State Mmu Spinlock Kalloc Vm Proc Sleeplock Disk Bio BioSpec.

(** ** Initialisation *)

Lemma insert_front_links nx pv h i l :
  i ∉ h :: l → NoDup (h :: l) → links nx pv (h :: l ++ [h]) →
  links (<[h := i]> (<[i := nx h]> nx)) (<[nx h := i]> (<[i := h]> pv)) (h :: i :: l ++ [h]).
Proof.
  intros Hi Hnd Hl. rewrite not_elem_of_cons in Hi. destruct Hi as [Hih Hil].
  apply NoDup_cons in Hnd as [Hhl Hnd].
  destruct l as [|f l]; cbn in Hl |- *.
  - destruct Hl as (Hn & Hp & _). rewrite Hn. split_and!; [apply fn_lookup_insert| | |apply fn_lookup_insert|done].
    + by rewrite fn_lookup_insert_ne, fn_lookup_insert by done.
    + by rewrite fn_lookup_insert_ne, fn_lookup_insert by done.
  - destruct Hl as (Hn & Hp & Hl). rewrite Hn. rewrite not_elem_of_cons in Hil, Hhl.
    split_and!; [apply fn_lookup_insert| | |apply fn_lookup_insert|].
    + by rewrite fn_lookup_insert_ne, fn_lookup_insert by naive_solver.
    + by rewrite fn_lookup_insert_ne, fn_lookup_insert by done.
    + apply NoDup_cons in Hnd as [Hfl Hnd]. eapply (links_ext nx pv); [| |exact Hl].
      * intros x Hx. rewrite !fn_lookup_insert_ne; [done|..]; intros <-; rewrite elem_of_cons in Hx; tauto.
      * intros x Hx. rewrite elem_of_app, list_elem_of_singleton in Hx.
        rewrite !fn_lookup_insert_ne; [done|..]; intros <-; naive_solver.
Qed.

(** Before [binit] the cache is zero apart from its list pointers. *)
Definition blank (k : kernel) : Prop :=
  length (k_bcache k) = S NBUF ∧ ∀ i, (i ≤ NBUF)%nat → core (buf_at k i) = core buf0.

Definition binit_body (i : nat) : K unit :=
  n <- get_next bhead ;; set_next i n ;;;
  set_prev i bhead ;;;
  initsleeplock (SlBuf i) ;;;
  n <- get_next bhead ;; set_prev n i ;;;
  set_next bhead i.

Record building (k0 k : kernel) (l : list nat) : Prop := {
  bd_bcache : k = set_k_bcache (k_bcache k) k0;
  bd_blank : blank k;
  bd_links : links (nexts k) (prevs k) (bhead :: l ++ [bhead])
}.

Lemma blank_upd k i f : blank k → (i ≤ NBUF)%nat → (∀ b, core b = core buf0 → core (f b) = core buf0) →
  blank (upd_buf i f k).
Proof.
  intros [Hl Hb] Hi Hf. split; [by rewrite length_upd_buf|]. intros j Hj. rewrite buf_at_upd by lia.
  case_decide; [by apply Hf, Hb|by apply Hb].
Qed.

Lemma core_fields b : core b = core buf0 →
  b_flags b = 0 ∧ b_dev b = 0 ∧ b_lock b = sleeplock0 ∧ b_refcnt b = 0 ∧ b_data b = zero_block.
Proof. destruct b. unfold core. cbn. by intros [= -> -> -> -> -> ->]. Qed.

Lemma upd_buf_id i f k : f (buf_at k i) = buf_at k i → upd_buf i f k = k.
Proof.
  intros E. rewrite (upd_buf_ext i f id) by done. unfold upd_buf. rewrite list_alter_id by done. by destruct k.
Qed.

Lemma binit_body_step k0 k l i : building k0 k l → (i < NBUF)%nat → i ∉ l → NoDup l → (∀ x, x ∈ l → (x < NBUF)%nat) →
  ∃ k', binit_body i k = Ret tt k' ∧ building k0 k' (i :: l).
Proof.
  intros [Hk [Hlen Hbl] Hl] Hi Hil Hnd Hlt. unfold binit_body, get_next, set_next, set_prev, initsleeplock. mrun.
  set (n := b_next (buf_at k bhead)).
  assert (n ≤ NBUF)%nat as Hn.
  { unfold n. fold (nexts k bhead). destruct l as [|x l]; cbn in Hl; destruct Hl as (-> & _).
    - unfold bhead. lia.
    - specialize (Hlt x ltac:(by left)). lia. }
  pose proof (relinked_refl k Hlen) as R.
  apply (relinked_set_next _ _ _ _ i n) in R; [|lia]. apply (relinked_set_prev _ _ _ _ i bhead) in R; [|lia].
  set (k2 := upd_buf i (set_b_prev bhead) (upd_buf i (set_b_next n) k)) in *.
  assert (sl_set (SlBuf i) (mkSleeplock false 0) k2 = k2) as ->.
  { apply upd_buf_id. assert (b_lock (buf_at k2 i) = sleeplock0) as Hlk.
    - apply core_fields. rewrite (rl_core _ _ _ _ R). apply Hbl. lia.
    - destruct (buf_at k2 i). cbn in *. by subst. }
  assert (b_next (buf_at k2 bhead) = n) as ->.
  { fold (nexts k2 bhead). rewrite (rl_next _ _ _ _ R), fn_lookup_insert_ne; [done|]. unfold bhead. lia. }
  apply (relinked_set_prev _ _ _ _ n i) in R; [|lia]. apply (relinked_set_next _ _ _ _ bhead i) in R; [|unfold bhead; lia].
  eexists. split; [reflexivity|]. split.
  - rewrite (rl_bcache _ _ _ _ R) at 1. by rewrite Hk.
  - split; [apply R|]. intros j Hj. rewrite (rl_core _ _ _ _ R). by apply Hbl.
  - eapply links_eq; [apply (rl_next _ _ _ _ R)|apply (rl_prev _ _ _ _ R)|].
    apply (insert_front_links (nexts k) (prevs k)); [| |done].
    + rewrite not_elem_of_cons. split; [unfold bhead; lia|done].
    + apply NoDup_cons. split; [|done]. intros Hin%Hlt. unfold bhead in Hin. lia.
Qed.

Lemma binit_loop k0 m : ∀ n k, (n + m = NBUF)%nat → building k0 k (reverse (seq 0 n)) →
  ∃ k', foreach (seq n m) binit_body k = Ret tt k' ∧ building k0 k' (reverse (seq 0 NBUF)).
Proof.
  induction m as [|m IH]; intros n k Hnm Hb.
  - exists k. split; [done|]. by replace NBUF with n by lia.
  - destruct (binit_body_step k0 k (reverse (seq 0 n)) n Hb) as (k1 & Hk1 & Hb1).
    + lia.
    + rewrite elem_of_reverse, elem_of_seq. lia.
    + rewrite reverse_Permutation. apply NoDup_seq.
    + intros x. rewrite elem_of_reverse, elem_of_seq. lia.
    + cbn [seq foreach]. mcall Hk1. apply IH; [lia|]. rewrite seq_S, reverse_app. exact Hb1.
Qed.

Lemma binit_spec k : blank k → ∃ k', binit k = Ret tt k' ∧ building k k' (reverse (seq 0 NBUF)).
Proof.
  intros [Hlen Hbl]. unfold binit, set_prev, set_next. mrun.
  pose proof (relinked_refl k Hlen) as R.
  apply (relinked_set_prev _ _ _ _ bhead bhead) in R; [|unfold bhead; lia].
  apply (relinked_set_next _ _ _ _ bhead bhead) in R; [|unfold bhead; lia].
  apply (binit_loop k NBUF 0); [lia|]. split; [apply R| |].
  - split; [apply R|]. intros j Hj. rewrite (rl_core _ _ _ _ R). by apply Hbl.
  - cbn. rewrite (rl_next _ _ _ _ R), (rl_prev _ _ _ _ R), !fn_lookup_insert. done.
Qed.

(** What a process finds in a fresh cache: nothing is cached, so the contents
    are the disk's. *)
Lemma binv_boot k0 k k' pid :
  building k0 k (reverse (seq 0 NBUF)) → k_bcache k' = k_bcache k → running k' pid →
  (∀ b, block_ok (disk_block (k_disk k') b)) →
  binv k' pid (disk_block (k_disk k')) ∅ ∅.
Proof.
  intros [_ [Hlen Hbl] Hl] E Hr Hok.
  assert (∀ i, (i < NBUF)%nat → core (buf_at k' i) = core buf0) as Hcore.
  { intros i Hi. unfold buf_at. rewrite E. apply Hbl. lia. }
  assert (∀ i b, ¬ caches k' i b) as Hnone.
  { intros i b (Hi & Hd & _). destruct (core_fields _ (Hcore i Hi)) as (_ & Hd' & _). rewrite Hd' in Hd. done. }
  split; [done| | | | | | | | |done].
  - exists (reverse (seq 0 NBUF)). apply (bring_bcache k); [done|]. split; [done|apply reverse_Permutation|done].
  - intros i j b []%Hnone.
  - done.
  - intros i Hi _. by destruct (core_fields _ (Hcore i Hi)) as (_ & _ & ? & ? & _).
  - intros i b []%Hnone.
  - intros i Hi Hd. unfold dirty in Hd. destruct (core_fields _ (Hcore i Hi)) as (Hf & _). by rewrite Hf in Hd.
  - done.
  - done.
Qed.

(** ** The abstract store and its clients *)

(** What a client does with blocks; [BPin] is the [b->flags |= B_DIRTY] of
    src/log.c. *)
Inductive bop :=
| BRead (b : Z) | BSet (b : Z) (data : list Z) | BWrite (b : Z) | BPin (b : Z) | BRelse (b : Z).

(** The disk's contents, the contents clients see, the pinned blocks and the
    blocks in use. *)
Record store := mkStore {
  st_disk : Z → list Z; st_view : Z → list Z; st_dirty : gset Z; st_held : gset Z
}.

(** What a client must respect: it uses only blocks it has, it does not take a
    block twice, it needs a free buffer for a block that is not pinned, and it does not drop changes. *)
Definition allowed (nblocks : Z) (s : store) (op : bop) : Prop :=
  match op with
  | BRead b => b ∉ st_held s ∧ 0 <= b < nblocks ∧ (b ∈ st_dirty s ∨ (size (st_dirty s ∪ st_held s) < NBUF)%nat)
  | BSet b data => b ∈ st_held s ∧ block_ok data
  | BWrite b | BPin b => b ∈ st_held s
  | BRelse b => b ∈ st_held s ∧ (b ∈ st_dirty s ∨ st_view s b = st_disk s b)
  end.

Definition store_step (s : store) (op : bop) : store :=
  match op with
  | BRead b => mkStore (st_disk s) (st_view s) (st_dirty s) ({[b]} ∪ st_held s)
  | BSet b data => mkStore (st_disk s) (<[b := data]> (st_view s)) (st_dirty s) (st_held s)
  | BWrite b => mkStore (<[b := st_view s b]> (st_disk s)) (st_view s) (st_dirty s ∖ {[b]}) (st_held s)
  | BPin b => mkStore (st_disk s) (st_view s) (st_dirty s ∪ {[b]}) (st_held s)
  | BRelse b => mkStore (st_disk s) (st_view s) (st_dirty s) (st_held s ∖ {[b]})
  end.

Fixpoint all_allowed (nblocks : Z) (s : store) (ops : list bop) : Prop :=
  match ops with
  | [] => True
  | op :: ops => allowed nblocks s op ∧ all_allowed nblocks (store_step s op) ops
  end.

Section clients.
Context `{W : Wakeups} `{D : DiskDriver}.

(** The client keeps the pointers [bread] gave it. *)
Definition bop_run (H : gmap Z nat) (op : bop) : K (gmap Z nat) :=
  let on b (f : nat → K (gmap Z nat)) := match H !! b with Some i => f i | None => panic "no such block" end in
  match op with
  | BRead b => i <- bread ROOTDEV b ;; ret (<[b := i]> H)
  | BSet b data => on b (λ i, modify (upd_buf i (set_b_data data)) ;;; ret H)
  | BWrite b => on b (λ i, bwrite i ;;; ret H)
  | BPin b => on b (λ i, set_flags i (λ f, Z.lor f B_DIRTY) ;;; ret H)
  | BRelse b => on b (λ i, brelse i ;;; ret (delete b H))
  end.

Fixpoint bops_run (H : gmap Z nat) (ops : list bop) : K (gmap Z nat) :=
  match ops with
  | [] => ret H
  | op :: ops => H <- bop_run H op ;; bops_run H ops
  end.

(** The cache [k] with the client's pointers [H] stands for the store [s]. *)
Record stands (k : kernel) (pid : Z) (H : gmap Z nat) (s : store) : Prop := {
  sd_inv : binv k pid (st_view s) (st_dirty s) H;
  sd_held : dom H = st_held s;
  sd_disk : ∀ b, disk_block (k_disk k) b = st_disk s b
}.

Context `{DOk : !DiskDriverOk D}.

Lemma held_buffer k pid H s b : stands k pid H s → b ∈ st_held s → ∃ i, H !! b = Some i.
Proof. intros Hs Hb. rewrite <- (sd_held _ _ _ _ Hs), elem_of_dom in Hb. exact Hb. Qed.

Lemma bop_step k pid H s op :
  stands k pid H s → allowed (d_size (k_disk k)) s op →
  ∃ H' k', bop_run H op k = Ret H' k' ∧ stands k' pid H' (store_step s op) ∧
    d_size (k_disk k') = d_size (k_disk k).
Proof using All.
  intros Hs Hop. pose proof (sd_held _ _ _ _ Hs) as Hdom. pose proof (sd_disk _ _ _ _ Hs) as Hdisk.
  destruct op as [b|b data|b|b|b]; cbn [allowed] in Hop; cbn [bop_run store_step].
  - destruct Hop as (Hn & Hr & Hsz).
    destruct (bread_spec k pid _ _ H b (sd_inv _ _ _ _ Hs)) as (i & k' & Hrun & Hinv & Hd & Hf).
    + by rewrite <- not_elem_of_dom, Hdom.
    + done.
    + by rewrite Hdom.
    + mcall Hrun. exists (<[b := i]> H), k'. split_and!; [done| |by rewrite Hd].
      split; cbn; [done|by rewrite dom_insert_L, Hdom|by rewrite Hd].
  - destruct Hop as [Hin Hok]. destruct (held_buffer _ _ _ _ _ Hs Hin) as [i Hi]. rewrite Hi. mrun.
    exists H, (upd_buf i (set_b_data data) k). split_and!; [done| |done].
    split; cbn; [by apply bset_spec; [apply Hs|..]|done|done].
  - destruct (held_buffer _ _ _ _ _ Hs Hop) as [i Hi]. rewrite Hi.
    destruct (bwrite_spec k pid _ _ H b i (sd_inv _ _ _ _ Hs) Hi) as (k' & Hrun & Hinv & Hd & Hf).
    mcall Hrun. exists H, k'. split_and!; [done| |by rewrite Hd].
    split; cbn; [done|done|]. intros c. rewrite Hd. unfold disk_block, write_block. cbn.
    destruct (decide (b = c)) as [->|Hne].
    + by rewrite lookup_insert_eq, fn_lookup_insert.
    + rewrite lookup_insert_ne, fn_lookup_insert_ne by done. apply Hdisk.
  - destruct (held_buffer _ _ _ _ _ Hs Hop) as [i Hi]. rewrite Hi. unfold set_flags. mrun.
    eexists H, _. split_and!; [reflexivity| |done].
    split; cbn; [by apply bpin_spec; [apply Hs|]|done|done].
  - destruct Hop as [Hin Hcl]. destruct (held_buffer _ _ _ _ _ Hs Hin) as [i Hi]. rewrite Hi.
    destruct (brelse_spec k pid _ _ H b i (sd_inv _ _ _ _ Hs) Hi) as (k' & Hrun & Hinv & Hd & Hf).
    { by rewrite Hdisk. }
    mcall Hrun. exists (delete b H), k'. split_and!; [done| |by rewrite Hd].
    split; cbn; [done|by rewrite dom_delete_L, Hdom|by rewrite Hd].
Qed.

Lemma bops_steps pid ops : ∀ k H s,
  stands k pid H s → all_allowed (d_size (k_disk k)) s ops →
  ∃ H' k', bops_run H ops k = Ret H' k' ∧ stands k' pid H' (foldl store_step s ops).
Proof using All.
  induction ops as [|op ops IH]; intros k H s Hs Hall; cbn [bops_run foldl].
  - by exists H, k.
  - destruct Hall as [Hop Hall]. destruct (bop_step k pid H s op Hs Hop) as (H1 & k1 & Hr1 & Hs1 & Hd1).
    mcall Hr1. apply IH; [done|by rewrite Hd1].
Qed.

(** C18: The buffer cache is a block store.  [binit] succeeds on the boot state;
    after it, any sequence of reads, updates, writes, pins and releases that the
    rules allow runs to its end without panic, and what it leaves is what the
    same sequence makes of an abstract store: every block in use is in exactly
    the buffer the client was given, locked by it, with the contents last put
    there, and the disk has the contents last written. *)
Theorem bcache_correct k0 :
  blank k0 →
  ∃ k1, binit k0 = Ret tt k1 ∧
    ∀ k pid ops, k_bcache k = k_bcache k1 → running k pid →
      (∀ b, block_ok (disk_block (k_disk k) b)) →
      let s := mkStore (disk_block (k_disk k)) (disk_block (k_disk k)) ∅ ∅ in
      all_allowed (d_size (k_disk k)) s ops →
      ∃ H k', bops_run ∅ ops k = Ret H k' ∧
        let s' := foldl store_step s ops in
        dom H = st_held s' ∧
        (∀ b i, H !! b = Some i → caches k' i b ∧ bheld k' pid i ∧ b_data (buf_at k' i) = st_view s' b) ∧
        (∀ b, disk_block (k_disk k') b = st_disk s' b).
Proof using All.
  intros Hbl. destruct (binit_spec k0 Hbl) as (k1 & Hrun & Hbuild). exists k1. split; [done|].
  intros k pid ops Hbc Hr Hok s Hall.
  assert (stands k pid ∅ s) as Hs by (split; [by eapply binv_boot|apply dom_empty_L|done]).
  destruct (bops_steps pid ops k ∅ s Hs Hall) as (H & k' & Hops & Hs'). exists H, k'.
  split; [done|]. split_and!; [apply Hs'| |apply Hs'].
  intros b i Hi. destruct (bi_held _ _ _ _ _ (sd_inv _ _ _ _ Hs') b i Hi) as (Hc & Hh & _).
  split_and!; [done|done|]. apply (bi_data _ _ _ _ _ (sd_inv _ _ _ _ Hs')); [done|apply Hh].
Qed.
End clients.

(** ** Example *)

(** Process 1 in slot 0, with a disk of 100 zero blocks. *)
Definition demo_process (k : kernel) : kernel :=
  set_k_disk (mkDisk 100 ∅ []) (set_k_cur (Some 0%nat) (upd_proc 0 (set_p_pid 1) k)).

Lemma kernel0_blank : blank kernel0.
Proof.
  split; [done|]. intros i Hi. unfold buf_at, kernel0. cbn [k_bcache].
  rewrite lookup_total_replicate_2 by lia. done.
Qed.

Definition demo_ops (d : list Z) : list bop :=
  [BRead 3; BRead 7; BSet 3 d; BWrite 3; BRelse 3; BPin 7; BRelse 7; BRead 3].

Ltac decide_set := apply (bool_decide_unpack _); vm_compute; exact I.

Lemma demo_ops_allowed (V : Z → list Z) d : block_ok d → all_allowed 100 (mkStore V V ∅ ∅) (demo_ops d).
Proof.
  intros Hok. cbn [demo_ops all_allowed allowed store_step st_dirty st_held st_view st_disk].
  split_and!; try decide_set; try lia.
  - exact Hok.
  - right. by rewrite !fn_lookup_insert.
Qed.

Lemma demo_process_running k : k_ptable k = k_ptable kernel0 → k_held k = [] → running (demo_process k) 1.
Proof.
  intros Ept Eh. split; [done|]. exists 0%nat. split; [done|]. unfold demo_process, upd_proc, proc_at.
  cbn [k_ptable set_k_disk set_k_cur set_k_ptable]. by rewrite Ept.
Qed.

Lemma binit_boot k1 : binit kernel0 = Ret tt k1 → k_ptable k1 = k_ptable kernel0 ∧ k_held k1 = [].
Proof.
  intros Hrun. destruct (binit_spec kernel0 kernel0_blank) as (k1' & Hrun' & Hb).
  assert (k1 = k1') as -> by congruence. by rewrite (bd_bcache _ _ _ Hb).
Qed.

Lemma fives_ok : block_ok (replicate BSIZE 5).
Proof. split; [apply length_replicate|]. apply Forall_replicate. unfold is_byte. lia. Qed.

Lemma bcache_correct_witness :
  ∃ k1, binit kernel0 = Ret tt k1 ∧
    let k := demo_process k1 in
    ∃ H k', bops_run (W := 0%nat) ∅ (demo_ops (replicate BSIZE 5)) k = Ret H k' ∧ dom H = {[3]} ∧
      disk_block (k_disk k') 3 = replicate BSIZE 5.
Proof.
  destruct (bcache_correct (W := 0%nat) kernel0 kernel0_blank) as (k1 & Hrun & Hall). exists k1.
  split; [exact Hrun|]. destruct (binit_boot k1 Hrun) as [Ept Eh].
  destruct (Hall (demo_process k1) 1 (demo_ops (replicate BSIZE 5)) eq_refl (demo_process_running k1 Ept Eh))
    as (H & k' & Hops & Hdom & Hdata & Hdisk).
  - intros b. exact zero_block_ok.
  - exact (demo_ops_allowed _ _ fives_ok).
  - exists H, k'. split; [exact Hops|]. split; [rewrite Hdom; decide_set|].
    rewrite Hdisk. cbn [foldl store_step st_disk st_view demo_ops]. by rewrite !fn_lookup_insert.
Defined.
