(* ===== verification/Log.v ===== *)
(** * The log (src/log.c)

    The write-ahead log between the file system and the buffer cache.  The
    block numbers of the in-memory header are kept as the 32-bit patterns they
    are used as; an access past the end of [log.lh.block] is rendered as a
    panic. *)

From stdpp Require Import functions.
From S2P Require Import Prelude Mem CString State Mmu Spinlock Kalloc Vm Proc Sleeplock Disk Bio.

Definition log_get {A} (f : log → A) : K A := gets (λ k, f (k_log k)).
Definition upd_log (f : log → log) : K unit := modify (λ k, set_k_log (f (k_log k)) k).

(** [log.lh.block[i]], read and written. *)
Definition log_block (i : nat) : K Z :=
  o <- log_get (λ l, lh_block l !! i) ;;
  match o with Some b => ret b | None => panic "log.lh.block out of bounds" end.
Definition set_log_block (i : nat) (b : Z) : K unit :=
  n <- log_get (λ l, length (lh_block l)) ;;
  if Nat.ltb i n then upd_log (λ l, set_lh_block (<[i := b]> (lh_block l)) l)
  else panic "log.lh.block out of bounds".

(** [memmove(dst->data, src->data, BSIZE)] *)
Definition copy_data (dst src : nat) : K unit :=
  d <- gets (λ k, b_data (buf_at k src)) ;; modify (upd_buf dst (set_b_data d)).

(** Offsets in the header block: [n], then the block numbers. *)
Definition hdr_slot (i : nat) : nat := (4 + 4 * i)%nat.

(** The superblock, as the words of its block. *)
Definition sb_of (data : list Z) : superblock :=
  mkSuperblock (get32 data 0) (get32 data 4) (get32 data 8) (get32 data 12)
    (get32 data 16) (get32 data 20) (get32 data 24).

Section log.
Context `{W : Wakeups} `{D : DiskDriver}.

Definition readsb (dev : Z) : K superblock :=
  bp <- bread dev 1 ;;
  sb <- gets (λ k, sb_of (b_data (buf_at k bp))) ;;
  brelse bp ;;;
  ret sb.

Definition install_one (tail : nat) : K unit :=
  dev <- log_get l_dev ;; start <- log_get l_start ;;
  lbuf <- bread dev (u32 (start + tail + 1)) ;;
  home <- log_block tail ;;
  dbuf <- bread dev home ;;
  copy_data dbuf lbuf ;;;
  bwrite dbuf ;;;
  brelse lbuf ;;;
  brelse dbuf.

Definition install_trans : K unit :=
  n <- log_get lh_n ;; foreach (seq 0 (Z.to_nat n)) install_one.

Definition read_head : K unit :=
  dev <- log_get l_dev ;; start <- log_get l_start ;;
  buf <- bread dev (u32 start) ;;
  data <- gets (λ k, b_data (buf_at k buf)) ;;
  upd_log (set_lh_n (i32 (get32 data 0))) ;;;
  n <- log_get lh_n ;;
  foreach (seq 0 (Z.to_nat n)) (λ i, set_log_block i (get32 data (hdr_slot i))) ;;;
  brelse buf.

Definition write_head : K unit :=
  dev <- log_get l_dev ;; start <- log_get l_start ;;
  buf <- bread dev (u32 start) ;;
  n <- log_get lh_n ;;
  modify (upd_buf buf (λ b, set_b_data (put32 (b_data b) 0 n) b)) ;;;
  foreach (seq 0 (Z.to_nat n)) (λ i,
    v <- log_block i ;;
    modify (upd_buf buf (λ b, set_b_data (put32 (b_data b) (hdr_slot i) v) b))) ;;;
  bwrite buf ;;;
  brelse buf.

Definition recover_from_log : K unit :=
  read_head ;;;
  install_trans ;;;
  upd_log (set_lh_n 0) ;;;
  write_head.

(** The test on the size of the header compares two constants. *)
Definition initlog (dev : Z) : K unit :=
  if Z.of_nat (hdr_slot (Z.to_nat LOGSIZE)) >=? Z.of_nat BSIZE then panic "initlog: too big logheader"
  else
    sb <- readsb dev ;;
    upd_log (λ l, set_l_dev dev (set_l_size (i32 (sb_nlog sb)) (set_l_start (i32 (sb_logstart sb)) l))) ;;;
    recover_from_log.

Fixpoint begin_op_loop (fuel : nat) : K unit :=
  l <- gets k_log ;;
  let wait := match fuel with
              | O => λ _, Spin
              | S fuel => sleep CLog LLog ;;; begin_op_loop fuel
              end in
  if l_committing l then wait
  else if lh_n l + (l_outstanding l + 1) * MAXOPBLOCKS >? LOGSIZE then wait
  else
    upd_log (λ l, set_l_outstanding (l_outstanding l + 1) l) ;;;
    release LLog.

Definition begin_op : K unit := acquire LLog ;;; begin_op_loop wakeups.

Definition write_log_one (tail : nat) : K unit :=
  dev <- log_get l_dev ;; start <- log_get l_start ;;
  to <- bread dev (u32 (start + tail + 1)) ;;
  home <- log_block tail ;;
  from <- bread dev home ;;
  copy_data to from ;;;
  bwrite to ;;;
  brelse from ;;;
  brelse to.

Definition write_log : K unit :=
  n <- log_get lh_n ;; foreach (seq 0 (Z.to_nat n)) write_log_one.

Definition commit : K unit :=
  n <- log_get lh_n ;;
  when (n >? 0)
    (write_log ;;; write_head ;;; install_trans ;;; upd_log (set_lh_n 0) ;;; write_head).

Definition end_op : K unit :=
  acquire LLog ;;;
  upd_log (λ l, set_l_outstanding (l_outstanding l - 1) l) ;;;
  l <- gets k_log ;;
  if l_committing l then panic "log.committing"
  else
    do_commit <- (if l_outstanding l =? 0
                  then upd_log (set_l_committing true) ;;; ret true
                  else wakeup CLog ;;; ret false) ;;
    release LLog ;;;
    when (do_commit : bool)
      (commit ;;;
       acquire LLog ;;;
       upd_log (set_l_committing false) ;;;
       wakeup CLog ;;;
       release LLog).

Definition log_write (b : nat) : K unit :=
  l <- gets k_log ;;
  if (lh_n l >=? LOGSIZE) || (lh_n l >=? l_size l - 1) then panic "too big a transaction"
  else if l_outstanding l <? 1 then panic "log_write outside of trans"
  else
    acquire LLog ;;;
    blockno <- gets (λ k, b_blockno (buf_at k b)) ;;
    l <- gets k_log ;;
    let n := Z.to_nat (lh_n l) in
    let i := default n (find_index (λ x, x =? blockno) (take n (lh_block l))) in
    set_log_block i blockno ;;;
    when (Nat.eqb i n) (upd_log (λ l, set_lh_n (lh_n l + 1) l)) ;;;
    set_flags b (λ f, Z.lor f B_DIRTY) ;;;
    release LLog.
End log.
