(* ===== verification/LogSpec.v ===== *)
(** * The log: what its routines do to the blocks

    The commit protocol of src/log.c on the abstract block store of BioSpec.v:
    the encoding of the header block, the copies between the log and the home
    locations, and the order in which the disk is written. *)

From stdpp Require Import functions.
From S2P Require Import Prelude Mem CString State Mmu Spinlock Kalloc Vm Proc Sleeplock Disk Bio BioSpec Log.

(** ** The header block *)

Lemma Forall_splice {A} (P : A → Prop) l off new : Forall P l → Forall P new → Forall P (splice l off new).
Proof. intros Hl Hn. unfold splice. rewrite !Forall_app. split_and!; [by apply Forall_take|done|by apply Forall_drop]. Qed.

Lemma block_ok_put32 d off v : block_ok d → (off + 4 ≤ BSIZE)%nat → block_ok (put32 d off v).
Proof.
  intros [Hl Hb] Ho. split; [rewrite length_put32; lia|]. apply Forall_splice; [done|apply bytes_of_u32_byte].
Qed.

(** What [read_head] reads from the header block. *)
Definition hdr_n (data : list Z) : nat := Z.to_nat (i32 (get32 data 0)).
Definition hdr_dec (data : list Z) : list Z := (λ i, get32 data (hdr_slot i)) <$> seq 0 (hdr_n data).

Section puts.
Context (f : nat → Z).

(** A run of word stores at the slots [a .. a+m). *)
Definition puts (d : list Z) (a m : nat) : list Z := foldl (λ d i, put32 d (hdr_slot i) (f i)) d (seq a m).

Lemma puts_ok a m : ∀ d, block_ok d → (hdr_slot (a + m) ≤ BSIZE)%nat → block_ok (puts d a m).
Proof.
  revert a. induction m as [|m IH]; intros a d Hd Hb; [done|]. unfold puts. cbn [seq foldl].
  apply (IH (S a)); [|by replace (S a + m)%nat with (a + S m)%nat by lia].
  apply block_ok_put32; [done|]. unfold hdr_slot in *. lia.
Qed.

Lemma get32_puts_before a m off : ∀ d, block_ok d → (hdr_slot (a + m) ≤ BSIZE)%nat → (off + 4 ≤ hdr_slot a)%nat →
  get32 (puts d a m) off = get32 d off.
Proof.
  revert a. induction m as [|m IH]; intros a d Hd Hb Ho; [done|]. unfold puts. cbn [seq foldl].
  assert (hdr_slot a + 4 ≤ BSIZE)%nat as Hs by (unfold hdr_slot in *; lia).
  assert (length d = BSIZE) as Hl by apply Hd.
  fold (puts (put32 d (hdr_slot a) (f a)) (S a) m). rewrite IH.
  - apply get32_put32_disj; lia.
  - by apply block_ok_put32.
  - by replace (S a + m)%nat with (a + S m)%nat by lia.
  - unfold hdr_slot in *. lia.
Qed.

Lemma get32_puts_at a m i : ∀ d, block_ok d → (hdr_slot (a + m) ≤ BSIZE)%nat → (a ≤ i < a + m)%nat →
  get32 (puts d a m) (hdr_slot i) = u32 (f i).
Proof.
  revert a. induction m as [|m IH]; intros a d Hd Hb Hi; [lia|]. unfold puts. cbn [seq foldl].
  assert (hdr_slot a + 4 ≤ BSIZE)%nat as Hs by (unfold hdr_slot in *; lia).
  assert (length d = BSIZE) as Hl by apply Hd.
  fold (puts (put32 d (hdr_slot a) (f a)) (S a) m).
  assert (hdr_slot (S a + m) ≤ BSIZE)%nat by (by replace (S a + m)%nat with (a + S m)%nat by lia).
  destruct (decide (i = a)) as [->|Hne].
  - rewrite get32_puts_before; [apply get32_put32_same; lia|by apply block_ok_put32|done|unfold hdr_slot; lia].
  - apply IH; [by apply block_ok_put32|done|lia].
Qed.
End puts.

(** The header block [write_head] makes of [data]. *)
Definition hdr_enc (data : list Z) (bl : list Z) : list Z :=
  puts (λ i, bl !!! i) (put32 data 0 (length bl)) 0 (length bl).

Lemma hdr_enc_ok data bl : block_ok data → (length bl ≤ 30)%nat → block_ok (hdr_enc data bl).
Proof.
  intros Hd Hn. apply (puts_ok (λ i, bl !!! i)).
  - apply block_ok_put32; [done|]. unfold BSIZE. lia.
  - unfold hdr_slot, BSIZE. lia.
Qed.

(** The header survives the disk: what is read back is what was written. *)
Lemma hdr_round_trip data bl :
  block_ok data → (length bl ≤ 30)%nat → Forall is_u32 bl → hdr_dec (hdr_enc data bl) = bl.
Proof.
  intros Hd Hn Hu.
  assert (block_ok (put32 data 0 (length bl))) as Hd0 by (apply block_ok_put32; [done|unfold BSIZE; lia]).
  assert (hdr_slot (0 + length bl) ≤ BSIZE)%nat as Hs by (unfold hdr_slot, BSIZE; lia).
  assert (hdr_n (hdr_enc data bl) = length bl) as En.
  { unfold hdr_n, hdr_enc. rewrite (get32_puts_before (λ i, bl !!! i) 0 (length bl) 0); [|done|done|unfold hdr_slot; lia].
    rewrite get32_put32_same by (rewrite (proj1 Hd); unfold BSIZE; lia).
    rewrite u32_small, i32_small by (unfold is_u32; lia). lia. }
  unfold hdr_dec. rewrite En. apply list_eq. intros i. rewrite list_lookup_fmap.
  destruct (decide (i < length bl)%nat) as [Hi|Hi].
  - rewrite lookup_seq_lt by done. cbn [fmap option_fmap option_map Nat.add].
    unfold hdr_enc. rewrite (get32_puts_at (λ i, bl !!! i) 0 (length bl) i); [|done|done|lia].
    destruct (lookup_lt_is_Some_2 bl i Hi) as [x Hx]. rewrite Hx.
    rewrite (list_lookup_total_correct _ _ _ Hx), u32_small; [done|].
    by eapply Forall_lookup_1 in Hu.
  - rewrite (proj2 (lookup_ge_None bl i)) by lia. rewrite lookup_seq_ge by lia. done.
Qed.

(** ** The copies *)

Lemma delete_two {A} (m : gmap Z A) b c x y :
  b ≠ c → m !! b = None → m !! c = None → delete c (delete b (<[c := y]> (<[b := x]> m))) = m.
Proof.
  intros Hne Hb Hc. apply map_eq. intros d.
  destruct (decide (c = d)) as [<-|Hcd]; [by rewrite lookup_delete_eq|]. rewrite lookup_delete_ne by done.
  destruct (decide (b = d)) as [<-|Hbd]; [by rewrite lookup_delete_eq|].
  by rewrite lookup_delete_ne, lookup_insert_ne, lookup_insert_ne by done.
Qed.

Lemma size_union_le (X Y : gset Z) : (size (X ∪ Y) ≤ size X + size Y)%nat.
Proof.
  rewrite size_union_alt. assert (size (Y ∖ X) ≤ size Y)%nat by (apply subseteq_size; set_solver). lia.
Qed.

Lemma disk_block_write d b data : disk_block (write_block b data d) b = data.
Proof. unfold disk_block, write_block. cbn. by rewrite lookup_insert_eq. Qed.

Lemma disk_block_write_ne d b c data : b ≠ c → disk_block (write_block b data d) c = disk_block d c.
Proof. intros Hne. unfold disk_block, write_block. cbn. by rewrite lookup_insert_ne. Qed.

Lemma bio_frame_log k k' : bio_frame k k' → k_log k' = k_log k.
Proof. intros [E _ _]. change (k_log (apart k') = k_log (apart k)). by rewrite E. Qed.

Section log_spec.
Context `{W : Wakeups} `{D : DiskDriver} `{DOk : !DiskDriverOk D}.

(** A block that is held has the contents of the view. *)
Lemma held_data k pid V Dt H b i : binv k pid V Dt H → H !! b = Some i → b_data (buf_at k i) = V b.
Proof.
  intros Hb Hi. destruct (bi_held _ _ _ _ _ Hb b i Hi) as (Hc & Hh & _).
  apply (bi_data _ _ _ _ _ Hb); [done|apply Hh].
Qed.

Lemma copy_data_spec k pid V Dt H dst src i j :
  binv k pid V Dt H → H !! dst = Some i → H !! src = Some j →
  ∃ k', copy_data i j k = Ret tt k' ∧ binv k' pid (<[dst := V src]> V) Dt H ∧
    k_disk k' = k_disk k ∧ bio_frame k k'.
Proof using Type.
  intros Hb Hi Hj. unfold copy_data. mrun. rewrite (held_data _ _ _ _ _ _ _ Hb Hj).
  eexists. split; [reflexivity|]. split_and!; [|done|apply bio_frame_upd].
  apply bset_spec; [done|done|apply (bi_blocks _ _ _ _ _ Hb)].
Qed.

Lemma log_block_eq t home k : lh_block (k_log k) !! t = Some home → log_block t k = Ret home k.
Proof using Type. intros Ht. unfold log_block, log_get. mrun. by rewrite Ht. Qed.

(** Reading a log block and then a home block. *)
Lemma bread_two k pid V Dt L t home :
  binv k pid V Dt ∅ → lh_block (k_log k) !! t = Some home → L ≠ home → L ∉ Dt → 0 <= L < d_size (k_disk k) → 0 <= home < d_size (k_disk k) →
  (size Dt < NBUF)%nat → home ∈ Dt ∨ (S (size Dt) < NBUF)%nat →
  ∃ i j k', (∀ f : nat → nat → K unit, (x <- bread ROOTDEV L ;; home <- log_block t ;; y <- bread ROOTDEV home ;; f x y) k = f i j k') ∧
    binv k' pid V Dt (<[home := j]> (<[L := i]> ∅)) ∧ k_disk k' = k_disk k ∧ bio_frame k k'.
Proof using DOk.
  intros Hb Ht Hne HL HLr Hhr Hs1 Hs2.
  destruct (bread_spec k pid V Dt ∅ L Hb) as (i & k1 & R1 & B1 & D1 & F1); [done|done| |].
  { right. by rewrite dom_empty_L, union_empty_r_L. }
  destruct (bread_spec k1 pid V Dt (<[L := i]> ∅) home B1) as (j & k2 & R2 & B2 & D2 & F2).
  { by rewrite lookup_insert_ne. }
  { by rewrite D1. }
  { destruct Hs2 as [?|Hs2]; [by left|right]. rewrite dom_insert_L, dom_empty_L, union_empty_r_L.
    pose proof (size_union_le Dt {[L]}) as Hle. rewrite size_singleton in Hle. lia. }
  exists i, j, k2. split_and!; [|done|by rewrite D2|by eapply bio_frame_trans].
  intros g. rewrite (bind_eq _ _ _ _ _ R1), (bind_eq _ _ _ home k1); [by rewrite (bind_eq _ _ _ _ _ R2)|].
  apply log_block_eq. by rewrite (bio_frame_log _ _ F1).
Qed.

(** [bread(a); bread(b); memmove; bwrite(dst); brelse(a); brelse(b)] for the two
    orders of the code: the log block is read first in both, and is the source
    of the copy when a transaction is installed. *)
Lemma install_copy k pid V Dt L t home :
  binv k pid V Dt ∅ → lh_block (k_log k) !! t = Some home → L ≠ home → L ∉ Dt → 0 <= L < d_size (k_disk k) → 0 <= home < d_size (k_disk k) →
  (size Dt < NBUF)%nat → home ∈ Dt ∨ (S (size Dt) < NBUF)%nat →
  ∃ k', (lbuf <- bread ROOTDEV L ;; home <- log_block t ;; dbuf <- bread ROOTDEV home ;; copy_data dbuf lbuf ;;; bwrite dbuf ;;;
         brelse lbuf ;;; brelse dbuf) k = Ret tt k' ∧
    binv k' pid (<[home := V L]> V) (Dt ∖ {[home]}) ∅ ∧
    k_disk k' = write_block home (V L) (k_disk k) ∧ bio_frame k k'.
Proof using DOk.
  intros Hb Ht Hne HL HLr Hhr Hs1 Hs2.
  assert (V L = disk_block (k_disk k) L) as HVL by (apply (bi_clean _ _ _ _ _ Hb); [done|apply lookup_empty]).
  destruct (bread_two k pid V Dt L t home Hb) as (i & j & k2 & R1 & B2 & D2 & F2); [done..|].
  destruct (copy_data_spec k2 pid V Dt _ home L j i B2) as (k3 & R3 & B3 & D3 & F3).
  { by rewrite lookup_insert_eq. }
  { by rewrite lookup_insert_ne, lookup_insert_eq. }
  destruct (bwrite_spec k3 pid _ Dt _ home j B3) as (k4 & R4 & B4 & D4 & F4); [by rewrite lookup_insert_eq|].
  rewrite fn_lookup_insert, D3, D2 in D4.
  destruct (brelse_spec k4 pid _ _ _ L i B4) as (k5 & R5 & B5 & D5 & F5).
  { by rewrite lookup_insert_ne, lookup_insert_eq. }
  { right. rewrite fn_lookup_insert_ne, D4, disk_block_write_ne by done. done. }
  destruct (brelse_spec k5 pid _ _ _ home j B5) as (k6 & R6 & B6 & D6 & F6).
  { by rewrite lookup_delete_ne, lookup_insert_eq by done. }
  { right. by rewrite fn_lookup_insert, D5, D4, disk_block_write. }
  exists k6. rewrite R1, (bind_eq _ _ _ _ _ R3), (bind_eq _ _ _ _ _ R4), (bind_eq _ _ _ _ _ R5), R6.
  rewrite delete_two in B6 by done. split_and!; [done|done|by rewrite D6, D5|].
  eauto using bio_frame_trans.
Qed.

(** The same with the home block as the source, as [write_log] copies it. *)
Lemma log_copy k pid V Dt L t home :
  binv k pid V Dt ∅ → lh_block (k_log k) !! t = Some home → L ≠ home → L ∉ Dt → 0 <= L < d_size (k_disk k) → home ∈ Dt →
  (size Dt < NBUF)%nat →
  ∃ k', (to <- bread ROOTDEV L ;; home <- log_block t ;; from <- bread ROOTDEV home ;; copy_data to from ;;; bwrite to ;;;
         brelse from ;;; brelse to) k = Ret tt k' ∧
    binv k' pid (<[L := V home]> V) Dt ∅ ∧
    k_disk k' = write_block L (V home) (k_disk k) ∧ bio_frame k k'.
Proof using DOk.
  intros Hb Ht Hne HL HLr Hh Hs1. pose proof (bi_pinned _ _ _ _ _ Hb home Hh) as [Hhr _].
  destruct (bread_two k pid V Dt L t home Hb) as (i & j & k2 & R1 & B2 & D2 & F2); [try done..|by left|].
  destruct (copy_data_spec k2 pid V Dt _ L home i j B2) as (k3 & R3 & B3 & D3 & F3).
  { by rewrite lookup_insert_ne, lookup_insert_eq. }
  { by rewrite lookup_insert_eq. }
  destruct (bwrite_spec k3 pid _ Dt _ L i B3) as (k4 & R4 & B4 & D4 & F4); [by rewrite lookup_insert_ne, lookup_insert_eq|].
  rewrite fn_lookup_insert, D3, D2 in D4.
  destruct (brelse_spec k4 pid _ _ _ home j B4) as (k5 & R5 & B5 & D5 & F5).
  { by rewrite lookup_insert_eq. }
  { left. set_solver. }
  destruct (brelse_spec k5 pid _ _ _ L i B5) as (k6 & R6 & B6 & D6 & F6).
  { by rewrite lookup_delete_ne, lookup_insert_ne, lookup_insert_eq by done. }
  { right. by rewrite fn_lookup_insert, D5, D4, disk_block_write. }
  exists k6. rewrite R1, (bind_eq _ _ _ _ _ R3), (bind_eq _ _ _ _ _ R4), (bind_eq _ _ _ _ _ R5), R6.
  rewrite delete_delete, delete_two in B6 by done.
  replace (Dt ∖ {[L]}) with Dt in B6 by set_solver. split_and!; [done|done|by rewrite D6, D5|].
  eauto using bio_frame_trans.
Qed.

(** ** The loops *)

(** The blocks [install_trans] and [write_log] write, in order; [L] is the first
    log block. *)
Fixpoint install_writes (V : Z → list Z) (L : Z) (bl : list Z) : list (Z * list Z) :=
  match bl with [] => [] | home :: bl => (home, V L) :: install_writes V (L + 1) bl end.
Fixpoint log_writes (V : Z → list Z) (L : Z) (bl : list Z) : list (Z * list Z) :=
  match bl with [] => [] | home :: bl => (L, V home) :: log_writes V (L + 1) bl end.

Definition apply_writes (V : Z → list Z) (ws : list (Z * list Z)) : Z → list Z :=
  foldl (λ V w, <[w.1 := w.2]> V) V ws.
Definition do_writes (d : disk) (ws : list (Z * list Z)) : disk :=
  foldl (λ d w, write_block w.1 w.2 d) d ws.

(** Where the log is, on a disk of [nblocks] blocks: after the superblock, which
    is block 1. *)
Definition log_area (start lsz nblocks : Z) : Prop :=
  1 < start ∧ start + lsz <= nblocks ∧ nblocks <= 2147483648.
Definition in_log (start lsz b : Z) : Prop := start <= b < start + lsz.

(** The in-memory log: its place on the disk and the blocks of the transaction. *)
Record log_is (l : log) (start lsz : Z) (bl : list Z) : Prop := {
  lg_dev : l_dev l = ROOTDEV;
  lg_start : l_start l = start;
  lg_size : l_size l = lsz;
  lg_n : lh_n l = length bl;
  lg_blocks : take (length bl) (lh_block l) = bl;
  lg_len : length (lh_block l) = Z.to_nat LOGSIZE
}.

Lemma install_writes_ext V V' bl : ∀ L,
  (∀ c, L <= c < L + length bl → V' c = V c) → install_writes V' L bl = install_writes V L bl.
Proof using Type.
  induction bl as [|home bl IH]; intros L HV; [done|]. cbn [install_writes length] in *.
  rewrite HV by lia. f_equal. apply IH. intros c Hc. apply HV. lia.
Qed.

Lemma log_writes_ext V V' bl : ∀ L,
  (∀ c, c ∈ bl → V' c = V c) → log_writes V' L bl = log_writes V L bl.
Proof using Type.
  induction bl as [|home bl IH]; intros L HV; [done|]. cbn [log_writes].
  rewrite HV by (by left). f_equal. apply IH. intros c Hc. apply HV. by right.
Qed.

Lemma lg_lookup l start lsz bl t home : log_is l start lsz bl → bl !! t = Some home → lh_block l !! t = Some home.
Proof using Type.
  intros [_ _ _ _ Hb _] Ht. rewrite <- Hb in Ht. rewrite lookup_take in Ht. by case_decide.
Qed.

Lemma install_loop pid start lsz bl rest : ∀ t k V Dt,
  drop t bl = rest → log_is (k_log k) start lsz bl → length bl < lsz →
  log_area start lsz (d_size (k_disk k)) → binv k pid V Dt ∅ →
  (∀ b, b ∈ rest ∨ b ∈ Dt → ¬ in_log start lsz b) → (∀ b, b ∈ rest → 0 <= b < d_size (k_disk k)) →
  (size Dt < NBUF)%nat → (NoDup rest ∧ (∀ b, b ∈ rest → b ∈ Dt)) ∨ (S (size Dt) < NBUF)%nat →
  let ws := install_writes V (start + t + 1) rest in
  ∃ k', foreach (seq t (length rest)) install_one k = Ret tt k' ∧
    binv k' pid (apply_writes V ws) (Dt ∖ list_to_set rest) ∅ ∧
    k_disk k' = do_writes (k_disk k) ws ∧ bio_frame k k'.
Proof using DOk.
  induction rest as [|home rest IH]; intros t k V Dt Hdrop Hlog Hlen (Ha1 & Ha2 & Ha3) Hb Hout Hr Hs Hcase ws.
  - exists k. split_and!; [done| |done|apply bio_frame_refl]. cbn. by rewrite difference_empty_L.
  - assert (bl !! t = Some home) as Ht by (rewrite <- (Nat.add_0_r t), <- lookup_drop, Hdrop; done).
    assert (drop (S t) bl = rest) as Hdrop' by (rewrite <- Nat.add_1_r, <- drop_drop, Hdrop; done).
    pose proof (lookup_lt_Some _ _ _ Ht) as Htl.
    set (L := start + t + 1).
    assert (in_log start lsz L) as HL by (unfold in_log, L; lia).
    assert (L ≠ home) as Hne by (intros ->; by apply (Hout home); [left; left|]).
    destruct (install_copy k pid V Dt L t home Hb (lg_lookup _ _ _ _ _ _ Hlog Ht) Hne) as (k1 & R1 & B1 & D1 & F1).
    { intros Hin. by apply (Hout L); [right|]. }
    { unfold in_log in HL. lia. }
    { apply Hr. by left. }
    { done. }
    { destruct Hcase as [[_ Hc]|Hc]; [left; apply Hc; by left|by right]. }
    assert (install_one t k = Ret tt k1) as R.
    { unfold install_one, log_get. mrun. rewrite (lg_dev _ _ _ _ Hlog), (lg_start _ _ _ _ Hlog).
      rewrite u32_small by (unfold is_u32, in_log, L in *; lia). exact R1. }
    assert (size (Dt ∖ {[home]}) ≤ size Dt)%nat as Hs' by (apply subseteq_size; set_solver).
    destruct (IH (S t) k1 (<[home := V L]> V) (Dt ∖ {[home]}) Hdrop') as (k' & R' & B' & D' & F').
    { by rewrite (bio_frame_log _ _ F1). }
    { done. }
    { by rewrite (bf_size _ _ F1). }
    { done. }
    { intros b Hb'. apply Hout. destruct Hb' as [?|Hb']; [left; by right|right; set_solver]. }
    { intros b Hb'. rewrite (bf_size _ _ F1). apply Hr. by right. }
    { lia. }
    { destruct Hcase as [[Hnd Hc]|Hc]; [left|right; lia]. apply NoDup_cons in Hnd as [Hn Hnd]. split; [done|].
      intros b Hb'. apply elem_of_difference. split; [apply Hc; by right|]. intros ->%elem_of_singleton. done. }
    assert (install_writes (<[home := V L]> V) (start + S t + 1) rest = install_writes V (L + 1) rest) as Ews.
    { replace (L + 1) with (start + S t + 1) by (unfold L; lia). apply install_writes_ext. intros c Hc.
      rewrite fn_lookup_insert_ne; [done|]. intros ->. apply (Hout c); [left; by left|].
      assert (length rest = length bl - S t)%nat by (rewrite <- Hdrop', length_drop; done). unfold in_log. lia. }
    rewrite Ews in B', D'. exists k'. cbn [seq length foreach]. mcall R. split_and!.
    + exact R'.
    + cbn [list_to_set]. replace (Dt ∖ ({[home]} ∪ list_to_set rest)) with (Dt ∖ {[home]} ∖ list_to_set rest) by set_solver.
      exact B'.
    + rewrite D', D1. done.
    + by eapply bio_frame_trans.
Qed.

Lemma log_loop pid start lsz bl rest : ∀ t k V Dt,
  drop t bl = rest → log_is (k_log k) start lsz bl → length bl < lsz →
  log_area start lsz (d_size (k_disk k)) → binv k pid V Dt ∅ →
  (∀ b, b ∈ Dt → ¬ in_log start lsz b) → (∀ b, b ∈ rest → b ∈ Dt) → (size Dt < NBUF)%nat →
  let ws := log_writes V (start + t + 1) rest in
  ∃ k', foreach (seq t (length rest)) write_log_one k = Ret tt k' ∧
    binv k' pid (apply_writes V ws) Dt ∅ ∧
    k_disk k' = do_writes (k_disk k) ws ∧ bio_frame k k'.
Proof using DOk.
  induction rest as [|home rest IH]; intros t k V Dt Hdrop Hlog Hlen (Ha1 & Ha2 & Ha3) Hb Hout Hr Hs ws.
  - exists k. split_and!; [done|done|done|apply bio_frame_refl].
  - assert (bl !! t = Some home) as Ht by (rewrite <- (Nat.add_0_r t), <- lookup_drop, Hdrop; done).
    assert (drop (S t) bl = rest) as Hdrop' by (rewrite <- Nat.add_1_r, <- drop_drop, Hdrop; done).
    pose proof (lookup_lt_Some _ _ _ Ht) as Htl.
    set (L := start + t + 1).
    assert (in_log start lsz L) as HL by (unfold in_log, L; lia).
    assert (home ∈ Dt) as Hh by (apply Hr; by left).
    assert (L ≠ home) as Hne by (intros ->; by apply (Hout home)).
    destruct (log_copy k pid V Dt L t home Hb (lg_lookup _ _ _ _ _ _ Hlog Ht) Hne) as (k1 & R1 & B1 & D1 & F1).
    { intros Hin. by apply (Hout L). }
    { unfold in_log in HL. lia. }
    { done. }
    { done. }
    assert (write_log_one t k = Ret tt k1) as R.
    { unfold write_log_one, log_get. mrun. rewrite (lg_dev _ _ _ _ Hlog), (lg_start _ _ _ _ Hlog).
      rewrite u32_small by (unfold is_u32, in_log, L in *; lia). exact R1. }
    destruct (IH (S t) k1 (<[L := V home]> V) Dt Hdrop') as (k' & R' & B' & D' & F').
    { by rewrite (bio_frame_log _ _ F1). }
    { done. }
    { by rewrite (bf_size _ _ F1). }
    { done. }
    { done. }
    { intros b Hb'. apply Hr. by right. }
    { done. }
    assert (log_writes (<[L := V home]> V) (start + S t + 1) rest = log_writes V (L + 1) rest) as Ews.
    { replace (L + 1) with (start + S t + 1) by (unfold L; lia). apply log_writes_ext. intros c Hc.
      rewrite fn_lookup_insert_ne; [done|]. intros <-. apply (Hout L); [apply Hr; by right|done]. }
    rewrite Ews in B', D'. exists k'. cbn [seq length foreach]. mcall R. split_and!.
    + exact R'.
    + exact B'.
    + rewrite D', D1. done.
    + by eapply bio_frame_trans.
Qed.

(** ** The header *)

Lemma write_slots buf (bl : list Z) m : ∀ a k,
  (∀ i, (a ≤ i < a + m)%nat → lh_block (k_log k) !! i = Some (bl !!! i)) →
  foreach (seq a m) (λ i, v <- log_block i ;; modify (upd_buf buf (λ b, set_b_data (put32 (b_data b) (hdr_slot i) v) b))) k
  = Ret tt (upd_buf buf (λ b, set_b_data (puts (λ i, bl !!! i) (b_data b) a m) b) k).
Proof using Type.
  induction m as [|m IH]; intros a k Hl.
  - cbn. unfold ret. f_equal. symmetry. rewrite (upd_buf_ext buf _ id); [|by destruct (buf_at k buf)].
    unfold upd_buf. rewrite list_alter_id by done. by destruct k.
  - cbn [seq foreach]. mcall (log_block_eq a _ k (Hl a ltac:(lia))). rewrite IH.
    + rewrite upd_buf_upd. done.
    + intros i Hi. apply Hl. lia.
Qed.

Lemma lg_total l start lsz bl i : log_is l start lsz bl → (i < length bl)%nat → lh_block l !! i = Some (bl !!! i).
Proof using Type.
  intros Hl Hi. destruct (lookup_lt_is_Some_2 bl i Hi) as [x Hx].
  rewrite (list_lookup_total_correct _ _ _ Hx). by eapply lg_lookup.
Qed.

Lemma write_head_spec k pid V Dt start lsz bl :
  binv k pid V Dt ∅ → log_is (k_log k) start lsz bl → log_area start lsz (d_size (k_disk k)) → 0 < lsz →
  start ∉ Dt → (size Dt < NBUF)%nat → (length bl ≤ 30)%nat →
  let data := hdr_enc (V start) bl in
  ∃ k', write_head k = Ret tt k' ∧ binv k' pid (<[start := data]> V) Dt ∅ ∧
    k_disk k' = write_block start data (k_disk k) ∧ bio_frame k k'.
Proof using DOk.
  intros Hb Hlog (Ha1 & Ha2 & Ha3) Hlsz Hn Hs Hlen data.
  destruct (bread_spec k pid V Dt ∅ start Hb) as (i & k1 & R1 & B1 & D1 & F1); [done|lia| |].
  { right. by rewrite dom_empty_L, union_empty_r_L. }
  unfold write_head, log_get. mrun. rewrite (lg_dev _ _ _ _ Hlog), (lg_start _ _ _ _ Hlog), u32_small by (unfold is_u32; lia).
  mcall R1. rewrite (bio_frame_log _ _ F1), (lg_n _ _ _ _ Hlog), Nat2Z.id.
  assert (H1 : (<[start := i]> ∅ : gmap Z nat) !! start = Some i) by apply lookup_insert_eq.
  assert (∀ j, (0 ≤ j < 0 + length bl)%nat → lh_block (k_log k1) !! j = Some (bl !!! j)) as Hslots.
  { intros j Hj. rewrite (bio_frame_log _ _ F1). apply (lg_total _ start lsz); [done|lia]. }
  rewrite (bind_eq _ _ _ _ _ (write_slots i bl (length bl) 0 (upd_buf i _ k1) Hslots)).
  rewrite upd_buf_upd.
  rewrite (upd_buf_ext i _ (set_b_data data)) by (cbn; by rewrite (held_data _ _ _ _ _ _ _ B1 H1)).
  pose proof (bset_spec k1 pid V Dt _ start i data B1 H1 (hdr_enc_ok _ _ (bi_blocks _ _ _ _ _ Hb start) Hlen)) as B2.
  destruct (bwrite_spec _ pid _ Dt _ start i B2 H1) as (k3 & R3 & B3 & D3 & F3). mcall R3.
  rewrite fn_lookup_insert in D3.
  destruct (brelse_spec k3 pid _ _ _ start i B3 H1) as (k4 & R4 & B4 & D4 & F4).
  { right. by rewrite fn_lookup_insert, D3, disk_block_write. }
  exists k4. rewrite delete_insert_id in B4 by apply lookup_empty.
  replace (Dt ∖ {[start]}) with Dt in B4 by set_solver.
  split_and!; [done|done|rewrite D4, D3; cbn [k_disk upd_buf set_k_bcache]; by rewrite D1|].
  eapply bio_frame_trans; [exact F1|]. eapply bio_frame_trans; [apply bio_frame_upd|]. by eapply bio_frame_trans.
Qed.
End log_spec.
