(* ===== verification/LogCommit.v ===== *)
(** * Commit and recovery, run to their end

    [commit] and [recover_from_log] of src/log.c as functions of the block
    store: the exact list of blocks each writes, in order, and the state each
    leaves. *)

From stdpp Require Import functions.
From S2P Require Import Prelude Mem CString State Mmu Spinlock Kalloc Vm Proc Sleeplock Disk Bio BioSpec Log LogSpec.

(** ** States that differ in the log only *)

Lemma binv_ext k k' pid V Dt H :
  k_bcache k' = k_bcache k → k_disk k' = k_disk k → running k' pid → binv k pid V Dt H → binv k' pid V Dt H.
Proof.
  intros E Ed Hr [_ [o Ho] Hu Hhe Hfr Hda Hdi Hpi Hcl Hbl].
  assert (∀ i, buf_at k' i = buf_at k i) as Eb by (intros; unfold buf_at; by rewrite E).
  assert (∀ i b, caches k' i b ↔ caches k i b) as Ec by (intros; unfold caches; by rewrite Eb).
  split; [done|exists o; by apply (bring_bcache k)|..]; intros *; rewrite ?Eb, ?Ec, ?Ed; eauto.
  - intros Hb. destruct (Hhe _ _ Hb) as (? & [] & ?). split_and!; [done|split; by rewrite Eb|lia..].
  - intros Hi Hd. destruct (Hdi i Hi Hd) as (? & b & ? & ?). split; [done|]. exists b. by rewrite Ec.
  - intros Hb. destruct (Hpi b Hb) as (? & i & ? & ?). split; [done|]. exists i. by rewrite Ec, Eb.
Qed.

Lemma running_ext k k' pid : k_held k' = k_held k → k_cur k' = k_cur k → k_ptable k' = k_ptable k →
  running k pid → running k' pid.
Proof. intros E1 E2 E3. unfold running, proc_at. by rewrite E1, E2, E3. Qed.

Lemma binv_set_log l k pid V Dt H : binv k pid V Dt H → binv (set_k_log l k) pid V Dt H.
Proof. intros Hb. apply (binv_ext k); [done|done|apply (bi_run _ _ _ _ _ Hb)|done]. Qed.

(** What the routines of the log leave alone. *)
Definition log_frame (k k' : kernel) : Prop := bio_frame (set_k_log (k_log k') k) k'.

Lemma bio_frame_set_log l k k' : bio_frame k k' → bio_frame (set_k_log l k) (set_k_log l k').
Proof.
  intros [Ha Hp Hs]. split; [|done|done].
  change (set_k_log l (apart k') = set_k_log l (apart k)). by rewrite Ha.
Qed.

Lemma log_frame_bio k k' : bio_frame k k' → log_frame k k'.
Proof.
  intros Hf. unfold log_frame. rewrite (bio_frame_log _ _ Hf).
  replace (set_k_log (k_log k) k) with k by (by destruct k). done.
Qed.

Lemma log_frame_trans k1 k2 k3 : log_frame k1 k2 → log_frame k2 k3 → log_frame k1 k3.
Proof.
  unfold log_frame. intros H1 H2. eapply bio_frame_trans; [|exact H2].
  apply (bio_frame_set_log (k_log k3)) in H1. by destruct k1.
Qed.

Lemma log_frame_set_log l k : log_frame k (set_k_log l k).
Proof. apply bio_frame_refl. Qed.

Lemma log_frame_size k k' : log_frame k k' → d_size (k_disk k') = d_size (k_disk k).
Proof. intros H. by rewrite (bf_size _ _ H). Qed.

Lemma log_frame_running k k' pid : log_frame k k' → running k pid → running k' pid.
Proof. intros Hf Hr. eapply running_frame; [exact Hf|]. done. Qed.

Lemma empty_room : (size ((∅ : gset Z) ∪ dom (∅ : gmap Z nat)) < NBUF)%nat.
Proof. rewrite dom_empty_L, union_empty_r_L, size_empty. unfold NBUF. lia. Qed.

(** ** Reading the header *)

(** A header the code can take: the count fits and the homes are outside the log. *)
Record hdr_ok (start lsz nblocks : Z) (data : list Z) : Prop := {
  ho_pos : 0 <= i32 (get32 data 0);
  ho_max : (hdr_n data ≤ 30)%nat;
  ho_fits : hdr_n data < lsz;
  ho_homes : ∀ b, b ∈ hdr_dec data → ¬ in_log start lsz b ∧ 0 <= b < nblocks;
  ho_sb : 1 ∉ hdr_dec data
}.

Section commit.
Context `{W : Wakeups} `{D : DiskDriver} `{DOk : !DiskDriverOk D}.

Lemma set_log_block_eq i b k :
  (i < length (lh_block (k_log k)))%nat →
  set_log_block i b k = Ret tt (set_k_log (set_lh_block (<[i := b]> (lh_block (k_log k))) (k_log k)) k).
Proof using Type.
  intros Hi. unfold set_log_block, log_get, upd_log. mrun. by rewrite (proj2 (Nat.ltb_lt _ _)).
Qed.

(** The loop of [read_head]. *)
Lemma read_slots (g : nat → Z) m : ∀ a k,
  (a + m ≤ length (lh_block (k_log k)))%nat →
  ∃ blocks, foreach (seq a m) (λ i, set_log_block i (g i)) k = Ret tt (set_k_log (set_lh_block blocks (k_log k)) k) ∧
    length blocks = length (lh_block (k_log k)) ∧
    (∀ i, (i < a)%nat → blocks !! i = lh_block (k_log k) !! i) ∧
    (∀ i, (a ≤ i < a + m)%nat → blocks !! i = Some (g i)).
Proof using Type.
  induction m as [|m IH]; intros a k Hlen.
  - exists (lh_block (k_log k)). split_and!; [|done|done|lia]. cbn. unfold ret. f_equal. by destruct k as [? ? ? ? ? ? ? ? ? ? ? ? ? ? ? ? ? [] ?].
  - cbn [seq foreach]. rewrite (bind_eq _ _ _ _ _ (set_log_block_eq a (g a) k ltac:(lia))).
    destruct (IH (S a) (set_k_log (set_lh_block (<[a := g a]> (lh_block (k_log k))) (k_log k)) k)) as (bs & R & Hl & H1 & H2).
    { cbn. rewrite length_insert. lia. }
    exists bs. cbn in Hl, H1. rewrite length_insert in Hl. split_and!; [by rewrite R|done|..].
    + intros i Hi. rewrite H1 by lia. apply list_lookup_insert_ne. lia.
    + intros i Hi. destruct (decide (i = a)) as [->|Hne].
      * rewrite H1 by lia. apply list_lookup_insert_eq. lia.
      * apply H2. lia.
Qed.

(** The log after [initlog] has set its fields. *)
Record log_at (l : log) (start lsz : Z) : Prop := {
  la_dev : l_dev l = ROOTDEV;
  la_start : l_start l = start;
  la_size : l_size l = lsz;
  la_len : length (lh_block l) = Z.to_nat LOGSIZE
}.

(** The fields of the log that count its users. *)
Definition users (l : log) : Z * bool := (l_outstanding l, l_committing l).

Lemma read_head_spec k pid V start lsz :
  binv k pid V ∅ ∅ → log_at (k_log k) start lsz → log_area start lsz (d_size (k_disk k)) → 0 < lsz →
  hdr_ok start lsz (d_size (k_disk k)) (V start) →
  ∃ k', read_head k = Ret tt k' ∧ binv k' pid V ∅ ∅ ∧ k_disk k' = k_disk k ∧
    log_is (k_log k') start lsz (hdr_dec (V start)) ∧ users (k_log k') = users (k_log k) ∧ log_frame k k'.
Proof using DOk.
  intros Hb [Hd Hst Hsz Hlen] (Ha1 & Ha2 & Ha3) Hlsz [Hpos Hmax _ _ _].
  destruct (bread_spec k pid V ∅ ∅ start Hb) as (i & k1 & R1 & B1 & D1 & F1); [done|lia|right; apply empty_room|].
  assert (H1 : (<[start := i]> ∅ : gmap Z nat) !! start = Some i) by apply lookup_insert_eq.
  unfold read_head, log_get, upd_log. mrun. rewrite Hd, Hst, u32_small by (unfold is_u32; lia).
  mcall R1. rewrite (held_data _ _ _ _ _ _ _ B1 H1). cbn [k_log set_k_log set_lh_n lh_n].
  fold (hdr_n (V start)).
  set (k2 := set_k_log (set_lh_n (i32 (get32 (V start) 0)) (k_log k1)) k1).
  destruct (read_slots (λ j, get32 (V start) (hdr_slot j)) (hdr_n (V start)) 0 k2) as (bs & R2 & Hl2 & _ & H2).
  { cbn. rewrite (bio_frame_log _ _ F1), Hlen. change (Z.to_nat LOGSIZE) with 30%nat. lia. }
  mcall R2. set (k3 := set_k_log (set_lh_block bs (k_log k2)) k2).
  assert (binv k3 pid V ∅ (<[start := i]> ∅)) as B3 by (by do 2 apply binv_set_log).
  destruct (brelse_spec k3 pid V ∅ _ start i B3 H1) as (k4 & R4 & B4 & D4 & F4).
  { right. cbn. rewrite D1. by apply (bi_clean _ _ _ _ _ Hb). }
  exists k4. rewrite delete_insert_id in B4 by apply lookup_empty.
  split_and!; [done|done|by rewrite D4| | |].
  - rewrite (bio_frame_log _ _ F4). cbn in Hl2. rewrite (bio_frame_log _ _ F1) in Hl2.
    split; cbn; rewrite ?(bio_frame_log _ _ F1); try done.
    + unfold hdr_dec. rewrite length_fmap, length_seq. unfold hdr_n. lia.
    + unfold hdr_dec. rewrite length_fmap, length_seq. apply list_eq. intros j.
      destruct (decide (j < hdr_n (V start))%nat) as [Hj|Hj].
      * rewrite lookup_take_lt, H2, list_lookup_fmap, lookup_seq_lt by lia. done.
      * rewrite list_lookup_fmap, lookup_seq_ge, lookup_take_ge by lia. done.
    + by rewrite Hl2.
  - rewrite (bio_frame_log _ _ F4). cbn. by rewrite (bio_frame_log _ _ F1).
  - eapply log_frame_trans; [apply log_frame_bio, F1|].
    eapply log_frame_trans; [|apply log_frame_bio, F4]. by eapply log_frame_trans; apply log_frame_set_log.
Qed.

(** ** Installing, recovering, committing *)

Lemma install_trans_spec k pid V Dt start lsz bl :
  binv k pid V Dt ∅ → log_is (k_log k) start lsz bl → length bl < lsz → log_area start lsz (d_size (k_disk k)) →
  (∀ b, b ∈ bl ∨ b ∈ Dt → ¬ in_log start lsz b) → (∀ b, b ∈ bl → 0 <= b < d_size (k_disk k)) →
  (size Dt < NBUF)%nat → (NoDup bl ∧ (∀ b, b ∈ bl → b ∈ Dt)) ∨ (S (size Dt) < NBUF)%nat →
  let ws := install_writes V (start + 1) bl in
  ∃ k', install_trans k = Ret tt k' ∧ binv k' pid (apply_writes V ws) (Dt ∖ list_to_set bl) ∅ ∧
    k_disk k' = do_writes (k_disk k) ws ∧ bio_frame k k'.
Proof using DOk.
  intros Hb Hl Hlen Ha Hout Hr Hs Hc ws. unfold install_trans, log_get. mrun.
  rewrite (lg_n _ _ _ _ Hl), Nat2Z.id.
  pose proof (install_loop pid start lsz bl bl 0 k V Dt) as H. rewrite Z.add_0_r in H. by apply H.
Qed.

Lemma write_log_spec k pid V Dt start lsz bl :
  binv k pid V Dt ∅ → log_is (k_log k) start lsz bl → length bl < lsz → log_area start lsz (d_size (k_disk k)) →
  (∀ b, b ∈ Dt → ¬ in_log start lsz b) → (∀ b, b ∈ bl → b ∈ Dt) → (size Dt < NBUF)%nat →
  let ws := log_writes V (start + 1) bl in
  ∃ k', write_log k = Ret tt k' ∧ binv k' pid (apply_writes V ws) Dt ∅ ∧
    k_disk k' = do_writes (k_disk k) ws ∧ bio_frame k k'.
Proof using DOk.
  intros Hb Hl Hlen Ha Hout Hr Hs ws. unfold write_log, log_get. mrun.
  rewrite (lg_n _ _ _ _ Hl), Nat2Z.id.
  pose proof (log_loop pid start lsz bl bl 0 k V Dt) as H. rewrite Z.add_0_r in H. by apply H.
Qed.

Lemma apply_writes_app V ws1 ws2 : apply_writes V (ws1 ++ ws2) = apply_writes (apply_writes V ws1) ws2.
Proof using Type. apply foldl_app. Qed.

Lemma do_writes_app d ws1 ws2 : do_writes d (ws1 ++ ws2) = do_writes (do_writes d ws1) ws2.
Proof using Type. apply foldl_app. Qed.

Lemma apply_writes_ne V ws b : b ∉ ws.*1 → apply_writes V ws b = V b.
Proof using Type.
  revert V. induction ws as [|w ws IH]; intros V Hb; [done|]. cbn in *. rewrite not_elem_of_cons in Hb.
  change (apply_writes (<[w.1 := w.2]> V) ws b = V b). rewrite IH by tauto.
  rewrite fn_lookup_insert_ne; [done|]. intros <-. tauto.
Qed.

Lemma install_writes_fst V bl : ∀ L, (install_writes V L bl).*1 = bl.
Proof using Type. induction bl as [|h bl IH]; intros L; [done|]. cbn. by rewrite IH. Qed.

Lemma log_writes_fst V bl b : ∀ L, b ∈ (log_writes V L bl).*1 → L <= b < L + length bl.
Proof using Type.
  induction bl as [|h bl IH]; intros L; cbn; [by intros ?%elem_of_nil|].
  intros [->|Hb]%elem_of_cons; [lia|]. apply IH in Hb. lia.
Qed.

Lemma lg_clear l start lsz bl : log_is l start lsz bl → log_is (set_lh_n 0 l) start lsz [].
Proof using Type. intros [? ? ? ? ? ?]. by split. Qed.

(** The writes of a recovery from contents [V], and of a commit of [bl]. *)
Definition recovery_writes (V : Z → list Z) (start : Z) : list (Z * list Z) :=
  install_writes V (start + 1) (hdr_dec (V start)) ++ [(start, hdr_enc (V start) [])].

Definition commit_writes (V : Z → list Z) (start : Z) (bl : list Z) : list (Z * list Z) :=
  let ws1 := log_writes V (start + 1) bl in
  let head := hdr_enc (V start) bl in
  ws1 ++ (start, head) ::
    install_writes (<[start := head]> (apply_writes V ws1)) (start + 1) bl ++
    [(start, hdr_enc head [])].

Lemma recover_from_log_spec k pid V start lsz :
  binv k pid V ∅ ∅ → log_at (k_log k) start lsz → log_area start lsz (d_size (k_disk k)) →
  hdr_ok start lsz (d_size (k_disk k)) (V start) →
  let ws := recovery_writes V start in
  ∃ k', recover_from_log k = Ret tt k' ∧ binv k' pid (apply_writes V ws) ∅ ∅ ∧
    k_disk k' = do_writes (k_disk k) ws ∧ log_is (k_log k') start lsz [] ∧
    users (k_log k') = users (k_log k) ∧ log_frame k k'.
Proof using DOk.
  intros Hb Hl Ha Hok ws. pose proof (ho_fits _ _ _ _ Hok) as Hlsz.
  destruct (read_head_spec k pid V start lsz Hb Hl Ha) as (k1 & R1 & B1 & D1 & L1 & U1 & F1); [lia|done|].
  assert (length (hdr_dec (V start)) = hdr_n (V start)) as El by (unfold hdr_dec; by rewrite length_fmap, length_seq).
  destruct (install_trans_spec k1 pid V ∅ start lsz _ B1 L1) as (k2 & R2 & B2 & D2 & F2).
  { by rewrite El. }
  { by rewrite D1. }
  { intros b [Hin|?]; [by apply (ho_homes _ _ _ _ Hok)|set_solver]. }
  { rewrite D1. intros b Hin. by apply (ho_homes _ _ _ _ Hok). }
  { rewrite size_empty. unfold NBUF. lia. }
  { right. rewrite size_empty. unfold NBUF. lia. }
  set (k3 := set_k_log (set_lh_n 0 (k_log k2)) k2).
  set (V1 := apply_writes V (install_writes V (start + 1) (hdr_dec (V start)))) in *.
  assert (V1 start = V start) as Es.
  { apply apply_writes_ne. rewrite install_writes_fst. intros Hin%(ho_homes _ _ _ _ Hok). destruct Hin as [Hin _].
    apply Hin. unfold in_log. lia. }
  assert (binv k3 pid V1 ∅ ∅) as B3.
  { apply binv_set_log. by replace (∅ ∖ list_to_set (hdr_dec (V start))) with (∅ : gset Z) in B2 by set_solver. }
  destruct (write_head_spec k3 pid V1 ∅ start lsz [] B3) as (k4 & R4 & B4 & D4 & F4).
  { apply (lg_clear _ _ _ (hdr_dec (V start))). by rewrite (bio_frame_log _ _ F2). }
  { cbn. by rewrite (bf_size _ _ F2), (log_frame_size _ _ F1). }
  { lia. }
  { set_solver. }
  { rewrite size_empty. unfold NBUF. lia. }
  { cbn. lia. }
  rewrite Es in B4, D4. exists k4. unfold recover_from_log, upd_log.
  mcall R1. mcall R2. fold k3. split_and!.
  - exact R4.
  - unfold ws, recovery_writes. rewrite apply_writes_app. exact B4.
  - rewrite D4. unfold ws, recovery_writes. rewrite do_writes_app. cbn. by rewrite D2, D1.
  - rewrite (bio_frame_log _ _ F4). apply (lg_clear _ _ _ (hdr_dec (V start))). by rewrite (bio_frame_log _ _ F2).
  - rewrite (bio_frame_log _ _ F4). cbn. rewrite (bio_frame_log _ _ F2). exact U1.
  - eapply log_frame_trans; [exact F1|]. eapply log_frame_trans; [apply log_frame_bio, F2|].
    eapply log_frame_trans; [apply log_frame_set_log|apply log_frame_bio, F4].
Qed.

(** The blocks of a transaction: distinct, outside the log, few enough, and the
    superblock is not one of them. *)
Record tx_blocks (start lsz : Z) (bl : list Z) : Prop := {
  tb_nodup : NoDup bl;
  tb_out : ∀ b, b ∈ bl → ¬ in_log start lsz b;
  tb_fits : length bl < lsz;
  tb_max : (length bl < NBUF)%nat;
  tb_sb : 1 ∉ bl
}.

Lemma size_list bl : NoDup bl → size (list_to_set bl : gset Z) = length bl.
Proof using Type. apply size_list_to_set. Qed.

(** The first half of [commit]: the blocks are in the log, and the header that makes them count is on the disk. *)
Lemma commit_logged k pid V start lsz bl :
  binv k pid V (list_to_set bl) ∅ → log_is (k_log k) start lsz bl → log_area start lsz (d_size (k_disk k)) →
  tx_blocks start lsz bl →
  let ws := log_writes V (start + 1) bl ++ [(start, hdr_enc (V start) bl)] in
  ∃ k1 k2, write_log k = Ret tt k1 ∧ write_head k1 = Ret tt k2 ∧ binv k2 pid (apply_writes V ws) (list_to_set bl) ∅ ∧
    k_disk k2 = do_writes (k_disk k) ws ∧ bio_frame k k2.
Proof using DOk.
  intros Hb Hl Ha [Hnd Hout Hfits Hmax _] ws. set (Dt := list_to_set bl : gset Z) in *.
  assert (∀ b, b ∈ bl ↔ b ∈ Dt) as HDt by (intros; unfold Dt; by rewrite elem_of_list_to_set).
  assert (size Dt < NBUF)%nat as Hs by (unfold Dt; by rewrite size_list).
  assert (in_log start lsz start) as Hin by (unfold in_log; lia).
  set (ws1 := log_writes V (start + 1) bl) in *. set (V1 := apply_writes V ws1).
  destruct (write_log_spec k pid V Dt start lsz bl Hb Hl Hfits Ha) as (k1 & R1 & B1 & D1 & F1).
  { intros b ?%HDt. by apply Hout. }
  { intros b. apply HDt. }
  { done. }
  fold ws1 V1 in B1, D1.
  assert (V1 start = V start) as E1.
  { apply apply_writes_ne. intros Hx%log_writes_fst. lia. }
  destruct (write_head_spec k1 pid V1 Dt start lsz bl B1) as (k2 & R2 & B2 & D2 & F2).
  { by rewrite (bio_frame_log _ _ F1). }
  { by rewrite (bf_size _ _ F1). }
  { lia. }
  { intros ?%HDt. by apply (Hout start). }
  { done. }
  { unfold NBUF in Hmax. lia. }
  rewrite E1 in B2, D2. exists k1, k2. split_and!; [done|done| | |by eapply bio_frame_trans].
  - unfold ws. rewrite apply_writes_app. exact B2.
  - unfold ws. rewrite do_writes_app, <- D1. exact D2.
Qed.

(** The second half: the blocks are copied home and the header is cleared. *)
Lemma commit_installed k pid V start lsz bl head :
  binv k pid V (list_to_set bl) ∅ → log_is (k_log k) start lsz bl → log_area start lsz (d_size (k_disk k)) →
  tx_blocks start lsz bl → V start = head →
  let ws := install_writes V (start + 1) bl ++ [(start, hdr_enc head [])] in
  ∃ k1 k', install_trans k = Ret tt k1 ∧ write_head (set_k_log (set_lh_n 0 (k_log k1)) k1) = Ret tt k' ∧
    binv k' pid (apply_writes V ws) ∅ ∅ ∧ k_disk k' = do_writes (k_disk k) ws ∧
    k_log k' = set_lh_n 0 (k_log k) ∧ log_frame k k'.
Proof using DOk.
  intros Hb Hl Ha [Hnd Hout Hfits Hmax _] Hhead ws. set (Dt := list_to_set bl : gset Z) in *.
  assert (∀ b, b ∈ bl ↔ b ∈ Dt) as HDt by (intros; unfold Dt; by rewrite elem_of_list_to_set).
  assert (size Dt < NBUF)%nat as Hs by (unfold Dt; by rewrite size_list).
  assert (in_log start lsz start) as Hin by (unfold in_log; lia).
  set (ws3 := install_writes V (start + 1) bl) in *.
  destruct (install_trans_spec k pid V Dt start lsz bl Hb Hl) as (k3 & R3 & B3 & D3 & F3).
  { done. }
  { done. }
  { intros b [?|?%HDt]; by apply Hout. }
  { intros b ?%HDt. by apply (bi_pinned _ _ _ _ _ Hb). }
  { done. }
  { left. split; [done|apply HDt]. }
  fold ws3 in B3, D3. set (k4 := set_k_log (set_lh_n 0 (k_log k3)) k3).
  assert (apply_writes V ws3 start = head) as E3.
  { rewrite apply_writes_ne; [done|]. unfold ws3. rewrite install_writes_fst. intros Hx. by apply (Hout start). }
  destruct (write_head_spec k4 pid (apply_writes V ws3) (Dt ∖ list_to_set bl) start lsz []) as (k5 & R5 & B5 & D5 & F5).
  { by apply binv_set_log. }
  { eapply lg_clear. by rewrite (bio_frame_log _ _ F3). }
  { cbn. by rewrite (bf_size _ _ F3). }
  { lia. }
  { set_solver. }
  { assert (size (Dt ∖ list_to_set bl) ≤ size Dt)%nat by (apply subseteq_size; set_solver). lia. }
  { cbn. lia. }
  rewrite E3 in B5, D5. replace (Dt ∖ list_to_set bl) with (∅ : gset Z) in B5 by (unfold Dt; set_solver).
  exists k3, k5. split_and!; [done|done| | | |].
  - unfold ws. rewrite apply_writes_app. exact B5.
  - unfold ws. rewrite do_writes_app, <- D3. exact D5.
  - by rewrite (bio_frame_log _ _ F5), <- (bio_frame_log _ _ F3).
  - eapply log_frame_trans; [apply log_frame_bio, F3|].
    eapply log_frame_trans; [apply log_frame_set_log|apply log_frame_bio, F5].
Qed.

Lemma commit_spec k pid V start lsz bl :
  binv k pid V (list_to_set bl) ∅ → log_is (k_log k) start lsz bl → log_area start lsz (d_size (k_disk k)) →
  tx_blocks start lsz bl → bl ≠ [] →
  let ws := commit_writes V start bl in
  ∃ k', commit k = Ret tt k' ∧ binv k' pid (apply_writes V ws) ∅ ∅ ∧
    k_disk k' = do_writes (k_disk k) ws ∧ k_log k' = set_lh_n 0 (k_log k) ∧ log_frame k k'.
Proof using DOk.
  intros Hb Hl Ha Ht Hne ws. destruct (commit_logged k pid V start lsz bl Hb Hl Ha Ht) as (k1 & k2 & R1 & R2 & B2 & D2 & F2).
  set (head := hdr_enc (V start) bl) in *. set (ws1 := log_writes V (start + 1) bl) in *.
  set (V2 := apply_writes V (ws1 ++ [(start, head)])) in *.
  destruct (commit_installed k2 pid V2 start lsz bl head B2) as (k3 & k' & R3 & R4 & B4 & D4 & L4 & F4).
  { by rewrite (bio_frame_log _ _ F2). }
  { by rewrite (bf_size _ _ F2). }
  { done. }
  { unfold V2. rewrite apply_writes_app. apply fn_lookup_insert. }
  assert (ws = (ws1 ++ [(start, head)]) ++ install_writes V2 (start + 1) bl ++ [(start, hdr_enc head [])]) as Ews.
  { unfold ws, commit_writes. fold ws1 head. unfold V2. rewrite apply_writes_app, <- app_assoc. done. }
  exists k'. unfold commit, log_get, upd_log. mrun. rewrite (lg_n _ _ _ _ Hl), Z.gtb_ltb.
  rewrite (proj2 (Z.ltb_lt _ _)) by (destruct bl; [done|cbn; lia]). cbn [when].
  mcall R1. mcall R2. mcall R3. rewrite Ews. split_and!.
  - exact R4.
  - rewrite apply_writes_app. exact B4.
  - rewrite do_writes_app, <- D2. exact D4.
  - by rewrite L4, (bio_frame_log _ _ F2).
  - eapply log_frame_trans; [apply log_frame_bio, F2|exact F4].
Qed.
End commit.
