(* ===== verification/LogCrash.v ===== *)
(** * Crashes between disk writes

    A crash leaves the disk with a prefix of the writes that were under way.
    This file relates the contents a recovery makes of each such prefix to the
    contents before and after the transaction; it is about the write lists of
    LogCommit.v only. *)

From stdpp Require Import functions.
From S2P Require Import Prelude Mem CString State Mmu Spinlock Kalloc Vm Proc Sleeplock Disk Bio BioSpec Log LogSpec LogCommit.

(** The contents outside the log. *)
Definition same_home (start lsz : Z) (C C' : Z → list Z) : Prop :=
  ∀ b, ¬ in_log start lsz b → C b = C' b.

#[export] Instance same_home_equiv start lsz : Equivalence (same_home start lsz).
Proof.
  split; [by intros C b|by intros C C' H b Hb; rewrite H|]. intros C1 C2 C3 H1 H2 b Hb. by rewrite H1, H2.
Qed.

(** The contents a recovery makes of [C], up to the cleared header. *)
Definition recovered (start : Z) (C : Z → list Z) : Z → list Z :=
  apply_writes C (install_writes C (start + 1) (hdr_dec (C start))).

Lemma prefix_app_cases {A} (p l1 l2 : list A) :
  p `prefix_of` l1 ++ l2 → p `prefix_of` l1 ∨ ∃ q, p = l1 ++ q ∧ q `prefix_of` l2.
Proof.
  revert p. induction l1 as [|x l1 IH]; intros p Hp; [right; by exists p|].
  destruct p as [|y p]; [left; apply prefix_nil|]. cbn in Hp. apply prefix_cons_inv_1 in Hp as Hx.
  apply prefix_cons_inv_2 in Hp as Hp'. subst. destruct (IH p Hp') as [?|(q & -> & ?)].
  - left. by apply prefix_cons.
  - right. by exists q.
Qed.

Lemma prefix_snoc_cases {A} (p l : list A) x : p `prefix_of` l ++ [x] → p `prefix_of` l ∨ p = l ++ [x].
Proof.
  intros [?|(q & -> & Hq)]%prefix_app_cases; [by left|]. destruct q as [|y q].
  - left. by rewrite app_nil_r.
  - right. apply prefix_cons_inv_1 in Hq as Hx. apply prefix_cons_inv_2, prefix_nil_inv in Hq. by subst.
Qed.

Lemma prefix_fst {A B} (p l : list (A * B)) x : p `prefix_of` l → x ∈ p.*1 → x ∈ l.*1.
Proof. intros [q ->] Hx. rewrite fmap_app, elem_of_app. by left. Qed.

(** Whether a block is written decides where its contents come from. *)
Lemma apply_writes_indep C C' ws b : b ∈ ws.*1 → apply_writes C ws b = apply_writes C' ws b.
Proof.
  revert C C'. induction ws as [|w ws IH]; intros C C' Hb; cbn in Hb; [by apply elem_of_nil in Hb|].
  change (apply_writes (<[w.1 := w.2]> C) ws b = apply_writes (<[w.1 := w.2]> C') ws b).
  destruct (decide (b ∈ ws.*1)) as [Hin|Hn]; [by apply IH|].
  apply elem_of_cons in Hb as [->|?]; [|done]. rewrite !apply_writes_ne by done. by rewrite !fn_lookup_insert.
Qed.

(** [bl] written with the contents [V] gives them. *)
Definition homes (V : Z → list Z) (bl : list Z) : list (Z * list Z) := (λ h, (h, V h)) <$> bl.

Lemma homes_fst V bl : (homes V bl).*1 = bl.
Proof. unfold homes. rewrite <- list_fmap_compose. apply list_fmap_id. Qed.

Lemma apply_homes C V bl b : b ∈ bl → apply_writes C (homes V bl) b = V b.
Proof.
  revert C. induction bl as [|h bl IH]; intros C Hb; [by apply elem_of_nil in Hb|].
  change (apply_writes (<[h := V h]> C) (homes V bl) b = V b).
  destruct (decide (b ∈ bl)) as [Hin|Hn]; [by apply IH|]. apply elem_of_cons in Hb as [->|?]; [|done].
  rewrite apply_writes_ne by (by rewrite homes_fst). apply fn_lookup_insert.
Qed.

(** Once the log has been written, installing from it writes the view. *)
Lemma install_logged C V bl : ∀ L, install_writes (apply_writes C (log_writes V L bl)) L bl = homes V bl.
Proof.
  revert C. induction bl as [|h bl IH]; intros C L; [done|]. cbn [install_writes log_writes homes fmap list_fmap].
  change (apply_writes C ((L, V h) :: log_writes V (L + 1) bl)) with (apply_writes (<[L := V h]> C) (log_writes V (L + 1) bl)).
  f_equal; [|apply IH]. f_equal. rewrite apply_writes_ne; [apply fn_lookup_insert|]. intros H%log_writes_fst. lia.
Qed.

Section crash.
Context (start lsz nblocks : Z) (Hlsz : 0 < lsz).

Lemma in_log_start : in_log start lsz start.
Proof using Hlsz. unfold in_log. lia. Qed.

Lemma hdr_dec_nil data : block_ok data → hdr_dec (hdr_enc data []) = [].
Proof. intros H. apply hdr_round_trip; [done|cbn; lia|by constructor]. Qed.

Lemma hdr_dec_length data : length (hdr_dec data) = hdr_n data.
Proof. unfold hdr_dec. by rewrite length_fmap, length_seq. Qed.

Lemma hdr_enc_pos data bl : block_ok data → (length bl ≤ 30)%nat → i32 (get32 (hdr_enc data bl) 0) = length bl.
Proof.
  intros Hd Hn. unfold hdr_enc. rewrite (get32_puts_before (λ i, bl !!! i) 0 (length bl) 0).
  - rewrite get32_put32_same by (rewrite (proj1 Hd); unfold BSIZE; lia).
    rewrite u32_small, i32_small by (unfold is_u32; lia). done.
  - apply block_ok_put32; [done|unfold BSIZE; lia].
  - unfold hdr_slot, BSIZE. lia.
  - unfold hdr_slot. lia.
Qed.

(** A written header is one the code can take. *)
Lemma hdr_enc_hdr_ok data bl :
  block_ok data → (length bl ≤ 30)%nat → length bl < lsz → Forall is_u32 bl →
  (∀ b, b ∈ bl → ¬ in_log start lsz b ∧ 0 <= b < nblocks) → 1 ∉ bl → hdr_ok start lsz nblocks (hdr_enc data bl).
Proof.
  intros Hd Hn Hl Hu Hb Hsb. assert (hdr_n (hdr_enc data bl) = length bl) as En.
  { unfold hdr_n. rewrite hdr_enc_pos by done. lia. }
  split; rewrite ?En, ?hdr_enc_pos, ?hdr_round_trip by done; [lia|done|done|done|done].
Qed.

(** A crash while the log is being recovered does not change what recovery gives. *)
Lemma recovery_crash C pre :
  hdr_ok start lsz nblocks (C start) → block_ok (C start) → pre `prefix_of` recovery_writes C start →
  let C' := apply_writes C pre in
  hdr_ok start lsz nblocks (C' start) ∧ same_home start lsz (recovered start C') (recovered start C).
Proof using Hlsz.
  intros Hok Hd Hpre C'. set (bl := hdr_dec (C start)). set (ws := install_writes C (start + 1) bl).
  assert (∀ b, b ∈ ws.*1 → ¬ in_log start lsz b) as Hout.
  { intros b Hb. unfold ws in Hb. rewrite install_writes_fst in Hb. by apply (ho_homes _ _ _ _ Hok). }
  pose proof in_log_start as Hst.
  apply prefix_snoc_cases in Hpre as [Hpre| ->].
  - (* before the header is cleared *)
    assert (∀ c, in_log start lsz c → C' c = C c) as EC.
    { intros c Hc. apply apply_writes_ne. intros Hx%(prefix_fst _ ws); [|done]. by apply (Hout c). }
    rewrite (EC start Hst). split; [done|]. unfold recovered. rewrite (EC start Hst). fold bl.
    rewrite (install_writes_ext C C').
    2: { intros c Hc. apply EC. pose proof (ho_fits _ _ _ _ Hok). unfold in_log.
         unfold bl in Hc. rewrite hdr_dec_length in Hc. lia. }
    fold ws. intros b Hb. destruct (decide (b ∈ ws.*1)) as [Hin|Hn].
    + by apply apply_writes_indep.
    + rewrite !apply_writes_ne by done. apply apply_writes_ne. intros Hx. by apply Hn, (prefix_fst pre).
  - (* after *)
    assert (C' start = hdr_enc (C start) []) as Es.
    { unfold C'. rewrite apply_writes_app. apply fn_lookup_insert. }
    rewrite Es. split; [apply hdr_enc_hdr_ok; [done|cbn; lia|cbn; lia|by constructor|intros b Hx; by apply elem_of_nil in Hx|apply not_elem_of_nil]|].
    unfold recovered. rewrite Es, hdr_dec_nil by done. fold bl ws. intros b Hb. cbn [install_writes apply_writes foldl].
    unfold C'. rewrite apply_writes_app. cbn. rewrite fn_lookup_insert_ne; [done|]. intros <-. done.
Qed.

(** A crash while a transaction is being committed: recovery gives the contents
    before it or those after it, and those after it once the header is written. *)
Section commit_crash.
Context (C V : Z → list Z) (bl : list Z).
Context (Hblocks : tx_blocks start lsz bl) (Hu : Forall is_u32 bl) (Hrange : ∀ b, b ∈ bl → 0 <= b < nblocks).
Context (Hclean : ∀ b, b ∉ bl → V b = C b) (Hempty : i32 (get32 (V start) 0) = 0) (Hok : ∀ b, block_ok (V b)).

Let ws1 := log_writes V (start + 1) bl.
Let head := hdr_enc (V start) bl.

Lemma start_clean : C start = V start.
Proof using All. symmetry. apply Hclean. intros Hx. apply (tb_out _ _ _ Hblocks _ Hx), in_log_start. Qed.

Lemma empty_header data : i32 (get32 data 0) = 0 → hdr_dec data = [] ∧ hdr_ok start lsz nblocks data.
Proof using Hlsz.
  intros E. assert (hdr_dec data = []) as E' by (unfold hdr_dec, hdr_n; by rewrite E).
  split; [done|]. split; unfold hdr_n; rewrite ?E, ?E'; try (cbn; lia).
  - intros b Hx. by apply elem_of_nil in Hx.
  - apply not_elem_of_nil.
Qed.

(** The log being written. *)
Lemma commit_crash_log pre : pre `prefix_of` ws1 →
  let C' := apply_writes C pre in
  hdr_ok start lsz nblocks (C' start) ∧ same_home start lsz (recovered start C') C.
Proof using All.
  intros Hpre C'. assert (∀ b, ¬ (start + 1 <= b < start + 1 + length bl) → C' b = C b) as EC.
  { intros b Hb. apply apply_writes_ne. intros Hx%(prefix_fst _ ws1); [|done]. by apply log_writes_fst in Hx. }
  destruct (empty_header (C' start)) as [E1 E2]; [rewrite EC by lia; by rewrite start_clean|]. split; [done|].
  unfold recovered. rewrite E1. intros b Hb. apply EC. pose proof (tb_fits _ _ _ Hblocks). unfold in_log in Hb. lia.
Qed.

(** The header written, the blocks being installed. *)
Lemma commit_crash_install pre : pre `prefix_of` homes V bl →
  let C' := apply_writes (<[start := head]> (apply_writes C ws1)) pre in
  hdr_ok start lsz nblocks (C' start) ∧ same_home start lsz (recovered start C') V.
Proof using All.
  intros Hpre C'. pose proof in_log_start as Hst. destruct Hblocks as [Hnd Hout Hfits Hmax Hsb].
  assert (length bl ≤ 30)%nat as Hn by (unfold NBUF in Hmax; lia).
  assert (∀ c, in_log start lsz c → C' c = (<[start := head]> (apply_writes C ws1)) c) as EC.
  { intros c Hc. apply apply_writes_ne. intros Hx%(prefix_fst _ (homes V bl)); [|done]. rewrite homes_fst in Hx. by apply (Hout c). }
  assert (C' start = head) as Es by (rewrite (EC start Hst); apply fn_lookup_insert).
  rewrite Es. split; [apply hdr_enc_hdr_ok; [done|done|done|done|naive_solver|done]|].
  unfold recovered. rewrite Es. unfold head. rewrite hdr_round_trip by done.
  rewrite (install_writes_ext (apply_writes C ws1) C').
  2: { intros c Hc. rewrite EC by (unfold in_log; lia). apply fn_lookup_insert_ne. lia. }
  unfold ws1. rewrite install_logged. intros b Hb. destruct (decide (b ∈ bl)) as [Hin|Hni].
  - by apply apply_homes.
  - rewrite apply_writes_ne by (by rewrite homes_fst). rewrite Hclean by done. unfold C'.
    rewrite apply_writes_ne by (intros Hx%(prefix_fst _ (homes V bl)); [by rewrite homes_fst in Hx|done]).
    rewrite fn_lookup_insert_ne by (by intros <-). apply apply_writes_ne. intros Hx%log_writes_fst.
    apply Hb. unfold in_log. lia.
Qed.

(** The header cleared. *)
Lemma commit_crash_done :
  let C' := <[start := hdr_enc head []]> (apply_writes (<[start := head]> (apply_writes C ws1)) (homes V bl)) in
  hdr_ok start lsz nblocks (C' start) ∧ same_home start lsz (recovered start C') V.
Proof using All.
  intros C'. assert (block_ok head) as Hh by (apply hdr_enc_ok; [done|]; pose proof (tb_max _ _ _ Hblocks); unfold NBUF in *; lia).
  assert (C' start = hdr_enc head []) as Es by (unfold C'; apply fn_lookup_insert).
  destruct (commit_crash_install (homes V bl) ltac:(done)) as [_ Hsame].
  rewrite Es. split; [apply hdr_enc_hdr_ok; [done|cbn; lia|cbn; lia|by constructor|intros b Hx; by apply elem_of_nil in Hx|apply not_elem_of_nil]|].
  unfold recovered. rewrite Es, hdr_dec_nil by done. intros b Hb. cbn [install_writes apply_writes foldl].
  unfold C'. rewrite fn_lookup_insert_ne by (intros <-; apply Hb, in_log_start).
  destruct (decide (b ∈ bl)) as [Hin|Hni]; [by apply apply_homes|].
  rewrite apply_writes_ne by (by rewrite homes_fst). rewrite Hclean by done.
  rewrite fn_lookup_insert_ne by (intros <-; apply Hb, in_log_start). apply apply_writes_ne. intros Hx%log_writes_fst.
  apply Hb. pose proof (tb_fits _ _ _ Hblocks). unfold in_log. lia.
Qed.

Lemma commit_writes_eq : commit_writes V start bl = (ws1 ++ (start, head) :: homes V bl) ++ [(start, hdr_enc head [])].
Proof using All.
  unfold commit_writes. fold ws1 head. rewrite (install_writes_ext (apply_writes V ws1)).
  - unfold ws1 at 2. rewrite install_logged. by rewrite <- app_assoc.
  - intros c Hc. apply fn_lookup_insert_ne. lia.
Qed.

Lemma commit_crash pre : pre `prefix_of` commit_writes V start bl →
  let C' := apply_writes C pre in
  hdr_ok start lsz nblocks (C' start) ∧
  (same_home start lsz (recovered start C') C ∨ same_home start lsz (recovered start C') V) ∧
  (pre = commit_writes V start bl → same_home start lsz (recovered start C') V).
Proof using All.
  intros Hpre C'. rewrite commit_writes_eq in *.
  apply prefix_snoc_cases in Hpre as [Hpre| ->].
  - assert (pre ≠ (ws1 ++ (start, head) :: homes V bl) ++ [(start, hdr_enc head [])]) as Hne.
    { intros E. apply prefix_length in Hpre. rewrite E, length_app in Hpre. cbn in Hpre. lia. }
    apply prefix_app_cases in Hpre as [Hpre|(q & -> & Hq)].
    + destruct (commit_crash_log pre Hpre) as [H1 H2]. split_and!; [done|by left|done].
    + destruct q as [|x q].
      * assert (C' = apply_writes C ws1) as -> by (unfold C'; by rewrite app_nil_r).
        destruct (commit_crash_log ws1 ltac:(done)) as [H1 H2]. split_and!; [done|by left|done].
      * apply prefix_cons_inv_1 in Hq as Hx. apply prefix_cons_inv_2 in Hq. subst x.
        destruct (commit_crash_install q Hq) as [H1 H2].
        assert (C' = apply_writes (<[start := head]> (apply_writes C ws1)) q) as -> by (unfold C'; by rewrite apply_writes_app).
        split_and!; [done|by right|done].
  - destruct commit_crash_done as [H1 H2]. unfold C'. rewrite apply_writes_app, apply_writes_app. split_and!; [done|by right|done].
Qed.
End commit_crash.

Lemma recovered_writes C : same_home start lsz (apply_writes C (recovery_writes C start)) (recovered start C).
Proof using Hlsz.
  intros b Hb. unfold recovery_writes. rewrite apply_writes_app. cbn.
  rewrite fn_lookup_insert_ne; [done|]. intros <-. apply Hb, in_log_start.
Qed.
End crash.

(** Writes of whole blocks keep every block whole. *)
Definition writes_ok (ws : list (Z * list Z)) : Prop := Forall (λ w, block_ok w.2) ws.

Lemma apply_writes_ok C ws : (∀ b, block_ok (C b)) → writes_ok ws → ∀ b, block_ok (apply_writes C ws b).
Proof.
  intros HC Hw. revert C HC. induction Hw as [|w ws Hw Hws IH]; intros C HC; [done|].
  apply (IH (<[w.1 := w.2]> C)). intros b. destruct (decide (w.1 = b)) as [<-|].
  - by rewrite fn_lookup_insert.
  - by rewrite fn_lookup_insert_ne.
Qed.

Lemma install_writes_ok V bl : (∀ b, block_ok (V b)) → ∀ L, writes_ok (install_writes V L bl).
Proof. intros HV. induction bl as [|h bl IH]; intros L; constructor; [apply HV|apply IH]. Qed.

Lemma log_writes_ok V bl : (∀ b, block_ok (V b)) → ∀ L, writes_ok (log_writes V L bl).
Proof. intros HV. induction bl as [|h bl IH]; intros L; constructor; [apply HV|apply IH]. Qed.

Lemma recovery_writes_ok V start : (∀ b, block_ok (V b)) → writes_ok (recovery_writes V start).
Proof.
  intros HV. apply Forall_app. split; [by apply install_writes_ok|]. constructor; [|by constructor].
  apply hdr_enc_ok; [done|cbn; lia].
Qed.

Lemma commit_writes_ok V start bl : (∀ b, block_ok (V b)) → (length bl ≤ 30)%nat → writes_ok (commit_writes V start bl).
Proof.
  intros HV Hn. assert (block_ok (hdr_enc (V start) bl)) as Hh by (by apply hdr_enc_ok).
  assert (∀ b, block_ok (apply_writes V (log_writes V (start + 1) bl) b)) as HV1 by (by apply apply_writes_ok; [|apply log_writes_ok]).
  unfold commit_writes, writes_ok. rewrite Forall_app, Forall_cons, Forall_app. split_and!.
  - by apply log_writes_ok.
  - done.
  - apply install_writes_ok. intros b. destruct (decide (start = b)) as [<-|].
    + by rewrite fn_lookup_insert.
    + by rewrite fn_lookup_insert_ne.
  - constructor; [|by constructor]. by apply hdr_enc_ok; [|cbn; lia].
Qed.

Lemma prefix_ok ws pre : writes_ok ws → pre `prefix_of` ws → writes_ok pre.
Proof. intros Hw [q ->]. by apply Forall_app in Hw as [? _]. Qed.

Lemma disk_block_writes ws : ∀ d b, disk_block (do_writes d ws) b = apply_writes (disk_block d) ws b.
Proof.
  induction ws as [|w ws IH]; intros d b; [done|].
  change (disk_block (do_writes (write_block w.1 w.2 d) ws) b = apply_writes (<[w.1 := w.2]> (disk_block d)) ws b).
  rewrite IH. destruct (decide (b ∈ ws.*1)) as [Hin|Hn]; [by apply apply_writes_indep|].
  rewrite !apply_writes_ne by done. destruct (decide (w.1 = b)) as [<-|].
  - by rewrite disk_block_write, fn_lookup_insert.
  - by rewrite disk_block_write_ne, fn_lookup_insert_ne.
Qed.
