(* ===== verification/LogTx.v ===== *)
(** * Transactions: what the log promises to the file system

    [tx] is the state of the kernel inside a transaction, as the file system
    uses it: the contents [V] it sees, the list [bl] of blocks it has written,
    the blocks [H] it holds.  [begin_op], [bread], [log_write], [brelse] and
    [end_op] are given their meaning on it. *)

From stdpp Require Import functions.
From S2P Require Import Prelude Mem CString State Mmu Spinlock Kalloc Vm Proc Sleeplock Disk Bio BioSpec Log LogSpec LogCommit LogCrash.

Record tx (start lsz : Z) (k : kernel) (pid : Z) (V : Z → list Z) (bl : list Z) (H : gmap Z nat) : Prop := {
  tx_inv : binv k pid V (list_to_set bl) H;
  tx_log : log_is (k_log k) start lsz bl;
  tx_area : log_area start lsz (d_size (k_disk k));
  tx_blks : tx_blocks start lsz bl;
  tx_empty : i32 (get32 (V start) 0) = 0;
  tx_free : ∀ b, in_log start lsz b → H !! b = None;
  tx_idle : l_committing (k_log k) = false
}.

Definition add_block (b : Z) (bl : list Z) : list Z := if bool_decide (b ∈ bl) then bl else bl ++ [b].

(** A transaction may write another block. *)
Definition tx_room (lsz : Z) (bl : list Z) : Prop := length bl + 1 < lsz ∧ (length bl + 1 < NBUF)%nat.

Lemma find_index_eqb (l : list Z) b :
  find_index (λ x, x =? b) l = None ∧ b ∉ l ∨ ∃ i, find_index (λ x, x =? b) l = Some i ∧ l !! i = Some b ∧ (i < length l)%nat.
Proof.
  destruct (find_index _ l) as [i|] eqn:E.
  - right. exists i. apply find_index_lt in E as Hlt. apply find_index_Some in E as [(x & Hx & ->%Z.eqb_eq) _]. done.
  - left. split; [done|]. rewrite find_index_None in E. intros [i Hi]%list_elem_of_lookup. apply E in Hi.
    by rewrite Z.eqb_refl in Hi.
Qed.

Section tx.
Context `{W : Wakeups} `{D : DiskDriver} `{DOk : !DiskDriverOk D}.
Context (start lsz : Z).
Implicit Types (k : kernel) (pid : Z) (V : Z → list Z) (bl : list Z) (H : gmap Z nat).
Local Notation tx := (tx start lsz).

Lemma tx_start k pid V bl H : tx k pid V bl H → 0 < lsz ∧ in_log start lsz start ∧ start ∉ bl.
Proof using Type.
  intros Ht. pose proof (tb_fits _ _ _ (tx_blks _ _ _ _ _ _ _ Ht)) as Hf.
  assert (in_log start lsz start) as Hin by (unfold in_log; lia). split_and!; [lia|done|].
  intros Hx. by apply (tb_out _ _ _ (tx_blks _ _ _ _ _ _ _ Ht) start).
Qed.

(** Reading a block. *)
Lemma tx_bread k pid V bl H b :
  tx k pid V bl H → H !! b = None → 0 <= b < d_size (k_disk k) → ¬ in_log start lsz b →
  b ∈ bl ∨ (length bl + size H < NBUF)%nat →
  ∃ i k', bread ROOTDEV b k = Ret i k' ∧ tx k' pid V bl (<[b := i]> H) ∧ k_disk k' = k_disk k ∧ bio_frame k k'.
Proof using DOk.
  intros [Hb Hl Ha Hbl He Hf Hi] Hn Hr Ho Hroom.
  destruct (bread_spec k pid V _ H b Hb Hn Hr) as (i & k' & R & B & Dk & F).
  { destruct Hroom as [Hin|Hroom]; [left; by apply elem_of_list_to_set|right].
    pose proof (size_union_le (list_to_set bl) (dom H)) as Hle. rewrite size_list, size_dom in Hle by apply Hbl. lia. }
  exists i, k'. split_and!; [done| |done|done].
  split; [done|by rewrite (bio_frame_log _ _ F)|by rewrite Dk|done|done| |by rewrite (bio_frame_log _ _ F)].
  intros c Hc. rewrite lookup_insert_ne; [by apply Hf|]. by intros <-.
Qed.

Lemma tx_set k pid V bl H b i data :
  tx k pid V bl H → H !! b = Some i → block_ok data →
  tx (upd_buf i (set_b_data data) k) pid (<[b := data]> V) bl H.
Proof using Type.
  intros [Hb Hl Ha Hbl He Hf Hi] Hh Hok. split; try done; [by apply bset_spec|].
  rewrite fn_lookup_insert_ne; [done|]. intros ->. pose proof (tb_fits _ _ _ Hbl). rewrite Hf in Hh; [done|]. unfold in_log. lia.
Qed.

Lemma tx_brelse k pid V bl H b i :
  tx k pid V bl H → H !! b = Some i → b ∈ bl ∨ V b = disk_block (k_disk k) b →
  ∃ k', brelse i k = Ret tt k' ∧ tx k' pid V bl (delete b H) ∧ k_disk k' = k_disk k ∧ bio_frame k k'.
Proof using DOk.
  intros [Hb Hl Ha Hbl He Hf Hi] Hh Hcl.
  destruct (brelse_spec k pid V _ H b i Hb Hh) as (k' & R & B & Dk & F).
  { destruct Hcl as [?|?]; [left; by apply elem_of_list_to_set|by right]. }
  exists k'. split_and!; [done| |done|done].
  split; [done|by rewrite (bio_frame_log _ _ F)|by rewrite Dk|done|done| |by rewrite (bio_frame_log _ _ F)].
  intros c Hc. destruct (decide (b = c)) as [->|]; [by rewrite lookup_delete_eq|]. rewrite lookup_delete_ne by done. by apply Hf.
Qed.

Lemma add_block_set b bl : list_to_set (add_block b bl) =@{gset Z} list_to_set bl ∪ {[b]}.
Proof using Type.
  unfold add_block. case_bool_decide as E; [|by rewrite list_to_set_app_L; cbn; rewrite union_empty_r_L].
  apply set_eq. intros c. rewrite elem_of_union, elem_of_singleton, elem_of_list_to_set. naive_solver.
Qed.

Lemma add_block_blocks b bl : tx_blocks start lsz bl → tx_room lsz bl → ¬ in_log start lsz b → b ≠ 1 → tx_blocks start lsz (add_block b bl).
Proof using Type.
  intros [Hn Ho Hf Hm Hs] [Hr1 Hr2] Hb Hb1. unfold add_block. case_bool_decide as E; [done|]. split.
  - apply NoDup_app. split_and!; [done| |by apply NoDup_singleton]. intros x Hx ->%list_elem_of_singleton. done.
  - intros x [?| ->%list_elem_of_singleton]%elem_of_app; [by apply Ho|done].
  - rewrite length_app. cbn. lia.
  - rewrite length_app. cbn. lia.
  - rewrite elem_of_app, list_elem_of_singleton. intros [?|?]; [done|by apply Hb1].
Qed.

(** The header in memory after [log_write]. *)
Definition logged (b : Z) (l : log) : log :=
  let n := Z.to_nat (lh_n l) in
  let i := default n (find_index (λ x, x =? b) (take n (lh_block l))) in
  let l := set_lh_block (<[i := b]> (lh_block l)) l in
  if Nat.eqb i n then set_lh_n (lh_n l + 1) l else l.

Lemma logged_is l bl b : log_is l start lsz bl → tx_room lsz bl → log_is (logged b l) start lsz (add_block b bl).
Proof using Type.
  intros [H1 H2 H3 H4 H5 H6] [_ Hr]. unfold logged. rewrite H4, Nat2Z.id, H5. change (Z.to_nat LOGSIZE) with 30%nat in H6.
  unfold NBUF in Hr. unfold add_block. destruct (find_index_eqb bl b) as [[E Hn]|(i & E & Hi & Hlt)]; rewrite E; cbn [default]; unfold id.
  - rewrite Nat.eqb_refl, bool_decide_false by done.
    split; cbn; rewrite ?length_app; cbn; rewrite ?length_insert; try done; [lia|].
    apply list_eq. intros j. destruct (decide (j < length bl)%nat) as [Hj|Hj].
    + rewrite lookup_take_lt, list_lookup_insert_ne, lookup_app_l by lia.
      transitivity (take (length bl) (lh_block l) !! j); [by rewrite lookup_take_lt|by rewrite H5].
    + destruct (decide (j = length bl)) as [->|Hne].
      * rewrite lookup_take_lt, list_lookup_insert_eq, lookup_app_r, Nat.sub_diag by lia. done.
      * rewrite lookup_take_ge, lookup_ge_None_2; [done|rewrite length_app; cbn; lia|lia].
  - rewrite (proj2 (Nat.eqb_neq i (length bl))) by lia. rewrite bool_decide_true by (by eapply list_elem_of_lookup_2).
    split; cbn; rewrite ?length_insert; try done.
    rewrite list_insert_id; [done|]. rewrite <- H5, lookup_take in Hi. by case_decide.
Qed.

Lemma logged_other b l : l_committing (logged b l) = l_committing l ∧ l_outstanding (logged b l) = l_outstanding l.
Proof using Type. unfold logged. by case_match. Qed.

Lemma log_write_run k pid V bl H b i :
  tx k pid V bl H → H !! b = Some i → tx_room lsz bl → 1 <= l_outstanding (k_log k) →
  log_write i k = Ret tt (upd_buf i (λ x, set_b_flags (Z.lor (b_flags x) B_DIRTY) x) (set_k_log (logged b (k_log k)) k)).
Proof using Type.
  intros [Hb Hl Ha Hbl He Hf Hi] Hh [Hr1 Hr2] Hout. unfold log_write, log_get, upd_log. mrun.
  destruct (bi_held _ _ _ _ _ Hb b i Hh) as ((_ & _ & Hbno) & _).
  rewrite (lg_n _ _ _ _ Hl), (lg_size _ _ _ _ Hl). unfold NBUF in Hr2. change LOGSIZE with 30.
  rewrite !Z.geb_leb, !(proj2 (Z.leb_gt _ _)), (proj2 (Z.ltb_ge _ _)) by lia. cbn [orb].
  destruct (bi_run _ _ _ _ _ Hb) as (Hheld & _).
  mcall (acquire_eq LLog k ltac:(rewrite Hheld; apply not_elem_of_nil)). rewrite Hheld.
  change (buf_at (set_k_held [LLog] k) i) with (buf_at k i). rewrite Hbno.
  change (k_log (set_k_held [LLog] k)) with (k_log k).
  set (l := k_log k). set (n := Z.to_nat (lh_n l)). set (j := default n (find_index (λ x, x =? b) (take n (lh_block l)))).
  assert (j < length (lh_block l))%nat as Hj.
  { unfold j, n, l. rewrite (lg_n _ _ _ _ Hl), Nat2Z.id, (lg_blocks _ _ _ _ Hl), (lg_len _ _ _ _ Hl).
    change (Z.to_nat LOGSIZE) with 30%nat. destruct (find_index_eqb bl b) as [[-> _]|(i' & -> & _ & ?)]; cbn; lia. }
  mcall (set_log_block_eq j b (set_k_held [LLog] k) Hj).
  change (k_log (set_k_held [LLog] k)) with l.
  unfold logged. fold l n j. unfold set_flags.
  destruct (Nat.eqb j n) eqn:Ej; cbn [when]; mrun.
  - rewrite (release_eq LLog _ []); [|done|apply not_elem_of_nil]. f_equal. symmetry. rewrite <- (held_clear k Hheld) at 1. reflexivity.
  - rewrite (release_eq LLog _ []); [|done|apply not_elem_of_nil]. f_equal. symmetry. rewrite <- (held_clear k Hheld) at 1. reflexivity.
Qed.

Lemma tx_log_write k pid V bl H b i :
  tx k pid V bl H → H !! b = Some i → ¬ in_log start lsz b → b ≠ 1 → tx_room lsz bl → 1 <= l_outstanding (k_log k) →
  ∃ k', log_write i k = Ret tt k' ∧ tx k' pid V (add_block b bl) H ∧ k_disk k' = k_disk k ∧ log_frame k k' ∧
    l_outstanding (k_log k') = l_outstanding (k_log k).
Proof using Type.
  intros Ht Hh Hob Hb1 Hroom Hout. rewrite (log_write_run k pid V bl H b i) by done.
  eexists. split; [reflexivity|]. destruct Ht as [Hb Hl Ha Hbl He Hf Hi].
  destruct (logged_other b (k_log k)) as [E1 E2]. split_and!; [|done|apply bio_frame_upd|done].
  split; [|by apply logged_is|done|by apply add_block_blocks|done|done|by cbn; rewrite E1].
  rewrite add_block_set. apply bpin_spec; [|done]. by apply binv_set_log.
Qed.

Lemma tx_begin_op k pid V bl H :
  tx k pid V bl H → lh_n (k_log k) + (l_outstanding (k_log k) + 1) * MAXOPBLOCKS <= LOGSIZE →
  ∃ k', begin_op k = Ret tt k' ∧ tx k' pid V bl H ∧ k_disk k' = k_disk k ∧ log_frame k k' ∧
    l_outstanding (k_log k') = l_outstanding (k_log k) + 1.
Proof using Type.
  intros [Hb Hl Ha Hbl He Hf Hi] Hroom. destruct (bi_run _ _ _ _ _ Hb) as (Hheld & _).
  set (l' := set_l_outstanding (l_outstanding (k_log k) + 1) (k_log k)).
  exists (set_k_log l' k). split_and!; [|split; try done; [by apply binv_set_log|by destruct Hl]|done|apply log_frame_set_log|done].
  unfold begin_op. mcall (acquire_eq LLog k ltac:(rewrite Hheld; apply not_elem_of_nil)). rewrite Hheld.
  destruct wakeups; cbn [begin_op_loop]; mrun; change (k_log (set_k_held [LLog] k)) with (k_log k);
    rewrite Hi, Z.gtb_ltb, (proj2 (Z.ltb_ge _ _)) by lia; unfold upd_log; mrun;
    (rewrite (release_eq LLog _ []); [|done|apply not_elem_of_nil]); f_equal; symmetry;
    rewrite <- (held_clear k Hheld) at 1; reflexivity.
Qed.

(** What [end_op] writes: nothing for an empty transaction. *)
Definition tx_writes (V : Z → list Z) (bl : list Z) : list (Z * list Z) :=
  match bl with [] => [] | _ => commit_writes V start bl end.

Lemma commit_tx k pid V bl :
  binv k pid V (list_to_set bl) ∅ → log_is (k_log k) start lsz bl → log_area start lsz (d_size (k_disk k)) →
  tx_blocks start lsz bl →
  let ws := tx_writes V bl in
  ∃ k', commit k = Ret tt k' ∧ binv k' pid (apply_writes V ws) ∅ ∅ ∧ k_disk k' = do_writes (k_disk k) ws ∧
    k_log k' = set_lh_n 0 (k_log k) ∧ log_frame k k'.
Proof using DOk.
  intros Hb Hl Ha Hbl ws. destruct bl as [|b bl].
  - exists k. unfold commit, log_get. mrun. rewrite (lg_n _ _ _ _ Hl). split_and!; [done|done|done| |].
    + destruct Hl as [_ _ _ Hn _ _]. destruct (k_log k). cbn in *. by subst.
    + apply log_frame_bio, bio_frame_refl.
  - by apply (commit_spec k pid V start lsz (b :: bl)).
Qed.

Lemma head_after_tx V bl : i32 (get32 (V start) 0) = 0 → (∀ b, block_ok (V b)) → tx_blocks start lsz bl →
  i32 (get32 (apply_writes V (tx_writes V bl) start) 0) = 0.
Proof using Type.
  intros He Hok Hbl. destruct bl as [|b bl]; [done|]. unfold tx_writes, commit_writes.
  rewrite app_comm_cons, app_assoc, apply_writes_app. unfold apply_writes at 1. cbn [foldl fst snd]. rewrite fn_lookup_insert.
  assert (length (b :: bl) ≤ 30)%nat by (pose proof (tb_max _ _ _ Hbl); unfold NBUF in *; lia).
  rewrite hdr_enc_pos; [done|by apply hdr_enc_ok|cbn; lia].
Qed.

Lemma woken_frame c k : log_frame k (woken c k).
Proof using Type. apply log_frame_bio, bio_frame_woken. Qed.

Lemma end_op_run k kc :
  k_held k = [] → k_held kc = [] → l_committing (k_log k) = false → l_outstanding (k_log k) = 1 →
  commit (set_k_log (set_l_committing true (set_l_outstanding 0 (k_log k))) k) = Ret tt kc →
  end_op k = Ret tt (woken CLog (set_k_log (set_l_committing false (k_log kc)) kc)).
Proof using Type.
  intros Hk Hkc Hc Ho Rc. unfold end_op, log_get, upd_log.
  mcall (acquire_eq LLog k ltac:(rewrite Hk; apply not_elem_of_nil)). rewrite Hk.
  cbn [k_log set_k_log set_k_held l_committing l_outstanding set_l_outstanding set_l_committing].
  rewrite Hc, Ho. change (1 - 1) with 0. change (0 =? 0) with true. cbv iota. mrun.
  cbn [k_log set_k_log set_k_held l_committing l_outstanding set_l_outstanding set_l_committing].
  rewrite (bind_eq _ _ _ tt (set_k_log (set_l_committing true (set_l_outstanding 0 (k_log k))) k)).
  2: { rewrite (release_eq LLog _ []); [|done|apply not_elem_of_nil]. f_equal.
       clear -Hk. destruct k. cbn in *. by subst. }
  cbn [when]. rewrite (bind_eq _ _ _ _ _ Rc).
  mcall (acquire_eq LLog kc ltac:(rewrite Hkc; apply not_elem_of_nil)). rewrite Hkc.
  cbn [k_log set_k_held].
  rewrite (bind_eq _ _ _ _ _ (wakeup_eq CLog (set_k_log (set_l_committing false (k_log kc)) (set_k_held [LLog] kc)) ltac:(cbn; rewrite list_elem_of_singleton; done))).
  rewrite (release_eq LLog _ []); [|done|apply not_elem_of_nil]. f_equal.
  clear -Hkc. destruct kc. cbn in *. by subst.
Qed.

Lemma tx_end_op k pid V bl :
  tx k pid V bl ∅ → l_outstanding (k_log k) = 1 →
  let ws := tx_writes V bl in
  ∃ k', end_op k = Ret tt k' ∧ tx k' pid (apply_writes V ws) [] ∅ ∧ k_disk k' = do_writes (k_disk k) ws ∧
    log_frame k k' ∧ l_outstanding (k_log k') = 0.
Proof using DOk.
  intros [Hb Hl Ha Hbl He Hf Hi] Hout ws. pose proof (bi_run _ _ _ _ _ Hb) as (Hheld & _).
  set (l1 := set_l_committing true (set_l_outstanding 0 (k_log k))).
  destruct (commit_tx (set_k_log l1 k) pid V bl) as (kc & Rc & Bc & Dc & Lc & Fc); [by apply binv_set_log|by destruct Hl|done|done|].
  pose proof (bi_run _ _ _ _ _ Bc) as (Hheldc & _).
  rewrite (end_op_run k kc Hheld Hheldc Hi Hout Rc).
  eexists. split; [reflexivity|]. cbn in Lc. rewrite Lc.
  set (l2 := set_l_committing false (set_lh_n 0 l1)).
  assert (log_frame k (woken CLog (set_k_log l2 kc))) as Hfr.
  { eapply log_frame_trans; [apply log_frame_set_log|]. eapply log_frame_trans; [exact Fc|].
    eapply log_frame_trans; [apply log_frame_set_log|]. apply woken_frame. }
  split_and!; [|done|done|done]. split; try done.
  - apply (binv_ext kc); [done|done| |done]. eapply log_frame_running; [exact Hfr|]. apply (bi_run _ _ _ _ _ Hb).
  - destruct Hl. by split.
  - cbn. rewrite Dc. apply log_frame_size in Fc. cbn in Fc. rewrite <- Dc, Fc. done.
  - split; [constructor|intros b Hx; by apply elem_of_nil in Hx|pose proof (tb_fits _ _ _ Hbl); cbn; lia|unfold NBUF; cbn; lia|apply not_elem_of_nil].
  - apply head_after_tx; [done|apply (bi_blocks _ _ _ _ _ Hb)|done].
Qed.
End tx.
