(* ===== verification/LogCorrect.v ===== *)
(** * Crash safety of the log

    A transaction is [begin_op], any sequence of reads, updates, [log_write]s
    and releases of blocks, and [end_op].  The machine may stop between any two
    disk writes, during the commit or during a recovery, any number of times;
    [initlog] then finds the contents before the transaction or those after it. *)

From stdpp Require Import functions.
From S2P Require Import Prelude Mem CString State Mmu Spinlock Kalloc Vm Proc Sleeplock Disk Bio BioSpec BioCorrect.
From S2P Require Import Log LogSpec LogCommit LogCrash LogTx.

(** ** Crashes and reboots *)

(** A disk left by a crash on the way from [d] to [d']. *)
Definition crash_of (d d' c : disk) : Prop :=
  ∃ ws pre, d_trace d' = d_trace d ++ ws ∧ pre `prefix_of` ws ∧ c = do_writes d pre.

(** The kernel booted again: an empty cache, an idle log, the disk. *)
Record rebooted (k : kernel) (pid : Z) (d : disk) : Prop := {
  rb_disk : k_disk k = d;
  rb_run : running k pid;
  rb_cache : ∃ k0 k1, blank k0 ∧ binit k0 = Ret tt k1 ∧ k_bcache k = k_bcache k1;
  rb_log : length (lh_block (k_log k)) = Z.to_nat LOGSIZE;
  rb_users : users (k_log k) = (0, false)
}.

Lemma do_writes_trace ws : ∀ d, d_trace (do_writes d ws) = d_trace d ++ ws.
Proof.
  induction ws as [|w ws IH]; intros d; [by rewrite app_nil_r|].
  change (d_trace (do_writes (write_block w.1 w.2 d) ws) = d_trace d ++ w :: ws). rewrite IH. cbn.
  rewrite <- app_assoc. by destruct w.
Qed.

Lemma do_writes_size ws : ∀ d, d_size (do_writes d ws) = d_size d.
Proof. induction ws as [|w ws IH]; intros d; [done|]. apply (IH (write_block w.1 w.2 d)). Qed.

Lemma crash_of_writes d ws c : crash_of d (do_writes d ws) c ↔ ∃ pre, pre `prefix_of` ws ∧ c = do_writes d pre.
Proof.
  unfold crash_of. rewrite do_writes_trace. split.
  - intros (ws' & pre & E & Hp & ->). apply app_inv_head in E as ->. by exists pre.
  - intros (pre & Hp & ->). by exists ws, pre.
Qed.

Section log_correct.
Context `{W : Wakeups} `{D : DiskDriver} `{DOk : !DiskDriverOk D}.
Context (start lsz : Z).

(** The disk can be recovered: its blocks are whole, its superblock says where
    the log is, and the header is one [initlog] can take. *)
Record recoverable (nblocks : Z) (C : Z → list Z) : Prop := {
  rc_ok : ∀ b, block_ok (C b);
  rc_start : i32 (sb_logstart (sb_of (C 1))) = start;
  rc_size : i32 (sb_nlog (sb_of (C 1))) = lsz;
  rc_hdr : hdr_ok start lsz nblocks (C start)
}.

Lemma readsb_spec k pid V :
  binv k pid V ∅ ∅ → 1 < d_size (k_disk k) →
  ∃ k', readsb ROOTDEV k = Ret (sb_of (V 1)) k' ∧ binv k' pid V ∅ ∅ ∧ k_disk k' = k_disk k ∧ bio_frame k k'.
Proof using DOk.
  intros Hb Hs. destruct (bread_spec k pid V ∅ ∅ 1 Hb) as (i & k1 & R1 & B1 & D1 & F1); [done|lia|right; apply empty_room|].
  assert (H1 : (<[1 := i]> ∅ : gmap Z nat) !! 1 = Some i) by apply lookup_insert_eq.
  destruct (brelse_spec k1 pid V ∅ _ 1 i B1 H1) as (k2 & R2 & B2 & D2 & F2).
  { right. rewrite D1. by apply (bi_clean _ _ _ _ _ Hb). }
  exists k2. unfold readsb. mcall R1. mcall R2. rewrite (held_data _ _ _ _ _ _ _ B1 H1).
  rewrite delete_insert_id in B2 by apply lookup_empty.
  split_and!; [done|done|congruence|by eapply bio_frame_trans].
Qed.

Lemma initlog_spec k pid V :
  binv k pid V ∅ ∅ → length (lh_block (k_log k)) = Z.to_nat LOGSIZE → log_area start lsz (d_size (k_disk k)) →
  recoverable (d_size (k_disk k)) V →
  let ws := recovery_writes V start in
  ∃ k', initlog ROOTDEV k = Ret tt k' ∧ binv k' pid (apply_writes V ws) ∅ ∅ ∧
    k_disk k' = do_writes (k_disk k) ws ∧ log_is (k_log k') start lsz [] ∧ users (k_log k') = users (k_log k) ∧
    log_frame k k'.
Proof using DOk.
  intros Hb Hlen Ha [Hok Hst Hsz Hhdr] ws. pose proof Ha as (Ha1 & Ha2 & Ha3). pose proof (ho_fits _ _ _ _ Hhdr) as Hf.
  destruct (readsb_spec k pid V Hb) as (k1 & R1 & B1 & D1 & F1); [lia|].
  set (k2 := set_k_log (set_l_dev ROOTDEV (set_l_size lsz (set_l_start start (k_log k1)))) k1).
  destruct (recover_from_log_spec k2 pid V start lsz) as (k3 & R3 & B3 & D3 & L3 & U3 & F3).
  { by apply binv_set_log. }
  { split; try done. cbn. by rewrite (bio_frame_log _ _ F1). }
  { cbn. by rewrite D1. }
  { cbn. by rewrite D1. }
  exists k3. unfold initlog. change (Z.of_nat (hdr_slot (Z.to_nat LOGSIZE)) >=? Z.of_nat BSIZE) with false. cbv iota.
  mcall R1. unfold upd_log. mrun. rewrite Hst, Hsz. fold k2. split_and!; [exact R3|exact B3| |exact L3| |].
  - rewrite D3. cbn. by rewrite D1.
  - rewrite U3. cbn. by rewrite (bio_frame_log _ _ F1).
  - eapply log_frame_trans; [apply log_frame_bio, F1|]. eapply log_frame_trans; [apply log_frame_set_log|exact F3].
Qed.

Lemma rebooted_inv k pid d : rebooted k pid d → (∀ b, block_ok (disk_block d b)) → binv k pid (disk_block d) ∅ ∅.
Proof using Type.
  intros [<- Hr (k0 & k1 & Hbl & Hi & Hc) _ _] Hok. destruct (binit_spec k0 Hbl) as (k1' & Hi' & Hb).
  assert (k1 = k1') as -> by congruence. by apply (binv_boot k0 k1').
Qed.

(** The contents a recovery leaves. *)
Lemma initlog_recovers k pid d :
  rebooted k pid d → log_area start lsz (d_size d) → recoverable (d_size d) (disk_block d) →
  ∃ k', initlog ROOTDEV k = Ret tt k' ∧ k_disk k' = do_writes d (recovery_writes (disk_block d) start) ∧
    same_home start lsz (disk_block (k_disk k')) (recovered start (disk_block d)).
Proof using DOk.
  intros Hrb Ha Hrc. pose proof (rebooted_inv k pid d Hrb (rc_ok _ _ Hrc)) as Hb.
  pose proof (ho_fits _ _ _ _ (rc_hdr _ _ Hrc)) as Hf. pose proof Hrb as [<- _ _ Hlen _].
  destruct (initlog_spec k pid _ Hb Hlen Ha Hrc) as (k' & R & B & Dk & _). exists k'. split_and!; [done|done|].
  rewrite Dk. intros b Hbl. rewrite disk_block_writes. apply (recovered_writes start lsz); [lia|done].
Qed.

(** ** Any number of crashes *)

Definition recovery_crashes (d c : disk) : Prop :=
  ∃ k pid k', rebooted k pid d ∧ initlog ROOTDEV k = Ret tt k' ∧ crash_of d (k_disk k') c.

Lemma apply_writes_eq C C' ws b : (∀ b, C' b = C b) → apply_writes C' ws b = apply_writes C ws b.
Proof using Type.
  intros E. destruct (decide (b ∈ ws.*1)) as [Hin|Hn]; [by apply apply_writes_indep|]. by rewrite !apply_writes_ne.
Qed.

Lemma recovered_eq C C' b : (∀ b, C' b = C b) → recovered start C' b = recovered start C b.
Proof using Type.
  intros E. unfold recovered. rewrite E, (install_writes_ext C C') by (intros; apply E). by apply apply_writes_eq.
Qed.

Lemma recoverable_eq nb C C' : (∀ b, C' b = C b) → recoverable nb C → recoverable nb C'.
Proof using Type. intros E [H1 H2 H3 H4]. split; intros; by rewrite E. Qed.

(** A disk that can be recovered can be after any crash of its recovery, with
    the same outcome. *)
Lemma recovery_crash_step d c :
  log_area start lsz (d_size d) → recoverable (d_size d) (disk_block d) → recovery_crashes d c →
  d_size c = d_size d ∧ recoverable (d_size d) (disk_block c) ∧
  same_home start lsz (recovered start (disk_block c)) (recovered start (disk_block d)).
Proof using DOk.
  intros Ha Hrc (k & pid & k' & Hrb & Hrun & Hcr). pose proof Hrc as [Hok Hst Hsz Hhdr].
  pose proof (ho_fits _ _ _ _ Hhdr) as Hf. destruct Ha as (Ha1 & Ha2 & Ha3).
  destruct (initlog_recovers k pid d Hrb) as (k1 & Hrun1 & Dk & _); [done|done|].
  assert (k' = k1) as -> by congruence. rewrite Dk, crash_of_writes in Hcr. destruct Hcr as (pre & Hpre & ->).
  destruct (recovery_crash start lsz (d_size d) ltac:(lia) (disk_block d) pre Hhdr (Hok start) Hpre) as [H1 H2].
  split; [apply do_writes_size|]. split.
  - apply (recoverable_eq _ (apply_writes (disk_block d) pre)); [intros; apply disk_block_writes|].
    assert (apply_writes (disk_block d) pre 1 = disk_block d 1) as E1.
    { apply apply_writes_ne. intros Hx%(prefix_fst _ _ _ Hpre). unfold recovery_writes in Hx.
      rewrite fmap_app, install_writes_fst, elem_of_app in Hx. destruct Hx as [Hx|Hx]; [by apply (ho_sb _ _ _ _ Hhdr)|].
      apply list_elem_of_singleton in Hx. cbn in Hx. lia. }
    split; [|by rewrite E1|by rewrite E1|done].
    apply apply_writes_ok; [done|]. eapply prefix_ok; [|exact Hpre]. by apply recovery_writes_ok.
  - intros b Hb. rewrite (recovered_eq (apply_writes (disk_block d) pre)); [by apply H2|intros; apply disk_block_writes].
Qed.

Lemma recovery_crashes_step d c :
  log_area start lsz (d_size d) → recoverable (d_size d) (disk_block d) → rtc recovery_crashes d c →
  d_size c = d_size d ∧ recoverable (d_size d) (disk_block c) ∧
  same_home start lsz (recovered start (disk_block c)) (recovered start (disk_block d)).
Proof using DOk.
  intros Ha Hrc Hcs. induction Hcs as [d|d c e Hdc Hce IH]; [split_and!; [done|done|reflexivity]|].
  destruct (recovery_crash_step d c Ha Hrc Hdc) as (E & H1 & H2). rewrite E in IH.
  destruct (IH Ha H1) as (E' & H1' & H2'). split_and!; [done|done|]. by transitivity (recovered start (disk_block c)).
Qed.
End log_correct.

(** ** Transactions *)

Inductive top := TRead (b : Z) | TSet (b : Z) (data : list Z) | TWrite (b : Z) | TRelse (b : Z).

(** What the transaction sees, the blocks it has logged and those it holds. *)
Record tstate := mkTs { ts_view : Z → list Z; ts_log : list Z; ts_held : gset Z }.

(** The rules, on a disk of [nblocks] blocks whose contents are [old]: stay away
    from the log and the superblock, do not log more blocks than fit, and log
    what has been changed before giving it back. *)
Definition tallowed (start lsz nblocks : Z) (old : Z → list Z) (s : tstate) (op : top) : Prop :=
  match op with
  | TRead b => b ∉ ts_held s ∧ 0 <= b < nblocks ∧ ¬ in_log start lsz b ∧
      (b ∈ ts_log s ∨ (length (ts_log s) + size (ts_held s) < NBUF)%nat)
  | TSet b data => b ∈ ts_held s ∧ block_ok data
  | TWrite b => b ∈ ts_held s ∧ b ≠ 1 ∧ tx_room lsz (ts_log s)
  | TRelse b => b ∈ ts_held s ∧ (b ∈ ts_log s ∨ ts_view s b = old b)
  end.

Definition tstep (s : tstate) (op : top) : tstate :=
  match op with
  | TRead b => mkTs (ts_view s) (ts_log s) ({[b]} ∪ ts_held s)
  | TSet b data => mkTs (<[b := data]> (ts_view s)) (ts_log s) (ts_held s)
  | TWrite b => mkTs (ts_view s) (add_block b (ts_log s)) (ts_held s)
  | TRelse b => mkTs (ts_view s) (ts_log s) (ts_held s ∖ {[b]})
  end.

Fixpoint tall_allowed (start lsz nblocks : Z) (old : Z → list Z) (s : tstate) (ops : list top) : Prop :=
  match ops with
  | [] => ts_held s = ∅
  | op :: ops => tallowed start lsz nblocks old s op ∧ tall_allowed start lsz nblocks old (tstep s op) ops
  end.

Section transactions.
Context `{W : Wakeups} `{D : DiskDriver}.

Definition top_run (H : gmap Z nat) (op : top) : K (gmap Z nat) :=
  let on b (f : nat → K (gmap Z nat)) := match H !! b with Some i => f i | None => panic "no such block" end in
  match op with
  | TRead b => i <- bread ROOTDEV b ;; ret (<[b := i]> H)
  | TSet b data => on b (λ i, modify (upd_buf i (set_b_data data)) ;;; ret H)
  | TWrite b => on b (λ i, log_write i ;;; ret H)
  | TRelse b => on b (λ i, brelse i ;;; ret (delete b H))
  end.

Fixpoint tops_run (H : gmap Z nat) (ops : list top) : K (gmap Z nat) :=
  match ops with
  | [] => ret H
  | op :: ops => H <- top_run H op ;; tops_run H ops
  end.

(** A system call that changes the disk. *)
Definition transaction (ops : list top) : K unit :=
  begin_op ;;; tops_run ∅ ops ;;; end_op.

Context `{DOk : !DiskDriverOk D} (start lsz : Z).

(** Inside a transaction that started on the contents [old]. *)
Record in_tx (k : kernel) (pid : Z) (old : Z → list Z) (nb : Z) (H : gmap Z nat) (s : tstate) : Prop := {
  it_tx : tx start lsz k pid (ts_view s) (ts_log s) H;
  it_held : dom H = ts_held s;
  it_out : l_outstanding (k_log k) = 1;
  it_disk : ∀ b, disk_block (k_disk k) b = old b;
  it_size : d_size (k_disk k) = nb
}.

Lemma top_step k pid old nb H s op :
  in_tx k pid old nb H s → tallowed start lsz nb old s op →
  ∃ H' k', top_run H op k = Ret H' k' ∧ in_tx k' pid old nb H' (tstep s op) ∧ k_disk k' = k_disk k.
Proof using DOk.
  intros [Ht Hdom Hout Hdisk Hnb] Hop.
  assert (∀ b, b ∈ ts_held s → ∃ i, H !! b = Some i) as Hheld by (intros b Hb; by rewrite <- Hdom, elem_of_dom in Hb).
  destruct op as [b|b data|b|b]; cbn [tallowed] in Hop; cbn [top_run tstep].
  - destruct Hop as (Hn & Hr & Hlog & Hroom).
    destruct (tx_bread start lsz k pid _ _ H b Ht) as (i & k' & R & T & Dk & F).
    { by rewrite <- not_elem_of_dom, Hdom. }
    { by rewrite Hnb. }
    { done. }
    { by rewrite <- size_dom, Hdom. }
    mcall R. exists (<[b := i]> H), k'. split_and!; [done| |done].
    split; cbn; [done|by rewrite dom_insert_L, Hdom|by rewrite (bio_frame_log _ _ F)|by rewrite Dk|by rewrite Dk].
  - destruct Hop as [Hin Hok]. destruct (Hheld b Hin) as [i Hi]. rewrite Hi. mrun.
    exists H, (upd_buf i (set_b_data data) k). split_and!; [done| |done]. split; cbn; try done. by apply tx_set.
  - destruct Hop as (Hin & Hb1 & Hroom). destruct (Hheld b Hin) as [i Hi]. rewrite Hi.
    destruct (tx_log_write start lsz k pid _ _ H b i Ht Hi) as (k' & R & T & Dk & F & Ho).
    { intros Hl. by rewrite (tx_free _ _ _ _ _ _ _ Ht) in Hi. }
    { done. }
    { done. }
    { lia. }
    mcall R. exists H, k'. split_and!; [done| |done]. split; cbn; [done|done|congruence|by rewrite Dk|by rewrite Dk].
  - destruct Hop as [Hin Hcl]. destruct (Hheld b Hin) as [i Hi]. rewrite Hi.
    destruct (tx_brelse start lsz k pid _ _ H b i Ht Hi) as (k' & R & T & Dk & F); [by rewrite Hdisk|].
    mcall R. exists (delete b H), k'. split_and!; [done| |done].
    split; cbn; [done|by rewrite dom_delete_L, Hdom|by rewrite (bio_frame_log _ _ F)|by rewrite Dk|by rewrite Dk].
Qed.

Lemma tops_steps pid old nb ops : ∀ k H s,
  in_tx k pid old nb H s → tall_allowed start lsz nb old s ops →
  ∃ k', tops_run H ops k = Ret ∅ k' ∧ in_tx k' pid old nb ∅ (foldl tstep s ops) ∧ k_disk k' = k_disk k.
Proof using DOk.
  induction ops as [|op ops IH]; intros k H s Hi Hall; cbn [tops_run foldl].
  - cbn in Hall. assert (H = ∅) as -> by (apply dom_empty_inv_L; by rewrite (it_held _ _ _ _ _ _ Hi)).
    exists k. by split_and!.
  - destruct Hall as [Hop Hall]. destruct (top_step k pid old nb H s op Hi Hop) as (H1 & k1 & R1 & I1 & D1).
    destruct (IH k1 H1 _ I1 Hall) as (k2 & R2 & I2 & D2). exists k2. mcall R1. split_and!; [done|done|congruence].
Qed.

Lemma commit_keeps V bl : tx_blocks start lsz bl →
  same_home start lsz (apply_writes V (tx_writes start V bl)) V.
Proof using Type.
  intros Hbl b Hb. destruct bl as [|b0 bl]; [done|]. set (l := b0 :: bl) in *. 
  change (tx_writes start V l) with (commit_writes V start l).
  pose proof (tb_fits _ _ _ Hbl) as Hf.
  assert (in_log start lsz start) as Hst by (unfold in_log; lia).
  assert (b ≠ start) as Hbs by (by intros ->).
  unfold commit_writes. rewrite (install_writes_ext (apply_writes V (log_writes V (start + 1) l)))
    by (intros c Hc; apply fn_lookup_insert_ne; lia).
  rewrite install_logged, app_comm_cons, app_assoc, apply_writes_app, apply_writes_ne.
  2: { cbn. rewrite list_elem_of_singleton. done. }
  rewrite apply_writes_app.
  destruct (decide (b ∈ l)) as [Hin|Hn].
  - change (apply_writes ?C ((start, ?h) :: homes V l)) with (apply_writes (<[start := h]> C) (homes V l)). by apply apply_homes.
  - change (apply_writes ?C ((start, ?h) :: homes V l)) with (apply_writes (<[start := h]> C) (homes V l)).
    rewrite apply_writes_ne by (by rewrite homes_fst). rewrite fn_lookup_insert_ne by done.
    apply apply_writes_ne. intros Hx%log_writes_fst. apply Hb. unfold in_log. lia.
Qed.

Lemma tx_contents k pid V : tx start lsz k pid V [] ∅ → ∀ b, V b = disk_block (k_disk k) b.
Proof using Type. intros Ht b. apply (bi_clean _ _ _ _ _ (tx_inv _ _ _ _ _ _ _ Ht)); [apply not_elem_of_empty|apply lookup_empty]. Qed.

(** A transaction on the contents [V] of the disk is about to commit [V']. *)
Record staged (k : kernel) (V V' : Z → list Z) (bl : list Z) : Prop := {
  sg_blocks : tx_blocks start lsz bl;
  sg_range : ∀ b, b ∈ bl → 0 <= b < d_size (k_disk k);
  sg_ok : ∀ b, block_ok (V' b);
  sg_empty : i32 (get32 (V' start) 0) = 0;
  sg_same : ∀ b, b ∉ bl → V' b = V b
}.

Lemma tx_staged k pid V k2 V' bl :
  tx start lsz k pid V [] ∅ → tx start lsz k2 pid V' bl ∅ → k_disk k2 = k_disk k → staged k V V' bl.
Proof using Type.
  intros Ht T2 Dk. pose proof (tx_inv _ _ _ _ _ _ _ T2) as Hb. split; [apply T2| |apply (bi_blocks _ _ _ _ _ Hb)|apply T2|].
  - intros b Hin. rewrite <- Dk. apply (bi_pinned _ _ _ _ _ Hb). by apply elem_of_list_to_set.
  - intros b Hn. rewrite (tx_contents k pid V Ht), <- Dk.
    apply (bi_clean _ _ _ _ _ Hb b); [by rewrite elem_of_list_to_set|apply lookup_empty].
Qed.

(** A transaction runs, and its writes are those of one commit. *)
Lemma transaction_run k pid V ops :
  tx start lsz k pid V [] ∅ → l_outstanding (k_log k) = 0 →
  tall_allowed start lsz (d_size (k_disk k)) V (mkTs V [] ∅) ops →
  let s' := foldl tstep (mkTs V [] ∅) ops in
  let ws := tx_writes start (ts_view s') (ts_log s') in
  ∃ k', transaction ops k = Ret tt k' ∧ tx start lsz k' pid (apply_writes (ts_view s') ws) [] ∅ ∧
    l_outstanding (k_log k') = 0 ∧ k_disk k' = do_writes (k_disk k) ws ∧ staged k V (ts_view s') (ts_log s').
Proof using DOk.
  intros Ht Hout Hall s' ws.
  destruct (tx_begin_op start lsz k pid V [] ∅ Ht) as (k1 & R1 & T1 & D1 & F1 & O1).
  { rewrite (lg_n _ _ _ _ (tx_log _ _ _ _ _ _ _ Ht)), Hout. done. }
  destruct (tops_steps pid V (d_size (k_disk k)) ops k1 ∅ (mkTs V [] ∅)) as (k2 & R2 & I2 & D2).
  { split; cbn; [done|by rewrite dom_empty_L|lia| |by rewrite D1]. intros b. rewrite D1. symmetry. by apply (tx_contents k pid). }
  { done. }
  fold s' in I2. destruct I2 as [T2 Hd2 O2 Hdisk2 Hs2].
  destruct (tx_end_op start lsz k2 pid _ _ T2 O2) as (k3 & R3 & T3 & D3 & F3 & O3).
  exists k3. unfold transaction. mcall R1. mcall R2.
  split_and!; [done|done|done|by rewrite D3, D2, D1|]. eapply (tx_staged k pid V k2); [done|exact T2|congruence].
Qed.

(** What a crash during the commit leaves. *)
Lemma crash_states k pid V V' bl c :
  tx start lsz k pid V [] ∅ → staged k V V' bl →
  i32 (sb_logstart (sb_of (V 1))) = start → i32 (sb_nlog (sb_of (V 1))) = lsz →
  let ws := tx_writes start V' bl in
  crash_of (k_disk k) (do_writes (k_disk k) ws) c →
  d_size c = d_size (k_disk k) ∧ recoverable start lsz (d_size (k_disk k)) (disk_block c) ∧
  (same_home start lsz (recovered start (disk_block c)) V ∨ same_home start lsz (recovered start (disk_block c)) V') ∧
  (c = do_writes (k_disk k) ws → same_home start lsz (recovered start (disk_block c)) V').
Proof using Type.
  intros Ht [Hblk Hr Hok He Hcl] Hsb1 Hsb2 ws Hcr. destruct (tx_start start lsz _ _ _ _ _ Ht) as (Hlsz & Hst & _).
  pose proof (tx_area _ _ _ _ _ _ _ Ht) as (Ha1 & Ha2 & Ha3). pose proof (tx_contents k pid V Ht) as HV.
  rewrite crash_of_writes in Hcr. destruct Hcr as (pre & Hpre & ->). split; [apply do_writes_size|].
  assert (∀ b, disk_block (do_writes (k_disk k) pre) b = apply_writes V pre b) as Ec.
  { intros b. rewrite disk_block_writes. apply apply_writes_eq. intros. symmetry. apply HV. }
  assert (Forall is_u32 bl) as Hu.
  { apply Forall_forall. intros b Hin%Hr. unfold is_u32. lia. }
  assert (V start = V' start) as Es.
  { symmetry. apply Hcl. intros Hx. by apply (tb_out _ _ _ Hblk start). }
  assert (hdr_ok start lsz (d_size (k_disk k)) (apply_writes V pre start) ∧
    (same_home start lsz (recovered start (apply_writes V pre)) V ∨
     same_home start lsz (recovered start (apply_writes V pre)) V') ∧
    (pre = ws → same_home start lsz (recovered start (apply_writes V pre)) V')) as (Hh & Hon & Hfull).
  { destruct bl as [|b0 bl].
    - assert (pre = []) as -> by (by apply prefix_nil_inv). cbn [apply_writes foldl].
      destruct (empty_header start lsz (d_size (k_disk k)) Hlsz (V start)) as [E1 E2]; [by rewrite Es|].
      assert (same_home start lsz (recovered start V) V) as Hs by (intros b Hb; unfold recovered; by rewrite E1).
      split_and!; [done|by left|]. intros _ b Hb. rewrite Hs by done. symmetry. apply Hcl, not_elem_of_nil.
    - apply (commit_crash start lsz (d_size (k_disk k)) Hlsz V V' (b0 :: bl)); done. }
  split_and!.
  - apply (recoverable_eq _ _ _ (apply_writes V pre)); [done|].
    assert (apply_writes V pre 1 = V 1) as E1.
    { apply apply_writes_ne. intros Hx%(prefix_fst _ _ _ Hpre). unfold ws, tx_writes in Hx.
      destruct bl as [|b0 bl]; [by apply elem_of_nil in Hx|].
      unfold commit_writes in Hx. rewrite fmap_app, fmap_cons, fmap_app, install_writes_fst, fmap_cons, fmap_nil in Hx.
      cbn [fst] in Hx. rewrite elem_of_app, elem_of_cons, elem_of_app, list_elem_of_singleton in Hx.
      destruct Hx as [Hx%log_writes_fst|[?|[Hx|?]]]; [lia|lia|by apply (tb_sb _ _ _ Hblk)|lia]. }
    split; [|by rewrite E1|by rewrite E1|done].
    apply apply_writes_ok; [apply (bi_blocks _ _ _ _ _ (tx_inv _ _ _ _ _ _ _ Ht))|].
    eapply prefix_ok; [|exact Hpre]. unfold ws, tx_writes. destruct bl as [|b0 bl]; [constructor|].
    apply commit_writes_ok; [done|]. pose proof (tb_max _ _ _ Hblk). unfold NBUF in *. lia.
  - destruct Hon as [H|H]; [left|right]; intros b Hb; rewrite (recovered_eq _ (apply_writes V pre)) by done; by apply H.
  - intros E b Hb. rewrite (recovered_eq _ (apply_writes V pre)) by done. apply Hfull; [|done].
    apply (f_equal d_trace) in E. rewrite !do_writes_trace in E. by apply app_inv_head in E.
Qed.

(** The machine stopped on the way from the disk [d] to [d'], stopped again
    during any number of recoveries, and was booted as [kr]. *)
Definition booted_after_crash (d d' : disk) (c : disk) (kr : kernel) : Prop :=
  ∃ c' pidr, crash_of d d' c ∧ rtc recovery_crashes c c' ∧ rebooted kr pidr c'.

(** The outcome of the recovery: [old] or [new], and [new] if the disk was [d']. *)
Definition old_or_new (d d' : disk) (old new : Z → list Z) : Prop :=
  ∀ c kr, booted_after_crash d d' c kr → ∃ kr', initlog ROOTDEV kr = Ret tt kr' ∧
    (same_home start lsz (disk_block (k_disk kr')) old ∨ same_home start lsz (disk_block (k_disk kr')) new) ∧
    (c = d' → same_home start lsz (disk_block (k_disk kr')) new).

Lemma commit_recovers k pid V V' bl :
  tx start lsz k pid V [] ∅ → staged k V V' bl →
  i32 (sb_logstart (sb_of (V 1))) = start → i32 (sb_nlog (sb_of (V 1))) = lsz →
  old_or_new (k_disk k) (do_writes (k_disk k) (tx_writes start V' bl)) V V'.
Proof using W DOk.
  intros Ht Hst Hsb1 Hsb2 c kr (c' & pidr & Hcr & Hcs & Hrb).
  destruct (crash_states k pid V V' bl c Ht Hst Hsb1 Hsb2 Hcr) as (Esz & Hrc & Hon & Hfull).
  pose proof (tx_area _ _ _ _ _ _ _ Ht) as Ha. rewrite <- Esz in Ha, Hrc.
  destruct (recovery_crashes_step start lsz c c' Ha Hrc Hcs) as (Esz' & Hrc' & Hsame). rewrite <- Esz' in Ha, Hrc'.
  destruct (initlog_recovers start lsz kr pidr c' Hrb Ha Hrc') as (kr' & Rr & _ & Hfin).
  assert (same_home start lsz (disk_block (k_disk kr')) (recovered start (disk_block c))) as Hs by (by transitivity (recovered start (disk_block c'))).
  exists kr'. split_and!; [done| |].
  - destruct Hon as [H|H]; [left|right]; by transitivity (recovered start (disk_block c)).
  - intros E. transitivity (recovered start (disk_block c)); [done|by apply Hfull].
Qed.

(** C3: Transactions are atomic and durable.  A system call that reads, updates
    and logs blocks between [begin_op] and [end_op], within the rules, runs to
    its end and leaves the disk with its updates.  Whenever the machine stops
    between two disk writes of it, and however often it then stops again in the
    middle of the recovery, the next [initlog] succeeds and finds every block
    outside the log as it was before the system call, or every block as the
    system call left it; and the latter once [end_op] has returned. *)
Theorem log_crash_safe k pid V ops :
  tx start lsz k pid V [] ∅ → l_outstanding (k_log k) = 0 →
  i32 (sb_logstart (sb_of (V 1))) = start → i32 (sb_nlog (sb_of (V 1))) = lsz →
  tall_allowed start lsz (d_size (k_disk k)) V (mkTs V [] ∅) ops →
  let new := ts_view (foldl tstep (mkTs V [] ∅) ops) in
  ∃ k', transaction ops k = Ret tt k' ∧
    (∃ V', tx start lsz k' pid V' [] ∅ ∧ same_home start lsz V' new) ∧ l_outstanding (k_log k') = 0 ∧
    old_or_new (k_disk k) (k_disk k') V new.
Proof using W DOk.
  intros Ht Hout Hsb1 Hsb2 Hall new.
  destruct (transaction_run k pid V ops Ht Hout Hall) as (k' & R & T & O & Dk & Hst).
  exists k'. split_and!; [done|by eexists; split; [exact T|by apply commit_keeps, Hst]|done|].
  rewrite Dk. by eapply commit_recovers.
Qed.
End transactions.

(** ** Example *)

(** A disk of 100 blocks with a log of 30 blocks at block 2, all else zero. *)
Definition demo_sb : list Z := put32 (put32 zero_block 12 30) 16 2.
Definition demo_disk : disk := mkDisk 100 {[1 := demo_sb]} [].
Definition demo_log (k : kernel) : kernel :=
  set_k_log (mkLog 2 30 0 false ROOTDEV 0 (replicate 30 0)) (set_k_disk demo_disk (demo_process k)).
Definition demo_tops (d : list Z) : list top :=
  [TRead 50; TSet 50 d; TWrite 50; TRelse 50; TRead 60; TRead 50; TSet 60 d; TWrite 60; TRelse 60; TRelse 50].

Lemma demo_sb_ok : block_ok demo_sb.
Proof. do 2 (apply block_ok_put32; [|unfold BSIZE; lia]). apply zero_block_ok. Qed.

Lemma demo_disk_ok b : block_ok (disk_block demo_disk b).
Proof.
  unfold disk_block, demo_disk. cbn [d_blocks]. destruct (decide (1 = b)) as [<-|].
  - rewrite lookup_singleton_eq. apply demo_sb_ok.
  - rewrite lookup_singleton_ne by done. apply zero_block_ok.
Qed.

Lemma demo_tx k1 : binit kernel0 = Ret tt k1 → tx 2 30 (demo_log k1) 1 (disk_block demo_disk) [] ∅.
Proof.
  intros Hrun. destruct (binit_boot k1 Hrun) as [Ept Eh].
  destruct (binit_spec kernel0 kernel0_blank) as (k1' & Hrun' & Hb). assert (k1 = k1') as -> by congruence.
  split; try done.
  - apply (binv_boot kernel0 k1' (demo_log k1')); [done|done|exact (demo_process_running k1' Ept Eh)|exact demo_disk_ok].
  - split; [constructor|intros b Hx; by apply elem_of_nil in Hx|done|unfold NBUF; cbn; lia|apply not_elem_of_nil].
Qed.

Lemma demo_tops_allowed (V : Z → list Z) d : block_ok d → tall_allowed 2 30 100 V (mkTs V [] ∅) (demo_tops d).
Proof.
  intros Hok. cbn [demo_tops tall_allowed tallowed tstep ts_view ts_log ts_held]. unfold tx_room, in_log.
  split_and!; try decide_set; try lia; try exact Hok.
Qed.

Lemma log_crash_safe_witness :
  ∃ k1, binit kernel0 = Ret tt k1 ∧
    let k := demo_log k1 in
    let new := ts_view (foldl tstep (mkTs (disk_block demo_disk) [] ∅) (demo_tops (replicate BSIZE 5))) in
    ∃ k', transaction (W := 0%nat) (demo_tops (replicate BSIZE 5)) k = Ret tt k' ∧
      ∀ c kr pidr, crash_of (k_disk k) (k_disk k') c → rebooted kr pidr c →
        ∃ kr', initlog (W := 0%nat) ROOTDEV kr = Ret tt kr' ∧
          (same_home 2 30 (disk_block (k_disk kr')) (disk_block demo_disk) ∨ same_home 2 30 (disk_block (k_disk kr')) new).
Proof.
  destruct (binit_spec kernel0 kernel0_blank) as (k1 & Hrun & _). exists k1. split; [exact Hrun|].
  destruct (log_crash_safe (W := 0%nat) 2 30 (demo_log k1) 1 (disk_block demo_disk) (demo_tops (replicate BSIZE 5)) (demo_tx k1 Hrun))
    as (k' & R & _ & _ & Hcrash).
  - reflexivity.
  - vm_compute. reflexivity.
  - vm_compute. reflexivity.
  - exact (demo_tops_allowed _ _ fives_ok).
  - exists k'. split; [exact R|]. intros c kr pidr Hc Hrb.
    destruct (Hcrash c kr) as (kr' & Rr & Hon & _); [exists c, pidr; split_and!; [exact Hc|apply rtc_refl|exact Hrb]|]. exists kr'. split; [exact Rr|exact Hon].
Defined.
