(* ===== verification/Fs.v ===== *)
(** * The file system (src/fs.c): blocks, inodes, contents

    Inodes are indices into [k_icache].  Transfers to and from memory are
    byte lists: [readi] returns the bytes it copies out, [writei] takes those it
    copies in.  The table of devices [devsw] is a class; the console fills it. *)

From stdpp Require Import functions.
From S2P Require Import Prelude Mem CString State Mmu Spinlock Kalloc Vm Proc Sleeplock Disk Bio Log.

(** ** Layout (src/fs.h, src/stat.h) *)

Definition ROOTINO : Z := 1.
Definition NDIRECT : Z := 12.
Definition NINDIRECT : Z := 128.
Definition MAXFILE : Z := NDIRECT + NINDIRECT.
Definition DINODE_SIZE : nat := 64.
Definition IPB : Z := 8.
Definition IBLOCK (i : Z) (sb : superblock) : Z := u32 (i / IPB + sb_inodestart sb).
Definition BPB : Z := 4096.
Definition BBLOCK (b : Z) (sb : superblock) : Z := u32 (b / BPB + sb_bmapstart sb).
Definition DIRSIZ : nat := 14.
Definition DIRENT_SIZE : Z := 16.
Definition T_DIR : Z := 1.
Definition T_FILE : Z := 2.
Definition T_DEV : Z := 3.

(** [struct dinode] at the bytes [off ..] of a block. *)
Record dinode := mkDinode {
  di_type : Z; di_major : Z; di_minor : Z; di_nlink : Z; di_size : Z; di_addrs : list Z
}.

Definition dinode_off (inum : Z) : nat := (Z.to_nat (inum mod IPB) * DINODE_SIZE)%nat.

Definition get_dinode (data : list Z) (off : nat) : dinode :=
  mkDinode (i16 (get16 data off)) (i16 (get16 data (off + 2))) (i16 (get16 data (off + 4)))
    (i16 (get16 data (off + 6))) (get32 data (off + 8))
    ((λ j, get32 data (off + 12 + 4 * j)) <$> seq 0 13).

Definition put_addrs (data : list Z) (off : nat) (addrs : list Z) : list Z :=
  foldl (λ d j, put32 d (off + 12 + 4 * j) (addrs !!! j)) data (seq 0 13).

Definition put_dinode (data : list Z) (off : nat) (d : dinode) : list Z :=
  put_addrs
    (put32 (put16 (put16 (put16 (put16 data off (di_type d)) (off + 2) (di_major d)) (off + 4) (di_minor d))
       (off + 6) (di_nlink d)) (off + 8) (di_size d)) off (di_addrs d).

(** The fields an inode in memory shares with the disk. *)
Definition dinode_of (ip : inode) : dinode :=
  mkDinode (i_type ip) (i_major ip) (i_minor ip) (i_nlink ip) (i_size ip) (i_addrs ip).
Definition load_dinode (d : dinode) (ip : inode) : inode :=
  set_i_addrs (di_addrs d) (set_i_size (di_size d) (set_i_nlink (di_nlink d)
    (set_i_minor (di_minor d) (set_i_major (di_major d) (set_i_type (di_type d) ip))))).

(** Bit [bi] of a block of the free map. *)
Definition bit_mask (bi : nat) : Z := Z.shiftl 1 (Z.of_nat bi mod 8).
Definition byte_at (data : list Z) (i : nat) : Z := data !!! i.
Definition bit_used (data : list Z) (bi : nat) : bool :=
  negb (Z.land (byte_at data (bi / 8)) (bit_mask bi) =? 0).
Definition set_bit (data : list Z) (bi : nat) : list Z :=
  <[(bi / 8)%nat := u8 (Z.lor (byte_at data (bi / 8)) (bit_mask bi))]> data.
Definition clear_bit (data : list Z) (bi : nat) : list Z :=
  <[(bi / 8)%nat := u8 (Z.land (byte_at data (bi / 8)) (Z.lnot (bit_mask bi)))]> data.

(** The device switch [devsw]: the read and write routines of a major number. *)
Class Devsw := {
  devsw_read : Z → option (nat → Z → K (Z * list Z));
  devsw_write : Z → option (nat → list Z → K Z)
}.

(** [struct stat] *)
Record stat := mkStat { st_type : Z; st_dev : Z; st_ino : Z; st_nlink : Z; st_size : Z }.

Definition upd_data (bp : nat) (f : list Z → list Z) : K unit :=
  modify (upd_buf bp (λ b, set_b_data (f (b_data b)) b)).
Definition get_data (bp : nat) : K (list Z) := gets (λ k, b_data (buf_at k bp)).
Definition get_inode (ip : nat) : K inode := gets (λ k, inode_at k ip).
Definition upd_i (ip : nat) (f : inode → inode) : K unit := modify (upd_inode ip f).

Section fs.
Context `{W : Wakeups} `{D : DiskDriver}.

(** ** Blocks *)

Definition bzero (dev bno : Z) : K unit :=
  bp <- bread dev bno ;;
  upd_data bp (λ _, zero_block) ;;;
  log_write bp ;;;
  brelse bp.

(** The scan of one block of the map, which holds the bits of [b ..]; [n] is the
    number of bits to look at. *)
Definition balloc_block (dev b : Z) (n : nat) : K (option Z) :=
  sb <- gets k_sb ;;
  bp <- bread dev (BBLOCK b sb) ;;
  data <- get_data bp ;;
  match find_index (λ bi, negb (bit_used data bi)) (seq 0 n) with
  | Some bi =>
      upd_data bp (λ d, set_bit d bi) ;;;
      log_write bp ;;;
      brelse bp ;;;
      bzero dev (b + bi) ;;;
      ret (Some (b + bi))
  | None => brelse bp ;;; ret None
  end.

Definition balloc (dev : Z) : K Z :=
  size <- gets (λ k, sb_size (k_sb k)) ;;
  o <- foreach_exit (seq 0 (Z.to_nat ((size + BPB - 1) / BPB))) (λ j,
         let b := j * BPB in balloc_block dev b (Z.to_nat (Z.min BPB (size - b)))) ;;
  match o with Some b => ret b | None => panic "balloc: out of blocks" end.

Definition bfree (dev b : Z) : K unit :=
  sb <- readsb dev ;;
  modify (set_k_sb sb) ;;;
  bp <- bread dev (BBLOCK b sb) ;;
  let bi := Z.to_nat (b mod BPB) in
  data <- get_data bp ;;
  if negb (bit_used data bi) then panic "freeing free block"
  else
    upd_data bp (λ d, clear_bit d bi) ;;;
    log_write bp ;;;
    brelse bp.

(** ** Inodes *)

Definition iinit (dev : Z) : K unit :=
  foreach (seq 0 NINODE) (λ i, initsleeplock (SlInode i)) ;;;
  sb <- readsb dev ;;
  modify (set_k_sb sb).

Definition iget (dev inum : Z) : K nat :=
  acquire LIcache ;;;
  o <- gets (λ k, find_index (λ ip, (i_ref ip >? 0) && (i_dev ip =? dev) && (i_inum ip =? inum)) (k_icache k)) ;;
  match o with
  | Some ip =>
      upd_i ip (λ i, set_i_ref (i_ref i + 1) i) ;;;
      release LIcache ;;;
      ret ip
  | None =>
      empty <- gets (λ k, find_index (λ ip, i_ref ip =? 0) (k_icache k)) ;;
      match empty with
      | None => panic "iget: no inodes"
      | Some ip =>
          upd_i ip (λ i, set_i_valid false (set_i_ref 1 (set_i_inum inum (set_i_dev dev i)))) ;;;
          release LIcache ;;;
          ret ip
      end
  end.

Definition ialloc (dev type : Z) : K nat :=
  sb <- gets k_sb ;;
  o <- foreach_exit (seq 1 (Z.to_nat (sb_ninodes sb) - 1)) (λ inum : nat,
         bp <- bread dev (IBLOCK inum sb) ;;
         data <- get_data bp ;;
         let off := dinode_off inum in
         if i16 (get16 data off) =? 0 then
           upd_data bp (λ d, put16 (splice d off (replicate DINODE_SIZE 0)) off type) ;;;
           log_write bp ;;;
           brelse bp ;;;
           ip <- iget dev inum ;;
           ret (Some ip)
         else brelse bp ;;; ret None) ;;
  match o with Some ip => ret ip | None => panic "ialloc: no inodes" end.

Definition iupdate (ip : nat) : K unit :=
  i <- get_inode ip ;;
  sb <- gets k_sb ;;
  bp <- bread (i_dev i) (IBLOCK (i_inum i) sb) ;;
  upd_data bp (λ d, put_dinode d (dinode_off (i_inum i)) (dinode_of i)) ;;;
  log_write bp ;;;
  brelse bp.

Definition idup (ip : nat) : K nat :=
  acquire LIcache ;;;
  upd_i ip (λ i, set_i_ref (i_ref i + 1) i) ;;;
  release LIcache ;;;
  ret ip.

Definition ilock (ip : nat) : K unit :=
  i <- get_inode ip ;;
  if i_ref i <? 1 then panic "ilock"
  else
    acquiresleep (SlInode ip) ;;;
    i <- get_inode ip ;;
    if i_valid i then ret tt
    else
      sb <- gets k_sb ;;
      bp <- bread (i_dev i) (IBLOCK (i_inum i) sb) ;;
      data <- get_data bp ;;
      upd_i ip (load_dinode (get_dinode data (dinode_off (i_inum i)))) ;;;
      brelse bp ;;;
      upd_i ip (set_i_valid true) ;;;
      i <- get_inode ip ;;
      if i_type i =? 0 then panic "ilock: no type" else ret tt.

Definition iunlock (ip : nat) : K unit :=
  h <- holdingsleep (SlInode ip) ;;
  if negb h then panic "iunlock"
  else
    i <- get_inode ip ;;
    if i_ref i <? 1 then panic "iunlock" else releasesleep (SlInode ip).

(** ** Contents *)

(** [itrunc]; the block list of the inode is cleared entry by entry. *)
Definition itrunc (ip : nat) : K unit :=
  foreach (seq 0 (Z.to_nat NDIRECT)) (λ i,
    ino <- get_inode ip ;;
    let a := i_addrs ino !!! i in
    when (negb (a =? 0))
      (bfree (i_dev ino) a ;;; upd_i ip (λ n, set_i_addrs (<[i := 0]> (i_addrs n)) n))) ;;;
  ino <- get_inode ip ;;
  let ind := i_addrs ino !!! Z.to_nat NDIRECT in
  when (negb (ind =? 0))
    (bp <- bread (i_dev ino) ind ;;
     foreach (seq 0 (Z.to_nat NINDIRECT)) (λ j,
       data <- get_data bp ;;
       let a := get32 data (4 * j) in
       when (negb (a =? 0)) (bfree (i_dev ino) a)) ;;;
     brelse bp ;;;
     bfree (i_dev ino) ind ;;;
     upd_i ip (λ n, set_i_addrs (<[Z.to_nat NDIRECT := 0]> (i_addrs n)) n)) ;;;
  upd_i ip (set_i_size 0) ;;;
  iupdate ip.

Definition iput (ip : nat) : K unit :=
  acquiresleep (SlInode ip) ;;;
  i <- get_inode ip ;;
  when (i_valid i && (i_nlink i =? 0))
    (acquire LIcache ;;;
     r <- gets (λ k, i_ref (inode_at k ip)) ;;
     release LIcache ;;;
     when (r =? 1)
       (itrunc ip ;;;
        upd_i ip (set_i_type 0) ;;;
        iupdate ip ;;;
        upd_i ip (set_i_valid false))) ;;;
  releasesleep (SlInode ip) ;;;
  acquire LIcache ;;;
  upd_i ip (λ i, set_i_ref (i_ref i - 1) i) ;;;
  release LIcache.

Definition iunlockput (ip : nat) : K unit := iunlock ip ;;; iput ip.

Definition bmap (ip : nat) (bn : Z) : K Z :=
  i <- get_inode ip ;;
  if bn <? NDIRECT then
    let addr := i_addrs i !!! Z.to_nat bn in
    if addr =? 0 then
      addr <- balloc (i_dev i) ;;
      upd_i ip (λ n, set_i_addrs (<[Z.to_nat bn := addr]> (i_addrs n)) n) ;;;
      ret addr
    else ret addr
  else
    let bn := bn - NDIRECT in
    if bn <? NINDIRECT then
      let addr := i_addrs i !!! Z.to_nat NDIRECT in
      addr <- (if addr =? 0 then
                 addr <- balloc (i_dev i) ;;
                 upd_i ip (λ n, set_i_addrs (<[Z.to_nat NDIRECT := addr]> (i_addrs n)) n) ;;;
                 ret addr
               else ret addr) ;;
      bp <- bread (i_dev i) addr ;;
      data <- get_data bp ;;
      let addr := get32 data (4 * Z.to_nat bn) in
      addr <- (if addr =? 0 then
                 addr <- balloc (i_dev i) ;;
                 upd_data bp (λ d, put32 d (4 * Z.to_nat bn) addr) ;;;
                 log_write bp ;;;
                 ret addr
               else ret addr) ;;
      brelse bp ;;;
      ret addr
    else panic "bmap: out of range".

Definition stati (ip : nat) : K stat :=
  i <- get_inode ip ;; ret (mkStat (i_type i) (i_dev i) (i_inum i) (i_nlink i) (i_size i)).

(** The loop of [readi]: [n] bytes from [off] on. *)
Fixpoint readi_loop (fuel : nat) (ip : nat) (off n : Z) : K (list Z) :=
  if n <=? 0 then ret []
  else match fuel with
       | O => λ _, Spin
       | S fuel =>
           i <- get_inode ip ;;
           addr <- bmap ip (off / BSIZE) ;;
           bp <- bread (i_dev i) addr ;;
           let m := Z.min n (BSIZE - off mod BSIZE) in
           data <- get_data bp ;;
           let bytes := slice data (Z.to_nat (off mod BSIZE)) (Z.to_nat m) in
           brelse bp ;;;
           rest <- readi_loop fuel ip (off + m) (n - m) ;;
           ret (bytes ++ rest)
       end.

Context `{DV : Devsw}.

Definition readi (ip : nat) (off n : Z) : K (Z * list Z) :=
  i <- get_inode ip ;;
  if i_type i =? T_DEV then
    match (if (i_major i <? 0) || (i_major i >=? NDEV) then None else devsw_read (i_major i)) with
    | None => ret (-1, [])
    | Some read => read ip n
    end
  else if (off >? i_size i) || (u32 (off + n) <? off) then ret (-1, [])
  else
    let n := if off + n >? i_size i then i_size i - off else n in
    bytes <- readi_loop (Z.to_nat n) ip off n ;;
    ret (n, bytes).

(** The loop of [writei]; it returns the offset it ends at. *)
Fixpoint writei_loop (fuel : nat) (ip : nat) (src : list Z) (off : Z) : K Z :=
  match src with
  | [] => ret off
  | _ :: _ =>
      match fuel with
      | O => λ _, Spin
      | S fuel =>
          i <- get_inode ip ;;
          addr <- bmap ip (off / BSIZE) ;;
          bp <- bread (i_dev i) addr ;;
          let m := Z.min (length src) (BSIZE - off mod BSIZE) in
          upd_data bp (λ d, splice d (Z.to_nat (off mod BSIZE)) (take (Z.to_nat m) src)) ;;;
          log_write bp ;;;
          brelse bp ;;;
          writei_loop fuel ip (drop (Z.to_nat m) src) (off + m)
      end
  end.

Definition writei (ip : nat) (src : list Z) (off : Z) : K Z :=
  let n : Z := length src in
  i <- get_inode ip ;;
  if i_type i =? T_DEV then
    match (if (i_major i <? 0) || (i_major i >=? NDEV) then None else devsw_write (i_major i)) with
    | None => ret (-1)
    | Some write => write ip src
    end
  else if (off >? i_size i) || (u32 (off + n) <? off) then ret (-1)
  else if off + n >? MAXFILE * BSIZE then ret (-1)
  else
    off <- writei_loop (length src) ip src off ;;
    i <- get_inode ip ;;
    when ((n >? 0) && (off >? i_size i)) (upd_i ip (set_i_size off) ;;; iupdate ip) ;;;
    ret n.
End fs.
