(* ===== verification/FsTx.v ===== *)
(** * File-system operations inside a transaction: blocks (src/fs.c)

    [fsx] is the state of the kernel inside a file-system call, seen as a block
    store [V]: the buffer cache and the log present it (LogTx.v), and the routines
    of src/fs.c are specified by what they do to [V].  The free map is the bits of
    one block, which is enough for the 1000 blocks of a disk made by mkfs. *)

From stdpp Require Import functions.
From S2P Require Import Prelude Mem CString State Mmu Spinlock Kalloc Vm Proc Sleeplock Disk Bio BioSpec Log LogSpec LogCommit LogTx Fs.

(** ** Layout of the disk *)

(** Boot block, superblock, log, inodes, free map, data, in this order. *)
Record geom (sb : superblock) (nblocks : Z) : Prop := {
  ge_log : 1 < sb_logstart sb ∧ 0 < sb_nlog sb;
  ge_inodes : sb_logstart sb + sb_nlog sb <= sb_inodestart sb ∧ 0 < sb_ninodes sb ∧
    sb_inodestart sb + sb_ninodes sb / 8 < sb_bmapstart sb;
  ge_data : sb_bmapstart sb < sb_size sb;
  ge_size : sb_size sb <= 4096 ∧ sb_size sb <= nblocks
}.

(** The blocks a transaction may change. *)
Definition usable (sb : superblock) (b : Z) : Prop := sb_inodestart sb <= b < sb_size sb.
(** The blocks that hold data. *)
Definition is_data (sb : superblock) (b : Z) : Prop := sb_bmapstart sb < b < sb_size sb.

(** The transaction may write [n] more blocks. *)
Definition room (sb : superblock) (bl : list Z) (n : Z) : Prop :=
  0 <= n ∧ length bl + n < sb_nlog sb ∧ length bl + n + 2 < 30.

(** [w] says whether the call is inside a transaction, as a call that writes is. *)
Record fsx (w : bool) (sb : superblock) (k : kernel) (pid : Z) (V : Z → list Z) (bl : list Z) (H : gmap Z nat) : Prop := {
  fx_tx : tx (sb_logstart sb) (sb_nlog sb) k pid V bl H;
  fx_sb : k_sb k = sb;
  fx_out : l_outstanding (k_log k) = if w then 1 else 0;
  fx_geom : geom sb (d_size (k_disk k))
}.

Lemma log_frame_apart {A} (f : kernel → A) k k' :
  (∀ l k, f (set_k_log l k) = f k) → (∀ k, f (apart k) = f k) → log_frame k k' → f k' = f k.
Proof.
  intros H1 H2 [Ha _ _]. rewrite <- (H2 k'), Ha, H2. apply H1.
Qed.
Lemma log_frame_sb k k' : log_frame k k' → k_sb k' = k_sb k.
Proof. by apply log_frame_apart. Qed.
Lemma log_frame_icache k k' : log_frame k k' → k_icache k' = k_icache k.
Proof. by apply log_frame_apart. Qed.
Lemma log_frame_ftable k k' : log_frame k k' → k_ftable k' = k_ftable k.
Proof. by apply log_frame_apart. Qed.
Lemma log_frame_refl k : log_frame k k.
Proof. apply log_frame_bio, bio_frame_refl. Qed.
#[export] Hint Resolve log_frame_refl : kernel.

Lemma length_add_block b bl : (length (add_block b bl) <= S (length bl))%nat.
Proof. unfold add_block. case_bool_decide; [lia|]. rewrite length_app. simpl. lia. Qed.
Lemma elem_add_block b bl : b ∈ add_block b bl.
Proof. unfold add_block. case_bool_decide; [done|]. rewrite elem_of_app, list_elem_of_singleton. by right. Qed.
Lemma add_block_incl b c bl : c ∈ bl → c ∈ add_block b bl.
Proof. unfold add_block. case_bool_decide; [done|]. rewrite elem_of_app. by left. Qed.

Lemma room_add sb b bl n : room sb bl (n + 1) → 0 <= n → room sb (add_block b bl) n.
Proof. intros (? & ? & ?) ?. pose proof (length_add_block b bl). split_and!; lia. Qed.
Lemma room_in sb b bl n : b ∈ bl → room sb bl n → room sb (add_block b bl) n.
Proof. unfold add_block. intros Hb. by rewrite bool_decide_true. Qed.
Lemma room_le sb bl n m : room sb bl n → 0 <= m <= n → room sb bl m.
Proof. intros (? & ? & ?) ?. split_and!; lia. Qed.

(** ** The free map *)

Lemma byte_at_range d i : Forall is_byte d → 0 <= byte_at d i < 256.
Proof.
  intros Hd. unfold byte_at. rewrite list_lookup_total_alt. destruct (d !! i) as [x|] eqn:E; simpl; [|lia].
  by apply (Forall_lookup_1 _ _ _ _ Hd E).
Qed.

Lemma bit_mask_pow bi : bit_mask bi = 2 ^ (Z.of_nat bi mod 8).
Proof. unfold bit_mask. rewrite Z.shiftl_1_l. done. Qed.

Lemma bit_used_testbit d bi : bit_used d bi = Z.testbit (byte_at d (bi / 8)) (Z.of_nat bi mod 8).
Proof.
  unfold bit_used. rewrite bit_mask_pow, land_flag_testbit by (pose proof (Z.mod_pos_bound bi 8); lia).
  apply negb_involutive.
Qed.

Lemma byte_bits x : 0 <= x < 256 ↔ 0 <= x ∧ ∀ n, 8 <= n → Z.testbit x n = false.
Proof.
  split.
  - intros Hx. split; [lia|]. intros n Hn. apply Z.testbit_false; [lia|].
    rewrite Z.div_small; [done|]. split; [lia|]. apply Z.lt_le_trans with (2 ^ 8); [lia|]. by apply Z.pow_le_mono_r.
  - intros [Hx Hb]. split; [done|]. destruct (Z.eq_dec x 0) as [->|Hne]; [lia|].
    change 256 with (2 ^ 8). apply Z.log2_lt_pow2; [lia|]. apply Z.nle_gt. intros Hle.
    specialize (Hb _ Hle). by rewrite Z.bit_log2 in Hb by lia.
Qed.

Lemma bit_same (i j : nat) : (i / 8 = j / 8)%nat → Z.of_nat i mod 8 = Z.of_nat j mod 8 → i = j.
Proof.
  intros H1 H2. pose proof (Nat.div_mod_eq i 8). pose proof (Nat.div_mod_eq j 8).
  assert (Z.of_nat (i mod 8) = Z.of_nat (j mod 8)) by (rewrite !Nat2Z.inj_mod; done). lia.
Qed.

Section bits.
Context (d : list Z) (Hd : block_ok d) (i : nat) (Hi : (i < 4096)%nat).

Lemma bit_index (j : nat) : (j < 4096)%nat → (j / 8 < length d)%nat.
Proof using Hd. clear i Hi. intros Hj. destruct Hd as [-> _]. unfold BSIZE. apply Nat.Div0.div_lt_upper_bound. lia. Qed.

Lemma set_bit_ok : block_ok (set_bit d i).
Proof using Hd.
  destruct Hd as [Hl Hb]. unfold set_bit. split; [by rewrite length_insert|]. apply Forall_insert; [done|].
  apply u8_range.
Qed.

Lemma clear_bit_ok : block_ok (clear_bit d i).
Proof using Hd.
  destruct Hd as [Hl Hb]. unfold clear_bit. split; [by rewrite length_insert|]. apply Forall_insert; [done|].
  apply u8_range.
Qed.

Lemma set_bit_used j : (j < 4096)%nat → bit_used (set_bit d i) j = bool_decide (i = j) || bit_used d j.
Proof using Hd Hi.
  intros Hj. rewrite !bit_used_testbit. unfold set_bit, byte_at at 1.
  destruct (decide (i / 8 = j / 8)%nat) as [Heq|Hne].
  - rewrite <- Heq, list_lookup_total_insert_eq by (by apply bit_index). rewrite u8_small.
    2: { apply byte_bits. pose proof (byte_at_range d (i / 8) (proj2 Hd)) as Hr. apply byte_bits in Hr as [Hr1 Hr2].
         rewrite bit_mask_pow. pose proof (Z.mod_pos_bound i 8). split.
         - apply Z.lor_nonneg. split; [done|]. apply Z.pow_nonneg. lia.
         - intros n Hn. rewrite Z.lor_spec, Hr2, Z.pow2_bits_false by lia. done. }
    rewrite Z.lor_spec, bit_mask_pow, Z.pow2_bits_eqb by (apply Z.mod_pos_bound; lia). rewrite orb_comm. f_equal.
    apply eq_true_iff_eq. rewrite Z.eqb_eq, bool_decide_eq_true. split; [by apply bit_same|by intros ->].
  - rewrite list_lookup_total_insert_ne by done. rewrite bool_decide_false by (by intros ->). done.
Qed.

Lemma clear_bit_used j : (j < 4096)%nat → bit_used (clear_bit d i) j = negb (bool_decide (i = j)) && bit_used d j.
Proof using Hd Hi.
  intros Hj. rewrite !bit_used_testbit. unfold clear_bit, byte_at at 1.
  destruct (decide (i / 8 = j / 8)%nat) as [Heq|Hne].
  - rewrite <- Heq, list_lookup_total_insert_eq by (by apply bit_index). pose proof (Z.mod_pos_bound j 8). rewrite u8_small.
    2: { apply byte_bits. pose proof (byte_at_range d (i / 8) (proj2 Hd)) as Hr. apply byte_bits in Hr as [Hr1 Hr2].
         split; [apply Z.land_nonneg; by left|]. intros n Hn. by rewrite Z.land_spec, Hr2 by lia. }
    rewrite Z.land_spec, Z.lnot_spec, bit_mask_pow, Z.pow2_bits_eqb by (try apply Z.mod_pos_bound; lia).
    rewrite andb_comm. f_equal. f_equal.
    apply eq_true_iff_eq. rewrite Z.eqb_eq, bool_decide_eq_true. split; [by apply bit_same|by intros ->].
  - rewrite list_lookup_total_insert_ne by done. rewrite bool_decide_false by (by intros ->). done.
Qed.
End bits.

(** ** Reading and changing a block *)

Section fsx.
Context `{W : Wakeups} `{D : DiskDriver} `{DOk : !DiskDriverOk D}.
Context (sb : superblock) (pid : Z).
Implicit Types (k : kernel) (V : Z → list Z) (bl : list Z) (H : gmap Z nat).

(** The block of the free map. *)
Definition bmap_block : Z := sb_bmapstart sb.

Lemma usable_outside {w} k V bl H b : fsx w sb k pid V bl H → usable sb b →
  0 <= b < d_size (k_disk k) ∧ ¬ in_log (sb_logstart sb) (sb_nlog sb) b ∧ b ≠ 1.
Proof using Type.
  intros [_ _ _ [[? ?] (? & ? & ?) ? [? ?]]] [? ?]. unfold in_log. split_and!; lia.
Qed.

(** A block is as the transaction or the disk has it. *)
Definition settled k V bl (b : Z) : Prop := b ∈ bl ∨ V b = disk_block (k_disk k) b.

Lemma fsx_settled {w} k V bl H b : fsx w sb k pid V bl H → H !! b = None → settled k V bl b.
Proof using Type.
  intros Hx Hn. unfold settled. destruct (decide (b ∈ bl)) as [?|Hb]; [by left|right].
  apply (bi_clean _ _ _ _ _ (tx_inv _ _ _ _ _ _ _ (fx_tx _ _ _ _ _ _ _ Hx))); [by rewrite elem_of_list_to_set|done].
Qed.

Lemma fsx_block_ok {w} k V bl H b : fsx w sb k pid V bl H → block_ok (V b).
Proof using Type. intros Hx. apply (bi_blocks _ _ _ _ _ (tx_inv _ _ _ _ _ _ _ (fx_tx _ _ _ _ _ _ _ Hx))). Qed.

Lemma fsx_bread {w} k V bl H b :
  fsx w sb k pid V bl H → H !! b = None → usable sb b → room sb bl 0 → (size H <= 2)%nat →
  ∃ i k', bread ROOTDEV b k = Ret i k' ∧ fsx w sb k' pid V bl (<[b := i]> H) ∧ b_data (buf_at k' i) = V b ∧
    k_disk k' = k_disk k ∧ log_frame k k'.
Proof using DOk.
  intros Hx Hn Hb Hroom Hsz. destruct (usable_outside _ _ _ _ _ Hx Hb) as (Hr & Ho & _). destruct Hx as [Ht Hsb Hout Hg].
  destruct (tx_bread _ _ k pid V bl H b Ht Hn Hr Ho) as (i & k' & R & T & Dk & F).
  { right. destruct Hroom as (_ & _ & ?). unfold NBUF. lia. }
  pose proof (log_frame_bio _ _ F) as F'. exists i, k'. split_and!; [done| | |done|done].
  - split; [done|by rewrite (log_frame_sb _ _ F')|by rewrite (bio_frame_log _ _ F)|by rewrite Dk].
  - apply (held_data _ _ _ _ _ b i (tx_inv _ _ _ _ _ _ _ T)). by rewrite lookup_insert_eq.
Qed.

Lemma fsx_brelse {w} k V bl H b i :
  fsx w sb k pid V bl H → H !! b = Some i → settled k V bl b →
  ∃ k', brelse i k = Ret tt k' ∧ fsx w sb k' pid V bl (delete b H) ∧ k_disk k' = k_disk k ∧ log_frame k k'.
Proof using DOk.
  intros [Ht Hsb Hout Hg] Hh Hs. destruct (tx_brelse _ _ k pid V bl H b i Ht Hh Hs) as (k' & R & T & Dk & F).
  pose proof (log_frame_bio _ _ F) as F'. exists k'. split_and!; [done| |done|done].
  split; [done|by rewrite (log_frame_sb _ _ F')|by rewrite (bio_frame_log _ _ F)|by rewrite Dk].
Qed.

(** Change the data of a block that is held and put it in the log. *)
Lemma fsx_update k V bl H b i f :
  fsx true sb k pid V bl H → H !! b = Some i → usable sb b → room sb bl 1 → block_ok (f (V b)) →
  ∃ k1 k', upd_data i f k = Ret tt k1 ∧ log_write i k1 = Ret tt k' ∧
    fsx true sb k' pid (<[b := f (V b)]> V) (add_block b bl) H ∧ k_disk k' = k_disk k ∧ log_frame k k'.
Proof using Type.
  intros Hx Hh Hb Hroom Hok. destruct (usable_outside _ _ _ _ _ Hx Hb) as (Hr & Ho & Hb1). destruct Hx as [Ht Hsb Hout Hg].
  pose proof (tx_set _ _ k pid V bl H b i _ Ht Hh Hok) as Ht1.
  assert (upd_data i f k = Ret tt (upd_buf i (set_b_data (f (V b))) k)) as R1.
  { unfold upd_data, modify. f_equal. unfold upd_buf. f_equal. apply list_alter_ext; [|done].
    intros x Hx. f_equal. f_equal.
    rewrite <- (held_data _ _ _ _ _ _ _ (tx_inv _ _ _ _ _ _ _ Ht) Hh). unfold buf_at.
    by rewrite (list_lookup_total_correct _ _ _ Hx). }
  destruct (tx_log_write _ _ _ pid _ bl H b i Ht1 Hh Ho Hb1) as (k' & R & T & Dk & F & Out).
  { destruct Hroom as (_ & ? & ?). split; [lia|]. unfold NBUF. lia. }
  { cbn; lia. }
  eexists _, k'. split_and!; [exact R1|done| |done|].
  - split; [done|by rewrite (log_frame_sb _ _ F)|by rewrite Out|by rewrite Dk].
  - eapply log_frame_trans; [|exact F]. apply log_frame_bio, bio_frame_upd.
Qed.

(** Only the inode cache differs. *)
Lemma fsx_icache {w} k V bl H c : fsx w sb k pid V bl H → fsx w sb (set_k_icache c k) pid V bl H.
Proof using Type.
  intros [[Hb Hl Ha Hbl He Hf Hi] Hsb Hout Hg]. split; [|done|done|done]. split; try done.
  apply (binv_ext k); [done|done|apply (bi_run _ _ _ _ _ Hb)|done].
Qed.

(** A block is read, changed, logged and released. *)
Lemma fsx_modify k V bl H b f :
  fsx true sb k pid V bl H → H !! b = None → usable sb b → room sb bl 1 → (size H <= 2)%nat → block_ok (f (V b)) →
  ∃ i k1 k2 k3 k', bread ROOTDEV b k = Ret i k1 ∧ upd_data i f k1 = Ret tt k2 ∧ log_write i k2 = Ret tt k3 ∧
    brelse i k3 = Ret tt k' ∧ b_data (buf_at k1 i) = V b ∧
    fsx true sb k' pid (<[b := f (V b)]> V) (add_block b bl) H ∧ k_disk k' = k_disk k ∧ log_frame k k'.
Proof using DOk.
  intros Hx Hn Hb Hroom Hsz Hok.
  destruct (fsx_bread k V bl H b Hx Hn Hb) as (i & k1 & R1 & X1 & Hd & D1 & F1); [by apply (room_le _ _ 1); [|lia]|done|].
  destruct (fsx_update k1 V bl _ b i f X1) as (k2 & k3 & R2 & R3 & X3 & D3 & F3); [by rewrite lookup_insert_eq|done|done|done|].
  destruct (fsx_brelse k3 _ _ _ b i X3) as (k4 & R4 & X4 & D4 & F4);
    [by rewrite lookup_insert_eq|left; apply elem_add_block|].
  rewrite delete_insert_id in X4 by done.
  exists i, k1, k2, k3, k4. split_and!; [done..|congruence|by eapply log_frame_trans, log_frame_trans].
Qed.

(** A block is read and released. *)
Lemma fsx_read {w} k V bl H b :
  fsx w sb k pid V bl H → H !! b = None → usable sb b → room sb bl 0 → (size H <= 2)%nat →
  ∃ i k1 k', bread ROOTDEV b k = Ret i k1 ∧ b_data (buf_at k1 i) = V b ∧ brelse i k1 = Ret tt k' ∧
    fsx w sb k' pid V bl H ∧ k_disk k' = k_disk k ∧ log_frame k k'.
Proof using DOk.
  intros Hx Hn Hb Hroom Hsz. pose proof (fsx_settled _ _ _ _ _ Hx Hn) as Hs.
  destruct (fsx_bread k V bl H b Hx Hn Hb Hroom Hsz) as (i & k1 & R1 & X1 & Hd & D1 & F1).
  destruct (fsx_brelse k1 _ _ _ b i X1) as (k2 & R2 & X2 & D2 & F2);
    [by rewrite lookup_insert_eq|unfold settled in *; by rewrite D1|].
  rewrite delete_insert_id in X2 by done.
  exists i, k1, k2. split_and!; [done..|congruence|by eapply log_frame_trans].
Qed.

(** ** Allocation of blocks *)

Definition used V (b : Z) : bool := bit_used (V bmap_block) (Z.to_nat b).

(** The superblock, the log, the inodes and the map are in use. *)
Definition meta_used V : Prop := ∀ b, 0 <= b <= sb_bmapstart sb → used V b = true.

(** The block [balloc] finds. *)
Definition first_free V (b : Z) : Prop :=
  0 <= b < sb_size sb ∧ used V b = false ∧ ∀ c, 0 <= c < b → used V c = true.

(** The store after [b] is allocated, and after it is freed. *)
Definition alloc_block (b : Z) V : Z → list Z :=
  <[b := zero_block]> (<[bmap_block := set_bit (V bmap_block) (Z.to_nat b)]> V).
Definition free_block (b : Z) V : Z → list Z := <[bmap_block := clear_bit (V bmap_block) (Z.to_nat b)]> V.

Lemma first_free_data V b : meta_used V → first_free V b → is_data sb b.
Proof using Type.
  intros Hm (Hb & Hu & _). split; [|lia]. apply Z.nle_gt. intros Hle. by rewrite Hm in Hu by lia.
Qed.

Lemma geom_bmap {w} k V bl H : fsx w sb k pid V bl H → usable sb bmap_block.
Proof using Type. intros [_ _ _ [? (? & ? & ?) ? ?]]. unfold usable, bmap_block. split; [|done]. pose proof (Z.div_pos (sb_ninodes sb) 8). lia. Qed.

Lemma data_usable {w} k V bl H b : fsx w sb k pid V bl H → is_data sb b → usable sb b.
Proof using Type. intros Hx [? ?]. pose proof (geom_bmap _ _ _ _ Hx) as [? ?]. unfold usable, bmap_block in *. lia. Qed.

Lemma BBLOCK_eq {w} k V bl H b : fsx w sb k pid V bl H → 0 <= b < 4096 → BBLOCK b sb = bmap_block.
Proof using Type.
  intros Hx Hb. unfold BBLOCK, BPB, bmap_block. rewrite Z.div_small by done.
  destruct Hx as [_ _ _ [? (? & ? & ?) ? [? ?]]]. apply u32_small. unfold is_u32.
  pose proof (Z.div_pos (sb_ninodes sb) 8). lia.
Qed.

Lemma bzero_spec k V bl H b :
  fsx true sb k pid V bl H → H !! b = None → usable sb b → room sb bl 1 → (size H <= 2)%nat →
  ∃ k', bzero ROOTDEV b k = Ret tt k' ∧ fsx true sb k' pid (<[b := zero_block]> V) (add_block b bl) H ∧
    k_disk k' = k_disk k ∧ log_frame k k'.
Proof using DOk.
  intros Hx Hn Hb Hroom Hsz.
  destruct (fsx_modify k V bl H b (λ _, zero_block) Hx Hn Hb Hroom Hsz zero_block_ok)
    as (i & k1 & k2 & k3 & k' & R1 & R2 & R3 & R4 & _ & X & Dk & F).
  exists k'. split_and!; [|done..]. unfold bzero. mcall R1. mcall R2. by mcall R3.
Qed.

Lemma balloc_spec k V bl H b :
  fsx true sb k pid V bl H → H !! bmap_block = None → H !! b = None → (size H <= 2)%nat →
  meta_used V → first_free V b → room sb (add_block bmap_block bl) 1 →
  ∃ k', balloc ROOTDEV k = Ret b k' ∧ fsx true sb k' pid (alloc_block b V) (add_block b (add_block bmap_block bl)) H ∧
    k_disk k' = k_disk k ∧ log_frame k k'.
Proof using DOk.
  intros Hx Hn Hnb Hsz Hm Hfree Hroom. pose proof (first_free_data _ _ Hm Hfree) as Hdata.
  destruct Hfree as (Hb & Hu & Hbef). pose proof (ge_size _ _ (fx_geom _ _ _ _ _ _ _ Hx)) as [Hs1 _].
  set (f := λ d, set_bit d (Z.to_nat b)).
  destruct (fsx_modify k V bl H bmap_block f Hx Hn) as (i & k1 & k2 & k3 & k4 & R1 & R2 & R3 & R4 & Hd & X4 & D4 & F4).
  { by eapply geom_bmap. }
  { destruct Hroom as (_ & ? & ?). unfold room. pose proof (elem_add_block bmap_block bl).
    unfold add_block in *. case_bool_decide; [|rewrite length_app in *; simpl in *]; lia. }
  { done. }
  { apply set_bit_ok. by eapply fsx_block_ok. }
  destruct (bzero_spec k4 _ _ H b X4 Hnb) as (k5 & R5 & X5 & D5 & F5); [by eapply data_usable|done|done|].
  exists k5. split_and!; [|done|congruence|by eapply log_frame_trans].
  unfold balloc. mrun. rewrite (fx_sb _ _ _ _ _ _ _ Hx).
  replace ((sb_size sb + BPB - 1) / BPB) with 1 by (unfold BPB in *; apply Z.div_unique with (sb_size sb - 1); lia).
  change (Z.to_nat 1) with 1%nat. cbn [seq foreach_exit].
  assert (balloc_block ROOTDEV (0%nat * BPB) (Z.to_nat (Z.min BPB (sb_size sb - 0%nat * BPB))) k = Ret (Some b) k5) as R.
  2: { by mcall R. }
  unfold balloc_block. mrun. rewrite (fx_sb _ _ _ _ _ _ _ Hx). change (0%nat * BPB) with 0. rewrite Z.sub_0_r.
  rewrite (BBLOCK_eq _ _ _ _ 0 Hx) by lia. mcall R1. unfold get_data. mrun. rewrite Hd.
  assert (find_index (λ bi, negb (bit_used (V bmap_block) bi)) (seq 0 (Z.to_nat (Z.min BPB (sb_size sb)))) = Some (Z.to_nat b)) as ->.
  { apply find_index_Some. unfold BPB. split.
    - exists (Z.to_nat b). rewrite lookup_seq_lt by lia. split; [done|]. unfold used in Hu. by rewrite Hu.
    - intros j y Hj Hy. apply lookup_seq in Hy as [-> Hlt]. cbn. specialize (Hbef j ltac:(lia)). unfold used in Hbef.
      rewrite Nat2Z.id in Hbef. by rewrite Hbef. }
  mcall R2. mcall R3. mcall R4. rewrite Z.add_0_l, Z2Nat.id by lia. by mcall R5.
Qed.
End fsx.
