(* ===== verification/FsFile.v ===== *)
(** * The contents of a file (src/fs.c: bmap, readi, writei)

    A file is a sequence of blocks named by its inode: twelve directly, the rest
    through an indirect block.  [file_ok] is the well-formedness [bmap] keeps (no
    block twice, no holes, nothing past the end); [fbyte] is the byte at an
    offset.  [readi] reads these bytes and [writei] replaces them, allocating
    blocks past the end, without touching a block of any other file. *)

From stdpp Require Import functions.
From S2P Require Import Prelude Mem CString State Mmu Spinlock Kalloc Vm Proc Sleeplock Disk Bio BioSpec Log LogSpec LogCommit LogTx Fs FsTx.

(** The number of the indirect block, and of the [n]th block of the file. *)
Definition ind (addrs : list Z) : Z := addrs !!! 12%nat.
Definition block_at (V : Z → list Z) (addrs : list Z) (n : Z) : Z :=
  if n <? 12 then addrs !!! Z.to_nat n
  else if ind addrs =? 0 then 0 else get32 (V (ind addrs)) (4 * Z.to_nat (n - 12)).

(** The blocks of a file of [cnt] blocks, with its indirect block if it has one. *)
Definition blocks (V : Z → list Z) (addrs : list Z) (cnt : Z) : list Z :=
  (block_at V addrs <$> seqZ 0 cnt) ++ (if ind addrs =? 0 then [] else [ind addrs]).

Record file_ok (sb : superblock) (V : Z → list Z) (addrs : list Z) (cnt : Z) : Prop := {
  fo_len : length addrs = 13%nat;
  fo_cnt : 0 <= cnt <= 140;
  fo_nodup : NoDup (blocks V addrs cnt);
  fo_data : Forall (λ b, is_data sb b ∧ used sb V b = true) (blocks V addrs cnt);
  fo_end : ∀ n, cnt <= n < 140 → block_at V addrs n = 0;
  fo_ind : 12 < cnt → ind addrs ≠ 0
}.

(** What a routine that works on the inode [ip] leaves alone. *)
Definition fs_frame (k k' : kernel) : Prop := log_frame (set_k_icache (k_icache k') k) k'.

Lemma log_frame_set_icache c k k' : log_frame k k' → log_frame (set_k_icache c k) (set_k_icache c k').
Proof.
  unfold log_frame. intros [Ha Hp Hs]. split; [|done|done].
  change (set_k_icache c (apart k') = set_k_icache c (apart (set_k_log (k_log k') k))). by rewrite Ha.
Qed.

Lemma fs_frame_log k k' : log_frame k k' → fs_frame k k'.
Proof.
  intros Hf. unfold fs_frame. rewrite (log_frame_icache _ _ Hf).
  replace (set_k_icache (k_icache k) k) with k by (by destruct k). done.
Qed.

Lemma fs_frame_trans k1 k2 k3 : fs_frame k1 k2 → fs_frame k2 k3 → fs_frame k1 k3.
Proof.
  unfold fs_frame. intros H1 H2. eapply log_frame_trans; [|exact H2].
  apply (log_frame_set_icache (k_icache k3)) in H1. by destruct k1.
Qed.

Lemma fs_frame_set c k : fs_frame k (set_k_icache c k).
Proof. apply log_frame_refl. Qed.

Lemma fs_frame_size k k' : fs_frame k k' → d_size (k_disk k') = d_size (k_disk k).
Proof. intros H. by rewrite (log_frame_size _ _ H). Qed.

(** ** The block map *)

Section map.
Context (sb : superblock).
Implicit Types (V : Z → list Z) (addrs : list Z).

Lemma block_at_direct V addrs n : n < 12 → block_at V addrs n = addrs !!! Z.to_nat n.
Proof. intros. unfold block_at. by rewrite (proj2 (Z.ltb_lt _ _)). Qed.

Lemma block_at_ind V addrs n : 12 <= n → ind addrs ≠ 0 → block_at V addrs n = get32 (V (ind addrs)) (4 * Z.to_nat (n - 12)).
Proof. intros ? H. unfold block_at. by rewrite (proj2 (Z.ltb_ge _ _)), (proj2 (Z.eqb_neq _ _) H). Qed.

Lemma block_at_ext V V' addrs n : V' (ind addrs) = V (ind addrs) → block_at V' addrs n = block_at V addrs n.
Proof. intros E. unfold block_at. by rewrite E. Qed.

Lemma blocks_ext V V' addrs cnt : V' (ind addrs) = V (ind addrs) → blocks V' addrs cnt = blocks V addrs cnt.
Proof. intros E. unfold blocks. f_equal. apply list_fmap_ext. intros ? n _. by apply block_at_ext. Qed.

Lemma elem_blocks V addrs cnt b :
  b ∈ blocks V addrs cnt ↔ (∃ n, 0 <= n < cnt ∧ b = block_at V addrs n) ∨ (ind addrs ≠ 0 ∧ b = ind addrs).
Proof.
  unfold blocks. rewrite elem_of_app, list_elem_of_fmap. setoid_rewrite elem_of_seqZ.
  assert (b ∈ (if ind addrs =? 0 then [] else [ind addrs]) ↔ ind addrs ≠ 0 ∧ b = ind addrs) as ->.
  { destruct (Z.eqb_spec (ind addrs) 0) as [->|]; [|rewrite list_elem_of_singleton; tauto].
    rewrite elem_of_nil. tauto. }
  assert ((∃ y, b = block_at V addrs y ∧ 0 <= y < 0 + cnt) ↔ ∃ n, 0 <= n < cnt ∧ b = block_at V addrs n) as ->; [|done].
  split; intros (n & ? & ?); exists n; (split; [|done]); lia || done.
Qed.

Lemma file_block V addrs cnt n : file_ok sb V addrs cnt → 0 <= n < cnt →
  is_data sb (block_at V addrs n) ∧ used sb V (block_at V addrs n) = true.
Proof.
  intros Hf Hn. apply (proj1 (Forall_forall _ _) (fo_data _ _ _ _ Hf)). apply elem_blocks. left. by exists n.
Qed.

Lemma file_ind V addrs cnt : file_ok sb V addrs cnt → ind addrs ≠ 0 →
  is_data sb (ind addrs) ∧ used sb V (ind addrs) = true.
Proof.
  intros Hf Hn. apply (proj1 (Forall_forall _ _) (fo_data _ _ _ _ Hf)). apply elem_blocks. by right.
Qed.

Lemma file_block_inj V addrs cnt n m : file_ok sb V addrs cnt → 0 <= n < cnt → 0 <= m < cnt →
  block_at V addrs n = block_at V addrs m → n = m.
Proof.
  intros Hf Hn Hm E. pose proof (fo_nodup _ _ _ _ Hf) as Hnd. unfold blocks in Hnd. apply NoDup_app in Hnd as (Hnd & _ & _).
  assert (Z.to_nat n = Z.to_nat m); [|lia].
  eapply (NoDup_lookup _ _ _ (block_at V addrs n) Hnd).
  - rewrite list_lookup_fmap, lookup_seqZ_lt by lia. cbn. do 2 f_equal. lia.
  - rewrite list_lookup_fmap, lookup_seqZ_lt by lia. cbn. rewrite E. do 2 f_equal. lia.
Qed.

Lemma file_block_not_ind V addrs cnt n : file_ok sb V addrs cnt → 0 <= n < cnt → ind addrs ≠ 0 → block_at V addrs n ≠ ind addrs.
Proof.
  intros Hf Hn Hc E. pose proof (fo_nodup _ _ _ _ Hf) as Hnd. unfold blocks in Hnd.
  rewrite (proj2 (Z.eqb_neq _ _) Hc) in Hnd. apply NoDup_app in Hnd as (_ & Hd & _).
  apply (Hd (ind addrs)); [|by left]. rewrite <- E. apply list_elem_of_fmap. exists n. split; [done|]. apply elem_of_seqZ. lia.
Qed.

(** [NoDup] of the blocks, unfolded. *)
Lemma blocks_nodup V addrs cnt :
  (∀ n m, 0 <= n < cnt → 0 <= m < cnt → block_at V addrs n = block_at V addrs m → n = m) →
  (ind addrs ≠ 0 → ∀ n, 0 <= n < cnt → block_at V addrs n ≠ ind addrs) →
  NoDup (blocks V addrs cnt).
Proof.
  intros Hinj Hind. unfold blocks. apply NoDup_app. split_and!.
  - apply NoDup_fmap_2_strong; [|apply NoDup_seqZ]. intros n m Hn Hm. rewrite elem_of_seqZ in Hn, Hm. apply Hinj; lia.
  - intros b (n & -> & Hn%elem_of_seqZ)%list_elem_of_fmap. destruct (Z.eqb_spec (ind addrs) 0); [apply not_elem_of_nil|].
    rewrite list_elem_of_singleton. apply Hind; [done|lia].
  - destruct (ind addrs =? 0); [constructor|apply NoDup_singleton].
Qed.

(** From [file_ok] for the store [V] to a store and inode with some more blocks. *)
Record grown V addrs cnt V' addrs' cnt' : Prop := {
  gr_ok : file_ok sb V' addrs' cnt';
  gr_cnt : cnt <= cnt';
  gr_ind : ind addrs ≠ 0 → ind addrs' = ind addrs;
  gr_old : ∀ n, 0 <= n < cnt → block_at V' addrs' n = block_at V addrs n;
  gr_used : ∀ c, 0 <= c < 4096 → used sb V c = true → used sb V' c = true;
  gr_new : ∀ b, b ∈ blocks V' addrs' cnt' → b ∈ blocks V addrs cnt ∨ used sb V b = false;
  gr_frame : ∀ c, c ∉ blocks V' addrs' cnt' → c ≠ bmap_block sb → V' c = V c;
  gr_meta : meta_used sb V'
}.

Context (nb : Z) (Hg : geom sb nb).

Lemma is_data_range b : is_data sb b → 0 < b < 4096 ∧ b ≠ bmap_block sb.
Proof using Hg.
  intros [? ?]. destruct Hg as [[? ?] (? & ? & ?) ? [? ?]]. pose proof (Z.div_pos (sb_ninodes sb) 8).
  unfold bmap_block. lia.
Qed.

Lemma file_elem_data V addrs cnt b : file_ok sb V addrs cnt → b ∈ blocks V addrs cnt → is_data sb b ∧ used sb V b = true.
Proof. intros Hf Hb. by apply (proj1 (Forall_forall _ _) (fo_data _ _ _ _ Hf)). Qed.

Lemma grown_sub V addrs cnt V' addrs' cnt' b : grown V addrs cnt V' addrs' cnt' → b ∈ blocks V addrs cnt → b ∈ blocks V' addrs' cnt'.
Proof.
  intros [? ? Hi Ho ? ? ? ?]. rewrite !elem_blocks. intros [(n & Hn & ->)|[Hne ->]].
  - left. exists n. rewrite Ho by lia. split; [lia|done].
  - right. by rewrite Hi.
Qed.

Lemma grown_trans V addrs cnt V1 addrs1 cnt1 V2 addrs2 cnt2 :
  grown V addrs cnt V1 addrs1 cnt1 → grown V1 addrs1 cnt1 V2 addrs2 cnt2 → grown V addrs cnt V2 addrs2 cnt2.
Proof using Hg.
  intros G1 G2. pose proof (λ b, grown_sub _ _ _ _ _ _ b G2) as Hsub.
  destruct G1 as [H1 Hc Hi H2 H3 H4 H5 H6], G2 as [H1' Hc' Hi' H2' H3' H4' H5' H6'].
  split; [done|lia| | | | | |done].
  - intros Hne. rewrite Hi'; rewrite Hi by done; done.
  - intros n Hn. rewrite H2', H2 by lia. done.
  - auto.
  - intros b Hb. destruct (H4' b Hb) as [Hb1|Hu]; [by apply H4|]. right.
    destruct (used sb V b) eqn:E; [|done]. rewrite H3 in Hu; [done| |done].
    destruct (file_elem_data _ _ _ _ H1' Hb) as [Hd _]. apply is_data_range in Hd. lia.
  - intros c Hc2 Hne. rewrite H5', H5; try done. intros Hin. by apply Hc2, Hsub.
Qed.

(** ** Allocation, as seen by a file *)

Lemma alloc_same b V : alloc_block sb b V b = zero_block.
Proof. unfold alloc_block. by rewrite fn_lookup_insert. Qed.

Lemma alloc_other b V c : c ≠ b → c ≠ bmap_block sb → alloc_block sb b V c = V c.
Proof. intros. unfold alloc_block. by rewrite !fn_lookup_insert_ne. Qed.

Lemma alloc_used V b c : block_ok (V (bmap_block sb)) → is_data sb b → 0 <= c < 4096 →
  used sb (alloc_block sb b V) c = bool_decide (b = c) || used sb V c.
Proof using Hg.
  intros Hok Hb Hc. apply is_data_range in Hb as [? ?]. unfold used, alloc_block.
  rewrite fn_lookup_insert_ne, fn_lookup_insert, set_bit_used by (done || lia). f_equal.
  apply bool_decide_ext. lia.
Qed.

Lemma alloc_meta V b : block_ok (V (bmap_block sb)) → is_data sb b → meta_used sb V → meta_used sb (alloc_block sb b V).
Proof using Hg.
  intros Hok Hb Hm c Hc. destruct Hg as [? ? ? [? ?]]. rewrite alloc_used by (done || lia). rewrite Hm by done. apply orb_true_r.
Qed.

Lemma insert_total_direct V addrs n b m : length addrs = 13%nat → 0 <= n < 12 → 0 <= m →
  block_at V (<[Z.to_nat n := b]> addrs) m = if decide (m = n) then b else block_at V addrs m.
Proof.
  intros Hl Hn Hm. assert (ind (<[Z.to_nat n := b]> addrs) = ind addrs) as Hi.
  { unfold ind. rewrite list_lookup_total_insert_ne by lia. done. }
  unfold block_at. rewrite Hi. case_decide as E; subst.
  - rewrite (proj2 (Z.ltb_lt _ _)) by lia. rewrite list_lookup_total_insert_eq by lia. done.
  - destruct (m <? 12); [|done]. rewrite list_lookup_total_insert_ne by lia. done.
Qed.

(** The file gets a fresh block [b] at its end. *)
Lemma grown_block V addrs cnt b V' addrs' :
  file_ok sb V addrs cnt → meta_used sb V → first_free sb V b → cnt < 140 → (12 <= cnt → ind addrs ≠ 0) →
  length addrs' = 13%nat → ind addrs' = ind addrs →
  (∀ m, 0 <= m < 140 → block_at V' addrs' m = if decide (m = cnt) then b else block_at V addrs m) →
  (∀ c, 0 <= c < 4096 → used sb V' c = bool_decide (b = c) || used sb V c) →
  (∀ c, c ≠ b → c ≠ bmap_block sb → c ≠ ind addrs → V' c = V c) → V' 0 = V 0 →
  grown V addrs cnt V' addrs' (cnt + 1).
Proof using Hg.
  intros Hf Hm Hfree Hc Hic Hl Hi Hat Hused Hother Hzero. pose proof (first_free_data sb V b Hm Hfree) as Hb.
  destruct Hfree as (_ & Hu & _). pose proof (is_data_range _ Hb) as [Hbr Hbm]. pose proof (fo_cnt _ _ _ _ Hf) as Hcnt.
  assert (ind addrs ≠ 0 → ind addrs ≠ b) as Hib.
  { intros Hne E. destruct (file_ind _ _ _ Hf Hne) as [_ Hui]. rewrite E in Hui. congruence. }
  assert (∀ n, 0 <= n < cnt → block_at V addrs n ≠ b) as Hnb.
  { intros n Hn E. destruct (file_block _ _ _ n Hf Hn) as [_ Hun]. congruence. }
  assert (∀ c, c ∈ blocks V' addrs' (cnt + 1) ↔ c = b ∨ c ∈ blocks V addrs cnt) as Helem.
  { intros c. rewrite !elem_blocks, Hi. split.
    - intros [(n & Hn & ->)|?]; [|by right; right]. rewrite Hat by lia. case_decide; [by left|]. right. left. exists n. split; [lia|done].
    - intros [->|[(n & Hn & ->)|?]]; [left; exists cnt|left; exists n|by right]; rewrite Hat by lia; case_decide; try lia; split; (lia || done). }
  split; [split| | | | | | |].
  - done.
  - lia.
  - apply blocks_nodup; [intros n m Hn Hm'; rewrite !Hat by lia|rewrite Hi; intros Hne n Hn; rewrite Hat by lia].
    + repeat case_decide; subst; try done; [intros E; exfalso; apply (Hnb m); [lia|done]|intros E; exfalso; apply (Hnb n); [lia|done]|].
      apply (file_block_inj V addrs cnt n m Hf); lia.
    + case_decide; [by apply not_eq_sym, Hib|]. apply (file_block_not_ind V addrs cnt n Hf); [lia|done].
  - apply Forall_forall. intros c [->|Hin]%Helem; [split; [done|]|destruct (file_elem_data _ _ _ _ Hf Hin) as [Hd Hu']; split; [done|]].
    + rewrite Hused by lia. by rewrite bool_decide_true.
    + apply is_data_range in Hd as ?. rewrite Hused, Hu' by lia. apply orb_true_r.
  - intros n Hn. rewrite Hat by lia. case_decide; [lia|]. apply (fo_end _ _ _ _ Hf). lia.
  - rewrite Hi. intros. apply Hic. lia.
  - lia.
  - done.
  - intros n Hn. rewrite Hat by lia. case_decide; [lia|done].
  - intros c Hcr Huc. rewrite Hused, Huc by done. apply orb_true_r.
  - intros c [->|Hin]%Helem; [by right|by left].
  - intros c Hc' Hne. rewrite Helem, elem_blocks in Hc'. destruct (decide (c = ind addrs)) as [->|].
    + destruct (decide (ind addrs = 0)) as [->|]; [done|tauto].
    + apply Hother; [|done|done]. intros ->. tauto.
  - intros c Hcr. destruct Hg as [? ? ? [? ?]]. rewrite Hused, Hm by lia. apply orb_true_r.
Qed.

(** The block is named directly by the inode. *)
Lemma grown_direct V addrs cnt b :
  file_ok sb V addrs cnt → meta_used sb V → block_ok (V (bmap_block sb)) → first_free sb V b → 0 <= cnt < 12 →
  grown V addrs cnt (alloc_block sb b V) (<[Z.to_nat cnt := b]> addrs) (cnt + 1).
Proof using Hg.
  intros Hf Hm Hok Hfree Hc. pose proof (first_free_data sb V b Hm Hfree) as Hb. destruct (is_data_range _ Hb) as [Hbr Hbm].
  pose proof (fo_len _ _ _ _ Hf) as Hl. apply grown_block with b; try done; [lia|lia|by rewrite length_insert| | | | |].
  - unfold ind. rewrite list_lookup_total_insert_ne by lia. done.
  - intros m Hmm. rewrite insert_total_direct by lia. case_decide; [done|].
    destruct (decide (ind addrs = 0)) as [E|Hne]; [unfold block_at; by rewrite E|].
    destruct (file_ind _ _ _ Hf Hne) as [Hd Hui]. apply block_at_ext, alloc_other; [|by apply is_data_range].
    intros E. destruct Hfree as (_ & Hu & _). rewrite E in Hui. congruence.
  - intros c Hcr. by apply alloc_used.
  - intros c ? ? _. by apply alloc_other.
  - apply alloc_other; [lia|]. destruct Hg as [[? ?] (? & ? & ?) ? ?]. pose proof (Z.div_pos (sb_ninodes sb) 8). unfold bmap_block. lia.
Qed.

(** The block is named by the indirect block. *)
Lemma grown_indirect V addrs cnt b :
  file_ok sb V addrs cnt → meta_used sb V → (∀ c, block_ok (V c)) → first_free sb V b → 12 <= cnt < 140 → ind addrs ≠ 0 →
  grown V addrs cnt (<[ind addrs := put32 (V (ind addrs)) (4 * Z.to_nat (cnt - 12)) b]> (alloc_block sb b V)) addrs (cnt + 1).
Proof using Hg.
  intros Hf Hm Hok Hfree Hc Hne. pose proof (first_free_data sb V b Hm Hfree) as Hb. destruct (is_data_range _ Hb) as [Hbr Hbm].
  destruct (file_ind _ _ _ Hf Hne) as [Hd Hui]. destruct (is_data_range _ Hd) as [Hir Him].
  destruct (Hok (ind addrs)) as [Hlen _]. unfold BSIZE in Hlen.
  apply grown_block with b; try done; [lia|apply Hf| | | |].
  - intros m Hmm. destruct (decide (m < 12)) as [Hlt|Hge].
    + rewrite !block_at_direct by done. rewrite decide_False by lia. done.
    + rewrite !block_at_ind by (done || lia). rewrite fn_lookup_insert. case_decide as E; [subst m|].
      * rewrite get32_put32_same by lia. apply u32_small. unfold is_u32. lia.
      * rewrite get32_put32_disj by lia. done.
  - intros c Hcr. unfold used. rewrite fn_lookup_insert_ne by done. by apply alloc_used.
  - intros c ? ? ?. rewrite fn_lookup_insert_ne by done. by apply alloc_other.
  - rewrite fn_lookup_insert_ne by done. apply alloc_other; [lia|].
    destruct Hg as [[? ?] (? & ? & ?) ? ?]. pose proof (Z.div_pos (sb_ninodes sb) 8). unfold bmap_block. lia.
Qed.

Lemma get32_zero off : get32 zero_block off = 0.
Proof.
  unfold get32, slice, zero_block. rewrite drop_replicate, take_replicate.
  destruct (Nat.min 4 (BSIZE - off)) as [|[|[|[|[|]]]]]; reflexivity.
Qed.

(** The file gets its indirect block. *)
Lemma grown_ind V addrs cnt b :
  file_ok sb V addrs cnt → meta_used sb V → block_ok (V (bmap_block sb)) → first_free sb V b → ind addrs = 0 →
  grown V addrs cnt (alloc_block sb b V) (<[12%nat := b]> addrs) cnt.
Proof using Hg.
  intros Hf Hm Hok Hfree Hi. pose proof (first_free_data sb V b Hm Hfree) as Hb. destruct (is_data_range _ Hb) as [Hbr Hbm].
  destruct Hfree as (_ & Hu & _). pose proof (fo_len _ _ _ _ Hf) as Hl. pose proof (fo_cnt _ _ _ _ Hf) as Hcnt.
  assert (cnt <= 12) as Hc12 by (destruct (decide (cnt <= 12)); [done|]; exfalso; apply (fo_ind _ _ _ _ Hf); [lia|done]).
  assert (ind (<[12%nat := b]> addrs) = b) as Hi'.
  { unfold ind. rewrite list_lookup_total_insert_eq by lia. done. }
  assert (∀ m, 0 <= m → block_at (alloc_block sb b V) (<[12%nat := b]> addrs) m = block_at V addrs m) as Hat.
  { intros m Hmm. unfold block_at. rewrite Hi', Hi. destruct (Z.ltb_spec m 12).
    - rewrite list_lookup_total_insert_ne by lia. done.
    - rewrite (proj2 (Z.eqb_neq _ _)) by lia. rewrite alloc_same. apply get32_zero. }
  assert (∀ c, c ∈ blocks (alloc_block sb b V) (<[12%nat := b]> addrs) cnt ↔ c = b ∨ c ∈ blocks V addrs cnt) as Helem.
  { intros c. rewrite !elem_blocks, Hi', Hi. split.
    - intros [(n & Hn & ->)|[_ ->]]; [|by left]. right. left. exists n. rewrite Hat by lia. done.
    - intros [->|[(n & Hn & ->)|[]]]; [right; split; [lia|done]|left; exists n; rewrite Hat by lia; done|done]. }
  split; [split| | | | | | |].
  - by rewrite length_insert.
  - done.
  - apply blocks_nodup; [intros n m Hn Hm'; rewrite !Hat by lia; by apply (file_block_inj V addrs cnt n m Hf)|].
    rewrite Hi'. intros _ n Hn E. rewrite Hat in E by lia. destruct (file_block _ _ _ n Hf Hn) as [_ Hun]. congruence.
  - apply Forall_forall. intros c [->|Hin]%Helem; [split; [done|]|destruct (file_elem_data _ _ _ _ Hf Hin) as [Hd Hu']; split; [done|]].
    + rewrite alloc_used by (done || lia). by rewrite bool_decide_true.
    + apply is_data_range in Hd as ?. rewrite alloc_used, Hu' by (done || lia). apply orb_true_r.
  - intros n Hn. rewrite Hat by lia. by apply (fo_end _ _ _ _ Hf).
  - lia.
  - done.
  - done.
  - intros n Hn. apply Hat. lia.
  - intros c Hcr Huc. rewrite alloc_used, Huc by done. apply orb_true_r.
  - intros c [->|Hin]%Helem; [by right|by left].
  - intros c Hc' Hne. rewrite Helem in Hc'. apply alloc_other; [|done]. intros ->. tauto.
  - by apply alloc_meta.
Qed.
End map.
