(* ===== verification/FsBmap.v ===== *)
(** * [bmap] (src/fs.c): the block of a file, allocated if need be *)

From stdpp Require Import functions.
From S2P Require Import Prelude Mem CString State Mmu Spinlock Kalloc Vm Proc Sleeplock Disk Bio BioSpec Log LogSpec LogCommit LogTx Fs FsTx FsFile.

(** ** Free blocks *)

Section free.
Context (sb : superblock) (nb : Z) (Hg : geom sb nb).
Implicit Types V : Z → list Z.

Definition free_count V : nat := length (filter (λ b, used sb V b = false) (seqZ 0 (sb_size sb))).

Lemma free_first V : (0 < free_count V)%nat → ∃ b, first_free sb V b.
Proof.
  unfold free_count. intros Hpos.
  destruct (find_index (λ b, negb (used sb V b)) (seqZ 0 (sb_size sb))) as [i|] eqn:E.
  - apply find_index_Some in E as [(b & Hb & Hu) Hbef]. apply lookup_seqZ in Hb as [-> Hi]. exists (0 + i). split_and!; [lia|lia| |].
    + by apply negb_true_iff.
    + intros c Hc. specialize (Hbef (Z.to_nat c) c ltac:(lia)). apply negb_false_iff, Hbef. rewrite lookup_seqZ_lt by lia. f_equal. lia.
  - exfalso. rewrite find_index_None in E. apply Nat.lt_neq in Hpos. apply Hpos. symmetry. apply length_zero_iff_nil.
    apply elem_of_nil_inv. intros b [Hu [i Hi]%list_elem_of_lookup]%list_elem_of_filter. apply E in Hi. by rewrite Hu in Hi.
Qed.

Lemma filter_ext_in {A} (P Q : A → Prop) `{∀ x, Decision (P x), ∀ x, Decision (Q x)} (l : list A) :
  (∀ x, x ∈ l → P x ↔ Q x) → filter P l = filter Q l.
Proof.
  induction l as [|x l IH]; intros HP; [done|]. rewrite !filter_cons, IH by (intros; apply HP; by right).
  destruct (HP x ltac:(by left)). repeat case_decide; tauto || done.
Qed.

Lemma filter_one_less {A} (P Q : A → Prop) `{∀ x, Decision (P x), ∀ x, Decision (Q x)} (l : list A) b :
  NoDup l → b ∈ l → Q b → (∀ x, x ∈ l → P x ↔ Q x ∧ x ≠ b) → S (length (filter P l)) = length (filter Q l).
Proof.
  intros Hnd [l1 [l2 ->]]%list_elem_of_split Hq HP. apply NoDup_app in Hnd as (Hn1 & Hd & [Hn2 Hn3]%NoDup_cons).
  rewrite !filter_app, filter_cons_False, filter_cons_True, !length_app; [cbn [length]|done|].
  2: { rewrite HP by (rewrite elem_of_app; right; by left). tauto. }
  assert (filter P l1 = filter Q l1) as ->.
  { apply filter_ext_in. intros x Hx. rewrite HP by (rewrite elem_of_app; by left).
    split; [tauto|]. intros ?. split; [done|]. intros ->. apply (Hd b Hx). by left. }
  assert (filter P l2 = filter Q l2) as ->; [|lia].
  apply filter_ext_in. intros x Hx. rewrite HP by (rewrite elem_of_app; right; by right).
  split; [tauto|]. intros ?. split; [done|]. by intros ->.
Qed.

Lemma free_alloc V V' b : first_free sb V b →
  (∀ c, 0 <= c < 4096 → used sb V' c = bool_decide (b = c) || used sb V c) → S (free_count V') = free_count V.
Proof using Hg.
  intros (Hb & Hu & _) Hused. destruct Hg as [? ? ? [? ?]]. unfold free_count. apply (filter_one_less _ _ _ b).
  - apply NoDup_seqZ.
  - apply elem_of_seqZ. lia.
  - done.
  - intros c Hc%elem_of_seqZ. rewrite Hused by lia. rewrite orb_false_iff, bool_decide_eq_false. naive_solver.
Qed.

Lemma free_count_ext V V' : V' (bmap_block sb) = V (bmap_block sb) → free_count V' = free_count V.
Proof. intros E. unfold free_count, used. by rewrite E. Qed.
End free.

(** ** The blocks a transaction has changed, the free map counted from the start *)

Definition cost (sb : superblock) (bl : list Z) : nat := length (add_block (bmap_block sb) bl).
(** There is room for [n] more blocks, and then for another write of a block that
    is there ([log_write] checks for room before it looks for the block). *)
Definition has_room (sb : superblock) (bl : list Z) (n : Z) : Prop :=
  0 <= n ∧ cost sb bl + n + 1 < sb_nlog sb ∧ cost sb bl + n + 3 < 30.

Section cost.
Context (sb : superblock).

Lemma cost_bmap bl : cost sb (add_block (bmap_block sb) bl) = cost sb bl.
Proof. unfold cost. unfold add_block at 1. by rewrite bool_decide_true by apply elem_add_block. Qed.
Lemma cost_add b bl : (cost sb (add_block b bl) <= cost sb bl + 1)%nat.
Proof.
  unfold cost, add_block. destruct (decide (b ∈ bl)); [rewrite (bool_decide_true (b ∈ bl)) by done; lia|].
  rewrite (bool_decide_false (b ∈ bl)) by done. repeat case_bool_decide; rewrite ?length_app; cbn; try lia.
  exfalso. match goal with H : _ ∉ _ ++ _ |- _ => apply H end. rewrite elem_of_app. by left.
Qed.
Lemma add_block_in b bl : b ∈ bl → add_block b bl = bl.
Proof. intros. unfold add_block. by rewrite bool_decide_true. Qed.
Lemma cost_ge bl : (length bl <= cost sb bl)%nat.
Proof. unfold cost, add_block. case_bool_decide; rewrite ?length_app; lia. Qed.

Lemma has_room_room bl n : has_room sb bl n → room sb (add_block (bmap_block sb) bl) (n + 1) ∧ room sb bl (n + 1).
Proof. intros (? & ? & ?). pose proof (cost_ge bl). unfold room, cost in *. split; split_and!; lia. Qed.
Lemma has_room_add b bl n : has_room sb bl (n + 1) → 0 <= n → has_room sb (add_block b bl) n.
Proof. intros (? & ? & ?) ?. pose proof (cost_add b bl). split_and!; lia. Qed.
Lemma has_room_drop b bl n : has_room sb (add_block b bl) n → has_room sb bl n.
Proof.
  assert (cost sb bl <= cost sb (add_block b bl))%nat; [|intros (? & ? & ?); split_and!; lia].
  unfold cost, add_block. repeat case_bool_decide; rewrite ?length_app; cbn; lia || tauto.
Qed.
Lemma has_room_bmap bl n : has_room sb bl n → has_room sb (add_block (bmap_block sb) bl) n.
Proof. unfold has_room. by rewrite cost_bmap. Qed.
Lemma has_room_le bl n m : has_room sb bl n → 0 <= m <= n → has_room sb bl m.
Proof. intros (? & ? & ?) ?. split_and!; lia. Qed.
End cost.

(** ** The routine *)

(** The in-memory inode [ip] lists the blocks [addrs]. *)
Record inode_is (k : kernel) (ip : nat) (addrs : list Z) : Prop := {
  ii_slot : (ip < length (k_icache k))%nat;
  ii_dev : i_dev (inode_at k ip) = ROOTDEV;
  ii_addrs : i_addrs (inode_at k ip) = addrs
}.

(** The blocks an allocation takes: the block, and the indirect block if it is missing. *)
Definition need (addrs : list Z) (cnt n : Z) : nat :=
  if n <? cnt then 0 else if (12 <=? n) && (ind addrs =? 0) then 2 else 1.

Section bmap.
Context `{W : Wakeups} `{D : DiskDriver} `{DOk : !DiskDriverOk D}.
Context (sb : superblock) (pid : Z) (ip : nat).
Implicit Types (k : kernel) (V : Z → list Z) (bl : list Z).

(** What [bmap] does: it returns the block, in a store in which the file has it. *)
Record bmapped k V bl addrs cnt n k' V' bl' addrs' : Prop := {
  bm_fsx : fsx true sb k' pid V' bl' ∅;
  bm_icache : k_icache k' = alter (set_i_addrs addrs') ip (k_icache k);
  bm_grown : grown sb V addrs cnt V' addrs' (Z.max cnt (n + 1));
  bm_data : ∀ m, 0 <= m < cnt → V' (block_at V addrs m) = V (block_at V addrs m);
  bm_same : n < cnt → addrs' = addrs;
  bm_zero : n = cnt → V' (block_at V' addrs' n) = zero_block;
  bm_room : ∀ r, 0 <= r → has_room sb bl (r + 2) → has_room sb (add_block (block_at V' addrs' n) bl') r;
  bm_free : (free_count sb V <= free_count sb V' + need addrs cnt n)%nat;
  bm_disk : k_disk k' = k_disk k;
  bm_frame : fs_frame k k'
}.

Lemma alter_set_addrs_id k addrs : inode_is k ip addrs → alter (set_i_addrs addrs) ip (k_icache k) = k_icache k.
Proof using Type.
  intros [Hs _ Ha]. rewrite (list_alter_ext _ id _ (k_icache k) ip); [by apply list_alter_id| |done].
  intros x Hx. unfold inode_at in Ha. rewrite (list_lookup_total_correct _ _ _ Hx) in Ha. rewrite <- Ha. by destruct x.
Qed.

Lemma grown_refl V addrs cnt : file_ok sb V addrs cnt → meta_used sb V → grown sb V addrs cnt V addrs cnt.
Proof using Type. intros. split; try done. intros; by left. Qed.

(** The entry [bn] of the indirect block [a], the last part of the routine. *)
Definition bmap_entry (dev a bn : Z) : K Z :=
  bp <- bread dev a ;;
  data <- get_data bp ;;
  let addr := get32 data (4 * Z.to_nat bn) in
  addr <- (if addr =? 0 then
             addr <- balloc dev ;;
             upd_data bp (λ d, put32 d (4 * Z.to_nat bn) addr) ;;;
             log_write bp ;;;
             ret addr
           else ret addr) ;;
  brelse bp ;;;
  ret addr.

Lemma bmap_direct_eq n k : n < 12 →
  bmap ip n k =
    (let i := inode_at k ip in
     let addr := i_addrs i !!! Z.to_nat n in
     if addr =? 0 then
       addr <- balloc (i_dev i) ;;
       upd_i ip (λ x, set_i_addrs (<[Z.to_nat n := addr]> (i_addrs x)) x) ;;;
       ret addr
     else ret addr) k.
Proof using Type. intros Hn. unfold bmap, get_inode, NDIRECT. mrun. by rewrite (proj2 (Z.ltb_lt _ _)). Qed.

Lemma bmap_indirect_eq n k : 12 <= n < 140 →
  bmap ip n k =
    (let i := inode_at k ip in
     addr <- (if ind (i_addrs i) =? 0 then
                addr <- balloc (i_dev i) ;;
                upd_i ip (λ x, set_i_addrs (<[12%nat := addr]> (i_addrs x)) x) ;;;
                ret addr
              else ret (ind (i_addrs i))) ;;
     bmap_entry (i_dev i) addr (n - 12)) k.
Proof using Type.
  intros Hn. unfold bmap, get_inode, NDIRECT, NINDIRECT. mrun.
  rewrite (proj2 (Z.ltb_ge n 12)), (proj2 (Z.ltb_lt (n - 12) 128)) by lia. done.
Qed.

Lemma is_data_nonzero {w} k V bl H b : fsx w sb k pid V bl H → is_data sb b → b =? 0 = false.
Proof using Type. intros Hx Hd. apply Z.eqb_neq. apply (is_data_range sb _ (fx_geom _ _ _ _ _ _ _ Hx)) in Hd. lia. Qed.

(** The entry is there. *)
Lemma bmap_entry_old {w} k V bl addrs cnt n :
  fsx w sb k pid V bl ∅ → file_ok sb V addrs cnt → 12 <= n < cnt → room sb bl 0 →
  ∃ k', bmap_entry ROOTDEV (ind addrs) (n - 12) k = Ret (block_at V addrs n) k' ∧ fsx w sb k' pid V bl ∅ ∧
    k_disk k' = k_disk k ∧ log_frame k k'.
Proof using DOk.
  intros Hx Hf Hn Hroom. assert (ind addrs ≠ 0) as Hne by (apply Hf; lia).
  destruct (file_ind _ _ _ _ Hf Hne) as [Hd _]. destruct (file_block _ _ _ _ n Hf ltac:(lia)) as [Hb _].
  destruct (fsx_read sb pid k V bl ∅ (ind addrs) Hx) as (i & k1 & k' & R1 & Hdata & R2 & X & Dk & F);
    [done|by eapply data_usable|done|by rewrite map_size_empty; lia|].
  exists k'. split_and!; [|done..]. unfold bmap_entry. mcall R1. unfold get_data. mrun. rewrite Hdata.
  rewrite <- block_at_ind by (done || lia). rewrite (is_data_nonzero _ _ _ _ _ Hx Hb). mrun. by mcall R2.
Qed.

(** The entry is allocated. *)
Lemma bmap_entry_new k V bl addrs cnt b :
  fsx true sb k pid V bl ∅ → file_ok sb V addrs cnt → meta_used sb V → first_free sb V b → 12 <= cnt < 140 → ind addrs ≠ 0 →
  has_room sb bl 1 →
  let V' := <[ind addrs := put32 (V (ind addrs)) (4 * Z.to_nat (cnt - 12)) b]> (alloc_block sb b V) in
  ∃ k', bmap_entry ROOTDEV (ind addrs) (cnt - 12) k = Ret b k' ∧
    fsx true sb k' pid V' (add_block (ind addrs) (add_block b (add_block (bmap_block sb) bl))) ∅ ∧
    k_disk k' = k_disk k ∧ log_frame k k'.
Proof using DOk.
  intros Hx Hf Hm Hfree Hc Hne Hroom V'.
  destruct (file_ind _ _ _ _ Hf Hne) as [Hd Hui]. pose proof (first_free_data _ _ _ Hm Hfree) as Hb.
  pose proof (is_data_range sb _ (fx_geom _ _ _ _ _ _ _ Hx)) as Hrange.
  destruct (Hrange _ Hd) as [_ Him]. destruct (Hrange _ Hb) as [Hbr Hbm].
  assert (b ≠ ind addrs) as Hbi by (intros E; destruct Hfree as (_ & Hu & _); rewrite E in Hu; congruence).
  destruct (fsx_bread sb pid k V bl ∅ (ind addrs) Hx) as (i & k1 & R1 & X1 & Hdata & D1 & F1);
    [done|by eapply data_usable|apply (room_le _ _ (1 + 1)); [by apply has_room_room|lia]|by rewrite map_size_empty; lia|].
  destruct (balloc_spec sb pid k1 V bl _ b X1) as (k2 & R2 & X2 & D2 & F2); try done.
  { by rewrite lookup_insert_ne. }
  { by rewrite lookup_insert_ne. }
  { rewrite insert_empty, map_size_singleton. lia. }
  { apply (has_room_room sb bl 0). by eapply has_room_le; [exact Hroom|lia]. }
  assert (alloc_block sb b V (ind addrs) = V (ind addrs)) as E by (by apply alloc_other).
  destruct (fsx_update sb pid k2 _ _ _ (ind addrs) i (λ d, put32 d (4 * Z.to_nat (cnt - 12)) b) X2) as (k3 & k4 & R3 & R4 & X4 & D4 & F4).
  { by rewrite lookup_insert_eq. }
  { by eapply data_usable. }
  { apply (has_room_room sb _ 0), (has_room_add sb b _ 0); [|lia]. by apply has_room_bmap. }
  { rewrite E. destruct (fsx_block_ok _ _ _ _ _ _ (ind addrs) Hx) as [Hl Hbytes]. unfold BSIZE in *. split.
    - rewrite length_put32 by lia. exact Hl.
    - unfold put32, splice. apply Forall_app. split; [by apply Forall_take|]. apply Forall_app.
      split; [apply bytes_of_u32_byte|by apply Forall_drop]. }
  rewrite E in X4. destruct (fsx_brelse sb pid k4 _ _ _ (ind addrs) i X4) as (k5 & R5 & X5 & D5 & F5).
  { by rewrite lookup_insert_eq. }
  { left. apply elem_add_block. }
  rewrite delete_insert_id in X5 by done.
  exists k5. split_and!; [|done|congruence|by eapply log_frame_trans, log_frame_trans, log_frame_trans].
  unfold bmap_entry. mcall R1. unfold get_data. mrun. rewrite Hdata, <- block_at_ind by (done || lia).
  rewrite (fo_end _ _ _ _ Hf) by lia. rewrite Z.eqb_refl. mcall R2. mcall R3. mcall R4. by mcall R5.
Qed.

Lemma inode_is_frame k k' addrs : k_icache k' = k_icache k → inode_is k ip addrs → inode_is k' ip addrs.
Proof using Type. intros E [? ? ?]. unfold inode_at in *. split; unfold inode_at; by rewrite E. Qed.

Lemma inode_is_set k k' addrs addrs' :
  k_icache k' = alter (set_i_addrs addrs') ip (k_icache k) → inode_is k ip addrs → inode_is k' ip addrs'.
Proof using Type.
  intros E [Hs Hd _]. unfold inode_at in *. split; unfold inode_at; rewrite E; [by rewrite length_alter| |];
    by rewrite list_lookup_total_alter_eq.
Qed.

Lemma upd_addrs_eq k addrs (f : list Z → list Z) : inode_is k ip addrs →
  upd_i ip (λ x, set_i_addrs (f (i_addrs x)) x) k = Ret tt (set_k_icache (alter (set_i_addrs (f addrs)) ip (k_icache k)) k).
Proof using Type.
  intros [Hs _ Ha]. unfold upd_i, modify, upd_inode. do 2 f_equal. apply list_alter_ext; [|done].
  intros x Hx. unfold inode_at in Ha. rewrite (list_lookup_total_correct _ _ _ Hx) in Ha. by rewrite Ha.
Qed.

(** Nothing to allocate. *)
Lemma bmap_old {w} k V bl addrs cnt n :
  fsx w sb k pid V bl ∅ → inode_is k ip addrs → file_ok sb V addrs cnt → 0 <= n < cnt → room sb bl 0 →
  ∃ k', bmap ip n k = Ret (block_at V addrs n) k' ∧ fsx w sb k' pid V bl ∅ ∧ k_disk k' = k_disk k ∧ log_frame k k'.
Proof using DOk.
  intros Hx [Hs Hd Ha] Hf Hn Hroom. destruct (file_block _ _ _ _ n Hf Hn) as [Hb _].
  pose proof (is_data_nonzero _ _ _ _ _ Hx Hb) as Hz. destruct (decide (n < 12)) as [Hlt|Hge].
  - exists k. rewrite bmap_direct_eq by done. cbv zeta. rewrite Ha, <- (block_at_direct V), Hz by done.
    split_and!; [done|done|done|apply log_frame_refl].
  - rewrite bmap_indirect_eq by (pose proof (fo_cnt _ _ _ _ Hf); lia). cbv zeta. rewrite Hd, Ha.
    rewrite (proj2 (Z.eqb_neq (ind addrs) 0)) by (apply Hf; lia). mrun.
    destruct (bmap_entry_old k V bl addrs cnt n Hx Hf ltac:(lia) Hroom) as (k' & R & X & Dk & F). by exists k'.
Qed.

(** A block that the inode names. *)
Lemma bmap_new_direct k V bl addrs cnt :
  fsx true sb k pid V bl ∅ → inode_is k ip addrs → file_ok sb V addrs cnt → meta_used sb V → 0 <= cnt < 12 →
  (1 <= free_count sb V)%nat → has_room sb bl 2 →
  ∃ k' V' bl' addrs', bmap ip cnt k = Ret (block_at V' addrs' cnt) k' ∧ bmapped k V bl addrs cnt cnt k' V' bl' addrs'.
Proof using DOk.
  intros Hx Hi Hf Hm Hc Hfree Hroom. pose proof (fx_geom _ _ _ _ _ _ _ Hx) as Hg.
  destruct (free_first sb V Hfree) as [b Hb]. pose proof (fsx_block_ok sb pid _ _ _ _ (bmap_block sb) Hx) as Hok.
  destruct (balloc_spec sb pid k V bl ∅ b Hx) as (k1 & R1 & X1 & D1 & F1); try done.
  { by rewrite map_size_empty; lia. }
  { apply (has_room_room sb bl 0). by eapply has_room_le; [exact Hroom|lia]. }
  pose proof (inode_is_frame _ _ _ (log_frame_icache _ _ F1) Hi) as Hi1.
  pose proof (grown_direct sb _ Hg V addrs cnt b Hf Hm Hok Hb Hc) as G.
  assert (block_at (alloc_block sb b V) (<[Z.to_nat cnt := b]> addrs) cnt = b) as Hat.
  { rewrite block_at_direct by lia. apply list_lookup_total_insert_eq. rewrite (fo_len _ _ _ _ Hf). lia. }
  pose proof (first_free_data _ _ _ Hm Hb) as Hdata.
  eexists _, _, _, (<[Z.to_nat cnt := b]> addrs). split.
  { rewrite bmap_direct_eq by lia. cbv zeta. destruct Hi as [_ Hd Ha]. rewrite Hd, Ha, <- (block_at_direct V) by lia.
    rewrite (fo_end _ _ _ _ Hf) by lia. rewrite Z.eqb_refl. mcall R1.
    mcall (upd_addrs_eq k1 addrs (λ l, <[Z.to_nat cnt := b]> l) Hi1). rewrite Hat. reflexivity. }
  split; [by apply fsx_icache, X1| | | |lia| | | | |].
  - cbn. by rewrite (log_frame_icache _ _ F1).
  - by rewrite Z.max_r by lia.
  - intros m Hmc. destruct (file_block _ _ _ _ m Hf Hmc) as [Hdm Hum]. destruct (is_data_range sb _ Hg _ Hdm) as [_ ?].
    apply alloc_other; [|done]. intros E. destruct Hb as (_ & Hu & _). rewrite E in Hum. congruence.
  - intros _. rewrite Hat. apply alloc_same.
  - intros r Hr Hroom'. rewrite Hat, add_block_in by apply elem_add_block.
    apply (has_room_le _ _ (r + 1)); [|lia]. apply has_room_add; [|lia]. apply has_room_bmap. by replace (r + 1 + 1) with (r + 2) by lia.
  - rewrite <- (free_alloc sb _ Hg V (alloc_block sb b V) b Hb) by (intros; by eapply alloc_used).
    unfold need. rewrite (proj2 (Z.ltb_ge _ _)), (proj2 (Z.leb_gt 12 cnt)) by lia. cbn [andb]. lia.
  - done.
  - eapply fs_frame_trans; [by apply fs_frame_log|apply fs_frame_set].
Qed.

(** What is left to do for a block named by the indirect block [ind addrs]. *)
Lemma entry_mapped k V bl addrs cnt b k' :
  fsx true sb k pid V bl ∅ → inode_is k ip addrs → file_ok sb V addrs cnt → meta_used sb V → first_free sb V b →
  12 <= cnt < 140 → ind addrs ≠ 0 →
  let V' := <[ind addrs := put32 (V (ind addrs)) (4 * Z.to_nat (cnt - 12)) b]> (alloc_block sb b V) in
  let bl' := add_block (ind addrs) (add_block b (add_block (bmap_block sb) bl)) in
  fsx true sb k' pid V' bl' ∅ → k_disk k' = k_disk k → log_frame k k' →
  block_at V' addrs cnt = b ∧ bmapped k V bl addrs cnt cnt k' V' bl' addrs.
Proof using Type.
  intros Hx Hi Hf Hm Hb Hc Hne V' bl' Hx' Hdk Hfr. pose proof (fx_geom _ _ _ _ _ _ _ Hx) as Hg.
  pose proof (λ c, fsx_block_ok sb pid _ _ _ _ c Hx) as Hok.
  pose proof (grown_indirect sb _ Hg V addrs cnt b Hf Hm Hok Hb Hc Hne) as G. fold V' in G.
  pose proof (first_free_data _ _ _ Hm Hb) as Hdata. destruct (is_data_range sb _ Hg _ Hdata) as [Hbr Hbm].
  destruct (file_ind _ _ _ _ Hf Hne) as [Hdi Hui]. destruct (is_data_range sb _ Hg _ Hdi) as [_ Him].
  assert (b ≠ ind addrs) as Hbi by (intros E; destruct Hb as (_ & Hu & _); rewrite E in Hu; congruence).
  assert (block_at V' addrs cnt = b) as Hat.
  { rewrite block_at_ind by (done || lia). unfold V'. rewrite fn_lookup_insert, get32_put32_same.
    - apply u32_small. unfold is_u32. lia.
    - destruct (Hok (ind addrs)) as [-> _]. unfold BSIZE. lia. }
  split; [done|]. split; [done| | | |done| | | |done|by apply fs_frame_log].
  - by rewrite alter_set_addrs_id, (log_frame_icache _ _ Hfr).
  - by rewrite Z.max_r by lia.
  - intros m Hmc. destruct (file_block _ _ _ _ m Hf Hmc) as [Hdm Hum]. destruct (is_data_range sb _ Hg _ Hdm) as [_ ?].
    unfold V'. rewrite fn_lookup_insert_ne by (by apply not_eq_sym, (file_block_not_ind sb V addrs cnt)).
    apply alloc_other; [|done]. intros E. destruct Hb as (_ & Hu & _). rewrite E in Hum. congruence.
  - intros _. rewrite Hat. unfold V'. rewrite fn_lookup_insert_ne by done. apply alloc_same.
  - intros r Hr Hroom'. rewrite Hat. unfold bl'. rewrite (add_block_in b) by (apply add_block_incl, elem_add_block).
    apply has_room_add; [|lia]. apply has_room_add; [|lia]. apply has_room_bmap. by replace (r + 1 + 1) with (r + 2) by lia.
  - rewrite (free_count_ext sb (alloc_block sb b V) V') by (unfold V'; by rewrite fn_lookup_insert_ne).
    rewrite <- (free_alloc sb _ Hg V (alloc_block sb b V) b Hb) by (intros; by eapply alloc_used).
    unfold need. rewrite (proj2 (Z.ltb_ge _ _)) by lia. repeat case_match; lia.
Qed.

(** The indirect block is allocated first. *)
Lemma alloc_ind k V bl addrs cnt :
  fsx true sb k pid V bl ∅ → inode_is k ip addrs → file_ok sb V addrs cnt → meta_used sb V → ind addrs = 0 →
  (1 <= free_count sb V)%nat → has_room sb bl 2 →
  ∃ b k' V' bl' addrs', let f := (addr <- balloc ROOTDEV ;;
      upd_i ip (λ x, set_i_addrs (<[12%nat := addr]> (i_addrs x)) x) ;;; ret addr) in
    f k = Ret b k' ∧ b = ind addrs' ∧ b ≠ 0 ∧ fsx true sb k' pid V' bl' ∅ ∧ grown sb V addrs cnt V' addrs' cnt ∧
    k_icache k' = alter (set_i_addrs addrs') ip (k_icache k) ∧
    (∀ m, 0 <= m < cnt → V' (block_at V addrs m) = V (block_at V addrs m)) ∧ S (free_count sb V') = free_count sb V ∧
    bl' = add_block b (add_block (bmap_block sb) bl) ∧ k_disk k' = k_disk k ∧ fs_frame k k'.
Proof using DOk.
  intros Hx Hi Hf Hm Hz Hfree Hroom. pose proof (fx_geom _ _ _ _ _ _ _ Hx) as Hg.
  destruct (free_first sb V Hfree) as [b Hb]. pose proof (fsx_block_ok sb pid _ _ _ _ (bmap_block sb) Hx) as Hok.
  pose proof (first_free_data _ _ _ Hm Hb) as Hdata. destruct (is_data_range sb _ Hg _ Hdata) as [Hbr Hbm].
  destruct (balloc_spec sb pid k V bl ∅ b Hx) as (k1 & R1 & X1 & D1 & F1); try done.
  { by rewrite map_size_empty; lia. }
  { apply (has_room_room sb bl 0). by eapply has_room_le; [exact Hroom|lia]. }
  pose proof (inode_is_frame _ _ _ (log_frame_icache _ _ F1) Hi) as Hi1.
  assert (ind (<[12%nat := b]> addrs) = b) as Hib.
  { apply list_lookup_total_insert_eq. rewrite (fo_len _ _ _ _ Hf). lia. }
  eexists b, _, (alloc_block sb b V), _, (<[12%nat := b]> addrs). cbv zeta. split.
  { mcall R1. by mcall (upd_addrs_eq k1 addrs (λ l, <[12%nat := b]> l) Hi1). }
  split_and!; [done|lia|by apply fsx_icache, X1|by apply (grown_ind sb _ Hg)| | | |done|done|].
  - cbn. by rewrite (log_frame_icache _ _ F1).
  - intros m Hmc. destruct (file_block _ _ _ _ m Hf Hmc) as [Hdm Hum]. destruct (is_data_range sb _ Hg _ Hdm) as [_ ?].
    apply alloc_other; [|done]. intros E. destruct Hb as (_ & Hu & _). rewrite E in Hum. congruence.
  - apply (free_alloc sb _ Hg V (alloc_block sb b V) b Hb). intros; by eapply alloc_used.
  - eapply fs_frame_trans; [by apply fs_frame_log|apply fs_frame_set].
Qed.

Lemma alter_set_addrs_twice a1 a2 (l : list inode) : alter (set_i_addrs a2) ip (alter (set_i_addrs a1) ip l) = alter (set_i_addrs a2) ip l.
Proof using Type.
  apply list_eq. intros j. destruct (decide (ip = j)) as [<-|]; [|by rewrite !list_lookup_alter_ne].
  rewrite !list_lookup_alter_eq. by destruct (l !! ip).
Qed.

(** A block that the indirect block names. *)
Lemma bmap_new_indirect k V bl addrs cnt :
  fsx true sb k pid V bl ∅ → inode_is k ip addrs → file_ok sb V addrs cnt → meta_used sb V → 12 <= cnt < 140 →
  (need addrs cnt cnt <= free_count sb V)%nat → has_room sb bl 2 →
  ∃ k' V' bl' addrs', bmap ip cnt k = Ret (block_at V' addrs' cnt) k' ∧ bmapped k V bl addrs cnt cnt k' V' bl' addrs'.
Proof using DOk.
  intros Hx Hi Hf Hm Hc Hfree Hroom. pose proof (fx_geom _ _ _ _ _ _ _ Hx) as Hg.
  rewrite bmap_indirect_eq by lia. cbv zeta. rewrite (ii_dev _ _ _ Hi), (ii_addrs _ _ _ Hi).
  unfold need in Hfree. rewrite (proj2 (Z.ltb_ge _ _)), (proj2 (Z.leb_le 12 cnt)) in Hfree by lia. cbn [andb] in Hfree.
  destruct (Z.eqb_spec (ind addrs) 0) as [Hz|Hne].
  - destruct (alloc_ind k V bl addrs cnt Hx Hi Hf Hm Hz ltac:(lia) Hroom)
      as (a & k1 & V1 & bl1 & addrs1 & R1 & Ha & Ha0 & X1 & G1 & I1 & Hd1 & Hf1 & Hbl1 & D1 & F1). cbv zeta in R1.
    destruct (free_first sb V1 ltac:(lia)) as [b Hb]. subst a.
    destruct (bmap_entry_new k1 V1 bl1 addrs1 cnt b X1 (gr_ok _ _ _ _ _ _ _ G1) (gr_meta _ _ _ _ _ _ _ G1) Hb Hc Ha0)
      as (k2 & R2 & X2 & D2 & F2).
    { subst bl1. apply has_room_add; [|lia]. by apply has_room_bmap. }
    destruct (entry_mapped k1 V1 bl1 addrs1 cnt b k2 X1 (inode_is_set _ _ _ _ I1 Hi) (gr_ok _ _ _ _ _ _ _ G1)
      (gr_meta _ _ _ _ _ _ _ G1) Hb Hc Ha0 X2 D2 F2) as [Hat B2].
    destruct B2 as [X I G Hdt _ Hzr Hrm Hfr Hdk Hfm]. eexists k2, _, _, addrs1. split.
    { mcall R1. rewrite R2. by rewrite Hat. }
    split; [done| | | |lia|done| | |congruence|by eapply fs_frame_trans].
    + by rewrite I, I1, alter_set_addrs_twice.
    + by eapply (grown_trans sb _ Hg).
    + intros m Hmc. rewrite <- (gr_old _ _ _ _ _ _ _ G1 m Hmc), Hdt, (gr_old _ _ _ _ _ _ _ G1 m Hmc) by done. by apply Hd1.
    + intros r Hr Hroom'. rewrite Hat. subst bl1. rewrite (add_block_in (ind addrs1)), (add_block_in (bmap_block sb)), (add_block_in b).
      * apply has_room_add; [|lia]. apply has_room_add; [|lia]. apply has_room_bmap. by replace (r + 1 + 1) with (r + 2) by lia.
      * apply elem_add_block.
      * apply add_block_incl, elem_add_block.
      * apply add_block_incl. rewrite (add_block_in (bmap_block sb)) by (apply add_block_incl, elem_add_block). apply elem_add_block.
    + unfold need in *. rewrite (proj2 (Z.ltb_ge _ _)), (proj2 (Z.leb_le 12 cnt)), (proj2 (Z.eqb_neq (ind addrs1) 0)) in Hfr by (done || lia).
      rewrite (proj2 (Z.ltb_ge _ _)), (proj2 (Z.leb_le 12 cnt)), Hz by lia. cbn in *. lia.
  - destruct (free_first sb V ltac:(lia)) as [b Hb].
    destruct (bmap_entry_new k V bl addrs cnt b Hx Hf Hm Hb Hc Hne (has_room_le _ _ _ 1 Hroom ltac:(lia))) as (k1 & R1 & X1 & D1 & F1).
    destruct (entry_mapped k V bl addrs cnt b k1 Hx Hi Hf Hm Hb Hc Hne X1 D1 F1) as [Hat B1].
    eexists k1, _, _, addrs. split; [|exact B1]. mrun. by rewrite Hat.
Qed.

(** [bmap] of a block of the file, or of the one just past its end. *)
Lemma bmap_spec k V bl addrs cnt n :
  fsx true sb k pid V bl ∅ → inode_is k ip addrs → file_ok sb V addrs cnt → meta_used sb V → 0 <= n <= cnt → n < 140 →
  (need addrs cnt n <= free_count sb V)%nat → has_room sb bl 2 →
  ∃ k' V' bl' addrs', bmap ip n k = Ret (block_at V' addrs' n) k' ∧ bmapped k V bl addrs cnt n k' V' bl' addrs'.
Proof using DOk.
  intros Hx Hi Hf Hm Hn Hn140 Hfree Hroom. destruct (decide (n = cnt)) as [->|Hne].
  - destruct (decide (cnt < 12)).
    + apply bmap_new_direct; try done; [lia|]. unfold need in Hfree.
      rewrite (proj2 (Z.ltb_ge _ _)), (proj2 (Z.leb_gt 12 cnt)) in Hfree by lia. exact Hfree.
    + apply bmap_new_indirect; try done. lia.
  - destruct (bmap_old k V bl addrs cnt n Hx Hi Hf) as (k' & R & X & Dk & F); [lia| |].
    { apply (room_le _ _ (2 + 1)); [|lia]. by apply has_room_room. }
    exists k', V, bl, addrs. split; [done|]. split; [done| | |done|done|done| | |done|by apply fs_frame_log].
    + by rewrite alter_set_addrs_id, (log_frame_icache _ _ F).
    + rewrite Z.max_l by lia. by apply grown_refl.
    + intros r Hr Hr2. apply has_room_add; [|lia]. eapply has_room_le; [exact Hr2|lia].
    + lia.
Qed.
End bmap.
