(* ===== verification/FsDinode.v ===== *)
(** * Inodes on the disk (src/fs.h: struct dinode; src/fs.c: iupdate, ilock)

    Eight inodes share a block.  Storing one and reading it back gives the same
    fields; the other seven are untouched. *)

From stdpp Require Import functions.
From S2P Require Import Prelude Mem CString State Mmu Spinlock Kalloc Vm Proc Sleeplock Disk Bio BioSpec Log LogSpec LogCommit LogTx Fs FsTx.

(** ** Words in a byte array *)

Definition disjoint (a n b m : nat) : Prop := (a + n <= b ∨ b + m <= a)%nat.

Section words.
Context (l : list Z).

Lemma get16_put16_same off v : (off + 2 <= length l)%nat → get16 (put16 l off v) off = u16 v.
Proof.
  intros. unfold get16, put16. change 2%nat with (length (bytes_of_u16 v)).
  rewrite slice_splice_same by done. apply u16_of_bytes_of_u16.
Qed.
Lemma get16_put16_disj off off' v : (off + 2 <= length l)%nat → (off' + 2 <= length l)%nat → disjoint off 2 off' 2 →
  get16 (put16 l off v) off' = get16 l off'.
Proof. intros ? ? [?|?]; unfold get16, put16; rewrite slice_splice_disj; cbn; lia || done. Qed.
Lemma get16_put32_disj off off' v : (off + 4 <= length l)%nat → (off' + 2 <= length l)%nat → disjoint off 4 off' 2 →
  get16 (put32 l off v) off' = get16 l off'.
Proof. intros ? ? [?|?]; unfold get16, put32; rewrite slice_splice_disj; cbn; lia || done. Qed.
Lemma get32_put16_disj off off' v : (off + 2 <= length l)%nat → (off' + 4 <= length l)%nat → disjoint off 2 off' 4 →
  get32 (put16 l off v) off' = get32 l off'.
Proof. intros ? ? [?|?]; unfold get32, put16; rewrite slice_splice_disj; cbn; lia || done. Qed.
Lemma length_put16 off v : (off + 2 <= length l)%nat → length (put16 l off v) = length l.
Proof. intros. by apply length_splice. Qed.
Lemma slice_put16 off v a n : (off + 2 <= length l)%nat → (a + n <= length l)%nat → disjoint off 2 a n →
  slice (put16 l off v) a n = slice l a n.
Proof. intros ? ? [?|?]; unfold put16; rewrite slice_splice_disj; cbn; lia || done. Qed.
Lemma slice_put32 off v a n : (off + 4 <= length l)%nat → (a + n <= length l)%nat → disjoint off 4 a n →
  slice (put32 l off v) a n = slice l a n.
Proof. intros ? ? [?|?]; unfold put32; rewrite slice_splice_disj; cbn; lia || done. Qed.
End words.

(** Lengths of arrays that words have been put in. *)
Ltac put_len :=
  repeat match goal with
  | |- context [length (put16 ?l ?o ?v)] => rewrite (length_put16 l o v) by put_len
  | |- context [length (put32 ?l ?o ?v)] => rewrite (length_put32 l o v) by put_len
  end; lia.

(** ** The array of block numbers *)

Section addrs.
Context (off : nat) (addrs : list Z).

Definition put_js (js : list nat) (data : list Z) : list Z :=
  foldl (λ d j, put32 d (off + 12 + 4 * j) (addrs !!! j)) data js.

Lemma put_js_cons j js data : put_js (j :: js) data = put_js js (put32 data (off + 12 + 4 * j) (addrs !!! j)).
Proof. done. Qed.

Lemma length_put_js js : ∀ data, Forall (λ j, off + 12 + 4 * j + 4 <= length data)%nat js → length (put_js js data) = length data.
Proof.
  induction js as [|j js IH]; intros data Hj; [done|]. apply Forall_cons in Hj as [Hj Hjs]. rewrite put_js_cons.
  rewrite IH; rewrite length_put32; done.
Qed.

Lemma slice_put_js js a n : ∀ data, Forall (λ j, off + 12 + 4 * j + 4 <= length data ∧ disjoint (off + 12 + 4 * j) 4 a n)%nat js →
  (a + n <= length data)%nat → slice (put_js js data) a n = slice data a n.
Proof.
  induction js as [|j js IH]; intros data Hj Ha; [done|]. apply Forall_cons in Hj as [[Hj Hd] Hjs]. rewrite put_js_cons.
  rewrite IH; rewrite ?length_put32 by done; [by apply slice_put32|done|done].
Qed.

Lemma get32_put_js js i : ∀ data, NoDup js → Forall (λ j, off + 12 + 4 * j + 4 <= length data)%nat js → i ∈ js →
  get32 (put_js js data) (off + 12 + 4 * i) = u32 (addrs !!! i).
Proof.
  induction js as [|j js IH]; intros data Hnd Hj Hi; [by apply not_elem_of_nil in Hi|].
  apply Forall_cons in Hj as [Hj Hjs]. apply NoDup_cons in Hnd as [Hn Hnd]. rewrite put_js_cons.
  apply elem_of_cons in Hi as [->|Hi]; [|rewrite IH; rewrite ?length_put32; done].
  unfold get32. rewrite slice_put_js; rewrite ?length_put32 by done.
  - rewrite <- get32_put32_same with (l := data) (off := (off + 12 + 4 * j)%nat) by done. done.
  - apply Forall_forall. intros x Hx. rewrite Forall_forall in Hjs. split; [by apply Hjs|]. unfold disjoint.
    destruct (decide (x = j)) as [->|]; [done|lia].
  - done.
Qed.
End addrs.

Lemma put_addrs_js data off addrs : put_addrs data off addrs = put_js off addrs (seq 0 13) data.
Proof. done. Qed.

(** ** Storing and loading *)

Record dinode_ok (d : dinode) : Prop := {
  dk_type : i16 (u16 (di_type d)) = di_type d;
  dk_major : i16 (u16 (di_major d)) = di_major d;
  dk_minor : i16 (u16 (di_minor d)) = di_minor d;
  dk_nlink : i16 (u16 (di_nlink d)) = di_nlink d;
  dk_size : is_u32 (di_size d);
  dk_addrs : length (di_addrs d) = 13%nat;
  dk_words : Forall is_u32 (di_addrs d)
}.

Section dinode.
Context (data : list Z) (off : nat) (Hoff : (off + 64 <= length data)%nat).

Lemma js_fit (f : nat → Prop) : (∀ j, (j < 13)%nat → f j) → Forall f (seq 0 13).
Proof. intros H. apply Forall_forall. intros j Hj%elem_of_seq. apply H. lia. Qed.

Definition put_fields (d : dinode) : list Z :=
  put32 (put16 (put16 (put16 (put16 data off (di_type d)) (off + 2) (di_major d)) (off + 4) (di_minor d))
    (off + 6) (di_nlink d)) (off + 8) (di_size d).

Lemma length_put_fields d : length (put_fields d) = length data.
Proof using Hoff. unfold put_fields. put_len. Qed.

Lemma length_put_dinode d : length (put_dinode data off d) = length data.
Proof using Hoff.
  unfold put_dinode. rewrite put_addrs_js, length_put_js; [apply length_put_fields|].
  fold (put_fields d). rewrite length_put_fields. apply js_fit. intros. lia.
Qed.

(** The rest of the block. *)
Lemma slice_put_dinode d a n : (a + n <= length data)%nat → disjoint off 64 a n →
  slice (put_dinode data off d) a n = slice data a n.
Proof using Hoff.
  intros Ha Hd. unfold put_dinode. fold (put_fields d). rewrite put_addrs_js, slice_put_js; rewrite ?length_put_fields.
  - unfold put_fields, disjoint in *.
    rewrite slice_put32, !slice_put16; unfold disjoint; put_len || done.
  - apply js_fit. unfold disjoint in *. lia.
  - done.
Qed.

Lemma get_put_dinode d : dinode_ok d → get_dinode (put_dinode data off d) off = d.
Proof using Hoff.
  intros [H1 H2 H3 H4 H5 H6 H7]. unfold put_dinode. fold (put_fields d). rewrite put_addrs_js.
  set (X := put_fields d). assert (length X = length data) as HX by apply length_put_fields.
  assert (∀ a n, (off <= a)%nat → (a + n <= off + 12)%nat → slice (put_js off (di_addrs d) (seq 0 13) X) a n = slice X a n) as Hs.
  { intros a n ? ?. apply slice_put_js; [|lia]. apply js_fit. unfold disjoint. lia. }
  unfold get_dinode. destruct d as [ty ma mi nl sz ad]. cbn [di_type di_major di_minor di_nlink di_size di_addrs] in *. f_equal.
  - unfold get16. rewrite Hs by lia. fold (get16 X off). unfold X, put_fields. cbn [di_type di_major di_minor di_nlink di_size].
    rewrite get16_put32_disj, get16_put16_disj, get16_put16_disj, get16_put16_disj, get16_put16_same; unfold disjoint; put_len || done.
  - unfold get16. rewrite Hs by lia. fold (get16 X (off + 2)). unfold X, put_fields. cbn [di_type di_major di_minor di_nlink di_size].
    rewrite get16_put32_disj, get16_put16_disj, get16_put16_disj, get16_put16_same; unfold disjoint; put_len || done.
  - unfold get16. rewrite Hs by lia. fold (get16 X (off + 4)). unfold X, put_fields. cbn [di_type di_major di_minor di_nlink di_size].
    rewrite get16_put32_disj, get16_put16_disj, get16_put16_same; unfold disjoint; put_len || done.
  - unfold get16. rewrite Hs by lia. fold (get16 X (off + 6)). unfold X, put_fields. cbn [di_type di_major di_minor di_nlink di_size].
    rewrite get16_put32_disj, get16_put16_same; unfold disjoint; put_len || done.
  - unfold get32. rewrite Hs by lia. fold (get32 X (off + 8)). unfold X, put_fields. cbn [di_type di_major di_minor di_nlink di_size].
    rewrite get32_put32_same by put_len. by apply u32_small.
  - apply (list_eq_same_length _ _ 13); [done|by rewrite length_fmap, length_seq|].
    intros i x y Hi Hx Hy. rewrite list_lookup_fmap, lookup_seq_lt in Hx by done.
    change (Some (get32 (put_js off ad (seq 0 13) X) (off + 12 + 4 * i)) = Some x) in Hx. apply (inj Some) in Hx. rewrite <- Hx.
    rewrite get32_put_js; [|apply NoDup_seq|rewrite HX; apply js_fit; lia|apply elem_of_seq; lia].
    rewrite (list_lookup_total_correct _ _ _ Hy). apply u32_small. by apply (Forall_lookup_1 _ _ _ _ H7 Hy).
Qed.
End dinode.

Lemma put_bytes l off new : Forall is_byte l → Forall is_byte new → Forall is_byte (splice l off new).
Proof.
  intros Hl Hn. unfold splice. apply Forall_app. split; [by apply Forall_take|]. apply Forall_app. split; [done|by apply Forall_drop].
Qed.
Lemma put16_bytes l off v : Forall is_byte l → Forall is_byte (put16 l off v).
Proof. intros. apply put_bytes; [done|]. unfold bytes_of_u16. repeat constructor; apply u8_range. Qed.
Lemma put32_bytes l off v : Forall is_byte l → Forall is_byte (put32 l off v).
Proof. intros. apply put_bytes; [done|]. apply bytes_of_u32_byte. Qed.

Lemma put_js_bytes off addrs js : ∀ data, Forall is_byte data → Forall is_byte (put_js off addrs js data).
Proof. induction js as [|j js IH]; intros data Hd; [done|]. rewrite put_js_cons. by apply IH, put32_bytes. Qed.

Lemma put_dinode_ok data off d : block_ok data → (off + 64 <= 512)%nat → block_ok (put_dinode data off d).
Proof.
  intros [Hl Hb] Hoff. split; [rewrite length_put_dinode; [done|rewrite Hl; exact Hoff]|].
  unfold put_dinode. rewrite put_addrs_js. by apply put_js_bytes, put32_bytes, put16_bytes, put16_bytes, put16_bytes, put16_bytes.
Qed.

Lemma dinode_off_bound inum : (dinode_off inum + 64 <= 512)%nat.
Proof. unfold dinode_off, DINODE_SIZE, IPB. pose proof (Z.mod_pos_bound inum 8). lia. Qed.

Lemma dinode_off_disjoint i j : i mod 8 ≠ j mod 8 → disjoint (dinode_off i) 64 (dinode_off j) 64.
Proof.
  unfold dinode_off, DINODE_SIZE, IPB, disjoint. intros. pose proof (Z.mod_pos_bound i 8). pose proof (Z.mod_pos_bound j 8). lia.
Qed.

Lemma get_dinode_slice data data' off : (off + 64 <= length data)%nat → (off + 64 <= length data')%nat →
  slice data off 64 = slice data' off 64 → get_dinode data off = get_dinode data' off.
Proof.
  intros Hl Hl' E.
  assert (∀ a n, (a + n <= 64)%nat → slice data (off + a) n = slice data' (off + a) n) as Hs.
  { intros a n Han. unfold slice. rewrite <- !drop_drop. unfold slice in E.
    rewrite <- (take_drop 64 (drop off data)), <- (take_drop 64 (drop off data')), E.
    rewrite !drop_app_le, !take_app_le; rewrite ?length_drop, ?length_take, ?length_drop; lia || done. }
  assert (slice data off 2 = slice data' off 2) as H0 by (rewrite <- (Nat.add_0_r off); apply Hs; lia).
  unfold get_dinode, get16, get32. rewrite H0, !Hs by lia. f_equal.
  apply list_fmap_ext. intros i j [-> Hj]%lookup_seq. rewrite <- !Nat.add_assoc. rewrite Hs by lia. done.
Qed.

Section inode.
Context `{W : Wakeups} `{D : DiskDriver} `{DOk : !DiskDriverOk D}.
Context (sb : superblock) (pid : Z).
Implicit Types (k : kernel) (V : Z → list Z) (bl : list Z).

(** The block of an inode, and the inode as the store has it. *)
Definition iblock (inum : Z) : Z := inum / 8 + sb_inodestart sb.
Definition stored V (inum : Z) : dinode := get_dinode (V (iblock inum)) (dinode_off inum).
Definition store_inode (inum : Z) (d : dinode) V : Z → list Z :=
  <[iblock inum := put_dinode (V (iblock inum)) (dinode_off inum) d]> V.

Lemma iblock_eq {w} k V bl H inum : fsx w sb k pid V bl H → 0 <= inum < sb_ninodes sb →
  IBLOCK inum sb = iblock inum ∧ usable sb (iblock inum) ∧ iblock inum < sb_bmapstart sb.
Proof using Type.
  intros [_ _ _ [? (? & ? & ?) ? [? ?]]] Hi. unfold IBLOCK, IPB, iblock, usable.
  assert (0 <= inum / 8 <= sb_ninodes sb / 8) by (split; [apply Z.div_pos; lia|apply Z.div_le_mono; lia]).
  split_and!; [apply u32_small; unfold is_u32; lia|lia|lia|lia].
Qed.

Lemma stored_same V inum d : block_ok (V (iblock inum)) → dinode_ok d → stored (store_inode inum d V) inum = d.
Proof using Type.
  intros [Hl _] Hd. unfold stored, store_inode. rewrite fn_lookup_insert. apply get_put_dinode; [|done].
  rewrite Hl. apply dinode_off_bound.
Qed.

Lemma stored_other V inum d j : block_ok (V (iblock inum)) → inum ≠ j → stored (store_inode inum d V) j = stored V j.
Proof using Type.
  intros [Hl _] Hne. unfold stored, store_inode. destruct (decide (iblock inum = iblock j)) as [E|]; [|by rewrite fn_lookup_insert_ne].
  rewrite <- E, fn_lookup_insert. unfold iblock in E. pose proof (dinode_off_bound inum). pose proof (dinode_off_bound j).
  assert (inum mod 8 ≠ j mod 8) as Hm by (pose proof (Z.div_mod inum 8); pose proof (Z.div_mod j 8); lia).
  apply get_dinode_slice.
  - rewrite length_put_dinode; rewrite Hl; unfold BSIZE; lia.
  - rewrite Hl. unfold BSIZE. lia.
  - apply slice_put_dinode; [rewrite Hl; unfold BSIZE; lia..|]. by apply dinode_off_disjoint.
Qed.

Lemma iupdate_spec k V bl ip :
  fsx true sb k pid V bl ∅ → i_dev (inode_at k ip) = ROOTDEV → 0 <= i_inum (inode_at k ip) < sb_ninodes sb → room sb bl 1 →
  let inum := i_inum (inode_at k ip) in
  ∃ k', iupdate ip k = Ret tt k' ∧
    fsx true sb k' pid (store_inode inum (dinode_of (inode_at k ip)) V) (add_block (iblock inum) bl) ∅ ∧
    k_disk k' = k_disk k ∧ log_frame k k'.
Proof using DOk.
  intros Hx Hd Hi Hroom inum. destruct (iblock_eq k V bl ∅ inum Hx Hi) as (E & Hu & _).
  destruct (fsx_modify sb pid k V bl ∅ (iblock inum) (λ d, put_dinode d (dinode_off inum) (dinode_of (inode_at k ip))) Hx)
    as (i & k1 & k2 & k3 & k' & R1 & R2 & R3 & R4 & _ & X & Dk & F); try done.
  { rewrite map_size_empty. lia. }
  { apply put_dinode_ok; [by eapply fsx_block_ok|apply dinode_off_bound]. }
  exists k'. split_and!; [|done..]. unfold iupdate, get_inode. mrun. rewrite (fx_sb _ _ _ _ _ _ _ Hx), Hd. fold inum.
  rewrite E. mcall R1. mcall R2. by mcall R3.
Qed.
End inode.
