(* ===== verification/FsWrite.v ===== *)
(** * [writei] and [readi] (src/fs.c) *)

From stdpp Require Import functions.
From S2P Require Import Prelude Mem CString State Mmu Spinlock Kalloc Vm Proc Sleeplock Disk Bio BioSpec Log LogSpec LogCommit LogTx Fs FsTx FsFile FsBmap FsDinode.

(** The byte at offset [i] of a file. *)
Definition fbyte (V : Z → list Z) (addrs : list Z) (i : Z) : Z :=
  V (block_at V addrs (i / 512)) !!! Z.to_nat (i mod 512).

(** The number of blocks that [size] bytes take. *)
Definition nblocks (size : Z) : Z := (size + 511) / 512.

Lemma nblocks_bound size : size <= nblocks size * 512 < size + 512.
Proof. unfold nblocks. pose proof (Z.div_mod (size + 511) 512). pose proof (Z.mod_pos_bound (size + 511) 512). lia. Qed.

Lemma block_off i : i = 512 * (i / 512) + i mod 512 ∧ 0 <= i mod 512 < 512.
Proof. pose proof (Z.div_mod i 512). pose proof (Z.mod_pos_bound i 512). lia. Qed.

Lemma block_split q r : 0 <= r < 512 → (512 * q + r) / 512 = q ∧ (512 * q + r) mod 512 = r.
Proof. intros. split; [symmetry; apply Z.div_unique with r; lia|symmetry; apply Z.mod_unique with q; lia]. Qed.

Lemma zero_block_byte (j : nat) : (j < 512)%nat → zero_block !!! j = 0.
Proof. intros. unfold zero_block. by apply lookup_total_replicate_2. Qed.

Lemma splice_ok d off new : block_ok d → Forall is_byte new → (off + length new <= 512)%nat → block_ok (splice d off new).
Proof.
  intros [Hl Hb] Hn Hlen. split.
  - rewrite length_splice; [done|]. rewrite Hl. exact Hlen.
  - unfold splice. apply Forall_app. split; [by apply Forall_take|]. apply Forall_app. split; [done|by apply Forall_drop].
Qed.

Lemma lookup_total_splice (d : list Z) off new j : (off + length new <= length d)%nat →
  splice d off new !!! j = if decide (off <= j < off + length new)%nat then new !!! (j - off)%nat else d !!! j.
Proof.
  intros Hl. rewrite !list_lookup_total_alt. case_decide; [by rewrite lookup_splice_in|by rewrite lookup_splice_out].
Qed.

Section write.
Context `{W : Wakeups} `{D : DiskDriver} `{DOk : !DiskDriverOk D}.
Context (sb : superblock) (pid : Z) (ip : nat).
Implicit Types (k : kernel) (V : Z → list Z) (bl : list Z).

(** A block of the file is overwritten. *)
Lemma grown_write nb V addrs cnt n data : geom sb nb → file_ok sb V addrs cnt → meta_used sb V → 0 <= n < cnt →
  grown sb V addrs cnt (<[block_at V addrs n := data]> V) addrs cnt ∧
  ∀ m, block_at (<[block_at V addrs n := data]> V) addrs m = block_at V addrs m.
Proof using Type.
  intros Hg Hf Hm Hn. destruct (file_block _ _ _ _ n Hf Hn) as [Hd _]. destruct (is_data_range sb _ Hg _ Hd) as [Hr Hbm].
  assert (∀ m, block_at (<[block_at V addrs n := data]> V) addrs m = block_at V addrs m) as Hat.
  { intros m. destruct (decide (ind addrs = 0)) as [E|Hne]; [unfold block_at; by rewrite E|]. apply block_at_ext.
    rewrite fn_lookup_insert_ne; [done|]. by apply (file_block_not_ind sb V addrs cnt). }
  assert (∀ c, used sb (<[block_at V addrs n := data]> V) c = used sb V c) as Hused.
  { intros c. unfold used. by rewrite fn_lookup_insert_ne. }
  assert (blocks (<[block_at V addrs n := data]> V) addrs cnt = blocks V addrs cnt) as Hbl.
  { unfold blocks. f_equal. apply list_fmap_ext. intros ? m _. apply Hat. }
  split; [|done]. split; [split| | | | | | |]; rewrite ?Hbl; try apply Hf; try done.
  - apply Forall_forall. intros c Hc. rewrite Hused. by apply (file_elem_data sb V addrs cnt).
  - intros m Hmc. rewrite Hat. by apply Hf.
  - intros c _. by rewrite Hused.
  - intros b Hb. by left.
  - intros c Hc _. apply fn_lookup_insert_ne. intros E. apply Hc. rewrite elem_blocks. left. by exists n.
  - intros c Hc. rewrite Hused. by apply Hm.
Qed.

(** The file after [src] has been written at [off], [cnt] blocks having been there. *)
Definition overwritten V addrs cnt V' addrs' cnt' (off : Z) (src : list Z) : Prop :=
  ∀ i, 0 <= i < cnt' * 512 → fbyte V' addrs' i =
    if decide (off <= i < off + length src) then src !!! Z.to_nat (i - off)
    else if decide (i < cnt * 512) then fbyte V addrs i else 0.

(** The blocks that growing from [cnt] to [cnt'] blocks takes. *)
Definition need_all (addrs : list Z) (cnt cnt' : Z) : Z :=
  cnt' - cnt + (if (12 <? cnt') && (ind addrs =? 0) then 1 else 0).

Lemma need_step V addrs cnt n V1 addrs1 cnt' :
  grown sb V addrs cnt V1 addrs1 (Z.max cnt (n + 1)) → 0 <= n <= cnt → n < cnt' → cnt <= cnt' →
  (free_count sb V <= free_count sb V1 + need addrs cnt n)%nat → need_all addrs cnt cnt' <= free_count sb V →
  (need addrs cnt n <= free_count sb V)%nat ∧ need_all addrs1 (Z.max cnt (n + 1)) cnt' <= free_count sb V1.
Proof using Type.
  intros G Hn Hc Hcc Hfree Hall. pose proof (gr_ind _ _ _ _ _ _ _ G) as Hi. pose proof (fo_ind _ _ _ _ (gr_ok _ _ _ _ _ _ _ G)) as Hfi.
  unfold need, need_all in *. destruct (Z.ltb_spec n cnt); [rewrite Z.max_l in * by lia|rewrite Z.max_r in * by lia];
    destruct (Z.ltb_spec 12 cnt'), (Z.eqb_spec (ind addrs) 0), (Z.eqb_spec (ind addrs1) 0), (Z.leb_spec 12 n); cbn [andb] in *;
    first [split; lia | exfalso; (rewrite Hi in *; done) || (apply Hfi; [lia|done])].
Qed.

Record wrote k V bl addrs cnt off src k' V' bl' addrs' cnt' : Prop := {
  wr_fsx : fsx true sb k' pid V' bl' ∅;
  wr_icache : k_icache k' = alter (set_i_addrs addrs') ip (k_icache k);
  wr_grown : grown sb V addrs cnt V' addrs' cnt';
  wr_bytes : overwritten V addrs cnt V' addrs' cnt' off src;
  wr_same : cnt' = cnt → addrs' = addrs;
  wr_free : ∀ n, cnt' <= n → need_all addrs cnt n <= free_count sb V → need_all addrs' cnt' n <= free_count sb V';
  wr_disk : k_disk k' = k_disk k;
  wr_frame : fs_frame k k'
}.

(** The bytes after one block has been written. *)
Lemma overwritten_block nb V addrs cnt n V1 addrs1 r chunk :
  geom sb nb → (∀ b, block_ok (V1 b)) → 0 <= n <= cnt → grown sb V addrs cnt V1 addrs1 (Z.max cnt (n + 1)) →
  (∀ m, 0 <= m < cnt → V1 (block_at V addrs m) = V (block_at V addrs m)) →
  (n = cnt → V1 (block_at V1 addrs1 n) = zero_block) → 0 <= r → r + length chunk <= 512 →
  let b := block_at V1 addrs1 n in
  overwritten V addrs cnt (<[b := splice (V1 b) (Z.to_nat r) chunk]> V1) addrs1 (Z.max cnt (n + 1)) (512 * n + r) chunk.
Proof using Type.
  intros Hg Hok Hn G Hdata Hzero Hr Hlen b i Hi. set (cnt1 := Z.max cnt (n + 1)) in *.
  destruct (grown_write nb V1 addrs1 cnt1 n (splice (V1 b) (Z.to_nat r) chunk) Hg (gr_ok _ _ _ _ _ _ _ G) (gr_meta _ _ _ _ _ _ _ G))
    as [_ Hat]; [lia|]. fold b in Hat.
  destruct (block_off i) as [Ei Hm]. unfold fbyte at 1. rewrite Hat.
  destruct (decide (i / 512 = n)) as [En|Hne].
  - rewrite En. fold b. rewrite fn_lookup_insert. destruct (Hok b) as [Hl _].
    rewrite lookup_total_splice by (rewrite Hl; unfold BSIZE; lia).
    destruct (decide (512 * n + r <= i < 512 * n + r + length chunk)).
    + rewrite decide_True by lia. f_equal. lia.
    + rewrite decide_False by lia. case_decide.
      * unfold b, fbyte. rewrite (gr_old _ _ _ _ _ _ _ G), Hdata, En by lia. done.
      * unfold b. rewrite Hzero by lia. apply zero_block_byte. lia.
  - rewrite fn_lookup_insert_ne.
    2: { intros E. apply Hne. symmetry. eapply (file_block_inj sb V1 addrs1 cnt1 _ _ (gr_ok _ _ _ _ _ _ _ G)); [lia|lia|exact E]. }
    rewrite decide_False by lia. rewrite decide_True by lia. unfold fbyte.
    rewrite (gr_old _ _ _ _ _ _ _ G), Hdata by lia. done.
Qed.

(** One turn of the loop of [writei]. *)
Lemma writei_turn fuel k V bl addrs cnt off src :
  fsx true sb k pid V bl ∅ → inode_is k ip addrs → file_ok sb V addrs cnt → meta_used sb V →
  0 <= off <= cnt * 512 → off < 140 * 512 → src ≠ [] → Forall is_byte src →
  (need addrs cnt (off / 512) <= free_count sb V)%nat → has_room sb bl 2 →
  let m := Z.min (length src) (512 - off mod 512) in
  ∃ k' V' bl' addrs',
    writei_loop (S fuel) ip src off k = writei_loop fuel ip (drop (Z.to_nat m) src) (off + m) k' ∧
    wrote k V bl addrs cnt off (take (Z.to_nat m) src) k' V' bl' addrs' (Z.max cnt (off / 512 + 1)) ∧
    (∀ r, 0 <= r → has_room sb bl (r + 2) → has_room sb bl' r) ∧
    (free_count sb V <= free_count sb V' + need addrs cnt (off / 512))%nat.
Proof using DOk.
  intros Hx Hi Hf Hm Hoff Hmax Hsrc Hbytes Hfree Hroom m. destruct (block_off off) as [Eo Ho].
  assert (0 < length src) as Hlen by (destruct src; [done|cbn; lia]).
  set (n := off / 512) in *. set (r := off mod 512) in *.
  destruct (bmap_spec sb pid ip k V bl addrs cnt n Hx Hi Hf Hm) as (k1 & V1 & bl1 & addrs1 & R1 & B1); [lia|lia|done|done|].
  destruct B1 as [X1 I1 G1 Hd1 Hs1 Hz1 Hr1 Hf1 D1 F1]. pose proof (fx_geom _ _ _ _ _ _ _ X1) as Hg. rewrite D1 in Hg.
  set (b := block_at V1 addrs1 n) in *.
  destruct (file_block _ _ _ _ n (gr_ok _ _ _ _ _ _ _ G1)) as [Hdata _]; [lia|]. fold b in Hdata.
  set (f := λ d, splice d (Z.to_nat r) (take (Z.to_nat m) src)).
  destruct (fsx_modify sb pid k1 V1 bl1 ∅ b f X1) as (i & k2 & k3 & k4 & k' & R2 & R3 & R4 & R5 & _ & X' & D' & F').
  { done. } { by eapply data_usable. }
  { apply (has_room_room sb bl1 0), (has_room_drop sb b). apply Hr1; [done|exact Hroom]. }
  { rewrite map_size_empty. lia. }
  { apply splice_ok; [by eapply fsx_block_ok|by apply Forall_take|]. rewrite length_take. lia. }
  assert (inode_is k1 ip addrs1) as Hi1 by (by eapply inode_is_set).
  destruct (grown_write _ V1 addrs1 _ n (f (V1 b)) Hg (gr_ok _ _ _ _ _ _ _ G1) (gr_meta _ _ _ _ _ _ _ G1)) as [Gw _]; [lia|].
  assert (free_count sb (<[b := f (V1 b)]> V1) = free_count sb V1) as Hfc.
  { apply free_count_ext, fn_lookup_insert_ne. by apply (is_data_range sb _ Hg). }
  exists k', (<[b := f (V1 b)]> V1), (add_block b bl1), addrs1. split_and!.
  - cbn [writei_loop]. destruct src as [|c src]; [done|]. unfold get_inode. mrun.
    rewrite (ii_dev _ _ _ Hi). change (off / BSIZE) with n. mcall R1. mcall R2. change (off mod BSIZE) with r.
    change (Z.of_nat BSIZE) with 512. fold m. mcall R3. mcall R4. mcall R5. done.
  - split; [done|by rewrite (log_frame_icache _ _ F')|by eapply (grown_trans sb _ Hg)| |intros; apply Hs1; lia| |congruence|].
    + rewrite Eo. apply (overwritten_block _ V addrs cnt n V1 addrs1 r (take (Z.to_nat m) src) Hg); try done.
      * intros c. by eapply fsx_block_ok.
      * lia.
      * lia.
      * rewrite length_take. lia.
    + intros N HN Hall. rewrite Hfc. eapply (need_step V addrs cnt n); [exact G1|lia|lia|lia|exact Hf1|exact Hall].
    + eapply fs_frame_trans; [done|by apply fs_frame_log].
  - done.
  - by rewrite Hfc.
Qed.

Lemma wrote_trans nb k V bl addrs cnt off (m : nat) src k1 V1 bl1 addrs1 cnt1 k2 V2 bl2 addrs2 cnt2 :
  geom sb nb → (m <= length src)%nat → 0 <= off → off + m <= cnt1 * 512 →
  wrote k V bl addrs cnt off (take m src) k1 V1 bl1 addrs1 cnt1 →
  wrote k1 V1 bl1 addrs1 cnt1 (off + m) (drop m src) k2 V2 bl2 addrs2 cnt2 →
  wrote k V bl addrs cnt off src k2 V2 bl2 addrs2 cnt2.
Proof using Type.
  intros Hg Hm Hoff Hin [X1 I1 G1 B1 S1 N1 D1 F1] [X2 I2 G2 B2 S2 N2 D2 F2].
  split; [done|by rewrite I2, I1, alter_set_addrs_twice|by eapply (grown_trans sb _ Hg)| | | |congruence|by eapply fs_frame_trans].
  3: { pose proof (gr_cnt _ _ _ _ _ _ _ G2). intros n Hn Hall. apply N2; [done|]. apply N1; [lia|done]. }
  2: { intros E. pose proof (gr_cnt _ _ _ _ _ _ _ G1). pose proof (gr_cnt _ _ _ _ _ _ _ G2). rewrite S2, S1 by lia. done. }
  intros i Hi. rewrite B2 by done. rewrite length_drop. destruct (decide (off + m <= i < off + m + (length src - m)%nat)).
  - rewrite decide_True by lia. rewrite lookup_total_drop. f_equal. lia.
  - destruct (decide (i < cnt1 * 512)) as [Hi1|Hi1].
    + rewrite B1 by lia. rewrite length_take, Nat.min_l by lia. destruct (decide (off <= i < off + m)).
      * rewrite decide_True by lia. apply lookup_total_take_lt. lia.
      * by rewrite (decide_False (P := off <= i < off + length src)) by lia.
    + pose proof (gr_cnt _ _ _ _ _ _ _ G1). rewrite !decide_False by lia. done.
Qed.

(** The turns of the loop that [src] at [off] takes. *)
Definition turns (off : Z) (src : list Z) : Z :=
  match src with [] => 0 | _ => nblocks (off + length src) - off / 512 end.

Lemma turn_end off src : 0 <= off → src ≠ [] →
  let m := Z.min (length src) (512 - off mod 512) in
  0 < m ∧ turns off src = 1 + turns (off + m) (drop (Z.to_nat m) src) ∧ off / 512 + 1 <= nblocks (off + length src) ∧
  off + m <= (off / 512 + 1) * 512 ∧ 0 <= turns (off + m) (drop (Z.to_nat m) src).
Proof using Type.
  intros Ho Hs m. destruct (block_off off) as [E Hr]. assert (0 < length src) by (destruct src; [done|cbn; lia]).
  assert (turns off src = nblocks (off + length src) - off / 512) as -> by (by destruct src).
  pose proof (nblocks_bound (off + length src)) as Hb.
  destruct (decide (length src <= 512 - off mod 512)) as [Hle|Hgt].
  - assert (m = length src) as -> by (unfold m; lia). rewrite (drop_ge src) by lia. cbn [turns].
    assert (nblocks (off + length src) = off / 512 + 1) by (unfold nblocks; symmetry; apply Z.div_unique with (off mod 512 + length src - 1); lia).
    split_and!; lia.
  - assert (m = 512 - off mod 512) as -> by (unfold m; lia). set (d := 512 - off mod 512) in *.
    assert (drop (Z.to_nat d) src ≠ []) as Hd.
    { intros E0. apply (f_equal length) in E0. rewrite length_drop in E0. cbn in E0. lia. }
    assert (turns (off + d) (drop (Z.to_nat d) src) = nblocks (off + length src) - (off + d) / 512) as ->.
    { destruct (drop (Z.to_nat d) src) eqn:E1; [done|]. unfold turns. rewrite <- E1, length_drop. do 2 f_equal. lia. }
    assert ((off + d) / 512 = off / 512 + 1) as -> by (symmetry; apply Z.div_unique with 0; lia).
    split_and!; lia.
Qed.

Lemma writei_loop_spec fuel : ∀ k V bl addrs cnt off src r,
  fsx true sb k pid V bl ∅ → inode_is k ip addrs → file_ok sb V addrs cnt → meta_used sb V →
  0 <= off <= cnt * 512 → off + length src <= 140 * 512 → Forall is_byte src → (length src <= fuel)%nat →
  let cnt' := Z.max cnt (nblocks (off + length src)) in
  need_all addrs cnt cnt' <= free_count sb V → 0 <= r → has_room sb bl (r + 2 * turns off src) →
  ∃ k' V' bl' addrs', writei_loop fuel ip src off k = Ret (off + length src) k' ∧
    wrote k V bl addrs cnt off src k' V' bl' addrs' cnt' ∧ has_room sb bl' r.
Proof using DOk.
  induction fuel as [|fuel IH]; intros k V bl addrs cnt off src r Hx Hi Hf Hm Hoff Hmax Hb Hfuel cnt' Hneed Hr Hroom.
  all: destruct (decide (src = [])) as [->|Hne].
  1,3: (exists k, V, bl, addrs; unfold cnt'; cbn [length] in *; rewrite Z.add_0_r in *; split_and!; [done| |by replace (r + 2 * turns off []) with r in Hroom by (cbn; lia)];
    rewrite Z.max_l by (pose proof (nblocks_bound off); lia);
    split; [done|by rewrite alter_set_addrs_id|by apply grown_refl| |done|done|done|by apply fs_frame_log, log_frame_refl];
    intros i Hi'; rewrite decide_False by (cbn; lia); by rewrite decide_True by lia).
  { destruct src; [done|cbn in Hfuel; lia]. }
  destruct (turn_end off src ltac:(lia) Hne) as (Hm0 & Ht & Hn & Hend & Ht0).
  set (m := Z.min (length src) (512 - off mod 512)) in *. destruct (block_off off) as [Eo Ho].
  assert (0 <= off / 512 <= cnt) as Hnc by lia.
  assert (need addrs cnt (off / 512) <= free_count sb V)%nat as Hneed1.
  { unfold need, need_all in *. repeat case_match; lia. }
  destruct (writei_turn fuel k V bl addrs cnt off src Hx Hi Hf Hm Hoff) as (k1 & V1 & bl1 & addrs1 & R1 & W1 & Hroom1 & Hfree1); try done.
  { lia. } { eapply has_room_le; [exact Hroom|]. lia. }
  fold m in R1, W1. set (cnt1 := Z.max cnt (off / 512 + 1)) in *.
  destruct (need_step V addrs cnt (off / 512) V1 addrs1 cnt' (wr_grown _ _ _ _ _ _ _ _ _ _ _ _ W1)) as [_ Hneed2]; [lia|lia|lia|done|done|].
  assert (length (drop (Z.to_nat m) src) = Z.to_nat (length src - m)) as Hld by (rewrite length_drop; lia).
  destruct (IH k1 V1 bl1 addrs1 cnt1 (off + m) (drop (Z.to_nat m) src) r) as (k2 & V2 & bl2 & addrs2 & R2 & W2 & Hroom2).
  - apply W1.
  - eapply inode_is_set; [apply W1|done].
  - apply (gr_ok _ _ _ _ _ _ _ (wr_grown _ _ _ _ _ _ _ _ _ _ _ _ W1)).
  - apply (gr_meta _ _ _ _ _ _ _ (wr_grown _ _ _ _ _ _ _ _ _ _ _ _ W1)).
  - lia.
  - lia.
  - by apply Forall_drop.
  - lia.
  - replace (off + m + length (drop (Z.to_nat m) src)) with (off + length src) by lia.
    replace (Z.max cnt1 (nblocks (off + length src))) with cnt' by lia. done.
  - done.
  - apply Hroom1; [lia|]. replace (r + 2 * turns (off + m) (drop (Z.to_nat m) src) + 2) with (r + 2 * turns off src) by lia. done.
  - exists k2, V2, bl2, addrs2. rewrite R1, R2. split_and!; [f_equal; lia| |done].
    replace (off + m + length (drop (Z.to_nat m) src)) with (off + length src) in W2 by lia.
    replace (Z.max cnt1 (nblocks (off + length src))) with cnt' in W2 by lia.
    eapply (wrote_trans _ k V bl addrs cnt off (Z.to_nat m) src); [apply (fx_geom _ _ _ _ _ _ _ Hx)|lia|lia| |exact W1|].
    + lia.
    + rewrite Z2Nat.id by lia. exact W2.
Qed.
End write.

(** ** The file of an inode *)

(** The in-memory inode [ip] is loaded, agrees with the disk, and names a
    well-formed file. *)
Record file_inode (sb : superblock) (k : kernel) (V : Z → list Z) (ip : nat) : Prop := {
  fi_slot : (ip < length (k_icache k))%nat;
  fi_dev : i_dev (inode_at k ip) = ROOTDEV;
  fi_inum : 0 <= i_inum (inode_at k ip) < sb_ninodes sb;
  fi_type : i_type (inode_at k ip) ≠ T_DEV;
  fi_size : 0 <= i_size (inode_at k ip) <= 140 * 512;
  fi_ok : file_ok sb V (i_addrs (inode_at k ip)) (nblocks (i_size (inode_at k ip)));
  fi_meta : meta_used sb V;
  fi_dinode : dinode_ok (dinode_of (inode_at k ip));
  fi_sync : stored sb V (i_inum (inode_at k ip)) = dinode_of (inode_at k ip)
}.

Section file.
Context (sb : superblock) (nb : Z) (Hg : geom sb nb).
Implicit Types (V : Z → list Z) (addrs : list Z).

(** A store that differs in inode blocks only has the same files. *)
Definition same_data V V' : Prop := ∀ b, sb_bmapstart sb <= b → V' b = V b.

Lemma same_data_used V V' b : same_data V V' → used sb V' b = used sb V b.
Proof. intros Hs. unfold used. rewrite Hs; [done|]. unfold bmap_block. lia. Qed.

Lemma same_data_block V V' addrs cnt n : same_data V V' → file_ok sb V addrs cnt → block_at V' addrs n = block_at V addrs n.
Proof using Hg.
  intros Hs Hf. destruct (decide (ind addrs = 0)) as [E|Hne]; [unfold block_at; by rewrite E|].
  apply block_at_ext, Hs. destruct (file_ind _ _ _ _ Hf Hne) as [[? _] _]. lia.
Qed.

Lemma same_data_ok V V' addrs cnt : same_data V V' → file_ok sb V addrs cnt → file_ok sb V' addrs cnt.
Proof using Hg.
  intros Hs Hf. pose proof (λ n, same_data_block V V' addrs cnt n Hs Hf) as Hat.
  assert (blocks V' addrs cnt = blocks V addrs cnt) as Hbl.
  { unfold blocks. f_equal. apply list_fmap_ext. intros ? m _. apply Hat. }
  destruct Hf as [? ? ? Hd He ?]. split; try done; rewrite ?Hbl; [done| |].
  - eapply Forall_impl; [exact Hd|]. intros b [? ?]. by rewrite (same_data_used V V').
  - intros n Hn. rewrite Hat. by apply He.
Qed.

Lemma same_data_bytes V V' addrs cnt i : same_data V V' → file_ok sb V addrs cnt → 0 <= i < cnt * 512 →
  fbyte V' addrs i = fbyte V addrs i.
Proof using Hg.
  intros Hs Hf Hi. unfold fbyte. rewrite (same_data_block V V' addrs cnt) by done. f_equal. apply Hs.
  destruct (file_block _ _ _ _ (i / 512) Hf) as [[? _] _]; [|lia]. pose proof (block_off i). lia.
Qed.

(** Another file, with none of the blocks. *)
Definition apart_from V addrs cnt addrs2 cnt2 : Prop :=
  ∀ b, b ∈ blocks V addrs cnt → b ∈ blocks V addrs2 cnt2 → False.

Lemma grown_other V addrs cnt V' addrs' cnt' addrs2 cnt2 :
  grown sb V addrs cnt V' addrs' cnt' → file_ok sb V addrs2 cnt2 → apart_from V addrs cnt addrs2 cnt2 →
  file_ok sb V' addrs2 cnt2 ∧ apart_from V' addrs' cnt' addrs2 cnt2 ∧
  (∀ i, 0 <= i < cnt2 * 512 → fbyte V' addrs2 i = fbyte V addrs2 i) ∧ blocks V' addrs2 cnt2 = blocks V addrs2 cnt2.
Proof using Hg.
  intros G Hf Hap.
  assert (∀ b, b ∈ blocks V addrs2 cnt2 → b ∉ blocks V' addrs' cnt' ∧ V' b = V b) as Hkeep.
  { intros b Hb. destruct (file_elem_data _ _ _ _ _ Hf Hb) as [Hd Hu]. destruct (is_data_range sb _ Hg _ Hd) as [_ Hbm].
    assert (b ∉ blocks V' addrs' cnt') as Hn; [|split; [done|by apply (gr_frame _ _ _ _ _ _ _ G)]].
    intros Hb'. destruct (gr_new _ _ _ _ _ _ _ G b Hb') as [Hin|?]; [by apply (Hap b)|congruence]. }
  assert (∀ n, block_at V' addrs2 n = block_at V addrs2 n) as Hat.
  { intros n. destruct (decide (ind addrs2 = 0)) as [E|Hne]; [unfold block_at; by rewrite E|].
    apply block_at_ext, Hkeep. apply elem_blocks. by right. }
  assert (blocks V' addrs2 cnt2 = blocks V addrs2 cnt2) as Hbl.
  { unfold blocks. f_equal. apply list_fmap_ext. intros ? m _. apply Hat. }
  split_and!.
  - destruct Hf as [? ? ? Hd He ?]. split; try done; rewrite ?Hbl; [done| |intros; rewrite Hat; by apply He].
    eapply Forall_impl; [exact Hd|]. intros b [Hdb Hu]. split; [done|]. apply (gr_used _ _ _ _ _ _ _ G); [|done].
    pose proof (is_data_range sb _ Hg _ Hdb). lia.
  - intros b Hb. rewrite Hbl. intros Hb2. by destruct (Hkeep b Hb2).
  - intros i Hi. unfold fbyte. rewrite Hat. f_equal. apply Hkeep. apply elem_blocks. left. exists (i / 512).
    split; [|done]. pose proof (block_off i). lia.
  - done.
Qed.

Lemma store_inode_same_data V inum d : iblock sb inum < sb_bmapstart sb → same_data V (store_inode sb inum d V).
Proof. intros Hi b Hb. unfold store_inode. apply fn_lookup_insert_ne. lia. Qed.

(** The block numbers of a well-formed file are words. *)
Lemma file_words V addrs cnt : file_ok sb V addrs cnt → Forall is_u32 addrs.
Proof using Hg.
  intros Hf. apply Forall_forall. intros x [i Hi]%list_elem_of_lookup.
  assert (i < 13)%nat as Hlt by (rewrite <- (fo_len _ _ _ _ Hf); by eapply lookup_lt_Some).
  pose proof (list_lookup_total_correct _ _ _ Hi) as Hx. unfold is_u32.
  destruct (decide (i = 12%nat)) as [->|Hne].
  - destruct (decide (ind addrs = 0)) as [E|Hi0]; [unfold ind in E; lia|].
    destruct (file_ind _ _ _ _ Hf Hi0) as [Hd _]. apply (is_data_range sb _ Hg) in Hd. unfold ind in Hd. lia.
  - assert (block_at V addrs i = x) as Hat by (rewrite block_at_direct, Nat2Z.id by lia; done).
    destruct (decide (Z.of_nat i < cnt)).
    + destruct (file_block _ _ _ _ i Hf) as [Hd _]; [lia|]. apply (is_data_range sb _ Hg) in Hd. lia.
    + rewrite (fo_end _ _ _ _ Hf) in Hat by lia. lia.
Qed.
End file.
