(* ===== verification/FsRw.v ===== *)
(** * Reading and writing files (src/fs.c: readi, writei) *)

From stdpp Require Import functions.
From S2P Require Import Prelude Mem CString State Mmu Spinlock Kalloc Vm Proc Sleeplock Disk Bio BioSpec Log LogSpec LogCommit LogTx Fs FsTx FsFile FsBmap FsDinode FsWrite.

Section rw.
Context `{W : Wakeups} `{D : DiskDriver} `{DOk : !DiskDriverOk D} `{DV : Devsw}.
Context (sb : superblock) (pid : Z).
Implicit Types (k : kernel) (V : Z → list Z) (bl : list Z).

Lemma inode_at_alter k k' f ip : (ip < length (k_icache k))%nat → k_icache k' = alter f ip (k_icache k) →
  inode_at k' ip = f (inode_at k ip) ∧ length (k_icache k') = length (k_icache k).
Proof using Type.
  intros Hs E. unfold inode_at. rewrite E, list_lookup_total_alter_eq by done. split; [done|apply length_alter].
Qed.

(** The effect of a write on the inode, the store and the rest of the kernel. *)
Record written k V ip (off : Z) (src : list Z) k' V' : Prop := {
  wn_inode : ∃ addrs', inode_at k' ip =
    set_i_size (Z.max (i_size (inode_at k ip)) (off + length src)) (set_i_addrs addrs' (inode_at k ip));
  wn_file : file_inode sb k' V' ip;
  wn_bytes : ∀ i, 0 <= i < i_size (inode_at k' ip) → fbyte V' (i_addrs (inode_at k' ip)) i =
    if decide (off <= i < off + length src) then src !!! Z.to_nat (i - off) else fbyte V (i_addrs (inode_at k ip)) i;
  wn_others : ∀ addrs2 cnt2, file_ok sb V addrs2 cnt2 →
    apart_from V (i_addrs (inode_at k ip)) (nblocks (i_size (inode_at k ip))) addrs2 cnt2 →
    file_ok sb V' addrs2 cnt2 ∧
    apart_from V' (i_addrs (inode_at k' ip)) (nblocks (i_size (inode_at k' ip))) addrs2 cnt2 ∧
    (∀ i, 0 <= i < cnt2 * 512 → fbyte V' addrs2 i = fbyte V addrs2 i) ∧ blocks V' addrs2 cnt2 = blocks V addrs2 cnt2;
  wn_inodes : ∀ j, j ≠ i_inum (inode_at k ip) → 0 <= j < sb_ninodes sb → stored sb V' j = stored sb V j;
  wn_icache : ∀ jp, jp ≠ ip → inode_at k' jp = inode_at k jp;
  wn_free : ∀ n, nblocks (i_size (inode_at k' ip)) <= n →
    need_all (i_addrs (inode_at k ip)) (nblocks (i_size (inode_at k ip))) n <= free_count sb V →
    need_all (i_addrs (inode_at k' ip)) (nblocks (i_size (inode_at k' ip))) n <= free_count sb V';
  wn_disk : k_disk k' = k_disk k;
  wn_frame : fs_frame k k'
}.

Lemma nblocks_le a b : a <= b → nblocks a <= nblocks b.
Proof using Type. intros. unfold nblocks. apply Z.div_le_mono; lia. Qed.

Lemma nblocks_max a b : nblocks (Z.max a b) = Z.max (nblocks a) (nblocks b).
Proof using Type.
  destruct (Z.le_ge_cases a b) as [H|H]; pose proof (nblocks_le _ _ H).
  - by rewrite !Z.max_r by lia.
  - by rewrite !Z.max_l by lia.
Qed.

Lemma file_inode_is k V ip : file_inode sb k V ip → inode_is k ip (i_addrs (inode_at k ip)).
Proof using Type. by intros [? ? ? ? ? ? ? ? ?]. Qed.

Lemma u32_no_wrap a b : 0 <= a → 0 <= b → a + b <= 140 * 512 → (u32 (a + b) <? a) = false.
Proof using Type. intros. rewrite u32_small by (unfold is_u32; lia). apply Z.ltb_ge. lia. Qed.

(** The first part of [writei]: the tests, and the blocks. *)
Lemma writei_blocks k V bl ip off src :
  fsx true sb k pid V bl ∅ → file_inode sb k V ip →
  let ino := inode_at k ip in
  0 <= off <= i_size ino → off + length src <= 140 * 512 → Forall is_byte src →
  need_all (i_addrs ino) (nblocks (i_size ino)) (nblocks (Z.max (i_size ino) (off + length src))) <= free_count sb V →
  has_room sb bl (2 * turns off src + 1) →
  ∃ k1 V1 bl1 addrs1, wrote sb pid ip k V bl (i_addrs ino) (nblocks (i_size ino)) off src k1 V1 bl1 addrs1
      (nblocks (Z.max (i_size ino) (off + length src))) ∧ has_room sb bl1 1 ∧
    writei ip src off k =
      (i <- get_inode ip ;;
       when ((Z.of_nat (length src) >? 0) && (off + length src >? i_size i))
         (upd_i ip (set_i_size (off + length src)) ;;; iupdate ip) ;;;
       ret (Z.of_nat (length src))) k1.
Proof using DOk.
  intros Hx Hfi ino Hoff Hmax Hb Hneed Hroom. rewrite nblocks_max in *. pose proof (nblocks_bound (i_size ino)).
  assert (0 <= turns off src) as Ht.
  { destruct (decide (src = [])) as [->|Hne]; [done|]. destruct (turn_end off src) as (_ & E & _ & _ & ?); [lia|done|lia]. }
  destruct (writei_loop_spec sb pid ip (length src) k V bl (i_addrs ino) (nblocks (i_size ino)) off src 1)
    as (k1 & V1 & bl1 & addrs1 & R & Wr & Hr1).
  { done. } { by eapply file_inode_is. } { apply Hfi. } { apply Hfi. } { lia. } { done. } { done. } { done. } { done. } { lia. }
  { replace (1 + 2 * turns off src) with (2 * turns off src + 1) by lia. done. }
  exists k1, V1, bl1, addrs1. split_and!; [done|done|]. unfold writei, get_inode. mrun.
  rewrite (proj2 (Z.eqb_neq _ _) (fi_type _ _ _ _ Hfi)). fold ino. rewrite u32_no_wrap by lia.
  rewrite Z.gtb_ltb, (proj2 (Z.ltb_ge _ _)) by lia. cbn [orb].
  change (MAXFILE * BSIZE) with (140 * 512). rewrite Z.gtb_ltb, (proj2 (Z.ltb_ge _ _)) by lia.
  mcall R. done.
Qed.

Lemma dinode_ok_set d size addrs : dinode_ok d → is_u32 size → length addrs = 13%nat → Forall is_u32 addrs →
  dinode_ok (mkDinode (di_type d) (di_major d) (di_minor d) (di_nlink d) size addrs).
Proof using Type. intros [? ? ? ? ? ? ?] ? ? ?. by split. Qed.

Lemma icache_other k k' f ip jp : jp ≠ ip → k_icache k' = alter f ip (k_icache k) → inode_at k' jp = inode_at k jp.
Proof using Type. intros Hne E. unfold inode_at. rewrite E. by rewrite list_lookup_total_alter_ne by done. Qed.

Lemma grown_stored k V bl V1 addrs cnt addrs1 cnt1 j :
  fsx true sb k pid V bl ∅ → grown sb V addrs cnt V1 addrs1 cnt1 → 0 <= j < sb_ninodes sb → stored sb V1 j = stored sb V j.
Proof using Type.
  intros Hx G Hj. destruct (iblock_eq sb pid k V bl ∅ j Hx Hj) as (_ & _ & Hlt).
  unfold stored. rewrite (gr_frame _ _ _ _ _ _ _ G); [done| |unfold bmap_block; lia].
  intros Hin. destruct (file_elem_data _ _ _ _ _ (gr_ok _ _ _ _ _ _ _ G) Hin) as [[? _] _]. lia.
Qed.

(** From the blocks to the file, in a store that differs from [V1] in inodes. *)
Lemma wrote_written k V bl ip off src k1 V1 bl1 addrs1 k' V' :
  fsx true sb k pid V bl ∅ → file_inode sb k V ip →
  let ino := inode_at k ip in let size' := Z.max (i_size ino) (off + length src) in
  0 <= off <= i_size ino → off + length src <= 140 * 512 →
  wrote sb pid ip k V bl (i_addrs ino) (nblocks (i_size ino)) off src k1 V1 bl1 addrs1 (nblocks size') →
  k_icache k' = alter (λ i, set_i_size size' (set_i_addrs addrs1 i)) ip (k_icache k) →
  same_data sb V1 V' → (∀ j, j ≠ i_inum ino → 0 <= j < sb_ninodes sb → stored sb V' j = stored sb V1 j) →
  stored sb V' (i_inum ino) = dinode_of (set_i_size size' (set_i_addrs addrs1 ino)) →
  k_disk k' = k_disk k → fs_frame k k' → written k V ip off src k' V'.
Proof using Type.
  intros Hx Hfi ino size' Hoff Hmax [X1 I1 G1 B1 S1 N1 D1 F1] E Hsame Hother Hsync Dk Fk.
  pose proof (fx_geom _ _ _ _ _ _ _ Hx) as Hg. destruct Hfi as [Hslot Hdev Hinum Hty Hsize Hok Hmeta Hdi Hsy].
  destruct (inode_at_alter _ _ _ _ Hslot E) as [Ei Hlen]. fold ino in Ei, Hdev, Hinum, Hty, Hsize, Hok, Hdi.
  pose proof (gr_ok _ _ _ _ _ _ _ G1) as Hok1. assert (0 <= size' <= 140 * 512) as Hsz by lia.
  split; rewrite ?Ei; cbn [i_size i_addrs set_i_size set_i_addrs].
  - exists addrs1. reflexivity.
  - split; rewrite ?Ei; cbn [i_dev i_inum i_type i_size i_addrs set_i_size set_i_addrs]; [by rewrite Hlen|done|done|done|done| | | |done].
    + by apply (same_data_ok sb _ Hg V1).
    + intros b Hb. rewrite (same_data_used sb V1) by done. by apply (gr_meta _ _ _ _ _ _ _ G1).
    + apply (dinode_ok_set (dinode_of ino) size' addrs1); [done|unfold is_u32; lia|apply Hok1|by eapply file_words].
  - intros i Hi. pose proof (nblocks_bound size'). rewrite (same_data_bytes sb _ Hg V1 V' addrs1 _ i Hsame Hok1) by lia.
    rewrite B1 by lia. case_decide; [done|]. pose proof (nblocks_bound (i_size ino)). rewrite decide_True by lia. done.
  - intros addrs2 cnt2 Hf2 Hap. destruct (grown_other sb _ Hg _ _ _ _ _ _ _ _ G1 Hf2 Hap) as (Hf3 & Hap3 & Hb3 & Hbl3).
    pose proof (λ n, same_data_block sb _ Hg V1 V' addrs2 cnt2 n Hsame Hf3) as Ha2.
    pose proof (λ n, same_data_block sb _ Hg V1 V' addrs1 _ n Hsame Hok1) as Ha1.
    split_and!; [by apply (same_data_ok sb _ Hg V1)| | |].
    + intros b. rewrite !elem_blocks. setoid_rewrite Ha1. setoid_rewrite Ha2. rewrite <- !elem_blocks. apply Hap3.
    + intros i Hi. rewrite (same_data_bytes sb _ Hg V1 V' addrs2 cnt2) by done. by apply Hb3.
    + rewrite <- Hbl3. unfold blocks. f_equal. apply list_fmap_ext. intros ? n _. apply Ha2.
  - intros j Hj Hjr. rewrite Hother by done. exact (grown_stored _ _ _ _ _ _ _ _ _ Hx G1 Hjr).
  - intros jp Hne. by eapply icache_other.
  - rewrite (free_count_ext sb V1 V'); [exact N1|]. apply Hsame. unfold bmap_block. lia.
  - done.
  - done.
Qed.

Lemma writei_spec k V bl ip off src :
  fsx true sb k pid V bl ∅ → file_inode sb k V ip →
  let ino := inode_at k ip in
  0 <= off <= i_size ino → off + length src <= 140 * 512 → Forall is_byte src →
  need_all (i_addrs ino) (nblocks (i_size ino)) (nblocks (Z.max (i_size ino) (off + length src))) <= free_count sb V →
  has_room sb bl (2 * turns off src + 1) →
  ∃ k' V' bl', writei ip src off k = Ret (Z.of_nat (length src)) k' ∧ fsx true sb k' pid V' bl' ∅ ∧
    written k V ip off src k' V'.
Proof using DOk.
  intros Hx Hfi ino Hoff Hmax Hb Hneed Hroom.
  destruct (writei_blocks k V bl ip off src Hx Hfi Hoff Hmax Hb Hneed Hroom) as (k1 & V1 & bl1 & addrs1 & Wr & Hr1 & R).
  fold ino in Wr. pose proof Wr as [X1 I1 G1 B1 S1 N1 D1 F1]. pose proof (fx_geom _ _ _ _ _ _ _ X1) as Hg.
  pose proof Hfi as [Hslot Hdev Hinum Hty Hsize Hok Hmeta Hdi Hsy].
  destruct (inode_at_alter _ _ _ _ Hslot I1) as [Ei1 Hlen1]. fold ino in Ei1.
  unfold get_inode in R. rewrite bind_gets, Ei1 in R. cbn [i_size set_i_addrs] in R.
  destruct (decide (i_size ino < off + length src)) as [Hgrow|Hsame].
  - rewrite Z.max_r in * by lia.
    rewrite !Z.gtb_ltb, !(proj2 (Z.ltb_lt _ _)) in R by lia. cbn [andb when] in R.
    set (k2 := upd_inode ip (set_i_size (off + length src)) k1).
    assert (k_icache k2 = alter (λ i, set_i_size (off + length src) (set_i_addrs addrs1 i)) ip (k_icache k)) as I2.
    { unfold k2, upd_inode. cbn [k_icache set_k_icache]. rewrite I1. apply list_eq. intros j.
      destruct (decide (ip = j)) as [<-|]; [|by rewrite !list_lookup_alter_ne]. rewrite !list_lookup_alter_eq. by destruct (k_icache k !! ip). }
    destruct (inode_at_alter _ _ _ _ Hslot I2) as [Ei2 Hlen2]. fold ino in Ei2.
    pose proof (fsx_icache sb pid k1 V1 bl1 ∅ (alter (set_i_size (off + length src)) ip (k_icache k1)) X1) as X2.
    destruct (iupdate_spec sb pid k2 V1 bl1 ip X2) as (k3 & R3 & X3 & D3 & F3); [by rewrite Ei2|by rewrite Ei2| |].
    { apply (room_le _ _ (1 + 1)); [by apply has_room_room|lia]. }
    rewrite Ei2 in X3. cbn [i_inum set_i_size set_i_addrs] in X3.
    eexists k3, _, _. split_and!; [| exact X3 |].
    { rewrite R. unfold upd_i. mrun. mcall R3. done. }
    destruct (iblock_eq sb pid k1 V1 bl1 ∅ (i_inum ino) X1 Hinum) as (_ & _ & Hib).
    eapply wrote_written; [exact Hx|done|done|done| | | | | | |]; fold ino; rewrite ?Z.max_r by lia.
    + exact Wr.
    + rewrite (log_frame_icache _ _ F3). exact I2.
    + by apply store_inode_same_data.
    + intros j Hj _. apply stored_other; [by eapply fsx_block_ok|done].
    + apply stored_same; [by eapply fsx_block_ok|]. apply (dinode_ok_set (dinode_of ino) (off + length src) addrs1); [done| | |].
      * unfold is_u32. lia.
      * apply (gr_ok _ _ _ _ _ _ _ G1).
      * rewrite D1 in Hg. eapply (file_words sb _ Hg), G1.
    + rewrite D3. exact D1.
    + eapply fs_frame_trans; [exact F1|]. eapply fs_frame_trans; [apply fs_frame_set|by apply fs_frame_log].
  - rewrite Z.max_l in * by lia. rewrite (Z.gtb_ltb (off + length src)), (proj2 (Z.ltb_ge _ _)), andb_false_r in R by lia. cbn [when] in R.
    specialize (S1 eq_refl). subst addrs1. exists k1, V1, bl1. split_and!; [by rewrite R|done|].
    eapply wrote_written; [exact Hx|done|done|done| | | | | | |]; fold ino; rewrite ?Z.max_l by lia.
    + exact Wr.
    + rewrite I1. apply list_alter_ext; [|done]. intros x Hx'.
      assert (x = ino) as -> by (unfold ino, inode_at; by rewrite (list_lookup_total_correct _ _ _ Hx')). by destruct ino.
    + done.
    + done.
    + assert (set_i_size (i_size ino) (set_i_addrs (i_addrs ino) ino) = ino) as -> by (by destruct ino).
      etrans; [exact (grown_stored _ _ _ _ _ _ _ _ _ Hx G1 Hinum)|exact Hsy].
    + done.
    + done.
Qed.

(** The [n] bytes of a file at [off]. *)
Definition fbytes V (addrs : list Z) (off : Z) (n : nat) : list Z := (λ j : nat, fbyte V addrs (off + j)) <$> seq 0 n.

Lemma fbytes_app V addrs off a b : fbytes V addrs off (a + b) = fbytes V addrs off a ++ fbytes V addrs (off + a) b.
Proof using Type.
  unfold fbytes. rewrite seq_app, fmap_app. f_equal. apply list_eq. intros j. rewrite !list_lookup_fmap.
  destruct (decide (j < b)%nat); [|by rewrite !lookup_seq_ge by lia].
  rewrite !lookup_seq_lt by done. cbn. do 2 f_equal. lia.
Qed.

Lemma fbytes_block V addrs off m : length (V (block_at V addrs (off / 512))) = 512%nat → 0 <= off → off mod 512 + m <= 512 →
  slice (V (block_at V addrs (off / 512))) (Z.to_nat (off mod 512)) (Z.to_nat m) = fbytes V addrs off (Z.to_nat m).
Proof using Type.
  intros Hl Ho Hm. unfold fbytes, slice. pose proof (Z.mod_pos_bound off 512). apply list_eq. intros j.
  destruct (decide (j < Z.to_nat m)%nat) as [Hj|Hj].
  - rewrite lookup_take_lt, lookup_drop, list_lookup_fmap, lookup_seq_lt by lia. cbn [fmap option_fmap option_map Nat.add].
    assert ((off + j) / 512 = off / 512 ∧ (off + j) mod 512 = off mod 512 + j) as [E1 E2].
    { pose proof (Z.div_mod off 512). split; symmetry; [apply Z.div_unique with (off mod 512 + j)|apply Z.mod_unique with (off / 512)]; lia. }
    unfold fbyte. rewrite E1, E2, Z2Nat.inj_add, Nat2Z.id by lia. apply list_lookup_lookup_total_lt. lia.
  - rewrite !lookup_ge_None_2; [done| |]; rewrite ?length_fmap, ?length_seq, ?length_take; lia.
Qed.

Lemma readi_loop_spec {w} ip (fuel : nat) : ∀ k V bl addrs cnt off n,
  fsx w sb k pid V bl ∅ → inode_is k ip addrs → file_ok sb V addrs cnt → room sb bl 0 →
  0 <= off → 0 <= n → off + n <= cnt * 512 → n <= fuel →
  ∃ k', readi_loop fuel ip off n k = Ret (fbytes V addrs off (Z.to_nat n)) k' ∧ fsx w sb k' pid V bl ∅ ∧
    k_disk k' = k_disk k ∧ log_frame k k'.
Proof using DOk.
  induction fuel as [|fuel IH]; intros k V bl addrs cnt off n Hx Hi Hf Hr Ho Hn0 Hn Hfu; cbn [readi_loop];
    (destruct (n <=? 0) eqn:E; [apply Z.leb_le in E; assert (n = 0) as -> by lia; exists k; split_and!; [done..|apply log_frame_refl]|apply Z.leb_gt in E]);
    [lia|].
  pose proof (Z.div_mod off 512). pose proof (Z.mod_pos_bound off 512).
  set (m := Z.min n (BSIZE - off mod BSIZE)). change (Z.of_nat BSIZE) with 512 in m.
  destruct (bmap_old sb pid ip k V bl addrs cnt (off / 512) Hx Hi Hf) as (k1 & R1 & X1 & D1 & F1); [lia|done|].
  destruct (file_block _ _ _ _ (off / 512) Hf) as [Hb _]; [lia|].
  destruct (fsx_read sb pid k1 V bl ∅ (block_at V addrs (off / 512)) X1) as (i & k2 & k3 & R2 & Hd & R3 & X3 & D3 & F3);
    [done|by eapply data_usable|done|by rewrite map_size_empty; lia|].
  pose proof (log_frame_trans _ _ _ F1 F3) as F13.
  destruct (IH k3 V bl addrs cnt (off + m) (n - m)) as (k4 & R4 & X4 & D4 & F4);
    [done|eapply inode_is_frame; [by apply log_frame_icache|done]|done|done|lia|lia|lia|lia|].
  exists k4. split_and!; [|done|congruence|by eapply log_frame_trans].
  unfold get_inode. mrun. rewrite (ii_dev _ _ _ Hi). mcall R1. mcall R2. unfold get_data. mrun. rewrite Hd. mcall R3. mcall R4.
  change (Z.of_nat BSIZE) with 512. rewrite fbytes_block by (first [exact (proj1 (fsx_block_ok _ _ _ _ _ _ _ Hx))|lia]).
  replace (Z.to_nat n) with (Z.to_nat m + Z.to_nat (n - m))%nat by lia. rewrite fbytes_app. by rewrite Z2Nat.id by lia.
Qed.

Lemma readi_spec {w} k V bl ip off n :
  fsx w sb k pid V bl ∅ → file_inode sb k V ip → room sb bl 0 → 0 <= off → 0 <= n → off + n < 2 ^ 32 →
  let ino := inode_at k ip in let m := Z.min n (i_size ino - off) in
  ∃ k', readi ip off n k = Ret (if decide (off <= i_size ino) then (m, fbytes V (i_addrs ino) off (Z.to_nat m)) else (-1, [])) k' ∧
    fsx w sb k' pid V bl ∅ ∧ k_disk k' = k_disk k ∧ log_frame k k'.
Proof using DOk.
  intros Hx Hfi Hr Ho Hn Hw ino m. unfold readi, get_inode. mrun.
  rewrite (proj2 (Z.eqb_neq _ _) (fi_type _ _ _ _ Hfi)). fold ino. rewrite u32_small by (unfold is_u32; lia).
  rewrite (proj2 (Z.ltb_ge (off + n) off)), orb_false_r, Z.gtb_ltb by lia. case_decide as Hle.
  - rewrite (proj2 (Z.ltb_ge _ _)) by lia. pose proof (nblocks_bound (i_size ino)).
    assert ((if off + n >? i_size ino then i_size ino - off else n) = m) as ->.
    { rewrite Z.gtb_ltb. destruct (i_size ino <? off + n) eqn:E; [apply Z.ltb_lt in E|apply Z.ltb_ge in E]; lia. }
    destruct (readi_loop_spec ip (Z.to_nat m) k V bl (i_addrs ino) (nblocks (i_size ino)) off m Hx (file_inode_is _ _ _ Hfi) (fi_ok _ _ _ _ Hfi))
      as (k' & R & X & Dk & F); [done|lia..|]. exists k'. split_and!; [|done..]. mcall R. done.
  - rewrite (proj2 (Z.ltb_lt _ _)) by lia. exists k. split_and!; [done..|apply log_frame_refl].
Qed.
End rw.
