(* ===== verification/FsInv.v ===== *)
(** * The invariant of a file system on disk

    [fs_ok] says what a consistent disk is: every allocated inode names a
    well-formed file, no block belongs to two files, and no block of the system
    is free.  [on_disk] is the contents of a file as read through its inode on
    disk: the abstract state of the file system. *)

From stdpp Require Import functions.
From S2P Require Import Prelude Mem CString State Mmu Spinlock Kalloc Vm Proc Sleeplock Disk Bio BioSpec Log LogSpec LogCommit LogCrash LogTx Fs FsTx FsFile FsBmap FsDinode FsWrite FsRw.

(** ** Contents as lists *)

(** [src] put at [off] in [old], which it may extend. *)
Definition patch (old : list Z) (off : nat) (src : list Z) : list Z :=
  take off old ++ src ++ drop (off + length src) old.

Lemma length_patch old off src : (off <= length old)%nat → length (patch old off src) = Nat.max (length old) (off + length src).
Proof. intros. unfold patch. rewrite !length_app, length_take, length_drop. lia. Qed.

Lemma lookup_patch old off src i : (off <= length old)%nat → (i < Nat.max (length old) (off + length src))%nat →
  patch old off src !!! i = if decide (off <= i < off + length src)%nat then src !!! (i - off)%nat else old !!! i.
Proof.
  intros Ho Hi. unfold patch. case_decide.
  - rewrite lookup_total_app_r, length_take, Nat.min_l by (rewrite ?length_take; lia). by rewrite lookup_total_app_l by lia.
  - destruct (decide (i < off)%nat).
    + rewrite lookup_total_app_l by (rewrite ?length_take; lia). by apply lookup_total_take_lt.
    + rewrite lookup_total_app_r, length_take, Nat.min_l by (rewrite ?length_take; lia).
      rewrite lookup_total_app_r, lookup_total_drop by lia. f_equal. lia.
Qed.

Lemma patch_nil old off : patch old off [] = old.
Proof. unfold patch. cbn. by rewrite Nat.add_0_r, take_drop. Qed.

Lemma patch_app old off a b : (off <= length old)%nat → patch (patch old off a) (off + length a) b = patch old off (a ++ b).
Proof.
  intros Ho. unfold patch. rewrite length_app.
  rewrite (app_assoc (take off old) a), take_app_length' by (rewrite length_app, length_take; lia).
  rewrite <- !app_assoc. do 3 f_equal. rewrite app_assoc, drop_app_ge by (rewrite length_app, length_take; lia).
  rewrite drop_drop. f_equal. rewrite length_app, length_take. lia.
Qed.

Lemma list_total_eq (l l' : list Z) : length l = length l' → (∀ i, (i < length l)%nat → l !!! i = l' !!! i) → l = l'.
Proof.
  intros Hl He. apply list_eq_same_length with (length l); [done|done|]. intros i x y Hi Hx Hy.
  specialize (He i Hi). by rewrite (list_lookup_total_correct _ _ _ Hx), (list_lookup_total_correct _ _ _ Hy) in He.
Qed.

Section inv.
Context (sb : superblock).
Implicit Types (k : kernel) (V : Z → list Z).

(** The bytes of the file of an inode. *)
Definition dinode_data V (d : dinode) : list Z := fbytes V (di_addrs d) 0 (Z.to_nat (di_size d)).
Definition on_disk V (j : Z) : list Z := dinode_data V (stored sb V j).

(** The inode is allocated. *)
Definition live V (j : Z) : Prop := 0 <= j < sb_ninodes sb ∧ di_type (stored sb V j) ≠ 0.

Definition dinode_cnt (d : dinode) : Z := nblocks (di_size d).

Record fs_ok V : Prop := {
  fk_file : ∀ j, live V j → let d := stored sb V j in
    file_ok sb V (di_addrs d) (dinode_cnt d) ∧ 0 <= di_size d <= 140 * 512 ∧ dinode_ok d;
  fk_apart : ∀ i j, live V i → live V j → i ≠ j → let di := stored sb V i in let dj := stored sb V j in
    apart_from V (di_addrs di) (dinode_cnt di) (di_addrs dj) (dinode_cnt dj);
  fk_meta : meta_used sb V
}.

Lemma length_fbytes V addrs off n : length (fbytes V addrs off n) = n.
Proof. unfold fbytes. by rewrite length_fmap, length_seq. Qed.

Lemma lookup_fbytes V addrs off n i : (i < n)%nat → fbytes V addrs off n !!! i = fbyte V addrs (off + i).
Proof.
  intros Hi. unfold fbytes. apply list_lookup_total_correct. rewrite list_lookup_fmap, lookup_seq_lt by done. done.
Qed.

Lemma fbytes_ext V V' addrs off (n : nat) : (∀ i, off <= i < off + n → fbyte V' addrs i = fbyte V addrs i) →
  fbytes V' addrs off n = fbytes V addrs off n.
Proof. intros E. unfold fbytes. apply list_fmap_ext. intros ? i [-> Hi]%lookup_seq. apply E. lia. Qed.

Lemma length_on_disk V j : length (on_disk V j) = Z.to_nat (di_size (stored sb V j)).
Proof. apply length_fbytes. Qed.

(** An in-memory inode that agrees with the disk, in a consistent file system. *)
Record inode_sync k V ip : Prop := {
  is_slot : (ip < length (k_icache k))%nat;
  is_dev : i_dev (inode_at k ip) = ROOTDEV;
  is_type : i_type (inode_at k ip) ≠ T_DEV;
  is_live : live V (i_inum (inode_at k ip));
  is_stored : stored sb V (i_inum (inode_at k ip)) = dinode_of (inode_at k ip)
}.

Lemma inode_sync_file k V ip : fs_ok V → inode_sync k V ip → file_inode sb k V ip.
Proof.
  intros [Hf _ Hm] [Hs Hd Ht Hl Hst]. destruct (Hf _ Hl) as (H1 & H2 & H3). rewrite Hst in H1, H2, H3.
  split; [done|done|apply Hl|done|done|done|done|done|done].
Qed.

(** A store with the same blocks outside the log has the same files. *)
Definition same_fs V V' : Prop := ∀ b, sb_inodestart sb <= b → V' b = V b.

Lemma same_fs_data nb V V' : geom sb nb → same_fs V V' → same_data sb V V'.
Proof. intros [[? ?] (? & ? & ?) ? [? ?]] Hs b Hb. apply Hs. pose proof (Z.div_pos (sb_ninodes sb) 8). lia. Qed.

Lemma same_fs_stored V V' j : 0 <= j → same_fs V V' → stored sb V' j = stored sb V j.
Proof. intros Hj H. unfold stored. rewrite H; [done|]. unfold iblock. pose proof (Z.div_pos j 8). lia. Qed.

Lemma same_fs_live V V' j : same_fs V V' → live V' j ↔ live V j.
Proof. intros H. unfold live. destruct (decide (0 <= j)); [by rewrite (same_fs_stored V V')|lia]. Qed.

Lemma same_fs_on_disk nb V V' j : geom sb nb → fs_ok V → live V j → same_fs V V' → on_disk V' j = on_disk V j.
Proof.
  intros Hg Hk Hl Hs. unfold on_disk. rewrite (same_fs_stored V V') by (done || apply Hl).
  destruct (fk_file _ Hk j Hl) as (Hf & Hsz & _). apply fbytes_ext. intros i Hi.
  eapply (same_data_bytes sb nb Hg); [by eapply same_fs_data|exact Hf|].
  pose proof (nblocks_bound (di_size (stored sb V j))). unfold dinode_cnt. lia.
Qed.

Lemma same_fs_ok nb V V' : geom sb nb → fs_ok V → same_fs V V' → fs_ok V'.
Proof.
  intros Hg Hk Hs. pose proof (same_fs_data nb V V' Hg Hs) as Hd. split.
  - intros j Hj d. apply (same_fs_live V V') in Hj; [|done]. unfold d. rewrite (same_fs_stored V V') by (done || apply Hj).
    destruct (fk_file _ Hk j Hj) as (? & ? & ?). split_and!; [by eapply (same_data_ok sb nb Hg)|lia|lia|done].
  - intros i j Hi Hj Hne di dj. rewrite (same_fs_live V V') in Hi, Hj by done. unfold di, dj.
    rewrite !(same_fs_stored V V') by (done || apply Hi || apply Hj).
    destruct (fk_file _ Hk i Hi) as (Hfi & _). destruct (fk_file _ Hk j Hj) as (Hfj & _).
    intros b. rewrite !elem_blocks. setoid_rewrite (λ n, same_data_block sb nb Hg V V' _ _ n Hd Hfi).
    setoid_rewrite (λ n, same_data_block sb nb Hg V V' _ _ n Hd Hfj). rewrite <- !elem_blocks. by apply (fk_apart _ Hk).
  - intros b Hb. rewrite (same_data_used sb V) by done. by apply (fk_meta _ Hk).
Qed.

(** What a write does to the files. *)
Lemma written_files k V ip off src k' V' :
  fs_ok V → inode_sync k V ip → 0 <= off <= i_size (inode_at k ip) → written sb k V ip off src k' V' →
  let inum := i_inum (inode_at k ip) in
  fs_ok V' ∧ inode_sync k' V' ip ∧ on_disk V' inum = patch (on_disk V inum) (Z.to_nat off) src ∧
  (∀ j, live V' j ↔ live V j) ∧ (∀ j, live V j → j ≠ inum → on_disk V' j = on_disk V j).
Proof.
  intros Hk Hs Hoff [[addrs' Ei] Hfi' Hby Hot Hin _ _ _ _] inum. pose proof Hs as [Hslot Hdev Hty Hlive Hst].
  pose proof Hfi' as [_ Hdev' _ Hty' Hsz' Hok' Hme' Hdi' Hsy'].
  assert (i_inum (inode_at k' ip) = inum) as Einum by (by rewrite Ei). rewrite Einum in Hsy'.
  assert (∀ j, live V' j ↔ live V j) as Hlv.
  { intros j. unfold live. destruct (decide (j = inum)) as [->|Hne].
    - rewrite Hsy', Ei. unfold inum. by rewrite Hst.
    - split; intros [? ?]; (split; [done|]); [rewrite <- Hin by done|rewrite Hin by done]; done. }
  assert (∀ j, live V j → j ≠ inum → let d := stored sb V j in
    apart_from V (i_addrs (inode_at k ip)) (nblocks (i_size (inode_at k ip))) (di_addrs d) (dinode_cnt d)) as Hap.
  { intros j Hj Hne d. pose proof (fk_apart _ Hk inum j Hlive Hj ltac:(done)) as H. unfold inum in H. by rewrite Hst in H. }
  pose proof (λ j Hj Hne, Hot _ _ (proj1 (fk_file _ Hk j Hj)) (Hap j Hj Hne)) as Hkeep.
  split_and!; [split| | |done|].
  - intros j Hj%Hlv d. unfold d. destruct (decide (j = inum)) as [->|Hne]; [rewrite Hsy'; exact (conj Hok' (conj Hsz' Hdi'))|].
    rewrite Hin by (done || apply Hj). destruct (fk_file _ Hk j Hj) as (_ & ? & ?). split_and!; [by apply Hkeep|lia|lia|done].
  - intros i j Hi%Hlv Hj%Hlv Hne di dj. unfold di, dj. destruct (decide (i = inum)) as [->|Hni], (decide (j = inum)) as [->|Hnj].
    + done.
    + rewrite Hsy', Hin by (done || apply Hj). by apply Hkeep.
    + rewrite Hsy', Hin by (done || apply Hi). intros b H1 H2. destruct (Hkeep i Hi Hni) as (_ & H & _). by apply (H b).
    + rewrite !Hin by (done || apply Hi || apply Hj). intros b.
      destruct (Hkeep i Hi Hni) as (_ & _ & _ & ->), (Hkeep j Hj Hnj) as (_ & _ & _ & ->). by apply (fk_apart _ Hk).
  - done.
  - split; [apply Hfi'|done|done|by rewrite Einum, Hlv|by rewrite Einum].
  - assert (length (on_disk V inum) = Z.to_nat (i_size (inode_at k ip))) as Hlen.
    { rewrite length_on_disk. unfold inum. by rewrite Hst. }
    assert (i_size (inode_at k' ip) = Z.max (i_size (inode_at k ip)) (off + length src)) as Esz by (by rewrite Ei).
    apply list_total_eq; rewrite length_on_disk, Hsy'; cbn [di_size dinode_of]; rewrite Esz.
    + rewrite length_patch, Hlen by lia. lia.
    + intros i Hi. unfold on_disk at 1, dinode_data. rewrite Hsy'. cbn [di_addrs di_size dinode_of].
      rewrite lookup_fbytes by lia. rewrite Hby by lia. rewrite lookup_patch by lia.
      destruct (decide (off <= 0 + i < off + length src)); [rewrite decide_True by lia; f_equal; lia|].
      rewrite decide_False by lia. unfold on_disk, dinode_data, inum. rewrite Hst. cbn [di_addrs di_size dinode_of].
      by rewrite lookup_fbytes by lia.
  - intros j Hj Hne. unfold on_disk. rewrite Hin by (done || apply Hj). apply fbytes_ext. intros i Hi.
    apply Hkeep; [done|done|]. pose proof (nblocks_bound (di_size (stored sb V j))). unfold dinode_cnt. lia.
Qed.
End inv.
