(* ===== verification/Dir.v ===== *)
(** * Directories and path names (src/fs.c)

    A path is the list of bytes before its terminating zero; the buffer [name]
    of [skipelem] is the list of its bytes before a zero, at most [DIRSIZ]. *)

From stdpp Require Import functions.
From S2P Require Import Prelude Mem CString State Mmu Spinlock Kalloc Vm Proc Sleeplock Disk Bio Log Fs.

Definition slash : Z := 47.

(** [strncmp] on byte arrays, reading 0 past the end of a list. *)
Fixpoint strncmp_bytes (p q : list Z) (n : nat) : Z :=
  match n with
  | O => 0
  | S n =>
      let a := hd 0 p in let b := hd 0 q in
      if negb (a =? 0) && (a =? b) then strncmp_bytes (tl p) (tl q) n else u8 a - u8 b
  end.

Definition namecmp (s t : list Z) : Z := strncmp_bytes s t DIRSIZ.

(** [struct dirent] *)
Record dirent := mkDirent { de_inum : Z; de_name : list Z }.
Definition dirent_of (bytes : list Z) : dirent := mkDirent (get16 bytes 0) (drop 2 bytes).
Definition dirent_bytes (d : dirent) : list Z := bytes_of_u16 (de_inum d) ++ de_name d.

(** [strncpy(de.name, name, DIRSIZ)] *)
Definition dir_name (name : list Z) : list Z := take DIRSIZ (pad DIRSIZ (cstr name)).

Fixpoint skip_slashes (path : list Z) : list Z :=
  match path with
  | c :: path' => if c =? slash then skip_slashes path' else path
  | [] => []
  end.

(** The bytes up to the next slash, and the rest. *)
Fixpoint span_elem (path : list Z) : list Z * list Z :=
  match path with
  | c :: path' => if c =? slash then ([], path) else let (s, r) := span_elem path' in (c :: s, r)
  | [] => ([], [])
  end.

(** [skipelem(path, name)]: the path after the first element, and [name]. *)
Definition skipelem (path : list Z) : option (list Z * list Z) :=
  match skip_slashes path with
  | [] => None
  | path => let (s, r) := span_elem path in Some (skip_slashes r, take DIRSIZ s)
  end.

Section dir.
Context `{W : Wakeups} `{D : DiskDriver} `{DV : Devsw}.

(** The offsets of the entries of a directory of [size] bytes. *)
Definition entries (size : Z) : list nat := seq 0 (Z.to_nat ((size + DIRENT_SIZE - 1) / DIRENT_SIZE)).

Definition read_dirent (dp : nat) (off : Z) (msg : string) : K dirent :=
  r <- readi dp off DIRENT_SIZE ;;
  if negb (r.1 =? DIRENT_SIZE) then panic msg else ret (dirent_of r.2).

(** [dirlookup(dp, name, poff)]: the inode and the offset of the entry. *)
Definition dirlookup (dp : nat) (name : list Z) : K (option (nat * Z)) :=
  d <- get_inode dp ;;
  if negb (i_type d =? T_DIR) then panic "dirlookup not DIR"
  else
    foreach_exit (entries (i_size d)) (λ j,
      let off := j * DIRENT_SIZE in
      de <- read_dirent dp off "dirlookup read" ;;
      if de_inum de =? 0 then ret None
      else if namecmp name (de_name de) =? 0 then
        ip <- iget (i_dev d) (de_inum de) ;; ret (Some (ip, off))
      else ret None).

Definition dirlink (dp : nat) (name : list Z) (inum : Z) : K Z :=
  o <- dirlookup dp name ;;
  match o with
  | Some (ip, _) => iput ip ;;; ret (-1)
  | None =>
      d <- get_inode dp ;;
      o <- foreach_exit (entries (i_size d)) (λ j,
             let off := j * DIRENT_SIZE in
             de <- read_dirent dp off "dirlink read" ;;
             ret (if de_inum de =? 0 then Some off else None)) ;;
      let off := default (length (entries (i_size d)) * DIRENT_SIZE) o in
      n <- writei dp (dirent_bytes (mkDirent inum (dir_name name))) off ;;
      if negb (n =? DIRENT_SIZE) then panic "dirlink" else ret 0
  end.

(** The loop of [namex]. *)
Fixpoint namex_loop (fuel : nat) (ip : nat) (path : list Z) (parent : bool) (name : list Z)
    : K (option (nat * list Z)) :=
  match skipelem path with
  | None => if parent then iput ip ;;; ret None else ret (Some (ip, name))
  | Some (path, name) =>
      match fuel with
      | O => λ _, Spin
      | S fuel =>
          ilock ip ;;;
          i <- get_inode ip ;;
          if negb (i_type i =? T_DIR) then iunlockput ip ;;; ret None
          else if parent && bool_decide (path = []) then iunlock ip ;;; ret (Some (ip, name))
          else
            next <- dirlookup ip name ;;
            match next with
            | None => iunlockput ip ;;; ret None
            | Some (next, _) => iunlockput ip ;;; namex_loop fuel next path parent name
            end
      end
  end.

(** [namex(path, nameiparent, name)]: the inode, and what is left in [name]. *)
Definition namex (path : list Z) (parent : bool) : K (option (nat * list Z)) :=
  ip <- (match path with
         | c :: _ => if c =? slash then iget ROOTDEV ROOTINO
                     else p <- curproc ;; cwd <- gets (λ k, p_cwd (proc_at k p)) ;;
                          match cwd with Some ip => idup ip | None => panic "null dereference" end
         | [] => p <- curproc ;; cwd <- gets (λ k, p_cwd (proc_at k p)) ;;
                 match cwd with Some ip => idup ip | None => panic "null dereference" end
         end) ;;
  namex_loop (length path) ip path parent [].

Definition namei (path : list Z) : K (option nat) :=
  o <- namex path false ;; ret (fst <$> o).
Definition nameiparent (path : list Z) : K (option (nat * list Z)) := namex path true.
End dir.

(** ** The bytes of an entry *)

Lemma length_dirent_bytes inum name : length (dirent_bytes (mkDirent inum (dir_name name))) = 16%nat.
Proof.
  unfold dirent_bytes. rewrite length_app. cbn [de_inum de_name]. unfold dir_name, pad, DIRSIZ.
  rewrite length_take, length_app, length_replicate. cbn [length bytes_of_u16]. lia.
Qed.

Lemma cstr_bytes l : Forall is_byte l → Forall is_byte (cstr l).
Proof. induction 1 as [|x l Hx _ IH]; [constructor|]. cbn [cstr]. case_match; [constructor|by constructor]. Qed.

Lemma dirent_bytes_byte inum name : Forall is_byte name → Forall is_byte (dirent_bytes (mkDirent inum (dir_name name))).
Proof.
  intros Hn. apply Forall_app. split; [repeat constructor; apply u8_range|]. apply Forall_take, Forall_app.
  split; [by apply cstr_bytes|apply Forall_replicate; unfold is_byte; lia].
Qed.
