(* ===== verification/Pipe.v ===== *)
(** * Pipes (src/pipe.c)

    The ring buffer of a pipe, with its free-running 32-bit counters. *)

From S2P Require Import Prelude Mem CString State Mmu Spinlock Kalloc Vm Proc.

Definition pipe_at (k : kernel) (p : Z) : pipe := default (mkPipe [] 0 0 false false) (k_pipes k !! p).
Definition upd_pipe (p : Z) (f : pipe → pipe) : K unit :=
  modify (λ k, set_k_pipes (alter f p (k_pipes k)) k).
Definition get_pipe (p : Z) : K pipe := gets (λ k, pipe_at k p).

(** [myproc()->killed] *)
Definition killed : K bool := p <- curproc ;; gets (λ k, p_killed (proc_at k p)).

Definition pipeclose `{L : Layout} (p : Z) (writable : bool) : K unit :=
  acquire (LPipe p) ;;;
  (if writable then upd_pipe p (set_pi_writeopen false) ;;; wakeup (CPipeR p)
   else upd_pipe p (set_pi_readopen false) ;;; wakeup (CPipeW p)) ;;;
  pi <- get_pipe p ;;
  if negb (pi_readopen pi) && negb (pi_writeopen pi) then
    release (LPipe p) ;;;
    modify (λ k, set_k_pipes (delete p (k_pipes k)) k) ;;;
    kfree p
  else release (LPipe p).

Definition pipe_full (pi : pipe) : bool := pi_nwrite pi =? u32 (pi_nread pi + PIPESIZE).
Definition pipe_empty (pi : pipe) : bool := pi_nread pi =? pi_nwrite pi.

(** [p->data[p->nwrite++ % PIPESIZE] = c] and [c = p->data[p->nread++ % PIPESIZE]] *)
Definition pipe_put (c : Z) (pi : pipe) : pipe :=
  set_pi_nwrite (u32 (pi_nwrite pi + 1))
    (set_pi_data (<[Z.to_nat (pi_nwrite pi mod PIPESIZE) := c]> (pi_data pi)) pi).
Definition pipe_head (pi : pipe) : Z := pi_data pi !!! Z.to_nat (pi_nread pi mod PIPESIZE).
Definition pipe_get (pi : pipe) : pipe := set_pi_nread (u32 (pi_nread pi + 1)) pi.

(** [while(p->nwrite == p->nread + PIPESIZE) ...]: [true] when there is room,
    [false] when the write is given up. *)
Fixpoint wait_room (fuel : nat) (p : Z) : K bool :=
  pi <- get_pipe p ;;
  if pipe_full pi then
    kl <- (if pi_readopen pi then killed else ret true) ;;
    if kl : bool then ret false
    else match fuel with
         | O => λ _, Spin
         | S fuel => wakeup (CPipeR p) ;;; sleep (CPipeW p) (LPipe p) ;;; wait_room fuel p
         end
  else ret true.

Fixpoint wait_data (fuel : nat) (p : Z) : K bool :=
  pi <- get_pipe p ;;
  if pipe_empty pi && pi_writeopen pi then
    kl <- killed ;;
    if kl : bool then ret false
    else match fuel with
         | O => λ _, Spin
         | S fuel => sleep (CPipeR p) (LPipe p) ;;; wait_data fuel p
         end
  else ret true.

Section pipe.
Context `{W : Wakeups}.

(** The bytes [src] in order; [true] when all have been put. *)
Fixpoint pipewrite_loop (p : Z) (src : list Z) : K bool :=
  match src with
  | [] => ret true
  | c :: src =>
      ok <- wait_room wakeups p ;;
      if ok : bool then upd_pipe p (pipe_put c) ;;; pipewrite_loop p src
      else ret false
  end.

Definition pipewrite (p : Z) (src : list Z) : K Z :=
  acquire (LPipe p) ;;;
  ok <- pipewrite_loop p src ;;
  if ok : bool then
    wakeup (CPipeR p) ;;;
    release (LPipe p) ;;;
    ret (Z.of_nat (length src))
  else
    release (LPipe p) ;;;
    ret (-1).

(** At most [n] bytes, as many as there are. *)
Fixpoint piperead_loop (p : Z) (n : nat) : K (list Z) :=
  match n with
  | O => ret []
  | S n =>
      pi <- get_pipe p ;;
      if pipe_empty pi then ret []
      else
        upd_pipe p pipe_get ;;;
        rest <- piperead_loop p n ;;
        ret (pipe_head pi :: rest)
  end.

Definition piperead (p : Z) (n : Z) : K (Z * list Z) :=
  acquire (LPipe p) ;;;
  ok <- wait_data wakeups p ;;
  if ok : bool then
    bytes <- piperead_loop p (Z.to_nat n) ;;
    wakeup (CPipeW p) ;;;
    release (LPipe p) ;;;
    ret (Z.of_nat (length bytes), bytes)
  else
    release (LPipe p) ;;;
    ret (-1, []).
End pipe.
