(* ===== verification/Rely.v ===== *)
(** * Threads of the kernel that take turns

    A kernel thread is a computation that runs until it returns or gives up the
    CPU in [sched]; then others run, and it is resumed in whatever state they
    left.  [rg] says what a thread does to an abstract state [X] that the kernel
    state represents, relying on what the others do to it in the meantime;
    [interleave_safe] composes the guarantees of any number of threads over all
    their interleavings. *)

From S2P Require Import Prelude Mem CString State Mmu Spinlock Kalloc Vm Proc Sleeplock.

(** Process [p] is on the CPU with the spinlocks [h]. *)
Record thread (p : nat) (h : list lock) (k : kernel) : Prop := {
  th_cur : k_cur k = Some p;
  th_held : k_held k = h;
  th_slot : (p < length (k_ptable k))%nat
}.

Lemma thread_held p h h' k : thread p h k → thread p h' (set_k_held h' k).
Proof. intros [? ? ?]. by split. Qed.

Lemma thread_upd p h i f k : thread p h k → thread p h (upd_proc i f k).
Proof. intros [? ? ?]. split; [done|done|]. cbn. by rewrite length_alter. Qed.

Lemma thread_woken p h c k : thread p h k → thread p h (woken c k).
Proof. intros [? ? ?]. split; [done|done|]. cbn. by rewrite length_fmap. Qed.

Lemma curproc_eq p h k : thread p h k → curproc k = Ret p k.
Proof. intros [H _ _]. unfold curproc, myproc. mrun. by rewrite H. Qed.

Section rg.
Context {X : Type} (abs : X → kernel → Prop).
(** The abstract state is not in the process table, nor in the locks. *)
Context (abs_held : ∀ x h k, abs x k → abs x (set_k_held h k))
        (abs_ptable : ∀ x t k, abs x k → abs x (set_k_ptable t k)).

Lemma abs_upd x i f k : abs x k → abs x (upd_proc i f k).
Proof using abs_ptable. apply abs_ptable. Qed.
Lemma abs_woken x c k : abs x k → abs x (woken c k).
Proof using abs_ptable. apply abs_ptable. Qed.

Section thread.
Context (p : nat) (R G : X → X → Prop) `{!Transitive G} `{!Reflexive G}.

(** The thread [p], in abstract state [x] when it was last resumed, goes on as
    [r]: its changes are within [G] each time it gives up the CPU, provided the
    others stay within [R]; it does not panic; it returns with [Q]. *)
Inductive rg {A} (Q : A → X → kernel → Prop) : X → result kernel A → Prop :=
| rg_ret x x' a k : G x x' → abs x' k → Q a x' k → rg Q x (Ret a k)
| rg_swtch x x' k resume : G x x' → abs x' k → thread p [LPtable] k →
    (∀ x'' k', R x' x'' → abs x'' k' → thread p [LPtable] k' → rg Q x'' (resume k')) →
    rg Q x (Swtch k resume)
| rg_spin x : rg Q x Spin.

Lemma rg_step {A} (Q : A → X → kernel → Prop) x x' r : G x x' → rg Q x' r → rg Q x r.
Proof using Transitive0.
  intros HG H. destruct H as [x' x2 a k ? ? ?|x' x2 k resume ? ? ? ?|].
  - eapply rg_ret; [by etrans|done|done].
  - eapply rg_swtch; [by etrans|done|done|done].
  - constructor.
Qed.

Lemma rg_rbind {A B} (P : A → X → kernel → Prop) (Q : B → X → kernel → Prop) x r (f : A → K B) :
  rg P x r → (∀ a x' k, abs x' k → P a x' k → rg Q x' (f a k)) → rg Q x (rbind r f).
Proof using Transitive0.
  intros H Hf. induction H as [x x' a k|x x' k resume ? ? ? ? IH|]; simpl.
  - eapply rg_step; [done|by apply Hf].
  - eapply rg_swtch; eauto.
  - constructor.
Qed.

Lemma rg_bind {A B} (P : A → X → kernel → Prop) (Q : B → X → kernel → Prop) x (m : K A) (f : A → K B) k :
  rg P x (m k) → (∀ a x' k', abs x' k' → P a x' k' → rg Q x' (f a k')) → rg Q x (bind m f k).
Proof using Transitive0. apply rg_rbind. Qed.

Lemma rg_weaken {A} (P Q : A → X → kernel → Prop) x r :
  rg P x r → (∀ a x' k, P a x' k → Q a x' k) → rg Q x r.
Proof. intros H HPQ. induction H; econstructor; eauto. Qed.

(** [sleep] gives the lock up and comes back with it after the others ran. *)
Lemma sleep_rg x c lk k :
  lk ≠ LPtable → thread p [lk] k → abs x k →
  rg (λ _ x' k', R x x' ∧ thread p [lk] k') x (sleep c lk k).
Proof using abs_held abs_ptable Reflexive0 Transitive0.
  intros Hlk Hth Habs. unfold sleep.
  rewrite (bind_eq _ _ _ (Some p) k) by (unfold myproc, gets; by rewrite (th_cur _ _ _ Hth)).
  rewrite bool_decide_false by done. cbn [negb when].
  assert (LPtable ∉ [lk]) as Hn by (by rewrite list_elem_of_singleton).
  rewrite (bind_eq _ _ _ tt (set_k_held [LPtable] k)).
  2: { mcall (acquire_eq LPtable k ltac:(by rewrite (th_held _ _ _ Hth))). rewrite (th_held _ _ _ Hth).
       rewrite (release_any lk) by (right; by left). cbn [k_held set_k_held].
       unfold remove_lock. rewrite filter_cons_True by (intros E; by subst).
       by rewrite filter_cons_False by (intros H; by apply H). }
  unfold upd. mrun. apply (thread_held _ _ [LPtable]) in Hth. apply (abs_held _ [LPtable]) in Habs.
  set (k1 := upd_proc p (set_p_state SLEEPING) (upd_proc p (set_p_chan (Some c)) (set_k_held [LPtable] k))).
  assert (thread p [LPtable] k1) as Hth1 by (by apply thread_upd, thread_upd).
  assert (abs x k1) as Habs1 by (by apply abs_upd, abs_upd).
  assert (p_state (proc_at k1 p) = SLEEPING) as Hst.
  { unfold k1. rewrite proc_at_upd_same; [done|]. apply (thread_upd _ _ p (set_p_chan (Some c))) in Hth. apply Hth. }
  clearbody k1. eapply (rg_bind (λ _ x' k', R x x' ∧ thread p [LPtable] k')).
  { unfold sched. mcall (curproc_eq _ _ _ Hth1). unfold holding. mrun.
    rewrite (th_held _ _ _ Hth1), bool_decide_true by (by left). cbn [negb length Nat.eqb].
    mrun. rewrite (th_held _ _ _ Hth1). cbn [negb length Nat.eqb]. mrun. unfold is_state. rewrite Hst. cbn.
    apply (rg_swtch _ _ x); [done|done|done|]. intros x'' k' HR' Habs' Hth'. by eapply rg_ret. }
  intros [] x' k' Habs' [HR' Hth']. mrun.
  apply (thread_upd _ _ p (set_p_chan None)) in Hth'. apply (abs_upd _ p (set_p_chan None)) in Habs'.
  rewrite (bind_eq _ _ _ tt _ (release_eq LPtable _ [] (th_held _ _ _ Hth') (not_elem_of_nil _))).
  rewrite acquire_eq by apply not_elem_of_nil.
  eapply rg_ret; [reflexivity|by apply abs_held, abs_held|].
  split; [done|]. by apply (thread_held _ [] [lk]), (thread_held _ [LPtable]).
Qed.
End thread.

(** ** Interleavings *)

(** A thread that waits to be resumed, or that has returned. *)
Inductive status (A : Type) := Waiting (resume : kernel → result kernel A) | Done (a : A).
Arguments Waiting {A} _.
Arguments Done {A} _.

(** What the scheduler does between two threads: it changes the process table,
    [myproc()] and the locks of the CPU, and nothing else. *)
Definition switched (k k' : kernel) : Prop :=
  ∃ c h t, k' = set_k_cur c (set_k_held h (set_k_ptable t k)).

(** The scheduler resumes one of the threads, [procs !! i] being its process. *)
Inductive interleave {A} (procs : list nat) : kernel * list (status A) → option (kernel * list (status A)) → Prop :=
| il_swtch i p k k1 k2 resume resume' ts : procs !! i = Some p → ts !! i = Some (Waiting resume) →
    switched k k1 → thread p [LPtable] k1 → resume k1 = Swtch k2 resume' →
    interleave procs (k, ts) (Some (k2, <[i := Waiting resume']> ts))
| il_done i p k k1 k2 resume a ts : procs !! i = Some p → ts !! i = Some (Waiting resume) →
    switched k k1 → thread p [LPtable] k1 → resume k1 = Ret a k2 →
    interleave procs (k, ts) (Some (k2, <[i := Done a]> ts))
| il_panic i p k k1 resume msg ts : procs !! i = Some p → ts !! i = Some (Waiting resume) →
    switched k k1 → thread p [LPtable] k1 → resume k1 = Panic msg →
    interleave procs (k, ts) None.

(** Reachable in any number of steps; [None] is a panic. *)
Inductive reaches {A} (procs : list nat) : kernel * list (status A) → option (kernel * list (status A)) → Prop :=
| re_refl c : reaches procs c (Some c)
| re_step c c' o : interleave procs c (Some c') → reaches procs c' o → reaches procs c o
| re_panic c : interleave procs c None → reaches procs c None.

Context (abs_cur : ∀ x c k, abs x k → abs x (set_k_cur c k)).

(** What is known of a thread in abstract state [x]. *)
Definition thread_ok {A} (R G : X → X → Prop) (Q : A → X → Prop) (p : nat) (x : X) (t : status A) : Prop :=
  match t with
  | Waiting resume => ∀ x' k', R x x' → abs x' k' → thread p [LPtable] k' → rg p R G (λ a x _, Q a x) x' (resume k')
  | Done a => Q a x
  end.

(** Each thread with its process, rely, guarantee and result. *)
Record spec (A : Type) := mkSpec {
  s_proc : nat; s_rely : X → X → Prop; s_guar : X → X → Prop; s_post : A → X → Prop
}.
Arguments s_proc {A} _.
Arguments s_rely {A} _ _ _.
Arguments s_guar {A} _ _ _.
Arguments s_post {A} _ _ _.

(** The specifications fit together: what one thread guarantees the others may
    rely on, and a result stays true. *)
Definition compatible {A} (ss : list (spec A)) : Prop :=
  (∀ i s, ss !! i = Some s → Transitive (s_rely s) ∧ Reflexive (s_rely s) ∧
     ∀ a x x', s_rely s x x' → s_post s a x → s_post s a x') ∧
  (∀ i j s t, i ≠ j → ss !! i = Some s → ss !! j = Some t → ∀ x x', s_guar s x x' → s_rely t x x').

Definition all_ok {A} (ss : list (spec A)) (x : X) (ts : list (status A)) : Prop :=
  Forall2 (λ s t, thread_ok (s_rely s) (s_guar s) (s_post s) (s_proc s) x t) ss ts.

Lemma thread_ok_rely {A} (R G : X → X → Prop) (Q : A → X → Prop) p x x' t :
  Transitive R → (∀ a x x', R x x' → Q a x → Q a x') → R x x' →
  thread_ok R G Q p x t → thread_ok R G Q p x' t.
Proof.
  intros HT HQ HR. destruct t as [resume|a]; simpl; [|by apply HQ].
  intros H x'' k' HR' Ha Hth. apply H; [by etrans|done|done].
Qed.

Lemma all_ok_step {A} (ss : list (spec A)) i s x x' ts t' :
  compatible ss → ss !! i = Some s → s_guar s x x' →
  all_ok ss x ts → thread_ok (s_rely s) (s_guar s) (s_post s) (s_proc s) x' t' →
  all_ok ss x' (<[i := t']> ts).
Proof.
  intros [Hc1 Hc2] Hs HG Hall Ht'. apply Forall2_same_length_lookup_2.
  { rewrite length_insert. by eapply Forall2_length. }
  intros j sj tj Hj Htj. destruct (decide (i = j)) as [<-|Hne].
  - assert (i < length ts)%nat as Hlt.
    { rewrite <- (Forall2_length _ _ _ Hall). by eapply lookup_lt_Some. }
    rewrite list_lookup_insert_eq in Htj by done. by simplify_eq.
  - rewrite list_lookup_insert_ne in Htj by done.
    destruct (Hc1 _ _ Hj) as (HT & _ & HQ). eapply thread_ok_rely; [done|done|by eapply Hc2|].
    by eapply Forall2_lookup_lr in Hall.
Qed.

(** A step of an interleaving keeps every thread within its specification. *)
Lemma interleave_step {A} (ss : list (spec A)) x k ts o :
  compatible ss → abs x k → all_ok ss x ts → interleave (s_proc <$> ss) (k, ts) o →
  ∃ k' ts' x', o = Some (k', ts') ∧ abs x' k' ∧ all_ok ss x' ts'.
Proof using abs_held abs_ptable abs_cur.
  intros Hc Habs Hall Hstep.
  assert (∀ i p k1 resume, (s_proc <$> ss) !! i = Some p → ts !! i = Some (Waiting resume) →
    switched k k1 → thread p [LPtable] k1 →
    ∃ s, ss !! i = Some s ∧ s_proc s = p ∧ rg p (s_rely s) (s_guar s) (λ a x _, s_post s a x) x (resume k1)) as Hrun.
  { intros i p k1 resume Hp Hi (c & h & t & ->) Hth.
    rewrite list_lookup_fmap in Hp. apply fmap_Some in Hp as (s & Hs & ->). exists s. split_and!; [done|done|].
    eapply Forall2_lookup_lr in Hall; [|done|done]. simpl in Hall.
    destruct Hc as [Hc _]. destruct (Hc _ _ Hs) as (_ & Hrefl & _).
    apply Hall; [reflexivity|by apply abs_cur, abs_held, abs_ptable|done]. }
  inversion Hstep as [i p ? k1 k2 resume resume' ? Hp Hi Hsw Hth Hres|i p ? k1 k2 resume a ? Hp Hi Hsw Hth Hres
                     |i p ? k1 resume msg ? Hp Hi Hsw Hth Hres]; simplify_eq;
    destruct (Hrun _ _ _ _ Hp Hi Hsw Hth) as (s & Hs & <- & Hrg); rewrite Hres in Hrg.
  - inversion Hrg as [|x0 x' k0 r0 HG Ha Hth' Hres'|]; simplify_eq.
    eexists k2, _, x'. split_and!; [done|done|]. by eapply all_ok_step.
  - inversion Hrg as [x0 x' a0 k0 HG Ha HQ| |]; simplify_eq.
    eexists k2, _, x'. split_and!; [done|done|]. by eapply all_ok_step.
  - inversion Hrg.
Qed.

(** Whatever the scheduler does, no thread panics, and the abstract state is
    there with the results of the threads that have returned. *)
Lemma interleave_safe {A} (ss : list (spec A)) x k ts o :
  compatible ss → abs x k → all_ok ss x ts → reaches (s_proc <$> ss) (k, ts) o →
  ∃ k' ts' x', o = Some (k', ts') ∧ abs x' k' ∧ all_ok ss x' ts'.
Proof using abs_held abs_ptable abs_cur.
  intros Hc Habs Hall Hre. remember (k, ts) as c eqn:Ec.
  revert x k ts Ec Habs Hall. induction Hre as [c|c c' o Hstep _ IH|c Hstep]; intros x k ts -> Habs Hall.
  - by exists k, ts, x.
  - destruct (interleave_step ss x k ts _ Hc Habs Hall Hstep) as (k' & ts' & x' & [= ->] & Ha & Hall').
    by eapply IH.
  - by destruct (interleave_step ss x k ts _ Hc Habs Hall Hstep) as (k' & ts' & x' & ? & _).
Qed.
End rg.
Arguments Waiting {A} _.
Arguments Done {A} _.
Arguments mkSpec {X A} _ _ _ _.
Arguments s_proc {X A} _.
Arguments s_rely {X A} _ _ _.
Arguments s_guar {X A} _ _ _.
Arguments s_post {X A} _ _ _.
