(* ===== verification/PipeSpec.v ===== *)
(** * Pipes are first-in first-out queues (src/pipe.c)

    The ring buffer with its free-running 32-bit counters represents a queue of
    at most [PIPESIZE] bytes.  A writer and a reader that sleep and are resumed in
    any order transfer the bytes in order, none lost and none twice. *)

From S2P Require Import Prelude Mem CString State Mmu Spinlock Kalloc Vm Proc Sleeplock Rely Pipe.

(** ** The ring buffer *)

(** The buffer holds the bytes [q], the oldest first. *)
Record holds (pi : pipe) (q : list Z) : Prop := {
  ho_data : length (pi_data pi) = 512%nat;
  ho_nread : is_u32 (pi_nread pi);
  ho_room : (length q <= 512)%nat;
  ho_nwrite : pi_nwrite pi = u32 (pi_nread pi + length q);
  ho_bytes : ∀ (i : nat) c, q !! i = Some c → pi_data pi !! Z.to_nat ((pi_nread pi + i) mod 512) = Some c
}.

Lemma u32_mod_512 z : u32 z mod 512 = z mod 512.
Proof. unfold u32. apply Z.mod_mod_divide. by exists 8388608. Qed.

Lemma holds_full pi q : holds pi q → pipe_full pi = bool_decide (length q = 512%nat).
Proof.
  intros [_ Hr Hl Hw _]. unfold pipe_full, PIPESIZE. rewrite Hw. unfold is_u32, u32 in *.
  apply eq_true_iff_eq. rewrite Z.eqb_eq, bool_decide_eq_true. split; [|intros ->; by f_equal].
  intros H. apply Nat2Z.inj. rewrite <- (Z.mod_small (length q) 4294967296), <- (Z.mod_small (512%nat) 4294967296) by lia.
  replace (Z.of_nat (length q)) with (pi_nread pi + length q - pi_nread pi) by lia.
  replace (Z.of_nat 512) with (pi_nread pi + 512 - pi_nread pi) by lia.
  rewrite Zminus_mod, H, <- Zminus_mod. done.
Qed.

Lemma holds_empty pi q : holds pi q → pipe_empty pi = bool_decide (q = []).
Proof.
  intros [_ Hr Hl Hw _]. unfold pipe_empty. rewrite Hw. unfold is_u32, u32 in *.
  apply eq_true_iff_eq. rewrite Z.eqb_eq, bool_decide_eq_true. split.
  - intros H. apply length_zero_iff_nil. apply Nat2Z.inj.
    rewrite <- (Z.mod_small (length q) 4294967296) by lia.
    replace (Z.of_nat (length q)) with (pi_nread pi + length q - pi_nread pi) by lia.
    rewrite Zminus_mod, <- H, (Z.mod_small (pi_nread pi)) by lia. by rewrite Z.sub_diag.
  - intros ->. cbn [length]. rewrite Z.add_0_r. by rewrite Z.mod_small.
Qed.

Lemma holds_put pi q c : holds pi q → (length q < 512)%nat → holds (pipe_put c pi) (q ++ [c]).
Proof.
  intros [Hd Hr _ Hw Hb] Hl. unfold pipe_put, PIPESIZE. split; cbn [set_pi_nwrite set_pi_data pi_data pi_nread pi_nwrite].
  - by rewrite length_insert.
  - done.
  - rewrite length_app. simpl. lia.
  - rewrite Hw, length_app. autorewrite with u32. f_equal. simpl. lia.
  - intros i x Hi. rewrite Hw, u32_mod_512.
    assert (∀ j, (Z.to_nat (j mod 512) < 512)%nat) as Hmod by (intros j; pose proof (Z.mod_pos_bound j 512); lia).
    destruct (decide (i = length q)) as [->|Hne].
    + rewrite lookup_app_r, Nat.sub_diag in Hi by lia. simplify_eq/=.
      rewrite list_lookup_insert_eq; [done|]. by rewrite Hd.
    + assert (i < length (q ++ [c]))%nat as Hlt by (by eapply lookup_lt_Some). rewrite length_app in Hlt. simpl in Hlt.
      rewrite lookup_app_l in Hi by lia. rewrite list_lookup_insert_ne; [by apply Hb|].
      intros Heq. apply Z2Nat.inj in Heq; [|apply Z.mod_pos_bound; lia..].
      apply Hne. apply Nat2Z.inj. rewrite <- (Z.mod_small i 512), <- (Z.mod_small (length q) 512) by lia.
      replace (Z.of_nat i) with (pi_nread pi + i - pi_nread pi) by lia.
      replace (Z.of_nat (length q)) with (pi_nread pi + length q - pi_nread pi) by lia.
      by rewrite Zminus_mod, <- Heq, <- Zminus_mod.
Qed.

Lemma holds_get pi c q : holds pi (c :: q) → pipe_head pi = c ∧ holds (pipe_get pi) q.
Proof.
  intros [Hd Hr Hl Hw Hb]. cbn [length] in *. split.
  - unfold pipe_head, PIPESIZE. specialize (Hb O c eq_refl). rewrite Z.add_0_r in Hb. by apply list_lookup_total_correct.
  - unfold pipe_get. split; cbn [set_pi_nread pi_data pi_nread pi_nwrite]; [done|apply u32_range|lia| |].
    + rewrite Hw. autorewrite with u32. f_equal. lia.
    + intros i x Hi. rewrite Zplus_mod, u32_mod_512, <- Zplus_mod.
      replace (pi_nread pi + 1 + i) with (pi_nread pi + S i) by lia. by apply Hb.
Qed.

(** ** Writers and readers *)

(** The history of a pipe: the bytes put so far, the bytes taken so far, and
    whether the write end is open. *)
Record history := mkHistory { h_sent : list Z; h_recv : list Z; h_wopen : bool }.

Section pipe.
Context (a : Z) (base stream : list Z).

(** The kernel state has the pipe [a] with this history; the bytes put start with
    [base] and are a prefix of [stream]. *)
Definition pipe_abs (x : history) (k : kernel) : Prop :=
  ∃ pi q, k_pipes k !! a = Some pi ∧ holds pi q ∧ h_sent x = h_recv x ++ q ∧ pi_writeopen pi = h_wopen x ∧
    base `prefix_of` h_sent x ∧ h_sent x `prefix_of` stream.

(** What a writer, and what a reader, does to the history. *)
Definition puts_only (x x' : history) : Prop :=
  h_recv x' = h_recv x ∧ h_sent x `prefix_of` h_sent x' ∧ (h_wopen x = false → h_wopen x' = false).
Definition takes_only (x x' : history) : Prop :=
  h_sent x' = h_sent x ∧ h_recv x `prefix_of` h_recv x' ∧ (h_wopen x = false → h_wopen x' = false).

#[export] Instance puts_only_refl : Reflexive puts_only.
Proof. by intros x. Qed.
#[export] Instance puts_only_trans : Transitive puts_only.
Proof. intros x y z (? & ? & ?) (? & ? & ?). split_and!; [congruence|by etrans|auto]. Qed.
#[export] Instance takes_only_refl : Reflexive takes_only.
Proof. by intros x. Qed.
#[export] Instance takes_only_trans : Transitive takes_only.
Proof. intros x y z (? & ? & ?) (? & ? & ?). split_and!; [congruence|by etrans|auto]. Qed.

Lemma pipe_abs_held x h k : pipe_abs x k → pipe_abs x (set_k_held h k).
Proof. done. Qed.
Lemma pipe_abs_ptable x t k : pipe_abs x k → pipe_abs x (set_k_ptable t k).
Proof. done. Qed.
Lemma pipe_abs_cur x c k : pipe_abs x k → pipe_abs x (set_k_cur c k).
Proof. done. Qed.

Lemma get_pipe_eq pi k : k_pipes k !! a = Some pi → get_pipe a k = Ret pi k.
Proof. intros H. unfold get_pipe, pipe_at, gets. by rewrite H. Qed.

Lemma killed_eq p h k : thread p h k → killed k = Ret (p_killed (proc_at k p)) k.
Proof. intros H. unfold killed. by mcall (curproc_eq _ _ _ H). Qed.

Lemma thread_pipes p h m k : thread p h k → thread p h (set_k_pipes m k).
Proof. intros [? ? ?]. by split. Qed.

Notation writer p := (rg pipe_abs p takes_only puts_only).
Notation reader p := (rg pipe_abs p puts_only takes_only).

Lemma wait_room_rg p fuel : ∀ x k, thread p [LPipe a] k → pipe_abs x k →
  writer p (λ ok x' k', thread p [LPipe a] k' ∧ takes_only x x' ∧ (ok = true → pipe_full (pipe_at k' a) = false))
    x (wait_room fuel a k).
Proof.
  induction fuel as [|fuel IH]; intros x k Hth Habs; cbn [wait_room];
    destruct Habs as (pi & q & Hpi & Hrest); pose proof (ex_intro _ pi (ex_intro _ q (conj Hpi Hrest)) : pipe_abs x k) as Habs;
    mcall (get_pipe_eq _ _ Hpi); destruct (pipe_full pi) eqn:Ef.
  2,4: (eapply rg_ret; [reflexivity|done|]; split_and!; [done|done|]; intros _; unfold pipe_at; by rewrite Hpi).
  - rewrite (bind_eq _ _ _ (if pi_readopen pi then p_killed (proc_at k p) else true) k) by
      (destruct (pi_readopen pi); [by apply (killed_eq _ _ _ Hth)|done]).
    destruct (if pi_readopen pi then _ else _); [|constructor].
    by eapply rg_ret; [reflexivity|done|].
  - rewrite (bind_eq _ _ _ (if pi_readopen pi then p_killed (proc_at k p) else true) k) by
      (destruct (pi_readopen pi); [by apply (killed_eq _ _ _ Hth)|done]).
    destruct (if pi_readopen pi then _ else _); [by eapply rg_ret; [reflexivity|done|]|].
    assert (LPtable ∉ k_held k) as Hn by (by rewrite (th_held _ _ _ Hth), list_elem_of_singleton).
    mcall (wakeup_eq (CPipeR a) k Hn).
    eapply rg_bind; [apply _|apply sleep_rg; [done|done|apply _|apply _|done|by apply thread_woken|by apply pipe_abs_ptable]|].
    intros [] x' k' Habs' [HR Hth']. eapply rg_weaken; [by apply IH|].
    intros ok x2 k2 (? & ? & ?). split_and!; [done|by etrans|done].
Qed.

Lemma pipewrite_loop_rg `{W : Wakeups} p src : ∀ x k, thread p [LPipe a] k → pipe_abs x k →
  h_sent x ++ src `prefix_of` stream →
  writer p (λ ok x' k', thread p [LPipe a] k' ∧ ∃ j, h_sent x' = h_sent x ++ take j src ∧ (ok = true → j = length src))
    x (pipewrite_loop a src k).
Proof.
  induction src as [|c src IH]; intros x k Hth Habs Hst; cbn [pipewrite_loop].
  { eapply rg_ret; [reflexivity|done|]. split; [done|]. exists O. by rewrite app_nil_r. }
  eapply rg_bind; [apply _|by apply wait_room_rg|].
  intros [] x1 k1 (pi & q & Hpi & Hh & Hq & Hwo & Hbase & Hpre) (Hth1 & (Hs & Hr & Hw1) & Hroom).
  2: { eapply rg_ret; [reflexivity|by exists pi, q|]. split; [done|]. exists O. by rewrite app_nil_r. }
  specialize (Hroom eq_refl). unfold pipe_at in Hroom. rewrite Hpi in Hroom. cbn in Hroom.
  rewrite (holds_full _ _ Hh) in Hroom. apply bool_decide_eq_false in Hroom.
  assert (length q < 512)%nat as Hlt by (pose proof (ho_room _ _ Hh); lia).
  unfold upd_pipe. mrun. set (x2 := mkHistory (h_sent x1 ++ [c]) (h_recv x1) (h_wopen x1)).
  assert (stream = stream ∧ h_sent x1 ++ [c] ++ src `prefix_of` stream) as [_ Hst1] by (split; [done|by rewrite Hs]).
  eapply (rg_step _ _ _ _ _ _ x2).
  { split_and!; [done| |done]. by eexists. }
  eapply rg_weaken; [apply IH|].
  - by apply thread_pipes.
  - exists (pipe_put c pi), (q ++ [c]). split_and!.
    + cbn [set_k_pipes k_pipes]. by rewrite lookup_alter_eq, Hpi.
    + by apply holds_put.
    + cbn [h_sent h_recv x2]. by rewrite Hq, app_assoc.
    + done.
    + cbn [h_sent x2]. etrans; [exact Hbase|]. by eexists.
    + cbn [h_sent x2]. rewrite app_assoc in Hst1. etrans; [|exact Hst1]. by eexists.
  - cbn [h_sent x2]. by rewrite <- app_assoc.
  - intros ok x3 k3 (Hth3 & j & Hj & Hok). split; [done|]. exists (S j).
    cbn [h_sent x2] in Hj. rewrite Hj, Hs, <- app_assoc. split; [done|]. intros ->. cbn [length]. by rewrite Hok.
Qed.

Lemma release_pipe_eq p k : thread p [LPipe a] k → release (LPipe a) k = Ret tt (set_k_held [] k).
Proof. intros [_ Hh _]. by rewrite (release_eq (LPipe a) k [] Hh (not_elem_of_nil _)). Qed.

Lemma pipewrite_rg `{W : Wakeups} p src x k : thread p [] k → pipe_abs x k → h_sent x ++ src `prefix_of` stream →
  writer p (λ r x' _, ∃ j, h_sent x' = h_sent x ++ take j src ∧ (r = -1 ∨ r = Z.of_nat (length src) ∧ j = length src))
    x (pipewrite a src k).
Proof.
  intros Hth Habs Hst. unfold pipewrite.
  mcall (acquire_eq (LPipe a) k ltac:(rewrite (th_held _ _ _ Hth); apply not_elem_of_nil)). rewrite (th_held _ _ _ Hth).
  eapply rg_bind; [apply _|by apply pipewrite_loop_rg; [by apply thread_held with []|..]|].
  intros ok x1 k1 Habs1 (Hth1 & j & Hj & Hok). destruct ok.
  - assert (LPtable ∉ k_held k1) as Hn by (by rewrite (th_held _ _ _ Hth1), list_elem_of_singleton).
    mcall (wakeup_eq (CPipeR a) k1 Hn).
    mcall (release_pipe_eq p (woken (CPipeR a) k1) (thread_woken _ _ _ _ Hth1)).
    eapply rg_ret; [reflexivity|done|]. exists j. split; [done|]. right. by rewrite Hok.
  - mcall (release_pipe_eq p k1 Hth1). eapply rg_ret; [reflexivity|done|]. exists j. by split; [|left].
Qed.

Lemma wait_data_rg p fuel : ∀ x k, thread p [LPipe a] k → pipe_abs x k →
  reader p (λ ok x' k', thread p [LPipe a] k' ∧ puts_only x x' ∧
      (ok = true → pipe_empty (pipe_at k' a) = false ∨ h_wopen x' = false))
    x (wait_data fuel a k).
Proof.
  induction fuel as [|fuel IH]; intros x k Hth Habs; cbn [wait_data];
    destruct Habs as (pi & q & Hpi & Hrest); pose proof (ex_intro _ pi (ex_intro _ q (conj Hpi Hrest)) : pipe_abs x k) as Habs;
    mcall (get_pipe_eq _ _ Hpi); destruct (pipe_empty pi && pi_writeopen pi) eqn:Ee.
  2,4: (eapply rg_ret; [reflexivity|done|]; split_and!; [done|done|]; intros _; unfold pipe_at; rewrite Hpi; cbn;
        destruct Hrest as (_ & _ & <- & _); destruct (pipe_empty pi); [right|by left]; by destruct (pi_writeopen pi)).
  - mcall (killed_eq _ _ _ Hth). destruct (p_killed _); [by eapply rg_ret; [reflexivity|done|]|constructor].
  - mcall (killed_eq _ _ _ Hth). destruct (p_killed _); [by eapply rg_ret; [reflexivity|done|]|].
    eapply rg_bind; [apply _|apply sleep_rg; [done|done|apply _|apply _|done|done|done]|].
    intros [] x' k' Habs' [HR Hth']. eapply rg_weaken; [by apply IH|].
    intros ok x2 k2 (? & ? & ?). split_and!; [done|by etrans|done].
Qed.

(** The copying loop does not sleep. *)
Lemma piperead_loop_eq n : ∀ x k, pipe_abs x k →
  ∃ bytes x' m, piperead_loop a n k = Ret bytes (set_k_pipes m k) ∧ pipe_abs x' (set_k_pipes m k) ∧
    takes_only x x' ∧ h_recv x' = h_recv x ++ bytes ∧ (length bytes <= n)%nat ∧ h_wopen x' = h_wopen x ∧
    (bytes = [] → n = O ∨ pipe_empty (pipe_at k a) = true).
Proof.
  induction n as [|n IH]; intros x k Habs.
  { exists [], x, (k_pipes k). rewrite app_nil_r. destruct k. split_and!; try done. by left. }
  destruct Habs as (pi & q & Hpi & Hh & Hq & Hwo & Hbase & Hpre). cbn [piperead_loop]. mcall (get_pipe_eq _ _ Hpi).
  unfold pipe_at at 1. rewrite Hpi. cbn [default]. rewrite (holds_empty _ _ Hh).
  destruct q as [|c q].
  { rewrite bool_decide_true by done. exists [], x, (k_pipes k). rewrite app_nil_r.
    split_and!; [by destruct k| |done|done|cbn; lia|done|intros _; right; cbn; by rewrite (holds_empty _ _ Hh)].
    exists pi, []. by destruct k. }
  rewrite bool_decide_false by done. destruct (holds_get _ _ _ Hh) as [Hc Hh'].
  unfold upd_pipe. mrun. set (x1 := mkHistory (h_sent x) (h_recv x ++ [c]) (h_wopen x)).
  destruct (IH x1 (set_k_pipes (alter pipe_get a (k_pipes k)) k)) as (bytes & x' & m & Hrun & Habs' & Ht & Hr & Hl & Hw & _).
  { exists (pipe_get pi), q. split_and!; [|done| |done|done|done].
    - cbn [set_k_pipes k_pipes]. by rewrite lookup_alter_eq, Hpi.
    - cbn [h_sent h_recv x1]. by rewrite Hq, <- app_assoc. }
  mcall Hrun. exists (pipe_head pi :: bytes), x', m. split_and!; [by destruct k|done| | |cbn; lia|done|done].
  - etrans; [|exact Ht]. split_and!; [done| |done]. by eexists.
  - rewrite Hr, Hc. cbn [h_recv x1]. by rewrite <- app_assoc.
Qed.

Lemma piperead_rg `{W : Wakeups} p n x k : thread p [] k → pipe_abs x k →
  reader p (λ r x' _, r.1 = -1 ∧ h_recv x' = h_recv x ∨
      r.1 = Z.of_nat (length r.2) ∧ h_recv x' = h_recv x ++ r.2 ∧ (length r.2 <= Z.to_nat n)%nat ∧
      (r.2 = [] → n <= 0 ∨ h_wopen x' = false))
    x (piperead a n k).
Proof.
  intros Hth Habs. unfold piperead.
  mcall (acquire_eq (LPipe a) k ltac:(rewrite (th_held _ _ _ Hth); apply not_elem_of_nil)). rewrite (th_held _ _ _ Hth).
  eapply rg_bind; [apply _|by apply wait_data_rg; [by apply thread_held with []|..]|].
  intros ok x1 k1 Habs1 (Hth1 & (Hr1 & _ & _) & Hok). destruct ok.
  - destruct (piperead_loop_eq (Z.to_nat n) x1 k1 Habs1) as (bytes & x2 & m & Hrun & Habs2 & Ht & Hr & Hl & Hw & Hnil).
    mcall Hrun. pose proof (thread_pipes _ _ m _ Hth1) as Hth2.
    assert (LPtable ∉ k_held (set_k_pipes m k1)) as Hn by (by rewrite (th_held _ _ _ Hth2), list_elem_of_singleton).
    mcall (wakeup_eq (CPipeW a) _ Hn).
    mcall (release_pipe_eq p _ (thread_woken _ _ (CPipeW a) _ Hth2)).
    eapply rg_ret; [exact Ht|done|]. right. cbn [fst snd]. split_and!; [done|by rewrite Hr, Hr1|done|].
    intros ->. rewrite Hw. destruct (Hnil eq_refl) as [?|He]; [left; lia|].
    destruct (Hok eq_refl) as [?|?]; [congruence|by right].
  - mcall (release_pipe_eq p k1 Hth1). eapply rg_ret; [reflexivity|done|]. by left.
Qed.
End pipe.

(** ** A writer and a reader under any schedule *)

(** A process in the kernel that the scheduler resumes and that then writes, or
    reads. *)
Definition write_thread `{W : Wakeups} (a : Z) (src : list Z) : K (Z * list Z) :=
  release LPtable ;;; r <- pipewrite a src ;; ret (r, []).
Definition read_thread `{W : Wakeups} (a n : Z) : K (Z * list Z) :=
  release LPtable ;;; piperead a n.

(** What the two threads achieve, from a pipe that holds [q]. *)
Definition writer_spec (w : nat) (q src : list Z) : spec (Z * list Z) :=
  mkSpec w takes_only puts_only (λ v x, v.1 = -1 ∨ v.1 = Z.of_nat (length src) ∧ h_sent x = q ++ src).
Definition reader_spec (r : nat) (n : Z) : spec (Z * list Z) :=
  mkSpec r puts_only takes_only (λ v x,
    v.1 = -1 ∧ h_recv x = [] ∨
    v.1 = Z.of_nat (length v.2) ∧ h_recv x = v.2 ∧ (length v.2 <= Z.to_nat n)%nat ∧
    (v.2 = [] → n <= 0 ∨ h_wopen x = false)).

Lemma pipe_specs_compatible w r q src n : compatible [writer_spec w q src; reader_spec r n].
Proof.
  split.
  - intros [|[|i]] s Hs; simplify_eq/=; split_and!; try apply _.
    + intros v x x' (Hs & _ & _) [?|[? ?]]; [by left|]. right. by rewrite Hs.
    + intros v x x' (Hr & _ & Hw) [[? ?]|(? & ? & ? & Hn)]; [left; by rewrite Hr|].
      right. rewrite Hr. split_and!; [done..|]. intros Hv. destruct (Hn Hv); [by left|right; auto].
  - intros [|[|i]] [|[|j]] s t Hne Hs Ht x x' HG; simplify_eq/=; done.
Qed.

Lemma pipe_threads_ok `{W : Wakeups} a w r q src n wo :
  all_ok (pipe_abs a q (q ++ src)) [writer_spec w q src; reader_spec r n] (mkHistory q [] wo)
    [Waiting (write_thread a src); Waiting (read_thread a n)].
Proof.
  constructor; [|constructor; [|constructor]]; intros x' k' HR Habs Hth; cbn [writer_spec reader_spec s_rely s_guar s_post s_proc] in *.
  - unfold write_thread. mcall (release_eq LPtable k' [] (th_held _ _ _ Hth) (not_elem_of_nil _)).
    eapply rg_bind; [apply _|apply pipewrite_rg; [by eapply thread_held|done|]|].
    { destruct HR as (Hs & _). by rewrite Hs. }
    intros v x1 k1 Habs1 (j & Hj & Hv). eapply rg_ret; [reflexivity|done|]. cbn [fst].
    destruct Hv as [->|[-> ->]]; [by left|right]. split; [done|]. destruct HR as (Hs & _).
    by rewrite Hj, Hs, firstn_all.
  - unfold read_thread. mcall (release_eq LPtable k' [] (th_held _ _ _ Hth) (not_elem_of_nil _)).
    eapply rg_weaken; [apply piperead_rg; [by eapply thread_held|done]|].
    intros v x1 k1 Hv. destruct HR as (Hr & _). rewrite Hr in Hv. exact Hv.
Qed.

(** C8: A pipe is a first-in first-out queue for a writer and a reader that
    sleep and are resumed in any order.  Neither panics; at every moment the bytes
    put so far are a prefix of those the writer was given, and they are exactly the
    bytes taken so far followed by those in the buffer; a write that returns
    [length src] has put all of [src], a read returns the bytes it has taken, and
    returns none only when it asked for none or the write end is closed.  The
    counters wrap around at 2^32 without effect. *)
Theorem pipe_fifo `{W : Wakeups} (a n : Z) (w r : nat) (k : kernel) (pi : pipe) (q src : list Z)
    (o : option (kernel * list (status (Z * list Z)))) :
  k_pipes k !! a = Some pi → holds pi q →
  reaches [w; r] (k, [Waiting (write_thread a src); Waiting (read_thread a n)]) o →
  ∃ k' ts pi' q' sent recv, o = Some (k', ts) ∧ k_pipes k' !! a = Some pi' ∧ holds pi' q' ∧
    q ++ sent = recv ++ q' ∧ sent `prefix_of` src ∧
    (∀ v, ts !! 0%nat = Some (Done v) → v.1 = -1 ∨ v.1 = Z.of_nat (length src) ∧ sent = src) ∧
    (∀ v, ts !! 1%nat = Some (Done v) →
       v.1 = -1 ∧ recv = [] ∨
       v.1 = Z.of_nat (length v.2) ∧ recv = v.2 ∧ (length v.2 <= Z.to_nat n)%nat ∧
       (v.2 = [] → n <= 0 ∨ pi_writeopen pi' = false)).
Proof.
  intros Hpi Hh Hre.
  destruct (interleave_safe (pipe_abs a q (q ++ src)) ltac:(done) ltac:(done) ltac:(done)
    [writer_spec w q src; reader_spec r n] (mkHistory q [] (pi_writeopen pi)) k
    [Waiting (write_thread a src); Waiting (read_thread a n)] o)
    as (k' & ts & x & -> & (pi' & q' & Hpi' & Hh' & Hq' & Hwo & [sent Hsent] & [s2 Hpre]) & Hall).
  { apply pipe_specs_compatible. }
  { exists pi, q. split_and!; [done|done|done|done|done|by eexists]. }
  { apply pipe_threads_ok. }
  { done. }
  exists k', ts, pi', q', sent, (h_recv x). split_and!; [done|done|done|by rewrite <- Hsent| | |].
  - rewrite Hsent, <- app_assoc in Hpre. apply app_inv_head in Hpre. by exists s2.
  - intros v Hv. destruct (Forall2_lookup_r _ _ _ _ _ Hall Hv) as (s & [= <-] & Hok). cbn in Hok.
    destruct Hok as [?|[? Hs]]; [by left|right]. split; [done|]. rewrite Hsent in Hs. by apply app_inv_head in Hs.
  - intros v Hv. destruct (Forall2_lookup_r _ _ _ _ _ Hall Hv) as (s & [= <-] & Hok). cbn in Hok. by rewrite Hwo.
Qed.

(** A pipe whose counters are about to wrap around: the writer runs, then the
    reader. *)
Definition demo_pipe : kernel :=
  set_k_pipes {[4096 := mkPipe (replicate 512 0) 4294967295 4294967295 true true]} kernel0.
Definition dispatched (p : nat) (k : kernel) : kernel := set_k_cur (Some p) (set_k_held [LPtable] k).
Definition outcome {A} (r : result kernel A) : kernel := match r with Ret _ k => k | Swtch k _ => k | _ => kernel0 end.
Definition demo_wakeups : Wakeups := 1%nat.
Definition demo_written : kernel := outcome (write_thread (W := demo_wakeups) 4096 [7; 8] (dispatched 3 demo_pipe)).
Definition demo_read : kernel := outcome (read_thread (W := demo_wakeups) 4096 5 (dispatched 4 demo_written)).

Lemma dispatched_switched p k : switched k (dispatched p k).
Proof. exists (Some p), [LPtable], (k_ptable k). by destruct k. Qed.

Lemma demo_pipe_run :
  reaches [3; 4]%nat
    (demo_pipe, [Waiting (write_thread (W := demo_wakeups) 4096 [7; 8]); Waiting (read_thread (W := demo_wakeups) 4096 5)])
    (Some (demo_read, [Done (2, []); Done (2, [7; 8])])).
Proof.
  eapply re_step.
  { eapply (il_done _ 0 3 _ (dispatched 3 demo_pipe) demo_written _ (2, [])); [done|done|apply dispatched_switched| |].
    - split; [done|done|]. apply Nat.ltb_lt. vm_compute. reflexivity.
    - vm_compute. reflexivity. }
  eapply re_step.
  { eapply (il_done _ 1 4 _ (dispatched 4 demo_written) demo_read _ (2, [7; 8])); [done|done|apply dispatched_switched| |].
    - split; [done|done|]. apply Nat.ltb_lt. vm_compute. reflexivity.
    - vm_compute. reflexivity. }
  apply re_refl.
Qed.

Lemma pipe_fifo_witness :
  ∃ k' ts pi' q' sent recv,
    Some (demo_read, [Done (2, []); Done (2, [7; 8])]) = Some (k', ts) ∧
    k_pipes k' !! 4096 = Some pi' ∧ holds pi' q' ∧ [] ++ sent = recv ++ q' ∧ sent `prefix_of` [7; 8] ∧
    (∀ v, ts !! 0%nat = Some (Done v) → v.1 = -1 ∨ v.1 = Z.of_nat (length [7; 8]) ∧ sent = [7; 8]) ∧
    (∀ v, ts !! 1%nat = Some (Done v) →
       v.1 = -1 ∧ recv = [] ∨
       v.1 = Z.of_nat (length v.2) ∧ recv = v.2 ∧ (length v.2 <= Z.to_nat 5)%nat ∧
       (v.2 = [] → 5 <= 0 ∨ pi_writeopen pi' = false)).
Proof.
  apply (pipe_fifo (W := demo_wakeups) 4096 5 3 4 demo_pipe (mkPipe (replicate 512 0) 4294967295 4294967295 true true) [] [7; 8]).
  - reflexivity.
  - split; [reflexivity|by vm_compute|apply Nat.le_0_l|reflexivity|].
    intros i c Hc. by rewrite lookup_nil in Hc.
  - exact demo_pipe_run.
Defined.
