(* ===== verification/File.v ===== *)
(** * Open files (src/file.c) and the making of pipes (src/pipe.c) *)

From S2P Require Import Prelude Mem CString State Mmu Spinlock Kalloc Vm Proc Sleeplock Disk Bio Log Fs Pipe.

Definition upd_f (f : nat) (g : file → file) : K unit := modify (upd_file f g).
Definition get_file (f : nat) : K file := gets (λ k, file_at k f).

(** A pointer that is followed. *)
Definition deref {A} (o : option A) : K A :=
  match o with Some a => ret a | None => panic "null dereference" end.

Definition filealloc : K (option nat) :=
  acquire LFtable ;;;
  o <- gets (λ k, find_index (λ f, f_ref f =? 0) (k_ftable k)) ;;
  match o with
  | Some f => upd_f f (set_f_ref 1) ;;; release LFtable ;;; ret (Some f)
  | None => release LFtable ;;; ret None
  end.

Definition filedup (f : nat) : K nat :=
  acquire LFtable ;;;
  ff <- get_file f ;;
  if f_ref ff <? 1 then panic "filedup"
  else
    upd_f f (λ x, set_f_ref (f_ref x + 1) x) ;;;
    release LFtable ;;;
    ret f.

(** [sizeof(struct spinlock)], the offset of [data] in a [struct pipe]. *)
Definition PIPE_DATA : Z := 52.

Section file.
Context `{W : Wakeups} `{D : DiskDriver} `{DV : Devsw} `{L : Layout}.

Definition fileclose (f : nat) : K unit :=
  acquire LFtable ;;;
  x <- get_file f ;;
  if f_ref x <? 1 then panic "fileclose"
  else
    upd_f f (λ x, set_f_ref (f_ref x - 1) x) ;;;
    ff <- get_file f ;;
    if f_ref ff >? 0 then release LFtable
    else
      upd_f f (λ x, set_f_type FD_NONE (set_f_ref 0 x)) ;;;
      release LFtable ;;;
      match f_type ff with
      | FD_PIPE => pipeclose (f_pipe ff) (f_writable ff)
      | FD_INODE => begin_op ;;; ip <- deref (f_ip ff) ;; iput ip ;;; end_op
      | FD_NONE => ret tt
      end.

(** [Some st] for 0, [None] for -1. *)
Definition filestat (f : nat) : K (option stat) :=
  x <- get_file f ;;
  match f_type x with
  | FD_INODE =>
      ip <- deref (f_ip x) ;;
      ilock ip ;;;
      st <- stati ip ;;
      iunlock ip ;;;
      ret (Some st)
  | _ => ret None
  end.

Definition fileread (f : nat) (n : Z) : K (Z * list Z) :=
  x <- get_file f ;;
  if negb (f_readable x) then ret (-1, [])
  else
    match f_type x with
    | FD_PIPE => piperead (f_pipe x) n
    | FD_INODE =>
        ip <- deref (f_ip x) ;;
        ilock ip ;;;
        off <- gets (λ k, f_off (file_at k f)) ;;
        r <- readi ip off (u32 n) ;;
        when (r.1 >? 0) (upd_f f (λ x, set_f_off (u32 (f_off x + r.1)) x)) ;;;
        iunlock ip ;;;
        ret r
    | FD_NONE => panic "fileread"
    end.

(** The most bytes [filewrite] writes in one transaction. *)
Definition filewrite_max : nat := Z.to_nat (((MAXOPBLOCKS - 1 - 1 - 2) / 2) * 512).

(** The loop of [filewrite]: [true] when every byte has been written. *)
Fixpoint filewrite_loop (fuel : nat) (f ip : nat) (src : list Z) : K bool :=
  match src with
  | [] => ret true
  | _ :: _ =>
      match fuel with
      | O => λ _, Spin
      | S fuel =>
          let chunk := take filewrite_max src in
          begin_op ;;;
          ilock ip ;;;
          off <- gets (λ k, f_off (file_at k f)) ;;
          r <- writei ip chunk off ;;
          when (r >? 0) (upd_f f (λ x, set_f_off (u32 (f_off x + r)) x)) ;;;
          iunlock ip ;;;
          end_op ;;;
          if r <? 0 then ret false
          else if negb (r =? length chunk) then panic "short filewrite"
          else filewrite_loop fuel f ip (drop filewrite_max src)
      end
  end.

Definition filewrite (f : nat) (src : list Z) : K Z :=
  x <- get_file f ;;
  if negb (f_writable x) then ret (-1)
  else
    match f_type x with
    | FD_PIPE => pipewrite (f_pipe x) src
    | FD_INODE =>
        ip <- deref (f_ip x) ;;
        ok <- filewrite_loop (length src) f ip src ;;
        ret (if ok : bool then Z.of_nat (length src) else -1)
    | FD_NONE => panic "filewrite"
    end.

(** [bad:] of [pipealloc]. *)
Definition pipealloc_bad (f0 f1 : option nat) : K (option (nat * nat)) :=
  match f0 with Some f => fileclose f | None => ret tt end ;;;
  match f1 with Some f => fileclose f | None => ret tt end ;;;
  ret None.

(** [Some (f0, f1)] for 0, [None] for -1. *)
Definition pipealloc : K (option (nat * nat)) :=
  o0 <- filealloc ;;
  match o0 with
  | None => pipealloc_bad None None
  | Some f0 =>
      o1 <- filealloc ;;
      match o1 with
      | None => pipealloc_bad (Some f0) None
      | Some f1 =>
          p <- kalloc ;;
          if p =? 0 then pipealloc_bad (Some f0) (Some f1)
          else
            modify (λ k, set_k_pipes (<[p := mkPipe (mem_bytes (k_mem k) (p + PIPE_DATA) (Z.to_nat PIPESIZE)) 0 0 true true]>
                                       (k_pipes k)) k) ;;;
            upd_f f0 (λ x, set_f_pipe p (set_f_writable false (set_f_readable true (set_f_type FD_PIPE x)))) ;;;
            upd_f f1 (λ x, set_f_pipe p (set_f_writable true (set_f_readable false (set_f_type FD_PIPE x)))) ;;;
            ret (Some (f0, f1))
      end
  end.
End file.
