(* ===== verification/FileSpec.v ===== *)
(** * Reading and writing open files (src/file.c: fileread, filewrite)

    The composition of the file layer, the inodes, the log, the buffer cache and
    the disk: what [read] and [write] do to the files on disk, and what a crash
    in the middle of a [write] leaves. *)

From stdpp Require Import functions.
From S2P Require Import Prelude Mem CString State Mmu Spinlock Kalloc Vm Proc Sleeplock Disk Bio BioSpec BioCorrect.
From S2P Require Import Log LogSpec LogCommit LogCrash LogTx LogCorrect Fs FsTx FsFile FsBmap FsDinode FsWrite FsRw FsInv Pipe File.

Section spec.
Context `{W : Wakeups} `{D : DiskDriver} `{DOk : !DiskDriverOk D} `{DV : Devsw} `{L : Layout}.
Context (sb : superblock) (pid : Z).
Implicit Types (k : kernel) (V : Z → list Z) (bl : list Z).

(** No system call is inside a transaction, and the disk holds [V]. *)
Definition fs_idle k V : Prop := fsx false sb k pid V [] ∅.

(** The file [f] is open on the inode [ip], which nobody has locked. *)
Record opened k V f ip : Prop := {
  op_slot : (f < length (k_ftable k))%nat;
  op_type : f_type (file_at k f) = FD_INODE;
  op_ip : f_ip (file_at k f) = Some ip;
  op_off : 0 <= f_off (file_at k f) <= i_size (inode_at k ip);
  op_ref : 1 <= i_ref (inode_at k ip);
  op_valid : i_valid (inode_at k ip) = true;
  op_lock : lk_locked (i_lock (inode_at k ip)) = false;
  op_sync : inode_sync sb k V ip
}.

(** ** States that differ elsewhere *)

Lemma fsx_ext {w} k k' V bl H :
  k_bcache k' = k_bcache k → k_disk k' = k_disk k → k_log k' = k_log k → k_sb k' = k_sb k → running k' pid →
  fsx w sb k pid V bl H → fsx w sb k' pid V bl H.
Proof using Type.
  intros E1 E2 E3 E4 Hr [[Hb Hl Ha Hbl He Hf Hi] Hsb Hout Hg]. split; rewrite ?E2, ?E3, ?E4; try done.
  split; rewrite ?E2, ?E3; try done. by apply (binv_ext k).
Qed.

Lemma fsx_running {w} k V bl H : fsx w sb k pid V bl H → running k pid.
Proof using Type. intros Hx. apply (bi_run _ _ _ _ _ (tx_inv _ _ _ _ _ _ _ (fx_tx _ _ _ _ _ _ _ Hx))). Qed.

Lemma fsx_upd_inode {w} k V bl H ip g : fsx w sb k pid V bl H → fsx w sb (upd_inode ip g k) pid V bl H.
Proof using Type. intros Hx. by apply fsx_icache. Qed.

Lemma fsx_upd_file {w} k V bl H f g : fsx w sb k pid V bl H → fsx w sb (upd_file f g k) pid V bl H.
Proof using Type. intros Hx. apply (fsx_ext k); [done..|exact (fsx_running k V bl H Hx)|done]. Qed.

Lemma fsx_woken {w} k V bl H c : fsx w sb k pid V bl H → fsx w sb (woken c k) pid V bl H.
Proof using Type.
  intros Hx. apply (fsx_ext k); [done..| |done]. eapply log_frame_running; [apply woken_frame|by eapply fsx_running].
Qed.

(** ** The lock of the inode *)

Lemma ilock_valid k ip : running k pid → 1 <= i_ref (inode_at k ip) → i_valid (inode_at k ip) = true →
  lk_locked (i_lock (inode_at k ip)) = false → (ip < length (k_icache k))%nat →
  ilock ip k = Ret tt (upd_inode ip (set_i_lock (mkSleeplock true pid)) k).
Proof using Type.
  intros Hr Href Hv Hl Hs. unfold ilock, get_inode. mrun. rewrite (proj2 (Z.ltb_ge _ _)) by lia.
  mcall (acquiresleep_eq k pid (SlInode ip) Hr Hl). cbn [sl_set].
  assert (inode_at (upd_inode ip (set_i_lock (mkSleeplock true pid)) k) ip = set_i_lock (mkSleeplock true pid) (inode_at k ip)) as ->.
  { by apply (inode_at_alter k (upd_inode ip _ k)). }
  cbn [i_valid set_i_lock]. by rewrite Hv.
Qed.

Lemma iunlock_held k ip : running k pid → 1 <= i_ref (inode_at k ip) → i_lock (inode_at k ip) = mkSleeplock true pid →
  iunlock ip k = Ret tt (woken (CInodeLock ip) (upd_inode ip (set_i_lock (mkSleeplock false 0)) k)).
Proof using Type.
  intros Hr Href Hl. unfold iunlock, get_inode. mcall (holdingsleep_eq k pid (SlInode ip) Hr). cbn [sl_at]. rewrite Hl.
  cbn [lk_locked lk_pid]. rewrite Z.eqb_refl. cbn [andb negb]. mrun. rewrite (proj2 (Z.ltb_ge _ _)) by lia.
  apply (releasesleep_eq k (SlInode ip)), Hr.
Qed.

(** ** Transactions *)

Lemma fs_begin_op k V : fs_idle k V → ∃ k', begin_op k = Ret tt k' ∧ fsx true sb k' pid V [] ∅ ∧ k_disk k' = k_disk k ∧ log_frame k k'.
Proof using Type.
  intros [Ht Hsb Hout Hg]. destruct (tx_begin_op _ _ k pid V [] ∅ Ht) as (k' & R & T & Dk & F & O).
  { rewrite (lg_n _ _ _ _ (tx_log _ _ _ _ _ _ _ Ht)), Hout. done. }
  exists k'. split_and!; [done| |done|done]. split; [done|by rewrite (log_frame_sb _ _ F)|by rewrite O, Hout|by rewrite Dk].
Qed.

(** The end of a transaction that started at [k] and is at [k2]. *)
Lemma fs_end_op k V k2 V2 bl :
  fs_idle k V → fsx true sb k2 pid V2 bl ∅ → k_disk k2 = k_disk k →
  i32 (sb_logstart (sb_of (V 1))) = sb_logstart sb → i32 (sb_nlog (sb_of (V 1))) = sb_nlog sb →
  ∃ k' V' ws, end_op k2 = Ret tt k' ∧ fs_idle k' V' ∧ same_fs sb V2 V' ∧ V' 1 = V 1 ∧ log_frame k2 k' ∧
    k_disk k' = do_writes (k_disk k) ws ∧ old_or_new (sb_logstart sb) (sb_nlog sb) (k_disk k) (k_disk k') V V'.
Proof using DOk.
  intros [Ht Hsb Hout Hg] [T2 Hsb2 Hout2 Hg2] Dk Hs1 Hs2.
  destruct (tx_end_op _ _ k2 pid V2 bl T2 Hout2) as (k' & R & T & D' & F & O). rewrite Dk in D'.
  pose proof (tx_staged _ _ k pid V k2 V2 bl Ht T2 Dk) as Hst. pose proof (commit_keeps _ _ V2 bl (sg_blocks _ _ _ _ _ _ Hst)) as Hk.
  eexists k', _, _. split_and!; [done| | | |done|exact D'|].
  - split; [exact T|by rewrite (log_frame_sb _ _ F)|by rewrite O|by rewrite D', do_writes_size].
  - destruct Hg as [[? ?] (? & ? & ?) ? [? ?]]. intros b Hb. apply Hk. unfold in_log. lia.
  - destruct Hg as [[? ?] _ _ _]. rewrite Hk by (unfold in_log; lia). apply (sg_same _ _ _ _ _ _ Hst), (sg_blocks _ _ _ _ _ _ Hst).
  - intros c kr Hc. rewrite D' in Hc |- *. destruct (commit_recovers _ _ k pid V V2 bl Ht Hst Hs1 Hs2 c kr Hc) as (kr' & Rr & Hon & Hnew).
    assert (∀ C, same_home (sb_logstart sb) (sb_nlog sb) C V2 →
      same_home (sb_logstart sb) (sb_nlog sb) C (apply_writes V2 (tx_writes (sb_logstart sb) V2 bl))) as Hto.
    { intros C HC b Hb. rewrite Hk by done. by apply HC. }
    exists kr'. split_and!; [done| |by intros E; apply Hto, Hnew]. destruct Hon as [?|?]; [by left|right; by apply Hto].
Qed.

(** The blocks of one chunk of [filewrite] fit. *)
Lemma chunk_turns off src : 0 <= off → (length src <= filewrite_max)%nat → turns off src <= 4.
Proof using Type.
  intros Ho Hl. change filewrite_max with 1536%nat in Hl. unfold turns. destruct src as [|c src]; [lia|].
  pose proof (nblocks_bound (off + length (c :: src))). pose proof (block_off off). lia.
Qed.

Lemma chunk_room off src : 0 <= off → (length src <= filewrite_max)%nat → 11 < sb_nlog sb → has_room sb [] (2 * turns off src + 1).
Proof using Type.
  intros Ho Hl Hn. pose proof (chunk_turns off src Ho Hl). assert (0 <= turns off src).
  { destruct (decide (src = [])) as [->|Hne]; [done|]. destruct (turn_end off src Ho Hne) as (_ & ? & _ & _ & ?). lia. }
  unfold has_room, cost, add_block. rewrite bool_decide_false by apply not_elem_of_nil. cbn. lia.
Qed.

(** ** Writing *)

(** [C] is [V] with [src] written at [off] in the file of the inode [inum]. *)
Definition file_after V (inum off : Z) (src : list Z) (C : Z → list Z) : Prop :=
  fs_ok sb C ∧ on_disk sb C inum = patch (on_disk sb V inum) (Z.to_nat off) src ∧
  (∀ j, live sb C j ↔ live sb V j) ∧ ∀ j, live sb V j → j ≠ inum → on_disk sb C j = on_disk sb V j.

Lemma file_after_refl V inum off : fs_ok sb V → file_after V inum off [] V.
Proof using Type. intros. split_and!; [done|by rewrite patch_nil|done|done]. Qed.

Lemma file_after_trans V inum off s1 V1 s2 V2 : 0 <= off <= length (on_disk sb V inum) →
  file_after V inum off s1 V1 → file_after V1 inum (off + length s1) s2 V2 → file_after V inum off (s1 ++ s2) V2.
Proof using Type.
  intros Ho (_ & P1 & L1 & O1) (K2 & P2 & L2 & O2). split_and!; [done| |by intros j; rewrite L2|].
  - rewrite P2, P1, <- patch_app by lia. f_equal. lia.
  - intros j Hj Hne. rewrite O2, O1; [done|done|done|by apply L1|done].
Qed.

Lemma file_after_same nb V inum off src V1 C :
  geom sb nb → live sb V inum → file_after V inum off src V1 → same_fs sb V1 C → file_after V inum off src C.
Proof using Type.
  intros Hg Hl (K1 & P1 & L1 & O1) Hs. split_and!.
  - by eapply same_fs_ok.
  - rewrite (same_fs_on_disk sb nb V1 C) by (done || by apply L1). done.
  - intros j. rewrite (same_fs_live sb V1 C) by done. apply L1.
  - intros j Hj Hne. rewrite (same_fs_on_disk sb nb V1 C) by (done || by apply L1). by apply O1.
Qed.

(** The state after [src] has been written through [f]. *)
Record wrote_file k V f ip (src : list Z) k' V' : Prop := {
  wf_idle : fs_idle k' V';
  wf_open : opened k' V' f ip;
  wf_inum : i_inum (inode_at k' ip) = i_inum (inode_at k ip);
  wf_file : file_at k' f = set_f_off (f_off (file_at k f) + length src) (file_at k f);
  wf_after : file_after V (i_inum (inode_at k ip)) (f_off (file_at k f)) src V';
  wf_files : ∀ g, g ≠ f → file_at k' g = file_at k g;
  wf_inodes : ∀ jp, jp ≠ ip → inode_at k' jp = inode_at k jp;
  wf_sb : V' 1 = V 1
}.

(** Room for a file of [size] bytes. *)
Definition enough k V ip (size : Z) : Prop :=
  let ino := inode_at k ip in
  need_all (i_addrs ino) (nblocks (i_size ino)) (nblocks (Z.max (i_size ino) size)) <= free_count sb V.

Lemma file_at_frame k k' : k_ftable k' = k_ftable k → file_at k' = file_at k.
Proof using Type. intros E. unfold file_at. by rewrite E. Qed.
Lemma inode_at_frame k k' : k_icache k' = k_icache k → inode_at k' = inode_at k.
Proof using Type. intros E. unfold inode_at. by rewrite E. Qed.

Lemma file_at_upd k f g j : (f < length (k_ftable k))%nat →
  file_at (upd_file f g k) j = if decide (j = f) then g (file_at k f) else file_at k j.
Proof using Type.
  intros Hf. unfold file_at, upd_file. cbn [k_ftable set_k_ftable]. case_decide as E; [subst j|].
  - by rewrite list_lookup_total_alter_eq.
  - by rewrite list_lookup_total_alter_ne.
Qed.

Lemma inode_at_upd k ip g jp : (ip < length (k_icache k))%nat →
  inode_at (upd_inode ip g k) jp = if decide (jp = ip) then g (inode_at k ip) else inode_at k jp.
Proof using Type.
  intros Hf. unfold inode_at, upd_inode. cbn [k_icache set_k_icache]. case_decide as E; [subst jp|].
  - by rewrite list_lookup_total_alter_eq.
  - by rewrite list_lookup_total_alter_ne.
Qed.

(** From [begin_op] to the return of [writei]. *)
Lemma write_locked k V f ip src :
  fs_idle k V → fs_ok sb V → opened k V f ip → 11 < sb_nlog sb → Forall is_byte src → (length src <= filewrite_max)%nat →
  f_off (file_at k f) + length src <= 140 * 512 → enough k V ip (f_off (file_at k f) + length src) →
  ∃ k2 k3 V3 bl3, (∀ c : Z → K bool, (begin_op ;;; ilock ip ;;;
      off <- gets (λ k, f_off (file_at k f)) ;; r <- writei ip src off ;; c r) k = c (Z.of_nat (length src)) k3) ∧
    fsx true sb k3 pid V3 bl3 ∅ ∧ inode_sync sb k2 V ip ∧ written sb k2 V ip (f_off (file_at k f)) src k3 V3 ∧
    k_disk k3 = k_disk k ∧ k_ftable k3 = k_ftable k ∧
    inode_at k2 ip = set_i_lock (mkSleeplock true pid) (inode_at k ip) ∧
    ∀ jp, jp ≠ ip → inode_at k2 jp = inode_at k jp.
Proof using DOk.
  intros Hx Hk [Oslot Oty Oip Ooff Oref Oval Olock Osync] Hn Hb Hl Hmax He. pose proof Osync as [Islot Idev Ity Iliv Ist].
  destruct (fs_begin_op k V Hx) as (k1 & R1 & X1 & D1 & F1).
  pose proof (log_frame_icache _ _ F1) as E1. pose proof (inode_at_frame _ _ E1) as Ei1.
  set (k2 := upd_inode ip (set_i_lock (mkSleeplock true pid)) k1).
  assert (ilock ip k1 = Ret tt k2) as R2.
  { apply ilock_valid; rewrite ?Ei1, ?E1; try done. by eapply fsx_running. }
  assert (∀ jp, inode_at k2 jp = if decide (jp = ip) then set_i_lock (mkSleeplock true pid) (inode_at k ip) else inode_at k jp) as Ei2.
  { intros jp. unfold k2. rewrite inode_at_upd by (by rewrite E1). by rewrite Ei1. }
  assert (length (k_icache k2) = length (k_icache k)) as El2 by (unfold k2, upd_inode; cbn; by rewrite length_alter, E1).
  assert (inode_sync sb k2 V ip) as S2.
  { split; rewrite ?Ei2, ?El2; destruct (decide (ip = ip)); done. }
  destruct (writei_spec sb pid k2 V [] ip (f_off (file_at k f)) src) as (k3 & V3 & bl3 & R3 & X3 & Wn).
  { by apply fsx_upd_inode. }
  { by apply inode_sync_file. }
  { rewrite Ei2, decide_True by done. done. }
  { done. } { done. }
  { rewrite Ei2, decide_True by done. exact He. }
  { apply chunk_room; [lia|done|done]. }
  exists k2, k3, V3, bl3.
  assert (k_ftable k2 = k_ftable k) as Ef2 by (unfold k2; cbn; by rewrite (log_frame_ftable _ _ F1)).
  split_and!; [|done|done|done| | | |].
  - intros c. mcall R1. mcall R2. mrun. rewrite (file_at_frame _ _ Ef2). mcall R3. done.
  - rewrite (wn_disk _ _ _ _ _ _ _ _ Wn). exact D1.
  - rewrite <- Ef2. exact (log_frame_ftable _ _ (wn_frame _ _ _ _ _ _ _ _ Wn)).
  - by rewrite Ei2, decide_True.
  - intros jp Hne. by rewrite Ei2, decide_False.
Qed.

(** The superblock on disk is the one in memory. *)
Definition sb_stored V : Prop :=
  i32 (sb_logstart (sb_of (V 1))) = sb_logstart sb ∧ i32 (sb_nlog (sb_of (V 1))) = sb_nlog sb.

(** What is left to do for a file of [size] bytes after the chunk. *)
Definition enough_kept k V ip k' V' : Prop := ∀ size, nblocks (i_size (inode_at k' ip)) <= nblocks (Z.max (i_size (inode_at k ip)) size) →
  i_size (inode_at k' ip) <= Z.max (i_size (inode_at k ip)) size → enough k V ip size → enough k' V' ip size.

Lemma inode_sync_lock k V ip k' V' l : inode_sync sb k V ip → same_fs sb V V' → length (k_icache k') = length (k_icache k) →
  inode_at k' ip = set_i_lock l (inode_at k ip) → inode_sync sb k' V' ip.
Proof using Type.
  intros [Hs Hd Ht Hl Hst] Hf El Ei. split; rewrite ?Ei, ?El; [done|done|done|by apply (same_fs_live sb V)|].
  cbn [i_inum set_i_lock]. rewrite (same_fs_stored sb V V') by (done || apply Hl). exact Hst.
Qed.

(** A write leaves the blocks that a longer file would still need. *)
Lemma enough_written k V ip k2 off src k3 V3 k' V' l l' :
  geom sb (d_size (k_disk k)) → written sb k2 V ip off src k3 V3 → same_fs sb V3 V' →
  inode_at k2 ip = set_i_lock l (inode_at k ip) → inode_at k' ip = set_i_lock l' (inode_at k3 ip) →
  i_size (inode_at k ip) <= i_size (inode_at k3 ip) → enough_kept k V ip k' V'.
Proof using Type.
  intros Hg Wn Hsame Ei2 Ei' Hle size Hsz Hsz2 Hen.
  pose proof (wn_free _ _ _ _ _ _ _ _ Wn (nblocks (Z.max (i_size (inode_at k ip)) size))) as Hfr.
  rewrite Ei2 in Hfr. unfold enough in *. rewrite Ei' in *. cbn [i_size i_addrs set_i_lock] in *.
  replace (Z.max (i_size (inode_at k3 ip)) size) with (Z.max (i_size (inode_at k ip)) size) by lia.
  rewrite (free_count_ext sb V3 V'); [by apply Hfr|]. apply Hsame. destruct Hg as [_ (? & ? & ?) _ _].
  pose proof (Z.div_pos (sb_ninodes sb) 8). unfold bmap_block. lia.
Qed.

(** One turn of the loop of [filewrite], a transaction. *)
Lemma filewrite_turn fuel k V f ip src :
  let chunk := take filewrite_max src in
  fs_idle k V → fs_ok sb V → opened k V f ip → 11 < sb_nlog sb → sb_stored V → src ≠ [] → Forall is_byte src →
  f_off (file_at k f) + length chunk <= 140 * 512 → enough k V ip (f_off (file_at k f) + length chunk) →
  ∃ k' V' ws, filewrite_loop (S fuel) f ip src k = filewrite_loop fuel f ip (drop filewrite_max src) k' ∧
    wrote_file k V f ip chunk k' V' ∧ enough_kept k V ip k' V' ∧ k_disk k' = do_writes (k_disk k) ws ∧
    i_size (inode_at k' ip) = Z.max (i_size (inode_at k ip)) (f_off (file_at k f) + length chunk) ∧
    old_or_new (sb_logstart sb) (sb_nlog sb) (k_disk k) (k_disk k') V V'.
Proof using DOk.
  intros chunk Hx Hk Ho Hn [Hs1 Hs2] Hne Hb Hmax He.
  assert (0 < length chunk) as Hlen.
  { unfold chunk. rewrite length_take. change filewrite_max with 1536%nat. destruct src; [done|]. cbn. lia. }
  destruct (write_locked k V f ip chunk Hx Hk Ho Hn) as (k2 & k3 & V3 & bl3 & R3 & X3 & S2 & Wn & D3 & Ef3 & Ei2 & Eo2).
  { by apply Forall_take. } { unfold chunk. rewrite length_take. lia. } { done. } { done. }
  pose proof Ho as [Oslot Oty Oip Ooff Oref Oval Olock Osync]. pose proof (wn_inode _ _ _ _ _ _ _ _ Wn) as [addrs' Ei3].
  pose proof (fi_slot _ _ _ _ (wn_file _ _ _ _ _ _ _ _ Wn)) as Hslot3.
  destruct (written_files sb k2 V ip (f_off (file_at k f)) chunk k3 V3 Hk S2) as (K3 & S3 & P3 & L3 & O3); [by rewrite Ei2|done|].
  rewrite Ei2 in Ei3, P3, O3. cbn [i_size i_inum set_i_lock] in Ei3, P3, O3.
  set (k4 := upd_file f (λ x, set_f_off (u32 (f_off x + length chunk)) x) k3).
  set (k5 := woken (CInodeLock ip) (upd_inode ip (set_i_lock (mkSleeplock false 0)) k4)).
  assert (fsx true sb k5 pid V3 bl3 ∅) as X5 by (by apply fsx_woken, fsx_upd_inode, fsx_upd_file).
  assert (iunlock ip k4 = Ret tt k5) as R5.
  { apply iunlock_held; [by eapply (fsx_running k3)|by change (1 <= i_ref (inode_at k3 ip)); rewrite Ei3|].
    change (i_lock (inode_at k3 ip) = mkSleeplock true pid). by rewrite Ei3. }
  destruct (fs_end_op k V k5 V3 bl3 Hx X5 D3 Hs1 Hs2) as (k' & V' & ws & R' & X' & Hsame & Esb & F' & D' & Hcr).
  assert (∀ jp, inode_at k' jp = if decide (jp = ip) then set_i_lock (mkSleeplock false 0) (inode_at k3 ip) else inode_at k3 jp) as Ei'.
  { intros jp. rewrite (inode_at_frame k5 k') by (by apply log_frame_icache). by apply (inode_at_upd k4). }
  assert (k_ftable k5 = k_ftable k4) as Ef5 by done.
  assert (∀ g, file_at k' g = if decide (g = f) then set_f_off (u32 (f_off (file_at k f) + length chunk)) (file_at k f) else file_at k g) as Ef'.
  { intros g. rewrite (file_at_frame k5 k') by (by apply log_frame_ftable). rewrite (file_at_frame k4 k5) by done.
    unfold k4. rewrite file_at_upd by (by rewrite Ef3). by rewrite !(file_at_frame k k3). }
  rewrite u32_small in Ef' by (unfold is_u32; lia). pose proof (fx_geom _ _ _ _ _ _ _ Hx) as Hg.
  pose proof Osync as [Islot Idev Ity Iliv Ist].
  exists k', V', ws. split_and!; [|split|..].
  - cbn [filewrite_loop]. destruct src as [|c src]; [done|]. fold chunk. rewrite R3.
    rewrite Z.gtb_ltb, (proj2 (Z.ltb_lt _ _)) by lia. cbn [when]. unfold upd_f at 1. mrun. fold k4. mcall R5. mcall R'.
    rewrite (proj2 (Z.ltb_ge _ _)), Z.eqb_refl by lia. done.
  - done.
  - split; rewrite ?Ei', ?Ef', ?(decide_True (P := f = f)), ?(decide_True (P := ip = ip)) by done; cbn [f_type f_ip f_off set_f_off]; try done.
    + rewrite (log_frame_ftable _ _ F'). unfold k5, k4, woken, upd_inode, upd_file. cbn [k_ftable set_k_ftable set_k_icache set_k_ptable].
      by rewrite length_alter, Ef3.
    + rewrite Ei3. cbn. lia.
    + by rewrite Ei3.
    + by rewrite Ei3.
    + eapply (inode_sync_lock k3 V3); [done|done| |by rewrite Ei', decide_True by done]. rewrite (log_frame_icache _ _ F'). apply length_alter.
  - by rewrite Ei', decide_True, Ei3 by done.
  - by rewrite Ef', decide_True by done.
  - eapply file_after_same; [exact Hg|done| |exact Hsame]. by split_and!.
  - intros g Hg'. by rewrite Ef', decide_False.
  - intros jp Hj. rewrite Ei', decide_False by done. rewrite (wn_icache _ _ _ _ _ _ _ _ Wn) by done. by apply Eo2.
  - done.
  - eapply (enough_written k V ip k2 _ chunk k3 V3 k' V'); [exact Hg|exact Wn|exact Hsame|by rewrite Ei2|by rewrite Ei', decide_True by done|].
    rewrite Ei3. cbn. lia.
  - done.
  - by rewrite Ei', decide_True, Ei3 by done.
  - done.
Qed.

(** ** Crashes in the middle of a write *)

(** Whatever a crash on the way from [d] to [d'] leaves, the recovery makes [P] of it. *)
Definition recovers (d d' : disk) (P : (Z → list Z) → Prop) : Prop :=
  ∀ c kr, booted_after_crash d d' c kr → ∃ kr', initlog ROOTDEV kr = Ret tt kr' ∧ P (disk_block (k_disk kr')).

Lemma recovers_mono d d' P Q : (∀ C, P C → Q C) → recovers d d' P → recovers d d' Q.
Proof using Type. intros HPQ HP c kr Hc. destruct (HP c kr Hc) as (kr' & R & H). exists kr'. auto. Qed.

Lemma recovers_trans d ws1 ws2 P :
  recovers d (do_writes d ws1) P → recovers (do_writes d ws1) (do_writes (do_writes d ws1) ws2) P →
  recovers d (do_writes (do_writes d ws1) ws2) P.
Proof using Type.
  intros H1 H2 c kr (c' & pidr & Hc & Hcs & Hrb). rewrite <- do_writes_app, crash_of_writes in Hc.
  destruct Hc as (pre & [Hpre|(pre2 & -> & Hpre2)]%prefix_app_cases & ->).
  - apply (H1 (do_writes d pre)). exists c', pidr. split_and!; [|done|done]. apply crash_of_writes. by exists pre.
  - apply (H2 (do_writes d (ws1 ++ pre2))). exists c', pidr. split_and!; [|done|done]. apply crash_of_writes. exists pre2.
    split; [done|]. apply do_writes_app.
Qed.

Lemma old_or_new_recovers d d' V V' nb P : geom sb nb →
  (∀ C, same_fs sb V C → P C) → (∀ C, same_fs sb V' C → P C) → old_or_new (sb_logstart sb) (sb_nlog sb) d d' V V' → recovers d d' P.
Proof using Type.
  intros [[? ?] (? & ? & ?) _ _] HV HV' Hon c kr Hc. destruct (Hon c kr Hc) as (kr' & R & Hs & _). exists kr'. split; [done|].
  destruct Hs as [Hs|Hs]; [apply HV|apply HV']; intros b Hb; apply Hs; unfold in_log; lia.
Qed.

(** Some first part of [src] has been written. *)
Definition partly V (inum off : Z) (src : list Z) (C : Z → list Z) : Prop :=
  ∃ n, (n <= length src)%nat ∧ file_after V inum off (take n src) C.

Lemma opened_length k V f ip : opened k V f ip → length (on_disk sb V (i_inum (inode_at k ip))) = Z.to_nat (i_size (inode_at k ip)).
Proof using Type. intros [_ _ _ _ _ _ _ [_ _ _ _ Hst]]. by rewrite length_on_disk, Hst. Qed.

Lemma opened_bound k V f ip : fs_ok sb V → opened k V f ip →
  0 <= f_off (file_at k f) <= length (on_disk sb V (i_inum (inode_at k ip))).
Proof using Type. intros Hk Ho. rewrite (opened_length _ _ _ _ Ho). destruct Ho as [_ _ _ ? _ _ _ _]. lia. Qed.

Lemma wrote_file_trans k V f ip s1 k1 V1 s2 k2 V2 : fs_ok sb V → opened k V f ip →
  wrote_file k V f ip s1 k1 V1 → wrote_file k1 V1 f ip s2 k2 V2 → wrote_file k V f ip (s1 ++ s2) k2 V2.
Proof using Type.
  intros Hk Ho [_ _ N1 E1 A1 G1 I1 B1] [X2 O2 N2 E2 A2 G2 I2 B2]. rewrite N1 in *. rewrite E1 in *. cbn [f_off set_f_off] in *.
  split; [done|done|congruence| | | | |congruence].
  - rewrite E2, length_app, Nat2Z.inj_add, Z.add_assoc. by destruct (file_at k f).
  - eapply file_after_trans; [by apply (opened_bound k)|done|done].
  - intros g Hg. by rewrite G2, G1.
  - intros jp Hj. by rewrite I2, I1.
Qed.

Lemma wrote_file_nil k V f ip : fs_idle k V → fs_ok sb V → opened k V f ip → wrote_file k V f ip [] k V.
Proof using Type.
  intros Hx Hk Ho. split; try done; [|by apply file_after_refl]. cbn [length]. rewrite Z.add_0_r. by destruct (file_at k f).
Qed.

Lemma partly_later V inum off s1 V1 s2 C : 0 <= off <= length (on_disk sb V inum) →
  file_after V inum off s1 V1 → partly V1 inum (off + length s1) s2 C → partly V inum off (s1 ++ s2) C.
Proof using Type.
  intros Ho H1 (n & Hn & H2). exists (length s1 + n)%nat. rewrite length_app, take_app_add. split; [lia|].
  by eapply file_after_trans.
Qed.

Lemma enough_le k V ip a b : enough k V ip b → a <= b → 0 <= b → enough k V ip a.
Proof using Type.
  unfold enough, need_all. intros He Ha _. set (ino := inode_at k ip) in *.
  pose proof (nblocks_le (Z.max (i_size ino) a) (Z.max (i_size ino) b) ltac:(lia)).
  destruct (Z.ltb_spec 12 (nblocks (Z.max (i_size ino) a))), (Z.ltb_spec 12 (nblocks (Z.max (i_size ino) b))),
    (ind (i_addrs ino) =? 0); cbn [andb] in *; lia.
Qed.

Lemma filewrite_loop_nil fuel k V f ip : fs_idle k V → fs_ok sb V → opened k V f ip → sb_stored V →
  ∃ k' V' ws, filewrite_loop fuel f ip [] k = Ret true k' ∧ wrote_file k V f ip [] k' V' ∧ k_disk k' = do_writes (k_disk k) ws ∧
    recovers (k_disk k) (k_disk k') (partly V (i_inum (inode_at k ip)) (f_off (file_at k f)) []).
Proof using W DOk.
  intros Hx Hk Ho [Hs1 Hs2]. pose proof (fx_tx _ _ _ _ _ _ _ Hx) as Ht. pose proof (fx_geom _ _ _ _ _ _ _ Hx) as Hg.
  exists k, V, []. split_and!; [by destruct fuel|by apply wrote_file_nil|done|].
  pose proof (commit_recovers _ _ k pid V V [] Ht (tx_staged _ _ k pid V k V [] Ht Ht eq_refl) Hs1 Hs2) as Hon.
  assert (∀ C, same_fs sb V C → partly V (i_inum (inode_at k ip)) (f_off (file_at k f)) [] C) as HP.
  { intros C HC. exists 0%nat. split; [done|]. eapply file_after_same; [exact Hg|apply Ho|by apply file_after_refl|done]. }
  by eapply old_or_new_recovers.
Qed.

Lemma filewrite_loop_spec fuel : ∀ k V f ip src,
  fs_idle k V → fs_ok sb V → opened k V f ip → 11 < sb_nlog sb → sb_stored V → Forall is_byte src → (length src <= fuel)%nat →
  f_off (file_at k f) + length src <= 140 * 512 → enough k V ip (f_off (file_at k f) + length src) →
  ∃ k' V' ws, filewrite_loop fuel f ip src k = Ret true k' ∧ wrote_file k V f ip src k' V' ∧ k_disk k' = do_writes (k_disk k) ws ∧
    recovers (k_disk k) (k_disk k') (partly V (i_inum (inode_at k ip)) (f_off (file_at k f)) src).
Proof using DOk.
  induction fuel as [|fuel IH]; intros k V f ip src Hx Hk Ho Hn Hsb Hb Hfu Hmax He;
    (destruct (decide (src = [])) as [->|Hne]; [apply (filewrite_loop_nil _ k V f ip Hx Hk Ho Hsb)|]).
  { destruct src; [done|cbn in Hfu; lia]. }
  pose proof (opened_bound _ _ _ _ Hk Ho) as Hbd. pose proof (op_off _ _ _ _ Ho) as Hoff.
  set (chunk := take filewrite_max src). set (rest := drop filewrite_max src).
  assert (src = chunk ++ rest) as Esrc by (unfold chunk, rest; by rewrite take_drop).
  assert (length src = length chunk + length rest)%nat as Elen by (rewrite Esrc; apply length_app).
  assert (length rest < length src)%nat as Hlt.
  { unfold rest. rewrite length_drop. change filewrite_max with 1536%nat. destruct src; [done|cbn; lia]. }
  destruct (filewrite_turn fuel k V f ip src Hx Hk Ho Hn Hsb Hne Hb) as (k1 & V1 & ws1 & R1 & W1 & N1 & D1 & S1 & C1); fold chunk.
  { lia. } { eapply enough_le; [exact He|lia|lia]. }
  fold chunk rest in R1, W1, S1. pose proof (wf_file _ _ _ _ _ _ _ W1) as Ef1.
  destruct (IH k1 V1 f ip rest) as (k2 & V2 & ws2 & R2 & W2 & D2 & C2).
  { apply W1. } { apply W1. } { apply W1. } { done. } { unfold sb_stored. by rewrite (wf_sb _ _ _ _ _ _ _ W1). }
  { by apply Forall_drop. } { lia. } { rewrite Ef1. cbn. lia. }
  { rewrite Ef1. cbn [f_off set_f_off]. replace (f_off (file_at k f) + length chunk + length rest) with (f_off (file_at k f) + length src) by lia.
    apply N1; [apply nblocks_le; lia|lia|done]. }
  exists k2, V2, (ws1 ++ ws2). rewrite R1, Esrc. split_and!; [done|by eapply wrote_file_trans|by rewrite D2, D1, do_writes_app|].
  rewrite D2, D1. apply recovers_trans; [rewrite <- D1|rewrite <- D1, <- D2].
  - eapply old_or_new_recovers; [apply (fx_geom _ _ _ _ _ _ _ Hx)| | |exact C1].
    + intros C HC. exists 0%nat. split; [lia|]. eapply file_after_same; [apply (fx_geom _ _ _ _ _ _ _ Hx)|apply Ho|by apply file_after_refl|done].
    + intros C HC. exists (length chunk). rewrite take_app_length. split; [rewrite length_app; lia|].
      eapply file_after_same; [apply (fx_geom _ _ _ _ _ _ _ Hx)|apply Ho|apply W1|done].
  - eapply recovers_mono; [|exact C2]. intros C HC. rewrite (wf_inum _ _ _ _ _ _ _ W1), Ef1 in HC. cbn [f_off set_f_off] in HC.
    eapply partly_later; [done|apply W1|done].
Qed.

(** C4: [filewrite] on a file that is open for writing, in a consistent file
    system with room for the bytes, writes all of [src] at the offset of the file,
    in as many transactions as it takes: the inode on disk then names the old
    contents with [src] patched in, the offset has moved past it, every other file
    on disk and every other entry of the file table and of the inode cache is as
    it was, and the file system is consistent and idle again.  If the machine
    stops anywhere on the way, and stops again during any number of recoveries,
    the next boot finds a consistent file system in which the file has some first
    part of [src] patched in and every other file is untouched. *)
Theorem filewrite_correct k V f ip src :
  fs_idle k V → fs_ok sb V → opened k V f ip → f_writable (file_at k f) = true → 11 < sb_nlog sb → sb_stored V →
  Forall is_byte src → f_off (file_at k f) + length src <= 140 * 512 → enough k V ip (f_off (file_at k f) + length src) →
  ∃ k' V', filewrite f src k = Ret (Z.of_nat (length src)) k' ∧ wrote_file k V f ip src k' V' ∧
    recovers (k_disk k) (k_disk k') (partly V (i_inum (inode_at k ip)) (f_off (file_at k f)) src).
Proof using DOk.
  intros Hx Hk Ho Hw Hn Hsb Hb Hmax He.
  destruct (filewrite_loop_spec (length src) k V f ip src Hx Hk Ho Hn Hsb Hb) as (k' & V' & ws & R & Hwf & _ & Hcr); [done|done|done|].
  exists k', V'. split_and!; [|done|done]. unfold filewrite, get_file. mrun. rewrite Hw, (op_type _ _ _ _ Ho), (op_ip _ _ _ _ Ho).
  cbn [negb deref]. mrun. mcall R. done.
Qed.

(** ** Reading *)

Lemma fbytes_slice V d off m : 0 <= off → off + m <= di_size d →
  fbytes V (di_addrs d) off (Z.to_nat m) = slice (dinode_data V d) (Z.to_nat off) (Z.to_nat m).
Proof using Type.
  intros Ho Hm. unfold slice, dinode_data. apply list_total_eq; rewrite length_fbytes.
  - rewrite length_take, length_drop, length_fbytes. lia.
  - intros i Hi. rewrite lookup_fbytes by done. rewrite lookup_total_take_lt, lookup_total_drop, lookup_fbytes by lia. f_equal. lia.
Qed.

(** The state after [m] bytes have been read through [f]. *)
Record read_file k V f ip (m : Z) k' : Prop := {
  rf_idle : fs_idle k' V;
  rf_open : opened k' V f ip;
  rf_file : file_at k' f = set_f_off (f_off (file_at k f) + m) (file_at k f);
  rf_files : ∀ g, g ≠ f → file_at k' g = file_at k g;
  rf_inode : inode_at k' ip = set_i_lock (mkSleeplock false 0) (inode_at k ip);
  rf_inodes : ∀ jp, jp ≠ ip → inode_at k' jp = inode_at k jp;
  rf_disk : k_disk k' = k_disk k
}.

Lemma upd_file_same f g k : (∀ x, k_ftable k !! f = Some x → g x = x) → upd_file f g k = k.
Proof using Type.
  intros Hg. unfold upd_file. replace (alter g f (k_ftable k)) with (k_ftable k); [by destruct k|].
  apply list_eq. intros j. destruct (decide (f = j)) as [<-|]; [|by rewrite list_lookup_alter_ne].
  rewrite list_lookup_alter_eq. destruct (k_ftable k !! f) as [x|] eqn:E; [|done]. cbn. by rewrite (Hg x).
Qed.

(** The offset moves by what has been read. *)
Lemma advance k f m : 0 <= m → is_u32 (f_off (file_at k f) + m) →
  when (m >? 0) (upd_f f (λ x, set_f_off (u32 (f_off x + m)) x)) k = Ret tt (upd_file f (set_f_off (f_off (file_at k f) + m)) k).
Proof using Type.
  intros Hm Hu. assert (∀ x, k_ftable k !! f = Some x → file_at k f = x) as Hat.
  { intros x Hx. unfold file_at. by rewrite (list_lookup_total_correct _ _ _ Hx). }
  destruct (Z.eq_dec m 0) as [->|Hne].
  - cbn [when]. rewrite upd_file_same; [done|]. intros x Hx. rewrite (Hat x Hx), Z.add_0_r. by destruct x.
  - rewrite Z.gtb_ltb, (proj2 (Z.ltb_lt _ _)) by lia. unfold upd_f, modify. cbn [when]. f_equal. unfold upd_file. f_equal.
    apply list_alter_ext; [|done]. intros x Hx. by rewrite <- (Hat x Hx), u32_small.
Qed.

(** C10: [fileread] on a file that is open for reading, in a consistent file
    system, returns the bytes of the file on disk from the offset on, as many as
    were asked for or as there are, and moves the offset past them; it changes no
    file, no block of the disk, and no other entry of the file table or of the
    inode cache. *)
Theorem fileread_correct k V f ip n :
  fs_idle k V → fs_ok sb V → opened k V f ip → f_readable (file_at k f) = true → 11 < sb_nlog sb → 0 <= n < 2 ^ 31 →
  let off := f_off (file_at k f) in let m := Z.min n (i_size (inode_at k ip) - off) in
  ∃ k', fileread f n k = Ret (m, slice (on_disk sb V (i_inum (inode_at k ip))) (Z.to_nat off) (Z.to_nat m)) k' ∧
    read_file k V f ip m k'.
Proof using DOk.
  intros Hx Hk Ho Hrd Hnl Hn off m. pose proof Ho as [Oslot Oty Oip Ooff Oref Oval Olock Osync]. fold off in Ooff.
  pose proof Osync as [Islot Idev Ity Iliv Ist]. pose proof (fi_size _ _ _ _ (inode_sync_file _ _ _ _ Hk Osync)) as Hsz.
  set (k1 := upd_inode ip (set_i_lock (mkSleeplock true pid)) k).
  assert (ilock ip k = Ret tt k1) as R1 by (apply ilock_valid; try done; by eapply fsx_running).
  assert (inode_at k1 ip = set_i_lock (mkSleeplock true pid) (inode_at k ip)) as Ei1.
  { unfold k1. rewrite inode_at_upd by done. by rewrite decide_True. }
  assert (inode_sync sb k1 V ip) as S1 by (eapply (inode_sync_lock k V); [done|done|apply length_alter|done]).
  destruct (readi_spec (w := false) sb pid k1 V [] ip off n) as (k2 & R2 & X2 & D2 & F2).
  { by apply fsx_upd_inode. } { by apply inode_sync_file. } { split_and!; cbn; lia. } { lia. } { lia. } { lia. }
  rewrite Ei1 in R2. cbn [i_size i_addrs set_i_lock] in R2. rewrite decide_True in R2 by lia. fold m in R2.
  pose proof (log_frame_icache _ _ F2) as Ec2. pose proof (inode_at_frame _ _ Ec2) as Ei2.
  pose proof (log_frame_ftable _ _ F2 : k_ftable k2 = k_ftable k) as Ef2.
  assert (length (k_icache k2) = length (k_icache k)) as El2 by (rewrite Ec2; apply length_alter).
  pose proof (advance k2 f m) as R3. rewrite (file_at_frame _ _ Ef2) in R3. fold off in R3.
  set (k3 := upd_file f (set_f_off (off + m)) k2) in *. set (k4 := woken (CInodeLock ip) (upd_inode ip (set_i_lock (mkSleeplock false 0)) k3)).
  assert (iunlock ip k3 = Ret tt k4) as R4.
  { apply iunlock_held; [by eapply (fsx_running k2)|by change (1 <= i_ref (inode_at k2 ip)); rewrite Ei2, Ei1|].
    change (i_lock (inode_at k2 ip) = mkSleeplock true pid). by rewrite Ei2, Ei1. }
  assert (∀ jp, inode_at k4 jp = if decide (jp = ip) then set_i_lock (mkSleeplock false 0) (inode_at k ip) else inode_at k jp) as Ei4.
  { intros jp. unfold k4. change (inode_at (woken ?c ?x)) with (inode_at x). rewrite inode_at_upd by (change (k_icache k3) with (k_icache k2); by rewrite El2).
    change (inode_at k3) with (inode_at k2). rewrite Ei2, Ei1. case_decide; [done|]. unfold k1. by rewrite inode_at_upd, decide_False. }
  assert (∀ g, file_at k4 g = if decide (g = f) then set_f_off (off + m) (file_at k f) else file_at k g) as Ef4.
  { intros g. change (file_at k4) with (file_at k3). unfold k3. rewrite file_at_upd by (by rewrite Ef2). by rewrite !(file_at_frame k k2). }
  exists k4. split; [|split].
  - unfold fileread, get_file. mrun. rewrite Hrd, Oty, Oip. cbn [negb deref]. mrun. mcall R1.
    change (f_off (file_at k1 f)) with off. rewrite u32_small by (unfold is_u32; lia). mcall R2. cbn [fst].
    mcall (R3 ltac:(lia) ltac:(unfold is_u32; lia)). mcall R4. do 2 f_equal. unfold on_disk. rewrite Ist.
    by apply (fbytes_slice V (dinode_of (inode_at k ip))); cbn; lia.
  - by apply fsx_woken, fsx_upd_inode, fsx_upd_file.
  - split; rewrite ?Ei4, ?Ef4, ?(decide_True (P := f = f)), ?(decide_True (P := ip = ip)) by done; cbn; try done.
    + by rewrite length_alter, Ef2.
    + lia.
    + eapply (inode_sync_lock k V); [done|done|by etrans; [apply length_alter|]|by rewrite Ei4, decide_True].
  - by rewrite Ef4, decide_True.
  - intros g Hg. by rewrite Ef4, decide_False.
  - by rewrite Ei4, decide_True.
  - intros jp Hj. by rewrite Ei4, decide_False.
  - exact D2.
Qed.
End spec.

(** ** Example *)

(** A disk with one file, inode 2, whose 5 bytes are in block 40. *)
Definition demo_fs_sb : superblock := mkSuperblock 100 64 16 30 2 32 35.
Definition demo_fs_dinode : dinode := mkDinode T_FILE 0 0 1 5 (40 :: replicate 12 0).
Definition demo_fs_blocks : gmap Z (list Z) :=
  <[1 := put32 (put32 (put32 (put32 demo_sb 0 100) 8 16) 20 32) 24 35]>
  (<[32 := put_dinode zero_block (dinode_off 2) demo_fs_dinode]>
  (<[35 := splice zero_block 0 [255; 255; 255; 255; 15; 1]]>
  {[40 := splice zero_block 0 [104; 101; 108; 108; 111]]})).
Definition demo_fs_disk : disk := mkDisk 100 demo_fs_blocks [].
Definition demo_fs (off : Z) (k : kernel) : kernel :=
  set_k_ftable [mkFile FD_INODE 1 true true 0 (Some 0%nat) off]
  (set_k_icache [mkInode ROOTDEV 2 1 (mkSleeplock false 0) true T_FILE 0 0 1 5 (40 :: replicate 12 0)]
  (set_k_sb demo_fs_sb (set_k_disk demo_fs_disk (demo_log k)))).

(** A kernel with no device drivers. *)
Definition no_devices : Devsw := {| devsw_read := λ _, None; devsw_write := λ _, None |}.

Lemma demo_fs_disk_ok b : block_ok (disk_block demo_fs_disk b).
Proof.
  unfold disk_block, demo_fs_disk, demo_fs_blocks. cbn [d_blocks].
  destruct (decide (1 = b)) as [<-|]; [rewrite lookup_insert_eq|rewrite lookup_insert_ne by done].
  { do 4 (apply block_ok_put32; [|unfold BSIZE; lia]). apply demo_sb_ok. }
  destruct (decide (32 = b)) as [<-|]; [rewrite lookup_insert_eq|rewrite lookup_insert_ne by done].
  { apply put_dinode_ok; [apply zero_block_ok|apply dinode_off_bound]. }
  destruct (decide (35 = b)) as [<-|]; [rewrite lookup_insert_eq|rewrite lookup_insert_ne by done].
  { apply splice_ok; [apply zero_block_ok|repeat constructor; lia|cbn; lia]. }
  destruct (decide (40 = b)) as [<-|]; [rewrite lookup_singleton_eq|rewrite lookup_singleton_ne by done].
  { apply splice_ok; [apply zero_block_ok|repeat constructor; lia|cbn; lia]. }
  apply zero_block_ok.
Qed.

Lemma demo_fs_idle off k1 : binit kernel0 = Ret tt k1 → fs_idle demo_fs_sb 1 (demo_fs off k1) (disk_block demo_fs_disk).
Proof.
  intros Hrun. destruct (binit_boot k1 Hrun) as [Ept Eh].
  destruct (binit_spec kernel0 kernel0_blank) as (k1' & Hrun' & Hb). assert (k1 = k1') as -> by congruence.
  split; [|done|done|repeat split; vm_compute; (reflexivity || congruence)]. split; try done.
  - apply (binv_boot kernel0 k1' (demo_fs off k1')); [done|done|exact (demo_process_running k1' Ept Eh)|exact demo_fs_disk_ok].
  - split; [constructor|intros b Hx; by apply elem_of_nil in Hx|done|unfold NBUF; cbn; lia|apply not_elem_of_nil].
Qed.

Lemma forallb_seqZ (f : Z → bool) a n j : forallb f (seqZ a n) = true → a <= j < a + n → f j = true.
Proof. rewrite forallb_forall. intros Hall Hj. apply Hall. by rewrite <- list_elem_of_In, elem_of_seqZ. Qed.

Lemma demo_fs_live j : live demo_fs_sb (disk_block demo_fs_disk) j → j = 2.
Proof.
  intros [Hj Ht]. cbn [sb_ninodes demo_fs_sb] in Hj.
  pose proof (forallb_seqZ (λ j, (di_type (stored demo_fs_sb (disk_block demo_fs_disk) j) =? 0) || (j =? 2)) 0 16 j) as H.
  apply orb_true_iff in H as [H|H]; [by apply Z.eqb_eq in H|by apply Z.eqb_eq|vm_compute; reflexivity|lia].
Qed.

Lemma demo_fs_stored : stored demo_fs_sb (disk_block demo_fs_disk) 2 = demo_fs_dinode.
Proof. vm_compute. reflexivity. Qed.

Lemma demo_fs_ok : fs_ok demo_fs_sb (disk_block demo_fs_disk).
Proof.
  split.
  - intros j ->%demo_fs_live. rewrite demo_fs_stored. cbv zeta. split_and!; [|cbn; lia|cbn; lia|].
    + assert (blocks (disk_block demo_fs_disk) (di_addrs demo_fs_dinode) (dinode_cnt demo_fs_dinode) = [40]) as Hbl by (vm_compute; reflexivity).
      split; rewrite ?Hbl; [done|vm_compute; split; congruence| | | |].
      * apply NoDup_singleton.
      * constructor; [|constructor]. split; [split; cbn; lia|vm_compute; reflexivity].
      * intros n Hn. change (dinode_cnt demo_fs_dinode) with 1 in Hn. unfold block_at. destruct (Z.ltb_spec n 12); [|reflexivity].
        apply Z.eqb_eq, (forallb_seqZ (λ n, di_addrs demo_fs_dinode !!! Z.to_nat n =? 0) 1 11); [vm_compute; reflexivity|lia].
      * change (dinode_cnt demo_fs_dinode) with 1. lia.
    + split; [vm_compute; reflexivity..| |reflexivity|]; [unfold is_u32; cbn; lia|].
      apply Forall_cons. split; [unfold is_u32; lia|]. apply Forall_replicate. unfold is_u32. lia.
  - intros i j ->%demo_fs_live ->%demo_fs_live Hne. by destruct Hne.
  - intros b Hb. cbn [sb_bmapstart demo_fs_sb] in Hb.
    apply (forallb_seqZ (λ b, used demo_fs_sb (disk_block demo_fs_disk) b) 0 36); [vm_compute; reflexivity|lia].
Qed.

Lemma demo_fs_opened off k1 : 0 <= off <= 5 → opened demo_fs_sb (demo_fs off k1) (disk_block demo_fs_disk) 0 0.
Proof.
  intros Ho. split; [apply Nat.lt_0_1|reflexivity|reflexivity|exact Ho|vm_compute; congruence|reflexivity|reflexivity|].
  split; [apply Nat.lt_0_1|reflexivity|done| |exact demo_fs_stored].
  change (live demo_fs_sb (disk_block demo_fs_disk) 2). split; [cbn; lia|rewrite demo_fs_stored; done].
Qed.

Lemma filewrite_correct_witness :
  ∃ k1, binit kernel0 = Ret tt k1 ∧
    let k := demo_fs 5 k1 in let V := disk_block demo_fs_disk in
    ∃ k' V', filewrite (W := 0%nat) (DV := no_devices) 0 [33; 10] k = Ret 2 k' ∧
      on_disk demo_fs_sb V' 2 = [104; 101; 108; 108; 111; 33; 10] ∧
      recovers (W := 0%nat) (k_disk k) (k_disk k') (partly demo_fs_sb V 2 5 [33; 10]).
Proof.
  destruct (binit_spec kernel0 kernel0_blank) as (k1 & Hrun & _). exists k1. split; [exact Hrun|].
  destruct (filewrite_correct (W := 0%nat) (DV := no_devices) demo_fs_sb 1 (demo_fs 5 k1) (disk_block demo_fs_disk) 0 0 [33; 10]
    (demo_fs_idle 5 k1 Hrun) demo_fs_ok (demo_fs_opened 5 k1 ltac:(lia))) as (k' & V' & R & Hw & Hr).
  - reflexivity.
  - reflexivity.
  - split; vm_compute; reflexivity.
  - repeat constructor; lia.
  - vm_compute. congruence.
  - vm_compute. congruence.
  - exists k', V'. split_and!; [exact R| |exact Hr]. destruct (wf_after _ _ _ _ _ _ _ _ _ Hw) as (_ & E & _).
    etrans; [exact E|]. vm_compute. reflexivity.
Defined.

Lemma fileread_correct_witness :
  ∃ k1, binit kernel0 = Ret tt k1 ∧
    ∃ k', fileread (W := 0%nat) (DV := no_devices) 0 10 (demo_fs 1 k1) = Ret (4, [101; 108; 108; 111]) k' ∧ f_off (file_at k' 0) = 5.
Proof.
  destruct (binit_spec kernel0 kernel0_blank) as (k1 & Hrun & _). exists k1. split; [exact Hrun|].
  destruct (fileread_correct (W := 0%nat) (DV := no_devices) demo_fs_sb 1 (demo_fs 1 k1) (disk_block demo_fs_disk) 0 0 10
    (demo_fs_idle 1 k1 Hrun) demo_fs_ok (demo_fs_opened 1 k1 ltac:(lia))) as (k' & R & Hr).
  - reflexivity.
  - reflexivity.
  - lia.
  - exists k'. split; [etrans; [exact R|]|rewrite (rf_file _ _ _ _ _ _ _ _ Hr); reflexivity].
    vm_compute. reflexivity.
Defined.
