(* ===== verification/UserMem.v ===== *)
(** * Access to user memory and page faults (src/trap.c: case T_PGFLT; src/syscall.c)

    The kernel reads and writes the memory of the process that called it at the
    process's own addresses, through the page table in CR3.  Pages the process
    has been promised but not given ([sbrk] only moves [sz]) fault on the first
    access, in the kernel as in user code; the fault handler maps a zeroed page
    and the access is done again. *)

From S2P Require Import Prelude Mem CString State Mmu Spinlock Kalloc Vm Proc.

(** [entry & PTE_W]. *)
Definition writable (e : Z) : bool := negb (Z.land e PTE_W =? 0).

Section usermem.
Context `{L : Layout}.

(** The handler of a page fault at address [cr2]. *)
Definition pgflt (cr2 : Z) : K unit :=
  let dirPageErr := PGROUNDDOWN cr2 in
  p <- curproc ;;
  x <- gets (λ k, proc_at k p) ;;
  if cr2 >=? p_sz x then upd p (set_p_killed true)
  else if dirPageErr =? p_guard_page x then upd p (set_p_killed true)
  else
    mem <- kalloc ;;
    if mem =? 0 then upd p (set_p_killed true)
    else
      zero_page mem ;;;
      r <- mappages (p_pgdir x) dirPageErr PGSIZE (V2P mem) (Z.lor PTE_W PTE_U) ;;
      when (r <? 0) (kfree mem ;;; upd p (set_p_killed true)).

(** The processor's translation of [va] for an access in kernel mode, which
    ignores [PTE_U]: the kernel address of the byte, or a fault. *)
Definition xlate (write : bool) (va : Z) : K (option Z) :=
  cr3 <- gets k_cr3 ;;
  pde <- load32 (P2V cr3 + 4 * PDX va) ;;
  if negb (present pde) then ret None
  else
    pte <- load32 (P2V (PTE_ADDR pde) + 4 * PTX va) ;;
    if present pte && (negb write || (writable pde && writable pte))
    then ret (Some (P2V (PTE_ADDR pte) + va mod PGSIZE)) else ret None.

(** An access: after a fault the instruction is run again.  If the handler has
    not mapped the page the instruction faults for ever, since a process that is
    killed in the kernel goes on. *)
Definition uaccess (write : bool) (va : Z) : K Z :=
  o <- xlate write va ;;
  match o with
  | Some a => ret a
  | None =>
      pgflt va ;;;
      o <- xlate write va ;;
      match o with Some a => ret a | None => λ _, Spin end
  end.

Definition uload8 (va : Z) : K Z := a <- uaccess false va ;; gets (λ k, ldb (k_mem k) a).
Definition ustore8 (va v : Z) : K unit :=
  a <- uaccess true va ;; modify (λ k, set_k_mem (stb (k_mem k) a v) k).

(** [n] bytes from [va] on, and the bytes [bs] to [va] on. *)
Fixpoint uload (va : Z) (n : nat) : K (list Z) :=
  match n with
  | O => ret []
  | S n => b <- uload8 va ;; bs <- uload (u32 (va + 1)) n ;; ret (b :: bs)
  end.
Fixpoint ustore (va : Z) (bs : list Z) : K unit :=
  match bs with
  | [] => ret tt
  | b :: bs => ustore8 va b ;;; ustore (u32 (va + 1)) bs
  end.

(** ** System-call arguments (src/syscall.c)

    A result that the C code stores through a pointer when it returns 0 is the
    [Some] of an option; [None] is the return of -1. *)

Definition fetchint (addr : Z) : K (option Z) :=
  p <- curproc ;;
  sz <- gets (λ k, p_sz (proc_at k p)) ;;
  if (addr >=? sz) || (u32 (addr + 4) >? sz) then ret None
  else bs <- uload addr 4 ;; ret (Some (i32 (u32_of_bytes bs))).

(** The bytes from [s] up to a zero byte before [ep]. *)
Fixpoint fetchstr_loop (fuel : nat) (s ep : Z) : K (option (list Z)) :=
  if s <? ep then
    match fuel with
    | O => λ _, Spin
    | S fuel =>
        c <- uload8 s ;;
        if c =? 0 then ret (Some [])
        else o <- fetchstr_loop fuel (s + 1) ep ;; ret (cons c <$> o)
    end
  else ret None.

(** [fetchstr(addr, pp)]: the string [*pp] points at; the value returned in C is
    its length. *)
Definition fetchstr (addr : Z) : K (option (list Z)) :=
  p <- curproc ;;
  sz <- gets (λ k, p_sz (proc_at k p)) ;;
  if addr >=? sz then ret None else fetchstr_loop (Z.to_nat (sz - addr)) addr sz.

Definition argint (n : Z) : K (option Z) :=
  p <- curproc ;;
  esp <- gets (λ k, tf_esp (p_tf (proc_at k p))) ;;
  fetchint (u32 (esp + 4 + 4 * n)).

Definition argptr (n size : Z) : K (option Z) :=
  p <- curproc ;;
  o <- argint n ;;
  match o with
  | None => ret None
  | Some i =>
      sz <- gets (λ k, p_sz (proc_at k p)) ;;
      if (size <? 0) || (u32 i >=? sz) || (u32 (u32 i + size) >? sz) then ret None
      else ret (Some (u32 i))
  end.

Definition argstr (n : Z) : K (option (list Z)) :=
  o <- argint n ;;
  match o with None => ret None | Some addr => fetchstr (u32 addr) end.
End usermem.
