(* ===== verification/UserSpec.v ===== *)
(** * Demand paging is transparent (src/trap.c: case T_PGFLT)

    [sbrk] only moves [sz]; a page is mapped by the page-fault handler when it is
    first touched.  Seen through the process's own addresses the memory is as if
    every page up to [sz] had been there, zeroed, from the start. *)

From S2P Require Import Prelude Mem CString State Mmu Spinlock Kalloc Vm VmSpec Uvm Copyuvm Copyout Demo Proc UserMem.

(** The byte at a user address: zero where no page has been mapped yet. *)
Definition uview (m : mem) (A : aspace) (va : Z) : Z :=
  match as_map A !! (va / 4096) with
  | Some e => ldb m (frame e + va mod 4096)
  | None => 0
  end.

Section spec.
Context `{L : Layout} {Lok : LayoutOk L}.

(** Process [p] runs in the address space [A], with the free pages [l]. *)
Record ustate (k : kernel) (p : nat) (A : aspace) (rest l : list Z) : Prop := {
  us_cur : k_cur k = Some p;
  us_dir : p_pgdir (proc_at k p) = as_dir A;
  us_cr3 : k_cr3 k = V2P (as_dir A);
  us_sz : 0 <= p_sz (proc_at k p) <= KERNBASE;
  us_uvm : uvm k A rest l;
  us_w : ∀ n e, as_map A !! n = Some e → n < 524288 → writable e = true
}.

Lemma page_index va : is_u32 va → 1024 * PDX va + PTX va = va / 4096.
Proof. intros Hva. rewrite PDX_eq, PTX_eq by done. divmod. Qed.

Lemma table_flags pt : page_ok pt → present (V2P pt + 7) = true ∧ writable (V2P pt + 7) = true.
Proof using Lok.
  intros Hp. destruct (entry_page pt 7 Hp) as (E & _); [lia|]. rewrite <- E. unfold present, writable, PTE_P, PTE_W.
  change 1 with (2 ^ 0). change 2 with (2 ^ 1) at 2. rewrite !land_flag_testbit, !Z.lor_spec by lia.
  by rewrite !negb_involutive, !orb_true_r.
Qed.

Lemma xlate_spec k p A rest l w va :
  ustate k p A rest l → 0 <= va < KERNBASE →
  xlate w va k = Ret ((λ e, frame e + va mod 4096) <$> as_map A !! (va / 4096)) k.
Proof using Lok.
  intros [_ _ Hcr _ Hinv Hw] Hva. unfold KERNBASE in Hva. assert (is_u32 va) as Hu by (unfold is_u32; lia).
  pose proof (vi_rep _ _ _ _ Hinv) as Hrep. destruct (vm_inv_dir _ _ _ _ Hinv) as (Hd & _).
  unfold xlate, load32. mrun. rewrite Hcr, P2V_V2P by done.
  pose proof (rep_pde _ _ Hrep _ (PDX_range va Hu)) as Hpde. destruct (as_pt A !! PDX va) as [pt|] eqn:Hpt.
  - destruct (vm_inv_pt _ _ _ _ _ _ Hinv Hpt) as (Hp & _). destruct (entry_page pt 7 Hp) as (E1 & Ha & Hpr & _); [lia|].
    destruct (table_flags pt Hp) as [Hpp Hpw]. rewrite Hpde, Hpp, Ha. cbn [negb]. mrun.
    pose proof (rep_pte _ _ Hrep _ _ _ Hpt (PTX_range va)) as He. rewrite page_index in He by done.
    destruct (as_map A !! (va / 4096)) as [e|] eqn:E.
    + destruct He as [-> ->]. rewrite Hpw, (Hw _ _ E) by divmod. rewrite orb_true_r. done.
    + rewrite He. done.
  - rewrite Hpde. cbn [negb]. destruct (as_map A !! (va / 4096)) as [e|] eqn:E; [|done].
    apply (rep_map_dom _ _ Hrep) in E as [pt Hpt']. rewrite PDX_eq in Hpt by done.
    replace (va / 4096 / 1024) with (va / 4194304) in Hpt' by divmod. congruence.
Qed.

Lemma fresh_writable v : page_ok v → writable (pte_for (V2P v) 6) = true.
Proof using Lok.
  intros Hv. unfold pte_for, writable, PTE_W. rewrite (land_flag_testbit _ 1), !Z.lor_spec by lia.
  change (Z.testbit 6 1) with true. by rewrite orb_true_r.
Qed.

Lemma uview_evolves k k' A A' rest l l' a :
  uvm k A rest l → evolves k k' A A' l l' → l' ⊆ l → 0 <= a < KERNBASE →
  (∀ e, as_map A !! (a / 4096) = Some e → as_map A' !! (a / 4096) = Some e) → is_Some (as_map A !! (a / 4096)) →
  uview (k_mem k') A' a = uview (k_mem k) A a.
Proof using Lok.
  intros Hinv Hev Hl Ha HA [e He]. unfold KERNBASE in Ha. unfold uview. rewrite He, (HA e He).
  destruct (uvm_frame_ok _ _ _ _ _ _ Hinv He) as (Hf & Hd & Hpt & _ & Hfl); [divmod|].
  destruct (vm_inv_aligned _ _ _ _ Hinv) as (Hda & Hpa & _ & Hla).
  eapply (page_kept _ _ _ (frame e)); [apply Hev| |by apply page_ok_aligned| |unfold in_page; divmod].
  - apply Forall_cons. split; [done|]. apply Forall_app. split; [done|]. apply Forall_app. split; [done|].
    apply Forall_forall. intros q Hq. rewrite Forall_forall in Hla. by apply Hla, Hl.
  - rewrite elem_of_cons, !elem_of_app. specialize (Hl (frame e)). tauto.
Qed.

(** The process's memory is [A'] with the view of [A]: pages may have been added. *)
Record touched (k : kernel) (p : nat) (A : aspace) (rest l : list Z) (k' : kernel) (A' : aspace) (l' : list Z) : Prop := {
  to_state : ustate k' p A' rest l';
  to_mem : mem_only k k';
  to_view : ∀ a, 0 <= a < KERNBASE → uview (k_mem k') A' a = uview (k_mem k) A a;
  to_rest : ∀ q b, q ∈ rest → in_page q b → ldb (k_mem k') b = ldb (k_mem k) b;
  to_pages : owned A' ++ l' ≡ₚ owned A ++ l
}.

Lemma touched_refl k p A rest l : ustate k p A rest l → touched k p A rest l k A l.
Proof. intros. split; [done|apply mem_only_refl|done|done|done]. Qed.

Lemma touched_trans k p A rest l k1 A1 l1 k2 A2 l2 :
  touched k p A rest l k1 A1 l1 → touched k1 p A1 rest l1 k2 A2 l2 → touched k p A rest l k2 A2 l2.
Proof.
  intros [_ M1 V1 R1 P1] [S2 M2 V2 R2 P2]. split; [done|by eapply mem_only_trans|intros a Ha; by rewrite V2, V1| |by rewrite P2].
  intros q b Hq Hb. by rewrite (R2 q), (R1 q).
Qed.

Lemma evolves_pages k k' A A' l l' : evolves k k' A A' l l' → owned A' ++ l' ≡ₚ owned A ++ l.
Proof.
  intros Hev. unfold owned. cbn [app]. rewrite (ev_dir _ _ _ _ _ _ Hev), <- !app_assoc. by rewrite (ev_pages _ _ _ _ _ _ Hev).
Qed.

(** The address space after pages have been added to or taken from the free list. *)
Lemma ustate_evolves k p A rest l k' A' l' :
  ustate k p A rest l → evolves k k' A A' l l' → uvm k' A' rest l' →
  (∀ n e, as_map A' !! n = Some e → n < 524288 → writable e = true) → ustate k' p A' rest l'.
Proof.
  intros [Hc Hd Hcr Hsz Hinv Hw] Hev Hinv' Hw'. rewrite (ev_mem_only _ _ _ _ _ _ Hev).
  split; try done; [by rewrite (ev_dir _ _ _ _ _ _ Hev)|by rewrite (ev_dir _ _ _ _ _ _ Hev)|].
  by rewrite <- (ev_mem_only _ _ _ _ _ _ Hev).
Qed.

(** A fresh zeroed page has been mapped. *)
Lemma fresh_touched k p A rest v l va k' A' l' :
  ustate k p A rest (v :: l) → as_map A !! (va / 4096) = None → page_ok v → uvm k' A' rest l' →
  as_map A' = <[va / 4096 := pte_for (V2P v) 6]> (as_map A) → zero_filled (k_mem k') v →
  evolves k k' A A' (v :: l) l' → l' ⊆ v :: l → touched k p A rest (v :: l) k' A' l'.
Proof using Lok.
  intros Hs Hn Hv Hinv' HM Hz Hev Hsub. split; [|apply Hev| |intros q b Hq Hb; eapply evolves_apart; [apply Hs|done..]|by eapply evolves_pages].
  - eapply ustate_evolves; [done..|]. intros n e. rewrite HM, lookup_insert. case_decide; [|by apply Hs].
    intros [= <-] _. by apply fresh_writable.
  - intros a Ha. destruct (decide (a / 4096 = va / 4096)) as [E|E].
    + unfold uview. rewrite E, Hn, HM, lookup_insert_eq, frame_pte_for by (done || lia).
      apply Hz. unfold in_page. divmod.
    + destruct (as_map A !! (a / 4096)) as [e|] eqn:He.
      * eapply (uview_evolves k k' A A' rest (v :: l) l'); [apply Hs|done|done|done| |by exists e].
        intros e'. by rewrite HM, lookup_insert_ne by done.
      * unfold uview. by rewrite HM, lookup_insert_ne, He by done.
Qed.

(** Nothing has been mapped. *)
Lemma same_touched k p A rest l k' A' l' :
  ustate k p A rest l → uvm k' A' rest l' → as_map A' = as_map A → evolves k k' A A' l l' → l' ⊆ l → touched k p A rest l k' A' l'.
Proof using Lok.
  intros Hs Hinv' HM Hev Hsub. split; [|apply Hev| |intros q b Hq Hb; eapply evolves_apart; [apply Hs|done..]|by eapply evolves_pages].
  - eapply ustate_evolves; [done..|]. rewrite HM. apply Hs.
  - intros a Ha. destruct (as_map A !! (a / 4096)) as [e|] eqn:He.
    + eapply (uview_evolves k k' A A' rest l l'); [apply Hs|done|done|done|by rewrite HM|by exists e].
    + unfold uview. by rewrite HM, He.
Qed.

Lemma pgflt_run k p A rest l va :
  ustate k p A rest l → pgflt va k =
    (if (va >=? p_sz (proc_at k p)) || (va / 4096 * 4096 =? p_guard_page (proc_at k p)) then upd p (set_p_killed true)
     else
       mem <- kalloc ;;
       if mem =? 0 then upd p (set_p_killed true)
       else
         zero_page mem ;;;
         r <- mappages (as_dir A) (va / 4096 * 4096) PGSIZE (V2P mem) 6 ;;
         when (r <? 0) (kfree mem ;;; upd p (set_p_killed true))) k.
Proof using Type.
  intros [Hc Hd _ _ _ _]. unfold pgflt, curproc, myproc. rewrite PGROUNDDOWN_eq. mrun. rewrite Hc. mrun. rewrite Hd, perm_WU.
  by destruct (va >=? _), (_ =? _).
Qed.

(** A fault on a page of the process that is not there. *)
Lemma pgflt_missing k p A rest v l va :
  ustate k p A rest (v :: l) → 0 <= va < p_sz (proc_at k p) → va / 4096 * 4096 ≠ p_guard_page (proc_at k p) →
  as_map A !! (va / 4096) = None →
  (∃ k' A' l', pgflt va k = Ret tt k' ∧ touched k p A rest (v :: l) k' A' l' ∧
     (∃ e, as_map A' = <[va / 4096 := e]> (as_map A)) ∧ (length l <= S (length l'))%nat) ∨
  (l = [] ∧ ∃ k' A', pgflt va k = upd p (set_p_killed true) k' ∧ touched k p A rest (v :: l) k' A' [v] ∧ as_map A' = as_map A).
Proof using Lok.
  intros Hs Hva Hg Hn. pose proof Hs as [Hc Hd Hcr Hsz Hinv Hw]. unfold KERNBASE in *. rewrite (pgflt_run _ _ _ _ _ _ Hs).
  rewrite Z.geb_leb, (proj2 (Z.leb_gt _ _)), (proj2 (Z.eqb_neq _ _) Hg) by lia. cbn [orb].
  destruct (vm_inv_take_fill _ _ _ _ _ _ Hinv (same_except_memset v _ 0)) as (Hka & Hv & _).
  destruct (page_ok_range v Hv) as [Hv0 _]. mcall Hka. rewrite (proj2 (Z.eqb_neq v 0)) by lia. unfold zero_page. mrun.
  destruct (map_fresh _ _ _ _ _ (va / 4096 * 4096) _ 6 Hinv (same_except_memset v _ 0)) as (r & k1 & A1 & l1 & Hmap & Hcase);
    [lia|divmod|divmod|by rewrite Z.div_mul by lia|]. rewrite Z.div_mul in Hcase by lia. unfold taken in Hmap. mcall Hmap.
  destruct Hcase as [(-> & Hinv' & HM & Hz & Hev & Hdr & Hlen)|(-> & -> & Hinv' & HM & Hev & Hpt & ->)]; [left|right].
  - exists k1, A1, l1. split_and!; [done| |by eexists|done].
    eapply (fresh_touched k p A rest v l va); [done..| |done|apply Hdr]. intros b Hb. rewrite Hz by done. by apply memset_zero_filled.
  - split; [done|]. apply (vm_inv_perm _ _ _ (v :: (user_frames (as_map A1) ++ rest))) in Hinv'; [|symmetry; apply Permutation_middle].
    apply vm_inv_free in Hinv' as [Hkf Hinv2]. exists (freed k1 v), A1. split_and!.
    + cbn [Z.ltb Z.compare when]. by mcall Hkf.
    + eapply (same_touched k p A rest [v]); [done|exact Hinv2|done| |done].
      eapply evolves_trans; [exact Hev|apply freed_evolves|]. intros q Hq. specialize (Hpt q). rewrite !elem_of_app in *. tauto.
    + done.
Qed.

(** ** Accesses *)

(** The pages of the [n] bytes from [va] on that are not mapped. *)
Definition missing (A : aspace) (va : Z) (n : nat) : gset Z :=
  filter (λ q, as_map A !! q = None) (list_to_set (seqZ (va / 4096) ((va + n - 1) / 4096 + 1 - va / 4096))).

Lemma elem_missing A va n q : q ∈ missing A va n ↔ as_map A !! q = None ∧ va / 4096 <= q <= (va + n - 1) / 4096.
Proof. unfold missing. rewrite elem_of_filter, elem_of_list_to_set, elem_of_seqZ. intuition lia. Qed.

(** The process may touch the [n] bytes from [va] on, and there is memory for
    them: a page, and a page table, for each page that is missing. *)
Record can_touch (k : kernel) (p : nat) (A : aspace) (l : list Z) (va : Z) (n : nat) : Prop := {
  ct_range : 0 <= va ∧ va + n <= p_sz (proc_at k p);
  ct_guard : ∀ q, q ∈ missing A va n → q * 4096 ≠ p_guard_page (proc_at k p);
  ct_free : (2 * size (missing A va n) <= length l)%nat
}.

Lemma can_touch_next k p A l va n k' A' l' :
  can_touch k p A l va (S n) → mem_only k k' → as_map A ⊆ as_map A' →
  (size (missing A' va (S n)) + size (missing A' va (S n)) + length l <= length l' + 2 * size (missing A va (S n)))%nat →
  can_touch k' p A' l' (va + 1) n.
Proof.
  intros [Hr Hg Hf] Hmo HA Hl.
  assert (missing A' (va + 1) n ⊆ missing A' va (S n)) as Hsub.
  { intros q. rewrite !elem_missing. intros [? ?]. split; [done|]. divmod. }
  split.
  - rewrite Hmo. change (proc_at (set_k_mem ?m (set_k_freelist ?f k)) p) with (proc_at k p). lia.
  - rewrite Hmo. change (proc_at (set_k_mem ?m (set_k_freelist ?f k)) p) with (proc_at k p). intros q Hq%Hsub.
    apply Hg. apply elem_missing in Hq as [Hq ?]. apply elem_missing. split; [|done]. destruct (as_map A !! q) as [e|] eqn:E; [|done].
    by rewrite (lookup_weaken _ _ _ _ E HA) in Hq.
  - pose proof (subseteq_size _ _ Hsub). lia.
Qed.

Lemma missing_insert A A' va n e : as_map A !! (va / 4096) = None → as_map A' = <[va / 4096 := e]> (as_map A) →
  (size (missing A' va (S n)) + 1 <= size (missing A va (S n)))%nat.
Proof.
  intros Hn HM. assert (va / 4096 ∈ missing A va (S n)) as Hin by (apply elem_missing; split; [done|divmod]).
  assert (missing A' va (S n) ⊆ missing A va (S n) ∖ {[va / 4096]}) as Hsub.
  { intros q. rewrite elem_of_difference, elem_of_singleton, !elem_missing, HM, lookup_insert.
    case_decide; [by intros [? _]|]. intros [? ?]. split_and!; [done|lia|lia|congruence]. }
  pose proof (subseteq_size _ _ Hsub) as Hs. rewrite size_difference, size_singleton in Hs by (by apply singleton_subseteq_l).
  assert (0 < size (missing A va (S n)))%nat; [|lia].
  destruct (decide (size (missing A va (S n)) = 0%nat)) as [E|]; [|lia]. apply size_empty_inv in E. by apply E, not_elem_of_empty in Hin.
Qed.

Lemma uaccess_spec k p A rest l w va n :
  ustate k p A rest l → can_touch k p A l va (S n) →
  ∃ a k' A' l', uaccess w va k = Ret a k' ∧ touched k p A rest l k' A' l' ∧ can_touch k' p A' l' (va + 1) n ∧
    ∃ e, as_map A' !! (va / 4096) = Some e ∧ a = frame e + va mod 4096.
Proof using Lok.
  intros Hs Hct. pose proof Hct as [Hr Hg Hf]. pose proof (us_sz _ _ _ _ _ Hs) as Hsz.
  unfold uaccess. mcall (xlate_spec k p A rest l w va Hs ltac:(lia)).
  destruct (as_map A !! (va / 4096)) as [e|] eqn:He; cbn [fmap option_fmap option_map].
  - exists (frame e + va mod 4096), k, A, l. split_and!; [done|by apply touched_refl| |by exists e].
    eapply can_touch_next; [done|apply mem_only_refl|done|lia].
  - assert (va / 4096 ∈ missing A va (S n)) as Hin by (apply elem_missing; split; [done|divmod]).
    pose proof (missing_insert A (set_map A (<[va / 4096 := 0]> (as_map A))) va n 0 He eq_refl) as Hpos.
    destruct l as [|v [|u l]]; [cbn in Hf; lia..|].
    destruct (pgflt_missing k p A rest v (u :: l) va Hs ltac:(lia) (Hg _ Hin) He) as [(k' & A' & l' & R & T & [e HM] & Hlen)|[? _]]; [|done].
    pose proof T as [S' Hmo Hv _ _]. mcall R. pose proof (us_sz _ _ _ _ _ S') as Hsz'.
    rewrite (bind_eq _ _ _ _ _ (xlate_spec k' p A' rest l' w va S' ltac:(lia))).
    rewrite HM, lookup_insert_eq. cbn [fmap option_fmap option_map].
    pose proof (missing_insert A A' va n e He HM) as Hm.
    exists (frame e + va mod 4096), k', A', l'. split_and!; [done|done| |exists e; by rewrite HM, lookup_insert_eq].
    eapply can_touch_next; [done|done|rewrite HM; by apply insert_subseteq|cbn in *; lia].
Qed.

(** The [n] bytes of the view from [va] on. *)
Definition ubytes (m : mem) (A : aspace) (va : Z) (n : nat) : list Z := uview m A <$> seqZ va n.

Lemma ubytes_S m A va n : ubytes m A va (S n) = uview m A va :: ubytes m A (va + 1) n.
Proof. unfold ubytes. rewrite seqZ_cons by lia. replace (Z.pred (S n)) with (Z.of_nat n) by lia. done. Qed.

Lemma ubytes_ext m A m' A' va (n : nat) : 0 <= va → va + n <= KERNBASE → (∀ a, 0 <= a < KERNBASE → uview m' A' a = uview m A a) →
  ubytes m' A' va n = ubytes m A va n.
Proof. intros ? ? Hv. apply list_fmap_ext. intros i a [-> ?]%lookup_seqZ. apply Hv. lia. Qed.

Lemma uload_spec p rest n : ∀ k A l va, ustate k p A rest l → can_touch k p A l va n →
  ∃ k' A' l', uload va n k = Ret (ubytes (k_mem k) A va n) k' ∧ touched k p A rest l k' A' l'.
Proof using Lok.
  induction n as [|n IH]; intros k A l va Hs Hct; [exists k, A, l; split; [done|by apply touched_refl]|].
  destruct (uaccess_spec k p A rest l false va n Hs Hct) as (a & k1 & A1 & l1 & R1 & T1 & C1 & e & He & ->).
  destruct (IH k1 A1 l1 (va + 1) (to_state _ _ _ _ _ _ _ _ T1) C1) as (k2 & A2 & l2 & R2 & T2).
  pose proof (ct_range _ _ _ _ _ _ Hct) as Hr. pose proof (us_sz _ _ _ _ _ Hs) as Hsz. unfold KERNBASE in Hsz.
  exists k2, A2, l2. split; [|by eapply touched_trans]. cbn [uload]. unfold uload8. mcall R1. mrun.
  rewrite u32_small by (unfold is_u32; lia). mcall R2. rewrite ubytes_S. do 2 f_equal.
  - rewrite <- (to_view _ _ _ _ _ _ _ _ T1 va) by (unfold KERNBASE; lia). unfold uview. by rewrite He.
  - apply ubytes_ext; [lia|unfold KERNBASE; lia|apply T1].
Qed.

(** ** Stores *)

Lemma ustore_byte k p A rest l va v e :
  ustate k p A rest l → 0 <= va < KERNBASE → is_byte v → as_map A !! (va / 4096) = Some e →
  let k' := set_k_mem (stb (k_mem k) (frame e + va mod 4096) v) k in
  ustate k' p A rest l ∧ (∀ a, 0 <= a < KERNBASE → uview (k_mem k') A a = if decide (a = va) then v else uview (k_mem k) A a) ∧
  ∀ q b, q ∈ rest → in_page q b → ldb (k_mem k') b = ldb (k_mem k) b.
Proof using Lok.
  intros [Hc Hd Hcr Hsz Hinv Hw] Hva Hv He k'. unfold KERNBASE in *. assert (va / 4096 < 524288) as Hn by divmod.
  destruct (uvm_frame_ok _ _ _ _ _ _ Hinv He Hn) as (Hf & Hnd). split_and!.
  - split; try done. apply (vm_inv_frame _ _ _ _ [frame e] _ Hinv).
    + intros b Hb. rewrite ldb_stb, decide_False; [done|]. specialize (Hb (frame e) ltac:(by left)). unfold in_page in Hb. divmod.
    + by repeat constructor; apply page_ok_aligned.
    + intros q ->%list_elem_of_singleton. tauto.
  - intros a Ha. unfold uview. cbn [k_mem k' set_k_mem]. destruct (decide (a / 4096 = va / 4096)) as [E|E].
    + rewrite E, He, ldb_stb. destruct (decide (a = va)) as [->|]; [rewrite decide_True by done; by apply u8_small|].
      by rewrite decide_False by divmod.
    + rewrite (decide_False (P := a = va)) by congruence. destruct (as_map A !! (a / 4096)) as [e'|] eqn:He'; [|done].
      rewrite ldb_stb, decide_False; [done|]. assert (a / 4096 < 524288) as Hn' by divmod.
      destruct (uvm_frame_ok _ _ _ _ _ _ Hinv He' Hn') as (Hf' & _).
      assert (frame e ≠ frame e') as Hne.
      { intros Hff. apply E. symmetry. eapply user_frames_inj; [by eapply uvm_nodup_frames|done..]. }
      destruct (pages_apart _ _ Hf Hf' Hne); divmod.
  - intros q b Hq Hb. cbn [k_mem k' set_k_mem]. rewrite ldb_stb, decide_False; [done|]. intros Eb. rewrite <- Eb in Hb.
    destruct (vm_inv_aligned _ _ _ _ Hinv) as (_ & _ & Hra & _). apply Forall_app in Hra as [_ Hra]. rewrite Forall_forall in Hra.
    apply (in_page_apart (frame e) q (frame e + va mod 4096)); [by apply page_ok_aligned|by apply Hra| |unfold in_page; divmod|done].
    intros E. destruct Hnd as (_ & _ & Hnr & _). apply Hnr. by rewrite E.
Qed.

(** The view has [bs] at [va]. *)
Record stored (k : kernel) (p : nat) (A : aspace) (rest l : list Z) (va : Z) (bs : list Z) (k' : kernel) (A' : aspace) (l' : list Z) : Prop := {
  st_state : ustate k' p A' rest l';
  st_mem : mem_only k k';
  st_view : ∀ a, 0 <= a < KERNBASE →
    uview (k_mem k') A' a = if decide (va <= a < va + length bs) then bs !!! Z.to_nat (a - va) else uview (k_mem k) A a;
  st_rest : ∀ q b, q ∈ rest → in_page q b → ldb (k_mem k') b = ldb (k_mem k) b;
  st_pages : owned A' ++ l' ≡ₚ owned A ++ l
}.

Lemma ustore_spec p rest bs : ∀ k A l va, ustate k p A rest l → Forall is_byte bs → can_touch k p A l va (length bs) →
  ∃ k' A' l', ustore va bs k = Ret tt k' ∧ stored k p A rest l va bs k' A' l'.
Proof using Lok.
  induction bs as [|b bs IH]; intros k A l va Hs Hb Hct.
  { exists k, A, l. split; [done|]. split; [done|apply mem_only_refl| |done|done]. intros a _. rewrite decide_False; [done|cbn; lia]. }
  apply Forall_cons in Hb as [Hb Hbs]. cbn [length] in Hct.
  destruct (uaccess_spec k p A rest l true va (length bs) Hs Hct) as (a & k1 & A1 & l1 & R1 & T1 & C1 & e & He & ->).
  pose proof (ct_range _ _ _ _ _ _ Hct) as Hr. pose proof (us_sz _ _ _ _ _ Hs) as Hsz.
  destruct (ustore_byte k1 p A1 rest l1 va b e (to_state _ _ _ _ _ _ _ _ T1) ltac:(lia) Hb He) as (S2 & V2 & Q2).
  set (k2 := set_k_mem _ k1) in *.
  destruct (IH k2 A1 l1 (va + 1) S2 Hbs) as (k3 & A3 & l3 & R3 & [S3 M3 V3 Q3 P3]); [by destruct C1; split|].
  exists k3, A3, l3. split; [|split].
  - cbn [ustore]. unfold ustore8. mcall R1. mrun. fold k2. unfold KERNBASE in *. by rewrite u32_small by (unfold is_u32; lia).
  - done.
  - eapply mem_only_trans; [|exact M3]. eapply mem_only_trans; [apply T1|]. unfold k2. done.
  - intros a Ha. rewrite V3, V2, (to_view _ _ _ _ _ _ _ _ T1) by done. cbn [length].
    destruct (decide (a = va)) as [->|Hne].
    + rewrite decide_False, decide_True by lia. by rewrite Z.sub_diag.
    + destruct (decide (va + 1 <= a < va + 1 + length bs)); [rewrite decide_True by lia|by rewrite decide_False by lia].
      replace (Z.to_nat (a - va)) with (S (Z.to_nat (a - (va + 1)))) by lia. done.
  - intros q b' Hq Hb'. by rewrite (Q3 q), (Q2 q), (to_rest _ _ _ _ _ _ _ _ T1 q).
  - rewrite P3. apply T1.
Qed.

(** ** Every outcome of the handler *)

Lemma mappages_remap k A rest l va pa perm e :
  vm_inv k A rest l → 0 <= va < KERNBASE → as_map A !! (va / 4096) = Some e →
  mappages (as_dir A) (va / 4096 * 4096) PGSIZE pa perm k = Panic "remap".
Proof using Lok.
  intros Hinv Hva He. unfold KERNBASE in Hva. set (a := va / 4096 * 4096).
  assert (is_u32 a) as Hu by (unfold a, is_u32; divmod). assert (a / 4096 = va / 4096) as Ea by (unfold a; by rewrite Z.div_mul by lia).
  destruct (rep_map_dom _ _ (vi_rep _ _ _ _ Hinv) _ _ He) as [pt Hpt].
  assert (as_pt A !! PDX a = Some pt) as Hpt' by (rewrite PDX_eq by done; rewrite <- Hpt; f_equal; unfold a; divmod).
  pose proof (rep_pte _ _ (vi_rep _ _ _ _ Hinv) _ _ _ Hpt' (PTX_range a)) as Hp. rewrite page_index, Ea, He in Hp by done.
  destruct Hp as [E Hpr]. destruct (vm_inv_pt _ _ _ _ _ _ Hinv Hpt') as (Hok & _). destruct (page_ok_range pt Hok) as [Hr _].
  unfold mappages. assert (PGROUNDDOWN a = a) as -> by (rewrite PGROUNDDOWN_eq; unfold a; divmod).
  unfold page_steps. set (fuel := Z.to_nat _). destruct fuel; cbn [mappages_loop];
    mcall (walk_present _ _ _ _ a true pt Hinv Hu Hpt'); pose proof (PTX_range a);
    rewrite (proj2 (Z.eqb_neq (pt + 4 * PTX a) 0)) by lia; unfold load32; mrun; by rewrite E, Hpr.
Qed.

(** [p->killed = 1] *)
Definition kill_proc (p : nat) (k : kernel) : kernel := upd_proc p (set_p_killed true) k.

(** The page was mapped: the view is the same, and the page is there. *)
Definition page_added (k : kernel) (p : nat) (A : aspace) (rest l : list Z) (va : Z) (k' : kernel) : Prop :=
  ∃ A' l', touched k p A rest l k' A' l' ∧ ∃ e, as_map A' = <[va / 4096 := e]> (as_map A).

(** C12: The page-fault handler, branch by branch.  A fault at or above [sz], or
    on the guard page, kills the process and does nothing else, and so does one
    that finds no free page.  A fault on a page that is mapped already, such as
    the stack guard of a forked child, whose [guard_page] is not set, panics the
    kernel.  Otherwise a fresh zeroed page is mapped, and no byte the process can
    see changes; if there is a page but none for its page table the page is given
    back and the process killed. *)
Theorem pgflt_correct k p A rest l va :
  ustate k p A rest l → 0 <= va →
  if decide (p_sz (proc_at k p) <= va ∨ va / 4096 * 4096 = p_guard_page (proc_at k p))
  then pgflt va k = Ret tt (kill_proc p k)
  else
    match as_map A !! (va / 4096), l with
    | _, [] => pgflt va k = Ret tt (kill_proc p k)
    | Some _, _ :: _ => pgflt va k = Panic "remap"
    | None, v :: l =>
        (∃ k', pgflt va k = Ret tt k' ∧ page_added k p A rest (v :: l) va k') ∨
        (l = [] ∧ ∃ k' A', pgflt va k = Ret tt (kill_proc p k') ∧ touched k p A rest [v] k' A' [v] ∧ as_map A' = as_map A)
    end.
Proof using Lok.
  intros Hs Hva. pose proof Hs as [Hc Hd Hcr Hsz Hinv Hw]. pose proof (pgflt_run k p A rest l va Hs) as Hrun. case_decide as Hcase.
  { rewrite Hrun. assert ((va >=? p_sz (proc_at k p)) || (va / 4096 * 4096 =? p_guard_page (proc_at k p)) = true) as ->; [|done].
    apply orb_true_iff. rewrite Z.geb_leb, Z.leb_le, Z.eqb_eq. done. }
  assert ((va >=? p_sz (proc_at k p)) || (va / 4096 * 4096 =? p_guard_page (proc_at k p)) = false) as Hfalse.
  { apply orb_false_iff. rewrite Z.geb_leb, Z.leb_gt, Z.eqb_neq. split; [lia|tauto]. }
  unfold KERNBASE in Hsz. assert (0 <= va < 2147483648) as Hr by lia. destruct l as [|v l].
  { rewrite Hrun, Hfalse. mcall (kalloc_eq _ _ (vi_kmem _ _ _ _ Hinv)). by destruct (as_map A !! (va / 4096)). }
  destruct (as_map A !! (va / 4096)) as [e|] eqn:He.
  - destruct (vm_inv_take_fill _ _ _ _ _ _ Hinv (same_except_memset v _ 0)) as (Hka & Hv & Hinv1).
    destruct (page_ok_range v Hv) as [Hv0 _]. rewrite Hrun, Hfalse. mcall Hka. rewrite (proj2 (Z.eqb_neq v 0)) by lia. unfold zero_page. mrun.
    by rewrite (bind_panic _ _ _ _ (mappages_remap (taken k v (memset (k_mem k) v 0 (Z.to_nat PGSIZE))) _ _ _ va _ _ e Hinv1 Hr He)).
  - destruct (pgflt_missing k p A rest v l va Hs) as [(k' & A' & l' & R & T & HM & _)|(-> & k' & A' & R & T & HM)]; [lia|tauto|done|left|right].
    + exists k'. split; [done|by exists A', l'].
    + split; [done|]. exists k', A'. by split_and!.
Qed.

End spec.

(** ** Example *)

(** Process 0 in the address space of Demo.v, with its third page still missing
    and the first as its guard page. *)
Definition demo_user (k : kernel) : kernel :=
  set_k_cur (Some 0%nat) (set_k_cr3 (V2P (page 0))
    (set_k_ptable (set_p_state RUNNING (set_p_sz 12288 (set_p_pgdir (page 0) proc0)) :: replicate 63 proc0) k)).

Lemma demo_ustate k : uvm k demo_space [] demo_rest_free → ustate (demo_user k) 0 demo_space [] demo_rest_free.
Proof.
  intros [[? ? ? ?] ? ? ?]. split; [done|done|done|change (0 <= 12288 <= KERNBASE); unfold KERNBASE; lia| |].
  - split; [split|..]; assumption.
  - intros n e. cbn [as_map demo_space]. rewrite lookup_insert. case_decide; [intros [= <-] _; vm_compute; done|].
    intros [<- <-]%lookup_singleton_Some _. vm_compute. done.
Qed.

Lemma demo_can_touch k : can_touch (demo_user k) 0 demo_space demo_rest_free 8190 4.
Proof.
  split.
  - change (0 <= 8190 ∧ 8190 + 4%nat <= 12288). lia.
  - intros q. rewrite elem_missing. change (p_guard_page (proc_at (demo_user k) 0)) with 0. intros [_ ?]. divmod.
  - apply Nat.leb_le. vm_compute. done.
Qed.


Lemma pgflt_correct_witness :
  let k := demo_user demo1 in
  pgflt 5000 k = Panic "remap" ∧ pgflt 20000 k = Ret tt (kill_proc 0 k) ∧
  ∃ k', pgflt 8200 k = Ret tt k' ∧ page_added k 0 demo_space [] demo_rest_free 8200 k'.
Proof.
  split_and!.
  - exact (pgflt_correct (demo_user demo1) 0 demo_space [] demo_rest_free 5000 (demo_ustate _ demo_uvm) ltac:(lia)).
  - exact (pgflt_correct (demo_user demo1) 0 demo_space [] demo_rest_free 20000 (demo_ustate _ demo_uvm) ltac:(lia)).
  - destruct (pgflt_correct (demo_user demo1) 0 demo_space [] demo_rest_free 8200 (demo_ustate _ demo_uvm) ltac:(lia)) as [H|[H _]].
    + exact H.
    + discriminate H.
Defined.
