(* ===== verification/ProcLife.v ===== *)
(** * The life of a process (src/proc.c: userinit, fork, exit, wait, forkret) *)

From S2P Require Import Prelude Mem CString State Mmu Spinlock Kalloc Vm Proc UserMem Sleeplock Disk Bio Log Fs Dir Pipe File.

(** Segment selectors and flags (src/mmu.h). *)
Definition SEG_UCODE : Z := 3.
Definition SEG_UDATA : Z := 4.
Definition DPL_USER : Z := 3.
Definition FL_IF : Z := 512.

(** [sizeof(p->name)] *)
Definition NAMELEN : nat := 16.

(** [safestrcpy(dst, s, n)] on byte arrays. *)
Definition safestrcpy_bytes (dst s : list Z) (n : nat) : list Z :=
  let c := take (n - 1) (cstr s) in
  c ++ 0 :: drop (length c + 1) dst.

Definition zero_tf : trapframe := mkTrapframe 0 0 0 0 0 0 0 0 0 0 0 0 0 0 0 0 0 0.

(** "initcode" and "/" *)
Definition initcode_name : list Z := [105; 110; 105; 116; 99; 111; 100; 101].

Section life.
Context `{W : Wakeups} `{D : DiskDriver} `{DV : Devsw} `{L : Layout}.

(** [userinit]; [initcode] is the program the linker embeds. *)
Definition userinit (initcode : list Z) : K unit :=
  o <- allocproc ;;
  modify (set_k_initproc o) ;;;
  p <- deref o ;;
  pgdir <- setupkvm ;;
  upd p (set_p_pgdir pgdir) ;;;
  if pgdir =? 0 then panic "userinit: out of memory?"
  else
    inituvm pgdir initcode ;;;
    upd p (set_p_sz PGSIZE) ;;;
    let ds := Z.lor (Z.shiftl SEG_UDATA 3) DPL_USER in
    upd p (set_p_tf (set_tf_eip 0 (set_tf_esp PGSIZE (set_tf_eflags FL_IF (set_tf_ss ds (set_tf_es ds
      (set_tf_ds ds (set_tf_cs (Z.lor (Z.shiftl SEG_UCODE 3) DPL_USER) zero_tf)))))))) ;;;
    upd p (λ x, set_p_name (safestrcpy_bytes (p_name x) initcode_name NAMELEN) x) ;;;
    cwd <- namei [slash] ;;
    upd p (set_p_cwd cwd) ;;;
    acquire LPtable ;;;
    upd p (set_p_state RUNNABLE) ;;;
    release LPtable.

(** The loop of [fork] over the descriptors. *)
Definition fork_files (me np : nat) : K unit :=
  foreach (seq 0 NOFILE) (λ i,
    x <- gets (λ k, proc_at k me) ;;
    match p_ofile x !!! i with
    | Some f =>
        f <- filedup f ;;
        upd np (λ c, set_p_ofile (<[i := Some f]> (p_ofile c)) c)
    | None => ret tt
    end).

Definition fork : K Z :=
  me <- curproc ;;
  o <- allocproc ;;
  match o with
  | None => ret (-1)
  | Some np =>
      x <- gets (λ k, proc_at k me) ;;
      pgdir <- copyuvm (p_pgdir x) (p_sz x) ;;
      upd np (set_p_pgdir pgdir) ;;;
      if pgdir =? 0 then
        kstack <- gets (λ k, p_kstack (proc_at k np)) ;;
        kfree kstack ;;;
        upd np (set_p_kstack 0) ;;;
        upd np (set_p_state UNUSED) ;;;
        ret (-1)
      else
        x <- gets (λ k, proc_at k me) ;;
        upd np (λ c, set_p_tf (set_tf_eax 0 (p_tf x)) (set_p_prio (p_prio x)
          (set_p_parent (Some me) (set_p_sz (p_sz x) c)))) ;;;
        fork_files me np ;;;
        cwd <- deref (p_cwd x) ;;
        cwd <- idup cwd ;;
        upd np (set_p_cwd (Some cwd)) ;;;
        upd np (λ c, set_p_name (safestrcpy_bytes (p_name c) (p_name x) NAMELEN) c) ;;;
        pid <- gets (λ k, p_pid (proc_at k np)) ;;
        acquire LPtable ;;;
        upd np (set_p_state RUNNABLE) ;;;
        release LPtable ;;;
        ret pid
  end.

(** The loop of [exit] over the descriptors. *)
Definition exit_files (me : nat) : K unit :=
  foreach (seq 0 NOFILE) (λ fd,
    x <- gets (λ k, proc_at k me) ;;
    match p_ofile x !!! fd with
    | Some f => fileclose f ;;; upd me (λ c, set_p_ofile (<[fd := None]> (p_ofile c)) c)
    | None => ret tt
    end).

(** The channel of a process pointer; nothing sleeps on the null pointer. *)
Definition wakeup1_proc (p : option nat) : K unit :=
  match p with Some i => wakeup1 (CProc i) | None => ret tt end.

(** The loop of [exit] that passes the children to [init]. *)
Definition reparent (me : nat) : K unit :=
  foreach (seq 0 NPROC) (λ i,
    x <- gets (λ k, proc_at k i) ;;
    init <- gets k_initproc ;;
    when (bool_decide (p_parent x = Some me))
      (upd i (set_p_parent init) ;;;
       when (is_state ZOMBIE x) (wakeup1_proc init))).

Definition exit (status : Z) : K unit :=
  me <- curproc ;;
  upd me (set_p_exit_status status) ;;;
  init <- gets k_initproc ;;
  if bool_decide (init = Some me) then panic "init exiting"
  else
    exit_files me ;;;
    begin_op ;;;
    o <- gets (λ k, p_cwd (proc_at k me)) ;;
    cwd <- deref o ;;
    iput cwd ;;;
    end_op ;;;
    upd me (set_p_cwd None) ;;;
    acquire LPtable ;;;
    parent <- gets (λ k, p_parent (proc_at k me)) ;;
    wakeup1_proc parent ;;;
    reparent me ;;;
    pgdir <- gets (λ k, p_pgdir (proc_at k me)) ;;
    deallocuvm pgdir KERNBASE 0 ;;;
    upd me (set_p_state ZOMBIE) ;;;
    sched ;;;
    panic "zombie exit".

Definition is_child (me : nat) (p : proc) : bool := bool_decide (p_parent p = Some me).

(** What [wait] does with a zombie child. *)
Definition reap (p : nat) (status : Z) : K Z :=
  x <- gets (λ k, proc_at k p) ;;
  ustore status (bytes_of_u32 (p_exit_status x)) ;;;
  kfree (p_kstack x) ;;;
  upd p (set_p_kstack 0) ;;;
  freevm (p_pgdir x) false ;;;
  upd p (λ x, set_p_state UNUSED (set_p_killed false (set_p_name (<[O := 0]> (p_name x))
    (set_p_parent None (set_p_pid 0 x))))) ;;;
  release LPtable ;;;
  ret (p_pid x).

(** The loop of [wait]. *)
Fixpoint wait_loop (fuel : nat) (me : nat) (status : Z) : K Z :=
  z <- gets (λ k, find_index (λ p, is_child me p && is_state ZOMBIE p) (k_ptable k)) ;;
  match z with
  | Some p => reap p status
  | None =>
      havekids <- gets (λ k, existsb (is_child me) (k_ptable k)) ;;
      kl <- gets (λ k, p_killed (proc_at k me)) ;;
      if negb havekids || kl then release LPtable ;;; ret (-1)
      else match fuel with
           | O => λ _, Spin
           | S fuel => sleep (CProc me) LPtable ;;; wait_loop fuel me status
           end
  end.

Definition wait (status : Z) : K Z :=
  me <- curproc ;;
  acquire LPtable ;;;
  wait_loop wakeups me status.

(** [forkret]; [first] is its static variable. *)
Definition forkret (first : bool) : K unit :=
  release LPtable ;;;
  when first (iinit ROOTDEV ;;; initlog ROOTDEV).
End life.
