(* ===== verification/ForkSpec.v ===== *)
(** * What [fork] does (src/proc.c: allocproc, fork)

    [fork] composes the process table, the page allocator, the address spaces,
    the open files and the inodes.  It either makes a child that is a copy of its
    parent, or fails and leaves everything as it was. *)

From S2P Require Import Prelude Mem CString State Mmu Spinlock Kalloc Vm VmSpec Uvm Copyuvm Demo Proc UserMem Sleeplock Disk Bio Log Fs Dir Pipe File ProcLife.

(** ** What stays the same *)

(** The kernel without its memory, its process table and its next pid. *)
Definition others (k : kernel) : kernel :=
  set_k_mem ∅ (set_k_freelist 0 (set_k_nextpid 0 (set_k_ptable [] k))).

(** Only the slot [np], memory and the next pid may differ. *)
Record slot_frame (np : nat) (k k' : kernel) : Prop := {
  sf_others : others k' = others k;
  sf_length : length (k_ptable k') = length (k_ptable k);
  sf_procs : ∀ j, j ≠ np → proc_at k' j = proc_at k j
}.

Lemma slot_frame_refl np k : slot_frame np k k.
Proof. by split. Qed.

Lemma slot_frame_trans np k1 k2 k3 : slot_frame np k1 k2 → slot_frame np k2 k3 → slot_frame np k1 k3.
Proof. intros [A1 B1 C1] [A2 B2 C2]. split; [congruence..|]. intros j Hj. by rewrite C2, C1. Qed.

Lemma slot_frame_mem np k k' : mem_only k k' → slot_frame np k k'.
Proof. intros ->. by split. Qed.

Lemma slot_frame_upd np f k : slot_frame np k (upd_proc np f k).
Proof.
  split; [done|apply length_alter|]. intros j Hj. unfold proc_at, upd_proc. cbn [k_ptable set_k_ptable].
  by rewrite list_lookup_total_alter_ne.
Qed.

Lemma others_field {A} (f : kernel → A) np k k' : (∀ k, f (others k) = f k) → slot_frame np k k' → f k' = f k.
Proof. intros Hf [E _ _]. by rewrite <- (Hf k'), E, Hf. Qed.

Lemma length_upd_proc np f k : length (k_ptable (upd_proc np f k)) = length (k_ptable k).
Proof. apply length_alter. Qed.

Lemma upd_proc_ext np f g k : (∀ x, f x = g x) → upd_proc np f k = upd_proc np g k.
Proof. intros E. unfold upd_proc. f_equal. by apply list_alter_ext. Qed.

Lemma proc_at_upd np f k : (np < length (k_ptable k))%nat → proc_at (upd_proc np f k) np = f (proc_at k np).
Proof. intros H. unfold proc_at, upd_proc. cbn [k_ptable set_k_ptable]. by rewrite list_lookup_total_alter_eq. Qed.

Lemma vm_inv_ext `{L : Layout} k k' A rest l :
  k_mem k' = k_mem k → k_freelist k' = k_freelist k → k_held k' = k_held k → vm_inv k A rest l → vm_inv k' A rest l.
Proof. intros E1 E2 E3 [[H1 H2 H3 H4] H5 H6 H7]. split; [split|..]; rewrite ?E1, ?E2, ?E3; assumption. Qed.

(** The file table and the child's descriptors after the descriptors [js] of [F]
    have been copied. *)
Definition add_ref (x : file) : file := set_f_ref (f_ref x + 1) x.
Definition dup_refs (F : list (option nat)) (js : list nat) (ft : list file) : list file :=
  foldl (λ ft i, match F !!! i with Some f => alter add_ref f ft | None => ft end) ft js.
Definition dup_fds (F : list (option nat)) (js : list nat) (C : list (option nat)) : list (option nat) :=
  foldl (λ C i, match F !!! i with Some f => <[i := Some f]> C | None => C end) C js.

(** How many of the descriptors refer to [f]. *)
Definition count_fd (F : list (option nat)) (js : list nat) (f : nat) : Z := length (filter (λ i, F !!! i = Some f) js).

Lemma lookup_dup_refs F js : ∀ ft f,
  dup_refs F js ft !! f = (λ x, set_f_ref (f_ref x + count_fd F js f) x) <$> ft !! f.
Proof.
  induction js as [|i js IH]; intros ft f.
  - cbn. destruct (ft !! f) as [x|]; [|done]. cbn. f_equal. unfold count_fd. cbn. rewrite Z.add_0_r. by destruct x.
  - change (dup_refs F (i :: js) ft) with (dup_refs F js (match F !!! i with Some f => alter add_ref f ft | None => ft end)).
    rewrite IH. unfold count_fd. rewrite filter_cons. destruct (F !!! i) as [g|] eqn:E.
    + destruct (decide (g = f)) as [->|Hne].
      * rewrite list_lookup_alter_eq, decide_True by done. destruct (ft !! f) as [x|]; [|done].
        cbn [fmap option_fmap option_map length]. unfold add_ref, set_f_ref. cbn [f_ref]. do 2 f_equal. lia.
      * rewrite list_lookup_alter_ne by done. rewrite decide_False by congruence. done.
    + by rewrite decide_False by congruence.
Qed.

Lemma lookup_dup_fds F js : ∀ C i, (∀ j, j ∈ js → (j < length C)%nat) →
  dup_fds F js C !! i = if decide (i ∈ js) then match F !!! i with Some f => Some (Some f) | None => C !! i end else C !! i.
Proof.
  induction js as [|j js IH]; intros C i Hjs; [done|].
  change (dup_fds F (j :: js) C) with (dup_fds F js (match F !!! j with Some f => <[j := Some f]> C | None => C end)).
  assert (j < length C)%nat as Hj by (apply Hjs; by left).
  rewrite IH by (intros m Hm; destruct (F !!! j); rewrite ?length_insert; apply Hjs; by right).
  destruct (decide (i = j)) as [->|Hne].
  - rewrite (decide_True (P := j ∈ j :: js)) by (by left). destruct (F !!! j) as [f|]; [|by case_decide].
    rewrite list_lookup_insert_eq by done. by case_decide.
  - destruct (F !!! j) as [f|]; rewrite ?list_lookup_insert_ne by done; repeat case_decide; try done; set_solver.
Qed.

Lemma dup_fds_all F : length F = NOFILE → dup_fds F (seq 0 NOFILE) (replicate NOFILE None) = F.
Proof.
  intros HF. apply list_eq. intros i. rewrite lookup_dup_fds by (intros j ?%elem_of_seq; rewrite length_replicate; lia).
  destruct (decide (i < NOFILE)%nat) as [Hi|Hi].
  - rewrite decide_True by (apply elem_of_seq; lia). rewrite (list_lookup_lookup_total_lt F) by lia.
    destruct (F !!! i); [done|]. by apply lookup_replicate_2.
  - rewrite decide_False by (rewrite elem_of_seq; lia). rewrite !lookup_ge_None_2; [done| |]; rewrite ?length_replicate; lia.
Qed.

Section fork.
Context `{W : Wakeups} `{D : DiskDriver} `{DV : Devsw} `{L : Layout} {Lok : LayoutOk L}.

(** ** [allocproc] *)

(** The child before [fork] fills it in. *)
Definition embryo (pid kstack : Z) (x : proc) : proc :=
  set_p_context (mkContext 0 0 0 0 forkret_addr) (set_p_kstack kstack (set_p_prio NORM_PRIO (set_p_pid pid (set_p_state EMBRYO x)))).

Lemma allocproc_none k : k_held k = [] → find_index (is_state UNUSED) (k_ptable k) = None → allocproc k = Ret None k.
Proof using Type.
  intros Hh Hn. unfold allocproc. mcall (acquire_eq LPtable k ltac:(rewrite Hh; apply not_elem_of_nil)). rewrite Hh.
  cbn [k_ptable set_k_held]. rewrite Hn. mcall (release_eq LPtable (set_k_held [LPtable] k) [] eq_refl (not_elem_of_nil _)).
  unfold ret. f_equal. rewrite <- Hh. by destruct k.
Qed.

(** The slot with its new pid, when the table has been unlocked. *)
Definition allocproc_slot (np : nat) (k : kernel) : kernel :=
  set_k_nextpid (i32 (k_nextpid k + 1))
    (upd_proc np (λ x, set_p_prio NORM_PRIO (set_p_pid (k_nextpid k) (set_p_state EMBRYO x))) k).

Lemma allocproc_found k np : k_held k = [] → find_index (is_state UNUSED) (k_ptable k) = Some np →
  allocproc k =
    (kstack <- kalloc ;;
     upd np (set_p_kstack kstack) ;;;
     if kstack =? 0 then upd np (set_p_state UNUSED) ;;; ret None
     else
       store32 (kstack + KSTACKSIZE - TF_SIZE - 4) trapret_addr ;;;
       upd np (set_p_context (mkContext 0 0 0 0 forkret_addr)) ;;;
       ret (Some np)) (allocproc_slot np k).
Proof using Type.
  intros Hh Hn. unfold allocproc. mcall (acquire_eq LPtable k ltac:(rewrite Hh; apply not_elem_of_nil)). rewrite Hh.
  cbn [k_ptable set_k_held]. rewrite Hn. unfold upd at 1 2 3. mrun.
  set (k1 := upd_proc np (set_p_prio NORM_PRIO) _).
  assert (release LPtable k1 = Ret tt (allocproc_slot np k)) as R.
  { rewrite (release_eq LPtable k1 [] eq_refl (not_elem_of_nil _)). f_equal. unfold k1, allocproc_slot, upd_proc.
    cbn [k_ptable set_k_ptable set_k_held set_k_nextpid k_nextpid]. rewrite !alter_alter. destruct k. cbn in *. by subst. }
  mcall R. done.
Qed.

Lemma allocproc_slot_frame np k : slot_frame np k (allocproc_slot np k).
Proof using Type. eapply slot_frame_trans; [apply slot_frame_upd|]. by split. Qed.

Lemma allocproc_ok k S rest v l np :
  k_held k = [] → find_index (is_state UNUSED) (k_ptable k) = Some np → uvm k S rest (v :: l) →
  ∃ k', allocproc k = Ret (Some np) k' ∧ slot_frame np k k' ∧ proc_at k' np = embryo (k_nextpid k) v (proc_at k np) ∧
    uvm k' S (v :: rest) l ∧ k_nextpid k' = i32 (k_nextpid k + 1) ∧ same_except [v] (k_mem k) (k_mem k').
Proof using Lok.
  intros Hh Hf Hinv. pose proof (find_index_lt _ _ _ Hf) as Hlt. set (k1 := allocproc_slot np k).
  assert (uvm k1 S rest (v :: l)) as Hinv1 by (by apply (vm_inv_ext k)).
  set (m := st32 (k_mem k1) (v + KSTACKSIZE - TF_SIZE - 4) trapret_addr).
  assert (same_except [v] (k_mem k1) m) as Hm by (apply same_except_st32; unfold in_page, KSTACKSIZE, TF_SIZE; lia).
  destruct (vm_inv_take_fill k1 S _ v l m Hinv1 Hm) as (Hka & Hv & Hinv2). destruct (page_ok_range v Hv) as [Hv0 _].
  set (k' := upd_proc np (set_p_context (mkContext 0 0 0 0 forkret_addr)) (upd_proc np (set_p_kstack v) (taken k1 v m))).
  exists k'. split_and!.
  - rewrite (allocproc_found k np Hh Hf). fold k1. mcall Hka. unfold upd at 1. mrun.
    rewrite (proj2 (Z.eqb_neq v 0)) by lia. unfold store32, upd. mrun. done.
  - eapply slot_frame_trans; [apply allocproc_slot_frame|]. eapply slot_frame_trans; [by apply (slot_frame_mem np k1 (taken k1 v m))|].
    eapply slot_frame_trans; apply slot_frame_upd.
  - assert (np < length (k_ptable k1))%nat as Hl1 by (unfold k1; rewrite (sf_length _ _ _ (allocproc_slot_frame np k)); done).
    unfold k'. rewrite proc_at_upd by (cbn; by rewrite length_alter). rewrite proc_at_upd by done.
    change (proc_at (taken k1 v m) np) with (proc_at (upd_proc np (λ x, set_p_prio NORM_PRIO (set_p_pid (k_nextpid k) (set_p_state EMBRYO x))) k) np).
    by rewrite proc_at_upd.
  - eapply vm_inv_perm; [apply (Permutation_middle (user_frames (as_map S)) rest v)|]. by apply (vm_inv_ext (taken k1 v m)).
  - done.
  - exact Hm.
Qed.

Lemma allocproc_oom k S rest np :
  k_held k = [] → find_index (is_state UNUSED) (k_ptable k) = Some np → uvm k S rest [] →
  ∃ k', allocproc k = Ret None k' ∧ slot_frame np k k' ∧ p_state (proc_at k' np) = UNUSED ∧ uvm k' S rest [] ∧ k_mem k' = k_mem k.
Proof using Lok.
  intros Hh Hf Hinv. pose proof (find_index_lt _ _ _ Hf) as Hlt. set (k1 := allocproc_slot np k).
  assert (uvm k1 S rest []) as Hinv1 by (by apply (vm_inv_ext k)).
  exists (upd_proc np (set_p_state UNUSED) (upd_proc np (set_p_kstack 0) k1)). split_and!.
  - rewrite (allocproc_found k np Hh Hf). fold k1. mcall (kalloc_eq _ _ (vi_kmem _ _ _ _ Hinv1)). cbn [default head].
    unfold upd. mrun. done.
  - eapply slot_frame_trans; [apply allocproc_slot_frame|]. eapply slot_frame_trans; apply slot_frame_upd.
  - rewrite proc_at_upd; [done|]. cbn. by rewrite !length_alter.
  - by apply (vm_inv_ext k).
  - done.
Qed.

(** ** The files *)

Lemma filedup_eq k f : k_held k = [] → 1 <= f_ref (file_at k f) →
  filedup f k = Ret f (upd_file f (λ x, set_f_ref (f_ref x + 1) x) k).
Proof using Type.
  intros Hh Hr. unfold filedup, get_file. mcall (acquire_eq LFtable k ltac:(rewrite Hh; apply not_elem_of_nil)). rewrite Hh.
  change (file_at (set_k_held [LFtable] k) f) with (file_at k f). rewrite (proj2 (Z.ltb_ge _ _)) by lia. unfold upd_f. mrun.
  set (k1 := upd_file _ _ _). mcall (release_eq LFtable k1 [] eq_refl (not_elem_of_nil _)). unfold ret. f_equal.
  unfold k1, upd_file. destruct k. cbn in *. by subst.
Qed.

Lemma idup_eq k ip : k_held k = [] → idup ip k = Ret ip (upd_inode ip (λ i, set_i_ref (i_ref i + 1) i) k).
Proof using Type.
  intros Hh. unfold idup, upd_i. mcall (acquire_eq LIcache k ltac:(rewrite Hh; apply not_elem_of_nil)). rewrite Hh. mrun.
  set (k1 := upd_inode _ _ _). mcall (release_eq LIcache k1 [] eq_refl (not_elem_of_nil _)). unfold ret. f_equal.
  unfold k1, upd_inode. destruct k. cbn in *. by subst.
Qed.

(** Every descriptor refers to a file in use. *)
Definition fds_ok (F : list (option nat)) (ft : list file) : Prop :=
  length F = NOFILE ∧ ∀ i f, F !! i = Some (Some f) → ∃ x, ft !! f = Some x ∧ 1 <= f_ref x.

Lemma fork_files_run me np F js : ∀ k, k_held k = [] → me ≠ np → p_ofile (proc_at k me) = F → (np < length (k_ptable k))%nat →
  fds_ok F (k_ftable k) → (∀ j, j ∈ js → (j < NOFILE)%nat) →
  foreach js (λ i,
    x <- gets (λ k, proc_at k me) ;;
    match p_ofile x !!! i with
    | Some f => f <- filedup f ;; upd np (λ c, set_p_ofile (<[i := Some f]> (p_ofile c)) c)
    | None => ret tt
    end) k = Ret tt (set_k_ftable (dup_refs F js (k_ftable k)) (upd_proc np (λ c, set_p_ofile (dup_fds F js (p_ofile c)) c) k)).
Proof using Type.
  induction js as [|i js IH]; intros k Hh Hne HF Hnp [Hlen Hok] Hjs; cbn [foreach].
  { unfold ret. f_equal. unfold upd_proc. cbn [dup_refs dup_fds foldl].
    replace (alter _ np (k_ptable k)) with (k_ptable k); [by destruct k|]. apply list_eq. intros j.
    destruct (decide (np = j)) as [<-|]; [|by rewrite list_lookup_alter_ne]. rewrite list_lookup_alter_eq.
    destruct (k_ptable k !! np) as [[]|]; done. }
  assert (i < length F)%nat as Hi by (rewrite Hlen; apply Hjs; by left).
  assert (∀ j, j ∈ js → (j < NOFILE)%nat) as Hjs' by (intros j Hj; apply Hjs; by right).
  mrun. rewrite HF. change (dup_refs F (i :: js) ?ft) with (dup_refs F js (match F !!! i with Some f => alter add_ref f ft | None => ft end)).
  assert (∀ C, dup_fds F (i :: js) C = dup_fds F js (match F !!! i with Some f => <[i := Some f]> C | None => C end)) as Hfds by done.
  rewrite (upd_proc_ext np _ (λ c, set_p_ofile (dup_fds F js (match F !!! i with Some f => <[i := Some f]> (p_ofile c) | None => p_ofile c end)) c))
    by (intros; by rewrite Hfds).
  destruct (F !!! i) as [f|] eqn:E; [|mrun; by apply IH].
  destruct (Hok i f) as (x & Hx & Hr); [by rewrite (list_lookup_lookup_total_lt F), E|].
  assert (file_at k f = x) as Hfx by (unfold file_at; by rewrite (list_lookup_total_correct _ _ _ Hx)).
  rewrite (bind_bind_eq _ _ _ _ _ _ (filedup_eq k f Hh ltac:(by rewrite Hfx))). unfold upd at 1. mrun.
  rewrite IH; [|done|done| |cbn; by rewrite length_alter| |done].
  - f_equal. unfold upd_file, upd_proc. cbn [k_ftable k_ptable set_k_ftable set_k_ptable]. rewrite alter_alter. done.
  - rewrite <- HF. unfold proc_at, upd_proc. cbn [k_ptable set_k_ptable upd_file set_k_ftable].
    by rewrite list_lookup_total_alter_ne by done.
  - split; [done|]. intros j g Hj. destruct (Hok j g Hj) as (y & Hy & Hry). cbn [k_ftable upd_proc upd_file set_k_ftable set_k_ptable].
    destruct (decide (f = g)) as [<-|]; [|rewrite list_lookup_alter_ne by done; by exists y].
    rewrite list_lookup_alter_eq, Hy. exists (add_ref y). split; [done|]. destruct y; cbn in *; lia.
Qed.

(** ** [fork] *)

(** Process [me] runs, in the address space [S]; the free slots of the table hold
    no files. *)
Record forkable k me (S : aspace) (rest l : list Z) (ip : nat) : Prop := {
  fp_cur : k_cur k = Some me;
  fp_held : k_held k = [];
  fp_state : p_state (proc_at k me) ≠ UNUSED;
  fp_dir : p_pgdir (proc_at k me) = as_dir S;
  fp_sz : 0 <= p_sz (proc_at k me) <= KERNBASE;
  fp_uvm : uvm k S rest l;
  fp_fds : fds_ok (p_ofile (proc_at k me)) (k_ftable k);
  fp_cwd : p_cwd (proc_at k me) = Some ip;
  fp_free : ∀ j, p_state (proc_at k j) = UNUSED → p_ofile (proc_at k j) = replicate NOFILE None
}.

(** The child made of the parent [x] in a slot that was [c]. *)
Definition child_of (me : nat) (pid kstack pgdir : Z) (x c : proc) : proc :=
  mkProc (p_sz x) pgdir kstack RUNNABLE pid (Some me) (set_tf_eax 0 (p_tf x)) (mkContext 0 0 0 0 forkret_addr)
    (p_chan c) (p_killed c) (p_ofile x) (p_cwd x) (safestrcpy_bytes (p_name c) (p_name x) NAMELEN)
    (p_exit_status c) (p_guard_page c) (p_prio x).

(** What a [fork] that made a child in slot [np] leaves. *)
Record forked k me S rest l ip np k' : Prop := {
  fk_slot : find_index (is_state UNUSED) (k_ptable k) = Some np;
  fk_mem : ∃ A v l',
    proc_at k' np = child_of me (k_nextpid k) v (as_dir A) (proc_at k me) (proc_at k np) ∧
    uvm k' S (owned A ++ v :: rest) l' ∧ uvm k' A (owned S ++ v :: rest) l' ∧ v :: owned A ++ l' ≡ₚ l ∧
    image_of (k_mem k) (k_mem k') ((p_sz (proc_at k me) + 4095) / 4096) S A;
  fk_procs : ∀ j, j ≠ np → proc_at k' j = proc_at k j;
  fk_files : ∀ f, k_ftable k' !! f =
    (λ x, set_f_ref (f_ref x + count_fd (p_ofile (proc_at k me)) (seq 0 NOFILE) f) x) <$> k_ftable k !! f;
  fk_inodes : k_icache k' = alter (λ i, set_i_ref (i_ref i + 1) i) ip (k_icache k);
  fk_pid : k_nextpid k' = i32 (k_nextpid k + 1);
  fk_rest : set_k_ftable [] (set_k_icache [] (others k')) = set_k_ftable [] (set_k_icache [] (others k))
}.

(** What a [fork] that failed leaves: a slot that is still free, and every page. *)
Record fork_failed k (S : aspace) (rest l : list Z) k' : Prop := {
  ff_slot : ∃ np, slot_frame np k k' ∧ (k' = k ∨ p_state (proc_at k' np) = UNUSED);
  ff_mem : ∃ l', uvm k' S rest l' ∧ l' ≡ₚ l
}.

(** [image_of] does not depend on the kernel stack. *)
Lemma image_of_before k k1 S rest v l m' hi A :
  uvm k S rest (v :: l) → same_except [v] (k_mem k) (k_mem k1) → hi <= 524288 →
  image_of (k_mem k1) m' hi S A → image_of (k_mem k) m' hi S A.
Proof using Lok.
  intros Hinv Hs Hhi [H1 H2]. split; [|done]. intros n Hn. specialize (H1 n Hn). destruct (as_map S !! n) as [e|] eqn:E; [|done].
  destruct H1 as (w & Hw & Hb). exists w. split; [done|]. intros o Ho. rewrite Hb by done.
  destruct (uvm_frame_ok _ _ _ _ _ _ Hinv E) as (Hf & _ & _ & _ & Hfree); [lia|].
  eapply (page_kept _ _ _ (frame e)); [exact Hs| |by apply page_ok_aligned| |unfold in_page; lia].
  - destruct (vm_inv_aligned _ _ _ _ Hinv) as (_ & _ & _ & Hla). apply Forall_cons in Hla as [? _]. by repeat constructor.
  - rewrite list_elem_of_singleton. intros E'. apply Hfree. rewrite E'. by left.
Qed.

(** The part of [fork] after the page directory has been copied. *)
Definition fork_finish (me np : nat) : K Z :=
  x <- gets (λ k, proc_at k me) ;;
  upd np (λ c, set_p_tf (set_tf_eax 0 (p_tf x)) (set_p_prio (p_prio x) (set_p_parent (Some me) (set_p_sz (p_sz x) c)))) ;;;
  fork_files me np ;;;
  cwd <- deref (p_cwd x) ;;
  cwd <- idup cwd ;;
  upd np (set_p_cwd (Some cwd)) ;;;
  upd np (λ c, set_p_name (safestrcpy_bytes (p_name c) (p_name x) NAMELEN) c) ;;;
  pid <- gets (λ k, p_pid (proc_at k np)) ;;
  acquire LPtable ;;;
  upd np (set_p_state RUNNABLE) ;;;
  release LPtable ;;;
  ret pid.

Lemma fork_finish_run me np k ip : k_held k = [] → me ≠ np → (np < length (k_ptable k))%nat →
  p_cwd (proc_at k me) = Some ip → fds_ok (p_ofile (proc_at k me)) (k_ftable k) → p_ofile (proc_at k np) = replicate NOFILE None →
  p_context (proc_at k np) = mkContext 0 0 0 0 forkret_addr →
  let x := proc_at k me in
  fork_finish me np k = Ret (p_pid (proc_at k np))
    (set_k_ftable (dup_refs (p_ofile x) (seq 0 NOFILE) (k_ftable k))
      (upd_inode ip (λ i, set_i_ref (i_ref i + 1) i)
        (upd_proc np (λ c, child_of me (p_pid c) (p_kstack c) (p_pgdir c) x c) k))).
Proof using Type.
  intros Hh Hne Hnp Hcwd Hfds Hno Hctx x. fold x in Hcwd, Hfds. unfold fork_finish. unfold upd at 1. mrun. fold x. set (k1 := upd_proc np _ k).
  assert (proc_at k1 me = x) as Hx1 by (unfold k1; by rewrite (sf_procs _ _ _ (slot_frame_upd np _ k))).
  assert (length (k_ptable k1) = length (k_ptable k)) as Hl1 by (apply slot_frame_upd).
  assert (fork_files me np k1 = Ret tt (set_k_ftable (dup_refs (p_ofile x) (seq 0 NOFILE) (k_ftable k))
    (upd_proc np (λ c, set_p_ofile (dup_fds (p_ofile x) (seq 0 NOFILE) (p_ofile c)) c) k1))) as R1.
  { unfold fork_files. rewrite (fork_files_run me np (p_ofile x) (seq 0 NOFILE) k1); [done|done|done|by rewrite Hx1|lia|done|].
    intros j ?%elem_of_seq. lia. }
  mcall R1. set (k2 := set_k_ftable _ _). rewrite Hcwd. cbn [deref]. mrun.
  mcall (idup_eq k2 ip Hh). unfold upd at 1 2. mrun. set (k3 := upd_proc np _ _).
  mcall (acquire_eq LPtable k3 ltac:(change (k_held k3) with (k_held k); rewrite Hh; apply not_elem_of_nil)).
  unfold upd. mrun. set (k4 := upd_proc np (set_p_state RUNNABLE) _).
  assert (k_held k4 = [LPtable]) as Hh4 by (change (k_held k4) with (LPtable :: k_held k); by rewrite Hh).
  mcall (release_eq LPtable k4 [] Hh4 (not_elem_of_nil _)). unfold ret.
  assert (p_pid (proc_at k3 np) = p_pid (proc_at k np)) as Epid.
  { unfold k3. set (k2' := upd_inode ip _ k2). assert (length (k_ptable k2') = length (k_ptable k)) as Hl2 by (etrans; [apply length_alter|done]).
    rewrite proc_at_upd by (rewrite length_upd_proc; lia). rewrite proc_at_upd by lia.
    change (proc_at k2' np) with (proc_at (upd_proc np (λ c, set_p_ofile (dup_fds (p_ofile x) (seq 0 NOFILE) (p_ofile c)) c) k1) np).
    rewrite proc_at_upd by lia. unfold k1. by rewrite proc_at_upd. }
  rewrite Epid. apply (f_equal (Ret _)).
  unfold k4, k3, k2, k1, upd_inode, upd_proc.
  cbn [k_ptable k_icache k_ftable k_held set_k_ptable set_k_icache set_k_ftable set_k_held]. rewrite !alter_alter.
  rewrite (list_alter_ext _ (λ c, child_of me (p_pid c) (p_kstack c) (p_pgdir c) x c) (k_ptable k) (k_ptable k) np); [|..|done].
  - etrans; [|apply (set_held_id (set_k_ftable _ (set_k_icache _ (set_k_ptable _ k))))].
      generalize (alter (λ c, child_of me (p_pid c) (p_kstack c) (p_pgdir c) x c) np (k_ptable k)).
      generalize (alter (λ i, set_i_ref (i_ref i + 1) i) ip (k_icache k)) (dup_refs (p_ofile x) (seq 0 NOFILE) (k_ftable k)).
      generalize (dup_fds (p_ofile x) (seq 0 NOFILE)). clearbody x. clear -Hh. intros G I R P.
      change (k_held (set_k_ftable _ (set_k_icache _ (set_k_ptable _ k)))) with (k_held k). rewrite Hh. reflexivity.
  - intros c Hc. assert (proc_at k np = c) as Ec by (unfold proc_at; by rewrite (list_lookup_total_correct _ _ _ Hc)).
    rewrite Ec in Hno, Hctx. transitivity (set_p_ofile (dup_fds (p_ofile x) (seq 0 NOFILE) (p_ofile c))
      (child_of me (p_pid c) (p_kstack c) (p_pgdir c) x c)).
    + unfold child_of. rewrite <- Hctx, <- Hcwd. reflexivity.
    + rewrite Hno, dup_fds_all by apply Hfds. reflexivity.
Qed.

Lemma fork_run k me : k_cur k = Some me → fork k =
  (o <- allocproc ;;
   match o with
   | None => ret (-1)
   | Some np =>
       x <- gets (λ k, proc_at k me) ;;
       pgdir <- copyuvm (p_pgdir x) (p_sz x) ;;
       upd np (set_p_pgdir pgdir) ;;;
       if pgdir =? 0 then
         kstack <- gets (λ k, p_kstack (proc_at k np)) ;;
         kfree kstack ;;; upd np (set_p_kstack 0) ;;; upd np (set_p_state UNUSED) ;;; ret (-1)
       else fork_finish me np
   end) k.
Proof using Type. intros Hc. unfold fork, curproc, myproc. mrun. rewrite Hc. mrun. done. Qed.

(** The failing end of [fork]. *)
Lemma fork_undo k S rest v l np :
  uvm k S (v :: rest) l → p_kstack (proc_at k np) = v → (np < length (k_ptable k))%nat →
  ∃ k', (kstack <- gets (λ k, p_kstack (proc_at k np)) ;;
         kfree kstack ;;; upd np (set_p_kstack 0) ;;; upd np (set_p_state UNUSED) ;;; ret (-1)) k = Ret (-1) k' ∧
    slot_frame np k k' ∧ p_state (proc_at k' np) = UNUSED ∧ uvm k' S rest (v :: l).
Proof using Lok.
  intros Hinv Hks Hnp. apply (vm_inv_perm _ _ _ (v :: (user_frames (as_map S) ++ rest))) in Hinv; [|symmetry; apply Permutation_middle].
  apply vm_inv_free in Hinv as [Hkf Hinv'].
  exists (upd_proc np (set_p_state UNUSED) (upd_proc np (set_p_kstack 0) (freed k v))). split_and!.
  - mrun. rewrite Hks. mcall Hkf. unfold upd. mrun. done.
  - eapply slot_frame_trans; [by apply (slot_frame_mem np k (freed k v))|]. eapply slot_frame_trans; apply slot_frame_upd.
  - rewrite proc_at_upd by (by rewrite length_upd_proc). done.
  - by apply (vm_inv_ext (freed k v)).
Qed.

(** What [fork_finish] makes of a slot that holds the copied address space is a forked child. *)
Lemma forked_made k me S rest v l ip np A k1 k3 l2 :
  find_index (is_state UNUSED) (k_ptable k) = Some np → uvm k S rest (v :: l) → same_except [v] (k_mem k) (k_mem k1) →
  slot_frame np k k3 → proc_at k3 np = set_p_pgdir (as_dir A) (embryo (k_nextpid k) v (proc_at k np)) →
  (np < length (k_ptable k3))%nat →
  uvm k3 S (owned A ++ v :: rest) l2 → uvm k3 A (owned S ++ v :: rest) l2 → owned A ++ l2 ≡ₚ l →
  image_of (k_mem k1) (k_mem k3) ((p_sz (proc_at k me) + 4095) / 4096) S A →
  (p_sz (proc_at k me) + 4095) / 4096 <= 524288 → k_nextpid k3 = i32 (k_nextpid k + 1) →
  forked k me S rest (v :: l) ip np
    (set_k_ftable (dup_refs (p_ofile (proc_at k me)) (seq 0 NOFILE) (k_ftable k))
      (upd_inode ip (λ i, set_i_ref (i_ref i + 1) i)
        (upd_proc np (λ c, child_of me (p_pid c) (p_kstack c) (p_pgdir c) (proc_at k me) c) k3))).
Proof using Lok.
  intros Hf Hinv Hs1 F3 Ec3 Hnp HinvS HinvA HP Him Hhi Hpid. set (k4 := upd_proc np _ k3).
  split; [done| | | | |done|].
  - exists A, v, l2. split_and!; [|by apply (vm_inv_ext k3)|by apply (vm_inv_ext k3)|by rewrite HP|by apply (image_of_before k k1 S rest v l)].
    change (proc_at k4 np = child_of me (k_nextpid k) v (as_dir A) (proc_at k me) (proc_at k np)).
    unfold k4. rewrite proc_at_upd by done. by rewrite Ec3.
  - intros j Hj. change (proc_at k4 j = proc_at k j). rewrite <- (sf_procs _ _ _ F3 j Hj). by apply slot_frame_upd.
  - intros f. apply lookup_dup_refs.
  - change (alter (λ i, set_i_ref (i_ref i + 1) i) ip (k_icache k3) = alter (λ i, set_i_ref (i_ref i + 1) i) ip (k_icache k)).
    by rewrite (others_field k_icache np k).
  - change (set_k_ftable [] (set_k_icache [] (others k3)) = set_k_ftable [] (set_k_icache [] (others k))). by rewrite (sf_others _ _ _ F3).
Qed.

End fork.

(** ** Example *)

(** Process 0 in the address space of Demo.v, with file 3 open twice. *)
Definition demo_parent_proc : proc :=
  set_p_ofile (Some 3%nat :: Some 3%nat :: replicate 14 None) (set_p_cwd (Some 0%nat)
    (set_p_state RUNNING (set_p_sz 8192 (set_p_pgdir (page 0) proc0)))).
Definition demo_parent (k : kernel) : kernel :=
  set_k_held [] (set_k_cur (Some 0%nat) (set_k_nextpid 2
    (set_k_ftable (replicate 100 (mkFile FD_INODE 1 true true 0 (Some 0%nat) 0))
      (set_k_ptable (demo_parent_proc :: replicate 63 proc0) k)))).

Lemma demo_forkable k : uvm k demo_space [] demo_rest_free → forkable (demo_parent k) 0 demo_space [] demo_rest_free 0.
Proof.
  intros [[? ? ? ?] ? ? ?]. split; [done|done|done|done|change (0 <= 8192 <= KERNBASE); unfold KERNBASE; lia| | |done|].
  - split; [split; try assumption; apply not_elem_of_nil|..]; assumption.
  - split; [done|]. intros i f Hi. exists (mkFile FD_INODE 1 true true 0 (Some 0%nat) 0). split; [|cbn; lia].
    apply lookup_replicate. split; [done|]. change (p_ofile (proc_at (demo_parent k) 0)) with (Some 3%nat :: Some 3%nat :: replicate 14 (@None nat)) in Hi.
    destruct i as [|[|i]]; cbn [lookup list_lookup] in Hi; [injection Hi as <-; lia..|].
    apply lookup_replicate in Hi as [? _]. done.
  - intros j. unfold proc_at. cbn [k_ptable demo_parent set_k_held set_k_cur set_k_nextpid set_k_ftable set_k_ptable].
    destruct j as [|j]; [done|]. intros _. change ((demo_parent_proc :: replicate 63 proc0) !!! S j) with (replicate 63 proc0 !!! j).
    rewrite list_lookup_total_alt. destruct (replicate 63 proc0 !! j) eqn:E; [|done]. by apply lookup_replicate in E as [-> _].
Qed.

