(* ===== verification/WaitSpec.v ===== *)
(** * What [wait] does with a zombie (src/proc.c: wait)

    The parent collects the exit status of a child that has ended, and the last
    pages of the child, which its own [exit] could not free. *)

From S2P Require Import Prelude Mem CString State Mmu Spinlock Kalloc Vm VmSpec Uvm Kvm Copyuvm Demo Proc UserMem UserSpec Sleeplock Disk Bio Log Fs Dir Pipe File ProcLife ForkSpec.

Section wait.
Context `{W : Wakeups} `{D : DiskDriver} `{DV : Devsw} `{L : Layout} {Lok : LayoutOk L}.

(** Process [me] runs in [S]; slot [z] is its first child that is a zombie, with
    the kernel stack [ks] and the page tables of [A], whose user half is empty. *)
Record has_zombie k me (S A : aspace) (ks : Z) (rest l : list Z) (z : nat) : Prop := {
  hz_state : ustate k me S (owned A ++ ks :: rest) l;
  hz_held : k_held k = [];
  hz_run : p_state (proc_at k me) = RUNNING;
  hz_zombie : find_index (λ p, is_child me p && is_state ZOMBIE p) (k_ptable k) = Some z;
  hz_dir : p_pgdir (proc_at k z) = as_dir A;
  hz_kstack : p_kstack (proc_at k z) = ks;
  hz_rep : rep (k_mem k) A;
  hz_user : user_frames (as_map A) = []
}.

(** The slot after the child has been reaped. *)
Definition reaped (x : proc) : proc :=
  set_p_state UNUSED (set_p_killed false (set_p_name (<[O := 0]> (p_name x)) (set_p_parent None (set_p_pid 0 (set_p_kstack 0 x))))).

(** The tables of an empty user half are freed. *)
Lemma tables_freed k S A rest l :
  uvm k S (owned A ++ rest) l → rep (k_mem k) A → user_frames (as_map A) = [] →
  ∃ k' l', freevm (as_dir A) false k = Ret tt k' ∧ uvm k' S rest l' ∧ l' ≡ₚ owned A ++ l ∧ mem_only k k' ∧
    ∀ q b, q ∈ owned S ++ rest → in_page q b → ldb (k_mem k') b = ldb (k_mem k) b.
Proof using Lok.
  intros Hinv Hrep Hu. pose proof (other_space _ _ _ _ _ Hinv Hrep) as HinvA.
  destruct (freevm_spec false k A _ l HinvA) as (k' & l' & R & Hk & HP & Hmo & Hs). rewrite Hu in Hs. cbn [app] in HP, Hs.
  assert (∀ q b, q ∈ owned S ++ rest → in_page q b → ldb (k_mem k') b = ldb (k_mem k) b) as Hkeep.
  { intros q b Hq Hb. destruct (uvm_apart _ _ _ _ _ HinvA Hq) as [Hok Hn].
    destruct (vm_inv_aligned _ _ _ _ HinvA) as (Hda & Hpa & _ & Hla).
    apply (page_kept _ _ _ q b Hs); [|by apply page_ok_aligned|done|done]. rewrite Forall_cons, Forall_app. done. }
  assert (l' ≡ₚ owned A ++ l) as HP' by (rewrite HP; unfold owned; rewrite Hu, app_nil_r; done).
  exists k', l'. split_and!; [done| |done|done|done]. destruct Hinv as [_ HrS Hnd Hp]. split; [done| | |].
  - eapply rep_ext; [|exact HrS]. intros p b Hpo. apply Hkeep. apply elem_of_app. by left.
  - rewrite HP'. eapply NoDup_Permutation_proper; [|exact Hnd]. unfold owned. solve_Permutation.
  - unfold owned in Hp. rewrite !Forall_cons, !Forall_app in Hp. rewrite !Forall_cons, !Forall_app. tauto.
Qed.

(** What [reap] does to memory. *)
Record collected k me S A ks rest l z (status : Z) k' S' l' : Prop := {
  cl_state : ustate k' me S' rest l';
  cl_view : ∀ a, 0 <= a < KERNBASE → uview (k_mem k') S' a =
    let bs := bytes_of_u32 (p_exit_status (proc_at k z)) in
    if decide (status <= a < status + 4) then bs !!! Z.to_nat (a - status) else uview (k_mem k) S a;
  cl_pages : owned S' ++ l' ≡ₚ owned S ++ owned A ++ ks :: l;
  cl_rest : ∀ q b, q ∈ rest → in_page q b → ldb (k_mem k') b = ldb (k_mem k) b;
  cl_frame : slot_frame z k k';
  cl_slot : proc_at k' z = reaped (proc_at k z)
}.

Lemma vm_inv_held k k' A rest l :
  k_mem k' = k_mem k → k_freelist k' = k_freelist k → LKmem ∉ k_held k' → vm_inv k A rest l → vm_inv k' A rest l.
Proof using Type. intros E1 E2 Hn [[H1 H2 H3 H4] H5 H6 H7]. split; [split|..]; rewrite ?E1, ?E2; assumption. Qed.

Lemma ustate_ext k k' me S rest l rest' l' :
  k_cur k' = k_cur k → k_cr3 k' = k_cr3 k → proc_at k' me = proc_at k me → uvm k' S rest' l' →
  ustate k me S rest l → ustate k' me S rest' l'.
Proof using Type. intros E1 E2 E3 Hinv [Hc Hpd Hcr Hsz _ Hw]. split; [by rewrite E1|by rewrite E3|by rewrite E2|by rewrite E3|done|done]. Qed.

(** The kernel stack and the tables of the child go back to the free list. *)
Lemma reap_memory k me S A ks rest l z :
  ustate k me S (owned A ++ ks :: rest) l → rep (k_mem k) A → user_frames (as_map A) = [] → me ≠ z →
  ∃ k1 k' l', kfree ks k = Ret tt k1 ∧ freevm (as_dir A) false (upd_proc z (set_p_kstack 0) k1) = Ret tt k' ∧
    ustate k' me S rest l' ∧ l' ≡ₚ owned A ++ ks :: l ∧ mem_only (upd_proc z (set_p_kstack 0) k) k' ∧
    ∀ q b, q ∈ owned S ++ rest → in_page q b → ldb (k_mem k') b = ldb (k_mem k) b.
Proof using Lok.
  intros Hs Hrep Hu Hne. pose proof (us_uvm _ _ _ _ _ Hs) as Hinv.
  assert (vm_inv k S (ks :: user_frames (as_map S) ++ owned A ++ rest) l) as Hinv1.
  { eapply vm_inv_perm; [|exact Hinv]. rewrite !app_assoc, Permutation_middle. done. }
  pose proof (vm_inv_owned _ _ _ _ _ Hinv1) as Hown. apply vm_inv_free in Hinv1 as [Hkf Hinv2]. fold (uvm (freed k ks) S (owned A ++ rest) (ks :: l)) in Hinv2.
  set (k1 := upd_proc z (set_p_kstack 0) (freed k ks)).
  assert (∀ q b, q ∈ owned S ++ owned A ++ rest → in_page q b → ldb (k_mem k1) b = ldb (k_mem k) b) as Hkeep.
  { intros q b Hq Hb. change (ldb (freed_mem k ks) b = ldb (k_mem k) b). destruct Hown as (Hok & Hn1 & Hn2 & Hn3 & _).
    assert (q ≠ ks) as Hqk.
    { intros ->. unfold owned in Hq. rewrite elem_of_app, elem_of_cons, !elem_of_app in *. tauto. }
    apply (page_kept _ _ _ q b (freed_same k ks)); [by repeat constructor; apply page_ok_aligned| |by rewrite list_elem_of_singleton|done].
    destruct (vm_inv_aligned _ _ _ _ Hinv2) as (Hda & Hpa & Hra & _). unfold owned in Hq.
    rewrite Forall_forall in Hpa, Hra. rewrite elem_of_app, elem_of_cons, elem_of_app in Hq.
    destruct Hq as [[->|[Hq|Hq]]|Hq]; [done|by apply Hpa|apply Hra, elem_of_app; by left|apply Hra, elem_of_app; by right]. }
  assert (uvm k1 S (owned A ++ rest) (ks :: l)) as Hinv3 by (by apply (vm_inv_ext (freed k ks))).
  destruct (tables_freed k1 S A rest (ks :: l) Hinv3) as (k' & l' & R & Hinv' & HP & Hmo & Hq); [|done|].
  { eapply rep_ext; [|exact Hrep]. intros q b Hq. apply (Hkeep q). rewrite !elem_of_app. tauto. }
  exists (freed k ks), k', l'. split_and!; [done|done| |done| |].
  - eapply ustate_ext; [..|exact Hs]; [by rewrite Hmo|by rewrite Hmo| |done].
    rewrite Hmo. change (proc_at (upd_proc z (set_p_kstack 0) (freed k ks)) me = proc_at k me). by rewrite (sf_procs _ _ _ (slot_frame_upd z _ _)).
  - eapply mem_only_trans; [|exact Hmo]. unfold mem_only, k1, upd_proc, freed. reflexivity.
  - intros q b Hqi Hb. rewrite (Hq q) by done. apply (Hkeep q); [|done]. rewrite !elem_of_app in *. tauto.
Qed.

Lemma uview_same m m' S a : 0 <= a < KERNBASE →
  (∀ q b, q ∈ user_frames (as_map S) → in_page q b → ldb m' b = ldb m b) → uview m' S a = uview m S a.
Proof using Type.
  intros Ha Hk. unfold uview, KERNBASE in *. destruct (as_map S !! (a / 4096)) as [e|] eqn:E; [|done].
  apply (Hk (frame e)); [|unfold in_page; divmod]. eapply user_frames_elem; [done|divmod].
Qed.

(** C7: [wait] with a child that has ended returns the pid of the first such
    child, and the four bytes at [status], and no others of the parent's memory,
    then hold the status the child exited with, even if the page they are on had
    still to be mapped.  The child's kernel stack, page tables and directory are
    free again, each page once; its slot is free, with no pid and no parent; no
    other process and no page of anyone else has changed. *)
Theorem wait_correct k me S A ks rest l z status :
  has_zombie k me S A ks rest l z → can_touch k me S l status 4 →
  ∃ k' S' l', wait status k = Ret (p_pid (proc_at k z)) k' ∧ collected k me S A ks rest l z status k' S' l'.
Proof using Lok.
  intros [Hs Hh Hrun Hz Hd Hks Hrep Hu] Hct. pose proof Hs as [Hc Hpd Hcr Hsz Hinv Hw].
  pose proof Hz as [(x & Hx & Hxz) _]%find_index_Some. apply andb_true_iff in Hxz as [_ Hxs%bool_decide_eq_true].
  assert (proc_at k z = x) as Ex by (unfold proc_at; by rewrite (list_lookup_total_correct _ _ _ Hx)).
  assert (me ≠ z) as Hne by (intros ->; congruence). pose proof (lookup_lt_Some _ _ _ Hx) as Hlt.
  unfold wait, curproc, myproc. mrun. rewrite Hc. mrun.
  mcall (acquire_eq LPtable k ltac:(rewrite Hh; apply not_elem_of_nil)). rewrite Hh. set (k1 := set_k_held [LPtable] k).
  assert (ustate k1 me S (owned A ++ ks :: rest) l) as Hs1.
  { split; try done. apply (vm_inv_held k); [done|done|cbn; by rewrite list_elem_of_singleton|done]. }
  destruct (ustore_spec me _ (bytes_of_u32 (p_exit_status (proc_at k z))) k1 S l status Hs1 (bytes_of_u32_byte _)) as (k2 & S2 & l2 & R2 & [S2s M2 V2 Q2 P2]);
    [by destruct Hct; split|].
  assert (find_index (λ p, is_child me p && is_state ZOMBIE p) (k_ptable k1) = Some z) as Hz1 by exact Hz.
  assert (wait_loop wakeups me status k1 = reap z status k1) as ->.
  { destruct wakeups; cbn [wait_loop]; mrun; by rewrite Hz1. }
  unfold reap. mrun. change (proc_at k1 z) with (proc_at k z). mcall R2. rewrite Hks, Hd.
  assert (∀ q b, q ∈ owned A → in_page q b → ldb (k_mem k2) b = ldb (k_mem k) b) as HA.
  { intros q b Hq. apply (Q2 q). apply elem_of_app. by left. }
  destruct (reap_memory k2 me S2 A ks rest l2 z S2s) as (k3 & k4 & l4 & R3 & R4 & Hs4 & HP4 & M4 & Q4);
    [by eapply rep_ext|done|done|]. mcall R3. unfold upd at 1. mrun. mcall R4. unfold upd. mrun.
  set (k5 := upd_proc z _ k4).
  assert (∃ m f, k5 = set_k_mem m (set_k_freelist f (set_k_held [LPtable] (upd_proc z reaped k)))) as (m & f & E5).
  { exists (k_mem k4), (k_freelist k4). unfold k5. unfold mem_only in M4, M2. rewrite M4 at 1. rewrite M2 at 1. unfold upd_proc, k1.
    cbn [k_ptable set_k_ptable set_k_mem set_k_freelist set_k_held]. by rewrite alter_alter. }
  assert (k_held k5 = [LPtable]) as Hh5 by (by rewrite E5).
  mcall (release_eq LPtable k5 [] Hh5 (not_elem_of_nil _)). set (k' := set_k_held [] k5).
  assert (slot_frame z k k') as Fr.
  { eapply slot_frame_trans; [apply (slot_frame_upd z reaped)|]. unfold k'. rewrite E5. split; [|done|done].
    unfold others. rewrite <- Hh. by destruct k. }
  exists k', S2, l4. split; [done|]. split; [| | | |done|].
  - eapply (ustate_ext k4); [done..| |apply (vm_inv_held k4); [done|done|apply not_elem_of_nil|apply Hs4]|exact Hs4].
    change (proc_at k5 me = proc_at k4 me). unfold k5. by rewrite (sf_procs _ _ _ (slot_frame_upd z _ _)).
  - intros a Ha. change (k_mem k') with (k_mem k4). rewrite <- V2 by done. apply uview_same; [done|].
    intros q b Hq. apply (Q4 q). apply elem_of_app. left. right. apply elem_of_app. by right.
  - rewrite HP4. transitivity (owned A ++ [ks] ++ (owned S2 ++ l2)); [solve_Permutation|]. rewrite P2. solve_Permutation.
  - intros q b Hq Hb. change (ldb (k_mem k4) b = ldb (k_mem k) b). rewrite (Q4 q) by (done || (apply elem_of_app; by right)).
    apply (Q2 q); [|done]. rewrite elem_of_app, elem_of_cons. tauto.
  - unfold k'. rewrite E5. change (proc_at (upd_proc z reaped k) z = reaped (proc_at k z)). by rewrite proc_at_upd.
Qed.
End wait.

(** ** Example *)

(** Process 0 as in UserSpec.v with a child in slot 1 that exited with 3 * 256;
    the child has page 4 for its empty page directory and page 5 for its stack. *)
Definition demo_child_space : aspace := mkAspace (page 4) ∅ ∅.
Definition demo_family (k : kernel) : kernel :=
  let parent := set_p_state RUNNING (set_p_sz 12288 (set_p_pgdir (page 0) proc0)) in
  let child := set_p_state ZOMBIE (set_p_pid 7 (set_p_parent (Some 0%nat) (set_p_exit_status 768
    (set_p_kstack (page 5) (set_p_pgdir (page 4) proc0))))) in
  let k1 := set_k_freelist (ld32 (k_mem k) (page 4)) k in
  set_k_held [] (set_k_cur (Some 0%nat) (set_k_cr3 (V2P (page 0)) (set_k_ptable (parent :: child :: replicate 62 proc0)
    (set_k_freelist (ld32 (k_mem k1) (page 5)) k1)))).

Lemma demo_has_zombie k : uvm k demo_space [] demo_rest_free → rep (k_mem k) demo_child_space →
  has_zombie (demo_family k) 0 demo_space demo_child_space (page 5) [] [page 6; page 7] 1.
Proof.
  intros Hinv Hrep. split; try done. apply (ustate_ext (demo_user k) _ 0 _ [] demo_rest_free); [done|done| | |by apply demo_ustate].
  2: { do 2 apply vm_inv_take in Hinv. apply (vm_inv_held (set_k_freelist (ld32 (k_mem k) (page 5)) (set_k_freelist (ld32 (k_mem k) (page 4)) k)));
         [done|done|apply not_elem_of_nil|]. eapply vm_inv_perm; [|exact Hinv]. rewrite app_nil_r.
       rewrite (Permutation_app_comm _ (owned demo_child_space ++ [page 5])). cbn. apply perm_swap. }
  reflexivity.
Qed.

Lemma demo_child_rep : rep (k_mem demo1) demo_child_space.
Proof. apply rep_b_sound. vm_compute. reflexivity. Qed.

Lemma demo_family_touch k : can_touch (demo_family k) 0 demo_space [page 6; page 7] 8190 4.
Proof.
  split.
  - change (0 <= 8190 ∧ 8190 + 4%nat <= 12288). lia.
  - intros q. rewrite elem_missing. change (p_guard_page (proc_at (demo_family k) 0)) with 0. intros [_ ?]. divmod.
  - apply Nat.leb_le. vm_compute. reflexivity.
Qed.

Lemma wait_correct_witness :
  let k := demo_family demo1 in
  ∃ k' S' l', wait (W := 0%nat) 8190 k = Ret 7 k' ∧ collected k 0 demo_space demo_child_space (page 5) [] [page 6; page 7] 1 8190 k' S' l'.
Proof.
  exact (wait_correct (W := 0%nat) (demo_family demo1) 0 demo_space demo_child_space (page 5) [] [page 6; page 7] 1 8190
    (demo_has_zombie _ demo_uvm demo_child_rep) (demo_family_touch _)).
Defined.
