(* ===== verification/Rtc.v ===== *)
(** * The real-time clock (src/lapic.c: cmos_read, fill_rtcdate, cmostime; src/date.h)

    The clock is hardware: a register read at a given moment has some value.
    Moments are counted by the reads of this call, so a computation carries the
    number of reads done so far. *)

From S2P Require Import Prelude.

Definition CMOS_STATA : Z := 10.
Definition CMOS_STATB : Z := 11.
Definition CMOS_UIP : Z := 128.
Definition SECS : Z := 0.
Definition MINS : Z := 2.
Definition HOURS : Z := 4.
Definition DAY : Z := 7.
Definition MONTH : Z := 8.
Definition YEAR : Z := 9.

(** [struct rtcdate] *)
Record rtcdate := mkRtcdate {
  rtc_second : Z; rtc_minute : Z; rtc_hour : Z; rtc_day : Z; rtc_month : Z; rtc_year : Z
}.
#[export] Instance rtcdate_eq_dec : EqDecision rtcdate.
Proof. solve_decision. Defined.

(** The byte the clock returns for a register at a moment. *)
Class Clock := clock : nat → Z → Z.

(** [CONV(x)]: from two binary-coded decimal digits. *)
Definition conv (x : Z) : Z := u32 (u32 (Z.shiftr x 4 * 10) + Z.land x 15).

Definition conv_date (d : rtcdate) : rtcdate :=
  mkRtcdate (conv (rtc_second d)) (conv (rtc_minute d)) (conv (rtc_hour d)) (conv (rtc_day d))
    (conv (rtc_month d)) (conv (rtc_year d)).

Section rtc.
Context `{C : Clock}.

Definition cmos_read (reg : Z) : M nat Z := λ t, Ret (clock t reg) (S t).

Definition fill_rtcdate : M nat rtcdate :=
  s <- cmos_read SECS ;;
  mi <- cmos_read MINS ;;
  h <- cmos_read HOURS ;;
  d <- cmos_read DAY ;;
  mo <- cmos_read MONTH ;;
  y <- cmos_read YEAR ;;
  ret (mkRtcdate s mi h d mo y).

(** The loop that reads until two readings agree. *)
Fixpoint read_date (fuel : nat) : M nat rtcdate :=
  match fuel with
  | O => λ _, Spin
  | S fuel =>
      t1 <- fill_rtcdate ;;
      a <- cmos_read CMOS_STATA ;;
      if negb (Z.land a CMOS_UIP =? 0) then read_date fuel
      else
        t2 <- fill_rtcdate ;;
        if bool_decide (t1 = t2) then ret t1 else read_date fuel
  end.

Definition cmostime (fuel : nat) : M nat rtcdate :=
  sb <- cmos_read CMOS_STATB ;;
  t1 <- read_date fuel ;;
  let r := if Z.land sb 4 =? 0 then conv_date t1 else t1 in
  ret (mkRtcdate (rtc_second r) (rtc_minute r) (rtc_hour r) (rtc_day r) (rtc_month r)
         (u32 (rtc_year r + 2000))).
End rtc.
