(* ===== verification/Exec.v ===== *)
(** * Program loading (src/exec.c, src/elf.h; src/vm.c: loaduvm) *)

From S2P Require Import Prelude Mem CString State Mmu Spinlock Kalloc Vm Proc UserMem Sleeplock Disk Bio Log Fs Dir Pipe File ProcLife.

(** ** The executable format (src/elf.h) *)

Definition ELF_MAGIC : Z := 1179403647.   (* 0x464C457F *)
Definition ELF_PROG_LOAD : Z := 1.
Definition ELFHDR_SIZE : Z := 52.
Definition PROGHDR_SIZE : Z := 32.

(** The fields of [struct elfhdr] and [struct proghdr] that the kernel reads. *)
Record elfhdr := mkElfhdr { elf_magic : Z; elf_entry : Z; elf_phoff : Z; elf_phnum : Z }.
Definition elfhdr_of (bs : list Z) : elfhdr :=
  mkElfhdr (get32 bs 0) (get32 bs 24) (get32 bs 28) (get16 bs 44).

Record proghdr := mkProghdr { ph_type : Z; ph_off : Z; ph_vaddr : Z; ph_filesz : Z; ph_memsz : Z }.
Definition proghdr_of (bs : list Z) : proghdr :=
  mkProghdr (get32 bs 0) (get32 bs 4) (get32 bs 8) (get32 bs 16) (get32 bs 20).

(** The part of the path after its last slash. *)
Fixpoint last_elem (last path : list Z) : list Z :=
  match path with
  | [] => last
  | c :: path => last_elem (if c =? slash then path else last) path
  end.

Section exec.
Context `{W : Wakeups} `{D : DiskDriver} `{DV : Devsw} `{L : Layout}.

(** [loaduvm]'s loop over the pages of the segment. *)
Fixpoint loaduvm_loop (fuel : nat) (pgdir addr : Z) (ip : nat) (offset i sz : Z) : K Z :=
  if i <? sz then
    match fuel with
    | O => λ _, Spin
    | S fuel =>
        pte <- walkpgdir pgdir (u32 (addr + i)) false ;;
        if pte =? 0 then panic "loaduvm: address should exist"
        else
          e <- load32 pte ;;
          let pa := PTE_ADDR e in
          let n := if sz - i <? PGSIZE then sz - i else PGSIZE in
          r <- readi ip (u32 (offset + i)) n ;;
          modify (λ k, set_k_mem (store_bytes (k_mem k) (P2V pa) r.2) k) ;;;
          if negb (u32 r.1 =? n) then ret (-1)
          else loaduvm_loop fuel pgdir addr ip offset (u32 (i + PGSIZE)) sz
    end
  else ret 0.

Definition loaduvm (pgdir addr : Z) (ip : nat) (offset sz : Z) : K Z :=
  if negb (addr mod PGSIZE =? 0) then panic "loaduvm: addr must be page aligned"
  else loaduvm_loop (page_steps 0 sz) pgdir addr ip offset 0 sz.

(** The loop over the program headers: the size reached, or [None] for [bad]. *)
Fixpoint load_segments (count : nat) (ip : nat) (pgdir off sz : Z) : K (option Z) :=
  match count with
  | O => ret (Some sz)
  | S count =>
      r <- readi ip off PROGHDR_SIZE ;;
      if negb (r.1 =? PROGHDR_SIZE) then ret None
      else
        let ph := proghdr_of r.2 in
        let off' := u32 (off + PROGHDR_SIZE) in
        if negb (ph_type ph =? ELF_PROG_LOAD) || (ph_memsz ph =? 0) then load_segments count ip pgdir off' sz
        else if ph_memsz ph <? ph_filesz ph then ret None
        else if u32 (ph_vaddr ph + ph_memsz ph) <? ph_vaddr ph then ret None
        else
          sz <- allocuvm pgdir sz (u32 (ph_vaddr ph + ph_memsz ph)) ;;
          if sz =? 0 then ret None
          else if negb (ph_vaddr ph mod PGSIZE =? 0) then ret None
          else
            r <- loaduvm pgdir (ph_vaddr ph) ip (ph_off ph) (ph_filesz ph) ;;
            if r <? 0 then ret None else load_segments count ip pgdir off' sz
  end.

(** The loop that pushes the argument strings: the stack pointer and the
    addresses of the strings, or [None] for [bad]. *)
Fixpoint push_args (pgdir sp : Z) (argc : nat) (argv : list (list Z)) : K (option (Z * list Z)) :=
  match argv with
  | [] => ret (Some (sp, []))
  | arg :: argv =>
      if (MAXARG <=? argc)%nat then ret None
      else
        let sp := Z.land (u32 (sp - (length arg + 1))) (Z.lnot 3) in
        r <- copyout pgdir sp (arg ++ [0]) ;;
        if r <? 0 then ret None
        else
          o <- push_args pgdir sp (S argc) argv ;;
          ret ((λ q, (q.1, sp :: q.2)) <$> o)
  end.

(** [ustack]: the fake return address, [argc], [argv], the pointers, a null. *)
Definition ustack (sp : Z) (ptrs : list Z) : list Z :=
  let argc : Z := length ptrs in
  [4294967295; argc; u32 (sp - (argc + 1) * 4)] ++ ptrs ++ [0].

Definition words_bytes (ws : list Z) : list Z := mjoin (bytes_of_u32 <$> ws).

(** [bad:], with the inode still held and without. *)
Definition exec_bad_ip (pgdir : Z) (ip : nat) : K Z :=
  when (negb (pgdir =? 0)) (freevm pgdir true) ;;;
  iunlockput ip ;;;
  end_op ;;;
  ret (-1).
Definition exec_bad (pgdir : Z) : K Z := freevm pgdir true ;;; ret (-1).

(** From the allocation of the user stack on. *)
Definition exec_stack (me : nat) (path : list Z) (argv : list (list Z)) (entry pgdir sz : Z) : K Z :=
  let sz := PGROUNDUP sz in
  upd me (set_p_guard_page sz) ;;;
  sz <- allocuvm pgdir sz (u32 (sz + 2 * PGSIZE)) ;;
  if sz =? 0 then exec_bad pgdir
  else
    clearpteu pgdir (u32 (sz - 2 * PGSIZE)) ;;;
    o <- push_args pgdir sz 0 argv ;;
    match o with
    | None => exec_bad pgdir
    | Some (sp, ptrs) =>
        let us := ustack sp ptrs in
        let sp := u32 (sp - length us * 4) in
        r <- copyout pgdir sp (words_bytes us) ;;
        if r <? 0 then exec_bad pgdir
        else
          upd me (λ x, set_p_name (safestrcpy_bytes (p_name x) (last_elem path path) NAMELEN) x) ;;;
          oldpgdir <- gets (λ k, p_pgdir (proc_at k me)) ;;
          upd me (λ x, set_p_tf (set_tf_esp sp (set_tf_eip entry (p_tf x))) (set_p_sz sz (set_p_pgdir pgdir x))) ;;;
          switchuvm (Some me) ;;;
          freevm oldpgdir true ;;;
          ret 0
    end.

Definition exec (path : list Z) (argv : list (list Z)) : K Z :=
  me <- curproc ;;
  begin_op ;;;
  o <- namei path ;;
  match o with
  | None => end_op ;;; ret (-1)
  | Some ip =>
      ilock ip ;;;
      r <- readi ip 0 ELFHDR_SIZE ;;
      if negb (r.1 =? ELFHDR_SIZE) then exec_bad_ip 0 ip
      else
        let elf := elfhdr_of r.2 in
        if negb (elf_magic elf =? ELF_MAGIC) then exec_bad_ip 0 ip
        else
          pgdir <- setupkvm ;;
          if pgdir =? 0 then exec_bad_ip 0 ip
          else
            o <- load_segments (Z.to_nat (elf_phnum elf)) ip pgdir (elf_phoff elf) 0 ;;
            match o with
            | None => exec_bad_ip pgdir ip
            | Some sz =>
                iunlockput ip ;;;
                end_op ;;;
                exec_stack me path argv (elf_entry elf) pgdir sz
            end
  end.
End exec.
