(* ===== verification/SysProc.v ===== *)
(** * Process system calls (src/sysproc.c) *)

From S2P Require Import Prelude Mem CString State Mmu Spinlock Kalloc Vm Proc UserMem Sleeplock Disk Bio Log Fs Dir Pipe File ProcLife Rtc.

(** [sizeof(struct rtcdate)] *)
Definition RTCDATE_SIZE : Z := 24.

Section sysproc.
Context `{W : Wakeups} `{D : DiskDriver} `{DV : Devsw} `{L : Layout} `{C : Clock}.

Definition sys_fork : K Z := fork.

Definition sys_exit : K Z :=
  o <- argint 0 ;;
  match o with
  | None => ret (-1)
  | Some status => exit (i32 (Z.shiftl status 8)) ;;; ret 0
  end.

Definition sys_wait : K Z :=
  o <- argptr 0 4 ;;
  match o with None => ret (-1) | Some status => wait status end.

Definition sys_kill : K Z :=
  o <- argint 0 ;;
  match o with None => ret (-1) | Some pid => kill pid end.

Definition sys_getpid : K Z := p <- curproc ;; gets (λ k, p_pid (proc_at k p)).

Definition sys_sbrk : K Z :=
  o <- argint 0 ;;
  match o with
  | None => ret (-1)
  | Some n =>
      p <- curproc ;;
      addr <- gets (λ k, i32 (p_sz (proc_at k p))) ;;
      if n >? 0 then upd p (λ x, set_p_sz (u32 (p_sz x + n)) x) ;;; ret addr
      else if n <? 0 then r <- growproc n ;; if r <? 0 then ret (-1) else ret addr
      else ret addr
  end.

(** The loop of [sys_sleep]; the comparison with [n] is unsigned. *)
Fixpoint sleep_loop (fuel : nat) (ticks0 n : Z) : K Z :=
  t <- gets k_ticks ;;
  if u32 (t - ticks0) <? u32 n then
    kl <- killed ;;
    if kl : bool then release LTicks ;;; ret (-1)
    else match fuel with
         | O => λ _, Spin
         | S fuel => sleep CTicks LTicks ;;; sleep_loop fuel ticks0 n
         end
  else release LTicks ;;; ret 0.

Definition sys_sleep : K Z :=
  o <- argint 0 ;;
  match o with
  | None => ret (-1)
  | Some n =>
      acquire LTicks ;;;
      ticks0 <- gets k_ticks ;;
      sleep_loop wakeups ticks0 n
  end.

Definition sys_uptime : K Z :=
  acquire LTicks ;;;
  xticks <- gets k_ticks ;;
  release LTicks ;;;
  ret (i32 xticks).

(** [sys_date]: the fields [cmostime] stores, in the order of [struct rtcdate]. *)
Definition sys_date : K Z :=
  o <- argptr 0 RTCDATE_SIZE ;;
  match o with
  | None => ret (-1)
  | Some d =>
      match cmostime wakeups O with
      | Ret r _ =>
          ustore d (mjoin (bytes_of_u32 <$>
            [rtc_second r; rtc_minute r; rtc_hour r; rtc_day r; rtc_month r; rtc_year r])) ;;;
          ret 0
      | _ => λ _, Spin
      end
  end.

Definition sys_getprio : K Z :=
  o <- argint 0 ;;
  match o with None => ret (-1) | Some pid => getprio pid end.

(** [sys_setprio] fetches the priority with [argptr]: the value itself is
    checked as if it were the address of an [enum proc_prio]. *)
Definition sys_setprio : K Z :=
  o <- argint 0 ;;
  match o with
  | None => ret (-1)
  | Some pid =>
      o <- argptr 1 4 ;;
      match o with None => ret (-1) | Some prio => setprio pid prio end
  end.
End sysproc.
