(* ===== verification/SysSpec.v ===== *)
(** * System-call arguments and [sbrk] (src/syscall.c, src/sysproc.c) *)

From S2P Require Import Prelude Mem CString State Mmu Spinlock Kalloc Vm VmSpec Uvm Copyuvm Copyout Demo Proc UserMem UserSpec.
From S2P Require Import Sleeplock Disk Bio Log Fs Dir Pipe File ProcLife ForkSpec WaitSpec Rtc SysProc.

Section args.
Context `{W : Wakeups} `{D : DiskDriver} `{DV : Devsw} `{L : Layout} {Lok : LayoutOk L} `{C : Clock}.
Implicit Types (k : kernel) (p : nat) (A : aspace).

(** The address of the [n]-th argument on the user stack, and the word there. *)
Definition arg_addr k p (n : Z) : Z := u32 (tf_esp (p_tf (proc_at k p)) + 4 + 4 * n).
Definition arg_word k A (addr : Z) : Z := i32 (u32_of_bytes (ubytes (k_mem k) A addr 4)).

(** The argument lies in the process's memory, or is refused. *)
Definition arg_ready k p A l (n : Z) : Prop :=
  arg_addr k p n + 4 <= p_sz (proc_at k p) → can_touch k p A l (arg_addr k p n) 4.

Lemma argint_spec k p A rest l n :
  ustate k p A rest l → arg_ready k p A l n →
  ∃ k' A' l', argint n k = Ret (if decide (arg_addr k p n + 4 <= p_sz (proc_at k p)) then Some (arg_word k A (arg_addr k p n)) else None) k' ∧
    touched k p A rest l k' A' l'.
Proof using Lok.
  intros Hs Hr. pose proof Hs as [Hc _ _ Hsz _ _]. unfold argint, fetchint, curproc, myproc. mrun. rewrite Hc. mrun. rewrite Hc. mrun.
  fold (arg_addr k p n). set (addr := arg_addr k p n) in *. unfold KERNBASE in Hsz.
  assert (0 <= addr < 2 ^ 32) as Ha by (apply u32_range). case_decide as Hd.
  - rewrite Z.geb_leb, (proj2 (Z.leb_gt _ _)), u32_small, Z.gtb_ltb, (proj2 (Z.ltb_ge _ _)) by (unfold is_u32; lia). cbn [orb].
    destruct (uload_spec p rest 4 k A l addr Hs (Hr Hd)) as (k' & A' & l' & R & T). exists k', A', l'. split; [|done]. mcall R. done.
  - exists k, A, l. split; [|by apply touched_refl].
    assert ((addr >=? p_sz (proc_at k p)) || (u32 (addr + 4) >? p_sz (proc_at k p)) = true) as ->; [|done].
    destruct (Z.le_gt_cases (p_sz (proc_at k p)) addr); apply orb_true_iff; [left; rewrite Z.geb_leb; by apply Z.leb_le|right].
    rewrite u32_small, Z.gtb_ltb by (unfold is_u32; lia). apply Z.ltb_lt. lia.
Qed.

(** C15: [argptr] lets through exactly the pointers whose whole block lies in the
    process's memory: given the [n]-th argument [i] and a size, it returns [i] if
    [i] up to [i + size] is below [sz], and fails otherwise, also when the
    argument itself is outside of the process; it changes nothing the process
    sees.  The sum cannot wrap around, because [sz] is at most [KERNBASE]. *)
Theorem argptr_correct k p A rest l n size :
  ustate k p A rest l → arg_ready k p A l n → 0 <= size < 2 ^ 31 →
  ∃ r k' A' l', argptr n size k = Ret r k' ∧ touched k p A rest l k' A' l' ∧
    let i := u32 (arg_word k A (arg_addr k p n)) in let sz := p_sz (proc_at k p) in
    r = if decide (arg_addr k p n + 4 <= sz ∧ i < sz ∧ i + size <= sz) then Some i else None.
Proof using Lok.
  intros Hs Hr Hsize. destruct (argint_spec k p A rest l n Hs Hr) as (k' & A' & l' & R & T). pose proof Hs as [Hc _ _ Hsz _ _].
  unfold argptr, curproc, myproc. mrun. rewrite Hc. mrun. mcall R. pose proof (to_mem _ _ _ _ _ _ _ _ T) as Hmo.
  assert (proc_at k' p = proc_at k p) as Ep by (by rewrite Hmo).
  set (i := u32 (arg_word k A (arg_addr k p n))). assert (0 <= i < 2 ^ 32) as Hi by apply u32_range. unfold KERNBASE in Hsz.
  eexists _, k', A', l'. split; [|split; [exact T|reflexivity]].
  destruct (decide (arg_addr k p n + 4 <= p_sz (proc_at k p))) as [Hd|Hd]; [|by rewrite decide_False by tauto].
  mrun. rewrite Ep. fold i. rewrite (proj2 (Z.ltb_ge size 0)) by lia. cbn [orb]. rewrite Z.geb_leb, Z.gtb_ltb.
  destruct (Z.leb_spec (p_sz (proc_at k p)) i); cbn [orb]; [by rewrite decide_False by lia|].
  rewrite (u32_small (i + size)) by (unfold is_u32; lia).
  destruct (Z.ltb_spec (p_sz (proc_at k p)) (i + size)); [by rewrite decide_False by lia|by rewrite decide_True by lia].
Qed.

(** ** [sbrk] *)

(** The memory of [p] is as before, but zero from [lo] to [hi]. *)
Record trimmed k p A (rest l : list Z) (lo hi : Z) (k' : kernel) (A' : aspace) (l' : list Z) : Prop := {
  tr_state : ustate k' p A' rest l';
  tr_mem : mem_only k k';
  tr_view : ∀ a, 0 <= a < KERNBASE → uview (k_mem k') A' a = if decide (lo <= a < hi) then 0 else uview (k_mem k) A a;
  tr_rest : ∀ q b, q ∈ rest → in_page q b → ldb (k_mem k') b = ldb (k_mem k) b;
  tr_pages : owned A' ++ l' ≡ₚ owned A ++ l
}.

Lemma trimmed_touched k p A rest l k' A' l' lo : touched k p A rest l k' A' l' → trimmed k p A rest l lo lo k' A' l'.
Proof using Type. intros [H1 H2 H3 H4 H5]. split; try done. intros a Ha. rewrite decide_False by lia. by apply H3. Qed.

Lemma touched_trimmed k p A rest l k1 A1 l1 lo hi k2 A2 l2 :
  touched k p A rest l k1 A1 l1 → trimmed k1 p A1 rest l1 lo hi k2 A2 l2 → trimmed k p A rest l lo hi k2 A2 l2.
Proof using Type.
  intros [_ M1 V1 R1 P1] [S2 M2 V2 R2 P2]. split; [done|by eapply mem_only_trans| | |by rewrite P2].
  - intros a Ha. rewrite V2, V1 by done. done.
  - intros q b Hq Hb. by rewrite (R2 q), (R1 q).
Qed.

Lemma shrinks_pages k k' A A' l l' : shrinks k k' A A' l l' → owned A' ++ l' ≡ₚ owned A ++ l.
Proof using Type.
  intros Hs. unfold owned. cbn [app]. rewrite (sh_dir _ _ _ _ _ _ Hs). unfold pt_pages. rewrite (sh_pt _ _ _ _ _ _ Hs), <- !app_assoc.
  by rewrite (sh_pages _ _ _ _ _ _ Hs).
Qed.

Lemma vm_inv_rest_apart k A rest l q : vm_inv k A rest l → q ∈ rest → q ∉ pt_pages A ++ l.
Proof using Type.
  intros [_ _ Hnd _] Hq. apply NoDup_cons in Hnd as [_ Hnd]. apply NoDup_app in Hnd as (_ & Hx & Hnd).
  apply NoDup_app in Hnd as (_ & Hy & _). rewrite elem_of_app. intros [H|H]; [|by apply (Hy q)].
  apply (Hx q H), elem_of_app. by left.
Qed.

Lemma shrink_spec k p A rest l newsz :
  ustate k p A rest l → 0 <= newsz < p_sz (proc_at k p) →
  ∃ k' A' l', deallocuvm (as_dir A) (p_sz (proc_at k p)) newsz k = Ret newsz k' ∧
    trimmed k p A rest l (PGROUNDUP newsz) (PGROUNDUP (p_sz (proc_at k p))) k' A' l'.
Proof using Lok.
  intros [Hc Hd Hcr Hsz Hinv Hw] Hn. destruct (deallocuvm_spec k A rest l (p_sz (proc_at k p)) newsz Hinv Hn (proj2 Hsz)) as (k' & l' & R & Hinv' & Hsh).
  set (oldsz := p_sz (proc_at k p)) in *. set (A' := set_map A _) in *. exists k', A', l'. split; [done|].
  destruct (vm_inv_aligned _ _ _ _ Hinv') as (_ & Hpa & Hra & Hla). pose proof (sh_same _ _ _ _ _ _ Hsh) as Hsame.
  assert (Forall aligned (pt_pages A ++ l')) as Hal by (apply Forall_app; split; [exact Hpa|exact Hla]).
  split.
  - rewrite (sh_mem_only _ _ _ _ _ _ Hsh). split; try done; [by rewrite <- (sh_mem_only _ _ _ _ _ _ Hsh)|].
    intros n e He. unfold A' in He; cbn [as_map set_map] in He. rewrite lookup_unmap in He. case_decide; [done|]. by apply Hw.
  - apply Hsh.
  - intros a Ha. unfold KERNBASE in *. rewrite !PGROUNDUP_eq by (unfold is_u32; lia). unfold uview. unfold A'; cbn [as_map set_map]. rewrite lookup_unmap.
    destruct (decide ((newsz + 4095) / 4096 <= a / 4096 < (oldsz + 4095) / 4096)); [by rewrite decide_True by divmod|].
    rewrite decide_False by divmod. destruct (as_map A !! (a / 4096)) as [e|] eqn:He; [|done].
    assert (as_map A' !! (a / 4096) = Some e) as He' by (unfold A'; cbn [as_map set_map]; by rewrite lookup_unmap, decide_False by lia).
    destruct (uvm_frame_ok _ _ _ _ _ _ Hinv' He') as (Hf & _ & Hpt & _ & Hfl); [divmod|].
    apply (page_kept _ _ _ (frame e) _ Hsame); [done|by apply page_ok_aligned| |unfold in_page; divmod]. rewrite elem_of_app. tauto.
  - intros q b Hq Hb. rewrite Forall_app, !Forall_forall in Hra. apply (page_kept _ _ _ q _ Hsame); [done|by apply Hra| |done].
    by apply (vm_inv_rest_apart _ _ _ _ _ Hinv'), elem_of_app; right.
  - by eapply shrinks_pages.
Qed.
(** The process has size [sz'], and its memory is zero from [lo] to [hi]. *)
Definition resized k p A (rest l : list Z) (sz' lo hi : Z) (k' : kernel) : Prop :=
  ∃ k1 A' l', trimmed k p A rest l lo hi k1 A' l' ∧ k' = upd_proc p (set_p_sz sz') k1 ∧ (sz' <= KERNBASE → ustate k' p A' rest l').

Lemma set_p_sz_id x : set_p_sz (p_sz x) x = x.
Proof using Type. by destruct x. Qed.

Lemma upd_proc_id p f k : f (proc_at k p) = proc_at k p → upd_proc p f k = k.
Proof using Type.
  intros E. unfold upd_proc. destruct k. unfold set_k_ptable. cbn [State.k_ptable]. f_equal.
  apply list_eq. intros j. destruct (decide (p = j)) as [<-|]; [|by rewrite list_lookup_alter_ne].
  rewrite list_lookup_alter_eq. unfold proc_at in E. cbn [State.k_ptable] in E. rewrite list_lookup_total_alt in E.
  destruct (k_ptable !! p); [cbn in *; by rewrite E|done].
Qed.

Lemma ustate_resize k p A rest l sz' :
  (p < length (k_ptable k))%nat → 0 <= sz' <= KERNBASE → ustate k p A rest l → ustate (upd_proc p (set_p_sz sz') k) p A rest l.
Proof using Type.
  intros Hp Hsz' [Hc Hd Hcr Hsz Hinv Hw]. split; [done|by rewrite proc_at_upd|done|by rewrite proc_at_upd| |done].
  by apply (vm_inv_ext k).
Qed.

Lemma mem_only_length k k' : mem_only k k' → length (k_ptable k') = length (k_ptable k).
Proof using Type. by intros ->. Qed.

(** The part of [sys_sbrk] after its argument has been fetched. *)
Lemma sbrk_arg k p A rest l :
  ustate k p A rest l → can_touch k p A l (arg_addr k p 0) 4 →
  ∃ k1 A1 l1, argint 0 k = Ret (Some (arg_word k A (arg_addr k p 0))) k1 ∧ touched k p A rest l k1 A1 l1.
Proof using Lok.
  intros Hs Ht. destruct (argint_spec k p A rest l 0 Hs (λ _, Ht)) as (k1 & A1 & l1 & R & T).
  pose proof (ct_range _ _ _ _ _ _ Ht). rewrite decide_True in R by lia. by exists k1, A1, l1.
Qed.

Lemma sbrk_grow k p A rest l :
  ustate k p A rest l → (p < length (k_ptable k))%nat → can_touch k p A l (arg_addr k p 0) 4 →
  let n := arg_word k A (arg_addr k p 0) in let sz := p_sz (proc_at k p) in
  0 <= n → ∃ k', sys_sbrk k = Ret (i32 sz) k' ∧ resized k p A rest l (u32 (sz + n)) sz sz k'.
Proof using Lok.
  intros Hs Hp Ht n sz Hn. destruct (sbrk_arg k p A rest l Hs Ht) as (k1 & A1 & l1 & R & T). fold n in R.
  pose proof (to_mem _ _ _ _ _ _ _ _ T) as Hmo. assert (proc_at k1 p = proc_at k p) as Ep by (by rewrite Hmo).
  pose proof Hs as [Hc _ _ Hsz _ _]. fold sz in Hsz. assert (k_cur k1 = Some p) as Hc1 by (by rewrite Hmo).
  assert ((if n >? 0 then upd p (λ x, set_p_sz (u32 (p_sz x + n)) x) ;;; ret (i32 sz) else ret (i32 sz)) k1
    = Ret (i32 sz) (upd_proc p (set_p_sz (u32 (sz + n))) k1)) as Rs.
  { destruct (Z.gtb_spec n 0).
    - unfold upd. mrun. f_equal. unfold upd_proc. f_equal. apply list_eq. intros j.
      destruct (decide (p = j)) as [<-|]; [|by rewrite !list_lookup_alter_ne]. rewrite !list_lookup_alter_eq.
      destruct (k_ptable k1 !! p) as [x|] eqn:Ex; [|done]. cbn. do 3 f_equal. unfold sz. rewrite <- Ep. unfold proc_at. by rewrite list_lookup_total_alt, Ex.
    - mrun. f_equal. symmetry. apply upd_proc_id. rewrite Ep. replace n with 0 by lia. unfold KERNBASE in Hsz.
      rewrite Z.add_0_r, u32_small by (unfold is_u32; lia). apply set_p_sz_id. }
  eexists. split.
  - unfold sys_sbrk. mcall R. unfold curproc, myproc. mrun. rewrite Hc1. mrun. rewrite Ep. fold sz.
    destruct (n >? 0); [exact Rs|]. destruct (Z.ltb_spec n 0); [lia|exact Rs].
  - exists k1, A1, l1. split; [by apply trimmed_touched|]. split; [done|]. intros Hle.
    apply ustate_resize; [by rewrite (mem_only_length _ _ Hmo)|split; [apply u32_range|done]|apply T].
Qed.

Lemma set_cr3_id k x : k_cr3 k = x → set_k_cr3 x k = k.
Proof using Type. intros <-. by destruct k. Qed.

(** [deallocuvm] on the sizes [growproc] gives it: nothing if the sum has wrapped
    around, else the pages above the new size go. *)
Lemma dealloc_any k p A rest l n :
  ustate k p A rest l → -(2 ^ 31) <= n < 0 →
  let sz := p_sz (proc_at k p) in
  ∃ k' A' l', deallocuvm (as_dir A) sz (u32 (sz + n)) k = Ret (if decide (0 <= sz + n) then sz + n else sz) k' ∧
    if decide (0 <= sz + n) then trimmed k p A rest l (PGROUNDUP (sz + n)) (PGROUNDUP sz) k' A' l' else trimmed k p A rest l sz sz k' A' l'.
Proof using Lok.
  intros Hs Hn sz. pose proof (us_sz _ _ _ _ _ Hs) as Hsz. fold sz in Hsz. unfold KERNBASE in Hsz. case_decide as Hd.
  - rewrite u32_small by (unfold is_u32; lia). apply shrink_spec; [done|fold sz; lia].
  - exists k, A, l. split; [|by apply trimmed_touched, touched_refl]. unfold deallocuvm.
    assert (u32 (sz + n) = sz + n + 2 ^ 32) as -> by (unfold u32; symmetry; apply (Z.mod_unique_pos _ _ (-1)); lia).
    rewrite Z.geb_leb, (proj2 (Z.leb_le _ _)) by lia. done.
Qed.

Lemma sbrk_shrink k p A rest l :
  ustate k p A rest l → (p < length (k_ptable k))%nat → can_touch k p A l (arg_addr k p 0) 4 →
  let n := arg_word k A (arg_addr k p 0) in let sz := p_sz (proc_at k p) in
  n < 0 → ∃ r k', sys_sbrk k = Ret r k' ∧
    if decide (0 < sz + n) then r = i32 sz ∧ resized k p A rest l (sz + n) (PGROUNDUP (sz + n)) (PGROUNDUP sz) k'
    else if decide (sz + n = 0) then r = -1 ∧ resized k p A rest l sz 0 (PGROUNDUP sz) k'
    else r = i32 sz ∧ resized k p A rest l sz sz sz k'.
Proof using Lok.
  intros Hs Hp Ht n sz Hn. destruct (sbrk_arg k p A rest l Hs Ht) as (k1 & A1 & l1 & R & T). fold n in R.
  pose proof (to_mem _ _ _ _ _ _ _ _ T) as Hmo. assert (proc_at k1 p = proc_at k p) as Ep by (by rewrite Hmo).
  pose proof (to_state _ _ _ _ _ _ _ _ T) as Hs1. pose proof (us_cur _ _ _ _ _ Hs1) as Hc1.
  pose proof (us_sz _ _ _ _ _ Hs) as Hsz. fold sz in Hsz. assert (-(2 ^ 31) <= n < 0) as Hn' by (split; [apply i32_range|done]).
  destruct (dealloc_any k1 p A1 rest l1 n Hs1 Hn') as (k2 & A2 & l2 & R2 & T2). rewrite Ep in R2, T2. fold sz in R2, T2.
  assert (∀ sz', 0 <= sz' <= KERNBASE → ∀ lo hi, trimmed k1 p A1 rest l1 lo hi k2 A2 l2 →
    resized k p A rest l sz' lo hi (upd_proc p (set_p_sz sz') k2)) as Hres.
  { intros sz' Hsz' lo hi T3. exists k2, A2, l2. split; [by eapply touched_trimmed|]. split; [done|]. intros _.
    apply ustate_resize; [by rewrite (mem_only_length _ _ (tr_mem _ _ _ _ _ _ _ _ _ _ T3)), (mem_only_length _ _ Hmo)|done|apply T3]. }
  pose proof (ct_range _ _ _ _ _ _ Ht) as Hct. fold sz in Hct.
  assert (∀ r lo hi, (if decide (0 <= sz + n) then sz + n else sz) = r → trimmed k1 p A1 rest l1 lo hi k2 A2 l2 →
    growproc n k1 = if r =? 0 then Ret (-1) k2 else Ret 0 (upd_proc p (set_p_sz r) k2)) as Hgrow.
  { intros r lo hi Hr T3. rewrite Hr in R2. unfold growproc, curproc, myproc. mrun. rewrite Hc1. mrun.
    rewrite Z.gtb_ltb, (proj2 (Z.ltb_ge 0 n)), (proj2 (Z.ltb_lt n 0)) by lia.
    rewrite (us_dir _ _ _ _ _ Hs1), Ep. fold sz. mcall R2. destruct (r =? 0); [done|]. unfold upd. mrun. rewrite set_cr3_id; [done|].
    change (k_cr3 k2 = V2P (as_dir A1)). rewrite (tr_mem _ _ _ _ _ _ _ _ _ _ T3). apply (us_cr3 _ _ _ _ _ Hs1). }
  assert (∀ r lo hi, (if decide (0 <= sz + n) then sz + n else sz) = r → trimmed k1 p A1 rest l1 lo hi k2 A2 l2 →
    sys_sbrk k = if r =? 0 then Ret (-1) k2 else Ret (i32 sz) (upd_proc p (set_p_sz r) k2)) as Hrun.
  { intros r lo hi Hr T3. specialize (Hgrow r lo hi Hr T3). unfold sys_sbrk. mcall R. unfold curproc, myproc. mrun. rewrite Hc1. mrun.
    rewrite Z.gtb_ltb, (proj2 (Z.ltb_ge 0 n)), (proj2 (Z.ltb_lt n 0)), Ep by lia. fold sz. destruct (r =? 0); by mcall Hgrow. }
  destruct (decide (0 <= sz + n)).
  - rewrite (Hrun _ _ _ eq_refl T2). destruct (Z.eqb_spec (sz + n) 0) as [E|E].
    + eexists _, _. split; [done|]. rewrite decide_False, decide_True by lia. split; [done|]. rewrite E in T2. change (PGROUNDUP 0) with 0 in T2.
      rewrite <- (upd_proc_id p (set_p_sz sz) k2) at 1; [by apply Hres|].
      rewrite (tr_mem _ _ _ _ _ _ _ _ _ _ T2). change (set_p_sz sz (proc_at k1 p) = proc_at k1 p). rewrite Ep. apply set_p_sz_id.
    + eexists _, _. split; [done|]. rewrite decide_True by lia. split; [done|]. apply Hres; [lia|done].
  - rewrite (Hrun _ _ _ eq_refl T2), (proj2 (Z.eqb_neq _ _)) by lia. eexists _, _. split; [done|].
    rewrite !decide_False by lia. split; [done|]. by apply Hres.
Qed.

(** C16: [sbrk], branch by branch.  To grow, it adds to [sz] and maps nothing.  To
    shrink, it lowers [sz] and gives the whole pages above the new size back;
    below that the memory is as before.  It returns the old size.  The odd cases:
    giving up all memory frees every page but reports failure and leaves [sz], so
    that the process sees zeros from 0 on; giving up more than there is does
    nothing and reports success. *)
Theorem sbrk_correct k p A rest l :
  ustate k p A rest l → (p < length (k_ptable k))%nat → can_touch k p A l (arg_addr k p 0) 4 →
  let n := arg_word k A (arg_addr k p 0) in let sz := p_sz (proc_at k p) in
  ∃ r k', sys_sbrk k = Ret r k' ∧
    if decide (0 <= n) then r = i32 sz ∧ resized k p A rest l (u32 (sz + n)) sz sz k'
    else if decide (0 < sz + n) then r = i32 sz ∧ resized k p A rest l (sz + n) (PGROUNDUP (sz + n)) (PGROUNDUP sz) k'
    else if decide (sz + n = 0) then r = -1 ∧ resized k p A rest l sz 0 (PGROUNDUP sz) k'
    else r = i32 sz ∧ resized k p A rest l sz sz sz k'.
Proof using Lok.
  intros Hs Hp Ht n sz. destruct (decide (0 <= n)) as [Hn|Hn].
  - destruct (sbrk_grow k p A rest l Hs Hp Ht Hn) as (k' & R & Hr). by exists (i32 sz), k'.
  - apply (sbrk_shrink k p A rest l Hs Hp Ht). lia.
Qed.

(** C17: [sbrk] does not stop at [KERNBASE].  A process that asks for more than
    there is below the kernel gets it, and from then on [argptr] lets it pass
    pointers into the kernel to every system call: any block from [KERNBASE] up
    to the new size is accepted. *)
Theorem sbrk_reaches_kernel k p A rest l :
  ustate k p A rest l → (p < length (k_ptable k))%nat → can_touch k p A l (arg_addr k p 0) 4 →
  let n := arg_word k A (arg_addr k p 0) in let sz := p_sz (proc_at k p) in
  KERNBASE < sz + n →
  ∃ k', sys_sbrk k = Ret (i32 sz) k' ∧ p_sz (proc_at k' p) = sz + n ∧
    ∀ m i size k'', argint m k' = Ret (Some (i32 i)) k'' → mem_only k' k'' →
      KERNBASE <= i → 0 <= size → i < sz + n → i + size <= sz + n → argptr m size k' = Ret (Some i) k''.
Proof using Lok.
  intros Hs Hp Ht n sz Hbig. pose proof (us_sz _ _ _ _ _ Hs) as Hsz. fold sz in Hsz.
  pose proof (i32_range (u32_of_bytes (ubytes (k_mem k) A (arg_addr k p 0) 4))) as Hn. change (i32 _) with n in Hn. unfold KERNBASE in *.
  destruct (sbrk_grow k p A rest l Hs Hp Ht) as (k' & R & k1 & A1 & l1 & T & -> & _); [lia|]. fold n sz in R.
  rewrite u32_small in R by (unfold is_u32; lia).
  assert (proc_at (upd_proc p (set_p_sz (sz + n)) k1) p = set_p_sz (sz + n) (proc_at k1 p)) as Ep.
  { apply proc_at_upd. by rewrite (mem_only_length _ _ (tr_mem _ _ _ _ _ _ _ _ _ _ T)). }
  eexists. split; [exact R|]. split; [by rewrite Ep|]. intros m i size k'' Ra Hmo Hi Hsize Hlt Hle.
  unfold argptr, curproc, myproc. mrun. change (k_cur _) with (k_cur k1). rewrite (us_cur _ _ _ _ _ (tr_state _ _ _ _ _ _ _ _ _ _ T)). mrun.
  mcall Ra. mrun. replace (proc_at k'' p) with (proc_at (upd_proc p (set_p_sz (sz + n)) k1) p) by (by rewrite Hmo). rewrite Ep.
  change (p_sz (set_p_sz _ _)) with (sz + n). rewrite u32_i32, (u32_small i), u32_small by (unfold is_u32; lia).
  rewrite Z.geb_leb, Z.gtb_ltb, (proj2 (Z.ltb_ge size 0)), (proj2 (Z.leb_gt _ _)), (proj2 (Z.ltb_ge _ _)) by lia. done.
Qed.
End args.

(** ** Examples *)

Lemma demo_poke k va v :
  ustate k 0 demo_space [] demo_rest_free → 0 <= va < 4096 → is_byte v →
  ∃ k', ustate k' 0 demo_space [] demo_rest_free ∧ mem_only k k' ∧
    ∀ a, 0 <= a < KERNBASE → uview (k_mem k') demo_space a = if decide (a = va) then v else uview (k_mem k) demo_space a.
Proof.
  intros Hs Hva Hv. destruct (ustore_byte k 0 demo_space [] demo_rest_free va v (pte_for (V2P (page 1)) 6) Hs) as (S2 & V2 & _).
  - unfold KERNBASE. lia.
  - done.
  - rewrite Z.div_small by lia. apply lookup_insert_eq.
  - eexists. by split_and!.
Qed.

(** A process whose first argument is [n], on its stack at address 4. *)
Lemma demo_call k b0 b1 b2 b3 :
  uvm k demo_space [] demo_rest_free → is_byte b0 → is_byte b1 → is_byte b2 → is_byte b3 →
  ∃ k', ustate k' 0 demo_space [] demo_rest_free ∧ mem_only (demo_user k) k' ∧ ubytes (k_mem k') demo_space 4 4 = [b0; b1; b2; b3].
Proof.
  intros Hu H0 H1 H2 H3. pose proof (demo_ustate k Hu) as Hs.
  destruct (demo_poke _ 4 b0 Hs) as (k1 & S1 & M1 & V1); [lia|done|].
  destruct (demo_poke _ 5 b1 S1) as (k2 & S2 & M2 & V2); [lia|done|].
  destruct (demo_poke _ 6 b2 S2) as (k3 & S3 & M3 & V3); [lia|done|].
  destruct (demo_poke _ 7 b3 S3) as (k4 & S4 & M4 & V4); [lia|done|].
  exists k4. split; [done|]. split; [eauto 10 using mem_only_trans|].
  unfold ubytes, KERNBASE in *. change (seqZ 4 4%nat) with [4; 5; 6; 7]. cbn [fmap list_fmap].
  rewrite !V4, !V3, !V2, !V1 by lia. done.
Qed.

Lemma demo_arg_ready k k' : mem_only (demo_user k) k' → arg_addr k' 0 0 = 4 ∧ can_touch k' 0 demo_space demo_rest_free 4 4 ∧ p_sz (proc_at k' 0) = 12288 ∧ length (k_ptable k') = 64%nat.
Proof.
  intros Hmo. assert (proc_at k' 0 = proc_at (demo_user k) 0) as Ep by (by rewrite Hmo). assert (missing demo_space 4 4 = ∅) as Em by (vm_compute; done).
  unfold arg_addr. rewrite Ep. split_and!; [done| |done|by rewrite (mem_only_length _ _ Hmo)].
  split; rewrite ?Em; [rewrite Ep; change (0 <= 4 ∧ 4 + 4%nat <= 12288); lia|set_solver|rewrite size_empty; lia].
Qed.

Lemma argptr_correct_witness : ∃ k k' A' l',
  ustate k 0 demo_space [] demo_rest_free ∧ argptr 0 16 k = Ret (Some 12272) k' ∧ touched k 0 demo_space [] demo_rest_free k' A' l'.
Proof.
  destruct (demo_call demo1 240 47 0 0 demo_uvm ltac:(done) ltac:(done) ltac:(done) ltac:(done)) as (k & Hs & Hmo & Hb).
  destruct (demo_arg_ready _ _ Hmo) as (Ha & Ht & Hsz & _).
  destruct (argptr_correct k 0 demo_space [] demo_rest_free 0 16 Hs) as (r & k' & A' & l' & R & T & Hr).
  - intros _. by rewrite Ha.
  - done.
  - exists k, k', A', l'. split; [done|]. split; [|done]. rewrite R, Hr, Ha, Hsz. unfold arg_word. rewrite Hb. reflexivity.
Defined.

Lemma sbrk_correct_witness : ∃ k k' A' l',
  ustate k 0 demo_space [] demo_rest_free ∧ sys_sbrk k = Ret 12288 k' ∧ ustate k' 0 A' [] l' ∧ p_sz (proc_at k' 0) = 2000.
Proof.
  destruct (demo_call demo1 208 215 255 255 demo_uvm ltac:(done) ltac:(done) ltac:(done) ltac:(done)) as (k & Hs & Hmo & Hb).
  destruct (demo_arg_ready _ _ Hmo) as (Ha & Ht & Hsz & Hlen).
  destruct (sbrk_correct k 0 demo_space [] demo_rest_free Hs) as (r & k' & R & Hr).
  - rewrite Hlen. lia.
  - by rewrite Ha.
  - assert (arg_word k demo_space (arg_addr k 0 0) = -10288) as Ew by (unfold arg_word; rewrite Ha, Hb; reflexivity).
    rewrite Ew, Hsz, !decide_False, decide_True in Hr by lia.
    destruct Hr as (-> & k1 & A' & l' & T & -> & Hu). specialize (Hu ltac:(unfold KERNBASE; lia)).
    exists k. eexists _, A', l'. split; [done|]. split; [exact R|]. split; [exact Hu|].
    rewrite proc_at_upd; [reflexivity|]. rewrite (mem_only_length _ _ (tr_mem _ _ _ _ _ _ _ _ _ _ T)), Hlen. lia.
Defined.

Lemma sbrk_reaches_kernel_witness : ∃ k k',
  ustate k 0 demo_space [] demo_rest_free ∧ sys_sbrk k = Ret 12288 k' ∧ p_sz (proc_at k' 0) = 2147483647 + 12288.
Proof.
  destruct (demo_call demo1 255 255 255 127 demo_uvm ltac:(done) ltac:(done) ltac:(done) ltac:(done)) as (k & Hs & Hmo & Hb).
  destruct (demo_arg_ready _ _ Hmo) as (Ha & Ht & Hsz & Hlen).
  assert (arg_word k demo_space (arg_addr k 0 0) = 2147483647) as Ew by (unfold arg_word; rewrite Ha, Hb; reflexivity).
  destruct (sbrk_reaches_kernel k 0 demo_space [] demo_rest_free Hs) as (k' & R & E & _).
  - rewrite Hlen. lia.
  - by rewrite Ha.
  - rewrite Ew, Hsz. unfold KERNBASE. lia.
  - exists k, k'. rewrite Ew, Hsz in *. split; [done|]. split; [exact R|]. rewrite E. lia.
Defined.
