(* ===== verification/SysFile.v ===== *)
(** * File-system calls (src/sysfile.c) *)

From S2P Require Import Prelude Mem CString State Mmu Spinlock Kalloc Vm Proc UserMem Sleeplock Disk Bio Log Fs Dir Pipe File ProcLife Exec.

(** src/fcntl.h *)
Definition O_RDONLY : Z := 0.
Definition O_WRONLY : Z := 1.
Definition O_RDWR : Z := 2.
Definition O_CREATE : Z := 512.

(** [sizeof(struct stat)] and its layout: [short type], [int dev], [uint ino],
    [short nlink], [uint size]; two bytes of padding follow each [short]. *)
Definition STAT_SIZE : Z := 20.

(** "." and ".." *)
Definition dot : list Z := [46].
Definition dotdot : list Z := [46; 46].

Section sysfile.
Context `{W : Wakeups} `{D : DiskDriver} `{DV : Devsw} `{L : Layout}.

Definition argfd (n : Z) : K (option (nat * nat)) :=
  o <- argint n ;;
  match o with
  | None => ret None
  | Some fd =>
      p <- curproc ;;
      files <- gets (λ k, p_ofile (proc_at k p)) ;;
      if (fd <? 0) || (fd >=? NOFILE) then ret None
      else ret (pair (Z.to_nat fd) <$> files !!! Z.to_nat fd)
  end.

Definition fdalloc (f : nat) : K Z :=
  p <- curproc ;;
  files <- gets (λ k, p_ofile (proc_at k p)) ;;
  match find_index (λ fd, match files !!! fd with None => true | Some _ => false end) (seq 0 NOFILE) with
  | Some fd => upd p (λ x, set_p_ofile (<[fd := Some f]> (p_ofile x)) x) ;;; ret (Z.of_nat fd)
  | None => ret (-1)
  end.

(** [myproc()->ofile[fd] = f] *)
Definition set_fd (fd : nat) (f : option nat) : K unit :=
  p <- curproc ;; upd p (λ x, set_p_ofile (<[fd := f]> (p_ofile x)) x).

Definition sys_dup : K Z :=
  o <- argfd 0 ;;
  match o with
  | None => ret (-1)
  | Some (_, f) =>
      fd <- fdalloc f ;;
      if fd <? 0 then ret (-1) else filedup f ;;; ret fd
  end.

Definition sys_dup2 : K Z :=
  p <- curproc ;;
  o <- argfd 0 ;;
  match o with
  | None => ret (-1)
  | Some (oldfd, oldf) =>
      o <- argint 1 ;;
      match o with
      | None => ret (-1)
      | Some newfd =>
          if Z.of_nat oldfd =? newfd then ret newfd
          else if (newfd <? 0) || (newfd >=? NOFILE) then ret (-1)
          else
            files <- gets (λ k, p_ofile (proc_at k p)) ;;
            match files !!! Z.to_nat newfd with Some newf => fileclose newf | None => ret tt end ;;;
            set_fd (Z.to_nat newfd) (Some oldf) ;;;
            filedup oldf ;;;
            ret newfd
      end
  end.

(** The arguments of [read] and [write]: the file, the buffer and its size. *)
Definition arg_buffer : K (option (nat * Z * Z)) :=
  o <- argfd 0 ;;
  match o with
  | None => ret None
  | Some (_, f) =>
      o <- argint 2 ;;
      match o with
      | None => ret None
      | Some n => o <- argptr 1 n ;; ret ((λ p, (f, p, n)) <$> o)
      end
  end.

Definition sys_read : K Z :=
  o <- arg_buffer ;;
  match o with
  | None => ret (-1)
  | Some (f, p, n) => r <- fileread f n ;; ustore p r.2 ;;; ret r.1
  end.

Definition sys_write : K Z :=
  o <- arg_buffer ;;
  match o with
  | None => ret (-1)
  | Some (f, p, n) => src <- uload p (Z.to_nat n) ;; filewrite f src
  end.

Definition sys_close : K Z :=
  o <- argfd 0 ;;
  match o with
  | None => ret (-1)
  | Some (fd, f) => set_fd fd None ;;; fileclose f ;;; ret 0
  end.

(** [stati] stores the fields of [*st] one by one, not the padding. *)
Definition store_stat (st : Z) (s : stat) : K unit :=
  ustore (u32 (st + 4)) (bytes_of_u32 (st_dev s)) ;;;
  ustore (u32 (st + 8)) (bytes_of_u32 (st_ino s)) ;;;
  ustore st (bytes_of_u16 (st_type s)) ;;;
  ustore (u32 (st + 12)) (bytes_of_u16 (st_nlink s)) ;;;
  ustore (u32 (st + 16)) (bytes_of_u32 (st_size s)).

Definition sys_fstat : K Z :=
  o <- argfd 0 ;;
  match o with
  | None => ret (-1)
  | Some (_, f) =>
      o <- argptr 1 STAT_SIZE ;;
      match o with
      | None => ret (-1)
      | Some st =>
          r <- filestat f ;;
          match r with Some s => store_stat st s ;;; ret 0 | None => ret (-1) end
      end
  end.

(** [bad:] of [sys_link]. *)
Definition link_bad (ip : nat) : K Z :=
  ilock ip ;;;
  upd_i ip (λ i, set_i_nlink (i16 (i_nlink i - 1)) i) ;;;
  iupdate ip ;;;
  iunlockput ip ;;;
  end_op ;;;
  ret (-1).

Definition link (old new : list Z) : K Z :=
  begin_op ;;;
  o <- namei old ;;
  match o with
  | None => end_op ;;; ret (-1)
  | Some ip =>
      ilock ip ;;;
      i <- get_inode ip ;;
      if i_type i =? T_DIR then iunlockput ip ;;; end_op ;;; ret (-1)
      else
        upd_i ip (λ i, set_i_nlink (i16 (i_nlink i + 1)) i) ;;;
        iupdate ip ;;;
        iunlock ip ;;;
        o <- nameiparent new ;;
        match o with
        | None => link_bad ip
        | Some (dp, name) =>
            ilock dp ;;;
            d <- get_inode dp ;;
            i <- get_inode ip ;;
            r <- (if negb (i_dev d =? i_dev i) then ret (-1) else dirlink dp name (i_inum i)) ;;
            if r <? 0 then iunlockput dp ;;; link_bad ip
            else
              iunlockput dp ;;;
              iput ip ;;;
              end_op ;;;
              ret 0
        end
  end.

Definition sys_link : K Z :=
  o <- argstr 0 ;;
  match o with
  | None => ret (-1)
  | Some old =>
      o <- argstr 1 ;;
      match o with None => ret (-1) | Some new => link old new end
  end.

Definition isdirempty (dp : nat) : K bool :=
  d <- get_inode dp ;;
  o <- foreach_exit (drop 2 (entries (i_size d))) (λ j,
         de <- read_dirent dp (j * DIRENT_SIZE) "isdirempty: readi" ;;
         ret (if de_inum de =? 0 then None else Some tt)) ;;
  ret (match o with None => true | Some _ => false end).

(** [bad:] of [sys_unlink]. *)
Definition unlink_bad (dp : nat) : K Z := iunlockput dp ;;; end_op ;;; ret (-1).

Definition unlink (path : list Z) : K Z :=
  begin_op ;;;
  o <- nameiparent path ;;
  match o with
  | None => end_op ;;; ret (-1)
  | Some (dp, name) =>
      ilock dp ;;;
      if (namecmp name dot =? 0) || (namecmp name dotdot =? 0) then unlink_bad dp
      else
        o <- dirlookup dp name ;;
        match o with
        | None => unlink_bad dp
        | Some (ip, off) =>
            ilock ip ;;;
            i <- get_inode ip ;;
            if i_nlink i <? 1 then panic "unlink: nlink < 1"
            else
              full <- (if i_type i =? T_DIR then e <- isdirempty ip ;; ret (negb e) else ret false) ;;
              if full : bool then iunlockput ip ;;; unlink_bad dp
              else
                n <- writei dp (replicate (Z.to_nat DIRENT_SIZE) 0) off ;;
                if negb (n =? DIRENT_SIZE) then panic "unlink: writei"
                else
                  i <- get_inode ip ;;
                  when (i_type i =? T_DIR)
                    (upd_i dp (λ d, set_i_nlink (i16 (i_nlink d - 1)) d) ;;; iupdate dp) ;;;
                  iunlockput dp ;;;
                  upd_i ip (λ i, set_i_nlink (i16 (i_nlink i - 1)) i) ;;;
                  iupdate ip ;;;
                  iunlockput ip ;;;
                  end_op ;;;
                  ret 0
        end
  end.

Definition sys_unlink : K Z :=
  o <- argstr 0 ;;
  match o with None => ret (-1) | Some path => unlink path end.

(** [create]; the inode it returns is locked. *)
Definition create (path : list Z) (type major minor : Z) : K (option nat) :=
  o <- nameiparent path ;;
  match o with
  | None => ret None
  | Some (dp, name) =>
      ilock dp ;;;
      o <- dirlookup dp name ;;
      match o with
      | Some (ip, _) =>
          iunlockput dp ;;;
          ilock ip ;;;
          i <- get_inode ip ;;
          if (type =? T_FILE) && (i_type i =? T_FILE) then ret (Some ip)
          else iunlockput ip ;;; ret None
      | None =>
          d <- get_inode dp ;;
          ip <- ialloc (i_dev d) type ;;
          ilock ip ;;;
          upd_i ip (λ i, set_i_nlink 1 (set_i_minor minor (set_i_major major i))) ;;;
          iupdate ip ;;;
          i <- get_inode ip ;;
          when (type =? T_DIR)
            (upd_i dp (λ d, set_i_nlink (i16 (i_nlink d + 1)) d) ;;;
             iupdate dp ;;;
             r <- dirlink ip dot (i_inum i) ;;
             if r <? 0 then panic "create dots"
             else
               r <- dirlink ip dotdot (i_inum d) ;;
               if r <? 0 then panic "create dots" else ret tt) ;;;
          r <- dirlink dp name (i_inum i) ;;
          if r <? 0 then panic "create: dirlink"
          else iunlockput dp ;;; ret (Some ip)
      end
  end.

(** The part of [sys_open] that finds the inode; [None] after [end_op]. *)
Definition open_inode (path : list Z) (omode : Z) : K (option nat) :=
  if negb (Z.land omode O_CREATE =? 0) then
    o <- create path T_FILE 0 0 ;;
    match o with
    | None => end_op ;;; ret None
    | Some ip => ret (Some ip)
    end
  else
    o <- namei path ;;
    match o with
    | None => end_op ;;; ret None
    | Some ip =>
        ilock ip ;;;
        i <- get_inode ip ;;
        if (i_type i =? T_DIR) && negb (omode =? O_RDONLY) then iunlockput ip ;;; end_op ;;; ret None
        else ret (Some ip)
    end.

Definition open (path : list Z) (omode : Z) : K Z :=
  begin_op ;;;
  o <- open_inode path omode ;;
  match o with
  | None => ret (-1)
  | Some ip =>
      o <- filealloc ;;
      match o with
      | None => iunlockput ip ;;; end_op ;;; ret (-1)
      | Some f =>
          fd <- fdalloc f ;;
          if fd <? 0 then fileclose f ;;; iunlockput ip ;;; end_op ;;; ret (-1)
          else
            iunlock ip ;;;
            end_op ;;;
            upd_f f (λ x, set_f_writable (negb (Z.land omode O_WRONLY =? 0) || negb (Z.land omode O_RDWR =? 0))
              (set_f_readable (Z.land omode O_WRONLY =? 0) (set_f_off 0 (set_f_ip (Some ip)
              (set_f_type FD_INODE x))))) ;;;
            ret fd
      end
  end.

Definition sys_open : K Z :=
  o <- argstr 0 ;;
  match o with
  | None => ret (-1)
  | Some path =>
      o <- argint 1 ;;
      match o with None => ret (-1) | Some omode => open path omode end
  end.

(** The end of [sys_mkdir] and [sys_mknod]. *)
Definition end_create (o : option nat) : K Z :=
  match o with
  | None => end_op ;;; ret (-1)
  | Some ip => iunlockput ip ;;; end_op ;;; ret 0
  end.

Definition sys_mkdir : K Z :=
  begin_op ;;;
  o <- argstr 0 ;;
  match o with
  | None => end_create None
  | Some path => o <- create path T_DIR 0 0 ;; end_create o
  end.

Definition sys_mknod : K Z :=
  begin_op ;;;
  o <- argstr 0 ;;
  match o with
  | None => end_create None
  | Some path =>
      o <- argint 1 ;;
      match o with
      | None => end_create None
      | Some major =>
          o <- argint 2 ;;
          match o with
          | None => end_create None
          | Some minor => o <- create path T_DEV (i16 major) (i16 minor) ;; end_create o
          end
      end
  end.

Definition sys_chdir : K Z :=
  p <- curproc ;;
  begin_op ;;;
  o <- argstr 0 ;;
  o <- match o with None => ret None | Some path => namei path end ;;
  match o with
  | None => end_op ;;; ret (-1)
  | Some ip =>
      ilock ip ;;;
      i <- get_inode ip ;;
      if negb (i_type i =? T_DIR) then iunlockput ip ;;; end_op ;;; ret (-1)
      else
        iunlock ip ;;;
        o <- gets (λ k, p_cwd (proc_at k p)) ;;
        cwd <- deref o ;;
        iput cwd ;;;
        end_op ;;;
        upd p (set_p_cwd (Some ip)) ;;;
        ret 0
  end.

(** The loop of [sys_exec] that fetches the argument strings; [n] entries of
    [argv] are left. *)
Fixpoint fetch_args (n : nat) (uargv : Z) : K (option (list (list Z))) :=
  match n with
  | O => ret None
  | S n =>
      o <- fetchint uargv ;;
      match o with
      | None => ret None
      | Some uarg =>
          if uarg =? 0 then ret (Some [])
          else
            o <- fetchstr (u32 uarg) ;;
            match o with
            | None => ret None
            | Some arg => o <- fetch_args n (u32 (uargv + 4)) ;; ret (cons arg <$> o)
            end
      end
  end.

Definition sys_exec : K Z :=
  o <- argstr 0 ;;
  match o with
  | None => ret (-1)
  | Some path =>
      o <- argint 1 ;;
      match o with
      | None => ret (-1)
      | Some uargv =>
          o <- fetch_args MAXARG (u32 uargv) ;;
          match o with None => ret (-1) | Some argv => exec path argv end
      end
  end.

Definition sys_pipe : K Z :=
  o <- argptr 0 8 ;;
  match o with
  | None => ret (-1)
  | Some fd =>
      o <- pipealloc ;;
      match o with
      | None => ret (-1)
      | Some (rf, wf) =>
          fd0 <- fdalloc rf ;;
          fd1 <- (if fd0 <? 0 then ret (-1) else fdalloc wf) ;;
          if (fd0 <? 0) || (fd1 <? 0) then
            when (fd0 >=? 0) (set_fd (Z.to_nat fd0) None) ;;;
            fileclose rf ;;;
            fileclose wf ;;;
            ret (-1)
          else
            ustore fd (bytes_of_u32 fd0) ;;;
            ustore (u32 (fd + 4)) (bytes_of_u32 fd1) ;;;
            ret 0
      end
  end.
End sysfile.
