(* ===== verification/Console.v ===== *)
(** * The console (src/console.c, src/uart.c, src/proc.c: procdump)

    Output goes to the CGA screen and the serial port, both in [k_screen];
    input is edited in the ring [k_input] by the interrupt handlers and read from
    it by [consoleread].  An interrupt handler is given the characters its [getc]
    returns before it returns a negative value. *)

From S2P Require Import Prelude Mem CString State Mmu Spinlock Kalloc Vm Proc Sleeplock Disk Bio Log Fs Pipe.

(** The characters of a string literal. *)
Fixpoint chars (s : string) : list Z :=
  match s with
  | String.EmptyString => []
  | String.String a s => Z.of_N (Ascii.N_of_ascii a) :: chars s
  end.

Definition BACKSPACE : Z := 256.
Definition INPUT_BUF : Z := 128.
Definition newline : Z := 10.
Definition CONSOLE : Z := 1.
(** [C(x)] *)
Definition ctrl_P : Z := 16.
Definition ctrl_U : Z := 21.
Definition ctrl_H : Z := 8.
Definition ctrl_D : Z := 4.

(** ** Output *)

Definition digit (d : Z) : Z := chars "0123456789abcdef" !!! Z.to_nat d.

(** The [do ... while] of [printint], least significant digit first; a 32-bit
    number has at most 32 digits. *)
Fixpoint digits_rev (fuel : nat) (x base : Z) : list Z :=
  match fuel with
  | O => []
  | S fuel => digit (x mod base) :: if x / base =? 0 then [] else digits_rev fuel (x / base) base
  end.

(** The characters [printint] prints. *)
Definition printint (xx base : Z) (sign : bool) : list Z :=
  let neg := sign && (xx <? 0) in
  let x := if neg then u32 (- xx) else u32 xx in
  let buf := digits_rev 32 x base ++ (if neg then [45] else []) in
  reverse buf.

(** A word of the arguments of [cprintf], and the string at it if it is used as
    an address. *)
Record vararg := mkVararg { va_word : Z; va_string : list Z }.

(** The characters [cprintf] prints. *)
Fixpoint format (fmt : list Z) (argp : nat → vararg) : list Z :=
  match fmt with
  | [] => []
  | c :: fmt =>
      if negb (c =? 37) then c :: format fmt argp
      else match fmt with
           | [] => []
           | c :: fmt =>
               let next := λ i, argp (S i) in
               if c =? 100 then printint (i32 (va_word (argp O))) 10 true ++ format fmt next
               else if (c =? 120) || (c =? 112) then printint (i32 (va_word (argp O))) 16 false ++ format fmt next
               else if c =? 115 then
                 (if va_word (argp O) =? 0 then chars "(null)" else cstr (va_string (argp O))) ++ format fmt next
               else if c =? 37 then 37 :: format fmt argp
               else 37 :: c :: format fmt argp
           end
  end.

Definition upd_screen (f : screen → screen) : K unit := modify (λ k, set_k_screen (f (k_screen k)) k).

Definition uartputc (c : Z) : K unit :=
  upd_screen (λ s, if sc_uart s then set_sc_serial (sc_serial s ++ [u8 c]) s else s).

(** The scrolling of [cgaputc]: the position and the cells after it. *)
Definition scroll (crt : list Z) (pos : Z) : list Z * Z :=
  if 24 <=? pos / 80 then
    let crt := splice crt 0 (slice crt 80 (23 * 80)) in
    let pos := pos - 80 in
    (splice crt (Z.to_nat pos) (replicate (Z.to_nat (24 * 80 - pos)) 0), pos)
  else (crt, pos).

Definition cgaputc (c : Z) : K unit :=
  s <- gets k_screen ;;
  let pos := sc_pos s in
  let '(crt, pos) :=
    if c =? newline then (sc_crt s, pos + (80 - pos mod 80))
    else if c =? BACKSPACE then (sc_crt s, if pos >? 0 then pos - 1 else pos)
    else (<[Z.to_nat pos := Z.lor (Z.land c 255) 1792]> (sc_crt s), pos + 1) in
  if (pos <? 0) || (pos >? 25 * 80) then panic "pos under/overflow"
  else
    let '(crt, pos) := scroll crt pos in
    upd_screen (λ s, set_sc_pos (u16 pos) (set_sc_crt (<[Z.to_nat pos := Z.lor 32 1792]> crt) s)).

Definition consputc (c : Z) : K unit :=
  p <- gets (λ k, sc_panicked (k_screen k)) ;;
  if p : bool then λ _, Spin
  else
    (if c =? BACKSPACE then uartputc 8 ;;; uartputc 32 ;;; uartputc 8 else uartputc c) ;;;
    cgaputc c.

(** [cprintf(fmt, ...)]; [locking] is [cons.locking]. *)
Definition cprintf (locking : bool) (fmt : list Z) (argp : nat → vararg) : K unit :=
  when locking (acquire LCons) ;;;
  foreach (format fmt argp) consputc ;;;
  when locking (release LCons).

(** The loop of [getcallerpcs] (src/spinlock.c) that follows the saved frame pointers. *)
Fixpoint callerpcs (n : nat) (m : mem) (ebp : Z) : list Z :=
  match n with
  | O => []
  | S n =>
      if (ebp =? 0) || (ebp <? KERNBASE) || (ebp =? 4294967295) then replicate (S n) 0
      else ld32 m (u32 (ebp + 4)) :: callerpcs n m (ld32 m ebp)
  end.
Definition getcallerpcs (m : mem) (v : Z) : list Z := callerpcs 10 m (u32 (v - 8)).

Definition state_name (s : procstate) : list Z :=
  match s with
  | UNUSED => chars "unused" | EMBRYO => chars "embryo" | SLEEPING => chars "sleep "
  | RUNNABLE => chars "runble" | RUNNING => chars "run   " | ZOMBIE => chars "zombie"
  end.

Definition vararg0 : vararg := mkVararg 0 [].
(** Non-null pointers to strings; where they are is not looked at. *)
Definition str_arg (s : list Z) : vararg := mkVararg 1 s.
Definition args (l : list vararg) : nat → vararg := λ i, default vararg0 (l !! i).

Definition procdump (locking : bool) : K unit :=
  foreach (seq 0 NPROC) (λ i,
    p <- gets (λ k, proc_at k i) ;;
    when (negb (is_state UNUSED p))
      (cprintf locking (chars "%d %s %s") (args [mkVararg (p_pid p) []; str_arg (state_name (p_state p)); str_arg (p_name p)]) ;;;
       when (is_state SLEEPING p)
         (pcs <- gets (λ k, getcallerpcs (k_mem k) (u32 (cx_ebp (p_context p) + 8))) ;;
          foreach (take (default 10%nat (find_index (λ pc, pc =? 0) pcs)) pcs) (λ pc,
            cprintf locking (chars " %p") (args [mkVararg pc []]))) ;;;
       cprintf locking [newline] (args []))).

(** ** Input *)

Definition upd_input (f : input → input) : K unit := modify (λ k, set_k_input (f (k_input k)) k).
Definition ring_at (i : input) (n : Z) : Z := in_buf i !!! Z.to_nat (u32 n mod INPUT_BUF).

(** The loop of control-U; there are [e - w] characters to erase. *)
Fixpoint kill_line (fuel : nat) : K unit :=
  match fuel with
  | O => ret tt
  | S fuel =>
      i <- gets k_input ;;
      if negb (in_e i =? in_w i) && negb (ring_at i (in_e i - 1) =? newline) then
        upd_input (λ i, set_in_e (u32 (in_e i - 1)) i) ;;;
        consputc BACKSPACE ;;;
        kill_line fuel
      else ret tt
  end.

(** One character; [true] when the process listing is asked for. *)
Definition console_char (c : Z) : K bool :=
  i <- gets k_input ;;
  if c =? ctrl_P then ret true
  else if c =? ctrl_U then kill_line (Z.to_nat (u32 (in_e i - in_w i))) ;;; ret false
  else if (c =? ctrl_H) || (c =? 127) then
    when (negb (in_e i =? in_w i))
      (upd_input (λ i, set_in_e (u32 (in_e i - 1)) i) ;;; consputc BACKSPACE) ;;;
    ret false
  else
    when (negb (c =? 0) && (u32 (in_e i - in_r i) <? INPUT_BUF))
      (let c := if c =? 13 then newline else c in
       upd_input (λ i, set_in_e (u32 (in_e i + 1))
         (set_in_buf (<[Z.to_nat (in_e i mod INPUT_BUF) := c]> (in_buf i)) i)) ;;;
       consputc c ;;;
       i <- gets k_input ;;
       when ((c =? newline) || (c =? ctrl_D) || (in_e i =? u32 (in_r i + INPUT_BUF)))
         (upd_input (λ i, set_in_w (in_e i) i) ;;; wakeup CInput)) ;;;
    ret false.

Fixpoint console_chars (cs : list Z) : K bool :=
  match cs with
  | [] => ret false
  | c :: cs => d <- console_char c ;; d' <- console_chars cs ;; ret (d || d')
  end.

Definition consoleintr (cs : list Z) : K unit :=
  acquire LCons ;;;
  doprocdump <- console_chars cs ;;
  release LCons ;;;
  when doprocdump (procdump true).

(** [uartintr]: the bytes the port has received. *)
Definition uartintr (received : list Z) : K unit :=
  u <- gets (λ k, sc_uart (k_screen k)) ;;
  consoleintr (if u : bool then received else []).

(** The inner loop of [consoleread]: [false] when the process has been killed. *)
Fixpoint wait_input (fuel : nat) : K bool :=
  i <- gets k_input ;;
  if in_r i =? in_w i then
    kl <- killed ;;
    if kl : bool then ret false
    else match fuel with
         | O => λ _, Spin
         | S fuel => sleep CInput LCons ;;; wait_input fuel
         end
  else ret true.

Section console.
Context `{W : Wakeups} `{D : DiskDriver}.

(** The outer loop: the bytes stored, and whether it ended because the process
    was killed.  [some] says whether a byte has been stored before. *)
Fixpoint consoleread_loop (n : nat) (some : bool) : K (list Z * bool) :=
  match n with
  | O => ret ([], false)
  | S n =>
      ok <- wait_input wakeups ;;
      if negb ok then ret ([], true)
      else
        i <- gets k_input ;;
        let c := ring_at i (in_r i) in
        upd_input (λ i, set_in_r (u32 (in_r i + 1)) i) ;;;
        if c =? ctrl_D then
          when some (upd_input (λ i, set_in_r (u32 (in_r i - 1)) i)) ;;;
          ret ([], false)
        else if c =? newline then ret ([c], false)
        else r <- consoleread_loop n true ;; ret (c :: r.1, r.2)
  end.

Definition consoleread (ip : nat) (n : Z) : K (Z * list Z) :=
  iunlock ip ;;;
  acquire LCons ;;;
  r <- consoleread_loop (Z.to_nat n) false ;;
  release LCons ;;;
  ilock ip ;;;
  ret (if r.2 : bool then -1 else Z.of_nat (length r.1), r.1).

Definition consolewrite (ip : nat) (buf : list Z) : K Z :=
  iunlock ip ;;;
  acquire LCons ;;;
  foreach buf (λ c, consputc (Z.land c 255)) ;;;
  release LCons ;;;
  ilock ip ;;;
  ret (Z.of_nat (length buf)).

(** [consoleinit]: the entries of [devsw]. *)
#[export] Instance console_devsw : Devsw := {|
  devsw_read := λ major, if major =? CONSOLE then Some consoleread else None;
  devsw_write := λ major, if major =? CONSOLE then Some consolewrite else None
|}.
End console.
