(* ===== verification/Kbd.v ===== *)
(** * The keyboard (src/kbd.c, src/kbd.h)

    Scan codes to characters, with the state of the modifier keys in [k_shift]. *)

From S2P Require Import Prelude Mem CString State Mmu Spinlock Kalloc Vm Proc Sleeplock Disk Bio Log Fs Pipe Console.

Definition SHIFT : Z := 1.
Definition CTL : Z := 2.
Definition ALT : Z := 4.
Definition CAPSLOCK : Z := 8.
Definition NUMLOCK : Z := 16.
Definition SCROLLLOCK : Z := 32.
Definition E0ESC : Z := 64.

(** [C(x)] of a character code. *)
Definition C (x : Z) : Z := x - 64.

(** An array initialiser: the leading elements, then designated ones. *)
Definition table (start : list Z) (designated : list (Z * Z)) : list Z :=
  foldl (λ t e, <[Z.to_nat e.1 := e.2]> t) (start ++ replicate (256 - length start) 0) designated.

Definition shiftcode : list Z :=
  table [] [(29, CTL); (42, SHIFT); (54, SHIFT); (56, ALT); (157, CTL); (184, ALT)].

Definition togglecode : list Z := table [] [(58, CAPSLOCK); (69, NUMLOCK); (70, SCROLLLOCK)].

(** The designated elements the three maps share: arrows and the like. *)
Definition keypad : list (Z * Z) :=
  [(200, 226); (208, 227); (201, 230); (209, 231); (203, 228); (205, 229); (151, 224); (207, 225);
   (210, 232); (211, 233)].

(** The 16 elements from 0x40 on are those of the numeric pad in both maps. *)
Definition numpad : list Z :=
  [0; 0; 0; 0; 0; 0; 0] ++ chars "789-456+1230." ++ [0; 0; 0; 0].

Definition normalmap : list Z :=
  table ([0; 27] ++ chars "1234567890-=" ++ [8; 9] ++ chars "qwertyuiop[]" ++ [10; 0] ++ chars "asdfghjkl;'`"
         ++ [0] ++ chars "\zxcvbnm,./" ++ [0] ++ chars "*" ++ [0] ++ chars " " ++ [0; 0; 0; 0; 0; 0] ++ numpad)
    ([(156, 10); (181, 47)] ++ keypad).

Definition shiftmap : list Z :=
  table ([0; 27] ++ chars "!@#$%^&*()_+" ++ [8; 9] ++ chars "QWERTYUIOP{}" ++ [10; 0] ++ chars "ASDFGHJKL:" ++ [34; 126]
         ++ [0] ++ chars "|ZXCVBNM<>?" ++ [0] ++ chars "*" ++ [0] ++ chars " " ++ [0; 0; 0; 0; 0; 0] ++ numpad)
    ([(156, 10); (181, 47)] ++ keypad).

Definition ctlmap : list Z :=
  table (replicate 16 0 ++ (C <$> chars "QWERTYUIOP") ++ [0; 0; 13; 0] ++ (C <$> chars "ASDFGHJKL")
         ++ [0; 0; 0; 0] ++ (C <$> chars "\ZXCVBNM") ++ [0; 0; u8 (C 47); 0; 0])
    ([(156, 13); (181, u8 (C 47))] ++ keypad).

Definition charcode (shift data : Z) : Z :=
  let m := Z.land shift (Z.lor CTL SHIFT) in
  (if m =? 0 then normalmap else if m =? 1 then shiftmap else ctlmap) !!! Z.to_nat data.

(** [kbdgetc] when the controller has the byte [data]: the new [shift] and the
    character. *)
Definition kbdgetc (shift data : Z) : Z * Z :=
  if data =? 224 then (Z.lor shift E0ESC, 0)
  else if negb (Z.land data 128 =? 0) then
    let data := if negb (Z.land shift E0ESC =? 0) then data else Z.land data 127 in
    (Z.land shift (Z.lnot (Z.lor (shiftcode !!! Z.to_nat data) E0ESC)), 0)
  else
    let '(data, shift) :=
      if negb (Z.land shift E0ESC =? 0) then (Z.lor data 128, Z.land shift (Z.lnot E0ESC)) else (data, shift) in
    let shift := Z.lor shift (shiftcode !!! Z.to_nat data) in
    let shift := Z.lxor shift (togglecode !!! Z.to_nat data) in
    let c := charcode shift data in
    let c := if negb (Z.land shift CAPSLOCK =? 0) then
               if (97 <=? c) && (c <=? 122) then c - 32
               else if (65 <=? c) && (c <=? 90) then c + 32 else c
             else c in
    (shift, c).

(** The characters of a sequence of scan codes. *)
Fixpoint kbd_chars (shift : Z) (codes : list Z) : Z * list Z :=
  match codes with
  | [] => (shift, [])
  | d :: codes =>
      let '(shift, c) := kbdgetc shift d in
      let '(shift, cs) := kbd_chars shift codes in (shift, c :: cs)
  end.

(** [kbdintr]: the controller has the scan codes [codes]. *)
Definition kbdintr (codes : list Z) : K unit :=
  shift <- gets k_shift ;;
  let '(shift, cs) := kbd_chars shift codes in
  modify (set_k_shift shift) ;;;
  consoleintr cs.
