(* ===== verification/Ide.v ===== *)
(** * The interrupt-driven disk driver (src/ide.c)

    Requests wait in [idequeue]; the first one is what the controller works on.
    [idestart] programs the controller, [ideintr] takes the result and starts the
    next request, [iderw] queues a buffer and sleeps until it is done. *)

From S2P Require Import Prelude Mem CString State Mmu Spinlock Kalloc Vm Proc Sleeplock Disk.

Definition IDE_CMD_READ : Z := 32.
Definition IDE_CMD_WRITE : Z := 48.

(** The ports [idestart] writes for a buffer, in order, up to the command. *)
Definition task_file (b : buf) : list (Z * Z) :=
  let sector := b_blockno b in
  [(0x3f6, 0); (0x1f2, 1); (0x1f3, Z.land sector 255); (0x1f4, Z.land (Z.shiftr sector 8) 255);
   (0x1f5, Z.land (Z.shiftr sector 16) 255);
   (0x1f6, Z.lor (Z.lor 224 (Z.shiftl (Z.land (b_dev b) 1) 4)) (Z.land (Z.shiftr sector 24) 15));
   (0x1f7, if dirty b then IDE_CMD_WRITE else IDE_CMD_READ)].

(** What the controller makes of the ports: the last value written to each. *)
Definition port (regs : list (Z * Z)) (p : Z) : Z :=
  foldl (λ v e, if e.1 =? p then e.2 else v) 0 regs.
(** The disk and the 28-bit sector number the controller is asked for. *)
Definition ata_request (regs : list (Z * Z)) : Z * Z :=
  (Z.land (Z.shiftr (port regs 0x1f6) 4) 1,
   Z.lor (Z.lor (port regs 0x1f3) (Z.shiftl (port regs 0x1f4) 8))
     (Z.lor (Z.shiftl (port regs 0x1f5) 16) (Z.shiftl (Z.land (port regs 0x1f6) 15) 24))).

Definition upd_ide (f : ide → ide) : K unit := modify (λ k, set_k_ide (f (k_ide k)) k).

(** The controller's transfers: a sector of the disk a request names. *)
Definition ata_read (req : Z * Z) (k : kernel) : list Z :=
  disk_block (if req.1 =? 0 then ide_disk0 (k_ide k) else k_disk k) req.2.
Definition ata_write (req : Z * Z) (data : list Z) (k : kernel) : kernel :=
  if req.1 =? 0 then set_k_ide (set_ide_disk0 (write_block req.2 data (ide_disk0 (k_ide k))) (k_ide k)) k
  else set_k_disk (write_block req.2 data (k_disk k)) k.

(** [idestart]; the wait for the controller to become ready comes back. *)
Definition idestart (i : nat) : K unit :=
  b <- gets (λ k, buf_at k i) ;;
  if b_blockno b >=? FSSIZE then panic "incorrect blockno"
  else
    let req := ata_request (task_file b) in
    upd_ide (set_ide_cmd req) ;;;
    when (port (task_file b) 0x1f7 =? IDE_CMD_WRITE) (modify (ata_write req (b_data b))).

(** [ideintr]; [ok] says that the controller reports no error. *)
Definition ideintr (ok : bool) : K unit :=
  acquire LIde ;;;
  q <- gets (λ k, ide_queue (k_ide k)) ;;
  match q with
  | [] => release LIde
  | i :: q =>
      upd_ide (set_ide_queue q) ;;;
      b <- gets (λ k, buf_at k i) ;;
      when (negb (dirty b) && ok)
        (modify (λ k, upd_buf i (set_b_data (ata_read (ide_cmd (k_ide k)) k)) k)) ;;;
      set_flags i (λ f, Z.lor f B_VALID) ;;;
      set_flags i (λ f, Z.land f (Z.lnot B_DIRTY)) ;;;
      wakeup (CBuf i) ;;;
      match q with [] => ret tt | j :: _ => idestart j end ;;;
      release LIde
  end.

(** [while((b->flags & (B_VALID|B_DIRTY)) != B_VALID) sleep(b, &idelock);] *)
Fixpoint ide_wait (fuel : nat) (i : nat) : K unit :=
  b <- gets (λ k, buf_at k i) ;;
  if Z.land (b_flags b) (Z.lor B_VALID B_DIRTY) =? B_VALID then ret tt
  else match fuel with
       | O => λ _, Spin
       | S fuel => sleep (CBuf i) LIde ;;; ide_wait fuel i
       end.

(** [iderw] of src/ide.c.  The buffer is appended to the queue; being locked it
    is not in the queue already. *)
Definition ide_iderw `{W : Wakeups} (i : nat) : K unit :=
  h <- holdingsleep (SlBuf i) ;;
  if negb h then panic "iderw: buf not locked"
  else
    b <- gets (λ k, buf_at k i) ;;
    if Z.land (b_flags b) (Z.lor B_VALID B_DIRTY) =? B_VALID then panic "iderw: nothing to do"
    else
      d1 <- gets (λ k, ide_havedisk1 (k_ide k)) ;;
      if negb (b_dev b =? 0) && negb d1 then panic "iderw: ide disk 1 not present"
      else
        acquire LIde ;;;
        upd_ide (λ d, set_ide_queue (ide_queue d ++ [i]) d) ;;;
        q <- gets (λ k, ide_queue (k_ide k)) ;;
        when (bool_decide (head q = Some i)) (idestart i) ;;;
        ide_wait wakeups i ;;;
        release LIde.
