(* ===== verification/Trap.v ===== *)
(** * System calls and traps (src/syscall.c, src/syscall.h, src/trap.c, src/traps.h) *)

From S2P Require Import Prelude Mem CString State Mmu Spinlock Kalloc Vm Proc UserMem Sleeplock Disk Bio Log Fs Dir Pipe File ProcLife Rtc Exec SysProc SysFile Console Kbd Ide.

Definition T_PGFLT : Z := 14.
Definition T_IRQ0 : Z := 32.
Definition T_SYSCALL : Z := 64.
Definition IRQ_TIMER : Z := 0.
Definition IRQ_KBD : Z := 1.
Definition IRQ_COM1 : Z := 4.
Definition IRQ_IDE : Z := 14.
Definition IRQ_SPURIOUS : Z := 31.

Section trap.
Context `{W : Wakeups} `{D : DiskDriver} `{DV : Devsw} `{L : Layout} `{C : Clock}.

(** [syscalls[]] with the numbers of src/syscall.h; entry 0 is null. *)
Definition syscalls : list (option (K Z)) :=
  [None; Some sys_fork; Some sys_exit; Some sys_wait; Some sys_pipe; Some sys_read; Some sys_kill;
   Some sys_exec; Some sys_fstat; Some sys_chdir; Some sys_dup; Some sys_getpid; Some sys_sbrk;
   Some sys_sleep; Some sys_uptime; Some sys_open; Some sys_write; Some sys_mknod; Some sys_unlink;
   Some sys_link; Some sys_mkdir; Some sys_close; Some sys_date; Some sys_dup2; Some sys_getprio;
   Some sys_setprio].

(** [curproc->tf->eax = v] *)
Definition set_eax (p : nat) (v : Z) : K unit := upd p (λ x, set_p_tf (set_tf_eax (u32 v) (p_tf x)) x).

Definition syscall : K unit :=
  p <- curproc ;;
  num <- gets (λ k, i32 (tf_eax (p_tf (proc_at k p)))) ;;
  match (if (num >? 0) && (num <? length syscalls) then mjoin (syscalls !! Z.to_nat num) else None) with
  | Some f => r <- f ;; set_eax p r
  | None => set_eax p (-1)
  end.

(** [if(myproc() && myproc()->killed && (tf->cs&3) == DPL_USER) exit(tf->trapno+1);] *)
Definition exit_if_killed (tf : trapframe) : K unit :=
  o <- myproc ;;
  match o with
  | None => ret tt
  | Some p =>
      kl <- gets (λ k, p_killed (proc_at k p)) ;;
      when (kl && (Z.land (tf_cs tf) 3 =? DPL_USER)) (exit (tf_trapno tf + 1))
  end.

(** What the devices have to say at an interrupt: the processor it comes to,
    the address in CR2, the bytes the keyboard or the serial port has, whether
    the disk controller reports success. *)
Record irq := mkIrq { irq_cpu : nat; irq_cr2 : Z; irq_bytes : list Z; irq_ok : bool }.

(** The timer interrupt of processor 0. *)
Definition tick : K unit :=
  acquire LTicks ;;;
  modify (λ k, set_k_ticks (u32 (k_ticks k + 1)) k) ;;;
  wakeup CTicks ;;;
  release LTicks.

(** The [switch] on the trap number.  Acknowledging the interrupt ([lapiceoi])
    and the messages printed have no effect on what is modelled. *)
Definition trap_switch (tf : trapframe) (q : irq) : K unit :=
  let n := tf_trapno tf in
  if n =? T_IRQ0 + IRQ_TIMER then when (Nat.eqb (irq_cpu q) 0) tick
  else if n =? T_IRQ0 + IRQ_IDE then ideintr (irq_ok q)
  else if n =? T_IRQ0 + IRQ_IDE + 1 then ret tt
  else if n =? T_IRQ0 + IRQ_KBD then kbdintr (irq_bytes q)
  else if n =? T_IRQ0 + IRQ_COM1 then uartintr (irq_bytes q)
  else if (n =? T_IRQ0 + 7) || (n =? T_IRQ0 + IRQ_SPURIOUS) then ret tt
  else if n =? T_PGFLT then pgflt (irq_cr2 q)
  else
    o <- myproc ;;
    match o with
    | None => panic "trap"
    | Some p => if Z.land (tf_cs tf) 3 =? 0 then panic "trap" else upd p (set_p_killed true)
    end.

Definition trap (tf : trapframe) (q : irq) : K unit :=
  if tf_trapno tf =? T_SYSCALL then
    p <- curproc ;;
    kl <- gets (λ k, p_killed (proc_at k p)) ;;
    when kl (exit 0) ;;;
    upd p (set_p_tf tf) ;;;
    syscall ;;;
    kl <- gets (λ k, p_killed (proc_at k p)) ;;
    when kl (exit 0)
  else
    trap_switch tf q ;;;
    exit_if_killed tf ;;;
    o <- myproc ;;
    r <- match o with None => ret false | Some p => gets (λ k, is_state RUNNING (proc_at k p)) end ;;
    when (r && (tf_trapno tf =? T_IRQ0 + IRQ_TIMER)) yield ;;;
    exit_if_killed tf.
End trap.
