(* ===== verification/Ulib.v ===== *)
(** * The user library (src/user/ulib.c, src/user/printf.c, src/user/user.h)

    The string routines on the memory of the process, [atoi], [gets], [printf],
    and the macros that take an exit status apart. *)

From S2P Require Import Prelude Mem.

(** ** Strings in memory *)

(** Loops that run to the terminating zero get fuel; [None] is a string longer
    than that. *)
Fixpoint strcpy (fuel : nat) (m : mem) (s t : Z) : option mem :=
  match fuel with
  | O => None
  | S fuel =>
      let c := ldb m t in
      let m := stb m s c in
      if c =? 0 then Some m else strcpy fuel m (s + 1) (t + 1)
  end.

Fixpoint strcmp (fuel : nat) (m : mem) (p q : Z) : option Z :=
  match fuel with
  | O => None
  | S fuel =>
      if negb (ldb m p =? 0) && (ldb m p =? ldb m q) then strcmp fuel m (p + 1) (q + 1)
      else Some (ldb m p - ldb m q)
  end.

Fixpoint strlen_loop (fuel : nat) (m : mem) (s n : Z) : option Z :=
  match fuel with
  | O => None
  | S fuel => if ldb m (s + n) =? 0 then Some n else strlen_loop fuel m s (n + 1)
  end.
Definition strlen (fuel : nat) (m : mem) (s : Z) : option Z := strlen_loop fuel m s 0.

Definition memset (m : mem) (dst c : Z) (n : nat) : mem := stosb m dst c n.

(** The address of the first [c], or 0. *)
Fixpoint strchr (fuel : nat) (m : mem) (s c : Z) : option Z :=
  match fuel with
  | O => None
  | S fuel => if ldb m s =? 0 then Some 0 else if ldb m s =? c then Some s else strchr fuel m (s + 1) c
  end.

(** [memmove] of this library always copies upwards. *)
Fixpoint memmove (m : mem) (dst src : Z) (n : nat) : mem :=
  match n with
  | O => m
  | S n => memmove (stb m dst (ldb m src)) (dst + 1) (src + 1) n
  end.

(** ** Input *)

(** [gets]: the loop, given what successive one-byte reads return; the
    characters stored and the input that is left. *)
Fixpoint gets_loop (room : nat) (input : list Z) : list Z * list Z :=
  match room, input with
  | S room, c :: input =>
      if (c =? 10) || (c =? 13) then ([c], input)
      else let '(buf, rest) := gets_loop room input in (c :: buf, rest)
  | _, _ => ([], input)
  end.
Definition gets (max : nat) (input : list Z) : list Z * list Z := gets_loop (max - 1) input.

(** [atoi] of a string, its characters before the zero; [int] arithmetic. *)
Fixpoint atoi_loop (n : Z) (s : list Z) : Z :=
  match s with
  | c :: s => if (48 <=? c) && (c <=? 57) then atoi_loop (i32 (n * 10 + c - 48)) s else n
  | [] => n
  end.
Definition atoi (s : list Z) : Z := atoi_loop 0 s.

(** ** Output *)

(** ["0123456789ABCDEF"] *)
Definition digits : list Z := [48; 49; 50; 51; 52; 53; 54; 55; 56; 57; 65; 66; 67; 68; 69; 70].

(** The [do ... while] of [printint]: what it puts in [buf]. *)
Fixpoint digits_rev (fuel : nat) (x base : Z) : list Z :=
  match fuel with
  | O => []
  | S fuel => (digits !!! Z.to_nat (x mod base)) :: if x / base =? 0 then [] else digits_rev fuel (x / base) base
  end.

(** [buf] when it is complete, and the characters written, from its end. *)
Definition printint_buf (xx base : Z) (sgn : bool) : list Z :=
  let neg := sgn && (xx <? 0) in
  let x := if neg then u32 (- xx) else u32 xx in
  digits_rev 32 x base ++ (if neg then [45] else []).
Definition printint (xx base : Z) (sgn : bool) : list Z := reverse (printint_buf xx base sgn).

(** A word of the arguments of [printf], and the string at it if it is used as an
    address. *)
Record parg := mkParg { a_word : Z; a_string : list Z }.
Definition parg0 : parg := mkParg 0 [].

(** The characters [printf] writes; [state] is whether the last one was a [%]. *)
Fixpoint printf_loop (state : bool) (fmt : list Z) (ap : list parg) : list Z :=
  match fmt with
  | [] => []
  | c :: fmt =>
      if state then
        let a := default parg0 (head ap) in
        if c =? 100 then printint (i32 (a_word a)) 10 true ++ printf_loop false fmt (tail ap)
        else if (c =? 120) || (c =? 112) then printint (i32 (a_word a)) 16 false ++ printf_loop false fmt (tail ap)
        else if c =? 115 then (if a_word a =? 0 then [40; 110; 117; 108; 108; 41] else a_string a) ++ printf_loop false fmt (tail ap)
        else if c =? 99 then u8 (a_word a) :: printf_loop false fmt (tail ap)
        else if c =? 37 then c :: printf_loop false fmt ap
        else 37 :: c :: printf_loop false fmt ap
      else if c =? 37 then printf_loop true fmt ap
      else c :: printf_loop false fmt ap
  end.
Definition printf (fmt : list Z) (ap : list parg) : list Z := printf_loop false fmt ap.

(** ** Exit statuses (src/user/user.h) *)

Definition WIFEXITED (status : Z) : bool := Z.land status 127 =? 0.
Definition WEXITSTATUS (status : Z) : Z := Z.shiftr (Z.land status 65280) 8.
Definition WIFSIGNALED (status : Z) : bool := negb (Z.land status 127 =? 0).
Definition WEXITTRAP (status : Z) : Z := Z.land status 127 - 1.

(** ** Numbers *)

Definition digit_value (c : Z) : Z := if c <=? 57 then c - 48 else c - 55.

(** The number a string of digits stands for, the first digit the most significant. *)
Definition value (base : Z) (ds : list Z) : Z := foldl (λ n c, n * base + digit_value c) 0 ds.

Lemma digit_value_digits d : 0 <= d < 16 → digit_value (digits !!! Z.to_nat d) = d ∧ (d < 10 → 48 <= digits !!! Z.to_nat d <= 57).
Proof.
  intros Hd. assert (d = 0 ∨ d = 1 ∨ d = 2 ∨ d = 3 ∨ d = 4 ∨ d = 5 ∨ d = 6 ∨ d = 7 ∨ d = 8 ∨ d = 9 ∨ d = 10 ∨ d = 11 ∨ d = 12 ∨ d = 13 ∨ d = 14 ∨ d = 15) as H by lia.
  destruct_or! H; subst; split; (reflexivity || (vm_compute; intuition congruence)).
Qed.

Lemma value_snoc base ds c : value base (ds ++ [c]) = value base ds * base + digit_value c.
Proof. unfold value. by rewrite foldl_app. Qed.

Lemma digits_rev_value base fuel : 2 <= base <= 16 → ∀ x, 0 <= x < base ^ Z.of_nat fuel →
  value base (reverse (digits_rev fuel x base)) = x.
Proof.
  intros Hb. induction fuel as [|fuel IH]; intros x Hx; [cbn in *; lia|]. cbn [digits_rev]. rewrite reverse_cons, value_snoc.
  assert (0 <= x mod base < base) as Hm by (apply Z.mod_pos_bound; lia). destruct (digit_value_digits (x mod base)) as [-> _]; [lia|].
  pose proof (Z.div_mod x base ltac:(lia)) as Hdm. destruct (Z.eqb_spec (x / base) 0) as [E|E].
  - cbn. lia.
  - rewrite IH; [lia|]. split; [apply Z.div_pos; lia|]. apply Z.div_lt_upper_bound; [lia|].
    rewrite Nat2Z.inj_succ, Z.pow_succ_r in Hx by lia. lia.
Qed.

(** No more digits than the number needs. *)
Lemma digits_rev_length base n fuel : 2 <= base → (1 <= n)%nat → ∀ x, 0 <= x < base ^ Z.of_nat n → (length (digits_rev fuel x base) <= n)%nat.
Proof.
  intros Hb. revert fuel. induction n as [|n IH]; intros fuel Hn x Hx; [lia|]. destruct fuel as [|fuel]; cbn [digits_rev length]; [lia|].
  destruct (Z.eqb_spec (x / base) 0) as [E|E]; cbn [length]; [lia|]. rewrite Nat2Z.inj_succ, Z.pow_succ_r in Hx by lia.
  assert (0 <= x / base) by (apply Z.div_pos; lia). assert (x / base < base ^ n) by (apply Z.div_lt_upper_bound; lia).
  destruct n as [|n]; [cbn in *; lia|]. apply le_n_S. apply IH; lia.
Qed.

Lemma digits_rev_decimal fuel : ∀ x, 0 <= x → Forall (λ c, 48 <= c <= 57) (digits_rev fuel x 10).
Proof.
  induction fuel as [|fuel IH]; intros x Hx; cbn [digits_rev]; constructor.
  - assert (0 <= x mod 10 < 10) by (apply Z.mod_pos_bound; lia). apply (digit_value_digits (x mod 10)); lia.
  - destruct (_ =? _); [constructor|]. apply IH. apply Z.div_pos; lia.
Qed.

(** [atoi] on digits computes their value as long as it fits. *)
Lemma atoi_value ds : ∀ n, 0 <= n → Forall (λ c, 48 <= c <= 57) ds →
  let v := foldl (λ n c, n * 10 + digit_value c) n ds in n <= v ∧ (v < 2 ^ 31 → atoi_loop n ds = v).
Proof.
  induction ds as [|c ds IH]; intros n Hn Hds; cbn [foldl atoi_loop]; [split; [lia|done]|]. apply Forall_cons in Hds as [Hc Hds].
  assert (digit_value c = c - 48) as Ed by (unfold digit_value; by rewrite (proj2 (Z.leb_le c 57)) by lia). rewrite Ed.
  destruct (IH (n * 10 + (c - 48)) ltac:(lia) Hds) as [Hle Hv]. set (v := foldl _ _ _) in *. split; [lia|]. intros Hlt.
  rewrite (proj2 (Z.leb_le 48 c)), (proj2 (Z.leb_le c 57)) by lia. cbn [andb].
  assert (i32 (n * 10 + c - 48) = n * 10 + (c - 48)) as ->; [|by apply Hv]. unfold i32. rewrite u32_small by (unfold is_u32; lia).
  rewrite (proj2 (Z.ltb_lt _ _)) by lia. lia.
Qed.

(** [printint] fits its buffer and prints the number: for every [int] but
    the least the characters stay within the 16 of [buf]; in base 16 their value is the number
    as an unsigned word; in base 10 reading them back with [atoi] gives the
    number, after the sign if it is negative. *)
Theorem printint_correct xx : -(2 ^ 31) < xx < 2 ^ 31 →
  (length (printint_buf xx 10 true) <= 16 ∧ length (printint_buf xx 16 false) <= 16)%nat ∧
  value 16 (printint xx 16 false) = u32 xx ∧
  (if decide (0 <= xx) then atoi (printint xx 10 true) = xx else ∃ ds, printint xx 10 true = 45 :: ds ∧ atoi ds = - xx).
Proof.
  intros Hx. pose proof (u32_range xx) as Hu. unfold is_u32 in Hu.
  assert (∀ x, 0 <= x < 2 ^ 31 → atoi (reverse (digits_rev 32 x 10)) = x) as Hat.
  { intros x Hx'. destruct (atoi_value (reverse (digits_rev 32 x 10)) 0 ltac:(lia)) as [_ Hv]; [apply Forall_reverse, digits_rev_decimal; lia|].
    pose proof (digits_rev_value 10 32 ltac:(lia) x) as Hd. unfold value in Hd. rewrite Hd in Hv by (split; [lia|]; eapply Z.lt_trans; [apply Hx'|done]). apply Hv. lia. }
  assert (∀ x, 0 <= x < 2 ^ 32 → (length (digits_rev 32 x 10) <= 10 ∧ length (digits_rev 32 x 16) <= 8)%nat) as Hlen.
  { intros x Hx'. split; apply digits_rev_length; (lia || (split; [lia|by eapply Z.lt_le_trans; [apply Hx'|]])). }
  split_and!; unfold printint, printint_buf; cbn [andb].
  - rewrite length_app. destruct (Z.ltb_spec xx 0); cbn [length].
    + destruct (Hlen (u32 (- xx))) as [? _]; [apply u32_range|lia].
    + destruct (Hlen (u32 xx)) as [? _]; [lia|lia].
  - rewrite length_app. destruct (Hlen (u32 xx)) as [_ ?]; [lia|cbn [length]; lia].
  - rewrite app_nil_r. apply digits_rev_value; [lia|]. split; [lia|]. eapply Z.lt_trans; [apply Hu|done].
  - case_decide.
    + rewrite (proj2 (Z.ltb_ge xx 0)), app_nil_r, u32_small by (unfold is_u32; lia). apply Hat. lia.
    + rewrite (proj2 (Z.ltb_lt xx 0)), reverse_app, u32_small by (unfold is_u32; lia). eexists. split; [done|]. apply Hat. lia.
Qed.

Lemma printint_correct_witness : printint (-1234) 10 true = [45; 49; 50; 51; 52] ∧ ∃ ds, printint (-1234) 10 true = 45 :: ds ∧ atoi ds = 1234.
Proof. split; [reflexivity|]. apply (printint_correct (-1234)). lia. Defined.

(** An exit status comes back as it went in, modulo 256, marked as an exit; a trap
    number comes back as a signal. *)
Lemma exit_status_roundtrip status : WIFEXITED (i32 (Z.shiftl status 8)) = true ∧ WEXITSTATUS (i32 (Z.shiftl status 8)) = Z.land status 255.
Proof.
  rewrite Z.shiftl_mul_pow2 by lia. unfold WIFEXITED, WEXITSTATUS. set (x := i32 _).
  assert (∃ k, x = status * 256 + k * 2 ^ 32) as [k Hk].
  { unfold x, i32, u32. change (2 ^ 8) with 256. set (z := status * 256). pose proof (Z.div_mod z 4294967296 ltac:(lia)).
    destruct (_ <? _); [exists (- (z / 4294967296))|exists (- (z / 4294967296) - 1)]; lia. }
  split.
  - change 127 with (Z.ones 7). rewrite Z.land_ones by lia. apply Z.eqb_eq. rewrite Hk. change (2 ^ 7) with 128. divmod.
  - rewrite Z.shiftr_land. change (Z.shiftr 65280 8) with (Z.ones 8). change 255 with (Z.ones 8). rewrite !Z.land_ones, Z.shiftr_div_pow2 by lia.
    rewrite Hk. change (2 ^ 8) with 256. divmod.
Qed.
