(* ===== verification/Grep.v ===== *)
(** * The user program grep (src/user/grep.c)

    The pattern matcher of Kernighan and Pike, with the operators [^ . * $], and
    the loop that splits what it reads into lines.  A C string is the list of its
    characters before the terminating zero. *)

From S2P Require Import Prelude.

(** ** The matcher *)

(** [matchstar(c, re, text)], given [matchhere(re, .)] *)
Fixpoint matchstar (here : list Z → bool) (c : Z) (text : list Z) : bool :=
  if here text then true
  else
    match text with
    | t :: text' => if (t =? c) || (c =? 46) then matchstar here c text' else false
    | [] => false
    end.

Fixpoint matchhere (re text : list Z) : bool :=
  match re with
  | [] => true
  | c :: re1 =>
      let rest :=
        if (c =? 36) && (match re1 with [] => true | _ => false end)
        then match text with [] => true | _ => false end
        else
          match text with
          | t :: text' => if (c =? 46) || (c =? t) then matchhere re1 text' else false
          | [] => false
          end in
      match re1 with
      | d :: re2 => if d =? 42 then matchstar (matchhere re2) c text else rest
      | [] => rest
      end
  end.

(** The loop of [match]. *)
Fixpoint match_anywhere (re text : list Z) : bool :=
  if matchhere re text then true
  else match text with _ :: text' => match_anywhere re text' | [] => false end.

Definition match_ (re text : list Z) : bool :=
  match re with
  | c :: re' => if c =? 94 then matchhere re' text else match_anywhere re text
  | [] => match_anywhere re text
  end.

(** ** The loop over the input *)

(** [strchr] of src/user/ulib.c, as an index; the string ends at a zero. *)
Fixpoint strchr (s : list Z) (c : Z) : option nat :=
  match s with
  | [] => None
  | x :: s => if x =? 0 then None else if x =? c then Some O else S <$> strchr s c
  end.

(** The inner loop of [grep]: what it writes, and where [p] ends up.  [p] is
    what of the buffer has not been looked at. *)
Fixpoint grep_lines (fuel : nat) (pattern p : list Z) : list Z * list Z :=
  match fuel with
  | O => ([], p)
  | S fuel =>
      match strchr p 10 with
      | Some q =>
          let out := if match_ pattern (take q p) then take (S q) p else [] in
          let '(out', p') := grep_lines fuel pattern (drop (S q) p) in
          (out ++ out', p')
      | None => ([], p)
      end
  end.

Section grep.
(** The file or pipe that is read: at most so many bytes at a time. *)
Context {F : Type} (read : nat → F → list Z * F).

(** The outer loop; [buf] holds the [m] bytes kept from the reads before. *)
Fixpoint grep_loop (fuel : nat) (pattern buf : list Z) (fd : F) : list Z :=
  match fuel with
  | O => []
  | S fuel =>
      let '(data, fd') := read (1024 - length buf - 1) fd in
      match data with
      | [] => []
      | _ =>
          let all := buf ++ data in
          let '(out, p) := grep_lines (length all) pattern all in
          let buf' := if (length p =? length all)%nat then [] else p in
          out ++ grep_loop fuel pattern buf' fd'
      end
  end.

Definition grep (fuel : nat) (pattern : list Z) (fd : F) : list Z := grep_loop fuel pattern [] fd.
End grep.

(** ** What a pattern means *)

Inductive atom := Lit (c : Z) | Any.
Inductive item := One (a : atom) | Star (a : atom).

Definition atom_of (c : Z) : atom := if c =? 46 then Any else Lit c.
Definition atom_ok (a : atom) (t : Z) : Prop := match a with Lit c => t = c | Any => True end.

(** The strings a sequence of items stands for. *)
Inductive lang : list item → list Z → Prop :=
| lang_nil : lang [] []
| lang_one a its t w : atom_ok a t → lang its w → lang (One a :: its) (t :: w)
| lang_star a its u w : Forall (atom_ok a) u → lang its w → lang (Star a :: its) (u ++ w).

(** The items of a pattern, and whether it ends in [$]. *)
Fixpoint items_of (re : list Z) : list item * bool :=
  match re with
  | [] => ([], false)
  | c :: re1 =>
      let one := let '(its, e) := items_of re1 in (One (atom_of c) :: its, e) in
      match re1 with
      | d :: re2 => if d =? 42 then let '(its, e) := items_of re2 in (Star (atom_of c) :: its, e) else one
      | [] => if c =? 36 then ([], true) else one
      end
  end.

(** The pattern [re] matches somewhere in [text]. *)
Definition occurs (re text : list Z) : Prop :=
  let '(start, body) := match re with c :: re' => if c =? 94 then (true, re') else (false, re) | [] => (false, re) end in
  ∃ pre mid rest, text = pre ++ mid ++ rest ∧ lang (items_of body).1 mid ∧
    (start = true → pre = []) ∧ ((items_of body).2 = true → rest = []).

(** [re] matches a beginning of [text]. *)
Definition begins (re text : list Z) : Prop :=
  ∃ mid rest, text = mid ++ rest ∧ lang (items_of re).1 mid ∧ ((items_of re).2 = true → rest = []).

Lemma atom_of_ok c t : (t =? c) || (c =? 46) = true ↔ atom_ok (atom_of c) t.
Proof.
  unfold atom_of. destruct (Z.eqb_spec c 46); cbn; rewrite ?orb_true_r, ?orb_false_r; [done|]. apply Z.eqb_eq.
Qed.

Lemma matchstar_spec here c text :
  matchstar here c text = true ↔ ∃ u rest, text = u ++ rest ∧ Forall (atom_ok (atom_of c)) u ∧ here rest = true.
Proof.
  induction text as [|t text IH]; cbn [matchstar]; destruct (here _) eqn:Hh; try (split; [intros _; eexists [], _; by split_and!|done]).
  - split; [done|]. intros (u & rest & E & _ & Hr). symmetry in E. apply app_nil in E as [-> ->]. congruence.
  - destruct ((t =? c) || (c =? 46)) eqn:Hc.
    + apply atom_of_ok in Hc. rewrite IH. split.
      * intros (u & rest & -> & Hu & Hr). exists (t :: u), rest. split_and!; [done|by constructor|done].
      * intros ([|x u] & rest & E & Hu & Hr); cbn in E; [congruence|]. injection E as -> ->. apply Forall_cons in Hu as [_ Hu]. eauto.
    + split; [done|]. intros ([|x u] & rest & E & Hu & Hr); cbn in E; [congruence|]. injection E as -> ->.
      apply Forall_cons in Hu as [Hx _]. apply atom_of_ok in Hx. congruence.
Qed.

(** One step of the matcher when the next item is not a star. *)
Lemma matchhere_one c re text :
  (match re with d :: _ => d ≠ 42 | [] => c ≠ 36 end) →
  matchhere (c :: re) text = match text with t :: text' => if (c =? 46) || (c =? t) then matchhere re text' else false | [] => false end.
Proof.
  intros H. destruct re as [|d re]; cbn [matchhere].
  - by rewrite (proj2 (Z.eqb_neq c 36) H).
  - by rewrite (proj2 (Z.eqb_neq d 42) H), andb_false_r.
Qed.

Lemma items_of_one c re :
  (match re with d :: _ => d ≠ 42 | [] => c ≠ 36 end) → items_of (c :: re) = (One (atom_of c) :: (items_of re).1, (items_of re).2).
Proof.
  intros H. destruct re as [|d re]; cbn [items_of].
  - by rewrite (proj2 (Z.eqb_neq c 36) H).
  - rewrite (proj2 (Z.eqb_neq d 42) H). by destruct (match re with [] => _ | _ => _ end).
Qed.

(** The three forms a pattern can have after its first character. *)
Lemma pattern_cases c re : (c = 36 ∧ re = []) ∨ (∃ re2, re = 42 :: re2) ∨ (match re with d :: _ => d ≠ 42 | [] => c ≠ 36 end).
Proof. destruct re as [|d re]; [destruct (decide (c = 36)); auto|]. destruct (decide (d = 42)) as [->|]; eauto. Qed.

Lemma begins_one c re text :
  (match re with d :: _ => d ≠ 42 | [] => c ≠ 36 end) →
  begins (c :: re) text ↔ ∃ t text', text = t :: text' ∧ atom_ok (atom_of c) t ∧ begins re text'.
Proof.
  intros H. unfold begins. rewrite items_of_one by done. cbn [fst snd]. split.
  - intros (mid & rest & -> & Hl & He). inversion Hl; subst. exists t, (w ++ rest). split_and!; [done..|]. by exists w, rest.
  - intros (t & text' & -> & Ht & mid & rest & -> & Hl & He). exists (t :: mid), rest. split_and!; [done|by constructor|done].
Qed.

Lemma begins_star c re text :
  begins (c :: 42 :: re) text ↔ ∃ u rest, text = u ++ rest ∧ Forall (atom_ok (atom_of c)) u ∧ begins re rest.
Proof.
  unfold begins. cbn [items_of]. destruct (items_of re) as [its e]. cbn. split.
  - intros (mid & rest & -> & Hl & He). inversion Hl; subst. exists u, (w ++ rest). rewrite app_assoc. split_and!; [done..|]. by exists w, rest.
  - intros (u & rest & -> & Hu & mid & rest' & -> & Hl & He). exists (u ++ mid), rest'. rewrite app_assoc. split_and!; [done|by constructor|done].
Qed.

Lemma matchhere_spec re : ∀ text, matchhere re text = true ↔ begins re text.
Proof.
  induction re as [re IH] using (induction_ltof1 _ (@length Z)); intros text. unfold ltof in IH. destruct re as [|c re].
  { split; [|done]. intros _. exists [], text. split_and!; [done|constructor|done]. }
  destruct (pattern_cases c re) as [[-> ->]|[[re2 ->]|H]].
  - cbn [matchhere]. change (_ && true) with true. cbn iota. destruct text as [|t text]; split; try done.
    + intros _. exists [], []. split_and!; [done|constructor|done].
    + intros (mid & rest & E & Hl & He). cbn in Hl. inversion Hl; subst mid. by rewrite (He eq_refl) in E.
  - rewrite begins_star. change (matchhere (c :: 42 :: re2) text) with (matchstar (matchhere re2) c text).
    rewrite matchstar_spec. split; intros (u & rest & -> & Hu & Hr); exists u, rest; (split_and!; [done..|]); (apply IH; [cbn; lia|done]).
  - rewrite matchhere_one, begins_one by done. destruct text as [|t text]; [naive_solver|]. rewrite (Z.eqb_sym c t), orb_comm.
    destruct ((t =? c) || (c =? 46)) eqn:Hc.
    + rewrite IH by (cbn; lia). apply atom_of_ok in Hc. naive_solver.
    + split; [done|]. intros (t' & text' & [= <- <-] & Ht & _). apply atom_of_ok in Ht. congruence.
Qed.

Lemma match_anywhere_spec re text : match_anywhere re text = true ↔ ∃ pre rest, text = pre ++ rest ∧ matchhere re rest = true.
Proof.
  induction text as [|t text IH]; cbn [match_anywhere]; destruct (matchhere re _) eqn:Hh; try (split; [intros _; by eexists [], _|done]).
  - split; [done|]. intros (pre & rest & E & Hr). symmetry in E. apply app_nil in E as [-> ->]. congruence.
  - rewrite IH. split.
    + intros (pre & rest & -> & Hr). by exists (t :: pre), rest.
    + intros ([|x pre] & rest & E & Hr); cbn in E; [congruence|]. injection E as -> ->. eauto.
Qed.

(** C25: The matcher decides what the patterns mean: [match] is true exactly when
    some part of the text is in the language of the pattern, from the start of the
    text if the pattern begins with [^] and up to its end if it ends in [$]. *)
Theorem match_correct re text : match_ re text = true ↔ occurs re text.
Proof.
  assert (∀ re, match_anywhere re text = true ↔ ∃ pre mid rest, text = pre ++ mid ++ rest ∧ lang (items_of re).1 mid ∧
    (false = true → pre = []) ∧ ((items_of re).2 = true → rest = [])) as Hany.
  { intros re'. rewrite match_anywhere_spec. split.
    - intros (pre & rest & -> & (mid & r & -> & ? & ?)%matchhere_spec). by exists pre, mid, r.
    - intros (pre & mid & rest & -> & ? & _ & ?). exists pre, (mid ++ rest). split; [done|]. apply matchhere_spec. by exists mid, rest. }
  unfold match_, occurs. destruct re as [|c re']; [apply Hany|]. destruct (c =? 94); [|apply Hany].
  rewrite matchhere_spec. split.
  - intros (mid & rest & -> & ? & ?). by exists [], mid, rest.
  - intros (pre & mid & rest & -> & ? & -> & ?); [|done]. by exists mid, rest.
Qed.

(** ** Lines *)

(** The lines of a text that end in a newline, without it, and what follows the
    last newline. *)
Fixpoint lines_of (text : list Z) : list (list Z) * list Z :=
  match text with
  | [] => ([], [])
  | x :: text =>
      let '(ls, tl) := lines_of text in
      if x =? 10 then ([] :: ls, tl)
      else match ls with [] => ([], x :: tl) | l :: ls => ((x :: l) :: ls, tl) end
  end.

(** The lines that match, each with its newline. *)
Definition matching (pattern : list Z) (ls : list (list Z)) : list Z :=
  concat ((λ l, l ++ [10]) <$> filter (λ l, match_ pattern l = true) ls).

Lemma lines_of_none text : 10 ∉ text → lines_of text = ([], text).
Proof.
  induction text as [|x text IH]; [done|]. rewrite not_elem_of_cons. intros [Hx Ht]. cbn [lines_of].
  by rewrite IH, (proj2 (Z.eqb_neq _ _)) by congruence.
Qed.

Lemma lines_of_app l text : 10 ∉ l → lines_of (l ++ 10 :: text) = (l :: (lines_of text).1, (lines_of text).2).
Proof.
  induction l as [|x l IH]; cbn [app lines_of]; [by destruct (lines_of text)|]. rewrite not_elem_of_cons. intros [Hx Hl].
  by rewrite (IH Hl), (proj2 (Z.eqb_neq _ _)) by congruence.
Qed.

Lemma lines_of_tail text : 10 ∉ (lines_of text).2.
Proof.
  induction text as [|x text IH]; cbn [lines_of]; [apply not_elem_of_nil|]. destruct (lines_of text) as [ls tl]. cbn in *.
  destruct (Z.eqb_spec x 10); [done|]. destruct ls; [|done]. by apply not_elem_of_cons.
Qed.

Lemma lines_of_tail_elem text x : x ∈ (lines_of text).2 → x ∈ text.
Proof.
  induction text as [|y text IH]; [done|]. cbn [lines_of]. destruct (lines_of text) as [[|l ls] tl], (y =? 10); cbn in *; rewrite ?elem_of_cons; intuition.
Qed.

Lemma lines_of_length text : (length (lines_of text).2 <= length text)%nat.
Proof. induction text as [|y text IH]; [done|]. cbn [lines_of]. destruct (lines_of text) as [[|l ls] tl], (y =? 10); cbn in *; lia. Qed.

Lemma lines_of_shorter text : 10 ∈ text → (length (lines_of text).2 < length text)%nat.
Proof.
  intros (l & r & -> & Hl)%list_elem_of_split_l. rewrite lines_of_app by done. cbn. rewrite length_app. cbn.
  pose proof (lines_of_length r). lia.
Qed.

(** The tail of one text is the beginning of the first line of the next. *)
Lemma lines_of_join s t :
  lines_of (s ++ t) = ((lines_of s).1 ++ (lines_of ((lines_of s).2 ++ t)).1, (lines_of ((lines_of s).2 ++ t)).2).
Proof.
  induction s as [|x s IH]; [cbn; by destruct (lines_of t)|]. cbn [app lines_of]. rewrite IH. destruct (lines_of s) as [ls tl]; cbn [fst snd].
  destruct (x =? 10) eqn:Hx; [done|]. destruct ls as [|l ls]; cbn [fst snd app lines_of]; [|done].
  rewrite Hx. by destruct (lines_of (tl ++ t)) as [[|? ?] ?].
Qed.

Lemma strchr_nl p : 0 ∉ p →
  match strchr p 10 with
  | Some q => p = take q p ++ 10 :: drop (S q) p ∧ 10 ∉ take q p
  | None => 10 ∉ p
  end.
Proof.
  induction p as [|x p IH]; cbn [strchr]; [intros _; apply not_elem_of_nil|]. rewrite not_elem_of_cons. intros [Hx Hp]. specialize (IH Hp).
  rewrite (proj2 (Z.eqb_neq x 0)) by congruence. destruct (Z.eqb_spec x 10) as [->|Hn].
  - split; [done|apply not_elem_of_nil].
  - destruct (strchr p 10) as [q|]; cbn.
    + destruct IH as [E Hq]. split; [by rewrite <- E|]. apply not_elem_of_cons. by split.
    + apply not_elem_of_cons. by split.
Qed.

Lemma grep_lines_spec pattern fuel : ∀ p, (length p <= fuel)%nat → 0 ∉ p →
  grep_lines fuel pattern p = (matching pattern (lines_of p).1, (lines_of p).2).
Proof.
  induction fuel as [|fuel IH]; intros p Hlen Hp; [by destruct p; [|cbn in Hlen; lia]|].
  cbn [grep_lines]. pose proof (strchr_nl p Hp) as Hs. destruct (strchr p 10) as [q|]; [|by rewrite lines_of_none].
  destruct Hs as [E Hq]. set (l := take q p) in *. set (r := drop (S q) p) in *.
  assert (take (S q) p = l ++ [10]) as El.
  { rewrite E. assert (q = length l) as Eq by (assert (length p = length (l ++ 10 :: r)) as HL by (by rewrite <- E); unfold l in *; rewrite length_app, length_take in HL; cbn in HL; rewrite length_take; lia).
    rewrite Eq at 1. replace (S (length l)) with (length (l ++ [10])) by (rewrite length_app; cbn; lia).
    change (l ++ 10 :: r) with (l ++ [10] ++ r). by rewrite app_assoc, take_app_length. }
  rewrite El, E, lines_of_app by done. cbn [fst snd].
  assert (length p = length l + S (length r))%nat as HL by (rewrite E, length_app; done).
  rewrite IH; [|lia|].
  2: { intros H0. apply Hp. rewrite E. apply elem_of_app. right. by right. }
  unfold matching. rewrite filter_cons. destruct (match_ pattern l) eqn:Hm.
  - rewrite decide_True by done. done.
  - rewrite decide_False by done. done.
Qed.

(** ** Reading a file *)

(** A file is read from where the last read ended, as much as is asked for or as
    there is left. *)
Definition read_file (n : nat) (f : list Z) : list Z * list Z := (take n f, drop n f).

Lemma grep_no_newline pattern fuel : ∀ buf f, 0 ∉ f → 10 ∉ f → 0 ∉ buf → 10 ∉ buf →
  grep_loop read_file fuel pattern buf f = [].
Proof.
  induction fuel as [|fuel IH]; intros buf f H0 Hn Hb0 Hbn; [done|]. cbn [grep_loop read_file]. unfold read_file.
  set (n := (1024 - length buf - 1)%nat). rewrite <- (take_drop n f), elem_of_app in H0, Hn.
  destruct (take n f) as [|x d] eqn:Ed; [done|]. rewrite <- Ed in *. clear Ed x d.
  assert (0 ∉ buf ++ take n f) as Ha by (rewrite elem_of_app; tauto).
  rewrite grep_lines_spec, lines_of_none by (done || rewrite elem_of_app; tauto). cbn [fst snd]. rewrite Nat.eqb_refl.
  apply IH; rewrite ?elem_of_nil; tauto.
Qed.

Lemma grep_loop_spec pattern fuel : ∀ buf f,
  (length f < fuel)%nat → 0 ∉ buf ++ f → 10 ∉ buf → (length buf <= 1022)%nat →
  Forall (λ l, length l <= 1022)%nat (lines_of (buf ++ f)).1 →
  grep_loop read_file fuel pattern buf f = matching pattern (lines_of (buf ++ f)).1.
Proof.
  induction fuel as [|fuel IH]; intros buf f Hfuel H0 Hn Hb Hl; [lia|]. cbn [grep_loop]. unfold read_file at 1.
  set (n := (1024 - length buf - 1)%nat). pose proof (take_drop n f) as Ef. destruct (take n f) as [|x d] eqn:Ed.
  { destruct f; [|unfold n in Ed; destruct (1024 - length buf - 1)%nat eqn:E; [lia|done]]. by rewrite app_nil_r, lines_of_none. }
  set (data := x :: d) in *. set (f' := drop n f) in *. assert (length f' < length f)%nat as Hlt by (rewrite <- Ef, length_app; unfold data; cbn; lia).
  rewrite <- Ef in H0, Hl |- *. rewrite app_assoc in H0, Hl |- *. set (all := buf ++ data) in *.
  assert (0 ∉ all ∧ 0 ∉ f') as [Ha0 Hf0] by (rewrite elem_of_app in H0; tauto).
  rewrite grep_lines_spec by done. rewrite lines_of_join in Hl |- *. cbn [fst snd] in *. apply Forall_app in Hl as [Hl1 Hl2].
  unfold matching at 2. rewrite filter_app, fmap_app, concat_app. fold (matching pattern (lines_of all).1). f_equal.
  fold (matching pattern (lines_of ((lines_of all).2 ++ f')).1). destruct (decide (10 ∈ all)) as [Hnl|Hnl].
  - pose proof (lines_of_shorter all Hnl) as Hs. rewrite (proj2 (Nat.eqb_neq _ _)) by lia.
    assert (length all <= 1023)%nat by (unfold all; rewrite length_app, <- Ed, length_take; lia).
    apply IH; [lia| |apply lines_of_tail|lia|done]. rewrite elem_of_app. intros [Hin|Hin]; [|done]. by apply Ha0, lines_of_tail_elem.
  - rewrite (lines_of_none all) in Hl2 |- * by done. cbn [fst snd] in *. rewrite Nat.eqb_refl.
    assert (10 ∉ f') as Hf.
    { intros (l & r & E & Hnl')%list_elem_of_split_l. rewrite E, app_assoc, lines_of_app in Hl2 by (rewrite elem_of_app; tauto).
      apply Forall_cons in Hl2 as [Hl2 _]. unfold all in Hl2. rewrite !length_app, <- Ed, length_take in Hl2.
      assert (length f' = length l + S (length r))%nat by (rewrite E, length_app; done). unfold f' in *. rewrite length_drop in *. lia. }
    rewrite grep_no_newline, lines_of_none by (rewrite ?elem_of_nil, ?elem_of_app; tauto). done.
Qed.

(** C26: [grep] on a file prints the lines that match, in order and each with its
    newline, however the reads cut them up, if no line is longer than the buffer
    can hold; characters after the last newline are not looked at. *)
Theorem grep_correct pattern f fuel :
  (length f < fuel)%nat → 0 ∉ f → Forall (λ l, length l <= 1022)%nat (lines_of f).1 →
  grep read_file fuel pattern f = matching pattern (lines_of f).1.
Proof. intros Hfuel H0 Hl. by apply (grep_loop_spec pattern fuel [] f); [| |apply not_elem_of_nil|cbn; lia|]. Qed.

(** A pipe: a read returns the bytes of one write. *)
Definition read_pipe (n : nat) (f : list (list Z)) : list Z * list (list Z) :=
  match f with [] => ([], []) | c :: f => (take n c, if (length c <=? n)%nat then f else drop n c :: f) end.

(** A line that reaches [grep] in two reads, the first of them without a newline,
    loses its beginning: [grep abc] does not find abc, though the line is
    terminated and short. *)
Lemma grep_splits_lines :
  grep read_pipe 10 [97; 98; 99] [[97; 98]; [99; 10]] = [] ∧
  matching [97; 98; 99] (lines_of [97; 98; 99; 10]).1 = [97; 98; 99; 10].
Proof. done. Qed.

Lemma grep_correct_witness : grep read_file 20 [98; 46; 42; 100] [97; 98; 99; 100; 10; 97; 10; 98; 100] = [97; 98; 99; 100; 10].
Proof.
  rewrite grep_correct; [reflexivity|cbn; lia|apply (bool_decide_unpack _); vm_compute; done|].
  cbn. repeat constructor; cbn; lia.
Defined.
