(* ===== verification/Umalloc.v ===== *)
(** * The user-level allocator (src/user/umalloc.c)

    The allocator of Kernighan and Ritchie: free blocks form a circular list in
    the order of their addresses, through headers in the blocks themselves.  A
    header is two words, the next free block and the size in units of a header. *)

From S2P Require Import Prelude Mem.

(** The memory of the process, [freep], and the end of the process's memory. *)
Record heap := mkHeap { h_mem : mem; h_freep : Z; h_brk : Z }.

(** [p->s.ptr], [p->s.size] and [p + n] *)
Definition s_ptr (m : mem) (p : Z) : Z := ld32 m p.
Definition s_size (m : mem) (p : Z) : Z := ld32 m (p + 4).
Definition set_ptr (m : mem) (p v : Z) : mem := st32 m p v.
Definition set_size (m : mem) (p v : Z) : mem := st32 m (p + 4) v.
Definition hplus (p n : Z) : Z := u32 (p + 8 * n).

Section umalloc.
(** The address of the static [base], and whether [sbrk(n)] succeeds when the
    memory ends at the given address. *)
Context (base : Z) (sbrk_ok : Z → Z → bool).

(** The loop of [free] that looks for the place of [bp]. *)
Fixpoint free_find (fuel : nat) (m : mem) (bp p : Z) : option Z :=
  match fuel with
  | O => None
  | S fuel =>
      let n := s_ptr m p in
      if (bp >? p) && (bp <? n) then Some p
      else if (p >=? n) && ((bp >? p) || (bp <? n)) then Some p
      else free_find fuel m bp n
  end.

(** The rest of [free]: [bp] is joined to its neighbours or linked. *)
Definition free_right (m : mem) (bp p : Z) : mem :=
  if hplus bp (s_size m bp) =? s_ptr m p then
    let m := set_size m bp (u32 (s_size m bp + s_size m (s_ptr m p))) in
    set_ptr m bp (s_ptr m (s_ptr m p))
  else set_ptr m bp (s_ptr m p).

Definition free_left (m : mem) (bp p : Z) : mem :=
  if hplus p (s_size m p) =? bp then
    let m := set_size m p (u32 (s_size m p + s_size m bp)) in
    set_ptr m p (s_ptr m bp)
  else set_ptr m p bp.

Definition free (fuel : nat) (ap : Z) (h : heap) : option heap :=
  let bp := u32 (ap - 8) in
  match free_find fuel (h_mem h) bp (h_freep h) with
  | None => None
  | Some p => Some (mkHeap (free_left (free_right (h_mem h) bp p) bp p) p (h_brk h))
  end.

(** The system call: the old end of memory, or -1. *)
Definition sbrk (n : Z) (h : heap) : Z * heap :=
  if sbrk_ok (h_brk h) n then (h_brk h, mkHeap (h_mem h) (h_freep h) (u32 (h_brk h + n))) else (u32 (-1), h).

(** The new [freep], or 0. *)
Definition morecore (fuel : nat) (nu : Z) (h : heap) : option (Z * heap) :=
  let nu := if nu <? 4096 then 4096 else nu in
  let '(p, h) := sbrk (i32 (nu * 8)) h in
  if p =? u32 (-1) then Some (0, h)
  else
    match free fuel (hplus p 1) (mkHeap (set_size (h_mem h) p nu) (h_freep h) (h_brk h)) with
    | None => None
    | Some h => Some (h_freep h, h)
    end.

(** The block [p] of at least [nunits] units is taken, whole or from its end. *)
Definition take_block (nunits p prevp : Z) (h : heap) : Z * heap :=
  let m := h_mem h in
  if s_size m p =? nunits then
    (hplus p 1, mkHeap (set_ptr m prevp (s_ptr m p)) prevp (h_brk h))
  else
    let m := set_size m p (u32 (s_size m p - nunits)) in
    let q := hplus p (s_size m p) in
    (hplus q 1, mkHeap (set_size m q nunits) prevp (h_brk h)).

(** The loop of [malloc]. *)
Fixpoint malloc_loop (fuel : nat) (nunits p prevp : Z) (h : heap) : option (Z * heap) :=
  match fuel with
  | O => None
  | S fuel' =>
      if s_size (h_mem h) p >=? nunits then Some (take_block nunits p prevp h)
      else if p =? h_freep h then
        match morecore fuel' nunits h with
        | None => None
        | Some (p, h) => if p =? 0 then Some (0, h) else malloc_loop fuel' nunits (s_ptr (h_mem h) p) p h
        end
      else malloc_loop fuel' nunits (s_ptr (h_mem h) p) p h
  end.

Definition units (nbytes : Z) : Z := u32 (nbytes + 7) / 8 + 1.

Definition malloc (fuel : nat) (nbytes : Z) (h : heap) : option (Z * heap) :=
  let nunits := units nbytes in
  let h := if h_freep h =? 0
           then mkHeap (set_size (set_ptr (h_mem h) base base) base 0) base (h_brk h) else h in
  let prevp := h_freep h in
  malloc_loop fuel nunits (s_ptr (h_mem h) prevp) prevp h.

End umalloc.
