(* ===== verification/UmallocSpec.v ===== *)
(** * What the user-level allocator guarantees (src/user/umalloc.c)

    The heap is tiled by blocks, each free or in use; the circular list goes
    through the free ones in the order of their addresses. *)

From S2P Require Import Prelude Mem Umalloc.

(** ** Tilings *)

Record block := mkBlock { b_units : Z; b_free : bool }.

Definition span (T : list block) : Z := foldr (λ b z, 8 * b_units b + z) 0 T.

(** Address and size of the blocks that are free ([f = true]) or in use, when the
    first block is at [a]. *)
Fixpoint blocks (f : bool) (a : Z) (T : list block) : list (Z * Z) :=
  match T with
  | [] => []
  | b :: T => if Bool.eqb (b_free b) f then (a, b_units b) :: blocks f (a + 8 * b_units b) T else blocks f (a + 8 * b_units b) T
  end.

Definition sized (T : list block) : Prop := Forall (λ b, 1 <= b_units b) T.

(** No free block is next to another, or at the start when [f] is set. *)
Fixpoint coalesced (f : bool) (T : list block) : Prop :=
  match T with [] => True | b :: T => f && b_free b = false ∧ coalesced (b_free b) T end.

Definition last_free (f : bool) (T : list block) : bool := match last T with Some b => b_free b | None => f end.

Lemma coalesced_app T1 : ∀ f T2, coalesced f (T1 ++ T2) ↔ coalesced f T1 ∧ coalesced (last_free f T1) T2.
Proof.
  induction T1 as [|b T1 IH]; intros f T2; cbn [app coalesced]; [naive_solver|]. rewrite IH.
  assert (last_free (b_free b) T1 = last_free f (b :: T1)) as -> by (unfold last_free; rewrite last_cons; by destruct (last T1)). tauto.
Qed.

Lemma span_cons b T : span (b :: T) = 8 * b_units b + span T.
Proof. done. Qed.

Lemma span_app T1 T2 : span (T1 ++ T2) = span T1 + span T2.
Proof. induction T1 as [|b T1 IH]; [done|]. cbn [app]. rewrite !span_cons. lia. Qed.

Lemma span_nonneg T : sized T → 0 <= span T.
Proof. induction 1 as [|b T Hb _ IH]; [done|]. rewrite span_cons. lia. Qed.

Lemma blocks_app f T1 : ∀ a T2, blocks f a (T1 ++ T2) = blocks f a T1 ++ blocks f (a + span T1) T2.
Proof.
  induction T1 as [|b T1 IH]; intros a T2; cbn [app blocks]; [by rewrite Z.add_0_r|]. rewrite IH, span_cons, Z.add_assoc.
  by destruct (Bool.eqb _ _).
Qed.

Lemma blocks_in f T : ∀ a p s, sized T → (p, s) ∈ blocks f a T → a <= p ∧ 1 <= s ∧ p + 8 * s <= a + span T.
Proof.
  induction T as [|b T IH]; intros a p s HT Hin; [by apply elem_of_nil in Hin|]. apply Forall_cons in HT as [Hb HT].
  pose proof (span_nonneg T HT). rewrite span_cons. cbn [blocks] in Hin.
  destruct (Bool.eqb _ _); [apply elem_of_cons in Hin as [[= -> ->]|Hin]; [lia|]|]; apply (IH _ _ _ HT) in Hin; lia.
Qed.

Lemma blocks_split f T : ∀ a p s, (p, s) ∈ blocks f a T → ∃ T1 T2, T = T1 ++ mkBlock s f :: T2 ∧ p = a + span T1.
Proof.
  induction T as [|[u g] T IH]; intros a p s Hin; [by apply elem_of_nil in Hin|]. cbn [blocks b_free b_units] in Hin.
  destruct (Bool.eqb g f) eqn:Hg; [apply elem_of_cons in Hin as [[= -> ->]|Hin]|].
  - apply Bool.eqb_prop in Hg as ->. exists [], T. split; [done|cbn; lia].
  - apply IH in Hin as (T1 & T2 & -> & ->). exists (mkBlock u g :: T1), T2. split; [done|]. rewrite span_cons. cbn. lia.
  - apply IH in Hin as (T1 & T2 & -> & ->). exists (mkBlock u g :: T1), T2. split; [done|]. rewrite span_cons. cbn. lia.
Qed.

(** Blocks of a tiling are the same or do not overlap. *)
Lemma blocks_disjoint f g T : ∀ a p s q t, sized T → (p, s) ∈ blocks f a T → (q, t) ∈ blocks g a T →
  (p = q ∧ s = t ∧ f = g) ∨ p + 8 * s <= q ∨ q + 8 * t <= p.
Proof.
  induction T as [|[u e] T IH]; intros a p s q t HT Hp Hq; [by apply elem_of_nil in Hp|]. pose proof HT as [Hu HT']%Forall_cons. cbn [b_units] in Hu.
  cbn [blocks b_free b_units] in Hp, Hq.
  assert (∀ f p s, (p, s) ∈ blocks f (a + 8 * u) T → a + 8 * u <= p) as Hin by (intros ? ? ? H; apply blocks_in in H; [lia|done]).
  destruct (Bool.eqb e f) eqn:Ef, (Bool.eqb e g) eqn:Eg.
  - apply Bool.eqb_prop in Ef, Eg. apply elem_of_cons in Hp as [[= -> ->]|Hp], Hq as [[= -> ->]|Hq].
    + left. split_and!; congruence.
    + right. left. eauto.
    + right. right. eauto.
    + by apply (IH (a + 8 * u)).
  - apply elem_of_cons in Hp as [[= -> ->]|Hp]; [right; left; eauto|by apply (IH (a + 8 * u))].
  - apply elem_of_cons in Hq as [[= -> ->]|Hq]; [right; right; eauto|by apply (IH (a + 8 * u))].
  - by apply (IH (a + 8 * u)).
Qed.

(** ** The list *)

(** From [a] the pointers lead through the nodes [ns] to [z]. *)
Fixpoint lseg (m : mem) (a : Z) (ns : list (Z * Z)) (z : Z) : Prop :=
  match ns with
  | [] => a = z
  | (b, s) :: ns => a = b ∧ s_size m b = s ∧ lseg m (s_ptr m b) ns z
  end.

Lemma lseg_app m ns1 : ∀ a ns2 z, lseg m a (ns1 ++ ns2) z ↔ ∃ y, lseg m a ns1 y ∧ lseg m y ns2 z.
Proof.
  induction ns1 as [|[b s] ns1 IH]; intros a ns2 z; cbn [app lseg]; [naive_solver|]. rewrite IH. naive_solver.
Qed.

Lemma lseg_frame m m' ns : ∀ a z,
  (∀ b s, (b, s) ∈ ns → s_ptr m' b = s_ptr m b ∧ s_size m' b = s_size m b) → lseg m a ns z → lseg m' a ns z.
Proof.
  induction ns as [|[b s] ns IH]; intros a z Hf; cbn [lseg]; [done|]. intros (-> & <- & Hl).
  destruct (Hf b (s_size m b)) as [E1 E2]; [by left|]. rewrite E1, E2. split_and!; [done..|]. apply IH; [|done].
  intros b' s' Hin. apply (Hf b' s'). by right.
Qed.

Lemma lseg_head m a ns z : lseg m a ns z → a = match ns with (b, _) :: _ => b | [] => z end.
Proof. destruct ns as [|[b s] ns]; cbn; [done|]. by intros [-> _]. Qed.

(** Headers that the stores leave alone. *)
Lemma set_ptr_ne m p v q : q + 8 <= p ∨ p + 8 <= q → s_ptr (set_ptr m p v) q = s_ptr m q ∧ s_size (set_ptr m p v) q = s_size m q.
Proof. intros. unfold s_ptr, s_size, set_ptr. rewrite !ld32_st32_ne by lia. done. Qed.

Lemma set_size_ne m p v q : q + 8 <= p ∨ p + 8 <= q → s_ptr (set_size m p v) q = s_ptr m q ∧ s_size (set_size m p v) q = s_size m q.
Proof. intros. unfold s_ptr, s_size, set_size. rewrite !ld32_st32_ne by lia. done. Qed.

Lemma set_ptr_eq m p v : is_u32 v → s_ptr (set_ptr m p v) p = v ∧ s_size (set_ptr m p v) p = s_size m p.
Proof. intros. unfold s_ptr, s_size, set_ptr. rewrite ld32_st32_same, u32_small, ld32_st32_ne by (done || lia). done. Qed.

Lemma set_size_eq m p v : is_u32 v → s_size (set_size m p v) p = v ∧ s_ptr (set_size m p v) p = s_ptr m p.
Proof. intros. unfold s_ptr, s_size, set_size. rewrite ld32_st32_same, u32_small, ld32_st32_ne by (done || lia). done. Qed.

(** Memory has changed in the headers at [ps] only. *)
Definition only_headers (ps : list Z) (m m' : mem) : Prop :=
  ∀ a, (∀ p, p ∈ ps → ¬ (p <= a < p + 8)) → ldb m' a = ldb m a.

Lemma only_headers_hdr ps m m' q :
  only_headers ps m m' → (∀ p, p ∈ ps → q + 8 <= p ∨ p + 8 <= q) → s_ptr m' q = s_ptr m q ∧ s_size m' q = s_size m q.
Proof.
  intros H Hq. unfold s_ptr, s_size. split; apply ld32_ext; intros b Hb; apply H; intros p Hp; specialize (Hq p Hp); lia.
Qed.

Lemma only_headers_trans ps m1 m2 m3 : only_headers ps m1 m2 → only_headers ps m2 m3 → only_headers ps m1 m3.
Proof. intros H1 H2 a Ha. by rewrite H2, H1. Qed.

Lemma only_headers_mono ps ps' m m' : ps ⊆ ps' → only_headers ps m m' → only_headers ps' m m'.
Proof. intros Hs H a Ha. apply H. intros p Hp. by apply Ha, Hs. Qed.

Lemma only_set_ptr m p v : only_headers [p] m (set_ptr m p v).
Proof. intros a Ha. unfold set_ptr. apply ldb_st32_out. specialize (Ha p ltac:(by left)). lia. Qed.

Lemma only_set_size m p v : only_headers [p] m (set_size m p v).
Proof. intros a Ha. unfold set_size. apply ldb_st32_out. specialize (Ha p ltac:(by left)). lia. Qed.

(** The addresses rise, starting above [a]. *)
Fixpoint asc (a : Z) (ns : list (Z * Z)) : Prop :=
  match ns with [] => True | (b, _) :: ns => a < b ∧ asc b ns end.

Lemma blocks_asc f T : ∀ a a', sized T → a' < a → asc a' (blocks f a T).
Proof.
  induction T as [|b T IH]; intros a a' HT Ha; [done|]. apply Forall_cons in HT as [Hb HT]. cbn [blocks].
  destruct (Bool.eqb _ _); cbn [asc]; [split; [done|]|]; apply IH; (done || lia).
Qed.

Lemma asc_above ns : ∀ a b s, asc a ns → (b, s) ∈ ns → a < b.
Proof.
  induction ns as [|[c t] ns IH]; intros a b s Ha Hin; [by apply elem_of_nil in Hin|]. destruct Ha as [Hc Ha].
  apply elem_of_cons in Hin as [[= -> _]|Hin]; [done|]. specialize (IH _ _ _ Ha Hin). lia.
Qed.

Lemma asc_app ns1 : ∀ a ns2, asc a (ns1 ++ ns2) → asc a ns1 ∧ ∀ b s, (b, s) ∈ ns1 → ∀ c t, (c, t) ∈ ns2 → b < c.
Proof.
  induction ns1 as [|[b s] ns1 IH]; intros a ns2; cbn [app asc]; [intros _; split; [done|intros ? ? []%elem_of_nil]|].
  intros [Hb Ha]. destruct (IH _ _ Ha) as [H1 H2]. split; [done|]. intros b' s' Hin c t Hc.
  apply elem_of_cons in Hin as [[= -> _]|Hin]; [|by eapply H2]. apply (asc_above (ns1 ++ ns2) b c t Ha), elem_of_app. by right.
Qed.

Lemma asc_nodup ns : ∀ a, asc a ns → NoDup ns.*1.
Proof.
  induction ns as [|[b s] ns IH]; intros a; [constructor|]. intros [_ Ha]. cbn. constructor; [|by eapply IH].
  intros ([b' s'] & E & Hin)%list_elem_of_fmap. cbn in E. subst b'. pose proof (asc_above _ _ _ _ Ha Hin). lia.
Qed.

(** ** The search of [free] *)

(** From a node below [bp] the search stops at the last such node. *)
Lemma find_below m bp base Y X : ∀ fuel a p sp,
  lseg m a (X ++ (p, sp) :: Y) base → asc (a - 1) (X ++ [(p, sp)]) → p < bp → base <= a → base < bp →
  (∀ c t, (c, t) ∈ Y → bp < c) → (length X < fuel)%nat → free_find fuel m bp a = Some p.
Proof.
  induction X as [|[x sx] X IH]; intros [|fuel] a p sp Hl Ha Hp Hb Hbb HY Hf; try (cbn in Hf; lia); cbn [app lseg] in Hl; cbn [free_find].
  - destruct Hl as (-> & _ & Hl). apply lseg_head in Hl. destruct Y as [|[c t] Y].
    + rewrite Hl, Z.gtb_ltb, (proj2 (Z.ltb_lt _ _) Hp), (proj2 (Z.ltb_ge bp base)), Z.geb_leb, (proj2 (Z.leb_le _ _) Hb) by lia. done.
    + specialize (HY c t ltac:(by left)). by rewrite Hl, Z.gtb_ltb, (proj2 (Z.ltb_lt _ _) Hp), (proj2 (Z.ltb_lt _ _) HY).
  - destruct Hl as (-> & _ & Hl). cbn [app asc] in Ha. destruct Ha as [_ Ha]. set (n := s_ptr m x) in *.
    assert (x < n ∧ n < bp) as [Hx Hn].
    { apply lseg_head in Hl. destruct X as [|[y sy] X]; cbn [app asc] in Hl, Ha; [lia|]. destruct Ha as [Hy Ha]. subst n. rewrite Hl.
      split; [done|]. pose proof (asc_above _ _ p sp Ha ltac:(rewrite elem_of_app; right; by left)). lia. }
    rewrite (proj2 (Z.ltb_ge bp n)), andb_false_r, Z.geb_leb, (proj2 (Z.leb_gt n x)) by lia. cbn [andb].
    apply (IH fuel n p sp Hl); [|done|lia|done|done|cbn in Hf; lia].
    assert (x <= n - 1) as Hle by lia. clear -Ha Hle Hl. apply lseg_head in Hl. destruct X as [|[y sy] X]; cbn in *; split; (lia || tauto).
Qed.

(** From a node above [bp] it first goes on to [base]. *)
Lemma find_above m bp base Y X p sp : ∀ fuel a,
  lseg m base (X ++ (p, sp) :: Y) base → asc (base - 1) (X ++ [(p, sp)]) → p < bp → base < bp → (∀ c t, (c, t) ∈ Y → bp < c) →
  ∀ Y1, Y1 ≠ [] → lseg m a Y1 base → asc (a - 1) Y1 → (∀ c t, (c, t) ∈ Y1 → bp < c) → (length Y1 + length X < fuel)%nat → free_find fuel m bp a = Some p.
Proof.
  intros fuel a Hl Ha Hp Hbb HY Y1. revert fuel a. induction Y1 as [|[y sy] Y1 IH]; intros [|fuel] a Hne Hl1 Ha1 HY1 Hf; try done; try (cbn in Hf; lia).
  cbn [lseg] in Hl1. destruct Hl1 as (-> & _ & Hl1). cbn [free_find]. pose proof (HY1 y sy ltac:(by left)) as Hy.
  rewrite Z.gtb_ltb, (proj2 (Z.ltb_ge y bp)) by lia. cbn [andb orb]. set (n := s_ptr m y) in *. pose proof (lseg_head _ _ _ _ Hl1) as Hn.
  destruct Y1 as [|[z sz] Y1].
  - rewrite Hn, (proj2 (Z.ltb_ge bp base)), andb_false_r by lia. cbn in Hf. apply (find_below m bp base Y X fuel base p sp); (done || lia).
  - cbn [asc] in Ha1. destruct Ha1 as (_ & Hz & Ha1). rewrite Z.geb_leb, (proj2 (Z.leb_gt n y)) by lia. cbn [andb].
    apply (IH fuel n); [done|done| | |cbn in Hf |- *; lia].
    + cbn [asc]. split; [lia|done].
    + intros c t Hc. apply (HY1 c t). by right.
Qed.

(** ** Joining and linking *)

Definition join_right (bp s : Z) (Y : list (Z * Z)) : list (Z * Z) :=
  match Y with
  | (n, sn) :: Y' => if bp + 8 * s =? n then (bp, s + sn) :: Y' else (bp, s) :: Y
  | [] => [(bp, s)]
  end.

Definition join_left (p sp : Z) (Y : list (Z * Z)) : list (Z * Z) :=
  match Y with
  | (bp, s) :: Y' => if p + 8 * sp =? bp then (p, sp + s) :: Y' else (p, sp) :: Y
  | [] => [(p, sp)]
  end.

(** The nodes lie above [a], below 2^32, and each begins after the last has ended. *)
Fixpoint apart (a : Z) (ns : list (Z * Z)) : Prop :=
  match ns with [] => a < 2 ^ 32 | (b, s) :: ns => a <= b ∧ 1 <= s ∧ apart (b + 8 * s) ns end.

Lemma apart_in ns : ∀ a, apart a ns → a < 2 ^ 32 ∧ ∀ c t, (c, t) ∈ ns → a <= c ∧ 1 <= t ∧ c + 8 * t < 2 ^ 32.
Proof.
  induction ns as [|[b s] ns IH]; intros a; cbn [apart]; [intros; split; [done|intros ? ? []%elem_of_nil]|].
  intros (Ha & Hs & Hr). destruct (IH _ Hr) as [Hlt Hin]. split; [lia|]. intros c t [[= -> ->]|H]%elem_of_cons; [lia|].
  specialize (Hin c t H). lia.
Qed.

Lemma blocks_apart f T : ∀ a a', sized T → a' <= a → a + span T < 2 ^ 32 → apart a' (blocks f a T).
Proof.
  induction T as [|b T IH]; intros a a' HT Ha Hlt; [cbn in *; lia|]. apply Forall_cons in HT as [Hb HT]. rewrite span_cons in Hlt. cbn [blocks].
  destruct (Bool.eqb _ _); cbn [apart]; [split_and!; [done..|]|]; apply IH; (done || lia).
Qed.

Lemma free_right_spec m p bp s Y base :
  lseg m (s_ptr m p) Y base → s_size m bp = s → 0 <= base < bp → p + 8 <= bp → 1 <= s → apart (bp + 8 * s) Y →
  lseg (free_right m bp p) bp (join_right bp s Y) base ∧ only_headers [bp] m (free_right m bp p).
Proof.
  intros Hl Hs Hb Hpb Hs1 Hap. destruct (apart_in _ _ Hap) as [Hlt Hin]. unfold free_right. rewrite Hs. unfold hplus. rewrite u32_small by (unfold is_u32; lia).
  pose proof (lseg_head _ _ _ _ Hl) as Hn. assert (is_u32 (s_ptr m p)) as Hu by apply ld32_range.
  assert (∀ v, lseg (set_ptr m bp v) (s_ptr m p) Y base) as Hfr.
  { intros v. eapply lseg_frame; [|exact Hl]. intros b t Hbt. apply set_ptr_ne. specialize (Hin b t Hbt). lia. }
  destruct Y as [|[n sn] Y].
  - rewrite Hn, (proj2 (Z.eqb_neq _ _)) by lia. split; [|apply only_set_ptr]. cbn [join_right lseg].
    destruct (set_ptr_eq m bp base) as [E1 E2]; [unfold is_u32; lia|]. rewrite E1, E2. done.
  - cbn [join_right]. rewrite Hn in *. destruct (Z.eqb_spec (bp + 8 * s) n) as [En|En].
    + destruct Hl as (_ & Esn & Hl). specialize (Hin n sn ltac:(by left)) as Hnin. rewrite Esn. rewrite u32_small by (unfold is_u32; lia).
      destruct (set_size_ne m bp (s + sn) p) as [E0 _]; [lia|]. rewrite E0, Hn.
      destruct (set_size_ne m bp (s + sn) n) as [E1 _]; [lia|]. rewrite E1. set (m1 := set_size m bp (s + sn)).
      assert (is_u32 (s_ptr m n)) as Hun by apply ld32_range. destruct (set_ptr_eq m1 bp (s_ptr m n) Hun) as [E3 E4].
      destruct (set_size_eq m bp (s + sn)) as [E5 _]; [unfold is_u32; lia|]. split.
      * cbn [lseg]. rewrite E3, E4. split_and!; [done|exact E5|]. eapply lseg_frame; [|exact Hl]. intros b t Hbt.
        specialize (Hin b t ltac:(by right)). destruct (set_ptr_ne m1 bp (s_ptr m n) b) as [-> ->]; [lia|]. apply set_size_ne. lia.
      * eapply only_headers_trans; [apply only_set_size|apply only_set_ptr].
    + split; [|apply only_set_ptr]. cbn [lseg]. destruct (set_ptr_eq m bp n Hu) as [E1 E2]. rewrite E1, E2. split; [done|]. split; [done|]. apply (Hfr n).
Qed.

Lemma free_left_spec m p sp bp s Y base :
  lseg m bp ((bp, s) :: Y) base → s_size m p = sp → 0 <= p → 0 <= sp → p + 8 <= bp → p + 8 * sp <= bp → 1 <= s → apart (bp + 8 * s) Y →
  lseg (free_left m bp p) p (join_left p sp ((bp, s) :: Y)) base ∧ only_headers [p] m (free_left m bp p).
Proof.
  intros Hl Hsp Hp Hsp0 Hpb Hpe Hs1 Hap. destruct (apart_in _ _ Hap) as [Hlt Hin]. unfold free_left. rewrite Hsp. unfold hplus.
  rewrite u32_small by (unfold is_u32; lia). cbn [join_left]. pose proof Hl as (_ & Es & Hl1). destruct (Z.eqb_spec (p + 8 * sp) bp) as [E|E].
  - rewrite Es. rewrite u32_small by (unfold is_u32; lia). destruct (set_size_ne m p (sp + s) bp) as [E1 _]; [lia|]. rewrite E1. set (m1 := set_size m p (sp + s)).
    assert (is_u32 (s_ptr m bp)) as Hu by apply ld32_range. destruct (set_ptr_eq m1 p (s_ptr m bp) Hu) as [E3 E4].
    destruct (set_size_eq m p (sp + s)) as [E5 _]; [unfold is_u32; lia|]. split.
    + cbn [lseg]. rewrite E3, E4. split_and!; [done|exact E5|]. eapply lseg_frame; [|exact Hl1]. intros b t Hbt.
      specialize (Hin b t Hbt). destruct (set_ptr_ne m1 p (s_ptr m bp) b) as [-> ->]; [lia|]. apply set_size_ne. lia.
    + eapply only_headers_trans; [apply only_set_size|apply only_set_ptr].
  - split; [|apply only_set_ptr]. destruct (set_ptr_eq m p bp) as [E1 E2]; [unfold is_u32; lia|].
    change (lseg (set_ptr m p bp) p ((p, sp) :: (bp, s) :: Y) base). cbn [lseg]. rewrite E1, E2. split_and!; [done..| |].
    + destruct (set_ptr_ne m p bp bp) as [_ ->]; [lia|done].
    + destruct (set_ptr_ne m p bp bp) as [-> _]; [lia|]. eapply lseg_frame; [|exact Hl1]. intros b t Hbt. apply set_ptr_ne. specialize (Hin b t Hbt). lia.
Qed.

(** ** Giving a block back *)

(** The tiling around a block of [s] units that becomes free: what joins it on
    the right and on the left. *)
Lemma join_right_tiling bp s T2 :
  sized T2 → coalesced false T2 → 1 <= s →
  ∃ s' T2', sized T2' ∧ 1 <= s' ∧ coalesced true T2' ∧ 8 * s' + span T2' = 8 * s + span T2 ∧
    (bp, s') :: blocks true (bp + 8 * s') T2' = join_right bp s (blocks true (bp + 8 * s) T2) ∧
    blocks false (bp + 8 * s') T2' = blocks false (bp + 8 * s) T2.
Proof.
  intros HT Hc Hs. destruct T2 as [|[u [|]] T2].
  - exists s, []. split_and!; done.
  - apply Forall_cons in HT as [Hu HT]. cbn [b_units] in *. cbn in Hc. exists (s + u), T2. cbn [blocks b_free b_units Bool.eqb join_right].
    rewrite Z.eqb_refl, span_cons. cbn [b_units]. replace (bp + 8 * (s + u)) with (bp + 8 * s + 8 * u) by lia.
    split_and!; (done || lia || tauto).
  - exists s, (mkBlock u false :: T2). split_and!; try done. pose proof HT as [Hu HT']%Forall_cons. cbn [b_units] in Hu.
    cbn [blocks b_free b_units Bool.eqb]. pose proof (blocks_in true T2 (bp + 8 * s + 8 * u)) as Hin.
    destruct (blocks true (bp + 8 * s + 8 * u) T2) as [|[n sn] Y]; [done|]. cbn [join_right].
    specialize (Hin n sn HT' ltac:(by left)). by rewrite (proj2 (Z.eqb_neq _ _)) by lia.
Qed.

Lemma join_left_tiling base lo s' T1 T2' X p sp :
  sized T1 → sized T2' → coalesced false T1 → coalesced true T2' → 1 <= s' → base + 8 <= lo →
  (base, 0) :: blocks true lo T1 = X ++ [(p, sp)] →
  ∃ T', sized T' ∧ coalesced false T' ∧ span T' = span T1 + 8 * s' + span T2' ∧
    (base, 0) :: blocks true lo T' = X ++ join_left p sp ((lo + span T1, s') :: blocks true (lo + span T1 + 8 * s') T2') ∧
    blocks false lo T' = blocks false lo T1 ++ blocks false (lo + span T1 + 8 * s') T2'.
Proof.
  intros HT1 HT2 Hc1 Hc2 Hs Hlo EN. destruct (last_free false T1) eqn:Hlast.
  - destruct T1 as [|b T1' _] using rev_ind; [done|]. unfold last_free in Hlast. rewrite last_snoc in Hlast. destruct b as [u f]. cbn in Hlast. subst f.
    apply Forall_app in HT1 as [HT1 Hu]. apply Forall_cons in Hu as [Hu _]. cbn [b_units] in Hu. apply coalesced_app in Hc1 as [Hc1 Hc1'].
    rewrite blocks_app in EN. cbn [blocks b_free b_units Bool.eqb] in EN. rewrite app_comm_cons in EN. apply app_inj_tail in EN as [EX [= <- <-]].
    exists (T1' ++ mkBlock (u + s') true :: T2'). rewrite !span_app, !span_cons. cbn [span foldr b_units]. split_and!.
    + apply Forall_app. split; [done|]. apply Forall_cons. split; [cbn; lia|done].
    + apply coalesced_app. split; [done|]. cbn in *. tauto.
    + lia.
    + rewrite blocks_app. cbn [blocks b_free b_units Bool.eqb join_left]. rewrite (proj2 (Z.eqb_eq _ _)) by lia. rewrite app_comm_cons, EX.
      do 3 f_equal. lia.
    + rewrite !blocks_app. cbn [blocks b_free b_units Bool.eqb]. rewrite app_nil_r. do 2 f_equal. lia.
  - exists (T1 ++ mkBlock s' true :: T2'). rewrite !span_app, !span_cons, !blocks_app. cbn [b_units blocks b_free Bool.eqb]. split_and!.
    + apply Forall_app. split; [done|]. apply Forall_cons. by split.
    + apply coalesced_app. split; [done|]. rewrite Hlast. cbn. tauto.
    + lia.
    + cbn [join_left]. rewrite (proj2 (Z.eqb_neq _ _)); [by rewrite app_comm_cons, EN, <- app_assoc|].
      pose proof (span_nonneg T1 HT1). destruct T1 as [|b T1' _] using rev_ind.
      * cbn [blocks] in EN. apply (f_equal last) in EN. rewrite last_snoc in EN. injection EN as <- <-. cbn. lia.
      * unfold last_free in Hlast. rewrite last_snoc in Hlast. destruct b as [u f]. cbn in Hlast. subst f.
        apply Forall_app in HT1 as [HT1 Hu]. apply Forall_cons in Hu as [Hu _]. cbn [b_units] in Hu. rewrite span_app, span_cons. cbn [span foldr b_units].
        rewrite blocks_app in EN. cbn [blocks b_free b_units Bool.eqb] in EN. rewrite app_nil_r in EN.
        assert ((p, sp) ∈ (base, 0) :: blocks true lo T1') as Hin by (rewrite EN, elem_of_app; right; by left).
        pose proof (span_nonneg T1' HT1). apply elem_of_cons in Hin as [[= -> ->]|Hin]; [lia|]. apply blocks_in in Hin; [lia|done].
    + done.
Qed.

(** ** The invariant *)

(** The heap from [lo] to the end of memory is tiled by [T], and the circular list
    goes through [base] and the free blocks. *)
Record inv (base lo : Z) (h : heap) (T : list block) : Prop := {
  iv_sized : sized T;
  iv_coal : coalesced false T;
  iv_base : 0 < base ∧ base + 8 <= lo;
  iv_brk : h_brk h = lo + span T;
  iv_lim : lo + span T < 2 ^ 32;
  iv_list : lseg (h_mem h) base ((base, 0) :: blocks true lo T) base;
  iv_live : ∀ a s, (a, s) ∈ blocks false lo T → s_size (h_mem h) a = s;
  iv_freep : h_freep h ∈ base :: (blocks true lo T).*1
}.

(** The blocks in use have kept their contents. *)
Definition kept (lo : Z) (m m' : mem) (T : list block) : Prop :=
  ∀ a s, (a, s) ∈ blocks false lo T → ∀ b, a <= b < a + 8 * s → ldb m' b = ldb m b.

Lemma asc_suffix A : ∀ a b s B, asc a (A ++ (b, s) :: B) → asc (b - 1) ((b, s) :: B).
Proof. induction A as [|[c t] A IH]; intros a b s B; cbn [app asc]; [intros [_ ?]; split; [lia|done]|]. intros [_ H]. by eapply IH. Qed.

Lemma nodes_asc base lo T : sized T → base + 8 <= lo → asc (base - 1) ((base, 0) :: blocks true lo T).
Proof. intros HT Hlo. cbn [asc]. split; [lia|]. apply blocks_asc; [done|lia]. Qed.

(** The search finds the node before [bp], wherever it starts. *)
Lemma free_find_spec base lo m T1 T2 s X p sp f fuel :
  sized (T1 ++ T2) → base + 8 <= lo → 1 <= s →
  let bp := lo + span T1 in let Y := blocks true (bp + 8 * s) T2 in
  (base, 0) :: blocks true lo T1 = X ++ [(p, sp)] → lseg m base (X ++ (p, sp) :: Y) base →
  f ∈ (X ++ (p, sp) :: Y).*1 → (length X + length Y + 1 < fuel)%nat → free_find fuel m bp f = Some p.
Proof.
  intros HT Hlo Hs bp Y EN Hl Hf Hfuel. apply Forall_app in HT as [HT1 HT2]. pose proof (span_nonneg T1 HT1) as Hsp.
  assert (base < bp) as Hbb by lia. pose proof (nodes_asc base lo T1 HT1 Hlo) as Hasc. rewrite EN in Hasc.
  assert (p < bp) as Hp.
  { assert ((p, sp) ∈ (base, 0) :: blocks true lo T1) as Hin by (rewrite EN, elem_of_app; right; by left).
    apply elem_of_cons in Hin as [[= -> ->]|Hin]; [done|]. apply blocks_in in Hin; [lia|done]. }
  assert (∀ c t, (c, t) ∈ Y → bp < c) as HY by (intros c t Hc; apply blocks_in in Hc; [lia|done]).
  apply list_elem_of_fmap in Hf as ([f' sf] & -> & Hf). cbn [fst]. rewrite cons_middle, app_assoc in Hf. apply elem_of_app in Hf as [Hf|Hf].
  - apply list_elem_of_split in Hf as (A & B & E). destruct B as [|[b' sb'] B _] using rev_ind.
    + apply app_inj_tail in E as [<- [= <- <-]]. apply lseg_app in Hl as (y & _ & Hl). pose proof Hl as [-> _].
      apply (find_below m bp base Y [] fuel p p sp); try done; [by apply (asc_suffix X) in Hasc| |cbn; lia].
      pose proof (asc_above _ _ p sp Hasc ltac:(rewrite elem_of_app; right; by left)). lia.
    + rewrite app_comm_cons, app_assoc in E. apply app_inj_tail in E as [-> [= <- <-]]. rewrite <- app_assoc in Hl, Hasc. apply lseg_app in Hl as (y & _ & Hl).
      pose proof Hl as [-> _]. cbn [app] in Hasc. pose proof (asc_suffix _ _ _ _ _ Hasc) as Hs2.
      apply (find_below m bp base Y ((f', sf) :: B) fuel f' p sp); try done.
      * pose proof (asc_above _ _ f' sf Hasc ltac:(rewrite elem_of_app; right; by left)). lia.
      * rewrite length_app in Hfuel. lia.
  - apply list_elem_of_split in Hf as (A & B & E). rewrite E in Hl. pose proof Hl as Hl0. rewrite cons_middle, app_assoc, app_assoc in Hl.
    apply lseg_app in Hl as (y & _ & Hl). pose proof Hl as [-> _]. rewrite <- E in Hl0.
    apply (find_above m bp base Y X p sp fuel f' Hl0 Hasc Hp Hbb HY ((f', sf) :: B)); [done|done| | |].
    + apply (asc_suffix A (base - 1)). rewrite <- E. apply blocks_asc; [done|lia].
    + intros c t Hc. apply (HY c t). rewrite E. apply elem_of_app. by right.
    + assert (length Y = length A + S (length B))%nat as EL by (rewrite E, length_app; done). cbn. lia.
Qed.

Lemma last_node (x : Z * Z) l : ∃ X y, x :: l = X ++ [y].
Proof. destruct (exists_last (l := x :: l)) as (X & y & E); [done|]. by exists X, y. Qed.

Lemma apart_app A : ∀ a b s B c t, apart a (A ++ (b, s) :: B) → (c, t) ∈ A → c + 8 * t <= b.
Proof.
  induction A as [|[d u] A IH]; intros a b s B c t Ha Hin; [by apply elem_of_nil in Hin|]. cbn [app apart] in Ha. destruct Ha as (_ & _ & Ha).
  apply elem_of_cons in Hin as [[= -> ->]|Hin]; [|by eapply IH]. apply apart_in in Ha as [_ Ha].
  apply (Ha b s). apply elem_of_app. right. by left.
Qed.

(** The last node below [bp], and those before it. *)
Lemma last_below base lo T1 X p sp :
  sized T1 → 0 < base → base + 8 <= lo → lo + span T1 < 2 ^ 32 → (base, 0) :: blocks true lo T1 = X ++ [(p, sp)] →
  base <= p ∧ 0 <= sp ∧ p + 8 <= lo + span T1 ∧ p + 8 * sp <= lo + span T1 ∧ ∀ c t, (c, t) ∈ X → base <= c ∧ c + 8 <= p.
Proof.
  intros HT Hb Hlo Hlim EN. pose proof (span_nonneg T1 HT). destruct X as [|x X]; cbn [app] in EN.
  - injection EN as <- <- _. split_and!; try lia. intros c t []%elem_of_nil.
  - injection EN as <- EN. pose proof (blocks_apart true T1 lo lo HT ltac:(lia) Hlim) as Hap. rewrite EN in Hap.
    assert ((p, sp) ∈ blocks true lo T1) as Hin by (rewrite EN, elem_of_app; right; by left). apply blocks_in in Hin; [|done].
    split_and!; try lia. intros c t [[= -> _]|Hc]%elem_of_cons; [lia|]. pose proof (apart_app _ _ _ _ _ _ _ Hap Hc).
    apply apart_in in Hap as [_ Hap]. specialize (Hap c t ltac:(rewrite elem_of_app; by left)). lia.
Qed.

Lemma join_right_head bp s Y : apart (bp + 8 * s) Y → 1 <= s → ∃ s' Y', join_right bp s Y = (bp, s') :: Y' ∧ s <= s' ∧ apart (bp + 8 * s') Y'.
Proof.
  intros Ha Hs. destruct Y as [|[n sn] Y]; cbn [join_right]; [by exists s, []|]. destruct (Z.eqb_spec (bp + 8 * s) n); [|by eexists _, _].
  destruct Ha as (_ & Hsn & Ha). exists (s + sn), Y. split_and!; [done|lia|]. replace (bp + 8 * (s + sn)) with (n + 8 * sn) by lia. done.
Qed.

(** The stores of [free], on the list. *)
Lemma free_memory base m X p sp Y bp s :
  lseg m base (X ++ (p, sp) :: Y) base → s_size m bp = s → 0 < base < bp → 1 <= s → apart (bp + 8 * s) Y →
  0 <= p → 0 <= sp → p + 8 <= bp → p + 8 * sp <= bp → (∀ c t, (c, t) ∈ X → c + 8 <= p) →
  let m' := free_left (free_right m bp p) bp p in
  lseg m' base (X ++ join_left p sp (join_right bp s Y)) base ∧ only_headers [p; bp] m m'.
Proof.
  intros Hl Hs Hb Hs1 Hap Hp Hsp Hpb Hpe HX m'. apply lseg_app in Hl as (y & HlX & -> & Esp & HlY).
  destruct (free_right_spec m p bp s Y base HlY Hs) as [Hr Or]; [lia..|done|]. set (m1 := free_right m bp p) in *.
  destruct (join_right_head bp s Y Hap Hs1) as (s' & Y' & EY & Hs' & Hap'). rewrite EY in Hr |- *.
  destruct (only_headers_hdr _ _ _ p Or) as [_ Ep]; [intros q ->%list_elem_of_singleton; lia|].
  destruct (free_left_spec m1 p sp bp s' Y' base Hr) as [Hf Of]; [congruence|lia..|done|].
  assert (only_headers [p; bp] m m') as Ho.
  { eapply only_headers_trans; [eapply only_headers_mono, Or|eapply only_headers_mono, Of]; intros q; rewrite !elem_of_cons, elem_of_nil; tauto. }
  split; [|done]. apply lseg_app. exists p. split; [|done]. eapply lseg_frame; [|exact HlX]. intros c t Hc. specialize (HX c t Hc).
  apply (only_headers_hdr [p; bp]); [done|]. intros q. rewrite !elem_of_cons, elem_of_nil. intros [->|[->|[]]]; lia.
Qed.

Lemma length_blocks f T : ∀ a, (length (blocks f a T) <= length T)%nat.
Proof. induction T as [|b T IH]; intros a; cbn [blocks]; [done|]. destruct (Bool.eqb _ _); cbn [length]; specialize (IH (a + 8 * b_units b)); lia. Qed.

Lemma length_join_right bp s Y : (length (join_right bp s Y) <= S (length Y))%nat.
Proof. destruct Y as [|[n sn] Y]; cbn; [done|]. destruct (_ =? _); cbn; lia. Qed.

Lemma length_join_left p sp Y : (length (join_left p sp Y) <= S (length Y))%nat.
Proof. destruct Y as [|[n sn] Y]; cbn; [done|]. destruct (_ =? _); cbn; lia. Qed.

(** The headers [free] writes to are outside of the other blocks in use. *)
Lemma free_apart base lo T1 s T2 X p sp a t :
  sized T1 → sized T2 → 1 <= s → 0 < base → base + 8 <= lo → (base, 0) :: blocks true lo T1 = X ++ [(p, sp)] →
  (a, t) ∈ blocks false lo T1 ++ blocks false (lo + span T1 + 8 * s) T2 →
  ∀ q, q ∈ [p; lo + span T1] → a + 8 * t <= q ∨ q + 8 <= a.
Proof.
  intros HT1 HT2 Hs Hb Hlo EN Hin q Hq. pose proof (span_nonneg T1 HT1).
  assert ((p, sp) ∈ (base, 0) :: blocks true lo T1) as Hpn by (rewrite EN, elem_of_app; right; by left).
  rewrite !elem_of_cons, elem_of_nil in Hq. apply elem_of_app in Hin as [Hin|Hin].
  - pose proof (blocks_in _ _ _ _ _ HT1 Hin). destruct Hq as [->|[->|[]]]; [|lia]. apply elem_of_cons in Hpn as [[= -> ->]|Hpn]; [lia|].
    pose proof (blocks_in _ _ _ _ _ HT1 Hpn). destruct (blocks_disjoint false true T1 lo a t p sp HT1 Hin Hpn) as [(_ & _ & [=])|?]; lia.
  - pose proof (blocks_in _ _ _ _ _ HT2 Hin). destruct Hq as [->|[->|[]]]; [|lia]. apply elem_of_cons in Hpn as [[= -> ->]|Hpn]; [lia|].
    pose proof (blocks_in _ _ _ _ _ HT1 Hpn). lia.
Qed.

(** What [free] does to a block in use. *)
Lemma free_spec base lo h T1 s T2 fuel :
  inv base lo h (T1 ++ mkBlock s false :: T2) → (length (T1 ++ T2) + 2 <= fuel)%nat →
  ∃ h' T', free fuel (lo + span T1 + 8) h = Some h' ∧ inv base lo h' T' ∧ h_brk h' = h_brk h ∧
    blocks false lo T' = blocks false lo T1 ++ blocks false (lo + span T1 + 8 * s) T2 ∧
    (∃ a t, (a, t) ∈ blocks true lo T' ∧ s <= t) ∧ kept lo (h_mem h) (h_mem h') T' ∧
    (length (blocks true lo T') <= S (length (T1 ++ T2)))%nat.
Proof.
  intros [HT Hc [Hb Hlo] Hbrk Hlim Hl Hlive Hfp] Hfuel. rewrite span_app, span_cons in Hbrk, Hlim. cbn [b_units] in Hbrk, Hlim.
  rewrite blocks_app in Hl, Hfp. cbn [blocks b_free b_units Bool.eqb] in Hl, Hfp. set (bp := lo + span T1) in *. set (Y := blocks true (bp + 8 * s) T2) in *.
  pose proof HT as HT0. apply Forall_app in HT as [HT1 HT2]. apply Forall_cons in HT2 as [Hs HT2]. cbn [b_units] in Hs.
  apply coalesced_app in Hc as [Hc1 Hc2]. cbn [coalesced b_free] in Hc2. destruct Hc2 as [_ Hc2].
  pose proof (span_nonneg T1 HT1) as Hsp1. pose proof (span_nonneg T2 HT2) as Hsp2.
  destruct (last_node (base, 0) (blocks true lo T1)) as (X & [p sp] & EN). rewrite app_comm_cons, EN, <- app_assoc in Hl. cbn [app] in Hl.
  destruct (last_below base lo T1 X p sp HT1 Hb Hlo ltac:(lia) EN) as (Hpb & Hsp & Hp8 & Hpe & HX). fold bp in Hp8, Hpe.
  assert (apart (bp + 8 * s) Y) as Hap by (apply blocks_apart; [done|lia|lia]).
  assert (s_size (h_mem h) bp = s) as Hsz.
  { apply Hlive. rewrite blocks_app. apply elem_of_app. right. by left. }
  destruct (free_memory base (h_mem h) X p sp Y bp s Hl Hsz) as [Hl' Ho]; [lia..|done|lia|lia|lia|lia|intros c t Hct; apply (HX c t Hct)|].
  set (m' := free_left _ _ _) in *.
  destruct (join_right_tiling bp s T2 HT2 Hc2 Hs) as (s' & T2' & HT2' & Hs' & Hc2' & Hsp' & ER & EF). fold Y in ER.
  destruct (join_left_tiling base lo s' T1 T2' X p sp HT1 HT2' Hc1 Hc2' Hs' Hlo EN) as (T' & HT' & Hc' & HspT & ET & EL). fold bp in ET, EL.
  rewrite ER in ET. rewrite EF in EL. rewrite <- ET in Hl'.
  assert (length X + length Y + 1 < fuel)%nat as Hlen.
  { pose proof (length_blocks true T1 lo) as L1. apply (f_equal length) in EN. rewrite length_app in EN. cbn in EN.
    pose proof (length_blocks true T2 (bp + 8 * s)) as L2. fold Y in L2. rewrite length_app in Hfuel. lia. }
  assert (∀ a t, (a, t) ∈ blocks false lo T' → ∀ q, q ∈ [p; bp] → a + 8 * t <= q ∨ q + 8 <= a) as Hsep.
  { intros a t Hin. rewrite EL in Hin. by apply (free_apart base lo T1 s T2 X p sp a t). }
  exists (mkHeap m' p (h_brk h)), T'. split_and!.
  - unfold free. replace (u32 (bp + 8 - 8)) with bp by (rewrite u32_small by (unfold is_u32; lia); lia).
    pose proof (free_find_spec base lo (h_mem h) T1 T2 s X p sp (h_freep h) fuel) as Hfind. cbv zeta in Hfind. fold bp Y in Hfind.
    rewrite Hfind; try done; [apply Forall_app; by split|].
    replace (X ++ (p, sp) :: Y) with ((base, 0) :: blocks true lo T1 ++ Y) by (by rewrite app_comm_cons, EN, <- app_assoc). exact Hfp.
  - split; try done; cbn [h_mem h_brk h_freep]; [lia|lia| |].
    + intros a t Hin. destruct (only_headers_hdr _ _ _ a Ho) as [_ ->].
      * intros q Hq. assert (1 <= t) by (by eapply (blocks_in _ _ lo), Hin). specialize (Hsep a t Hin q Hq). lia.
      * apply Hlive. rewrite blocks_app. cbn [blocks b_free b_units Bool.eqb]. rewrite EL in Hin. rewrite elem_of_app in Hin |- *.
        rewrite elem_of_cons. fold bp. tauto.
    + change (p ∈ ((base, 0) :: blocks true lo T').*1). rewrite ET, fmap_app, elem_of_app. right. destruct (join_right_head bp s Y Hap Hs) as (? & ? & -> & _).
      cbn [join_left]. destruct (_ =? _); by left.
  - done.
  - exact EL.
  - destruct (join_right_head bp s Y Hap Hs) as (u & Y' & Eu & Hu & _). rewrite Eu in ET. cbn [join_left] in ET.
    destruct (p + 8 * sp =? bp) eqn:Ejoin.
    + exists p, (sp + u). split; [|lia]. assert ((p, sp + u) ∈ (base, 0) :: blocks true lo T') as Hin by (rewrite ET, elem_of_app; right; by left).
      apply elem_of_cons in Hin as [[= -> E0]|Hin]; [lia|done].
    + exists bp, u. split; [|lia]. assert ((bp, u) ∈ (base, 0) :: blocks true lo T') as Hin by (rewrite ET, elem_of_app; right; right; by left).
      apply elem_of_cons in Hin as [[= E0 _]|Hin]; [lia|done].
  - intros a t Hin b Hbt. cbn [h_mem]. apply Ho. intros q Hq. specialize (Hsep a t Hin q Hq). lia.
  - pose proof (length_join_left p sp (join_right bp s Y)). pose proof (length_join_right bp s Y). apply (f_equal length) in ET, EN.
    rewrite length_app in ET, EN. cbn in ET, EN. pose proof (length_blocks true T1 lo). pose proof (length_blocks true T2 (bp + 8 * s)) as HY. fold Y in HY.
    rewrite length_app. lia.
Qed.

(** ** Taking a block *)

Lemma lseg_next m a A q s B z : lseg m a (A ++ (q, s) :: B) z → s_ptr m q = match B with (b, _) :: _ => b | [] => z end.
Proof. intros (y & _ & _ & _ & H)%lseg_app. by apply lseg_head in H. Qed.

(** Only one node points to [c]. *)
Lemma pred_unique m a X p sp c t Y z q sq :
  lseg m a (X ++ (p, sp) :: (c, t) :: Y) z → NoDup (X ++ (p, sp) :: (c, t) :: Y).*1 → z ≠ c →
  (q, sq) ∈ X ++ (p, sp) :: (c, t) :: Y → s_ptr m q = c → q = p.
Proof.
  intros Hl Hnd Hz Hq Hc. apply list_elem_of_split in Hq as (A & B & E). pose proof Hl as Hl0. rewrite E in Hl0. apply lseg_next in Hl0.
  destruct B as [|[b sb] B]; [congruence|]. assert (b = c) as -> by congruence.
  assert ((X ++ (p, sp) :: (c, t) :: Y).*1 !! S (length X) = Some c) as L1.
  { rewrite list_lookup_fmap. rewrite lookup_app_r by lia. by replace (S (length X) - length X)%nat with 1%nat by lia. }
  assert ((X ++ (p, sp) :: (c, t) :: Y).*1 !! S (length A) = Some c) as L2.
  { rewrite E, list_lookup_fmap. rewrite lookup_app_r by lia. by replace (S (length A) - length A)%nat with 1%nat by lia. }
  pose proof (NoDup_lookup _ _ _ _ Hnd L1 L2) as EL. injection EL as EL. apply app_inj_1 in E as [_ [= -> _]]; [done|lia].
Qed.

Lemma coalesced_weaken T : coalesced true T → coalesced false T.
Proof. destruct T as [|b T]; [done|]. cbn. tauto. Qed.

Lemma tiles_nodup f lo T : sized T → NoDup (blocks f lo T).*1.
Proof. intros HT. apply (asc_nodup _ (lo - 1)). apply blocks_asc; [done|lia]. Qed.

(** The nodes of the list around a free block. *)
Lemma around base lo m T1 u T2 X p sp :
  lseg m base ((base, 0) :: blocks true lo (T1 ++ mkBlock u true :: T2)) base → (base, 0) :: blocks true lo T1 = X ++ [(p, sp)] →
  let c := lo + span T1 in
  lseg m base (X ++ (p, sp) :: (c, u) :: blocks true (c + 8 * u) T2) base.
Proof.
  intros Hl EN c. rewrite blocks_app, app_comm_cons, EN, <- app_assoc in Hl. exact Hl.
Qed.

Lemma take_exact base lo h T1 u T2 X p sp :
  inv base lo h (T1 ++ mkBlock u true :: T2) → (base, 0) :: blocks true lo T1 = X ++ [(p, sp)] →
  let c := lo + span T1 in let h' := mkHeap (set_ptr (h_mem h) p (s_ptr (h_mem h) c)) p (h_brk h) in
  inv base lo h' (T1 ++ mkBlock u false :: T2) ∧ kept lo (h_mem h) (h_mem h') (T1 ++ mkBlock u true :: T2).
Proof.
  intros [HT Hc [Hb Hlo] Hbrk Hlim Hl Hlive Hfp] EN c h'. pose proof (around _ _ _ _ _ _ _ _ _ Hl EN) as Ha. cbv zeta in Ha. fold c in Ha.
  pose proof HT as [HT1 [Hu HT2]%Forall_cons]%Forall_app. cbn [b_units] in Hu. rewrite span_app, span_cons in Hbrk, Hlim. cbn [b_units] in Hbrk, Hlim.
  pose proof (span_nonneg T1 HT1). pose proof (span_nonneg T2 HT2). destruct (last_below base lo T1 X p sp HT1 Hb Hlo ltac:(lia) EN) as (Hpb & Hsp & Hp8 & Hpe & HX).
  fold c in Hp8, Hpe. apply lseg_app in Ha as (y & HlX & -> & Esp & Hlc). destruct Hlc as (Epc & Eu & HlY). set (m := h_mem h) in *.
  assert (only_headers [p] m (h_mem h')) as Ho by apply only_set_ptr. assert (is_u32 (s_ptr m c)) as Hpu by apply ld32_range.
  assert (∀ a t, (a, t) ∈ blocks false lo (T1 ++ mkBlock u true :: T2) → a + 8 * t <= p ∨ p + 8 <= a) as Hsep.
  { intros a t Hin. rewrite blocks_app in Hin. apply (free_apart base lo T1 u T2 X p sp a t HT1 HT2 Hu Hb Hlo EN); [exact Hin|by left]. }
  split; [split|].
  - apply Forall_app. split; [done|]. apply Forall_cons. by split.
  - apply coalesced_app in Hc as [Hc1 Hc2]. apply coalesced_app. split; [done|]. cbn in Hc2 |- *. rewrite andb_false_r. split; [done|].
    by apply coalesced_weaken, Hc2.
  - done.
  - rewrite span_app, span_cons. exact Hbrk.
  - rewrite span_app, span_cons. exact Hlim.
  - rewrite blocks_app. cbn [blocks b_free b_units Bool.eqb]. fold c. rewrite app_comm_cons, EN, <- app_assoc. apply lseg_app. exists p.
    cbn [app lseg]. destruct (set_ptr_eq m p (s_ptr m c) Hpu) as [E1 E2]. cbn [h' h_mem]. rewrite E1, E2. split_and!; [|done|done|].
    + eapply lseg_frame; [|exact HlX]. intros b t Hbt. apply set_ptr_ne. apply HX in Hbt. lia.
    + eapply lseg_frame; [|exact HlY]. intros b t Hbt. apply set_ptr_ne. apply blocks_in in Hbt; [lia|done].
  - intros a t Hin. rewrite blocks_app in Hin. cbn [blocks b_free b_units Bool.eqb] in Hin. fold c in Hin.
    rewrite elem_of_app, elem_of_cons in Hin. destruct (decide ((a, t) = (c, u))) as [[= -> ->]|Hne].
    + destruct (only_headers_hdr _ _ _ c Ho) as [_ ->]; [intros q ->%list_elem_of_singleton; lia|done].
    + assert ((a, t) ∈ blocks false lo (T1 ++ mkBlock u true :: T2)) as Hin'.
      { rewrite blocks_app. cbn [blocks b_free b_units Bool.eqb]. fold c. rewrite elem_of_app. tauto. }
      destruct (only_headers_hdr _ _ _ a Ho) as [_ ->]; [intros q ->%list_elem_of_singleton|by apply Hlive].
      pose proof (blocks_in _ _ _ _ _ HT Hin'). specialize (Hsep a t Hin'). lia.
  - cbn [h' h_freep]. change (p ∈ ((base, 0) :: blocks true lo (T1 ++ mkBlock u false :: T2)).*1). rewrite blocks_app, app_comm_cons, EN.
    rewrite !fmap_app, !elem_of_app. left. right. by left.
  - intros a t Hin b Hbt. apply Ho. intros q ->%list_elem_of_singleton. specialize (Hsep a t Hin). lia.
Qed.

Lemma take_part base lo h T1 u T2 n X p sp :
  inv base lo h (T1 ++ mkBlock u true :: T2) → (base, 0) :: blocks true lo T1 = X ++ [(p, sp)] → 1 <= n < u →
  let c := lo + span T1 in let q := c + 8 * (u - n) in
  let h' := mkHeap (set_size (set_size (h_mem h) c (u - n)) q n) p (h_brk h) in
  inv base lo h' (T1 ++ mkBlock (u - n) true :: mkBlock n false :: T2) ∧ kept lo (h_mem h) (h_mem h') (T1 ++ mkBlock u true :: T2).
Proof.
  intros [HT Hc [Hb Hlo] Hbrk Hlim Hl Hlive Hfp] EN Hn c q h'. pose proof (around _ _ _ _ _ _ _ _ _ Hl EN) as Ha. cbv zeta in Ha. fold c in Ha.
  pose proof HT as [HT1 [Hu HT2]%Forall_cons]%Forall_app. cbn [b_units] in Hu. rewrite span_app, span_cons in Hbrk, Hlim. cbn [b_units] in Hbrk, Hlim.
  pose proof (span_nonneg T1 HT1). pose proof (span_nonneg T2 HT2). destruct (last_below base lo T1 X p sp HT1 Hb Hlo ltac:(lia) EN) as (Hpb & Hsp & Hp8 & Hpe & HX).
  fold c in Hp8, Hpe. set (m := h_mem h) in *.
  assert (only_headers [c; q] m (h_mem h')) as Ho.
  { eapply only_headers_trans; [eapply only_headers_mono, only_set_size|eapply only_headers_mono, only_set_size]; intros x; rewrite !elem_of_cons, elem_of_nil; tauto. }
  assert (∀ a t, (a, t) ∈ blocks false lo (T1 ++ mkBlock u true :: T2) → ∀ x, x ∈ [c; q] → a + 8 * t <= x ∨ x + 8 <= a) as Hsep.
  { intros a t Hin x Hx. rewrite blocks_app in Hin. cbn [blocks b_free b_units Bool.eqb] in Hin. fold c in Hin. rewrite !elem_of_cons, elem_of_nil in Hx.
    apply elem_of_app in Hin as [Hin|Hin]; apply blocks_in in Hin; (done || (destruct Hx as [->|[->|[]]]; lia)). }
  assert (s_size (h_mem h') c = u - n ∧ s_ptr (h_mem h') c = s_ptr m c) as [Ec1 Ec2].
  { cbn [h' h_mem]. destruct (set_size_ne (set_size m c (u - n)) q n c) as [-> ->]; [lia|]. apply set_size_eq. unfold is_u32. lia. }
  assert (s_size (h_mem h') q = n) as Eq by (apply set_size_eq; unfold is_u32; lia).
  assert (blocks false lo (T1 ++ mkBlock (u - n) true :: mkBlock n false :: T2) = blocks false lo T1 ++ (q, n) :: blocks false (c + 8 * u) T2) as EF.
  { rewrite blocks_app. cbn [blocks b_free b_units Bool.eqb]. fold c. fold q. do 3 f_equal. unfold q. lia. }
  split; [split|].
  - apply Forall_app. split; [done|]. repeat (apply Forall_cons; split; [cbn; lia|]). done.
  - apply coalesced_app in Hc as [Hc1 Hc2]. apply coalesced_app. split; [done|]. cbn in Hc2 |- *. split_and!; [apply Hc2|done|]. by apply coalesced_weaken, Hc2.
  - done.
  - rewrite span_app, !span_cons. cbn. lia.
  - rewrite span_app, !span_cons. cbn. lia.
  - rewrite blocks_app. cbn [blocks b_free b_units Bool.eqb]. fold c. replace (c + 8 * (u - n) + 8 * n) with (c + 8 * u) by lia.
    rewrite app_comm_cons, EN, <- app_assoc. rewrite (cons_middle (p, sp)), app_assoc in Ha. rewrite app_assoc. cbn [app] in Ha |- *.
    apply lseg_app in Ha as (y & HlX & -> & Eu & HlY). apply lseg_app. exists c. cbn [lseg]. rewrite Ec1, Ec2. split_and!; [|done|done|].
    + eapply lseg_frame; [|exact HlX]. intros b t Hbt. apply (only_headers_hdr [c; q]); [done|]. intros x Hx. rewrite !elem_of_cons, elem_of_nil in Hx.
      apply elem_of_app in Hbt as [Hbt|Hbt%list_elem_of_singleton]; [apply HX in Hbt|injection Hbt as -> ->]; destruct Hx as [->|[->|[]]]; lia.
    + eapply lseg_frame; [|exact HlY]. intros b t Hbt. apply (only_headers_hdr [c; q]); [done|]. intros x Hx. rewrite !elem_of_cons, elem_of_nil in Hx.
      apply blocks_in in Hbt; [|done]. destruct Hx as [->|[->|[]]]; lia.
  - intros a t Hin. rewrite EF, elem_of_app, elem_of_cons in Hin. destruct (decide ((a, t) = (q, n))) as [[= -> ->]|Hne]; [done|].
    assert ((a, t) ∈ blocks false lo (T1 ++ mkBlock u true :: T2)) as Hin'.
    { rewrite blocks_app. cbn [blocks b_free b_units Bool.eqb]. fold c. rewrite elem_of_app. tauto. }
    destruct (only_headers_hdr _ _ _ a Ho) as [_ ->]; [intros x Hx|by apply Hlive].
    pose proof (blocks_in _ _ _ _ _ HT Hin'). specialize (Hsep a t Hin' x Hx). lia.
  - cbn [h' h_freep]. change (p ∈ ((base, 0) :: blocks true lo (T1 ++ mkBlock (u - n) true :: mkBlock n false :: T2)).*1). rewrite blocks_app, app_comm_cons, EN.
    rewrite !fmap_app, !elem_of_app. left. right. by left.
  - intros a t Hin b Hbt. apply Ho. intros x Hx. specialize (Hsep a t Hin x Hx). lia.
Qed.

(** A block of [n] units at [a] is now in use, and the others are as before. *)
Definition taken (base lo : Z) (h : heap) (T : list block) (n a : Z) (h' : heap) : Prop :=
  ∃ T', inv base lo h' T' ∧ blocks false lo T' ≡ₚ (a, n) :: blocks false lo T ∧ kept lo (h_mem h) (h_mem h') T.

Lemma take_block_spec base lo h T c t n q sq :
  inv base lo h T → (c, t) ∈ blocks true lo T → 1 <= n <= t →
  (q, sq) ∈ (base, 0) :: blocks true lo T → s_ptr (h_mem h) q = c →
  ∃ a h', take_block n c q h = (a + 8, h') ∧ taken base lo h T n a h'.
Proof.
  intros Hinv Hc Hn Hq Eq. apply blocks_split in Hc as (T1 & T2 & -> & ->). set (c := lo + span T1) in *.
  destruct (last_node (base, 0) (blocks true lo T1)) as (X & [p sp] & EN). pose proof Hinv as [HT Hco [Hb Hlo] Hbrk Hlim Hl Hlive Hfp].
  pose proof HT as [HT1 [Hu HT2]%Forall_cons]%Forall_app. cbn [b_units] in Hu. rewrite span_app, span_cons in Hbrk, Hlim. cbn [b_units] in Hbrk, Hlim.
  pose proof (span_nonneg T1 HT1). pose proof (span_nonneg T2 HT2). pose proof (around _ _ _ _ _ _ _ _ _ Hl EN) as Ha. cbv zeta in Ha. fold c in Ha.
  assert (blocks true lo (T1 ++ mkBlock t true :: T2) = blocks true lo T1 ++ (c, t) :: blocks true (c + 8 * t) T2) as EB by (rewrite blocks_app; done).
  assert ((base, 0) :: blocks true lo (T1 ++ mkBlock t true :: T2) = X ++ (p, sp) :: (c, t) :: blocks true (c + 8 * t) T2) as EN'.
  { rewrite EB, app_comm_cons, EN, <- app_assoc. done. }
  assert (q = p) as ->.
  { rewrite EN' in Hq. eapply pred_unique; [exact Ha| |lia|exact Hq|done]. rewrite <- EN'. eapply asc_nodup, nodes_asc; done. }
  assert (s_size (h_mem h) c = t) as Et by (apply lseg_app in Ha as (? & _ & _ & _ & _ & Et & _); exact Et).
  unfold take_block. rewrite Et. destruct (Z.eqb_spec t n) as [->|Hne].
  - destruct (take_exact base lo h T1 n T2 X p sp Hinv EN) as [Hinv' Hk]. exists c. eexists. split.
    + unfold hplus. rewrite u32_small by (unfold is_u32; lia). by rewrite Z.mul_1_r.
    + eexists. split; [exact Hinv'|]. split; [|exact Hk]. rewrite !blocks_app. cbn [blocks b_free b_units Bool.eqb]. fold c. symmetry. apply Permutation_middle.
  - destruct (take_part base lo h T1 t T2 n X p sp Hinv EN ltac:(lia)) as [Hinv' Hk]. cbv zeta in Hinv', Hk. fold c in Hinv', Hk.
    rewrite (u32_small (t - n)) by (unfold is_u32; lia). destruct (set_size_eq (h_mem h) c (t - n)) as [E1 _]; [unfold is_u32; lia|]. rewrite E1.
    exists (c + 8 * (t - n)). eexists. split.
    + unfold hplus. rewrite !u32_small by (rewrite ?u32_small; unfold is_u32; lia). by rewrite Z.mul_1_r.
    + eexists. split; [exact Hinv'|]. split; [|exact Hk]. rewrite !blocks_app. cbn [blocks b_free b_units Bool.eqb]. fold c.
      replace (c + 8 * (t - n) + 8 * n) with (c + 8 * t) by lia. symmetry. apply Permutation_middle.
Qed.

(** ** Growing the heap *)

(** A block in use at the end of the heap. *)
Lemma grow_inv base lo h T nu :
  inv base lo h T → 1 <= nu → lo + span T + 8 * nu < 2 ^ 32 →
  let h' := mkHeap (set_size (h_mem h) (h_brk h) nu) (h_freep h) (h_brk h + 8 * nu) in
  inv base lo h' (T ++ [mkBlock nu false]) ∧ kept lo (h_mem h) (h_mem h') T.
Proof.
  intros [HT Hc [Hb Hlo] Hbrk Hlim Hl Hlive Hfp] Hnu Hfit h'. pose proof (span_nonneg T HT). subst h'. rewrite Hbrk. set (h' := mkHeap _ _ _).
  assert (only_headers [lo + span T] (h_mem h) (h_mem h')) as Ho by apply only_set_size.
  assert (∀ f a t, (a, t) ∈ blocks f lo T → a + 8 <= lo + span T) as Hin by (intros f a t Hin; apply blocks_in in Hin; [lia|done]).
  assert (∀ a, a + 8 <= lo + span T → s_ptr (h_mem h') a = s_ptr (h_mem h) a ∧ s_size (h_mem h') a = s_size (h_mem h) a) as Hhdr.
  { intros a Ha. apply (only_headers_hdr _ _ _ a Ho). intros q ->%list_elem_of_singleton. lia. }
  assert (∀ f, blocks f lo (T ++ [mkBlock nu false]) = blocks f lo T ++ if f then [] else [(lo + span T, nu)]) as EB by (intros f; rewrite blocks_app; by destruct f).
  split; [split|].
  - apply Forall_app. split; [done|]. by constructor.
  - apply coalesced_app. split; [done|]. cbn. by rewrite andb_false_r.
  - done.
  - rewrite span_app, span_cons. cbn. lia.
  - rewrite span_app, span_cons. cbn. lia.
  - rewrite EB, app_nil_r. eapply lseg_frame; [|exact Hl]. intros b t [[= -> _]|Hbt]%elem_of_cons; apply Hhdr; [lia|by eapply Hin].
  - intros a t Hat. rewrite EB in Hat. apply elem_of_app in Hat as [Hat|[= -> ->]%list_elem_of_singleton].
    + destruct (Hhdr a) as [_ ->]; [by eapply Hin|by apply Hlive].
    + apply set_size_eq. unfold is_u32. lia.
  - by rewrite EB, app_nil_r.
  - intros a t Hat b Hbt. apply Ho. intros q ->%list_elem_of_singleton. apply blocks_in in Hat; [lia|done].
Qed.

Lemma kept_trans lo m1 m2 m3 T T' : blocks false lo T ⊆ blocks false lo T' → kept lo m1 m2 T → kept lo m2 m3 T' → kept lo m1 m3 T.
Proof. intros Hs H1 H2 a s Hin b Hb. rewrite (H2 a s) by (by apply Hs || done). by apply (H1 a s). Qed.

Section malloc.
Context (base lo : Z) (sbrk_ok : Z → Z → bool).
(** A process does not grow past the end of the address space. *)
Hypothesis sbrk_fits : ∀ b n, sbrk_ok b n = true → 0 <= n → b + n < 2 ^ 32.

Definition core (n : Z) : Z := if n <? 4096 then 4096 else n.

Lemma morecore_spec h T n fuel :
  inv base lo h T → 1 <= n < 2 ^ 28 → (length T + 2 <= fuel)%nat →
  if sbrk_ok (h_brk h) (8 * core n)
  then ∃ h' T', morecore sbrk_ok fuel n h = Some (h_freep h', h') ∧ inv base lo h' T' ∧ blocks false lo T' = blocks false lo T ∧
    kept lo (h_mem h) (h_mem h') T ∧ (∃ a t, (a, t) ∈ blocks true lo T' ∧ n <= t) ∧ (length (blocks true lo T') <= S (length T))%nat
  else morecore sbrk_ok fuel n h = Some (0, h).
Proof using sbrk_fits.
  intros Hinv Hn Hfuel. unfold morecore, sbrk. fold (core n). assert (n <= core n < 2 ^ 28) as Hc by (unfold core; destruct (Z.ltb_spec n 4096); lia).
  assert (4096 <= core n) as Hc2 by (unfold core; destruct (Z.ltb_spec n 4096); lia).
  assert (i32 (core n * 8) = 8 * core n) as Ei.
  { unfold i32. rewrite u32_small by (unfold is_u32; lia). rewrite (proj2 (Z.ltb_lt _ _)) by lia. lia. }
  rewrite Ei. destruct (sbrk_ok (h_brk h) (8 * core n)) eqn:Hok; [|done]. pose proof (sbrk_fits _ _ Hok ltac:(lia)) as Hfit.
  pose proof Hinv as [HT _ [Hb Hlo] Hbrk _ _ _ _]. pose proof (span_nonneg T HT). change (u32 (-1)) with 4294967295. rewrite (proj2 (Z.eqb_neq _ _)) by lia.
  cbn [h_mem h_freep h_brk]. rewrite u32_small by (unfold is_u32; lia). destruct (grow_inv base lo h T (core n) Hinv) as [Hg Hk]; [lia..|].
  destruct (free_spec base lo _ T (core n) [] fuel Hg) as (h' & T' & R & Hinv' & Hbrk' & EL & (a & t & Hat & Ht) & Hk' & Hlen).
  { rewrite app_nil_r. lia. }
  unfold hplus. rewrite u32_small, Z.mul_1_r by (unfold is_u32; lia). rewrite Hbrk in R |- *. rewrite R. exists h', T'. cbn [blocks] in EL. rewrite app_nil_r in EL, Hlen.
  split_and!; [done..| |exists a, t; split; [done|lia]|done]. rewrite Hbrk in Hk, Hk'. cbn [h_mem] in Hk'. eapply kept_trans; [|exact Hk|exact Hk']. by rewrite EL.
Qed.
Lemma scan_spec h n f sf : f = h_freep h → ∀ R fuel p prev z,
  lseg (h_mem h) p (R ++ [(f, sf)]) z → (∀ c t, (c, t) ∈ R → c ≠ f) → s_ptr (h_mem h) prev = p →
  let r := malloc_loop sbrk_ok (length R + S fuel) n p prev h in
  (∃ c t q, (c, t) ∈ R ++ [(f, sf)] ∧ n <= t ∧ s_ptr (h_mem h) q = c ∧ (q = prev ∨ q ∈ R.*1) ∧ r = Some (take_block n c q h)) ∨
  ((∀ c t, (c, t) ∈ R ++ [(f, sf)] → t < n) ∧
   r = match morecore sbrk_ok fuel n h with
       | None => None
       | Some (p, h) => if p =? 0 then Some (0, h) else malloc_loop sbrk_ok fuel n (s_ptr (h_mem h) p) p h
       end).
Proof using Type.
  intros Hf. induction R as [|[b s] R IH]; intros fuel p prev z Hl HR Hprev r; cbn [app lseg] in Hl; destruct Hl as (-> & Es & Hl);
    unfold r; cbn [length Nat.add malloc_loop]; rewrite Es, Z.geb_leb.
  - destruct (Z.leb_spec n sf).
    + left. exists f, sf, prev. split_and!; [by left|done|done|by left|done].
    + right. rewrite <- Hf, Z.eqb_refl. split; [|done]. by intros c t [= -> ->]%list_elem_of_singleton.
  - destruct (Z.leb_spec n s).
    + left. exists b, s, prev. split_and!; [by left|done|done|by left|done].
    + assert (b ≠ h_freep h) as Hb by (rewrite <- Hf; by apply (HR b s); left). rewrite (proj2 (Z.eqb_neq _ _) Hb).
      destruct (IH fuel (s_ptr (h_mem h) b) b z Hl) as [(c & t & q & Hin & Ht & Hq & Hqr & E)|[Hall E]];
        [by intros c t Hc; apply (HR c t); right|done|left|right].
      * exists c, t, q. split_and!; [by right|done|done| |done]. right. cbn. rewrite elem_of_cons. destruct Hqr; auto.
      * split; [|done]. intros c t [[= -> ->]|Hc]%elem_of_cons; [done|by apply (Hall c t)].
Qed.

(** Once around the list, from the block after [freep] to [freep] itself. *)
Lemma search_spec h T n fuel :
  inv base lo h T → 1 <= n →
  let p := h_freep h in
  let r := malloc_loop sbrk_ok (length (blocks true lo T) + S fuel) n (s_ptr (h_mem h) p) p h in
  (∃ a h', r = Some (a + 8, h') ∧ taken base lo h T n a h') ∨
  ((∀ c t, (c, t) ∈ blocks true lo T → t < n) ∧
   r = match morecore sbrk_ok fuel n h with
       | None => None
       | Some (p, h) => if p =? 0 then Some (0, h) else malloc_loop sbrk_ok fuel n (s_ptr (h_mem h) p) p h
       end).
Proof using Type.
  intros Hinv Hn p r. pose proof Hinv as [HT _ [Hb Hlo] _ _ Hl _ Hfp]. change (p ∈ ((base, 0) :: blocks true lo T).*1) in Hfp.
  apply list_elem_of_fmap in Hfp as ([f sf] & Ef & Hin). cbn in Ef. apply list_elem_of_split in Hin as (A & B & EN).
  assert (NoDup ((base, 0) :: blocks true lo T).*1) as Hnd by (eapply asc_nodup, nodes_asc; done).
  rewrite EN in Hl, Hnd. apply lseg_app in Hl as (y & HlA & -> & Esf & HlB).
  assert (lseg (h_mem h) (s_ptr (h_mem h) p) ((B ++ A) ++ [(f, sf)]) (s_ptr (h_mem h) p)) as Hrot.
  { rewrite Ef. apply lseg_app. exists f. split; [apply lseg_app; by exists base|]. cbn. done. }
  assert (∀ x, x ∈ (B ++ A) ++ [(f, sf)] ↔ x ∈ (base, 0) :: blocks true lo T) as Hmem.
  { intros x. rewrite EN, !elem_of_app, !elem_of_cons, elem_of_nil. tauto. }
  assert (length (blocks true lo T) = length (B ++ A)) as Elen by (apply (f_equal length) in EN; rewrite length_app in EN |- *; cbn in EN; lia).
  destruct (scan_spec h n f sf (eq_sym Ef) (B ++ A) fuel (s_ptr (h_mem h) p) p _ Hrot) as [(c & t & q & Hc & Ht & Hq & Hqr & E)|[Hall E]].
  - intros c t Hc ->. rewrite fmap_app, fmap_cons in Hnd. apply NoDup_app in Hnd as (_ & Hx & [Hy _]%NoDup_cons). cbn [fst] in *.
    apply elem_of_app in Hc as [Hc|Hc]; [apply Hy|apply (Hx f); [|by left]]; apply list_elem_of_fmap; by exists (f, t).
  - done.
  - left. unfold r. rewrite Elen, E. apply Hmem, elem_of_cons in Hc as [[= -> ->]|Hc]; [lia|].
    assert (∃ sq, (q, sq) ∈ (base, 0) :: blocks true lo T) as [sq Hqin].
    { destruct Hqr as [->|([q' sq] & -> & Hqr)%list_elem_of_fmap].
      - exists sf. rewrite Ef. apply Hmem, elem_of_app. right. by left.
      - exists sq. apply Hmem, elem_of_app. by left. }
    destruct (take_block_spec base lo h T c t n q sq Hinv Hc) as (a & h' & Et & Htk); [lia|done|done|]. rewrite Et. by exists a, h'.
  - right. unfold r. rewrite Elen. split; [|exact E]. intros c t Hc. apply (Hall c t), Hmem. by right.
Qed.

(** [malloc] after its list has been set up. *)
Lemma malloc_loop_spec h T n fuel :
  inv base lo h T → 1 <= n < 2 ^ 28 → (2 * length T + 5 <= fuel)%nat →
  ∃ a h', malloc_loop sbrk_ok fuel n (s_ptr (h_mem h) (h_freep h)) (h_freep h) h = Some (a, h') ∧
    ((a = 0 ∧ sbrk_ok (h_brk h) (8 * core n) = false ∧ h' = h) ∨ (∃ b, a = b + 8 ∧ taken base lo h T n b h')).
Proof using sbrk_fits.
  intros Hinv Hn Hfuel. pose proof (length_blocks true T lo) as HLb.
  assert (∃ f, fuel = length (blocks true lo T) + S f ∧ length T + 4 <= f)%nat as (f & -> & Hf) by (exists (fuel - length (blocks true lo T) - 1)%nat; lia).
  destruct (search_spec h T n f Hinv ltac:(lia)) as [(a & h' & E & Ht)|[Hall E]]; rewrite E.
  { exists (a + 8), h'. split; [done|]. right. by exists a. }
  pose proof (morecore_spec h T n f Hinv Hn ltac:(lia)) as Hm. destruct (sbrk_ok (h_brk h) (8 * core n)) eqn:Hok.
  - destruct Hm as (h1 & T1 & R & Hinv1 & EL & Hk & (c & t & Hct & Htn) & Hlen). rewrite R.
    assert (h_freep h1 ≠ 0) as Hne.
    { pose proof Hinv1 as [HT1 _ [Hb Hlo] _ _ _ _ Hfp]. apply elem_of_cons in Hfp as [->|([b s] & -> & Hin)%list_elem_of_fmap]; [lia|].
      apply blocks_in in Hin; [cbn; lia|done]. }
    rewrite (proj2 (Z.eqb_neq _ _) Hne).
    assert (∃ f', f = length (blocks true lo T1) + S f')%nat as (f' & ->) by (exists (f - length (blocks true lo T1) - 1)%nat; lia).
    destruct (search_spec h1 T1 n f' Hinv1 ltac:(lia)) as [(a & h' & E' & (T2 & Hinv2 & HP & Hk2))|[Hall' _]].
    + rewrite E'. exists (a + 8), h'. split; [done|]. right. exists a. split; [done|]. exists T2. rewrite EL in HP. split_and!; [done..|].
      eapply kept_trans; [|exact Hk|exact Hk2]. by rewrite EL.
    + specialize (Hall' c t Hct). lia.
  - rewrite Hm. exists 0, h. split; [done|]. by left.
Qed.
(** ** Programs that use the allocator *)

(** The tiling of the heap, also before the first call has set up the list. *)
Definition ready (h : heap) (T : list block) : Prop :=
  inv base lo h T ∨ (h_freep h = 0 ∧ h_brk h = lo ∧ T = []).

(** A call returns [x], given enough fuel. *)
Definition returns {A} (call : nat → option A) (x : A) : Prop := ∃ f, ∀ fuel, (f <= fuel)%nat → call fuel = Some x.

(** The states a program can reach, with the blocks it holds: it calls [malloc]
    and [free] and stores into the bytes it was given. *)
Inductive client : heap → list (Z * Z) → Prop :=
| client_start m : client (mkHeap m 0 lo) []
| client_malloc h U n a h' : client h U → 0 <= n < 2 ^ 30 → returns (λ fuel, malloc base sbrk_ok fuel n h) (a, h') →
    client h' (if a =? 0 then U else (a - 8, units n) :: U)
| client_free h U b s U' h' : client h U → U ≡ₚ (b, s) :: U' → returns (λ fuel, free fuel (b + 8) h) h' → client h' U'
| client_store h U b s a v : client h U → (b, s) ∈ U → b + 8 <= a < b + 8 * s →
    client (mkHeap (stb (h_mem h) a v) (h_freep h) (h_brk h)) U.

Hypothesis base_below : 0 < base ∧ base + 8 <= lo ∧ lo < 2 ^ 32.

Lemma returns_unique {A} (call : nat → option A) x y fuel :
  returns call x → (∀ fuel', (fuel <= fuel')%nat → call fuel' = Some y) → x = y.
Proof using Type. intros [f Hf] Hy. specialize (Hf (max f fuel) ltac:(lia)). specialize (Hy (max f fuel) ltac:(lia)). congruence. Qed.

Lemma units_range n : 0 <= n < 2 ^ 30 → 1 <= units n < 2 ^ 28 ∧ n + 8 <= 8 * units n.
Proof using Type. intros Hn. unfold units. rewrite u32_small by (unfold is_u32; lia). divmod. Qed.

Lemma setup_inv m : inv base lo (mkHeap (set_size (set_ptr m base base) base 0) base lo) [].
Proof using base_below.
  destruct base_below as (Hb & Hlo & Hlt). split; cbn [h_mem h_freep h_brk span foldr blocks]; [constructor|done|done|lia|lia| |intros a s []%elem_of_nil|by left].
  cbn [lseg]. destruct (set_ptr_eq m base base) as [E1 E2]; [unfold is_u32; lia|].
  destruct (set_size_eq (set_ptr m base base) base 0) as [-> ->]; [unfold is_u32; lia|]. done.
Qed.

Lemma malloc_spec h T n fuel :
  ready h T → 0 <= n < 2 ^ 30 → (2 * length T + 5 <= fuel)%nat →
  ∃ a h', malloc base sbrk_ok fuel n h = Some (a, h') ∧
    ((a = 0 ∧ sbrk_ok (h_brk h) (8 * core (units n)) = false ∧ ready h' T ∧ kept lo (h_mem h) (h_mem h') T) ∨
     (∃ b, a = b + 8 ∧ taken base lo h T (units n) b h')).
Proof using sbrk_fits base_below.
  intros [Hinv|(Hf & Hbrk & ->)] Hn Hfuel; destruct (units_range n Hn) as [Hu _]; unfold malloc.
  - assert (h_freep h ≠ 0) as Hne.
    { pose proof Hinv as [HT _ [Hb Hlo] _ _ _ _ Hfp]. apply elem_of_cons in Hfp as [->|([b s] & -> & Hin)%list_elem_of_fmap]; [lia|].
      apply blocks_in in Hin; [cbn; lia|done]. }
    rewrite (proj2 (Z.eqb_neq _ _) Hne). destruct (malloc_loop_spec h T (units n) fuel Hinv Hu Hfuel) as (a & h' & R & [(-> & Hok & ->)|Ht]).
    + exists 0, h. split; [done|]. left. split_and!; [done..|by left|]. by intros a s Hin b Hb.
    + exists a, h'. split; [done|]. by right.
  - rewrite Hf, Z.eqb_refl, Hbrk. pose proof (setup_inv (h_mem h)) as Hinv. set (h1 := mkHeap _ base lo) in *.
    destruct (malloc_loop_spec h1 [] (units n) fuel Hinv Hu Hfuel) as (a & h' & R & [(-> & Hok & ->)|(b & -> & T' & Hinv' & HP & Hk)]).
    + exists 0, h1. split; [done|]. left. split_and!; [done..|by left|]. intros a s []%elem_of_nil.
    + exists (b + 8), h'. split; [done|]. right. exists b. split; [done|]. exists T'. split_and!; [done..|]. intros a s []%elem_of_nil.
Qed.
Lemma store_inv h T b s a v :
  inv base lo h T → (b, s) ∈ blocks false lo T → b + 8 <= a < b + 8 * s →
  inv base lo (mkHeap (stb (h_mem h) a v) (h_freep h) (h_brk h)) T.
Proof using base_below.
  intros [HT Hc Hb Hbrk Hlim Hl Hlive Hfp] Hin Ha. pose proof (blocks_in _ _ _ _ _ HT Hin) as Hr.
  assert (∀ q, (q + 8 <= a ∨ a < q) → s_ptr (stb (h_mem h) a v) q = s_ptr (h_mem h) q ∧ s_size (stb (h_mem h) a v) q = s_size (h_mem h) q) as Hhdr.
  { intros q Hq. unfold s_ptr, s_size. split; apply ld32_ext; intros x Hx; rewrite ldb_stb, decide_False by lia; done. }
  assert (∀ f q t, (q, t) ∈ blocks f lo T → q + 8 <= a ∨ a < q) as Hout.
  { intros f q t Hq. pose proof (blocks_in _ _ _ _ _ HT Hq). destruct (blocks_disjoint false f T lo b s q t HT Hin Hq) as [(-> & _)|[?|?]]; lia. }
  split; try done; cbn [h_mem].
  - eapply lseg_frame; [|exact Hl]. intros q t [[= -> _]|Hq]%elem_of_cons; apply Hhdr; [lia|by eapply Hout].
  - intros q t Hq. destruct (Hhdr q) as [_ ->]; [by eapply Hout|]. by apply Hlive.
Qed.

Lemma free_find_mono m bp : ∀ f f' p x, free_find f m bp p = Some x → (f <= f')%nat → free_find f' m bp p = Some x.
Proof using Type.
  induction f as [|f IH]; intros [|f'] p x H Hle; try (done || lia). cbn [free_find] in *.
  destruct (_ && _); [done|]. destruct (_ && _); [done|]. apply IH; [done|lia].
Qed.

Lemma free_mono f f' ap h x : free f ap h = Some x → (f <= f')%nat → free f' ap h = Some x.
Proof using Type.
  unfold free. intros H Hle. destruct (free_find f _ _ _) as [p|] eqn:E; [|done]. by rewrite (free_find_mono _ _ _ _ _ _ E Hle).
Qed.

Lemma morecore_mono f f' n h x : morecore sbrk_ok f n h = Some x → (f <= f')%nat → morecore sbrk_ok f' n h = Some x.
Proof using Type.
  unfold morecore. intros H Hle. destruct (sbrk _ _ _) as [p h1]. destruct (_ =? _); [done|].
  destruct (free f _ _) as [h2|] eqn:E; [|done]. by rewrite (free_mono _ _ _ _ _ E Hle).
Qed.

Lemma malloc_loop_mono : ∀ f f' n p prev h x, malloc_loop sbrk_ok f n p prev h = Some x → (f <= f')%nat → malloc_loop sbrk_ok f' n p prev h = Some x.
Proof using Type.
  induction f as [|f IH]; intros [|f'] n p prev h x H Hle; try (done || lia). cbn [malloc_loop] in *.
  destruct (_ >=? _); [done|]. destruct (_ =? _); [|apply IH; [done|lia]].
  destruct (morecore sbrk_ok f n h) as [[q h1]|] eqn:E; [|done]. rewrite (morecore_mono _ _ _ _ _ E) by lia.
  destruct (q =? 0); [done|]. apply IH; [done|lia].
Qed.

Lemma malloc_returns f n h x : malloc base sbrk_ok f n h = Some x → returns (λ fuel, malloc base sbrk_ok fuel n h) x.
Proof using Type. intros H. exists f. intros fuel Hle. by eapply malloc_loop_mono. Qed.

Lemma client_inv h U : client h U → ∃ T, ready h T ∧ U ≡ₚ blocks false lo T.
Proof using sbrk_fits base_below.
  induction 1 as [m|h U n a h' _ (T & Hr & HU) Hn [f Hf]|h U b s U' h' _ (T & Hr & HU) HP [f Hf]|h U b s a v _ (T & Hr & HU) Hin Ha].
  - exists []. split; [by right|done].
  - destruct (malloc_spec h T n (max f (2 * length T + 5)) Hr Hn ltac:(lia)) as (a' & h1 & E & Hcase).
    rewrite Hf in E by lia. injection E as <- <-. destruct Hcase as [(-> & _ & Hr' & _)|(b & -> & T' & Hinv' & HP & _)].
    + by exists T.
    + exists T'. split; [by left|]. pose proof Hinv' as [HT' _ [Hb Hlo] _ _ _ _ _].
      assert ((b, units n) ∈ blocks false lo T') as Hin by (rewrite HP; by left). apply blocks_in in Hin; [|done].
      rewrite (proj2 (Z.eqb_neq _ _)) by lia. rewrite HP, HU. by replace (b + 8 - 8) with b by lia.
  - destruct Hr as [Hinv|(_ & _ & ->)]; [|rewrite HP in HU; by apply Permutation_sym, Permutation_nil_cons in HU].
    assert ((b, s) ∈ blocks false lo T) as Hin by (rewrite <- HU, HP; by left). apply blocks_split in Hin as (T1 & T2 & -> & ->).
    destruct (free_spec base lo h T1 s T2 (max f (length (T1 ++ T2) + 2)) Hinv ltac:(lia)) as (h1 & T' & E & Hinv' & _ & EL & _).
    rewrite Hf in E by lia. injection E as <-. exists T'. split; [by left|]. rewrite EL. rewrite HP, blocks_app in HU.
    cbn [blocks b_free b_units Bool.eqb] in HU. rewrite <- Permutation_middle in HU. by apply Permutation_cons_inv in HU.
  - exists T. split; [|done]. rewrite HU in Hin. destruct Hr as [Hinv|(_ & _ & ->)]; [left; by eapply store_inv|by apply elem_of_nil in Hin].
Qed.

Lemma ready_sized h T : ready h T → sized T ∧ h_brk h = lo + span T.
Proof using Type. intros [[]|(_ & -> & ->)]; [done|]. split; [constructor|cbn; lia]. Qed.

Lemma malloc_total h T n :
  ready h T → 0 <= n < 2 ^ 30 → ∃ a h', returns (λ fuel, malloc base sbrk_ok fuel n h) (a, h') ∧ kept lo (h_mem h) (h_mem h') T ∧
    ((a = 0 ∧ sbrk_ok (h_brk h) (8 * core (units n)) = false) ∨
     (n <= 8 * units n - 8 ∧ lo <= a - 8 ∧ a + n <= h_brk h' ∧
      ∀ b s, (b, s) ∈ blocks false lo T → b + 8 * s <= a - 8 ∨ a - 8 + 8 * units n <= b)).
Proof using sbrk_fits base_below.
  intros Hr Hn. destruct (malloc_spec h T n (2 * length T + 5) Hr Hn ltac:(lia)) as (a & h' & R & Hcase). apply malloc_returns in R.
  exists a, h'. split; [done|]. destruct (units_range n Hn) as [_ Hu]. destruct Hcase as [(-> & Hok & _ & Hk)|(b & -> & T' & Hinv' & HP & Hk)].
  { split; [done|]. by left. }
  split; [done|right]. pose proof Hinv' as [HT' _ _ Hbrk' _ _ _ _]. replace (b + 8 - 8) with b by lia.
  assert ((b, units n) ∈ blocks false lo T') as Hb by (rewrite HP; by left). pose proof (blocks_in _ _ _ _ _ HT' Hb). split_and!; [lia..|].
  intros c t Hc. assert ((c, t) ∈ blocks false lo T') as Hc' by (rewrite HP; by right).
  destruct (blocks_disjoint false false T' lo c t b (units n) HT' Hc' Hb) as [(-> & -> & _)|?]; [|lia].
  pose proof (tiles_nodup false lo T' HT') as Hnd. rewrite HP in Hnd. apply NoDup_cons in Hnd as [Hnd _]. destruct Hnd. apply list_elem_of_fmap. by exists (b, units n).
Qed.

Lemma free_total h T b s :
  ready h T → (b, s) ∈ blocks false lo T → ∃ h', returns (λ fuel, free fuel (b + 8) h) h' ∧ h_brk h' = h_brk h ∧
    ∀ c t x, (c, t) ∈ blocks false lo T → (c, t) ≠ (b, s) → c <= x < c + 8 * t → ldb (h_mem h') x = ldb (h_mem h) x.
Proof using base_below.
  intros [Hinv|(_ & _ & ->)] Hin; [|by apply elem_of_nil in Hin]. apply blocks_split in Hin as (T1 & T2 & -> & ->).
  destruct (free_spec base lo h T1 s T2 _ Hinv (le_n _)) as (h' & T' & R & _ & Hbrk & EL & _ & Hk & _). exists h'. split_and!; [|done|].
  - eexists. intros fuel Hle. by eapply free_mono.
  - intros c t x Hc Hne Hx. apply (Hk c t); [|done]. rewrite EL. rewrite blocks_app in Hc. cbn [blocks b_free b_units Bool.eqb] in Hc.
    rewrite elem_of_app, elem_of_cons in Hc. rewrite elem_of_app. tauto.
Qed.

(** C22: The user-level allocator is safe and complete.  Whatever a program has
    done with it, the blocks it holds lie in the heap and do not overlap.  A call
    of [malloc] returns: with 0, and then [sbrk] has refused, or with a block
    that has room for the bytes asked for, that overlaps none in use, and that the
    others keep their contents through; the same holds of [free], after which the
    block is gone from the program's hands. *)
Theorem umalloc_correct h U :
  client h U →
  (∀ b s, (b, s) ∈ U → lo <= b ∧ b + 8 * s <= h_brk h) ∧
  (∀ b s c t, (b, s) ∈ U → (c, t) ∈ U → (b = c ∧ s = t) ∨ b + 8 * s <= c ∨ c + 8 * t <= b) ∧
  (∀ n, 0 <= n < 2 ^ 30 → ∃ a h', returns (λ fuel, malloc base sbrk_ok fuel n h) (a, h') ∧
     (∀ b s x, (b, s) ∈ U → b <= x < b + 8 * s → ldb (h_mem h') x = ldb (h_mem h) x) ∧
     ((a = 0 ∧ sbrk_ok (h_brk h) (8 * core (units n)) = false) ∨
      (n <= 8 * units n - 8 ∧ lo <= a - 8 ∧ a + n <= h_brk h' ∧ ∀ b s, (b, s) ∈ U → b + 8 * s <= a - 8 ∨ a - 8 + 8 * units n <= b))) ∧
  (∀ b s, (b, s) ∈ U → ∃ h', returns (λ fuel, free fuel (b + 8) h) h' ∧ h_brk h' = h_brk h ∧
     ∀ c t x, (c, t) ∈ U → (c, t) ≠ (b, s) → c <= x < c + 8 * t → ldb (h_mem h') x = ldb (h_mem h) x).
Proof using sbrk_fits base_below.
  intros (T & Hr & HU)%client_inv. assert (∀ x, x ∈ U ↔ x ∈ blocks false lo T) as Hmem by (intros x; by rewrite HU).
  destruct (ready_sized h T Hr) as [HT Hbrk]. split_and!.
  - intros b s Hin%Hmem. apply blocks_in in Hin; [lia|done].
  - intros b s c t Hb%Hmem Hc%Hmem. destruct (blocks_disjoint false false T lo b s c t HT Hb Hc) as [(-> & -> & _)|?]; auto.
  - intros n Hn. destruct (malloc_total h T n Hr Hn) as (a & h' & R & Hk & Hcase). exists a, h'. split; [done|]. split.
    + intros b s x Hb%Hmem Hx. by apply (Hk b s).
    + destruct Hcase as [?|(? & ? & ? & Hd)]; [by left|right]. split_and!; [done..|]. intros b s Hb%Hmem. by apply Hd.
  - intros b s Hb%Hmem. destruct (free_total h T b s Hr Hb) as (h' & R & Ebrk & Hk). exists h'. split_and!; [done..|].
    intros c t x Hc%Hmem. by apply Hk.
Qed.
End malloc.

(** ** Example *)

(** A data segment with [base] at 100, a heap from 4096, and an [sbrk] that stops
    at 2^31. *)
Definition demo_sbrk (b n : Z) : bool := b + n <? 2 ^ 31.

Lemma umalloc_correct_witness : ∃ a h' h'',
  returns (λ fuel, malloc 100 demo_sbrk fuel 20 (mkHeap ∅ 0 4096)) (a, h') ∧ a ≠ 0 ∧
  returns (λ fuel, free fuel a h') h'' ∧ h_brk h'' = 4096 + 32768.
Proof.
  assert (∀ b n, demo_sbrk b n = true → 0 <= n → b + n < 2 ^ 32) as Hs by (unfold demo_sbrk; intros b n H%Z.ltb_lt; lia).
  assert (0 < 100 ∧ 100 + 8 <= 4096 ∧ 4096 < 2 ^ 32) as Hb by lia.
  assert (∃ h', returns (λ fuel, malloc 100 demo_sbrk fuel 20 (mkHeap ∅ 0 4096)) (36832 + 8, h') ∧ h_brk h' = 36864) as (h' & R & Eb).
  { eexists. split; [eapply (malloc_returns _ _ 10); vm_compute; reflexivity|reflexivity]. }
  pose proof (client_malloc 100 4096 demo_sbrk _ _ 20 _ h' (client_start 100 4096 demo_sbrk ∅) ltac:(lia) R) as Hc.
  destruct (umalloc_correct 100 4096 demo_sbrk Hs Hb _ _ Hc) as (_ & _ & _ & Hf).
  destruct (Hf 36832 (units 20)) as (h'' & Rf & E & _).
  - vm_compute. by left.
  - exists (36832 + 8), h', h''. split_and!; [done..|]. by rewrite E, Eb.
Defined.
