(* ===== verification/Sh.v ===== *)
(** * The shell (src/user/sh.c)

    The parser works on a line in a buffer, by positions: a position is the index
    of a character of the line [b], the characters before the terminating zero,
    and [es] is the length of [b].  It builds a tree whose strings are pairs of
    positions; [nulterminate] then ends each string by a zero in the buffer.
    Running a command is a program of system calls. *)

From S2P Require Import Prelude Mem Ulib.

Definition MAXARGS : nat := 10.
Definition O_RDONLY : Z := 0.
Definition O_WRONLY : Z := 1.
Definition O_CREATE : Z := 512.

(** A string literal of the source, and a newline. *)
Definition text (s : string) : list Z := (λ c, Z.of_N (Ascii.N_of_ascii c)) <$> String.list_ascii_of_string s.
Definition NL : list Z := [10].

Inductive cmd :=
| EXEC (argv : list (nat * nat))
| REDIR (c : cmd) (file efile : nat) (mode fd : Z)
| PIPE (left right : cmd)
| LIST (left right : cmd)
| BACK (c : cmd).

(** ** Tokens *)

(** [" \t\r\n\v"] and ["<|>&;()"] *)
Definition whitespace : list Z := [32; 9; 13; 10; 11].
Definition symbols : list Z := [60; 124; 62; 38; 59; 40; 41].

(** [strchr(s, c) != 0] *)
Definition has (s : list Z) (c : Z) : bool := existsb (Z.eqb c) s.
Definition is_ws (c : Z) : bool := has whitespace c.
Definition is_sym (c : Z) : bool := has symbols c.
Definition is_word (c : Z) : bool := negb (is_ws c) && negb (is_sym c).

(** The character at a position; the zero at the end of the line. *)
Definition char_at (b : list Z) (s : nat) : Z := default 0 (b !! s).

(** [while(s < es && P( *s)) s++] *)
Fixpoint run_length (P : Z → bool) (l : list Z) : nat :=
  match l with [] => O | c :: l => if P c then S (run_length P l) else O end.
Definition skip (P : Z → bool) (b : list Z) (s : nat) : nat := (s + run_length P (drop s b))%nat.

(** The kind of the token, its start [q], its end [eq] and the new position. *)
Definition gettoken (b : list Z) (ps : nat) : Z * nat * nat * nat :=
  let s := skip is_ws b ps in
  let c := char_at b s in
  let '(ret, eq) :=
    if c =? 0 then (c, s)
    else if has [124; 40; 41; 59; 38; 60] c then (c, S s)
    else if c =? 62 then (if char_at b (S s) =? 62 then (43, S (S s)) else (c, S s))
    else (97, skip is_word b s) in
  (ret, s, eq, skip is_ws b eq).

Definition peek (b : list Z) (ps : nat) (toks : list Z) : bool * nat :=
  let s := skip is_ws b ps in (negb (char_at b s =? 0) && has toks (char_at b s), s).

(** ** The parser *)

(** A parser returns a value and the new position, ends in [panic] after printing
    a message, or has run out of the fuel the model gives it. *)
Inductive presult (A : Type) := POk (a : A) (s : nat) | PErr (msg : list Z) | PFuel.
Arguments POk {A} _ _.
Arguments PErr {A} _.
Arguments PFuel {A}.

Definition pbind {A B} (r : presult A) (f : A → nat → presult B) : presult B :=
  match r with POk a s => f a s | PErr m => PErr m | PFuel => PFuel end.

(** [cmd->argv[argc] = q; cmd->eargv[argc] = eq] where [cmd] is the [execcmd] that
    the redirections of [ret] have been put around. *)
Fixpoint add_arg (ret : cmd) (a : nat * nat) : cmd :=
  match ret with
  | EXEC argv => EXEC (argv ++ [a])
  | REDIR c f e m d => REDIR (add_arg c a) f e m d
  | c => c
  end.

Definition redir (tok : Z) (c : cmd) (q eq : nat) : cmd :=
  if tok =? 60 then REDIR c q eq O_RDONLY 0 else REDIR c q eq (Z.lor O_WRONLY O_CREATE) 1.

Fixpoint parseredirs (fuel : nat) (b : list Z) (c : cmd) (ps : nat) : presult cmd :=
  let '(found, s) := peek b ps [60; 62] in
  if found then
    match fuel with
    | O => PFuel
    | S fuel =>
        let '(tok, _, _, s) := gettoken b s in
        let '(t, q, eq, s) := gettoken b s in
        if negb (t =? 97) then PErr (text "missing file for redirection")
        else parseredirs fuel b (redir tok c q eq) s
    end
  else POk c s.

(** The loop of [parseexec]. *)
Fixpoint parseargs (fuel : nat) (b : list Z) (ret : cmd) (argc : nat) (ps : nat) : presult cmd :=
  let '(found, s) := peek b ps [124; 41; 38; 59] in
  if found then POk ret s
  else
    let '(tok, q, eq, s) := gettoken b s in
    if tok =? 0 then POk ret s
    else if negb (tok =? 97) then PErr (text "syntax")
    else if (MAXARGS <=? S argc)%nat then PErr (text "too many args")
    else
      match fuel with
      | O => PFuel
      | S fuel =>
          pbind (parseredirs (length b) b (add_arg ret (q, eq)) s) (λ ret s, parseargs fuel b ret (S argc) s)
      end.

(** [while(peek(ps, es, "&"))] of [parseline] *)
Fixpoint parsebacks (fuel : nat) (b : list Z) (c : cmd) (ps : nat) : presult cmd :=
  let '(found, s) := peek b ps [38] in
  if found then
    match fuel with
    | O => PFuel
    | S fuel => let '(_, _, _, s) := gettoken b s in parsebacks fuel b (BACK c) s
    end
  else POk c s.

Fixpoint parseline (fuel : nat) (b : list Z) (ps : nat) : presult cmd :=
  match fuel with
  | O => PFuel
  | S fuel =>
      pbind (parsepipe fuel b ps) (λ c s,
      pbind (parsebacks (length b) b c s) (λ c s,
      let '(found, s) := peek b s [59] in
      if found then
        let '(_, _, _, s) := gettoken b s in
        pbind (parseline fuel b s) (λ d s, POk (LIST c d) s)
      else POk c s))
  end
with parsepipe (fuel : nat) (b : list Z) (ps : nat) : presult cmd :=
  match fuel with
  | O => PFuel
  | S fuel =>
      pbind (parseexec fuel b ps) (λ c s,
      let '(found, s) := peek b s [124] in
      if found then
        let '(_, _, _, s) := gettoken b s in
        pbind (parsepipe fuel b s) (λ d s, POk (PIPE c d) s)
      else POk c s)
  end
with parseexec (fuel : nat) (b : list Z) (ps : nat) : presult cmd :=
  match fuel with
  | O => PFuel
  | S fuel =>
      let '(found, s) := peek b ps [40] in
      if found then parseblock fuel b s
      else pbind (parseredirs (length b) b (EXEC []) s) (λ ret s, parseargs (length b) b ret 0 s)
  end
with parseblock (fuel : nat) (b : list Z) (ps : nat) : presult cmd :=
  match fuel with
  | O => PFuel
  | S fuel =>
      let '(found, s) := peek b ps [40] in
      if negb found then PErr (text "parseblock")
      else
        let '(_, _, _, s) := gettoken b s in
        pbind (parseline fuel b s) (λ c s,
        let '(found, s) := peek b s [41] in
        if negb found then PErr (text "syntax - missing )")
        else
          let '(_, _, _, s) := gettoken b s in
          parseredirs (length b) b c s)
  end.

(** [*p = 0] in the buffer *)
Definition set_nul (buf : list Z) (p : nat) : list Z := <[p := 0]> buf.

Fixpoint nulterminate (c : cmd) (buf : list Z) : list Z :=
  match c with
  | EXEC argv => foldl (λ buf a, set_nul buf a.2) buf argv
  | REDIR c _ efile _ _ => set_nul (nulterminate c buf) efile
  | PIPE l r => nulterminate r (nulterminate l buf)
  | LIST l r => nulterminate r (nulterminate l buf)
  | BACK c => nulterminate c buf
  end.

(** The line [b] is in a buffer, with a zero after it; the buffer as
    [nulterminate] leaves it, with the command. *)
Definition parsecmd (b : list Z) : presult (cmd * list Z) :=
  pbind (parseline (4 * length b + 4) b 0) (λ c s,
  let '(_, s) := peek b s [] in
  if negb (s =? length b)%nat then PErr (text "leftovers: " ++ drop s b ++ NL ++ text "syntax")
  else POk (c, nulterminate c (b ++ [0])) s).

(** The string at a position of the buffer. *)
Definition cstr (buf : list Z) (q : nat) : list Z := take (run_length (λ c, negb (c =? 0)) (drop q buf)) (drop q buf).

(** ** Running a command *)

(** A process as the sequence of its system calls, each with what it does for
    each result; [fork] goes on twice, with 0 and with the pid of the child. *)
Inductive prog :=
| Exit (status : Z)
| Exec (path : list Z) (argv : list (list Z)) (k : prog)
| Close (fd : Z) (k : prog)
| Open (path : list Z) (mode : Z) (k : Z → prog)
| Dup2 (oldfd newfd : Z) (k : prog)
| Pipe (k : option (Z * Z) → prog)
| Fork (k : Z → prog)
| Wait (k : Z → prog)
| Chdir (path : list Z) (k : Z → prog)
| Write (fd : Z) (text : list Z) (k : prog).

Definition sh_panic (s : list Z) : prog := Write 2 (printf (text "%s" ++ NL) [mkParg 1 s]) (Exit 0).
Definition fork1 (k : Z → prog) : prog := Fork (λ pid, if pid =? -1 then sh_panic (text "fork") else k pid).

(** [runcmd]; it does not return, so a call in a child is the rest of the child. *)
Fixpoint runcmd (buf : list Z) (c : cmd) : prog :=
  match c with
  | EXEC argv =>
      match argv with
      | [] => Exit 0
      | a :: _ =>
          Exec (cstr buf a.1) ((λ a, cstr buf a.1) <$> argv)
            (Write 2 (printf (text "exec %s failed" ++ NL) [mkParg 1 (cstr buf a.1)]) (Exit 0))
      end
  | REDIR c file _ mode fd =>
      Close fd (Open (cstr buf file) mode (λ r,
        if r <? 0 then Write 2 (printf (text "open %s failed" ++ NL) [mkParg 1 (cstr buf file)]) (Exit 0)
        else runcmd buf c))
  | LIST l r => fork1 (λ pid, if pid =? 0 then runcmd buf l else Wait (λ _, runcmd buf r))
  | PIPE l r =>
      Pipe (λ p,
        match p with
        | None => sh_panic (text "pipe")
        | Some (p0, p1) =>
            fork1 (λ pid,
              if pid =? 0 then Dup2 p1 1 (Close p0 (Close p1 (runcmd buf l)))
              else fork1 (λ pid,
                if pid =? 0 then Dup2 p0 0 (Close p0 (Close p1 (runcmd buf r)))
                else Close p0 (Close p1 (Wait (λ _, Wait (λ _, Exit 0))))))
        end)
  | BACK c => fork1 (λ pid, if pid =? 0 then runcmd buf c else Exit 0)
  end.

(** The loop that makes sure that descriptors 0 to 2 are open; it is given as
    many rounds as there can be descriptors. *)
Fixpoint open_console (fuel : nat) (k : prog) : prog :=
  Open (text "console") 2 (λ fd,
    if fd >=? 0 then
      if fd >=? 3 then Close fd k
      else match fuel with O => k | S fuel => open_console fuel k end
    else k).

(** What the shell prints about the status of a command. *)
Definition report (status : Z) (k : prog) : prog :=
  if WIFEXITED status then Write 1 (printf (text "Output code: %d" ++ NL) [mkParg (WEXITSTATUS status) []]) k
  else if WIFSIGNALED status then Write 1 (printf (text "Output code: %d" ++ NL) [mkParg (WEXITTRAP status) []]) k
  else k.

(** The loop of [main] over the lines [gets] returns, up to an empty one at the
    end of the input; a line that does not parse ends the child. *)
Fixpoint main_loop (lines : list (list Z)) : prog :=
  match lines with
  | [] => Write 2 (text "$ ") (Exit 0)
  | b :: lines =>
      Write 2 (text "$ ")
        (if (char_at b 0 =? 99) && (char_at b 1 =? 100) && (char_at b 2 =? 32) then
           let dir := drop 3 (take (length b - 1) b) in
           Chdir dir (λ r, if r <? 0 then Write 2 (printf (text "cannot cd %s" ++ NL) [mkParg 1 dir]) (main_loop lines) else main_loop lines)
         else
           fork1 (λ pid,
             if pid =? 0 then
               match parsecmd b with
               | POk (c, buf) _ => runcmd buf c
               | PErr msg => sh_panic msg
               | PFuel => Exit 0
               end
             else Wait (λ status, report status (main_loop lines))))
  end.

Definition sh_main (lines : list (list Z)) : prog := open_console 4 (main_loop lines).
