(* ===== verification/ShSpec.v ===== *)
(** * The shell's parser ends, and reads back what was written (src/user/sh.c) *)

From S2P Require Import Prelude Sh.

(** ** Positions *)

Lemma run_length_le P l : (run_length P l <= length l)%nat.
Proof. induction l as [|c l IH]; cbn; [lia|]. destruct (P c); lia. Qed.

Lemma skip_bounds P b s : (s <= length b)%nat → (s <= skip P b s <= length b)%nat.
Proof. intros Hs. unfold skip. pose proof (run_length_le P (drop s b)) as H. rewrite length_drop in H. lia. Qed.

Lemma char_at_lt b s : char_at b s ≠ 0 → (s < length b)%nat.
Proof. unfold char_at. destruct (b !! s) eqn:E; [|done]. intros _. by eapply lookup_lt_Some. Qed.

(** After white space has been skipped there is none. *)
Lemma skip_stop P b s : (skip P b s < length b)%nat → P (char_at b (skip P b s)) = false.
Proof.
  unfold skip. intros H. assert (∀ l, (run_length P l < length l)%nat → P (default 0 (l !! run_length P l)) = false) as Hl.
  { induction l as [|c l IH]; cbn; [lia|]. destruct (P c) eqn:Hc; [|by cbn]. cbn. intros. apply IH. lia. }
  unfold char_at. rewrite <- lookup_drop. apply Hl. rewrite length_drop. lia.
Qed.

Lemma skip_id P b s : (s < length b)%nat → P (char_at b s) = false → skip P b s = s.
Proof.
  intros Hs HP. unfold skip, char_at in *. destruct (lookup_lt_is_Some_2 b s Hs) as [c Hc]. rewrite Hc in HP. rewrite (drop_S _ _ _ Hc). cbn in *.
  rewrite HP. lia.
Qed.

Lemma skip_skip P b s : (s <= length b)%nat → skip P b (skip P b s) = skip P b s.
Proof.
  intros Hs. destruct (decide (skip P b s < length b)%nat) as [H|H]; [by apply skip_id, skip_stop|].
  pose proof (skip_bounds P b s Hs). pose proof (skip_bounds P b (skip P b s) ltac:(lia)). lia.
Qed.

Lemma has_elem l c : has l c = true ↔ c ∈ l.
Proof.
  unfold has. rewrite existsb_exists. setoid_rewrite Z.eqb_eq. split.
  - intros (x & Hx & ->). by apply list_elem_of_In.
  - intros H. exists c. split; [by apply list_elem_of_In|done].
Qed.

(** A token lies between the position and the end, and is not empty. *)
Lemma gettoken_bounds b ps tok q eq s : gettoken b ps = (tok, q, eq, s) → (ps <= length b)%nat →
  (ps <= q <= eq)%nat ∧ (eq <= s <= length b)%nat ∧ (tok ≠ 0 → (q < eq)%nat).
Proof.
  unfold gettoken. intros E Hps. pose proof (skip_bounds is_ws b ps Hps) as Hs. pose proof (skip_stop is_ws b ps) as Hstop.
  set (t := skip is_ws b ps) in *. set (c := char_at b t) in *.
  assert (∀ tok' eq', (t <= eq' <= length b)%nat → (tok' ≠ 0 → (t < eq')%nat) → (tok', t, eq', skip is_ws b eq') = (tok, q, eq, s) →
    (ps <= q <= eq)%nat ∧ (eq <= s <= length b)%nat ∧ (tok ≠ 0 → (q < eq)%nat)) as Hdone.
  { intros tok' eq' He Ht [= <- <- <- <-]. pose proof (skip_bounds is_ws b eq' ltac:(lia)). split_and!; (lia || tauto). }
  destruct (Z.eqb_spec c 0) as [Hc|Hc]; [by apply (Hdone c t); [lia|..]|]. pose proof (char_at_lt b t Hc) as Hlt.
  destruct (has _ c) eqn:Hsym; [by apply (Hdone c (S t)); [lia|lia|]|]. destruct (Z.eqb_spec c 62) as [H62|H62].
  - destruct (Z.eqb_spec (char_at b (S t)) 62) as [H2|H2]; [|by apply (Hdone c (S t)); [lia|lia|]].
    pose proof (char_at_lt b (S t) ltac:(rewrite H2; lia)). apply (Hdone 43 (S (S t))); [lia|lia|done].
  - assert (t < skip is_word b t)%nat as Hw.
    { destruct (decide (skip is_word b t = t)) as [Heq|]; [|pose proof (skip_bounds is_word b t ltac:(lia)); lia].
      assert (is_word c = false) as HP by (unfold c; rewrite <- Heq at 1; apply skip_stop; lia). specialize (Hstop Hlt). fold c in Hstop.
      exfalso. unfold is_word in HP. rewrite Hstop in HP. cbn [negb andb] in HP. apply negb_false_iff in HP. unfold is_sym in HP. apply has_elem in HP. revert Hsym HP. rewrite <- not_true_iff_false, has_elem.
      unfold symbols. rewrite !elem_of_cons, !elem_of_nil. tauto. }
    apply (Hdone 97 (skip is_word b t)); [|lia|done]. pose proof (skip_bounds is_word b t ltac:(lia)). lia.
Qed.

Lemma peek_bounds b ps toks found s : peek b ps toks = (found, s) → (ps <= length b)%nat →
  s = skip is_ws b ps ∧ (ps <= s <= length b)%nat ∧ (found = true → char_at b s ≠ 0 ∧ char_at b s ∈ toks ∧ (s < length b)%nat).
Proof.
  unfold peek. intros [= <- <-] Hps. pose proof (skip_bounds is_ws b ps Hps). split_and!; try (done || lia).
  intros [Hne Hh]%andb_true_iff. apply negb_true_iff, Z.eqb_neq in Hne. split_and!; [done|by apply has_elem|by apply char_at_lt].
Qed.

(** The token after a successful [peek] is not the end. *)
Lemma peek_gettoken b ps toks s tok q eq s' : peek b ps toks = (true, s) → gettoken b s = (tok, q, eq, s') → (ps <= length b)%nat →
  (ps <= s < s')%nat ∧ (s' <= length b)%nat.
Proof.
  intros Hp Hg Hps. destruct (peek_bounds _ _ _ _ _ Hp Hps) as (Es & Hb & Hf). destruct (Hf eq_refl) as (Hne & _ & Hlt).
  destruct (gettoken_bounds _ _ _ _ _ _ Hg ltac:(lia)) as (H1 & H2 & H3). assert (tok ≠ 0) as Htok; [|specialize (H3 Htok); lia].
  revert Hg. unfold gettoken. assert (skip is_ws b s = s) as -> by (rewrite Es; by apply skip_skip). rewrite (proj2 (Z.eqb_neq _ _) Hne).
  destruct (has _ _); [by intros [= <- _ _ _]|]. destruct (Z.eqb_spec (char_at b s) 62) as [->|]; [destruct (_ =? 62)|]; by intros [= <- _ _ _].
Qed.

(** ** The parser ends *)

(** A parse from [ps] has come to a result, at a position after it if it is a
    command. *)
Definition ended {A} (b : list Z) (ps : nat) (r : presult A) : Prop :=
  match r with POk _ s => (ps <= s <= length b)%nat | PErr _ => True | PFuel => False end.

Lemma ended_bind {A B} b ps ps' (r : presult A) (f : A → nat → presult B) :
  ended b ps' r → (∀ a s, (ps' <= s <= length b)%nat → ended b ps (f a s)) → ended b ps (pbind r f).
Proof. destruct r; cbn; auto. Qed.

Lemma ended_weaken {A} b ps ps' (r : presult A) : (ps <= ps')%nat → ended b ps' r → ended b ps r.
Proof. destruct r; cbn; [lia|done..]. Qed.

Ltac step_peek s H := match goal with |- context [peek ?b ?ps ?t] => destruct (peek b ps t) as [[|] s] eqn:H end.
Ltac step_token tok s H := match goal with |- context [gettoken ?b ?ps] => destruct (gettoken b ps) as [[[tok ?q] ?eq] s] eqn:H end.

Lemma parseredirs_ends b fuel : ∀ c ps, (ps <= length b)%nat → (length b - ps <= fuel)%nat → ended b ps (parseredirs fuel b c ps).
Proof.
  induction fuel as [|fuel IH]; intros c ps Hps Hf; cbn [parseredirs]; step_peek s Hp; destruct (peek_bounds _ _ _ _ _ Hp Hps) as (_ & Hb & Hlt); try done.
  - destruct (Hlt eq_refl) as (_ & _ & ?). lia.
  - step_token tok s1 Hg1. destruct (peek_gettoken _ _ _ _ _ _ _ _ Hp Hg1 Hps) as [H1 H2]. step_token tok2 s2 Hg2.
    destruct (gettoken_bounds _ _ _ _ _ _ Hg2 H2) as (H3 & H4 & _). destruct (negb _); [done|]. eapply (ended_weaken _ _ s2); [|apply IH]; lia.
Qed.

Lemma parseargs_ends b fuel : ∀ ret argc ps, (ps <= length b)%nat → (length b - ps <= fuel)%nat → ended b ps (parseargs fuel b ret argc ps).
Proof.
  induction fuel as [|fuel IH]; intros ret argc ps Hps Hf; cbn [parseargs]; step_peek s Hp; destruct (peek_bounds _ _ _ _ _ Hp Hps) as (_ & Hb & _); try done;
    step_token tok s1 Hg; destruct (gettoken_bounds _ _ _ _ _ _ Hg ltac:(lia)) as (H1 & H2 & H3); (destruct (Z.eqb_spec tok 0) as [|Ht]; [cbn; lia|]);
    specialize (H3 Ht); (destruct (negb _); [done|]); (destruct (_ <=? _)%nat; [done|]).
  - lia.
  - apply (ended_bind _ _ s1); [apply parseredirs_ends; lia|]. intros a s2 Hs2. eapply (ended_weaken _ _ s2); [|apply IH]; lia.
Qed.

Lemma parsebacks_ends b fuel : ∀ c ps, (ps <= length b)%nat → (length b - ps <= fuel)%nat → ended b ps (parsebacks fuel b c ps).
Proof.
  induction fuel as [|fuel IH]; intros c ps Hps Hf; cbn [parsebacks]; step_peek s Hp; destruct (peek_bounds _ _ _ _ _ Hp Hps) as (_ & Hb & Hlt); try done.
  - destruct (Hlt eq_refl) as (_ & _ & ?). lia.
  - step_token tok s1 Hg1. destruct (peek_gettoken _ _ _ _ _ _ _ _ Hp Hg1 Hps) as [H1 H2]. eapply (ended_weaken _ _ s1); [|apply IH]; lia.
Qed.

(** The four routines that call each other: a nested block, list or pipe begins
    after at least one more character. *)
Lemma parse_ends b fuel : ∀ ps, (ps <= length b)%nat →
  ((4 * (length b - ps) + 3 < fuel)%nat → ended b ps (parseline fuel b ps)) ∧
  ((4 * (length b - ps) + 2 < fuel)%nat → ended b ps (parsepipe fuel b ps)) ∧
  ((4 * (length b - ps) + 1 < fuel)%nat → ended b ps (parseexec fuel b ps)) ∧
  ((4 * (length b - ps) < fuel)%nat → ended b ps (parseblock fuel b ps)).
Proof.
  induction fuel as [|fuel IH]; intros ps Hps; [split_and!; lia|]. split_and!; intros Hf.
  - cbn [parseline]. apply (ended_bind _ _ ps); [apply IH; lia|]. intros c s Hs. apply (ended_bind _ _ s); [apply parsebacks_ends; lia|]. intros c1 s1 Hs1.
    step_peek s2 Hp; destruct (peek_bounds _ _ _ _ _ Hp ltac:(lia)) as (_ & Hb & Hlt); [|cbn; lia]. step_token tok s3 Hg.
    destruct (peek_gettoken _ _ _ _ _ _ _ _ Hp Hg ltac:(lia)). apply (ended_bind _ _ s3); [apply IH; lia|]. cbn. lia.
  - cbn [parsepipe]. apply (ended_bind _ _ ps); [apply IH; lia|]. intros c s Hs.
    step_peek s2 Hp; destruct (peek_bounds _ _ _ _ _ Hp ltac:(lia)) as (_ & Hb & Hlt); [|cbn; lia]. step_token tok s3 Hg.
    destruct (peek_gettoken _ _ _ _ _ _ _ _ Hp Hg ltac:(lia)). apply (ended_bind _ _ s3); [apply IH; lia|]. cbn. lia.
  - cbn [parseexec]. step_peek s Hp; destruct (peek_bounds _ _ _ _ _ Hp Hps) as (_ & Hb & Hlt).
    + eapply (ended_weaken _ _ s); [lia|]. apply IH; lia.
    + apply (ended_bind _ _ s); [apply parseredirs_ends; lia|]. intros c s1 Hs1. eapply (ended_weaken _ _ s1); [lia|]. apply parseargs_ends; lia.
  - cbn [parseblock]. step_peek s Hp; [cbn [negb]|done]. step_token tok s1 Hg. destruct (peek_gettoken _ _ _ _ _ _ _ _ Hp Hg Hps).
    apply (ended_bind _ _ s1); [apply IH; lia|]. intros c s2 Hs2. step_peek s3 Hp2; [cbn [negb]|done]. step_token tok2 s4 Hg2.
    destruct (peek_gettoken _ _ _ _ _ _ _ _ Hp2 Hg2 ltac:(lia)). eapply (ended_weaken _ _ s4); [lia|]. apply parseredirs_ends; lia.
Qed.

(** C37: The parser of the shell ends on every line: it returns a command, and
    then it has read the line to its end, or it reports an error. *)
Theorem parsecmd_ends b : match parsecmd b with POk _ s => s = length b | PErr _ => True | PFuel => False end.
Proof.
  unfold parsecmd. destruct (parse_ends b (4 * length b + 4) 0 ltac:(lia)) as [H _]. specialize (H ltac:(lia)).
  destruct (parseline _ b 0) as [c s| |]; cbn [ended pbind] in *; [|done..]. step_peek s1 Hp; destruct (Nat.eqb_spec s1 (length b)); done.
Qed.

(** ** Lines as text *)

(** Tokens: a word, one of the symbols, and [>>]. *)
Inductive token := Word (w : list Z) | Sym (c : Z) | Append.

Definition word_char (c : Z) : Prop := is_word c = true ∧ c ≠ 0.
Definition wf_word (w : list Z) : Prop := w ≠ [] ∧ Forall word_char w.
Definition wf_token (t : token) : Prop := match t with Word w => wf_word w | Sym c => c ∈ symbols | Append => True end.
Definition token_text (t : token) : list Z := match t with Word w => w | Sym c => [c] | Append => [62; 62] end.

(** What may follow a token immediately. *)
Definition separate (t : token) (text : list Z) : Prop :=
  match text with
  | [] => True
  | c :: _ => match t with Word _ => is_word c = false | Sym d => d = 62 → c ≠ 62 | Append => True end
  end.

(** The text is the tokens, with white space between them where it must be and
    wherever it may be. *)
Inductive renders : list token → list Z → Prop :=
| renders_nil ws : Forall (λ c, is_ws c = true) ws → renders [] ws
| renders_cons ws t ts text : Forall (λ c, is_ws c = true) ws → wf_token t → separate t text → renders ts text →
    renders (t :: ts) (ws ++ token_text t ++ text).

(** The first character of a token. *)
Definition first_char (t : token) : Z := match t with Word (c :: _) => c | Word [] => 0 | Sym c => c | Append => 62 end.

(** From position [s] on the line is [ts]. *)
Definition at_tokens (b : list Z) (s : nat) (ts : list token) : Prop := (s <= length b)%nat ∧ renders ts (drop s b).

Lemma sym_not_ws c : c ∈ symbols → is_ws c = false ∧ c ≠ 0 ∧ is_word c = false.
Proof. unfold symbols. rewrite !elem_of_cons, elem_of_nil. intros H. by destruct_or! H; subst. Qed.

Lemma first_char_ok t : wf_token t → is_ws (first_char t) = false ∧ first_char t ≠ 0 ∧ ∃ r, token_text t = first_char t :: r.
Proof.
  destruct t as [w|c|]; cbn.
  - intros [Hne Hw]. destruct w as [|c w]; [done|]. apply Forall_cons in Hw as [[Hc H0] _]. cbn. unfold is_word in Hc.
    apply andb_true_iff in Hc as [Hc%negb_true_iff _]. eauto.
  - intros (? & ? & _)%sym_not_ws. eauto.
  - intros _. split_and!; [done..|]. eauto.
Qed.

Lemma run_length_app P l c r : Forall (λ x, P x = true) l → P c = false → run_length P (l ++ c :: r) = length l.
Proof. intros Hl Hc. induction Hl as [|x l Hx _ IH]; cbn; [by rewrite Hc|]. by rewrite Hx, IH. Qed.

Lemma run_length_all P l : Forall (λ x, P x = true) l → run_length P l = length l.
Proof. intros Hl. induction Hl as [|x l Hx _ IH]; cbn; [done|]. by rewrite Hx, IH. Qed.

(** White space before the next token can be skipped. *)
Lemma skip_tokens b s ts : at_tokens b s ts →
  at_tokens b (skip is_ws b s) ts ∧
  match ts with
  | [] => skip is_ws b s = length b
  | t :: ts' => ∃ text, drop (skip is_ws b s) b = token_text t ++ text ∧ wf_token t ∧ separate t text ∧ renders ts' text
  end.
Proof.
  intros [Hs Hr]. pose proof (skip_bounds is_ws b s Hs) as Hb. unfold at_tokens. unfold skip in *. inversion Hr as [ws Hws E1 E2|ws t ts' text Hws Ht Hsep Hr' E1 E2].
  - rewrite (run_length_all _ _ Hws). rewrite length_drop. replace (s + (length b - s))%nat with (length b) by lia. split; [|done].
    split; [done|]. rewrite drop_all. by constructor.
  - destruct (first_char_ok t Ht) as (Hf & _ & r & Er).
    assert (run_length is_ws (drop s b) = length ws) as Erl by (rewrite <- E2, Er; cbn [app]; by apply run_length_app).
    rewrite E2. assert (drop (s + length ws) b = token_text t ++ text) as Ed by (rewrite <- drop_drop, <- E2; by rewrite drop_app_length).
    rewrite Erl in *. rewrite Ed. split; [|eauto]. split; [lia|]. by apply (renders_cons []).
Qed.

(** ** Reading tokens *)

Definition kind (t : token) : Z := match t with Word _ => 97 | Sym c => c | Append => 43 end.

(** The word [w] is in the line from [q] to [eq], and ends there. *)
Record word_at (b : list Z) (q eq : nat) (w : list Z) : Prop := {
  wa_wf : wf_word w;
  wa_end : eq = (q + length w)%nat;
  wa_le : (eq <= length b)%nat;
  wa_text : take (length w) (drop q b) = w;
  wa_stop : is_word (char_at b eq) = false ∨ eq = length b
}.

Lemma char_at_drop b s : char_at b s = match drop s b with c :: _ => c | [] => 0 end.
Proof. unfold char_at. rewrite <- (Nat.add_0_r s) at 1. rewrite <- lookup_drop. by destruct (drop s b). Qed.

Lemma drop_app_eq (b : list Z) (s : nat) (l text : list Z) : drop s b = l ++ text → drop (s + length l) b = text ∧ (s <= length b → s + length l <= length b)%nat.
Proof.
  intros E. split; [rewrite <- drop_drop, E; by rewrite drop_app_length|]. intros Hs.
  apply (f_equal length) in E. rewrite length_drop, length_app in E. lia.
Qed.

Lemma gettoken_spec b s t ts : at_tokens b s (t :: ts) →
  ∃ q eq s', gettoken b s = (kind t, q, eq, s') ∧ at_tokens b s' ts ∧ ∀ w, t = Word w → word_at b q eq w.
Proof.
  intros H. destruct (skip_tokens _ _ _ H) as [[Hle _] (text & Ed & Ht & Hsep & Hr)]. set (q := skip is_ws b s) in *.
  destruct (first_char_ok t Ht) as (_ & H0 & r & Er). destruct (drop_app_eq _ _ _ _ Ed) as [Et Hlen]. specialize (Hlen Hle).
  assert (char_at b q = first_char t) as Ec by (by rewrite char_at_drop, Ed, Er).
  set (e := (q + length (token_text t))%nat) in *. exists q, e, (skip is_ws b e).
  assert (at_tokens b e ts) as Hat by (split; [done|by rewrite Et]). split; [|split; [by apply skip_tokens|]].
  - unfold gettoken. fold q. rewrite Ec, (proj2 (Z.eqb_neq _ _) H0). destruct t as [w|c|].
    + cbn in Ht. destruct Ht as [Hne Hw]. assert (word_char (first_char (Word w))) as [Hf _] by (destruct w; [done|]; by apply Forall_cons in Hw as [? _]).
      assert (¬ first_char (Word w) ∈ symbols) as Hns.
      { intros Hin. apply sym_not_ws in Hin as (_ & _ & Hin). congruence. }
      assert (has [124; 40; 41; 59; 38; 60] (first_char (Word w)) = false) as ->.
      { apply not_true_iff_false. rewrite has_elem. intros Hin. apply Hns. unfold symbols. rewrite !elem_of_cons in *. tauto. }
      rewrite (proj2 (Z.eqb_neq _ 62)). 2: { intros E62. apply Hns. rewrite E62. unfold symbols. rewrite !elem_of_cons. tauto. }
      assert (skip is_word b q = e) as ->; [|done]. unfold skip, e. rewrite Ed. cbn [token_text]. f_equal.
      assert (Forall (λ x, is_word x = true) w) as Hw' by (eapply Forall_impl; [exact Hw|by intros ? []]).
      destruct text as [|c text]; [rewrite app_nil_r; by apply run_length_all|]. by apply run_length_app.
    + cbn [first_char token_text length] in *. cbn in Ht. assert (e = S q) as -> by (unfold e; lia).
      destruct (Z.eqb_spec c 62) as [->|Hc].
      * cbn [has existsb Z.eqb Pos.eqb orb]. assert (char_at b (S q) ≠ 62) as Hne.
        { rewrite char_at_drop. replace (S q) with (q + @length Z [62%Z])%nat by (cbn; lia).
          rewrite (proj1 (drop_app_eq b q [62] text Ed)). destruct text; [done|]. by apply Hsep. }
        by rewrite (proj2 (Z.eqb_neq _ _) Hne).
      * assert (has [124; 40; 41; 59; 38; 60] c = true) as ->; [|done]. apply has_elem. revert Ht. unfold symbols. rewrite !elem_of_cons, !elem_of_nil. tauto.
    + cbn [first_char token_text length] in *. assert (e = S (S q)) as -> by (unfold e; lia). cbn [has existsb Z.eqb Pos.eqb orb].
      assert (char_at b (S q) = 62) as ->; [|done]. rewrite char_at_drop. replace (S q) with (q + @length Z [62%Z])%nat by (cbn; lia).
      by rewrite (proj1 (drop_app_eq b q [62] (62 :: text) Ed)).
  - intros w ->. cbn [token_text] in *. split; [done|done|done| |].
    + rewrite Ed. apply take_app_length.
    + rewrite char_at_drop, Et. destruct text as [|c text]; [right|left; exact Hsep].
      apply (f_equal length) in Et. rewrite length_drop in Et. cbn in Et. lia.
Qed.

Lemma gettoken_end b s : at_tokens b s [] → ∃ q eq, gettoken b s = (0, q, eq, length b).
Proof.
  intros H. destruct (skip_tokens _ _ _ H) as [_ E]. unfold gettoken. rewrite E. unfold char_at. rewrite lookup_ge_None_2 by done. cbn.
  eexists _, _. do 2 f_equal. unfold skip. rewrite drop_all. cbn. lia.
Qed.

(** [peek] looks at the first character of the next token. *)
Definition next_in (toks : list Z) (ts : list token) : bool :=
  match ts with [] => false | Word _ :: _ => false | Sym c :: _ => has toks c | Append :: _ => has toks 62 end.

Lemma peek_spec b s ts toks : at_tokens b s ts → (∀ c, c ∈ toks → c ∈ symbols) →
  ∃ s', peek b s toks = (next_in toks ts, s') ∧ at_tokens b s' ts.
Proof.
  intros H Htoks. destruct (skip_tokens _ _ _ H) as [Hat Hts]. unfold peek. exists (skip is_ws b s). split; [|done]. f_equal. destruct ts as [|t ts].
  - unfold char_at. rewrite Hts, lookup_ge_None_2 by done. done.
  - destruct Hts as (text & Ed & Ht & _). destruct (first_char_ok t Ht) as (_ & H0 & r & Er).
    rewrite char_at_drop, Ed, Er. cbn [app]. rewrite (proj2 (Z.eqb_neq _ _) H0). cbn [negb andb]. destruct t as [w|c|]; [|done..].
    cbn [next_in]. apply not_true_iff_false. rewrite has_elem. intros Hin%Htoks. apply sym_not_ws in Hin as (_ & _ & Hin).
    cbn in Ht. destruct Ht as [Hne Hw]. destruct w; [done|]. apply Forall_cons in Hw as [[Hw _] _]. cbn in Hin. congruence.
Qed.

(** ** The grammar *)

Inductive redirection := RIn (file : list Z) | ROut (file : list Z) | RAppend (file : list Z).

Inductive line :=
| Line (p : pipeline) (backs : nat)
| Seq (p : pipeline) (backs : nat) (l : line)
with pipeline :=
| Pipe1 (e : command)
| PipeTo (e : command) (p : pipeline)
with command :=
| Simple (rs : list redirection) (args : list (list Z * list redirection))
| Block (l : line) (rs : list redirection).

Definition rd_file (r : redirection) : list Z := match r with RIn f | ROut f | RAppend f => f end.
Definition rd_token (r : redirection) : token := match r with RIn _ => Sym 60 | ROut _ => Sym 62 | RAppend _ => Append end.
Definition rd_tokens (rs : list redirection) : list token := rs ≫= λ r, [rd_token r; Word (rd_file r)].

Fixpoint line_tokens (l : line) : list token :=
  match l with
  | Line p n => pipe_tokens p ++ replicate n (Sym 38)
  | Seq p n l => pipe_tokens p ++ replicate n (Sym 38) ++ Sym 59 :: line_tokens l
  end
with pipe_tokens (p : pipeline) : list token :=
  match p with
  | Pipe1 e => command_tokens e
  | PipeTo e p => command_tokens e ++ Sym 124 :: pipe_tokens p
  end
with command_tokens (e : command) : list token :=
  match e with
  | Simple rs args => rd_tokens rs ++ (args ≫= λ a, Word a.1 :: rd_tokens a.2)
  | Block l rs => Sym 40 :: line_tokens l ++ Sym 41 :: rd_tokens rs
  end.

(** No command has too many arguments. *)
Fixpoint few_args (l : line) : Prop :=
  match l with Line p _ => few_args_pipe p | Seq p _ l => few_args_pipe p ∧ few_args l end
with few_args_pipe (p : pipeline) : Prop :=
  match p with Pipe1 e => few_args_command e | PipeTo e p => few_args_command e ∧ few_args_pipe p end
with few_args_command (e : command) : Prop :=
  match e with Simple _ args => (length args < MAXARGS)%nat | Block l _ => few_args l end.

(** ** Commands with strings for positions *)

Inductive tree :=
| TExec (argv : list (list Z))
| TRedir (c : tree) (file : list Z) (mode fd : Z)
| TPipe (left right : tree)
| TList (left right : tree)
| TBack (c : tree).

Definition rd_tree (t : tree) (r : redirection) : tree :=
  match r with
  | RIn f => TRedir t f O_RDONLY 0
  | ROut f | RAppend f => TRedir t f (Z.lor O_WRONLY O_CREATE) 1
  end.

Fixpoint tree_arg (t : tree) (w : list Z) : tree :=
  match t with
  | TExec argv => TExec (argv ++ [w])
  | TRedir c f m d => TRedir (tree_arg c w) f m d
  | t => t
  end.

Definition args_tree (t : tree) (args : list (list Z * list redirection)) : tree :=
  foldl (λ t a, foldl rd_tree (tree_arg t a.1) a.2) t args.

(** What a line means. *)
Fixpoint line_tree (l : line) : tree :=
  match l with
  | Line p n => Nat.iter n TBack (pipe_tree p)
  | Seq p n l => TList (Nat.iter n TBack (pipe_tree p)) (line_tree l)
  end
with pipe_tree (p : pipeline) : tree :=
  match p with
  | Pipe1 e => command_tree e
  | PipeTo e p => TPipe (command_tree e) (pipe_tree p)
  end
with command_tree (e : command) : tree :=
  match e with
  | Simple rs args => args_tree (foldl rd_tree (TExec []) rs) args
  | Block l rs => foldl rd_tree (line_tree l) rs
  end.

(** The command has the strings of [t] at its positions. *)
Fixpoint reads (b : list Z) (c : cmd) (t : tree) : Prop :=
  match c, t with
  | EXEC argv, TExec ws => Forall2 (λ a, word_at b a.1 a.2) argv ws
  | REDIR c q eq m d, TRedir t w m' d' => reads b c t ∧ word_at b q eq w ∧ m = m' ∧ d = d'
  | PIPE c1 c2, TPipe t1 t2 => reads b c1 t1 ∧ reads b c2 t2
  | LIST c1 c2, TList t1 t2 => reads b c1 t1 ∧ reads b c2 t2
  | BACK c, TBack t => reads b c t
  | _, _ => False
  end.

Lemma reads_arg b t w q eq : ∀ c, reads b c t → word_at b q eq w → reads b (add_arg c (q, eq)) (tree_arg t w).
Proof.
  intros c. revert t. induction c as [argv|c IH f e m d| | |]; intros [ws|t f' m' d'|t1 t2|t1 t2|t] H Hw; cbn in *; try done.
  - apply Forall2_app; [done|]. by constructor.
  - destruct H as (? & ? & -> & ->). split_and!; auto.
Qed.

Lemma reads_rd b c t r q eq : reads b c t → word_at b q eq (rd_file r) → reads b (redir (kind (rd_token r)) c q eq) (rd_tree t r).
Proof. intros H Hw. by destruct r. Qed.

(** ** The parser reads back what was written *)

(** A parse from [s] has used up tokens and left [rest]; its command reads as [t]. *)
Definition parsed (b : list Z) (rest : list token) (t : tree) (r : presult cmd) : Prop :=
  ∃ c s, r = POk c s ∧ at_tokens b s rest ∧ reads b c t.

Lemma toks_symbols toks : forallb is_sym toks = true → ∀ c, c ∈ toks → c ∈ symbols.
Proof.
  intros H c Hc. apply forallb_forall with (x := c) in H; [|by apply list_elem_of_In]. unfold is_sym in H. by apply has_elem.
Qed.

Lemma parseredirs_spec b rest rs : next_in [60; 62] rest = false → ∀ fuel c t s,
  at_tokens b s (rd_tokens rs ++ rest) → (length b - s <= fuel)%nat → reads b c t →
  parsed b rest (foldl rd_tree t rs) (parseredirs fuel b c s).
Proof.
  intros Hrest. induction rs as [|r rs IH]; intros fuel c t s Hat Hf Hc; cbn [rd_tokens app] in Hat.
  - destruct (peek_spec b s rest [60; 62] Hat (toks_symbols [60; 62] eq_refl)) as (s' & Ep & Hat'). exists c, s'.
    destruct fuel; cbn [parseredirs]; by rewrite Ep, Hrest.
  - change (rd_tokens (r :: rs)) with (rd_token r :: Word (rd_file r) :: rd_tokens rs) in Hat. cbn [app] in Hat.
    destruct (peek_spec b s _ [60; 62] Hat (toks_symbols [60; 62] eq_refl)) as (s1 & Ep & Hat1).
    assert (next_in [60; 62] (rd_token r :: Word (rd_file r) :: rd_tokens rs ++ rest) = true) as En by (by destruct r). rewrite En in Ep.
    destruct (gettoken_spec _ _ _ _ Hat1) as (q1 & e1 & s2 & Eg1 & Hat2 & _). destruct (gettoken_spec _ _ _ _ Hat2) as (q2 & e2 & s3 & Eg2 & Hat3 & Hw).
    destruct (peek_gettoken _ _ _ _ _ _ _ _ Ep Eg1 (proj1 Hat)) as [Hlt _]. destruct (gettoken_bounds _ _ _ _ _ _ Eg2 (proj1 Hat2)) as (? & ? & _).
    destruct fuel as [|fuel]; [pose proof (proj1 Hat2); lia|]. cbn [parseredirs]. rewrite Ep, Eg1, Eg2. cbn [kind Z.eqb Pos.eqb negb foldl].
    apply IH; [done|lia|]. apply reads_rd; [done|]. by apply Hw.
Qed.

(** What may follow a command, a pipeline and a line. *)
Definition ends_command (rest : list token) : Prop :=
  match rest with [] => True | Sym c :: _ => c ∈ [124; 41; 38; 59] | _ => False end.
Definition ends_pipe (rest : list token) : Prop :=
  match rest with [] => True | Sym c :: _ => c ∈ [41; 38; 59] | _ => False end.
Definition ends_line (rest : list token) : Prop :=
  match rest with [] => True | Sym c :: _ => c = 41 | _ => False end.

Lemma ends_command_next rest : ends_command rest → next_in [60; 62] rest = false ∧ next_in [40] rest = false ∧
  (next_in [124; 41; 38; 59] rest = false → rest = []).
Proof.
  destruct rest as [|[w|c|] rest]; cbn [ends_command]; try done. rewrite !elem_of_cons, elem_of_nil. intros H. by destruct_or! H; subst.
Qed.

Lemma parseargs_spec b rest args : ends_command rest → ∀ fuel c t argc s,
  at_tokens b s ((args ≫= λ a, Word a.1 :: rd_tokens a.2) ++ rest) → (length b - s <= fuel)%nat → (argc + length args < MAXARGS)%nat →
  reads b c t → parsed b rest (args_tree t args) (parseargs fuel b c argc s).
Proof.
  intros Hrest. destruct (ends_command_next _ Hrest) as (Hn1 & _ & Hn2). induction args as [|[w rs] args IH]; intros fuel c t argc s Hat Hf Hargs Hc.
  - cbn in Hat. destruct (peek_spec b s _ [124; 41; 38; 59] Hat (toks_symbols [124; 41; 38; 59] eq_refl)) as (s1 & Ep & Hat1).
    assert (parseargs fuel b c argc s = POk c s1 ∨ parseargs fuel b c argc s = POk c (length b) ∧ rest = []) as [E|[E ->]].
    { destruct (next_in [124; 41; 38; 59] rest) eqn:En; [left; destruct fuel; cbn [parseargs]; by rewrite Ep|right].
      rewrite (Hn2 eq_refl) in Hat1. destruct (gettoken_end _ _ Hat1) as (q & e & Eg). split; [|auto]. destruct fuel; cbn [parseargs]; by rewrite Ep, Eg. }
    + rewrite E. by exists c, s1.
    + rewrite E. exists c, (length b). split_and!; [done| |done]. split; [done|]. rewrite drop_all. by constructor.
  - rewrite bind_cons in Hat. cbn [fst snd app] in Hat. rewrite <- app_assoc in Hat.
    destruct (peek_spec b s _ [124; 41; 38; 59] Hat (toks_symbols [124; 41; 38; 59] eq_refl)) as (s1 & Ep & Hat1). cbn [next_in] in Ep.
    destruct (gettoken_spec _ _ _ _ Hat1) as (q & e & s2 & Eg & Hat2 & Hw).
    destruct (gettoken_bounds _ _ _ _ _ _ Eg (proj1 Hat1)) as (? & ? & H97). specialize (H97 ltac:(done)).
    assert (s <= s1)%nat by (pose proof (peek_bounds _ _ _ _ _ Ep (proj1 Hat)); lia).
    pose proof (reads_arg b t w q e c Hc (Hw w eq_refl)) as Hc'.
    assert (next_in [60; 62] ((args ≫= λ a, Word a.1 :: rd_tokens a.2) ++ rest) = false) as Hn by (by destruct args as [|[? ?] ?]).
    destruct (parseredirs_spec b _ rs Hn (length b) _ _ _ Hat2 ltac:(lia) Hc') as (c2 & s3 & Er & Hat3 & Hc2).
    pose proof (parseredirs_ends b (length b) (add_arg c (q, e)) s2 ltac:(lia) ltac:(lia)) as Hend. rewrite Er in Hend. cbn in Hend.
    destruct fuel as [|fuel]; [lia|]. cbn [parseargs]. rewrite Ep, Eg. cbn [kind Z.eqb Pos.eqb negb]. cbn [length] in Hargs.
    rewrite (proj2 (Nat.leb_gt MAXARGS (S argc))) by lia. rewrite Er. cbn [pbind]. apply IH; [done|lia|lia|done].
Qed.

Lemma parsebacks_spec b rest n : next_in [38] rest = false → ∀ fuel c t s,
  at_tokens b s (replicate n (Sym 38) ++ rest) → (length b - s <= fuel)%nat → reads b c t →
  parsed b rest (Nat.iter n TBack t) (parsebacks fuel b c s).
Proof.
  intros Hrest. induction n as [|n IH]; intros fuel c t s Hat Hf Hc.
  - destruct (peek_spec b s rest [38] Hat (toks_symbols [38] eq_refl)) as (s' & Ep & Hat'). exists c, s'.
    destruct fuel; cbn [parsebacks]; by rewrite Ep, Hrest.
  - cbn [replicate app] in Hat. destruct (peek_spec b s _ [38] Hat (toks_symbols [38] eq_refl)) as (s1 & Ep & Hat1). cbn [next_in] in Ep.
    destruct (gettoken_spec _ _ _ _ Hat1) as (q & e & s2 & Eg & Hat2 & _). destruct (peek_gettoken _ _ _ _ _ _ _ _ Ep Eg (proj1 Hat)) as [Hlt _].
    destruct fuel as [|fuel]; [pose proof (proj1 Hat2); lia|]. cbn [parsebacks]. rewrite Ep, Eg. rewrite Nat.iter_succ_r. apply IH; [done|lia|done].
Qed.

Scheme line_mut := Induction for line Sort Prop
with pipeline_mut := Induction for pipeline Sort Prop
with command_mut := Induction for command Sort Prop.
Combined Scheme grammar_mut from line_mut, pipeline_mut, command_mut.

(** A parse that has returned, and where it is. *)
Lemma parsed_inv b rest t (r : presult cmd) ps : parsed b rest t r → ended b ps r →
  ∃ c s, r = POk c s ∧ at_tokens b s rest ∧ reads b c t ∧ (ps <= s <= length b)%nat.
Proof. intros (c & s & -> & Hat & Hc) He. by exists c, s. Qed.

Section grammar.
Context (b : list Z).

Definition line_ok (l : line) : Prop := ∀ fuel s rest, at_tokens b s (line_tokens l ++ rest) → ends_line rest → few_args l →
  (4 * (length b - s) + 3 < fuel)%nat → parsed b rest (line_tree l) (parseline fuel b s).
Definition pipe_ok (p : pipeline) : Prop := ∀ fuel s rest, at_tokens b s (pipe_tokens p ++ rest) → ends_pipe rest → few_args_pipe p →
  (4 * (length b - s) + 2 < fuel)%nat → parsed b rest (pipe_tree p) (parsepipe fuel b s).
Definition command_ok (e : command) : Prop := ∀ fuel s rest, at_tokens b s (command_tokens e ++ rest) → ends_command rest → few_args_command e →
  (4 * (length b - s) + 1 < fuel)%nat → parsed b rest (command_tree e) (parseexec fuel b s).

(** [parsepipe] and the ampersands after it. *)
Lemma head_ok p n fuel s rest : pipe_ok p → at_tokens b s (pipe_tokens p ++ replicate n (Sym 38) ++ rest) → few_args_pipe p →
  (match rest with [] => True | Sym c :: _ => c ∈ [41; 59] | _ => False end) → (4 * (length b - s) + 2 < fuel)%nat →
  ∃ c s1 c1 s2, parsepipe fuel b s = POk c s1 ∧ parsebacks (length b) b c s1 = POk c1 s2 ∧ at_tokens b s2 rest ∧
    reads b c1 (Nat.iter n TBack (pipe_tree p)) ∧ (s <= s2 <= length b)%nat.
Proof using Type.
  intros Hp Hat Hfew Hrest Hf.
  assert (ends_pipe (replicate n (Sym 38) ++ rest)) as He.
  { destruct n; cbn [replicate app ends_pipe]; [|set_solver]. destruct rest as [|[| |] ?]; cbn in *; try done. set_solver. }
  destruct (parse_ends b fuel s (proj1 Hat)) as (_ & Hend & _).
  destruct (parsed_inv b _ _ _ s (Hp fuel s _ Hat He Hfew Hf) (Hend Hf)) as (c & s1 & E1 & Hat1 & Hc & Hs1).
  assert (next_in [38] rest = false) as Hn.
  { destruct rest as [|[w|c'|] ?]; cbn in *; try done. rewrite !elem_of_cons, elem_of_nil in Hrest. by destruct_or! Hrest; subst. }
  destruct (parsed_inv b _ _ _ s1 (parsebacks_spec b rest n Hn (length b) c _ s1 Hat1 ltac:(lia) Hc)) as (c1 & s2 & E2 & Hat2 & Hc1 & Hs2);
    [apply parsebacks_ends; lia|]. exists c, s1, c1, s2. split_and!; (done || lia).
Qed.

Lemma line1_ok p n : pipe_ok p → line_ok (Line p n).
Proof using Type.
  intros Hp fuel s rest Hat He Hfew Hf. cbn [line_tokens] in Hat. rewrite <- app_assoc in Hat. destruct fuel as [|fuel]; [lia|].
  destruct (head_ok p n fuel s rest Hp Hat Hfew) as (c & s1 & c1 & s2 & E1 & E2 & Hat2 & Hc1 & Hs2); [|lia|].
  { destruct rest as [|[| |] ?]; cbn in *; try done. set_solver. }
  destruct (peek_spec b s2 _ [59] Hat2 (toks_symbols [59] eq_refl)) as (s3 & Ep & Hat3).
  assert (next_in [59] rest = false) as Hn by (destruct rest as [|[| |] ?]; cbn in *; try done; by subst).
  exists c1, s3. cbn [parseline]. rewrite E1. cbn [pbind]. rewrite E2. cbn [pbind]. rewrite Ep, Hn. done.
Qed.

Lemma seq_ok p n l : pipe_ok p → line_ok l → line_ok (Seq p n l).
Proof using Type.
  intros Hp Hl fuel s rest Hat He [Hfew1 Hfew2] Hf. cbn [line_tokens] in Hat. rewrite <- !app_assoc in Hat. destruct fuel as [|fuel]; [lia|].
  destruct (head_ok p n fuel s _ Hp Hat Hfew1) as (c & s1 & c1 & s2 & E1 & E2 & Hat2 & Hc1 & Hs2); [cbn; set_solver|lia|].
  destruct (peek_spec b s2 _ [59] Hat2 (toks_symbols [59] eq_refl)) as (s3 & Ep & Hat3). cbn [next_in app] in Ep, Hat3.
  destruct (gettoken_spec _ _ _ _ Hat3) as (q & e & s4 & Eg & Hat4 & _). destruct (peek_gettoken _ _ _ _ _ _ _ _ Ep Eg ltac:(lia)) as [Hlt Hle].
  destruct (Hl fuel s4 rest Hat4 He Hfew2 ltac:(lia)) as (d & s5 & E5 & Hat5 & Hd).
  exists (LIST c1 d), s5. cbn [parseline]. rewrite E1. cbn [pbind]. rewrite E2. cbn [pbind]. rewrite Ep. cbn iota. rewrite Eg, E5. done.
Qed.

Lemma pipe1_ok e : command_ok e → pipe_ok (Pipe1 e).
Proof using Type.
  intros He fuel s rest Hat Hrest Hfew Hf. cbn [pipe_tokens] in Hat. destruct fuel as [|fuel]; [lia|].
  assert (ends_command rest) as Hec by (destruct rest as [|[| |] ?]; cbn in *; try done; set_solver).
  destruct (He fuel s rest Hat Hec Hfew ltac:(lia)) as (c & s1 & E1 & Hat1 & Hc).
  destruct (peek_spec b s1 _ [124] Hat1 (toks_symbols [124] eq_refl)) as (s2 & Ep & Hat2).
  assert (next_in [124] rest = false) as Hn.
  { destruct rest as [|[w|c'|] ?]; cbn in *; try done. rewrite !elem_of_cons, elem_of_nil in Hrest. by destruct_or! Hrest; subst. }
  exists c, s2. cbn [parsepipe]. rewrite E1. cbn [pbind]. rewrite Ep, Hn. done.
Qed.

Lemma pipeto_ok e p : command_ok e → pipe_ok p → pipe_ok (PipeTo e p).
Proof using Type.
  intros He Hp fuel s rest Hat Hrest [Hfew1 Hfew2] Hf. cbn [pipe_tokens] in Hat. rewrite <- app_assoc in Hat. destruct fuel as [|fuel]; [lia|].
  destruct (parse_ends b fuel s (proj1 Hat)) as (_ & _ & Hend & _).
  destruct (parsed_inv b _ _ _ s (He fuel s _ Hat ltac:(cbn; set_solver) Hfew1 ltac:(lia)) (Hend ltac:(lia))) as (c & s1 & E1 & Hat1 & Hc & Hs1).
  cbn [app] in Hat1. destruct (peek_spec b s1 _ [124] Hat1 (toks_symbols [124] eq_refl)) as (s2 & Ep & Hat2). cbn [next_in] in Ep.
  destruct (gettoken_spec _ _ _ _ Hat2) as (q & e' & s3 & Eg & Hat3 & _). destruct (peek_gettoken _ _ _ _ _ _ _ _ Ep Eg ltac:(lia)) as [Hlt Hle].
  destruct (Hp fuel s3 rest Hat3 Hrest Hfew2 ltac:(lia)) as (d & s4 & E4 & Hat4 & Hd).
  exists (PIPE c d), s4. cbn [parsepipe]. rewrite E1. cbn [pbind]. rewrite Ep. cbn iota. rewrite Eg, E4. done.
Qed.

Lemma simple_ok rs args : command_ok (Simple rs args).
Proof using Type.
  intros fuel s rest Hat Hrest Hfew Hf. cbn [command_tokens] in Hat. rewrite <- app_assoc in Hat. destruct fuel as [|fuel]; [lia|].
  destruct (ends_command_next _ Hrest) as (Hn1 & Hn2 & _). set (argt := args ≫= _) in Hat.
  assert (next_in [40] (rd_tokens rs ++ argt ++ rest) = false) as Hn by (destruct rs as [|[] ?]; [destruct args as [|[] ?]; done|done..]).
  destruct (peek_spec b s _ [40] Hat (toks_symbols [40] eq_refl)) as (s1 & Ep & Hat1). rewrite Hn in Ep.
  assert (next_in [60; 62] (argt ++ rest) = false) as Hn' by (by destruct args as [|[] ?]).
  destruct (parsed_inv b _ _ _ s1 (parseredirs_spec b _ rs Hn' (length b) (EXEC []) (TExec []) s1 Hat1 ltac:(lia) ltac:(constructor))) as (c & s2 & E2 & Hat2 & Hc & Hs2);
    [apply parseredirs_ends; [apply Hat1|lia]|].
  destruct (parseargs_spec b rest args Hrest (length b) c _ 0 s2 Hat2 ltac:(lia) Hfew Hc) as (d & s3 & E3 & Hat3 & Hd).
  exists d, s3. cbn [parseexec]. rewrite Ep, E2. done.
Qed.

Lemma block_ok l rs : line_ok l → command_ok (Block l rs).
Proof using Type.
  intros Hl fuel s rest Hat Hrest Hfew Hf. cbn [command_tokens] in Hat. cbn [app] in Hat. rewrite <- app_assoc in Hat. cbn [app] in Hat.
  destruct fuel as [|[|fuel]]; [lia|lia|]. destruct (ends_command_next _ Hrest) as (Hn1 & _ & _).
  destruct (peek_spec b s _ [40] Hat (toks_symbols [40] eq_refl)) as (s1 & Ep & Hat1). cbn [next_in] in Ep.
  destruct (peek_spec b s1 _ [40] Hat1 (toks_symbols [40] eq_refl)) as (s2 & Ep2 & Hat2). cbn [next_in] in Ep2.
  destruct (gettoken_spec _ _ _ _ Hat2) as (q & e & s3 & Eg & Hat3 & _). destruct (peek_gettoken _ _ _ _ _ _ _ _ Ep2 Eg (proj1 Hat1)) as [Hlt Hle].
  pose proof (peek_bounds _ _ _ _ _ Ep (proj1 Hat)) as (_ & Hb1 & _). destruct (parse_ends b fuel s3 (proj1 Hat3)) as (Hend & _).
  destruct (parsed_inv b _ _ _ s3 (Hl fuel s3 _ Hat3 eq_refl Hfew ltac:(lia)) (Hend ltac:(lia))) as (c & s4 & E4 & Hat4 & Hc & Hs4).
  destruct (peek_spec b s4 _ [41] Hat4 (toks_symbols [41] eq_refl)) as (s5 & Ep5 & Hat5). cbn [next_in] in Ep5.
  destruct (gettoken_spec _ _ _ _ Hat5) as (q' & e' & s6 & Eg6 & Hat6 & _).
  destruct (parseredirs_spec b rest rs Hn1 (length b) c _ s6 Hat6 ltac:(lia) Hc) as (d & s7 & E7 & Hat7 & Hd).
  exists d, s7. cbn [parseexec]. rewrite Ep. cbn iota. cbn [parseblock]. rewrite Ep2. cbn [negb]. rewrite Eg, E4. cbn [pbind]. rewrite Ep5. cbn [negb]. rewrite Eg6, E7. done.
Qed.

Lemma grammar_ok : (∀ l, line_ok l) ∧ (∀ p, pipe_ok p) ∧ (∀ e, command_ok e).
Proof using Type. apply grammar_mut; auto using line1_ok, seq_ok, pipe1_ok, pipeto_ok, simple_ok, block_ok. Qed.
End grammar.

(** ** The strings after [nulterminate] *)

(** The command with the strings its positions have in the buffer. *)
Fixpoint tree_of (buf : list Z) (c : cmd) : tree :=
  match c with
  | EXEC argv => TExec ((λ a, cstr buf a.1) <$> argv)
  | REDIR c q _ m d => TRedir (tree_of buf c) (cstr buf q) m d
  | PIPE l r => TPipe (tree_of buf l) (tree_of buf r)
  | LIST l r => TList (tree_of buf l) (tree_of buf r)
  | BACK c => TBack (tree_of buf c)
  end.

(** The positions [nulterminate] writes to. *)
Fixpoint string_ends (c : cmd) : list nat :=
  match c with
  | EXEC argv => argv.*2
  | REDIR c _ e _ _ => e :: string_ends c
  | PIPE l r => string_ends l ++ string_ends r
  | LIST l r => string_ends l ++ string_ends r
  | BACK c => string_ends c
  end.

Lemma set_nul_lookup buf p i : set_nul buf p !! i = if decide (i = p) then (λ _, 0) <$> buf !! i else buf !! i.
Proof.
  unfold set_nul. case_decide as E; [subst|by apply list_lookup_insert_ne].
  destruct (decide (p < length buf)%nat) as [H|H].
  - rewrite list_lookup_insert_eq by done. destruct (lookup_lt_is_Some_2 buf p H) as [x ->]. done.
  - rewrite list_insert_ge by lia. by rewrite lookup_ge_None_2 by lia.
Qed.

Lemma nulterminate_lookup c : ∀ buf i,
  nulterminate c buf !! i = if decide (i ∈ string_ends c) then (λ _, 0) <$> buf !! i else buf !! i.
Proof.
  induction c as [argv|c IH f e m d|l IHl r IHr|l IHl r IHr|c IH]; intros buf i; cbn [nulterminate string_ends].
  - revert buf. induction argv as [|[q e] argv IH]; intros buf; cbn [foldl fmap list_fmap]; [by rewrite decide_False by apply not_elem_of_nil|].
    rewrite IH, set_nul_lookup. cbn [snd]. repeat case_decide; rewrite ?elem_of_cons in *; destruct (buf !! i); naive_solver.
  - rewrite set_nul_lookup, IH. repeat case_decide; rewrite ?elem_of_cons in *; destruct (buf !! i); naive_solver.
  - rewrite IHr, IHl. repeat case_decide; rewrite ?elem_of_app in *; destruct (buf !! i); naive_solver.
  - rewrite IHr, IHl. repeat case_decide; rewrite ?elem_of_app in *; destruct (buf !! i); naive_solver.
  - apply IH.
Qed.

(** A string ends where the line does or where there is no character of a word. *)
Definition good_end (b : list Z) (e : nat) : Prop := is_word (char_at b e) = false ∨ e = length b.

Lemma reads_ends b c : ∀ t, reads b c t → Forall (good_end b) (string_ends c).
Proof.
  induction c as [argv|c IH f e m d|l IHl r IHr|l IHl r IHr|c IH]; intros [ws|t' f' m' d'|t1 t2|t1 t2|t'] H; cbn in *; try done.
  - induction H as [|[q e] w argv ws Hw _ IH]; cbn; constructor; [apply Hw|done].
  - destruct H as (H & Hw & _). constructor; [apply Hw|by eapply IH].
  - destruct H. apply Forall_app. eauto.
  - destruct H. apply Forall_app. eauto.
  - eauto.
Qed.

Lemma cstr_word b q e w E buf :
  word_at b q e w → e ∈ E → Forall (good_end b) E →
  (∀ i, buf !! i = if decide (i ∈ E) then (λ _, 0) <$> (b ++ [0]) !! i else (b ++ [0]) !! i) → cstr buf q = w.
Proof.
  intros [[_ Hwf] -> Hle Htext _] Hin HE Hbuf.
  assert (∀ i c, w !! i = Some c → buf !! (q + i)%nat = Some c) as Hw.
  { intros i c Hi. pose proof (lookup_lt_Some _ _ _ Hi). assert (b !! (q + i)%nat = Some c) as Hb.
    { rewrite <- lookup_drop, <- Hi, <- Htext. symmetry. by apply lookup_take_lt. }
    assert (word_char c) as [Hc _] by (by eapply Forall_lookup_1).
    rewrite Hbuf, decide_False; [by rewrite lookup_app_l by lia|]. intros Hi'. rewrite Forall_forall in HE. destruct (HE _ Hi') as [Hg|Hg]; [|lia].
    unfold char_at in Hg. rewrite Hb in Hg. cbn in Hg. congruence. }
  assert (drop q buf = w ++ 0 :: drop (S (q + length w)) buf) as Hd.
  { apply list_eq. intros i. rewrite lookup_drop. destruct (decide (i < length w)%nat) as [Hi|Hi].
    - rewrite lookup_app_l by done. destruct (lookup_lt_is_Some_2 w i Hi) as [c Hc]. rewrite Hc. by apply Hw.
    - rewrite lookup_app_r by lia. destruct (decide (i = length w)) as [->|].
      + rewrite Nat.sub_diag, Hbuf, decide_True by done. destruct (lookup_lt_is_Some_2 (b ++ [0]) (q + length w)) as [c ->]; [rewrite length_app; cbn; lia|done].
      + destruct (i - length w)%nat as [|j] eqn:Ej; [lia|]. change ((0 :: drop (S (q + length w)) buf) !! S j) with (drop (S (q + length w)) buf !! j). rewrite lookup_drop. f_equal. lia. }
  unfold cstr. rewrite Hd, run_length_app; [apply take_app_length| |done].
  eapply Forall_impl; [exact Hwf|]. intros c [_ Hc]. by rewrite (proj2 (Z.eqb_neq _ _) Hc).
Qed.

Lemma tree_of_reads b E buf c : Forall (good_end b) E →
  (∀ i, buf !! i = if decide (i ∈ E) then (λ _, 0) <$> (b ++ [0]) !! i else (b ++ [0]) !! i) →
  ∀ t, (∀ e, e ∈ string_ends c → e ∈ E) → reads b c t → tree_of buf c = t.
Proof.
  intros HE Hbuf. induction c as [argv|c IH f e m d|l IHl r IHr|l IHl r IHr|c IH]; intros [ws|t' f' m' d'|t1 t2|t1 t2|t'] Hsub H; cbn in *; try done.
  - f_equal. induction H as [|[q e] w argv ws Hw _ IH]; cbn in *; [done|]. f_equal; [apply (cstr_word b q e w E); auto; apply Hsub; by left|].
    apply IH. intros x Hx. apply Hsub. by right.
  - destruct H as (H & Hw & -> & ->). rewrite (IH t'), (cstr_word b f e f' E); auto; [apply Hsub; by left|]. intros x Hx. apply Hsub. by right.
  - destruct H. rewrite (IHl t1), (IHr t2); auto; intros x Hx; apply Hsub, elem_of_app; auto.
  - destruct H. rewrite (IHl t1), (IHr t2); auto; intros x Hx; apply Hsub, elem_of_app; auto.
  - by rewrite (IH t').
Qed.

(** C23: The parser of the shell reads back what was written: any line of the
    grammar, with any white space between its tokens, is parsed to the command it
    means, and after [nulterminate] the strings of that command in the buffer are
    the words of the line. *)
Theorem parse_roundtrip l b :
  renders (line_tokens l) b → few_args l →
  ∃ c buf, parsecmd b = POk (c, buf) (length b) ∧ tree_of buf c = line_tree l.
Proof.
  intros Hr Hfew. assert (at_tokens b 0 (line_tokens l ++ [])) as Hat by (rewrite app_nil_r; split; [lia|done]).
  destruct (proj1 (grammar_ok b) l (4 * length b + 4)%nat 0%nat [] Hat I Hfew ltac:(lia)) as (c & s & E & Hat' & Hc).
  exists c, (nulterminate c (b ++ [0])). unfold parsecmd. rewrite E. cbn [pbind]. split.
  - destruct (skip_tokens _ _ _ Hat') as [_ Es]. unfold peek. rewrite Es, Nat.eqb_refl. done.
  - apply (tree_of_reads b (string_ends c)); [by eapply reads_ends|apply nulterminate_lookup|done|done].
Qed.

(** ** Example: [a >b|(c)&] *)

Ltac render ws text := refine (renders_cons ws _ _ text _ _ _ _);
  [by repeat constructor|first [split; [done|repeat constructor; done] | apply has_elem; reflexivity | exact I]|first [reflexivity | exact I | done]|].

Lemma parse_roundtrip_witness :
  let l := Line (PipeTo (Simple [] [([97], [ROut [98]])]) (Pipe1 (Block (Line (Pipe1 (Simple [] [([99], [])])) 0) []))) 1 in
  ∃ c buf, parsecmd [97; 32; 62; 98; 124; 40; 99; 41; 38] = POk (c, buf) 9 ∧ tree_of buf c = line_tree l.
Proof.
  intros l. apply (parse_roundtrip l [97; 32; 62; 98; 124; 40; 99; 41; 38]).
  - cbn [line_tokens pipe_tokens command_tokens l rd_tokens mbind list_bind app replicate rd_token rd_file fst snd].
    render (@nil Z) [32; 62; 98; 124; 40; 99; 41; 38]. render [32] [98; 124; 40; 99; 41; 38]. render (@nil Z) [124; 40; 99; 41; 38].
    render (@nil Z) [40; 99; 41; 38]. render (@nil Z) [99; 41; 38]. render (@nil Z) [41; 38]. render (@nil Z) [38]. render (@nil Z) (@nil Z). by constructor.
  - unfold l. cbn. unfold MAXARGS. lia.
Defined.
