(* ===== verification/ShRun.v ===== *)
(** * The shell wires its processes as the command says (src/user/sh.c: runcmd)

    The system calls of [runcmd] are followed through the descriptor tables of the
    processes it makes, when every call succeeds.  The kernel gives out the lowest
    free descriptor ([fdalloc], src/sysfile.c). *)

From S2P Require Import Prelude Mem Ulib Sh.

(** What a descriptor refers to: something inherited, a file that was opened, or
    an end of the [n]-th pipe. *)
Inductive desc := Inherited (n : nat) | File (path : list Z) (mode : Z) | ReadEnd (n : nat) | WriteEnd (n : nat).

Abbreviation fdtable := (gmap Z desc).

(** The first free descriptor from [fd] on. *)
Fixpoint fdalloc (fuel : nat) (t : fdtable) (fd : Z) : Z :=
  match fuel with
  | O => fd
  | S fuel => match t !! fd with Some _ => fdalloc fuel t (fd + 1) | None => fd end
  end.
Definition lowest (t : fdtable) : Z := fdalloc 16 t 0.

(** A process that has come to run a program, or waits for its children, with its
    descriptors. *)
Inductive process := Running (argv : list (list Z)) (t : fdtable) | Waiting (t : fdtable).

(** The processes a program makes, from a table and the number of pipes so far;
    the new number of pipes. *)
Fixpoint processes (p : prog) (t : fdtable) (n : nat) : list process * nat :=
  match p with
  | Exit _ => ([], n)
  | Exec _ argv _ => ([Running argv t], n)
  | Close fd k => processes k (delete fd t) n
  | Open path mode k => let fd := lowest t in processes (k fd) (<[fd := File path mode]> t) n
  | Dup2 o w k => processes k (match t !! o with Some d => <[w := d]> t | None => t end) n
  | Pipe k =>
      let r := lowest t in
      let t := <[r := ReadEnd n]> t in
      let w := lowest t in
      processes (k (Some (r, w))) (<[w := WriteEnd n]> t) (S n)
  | Fork k =>
      let '(child, n) := processes (k 0) t n in
      let '(parent, n) := processes (k 1) t n in
      (child ++ parent, n)
  | Wait k => let '(ps, n) := processes (k 0) t n in (Waiting t :: ps, n)
  | Chdir _ k => processes (k 0) t n
  | Write _ _ k => processes k t n
  end.

(** What a command asks for. *)
Fixpoint wiring (buf : list Z) (c : cmd) (t : fdtable) (n : nat) : list process * nat :=
  match c with
  | EXEC [] => ([], n)
  | EXEC argv => ([Running ((λ a, cstr buf a.1) <$> argv) t], n)
  | REDIR c file _ mode fd => wiring buf c (<[fd := File (cstr buf file) mode]> t) n
  | LIST l r =>
      let '(ls, n) := wiring buf l t n in
      let '(rs, n) := wiring buf r t n in
      (ls ++ Waiting t :: rs, n)
  | PIPE l r =>
      let '(ls, n') := wiring buf l (<[1 := WriteEnd n]> t) (S n) in
      let '(rs, n') := wiring buf r (<[0 := ReadEnd n]> t) n' in
      (ls ++ rs ++ [Waiting t; Waiting t], n')
  | BACK c => wiring buf c t n
  end.

(** A process that has its standard descriptors open and no others. *)
Definition standard (t : fdtable) : Prop := ∀ fd, is_Some (t !! fd) ↔ 0 <= fd <= 2.

(** The redirections the parser makes are of descriptors 0 and 1. *)
Fixpoint redirs_ok (c : cmd) : Prop :=
  match c with
  | EXEC _ => True
  | REDIR c _ _ _ fd => 0 <= fd <= 2 ∧ redirs_ok c
  | LIST l r | PIPE l r => redirs_ok l ∧ redirs_ok r
  | BACK c => redirs_ok c
  end.

Lemma standard_insert t fd d : standard t → 0 <= fd <= 2 → standard (<[fd := d]> t).
Proof.
  intros H Hfd fd'. rewrite lookup_insert. case_decide as E; [subst; split; [done|eauto]|]. apply H.
Qed.

Lemma standard_lookup t fd : standard t → 0 <= fd <= 2 → ∃ d, t !! fd = Some d.
Proof. intros H Hfd. apply H in Hfd as [d Hd]. by exists d. Qed.

Lemma standard_none t fd : standard t → ¬ (0 <= fd <= 2) → t !! fd = None.
Proof. intros H Hfd. destruct (t !! fd) eqn:E; [|done]. destruct Hfd. apply H. by exists d. Qed.

(** The descriptor that was closed is the one that is opened. *)
Lemma lowest_delete t fd : standard t → 0 <= fd <= 2 → lowest (delete fd t) = fd.
Proof.
  intros H Hfd. unfold lowest. destruct (standard_lookup t 0 H ltac:(lia)) as [d0 H0]. destruct (standard_lookup t 1 H ltac:(lia)) as [d1 H1].
  cbn [fdalloc]. change (0 + 1) with 1. change (1 + 1) with 2. rewrite !lookup_delete, H0, H1.
  assert (fd = 0 ∨ fd = 1 ∨ fd = 2) as [-> | [-> | ->]] by lia; done.
Qed.

Lemma lowest_3 t : standard t → lowest t = 3.
Proof.
  intros H. unfold lowest. destruct (standard_lookup t 0 H ltac:(lia)) as [d0 H0]. destruct (standard_lookup t 1 H ltac:(lia)) as [d1 H1].
  destruct (standard_lookup t 2 H ltac:(lia)) as [d2 H2]. pose proof (standard_none t 3 H ltac:(lia)) as H3.
  cbn [fdalloc]. change (0 + 1) with 1. change (1 + 1) with 2. change (2 + 1) with 3. by rewrite H0, H1, H2, H3.
Qed.

Lemma lowest_4 t d : standard t → lowest (<[3 := d]> t) = 4.
Proof.
  intros H. unfold lowest. destruct (standard_lookup t 0 H ltac:(lia)) as [d0 H0]. destruct (standard_lookup t 1 H ltac:(lia)) as [d1 H1].
  destruct (standard_lookup t 2 H ltac:(lia)) as [d2 H2]. pose proof (standard_none t 4 H ltac:(lia)) as H4.
  cbn [fdalloc]. change (0 + 1) with 1. change (1 + 1) with 2. change (2 + 1) with 3. change (3 + 1) with 4.
  rewrite !lookup_insert, H0, H1, H2, H4. done.
Qed.

(** The table of a child of a pipeline, and of the shell, after the pipe is closed. *)
Lemma plumbed t n fd d : standard t → 0 <= fd <= 2 →
  delete 4 (delete 3 (<[fd := d]> (<[4 := WriteEnd n]> (<[3 := ReadEnd n]> t)))) = <[fd := d]> t.
Proof.
  intros H Hfd. apply map_eq. intros i. pose proof (standard_none t 3 H ltac:(lia)). pose proof (standard_none t 4 H ltac:(lia)).
  rewrite !lookup_delete, !lookup_insert. repeat case_decide; subst; (done || congruence || lia).
Qed.

Lemma closed t n : standard t → delete 4 (delete 3 (<[4 := WriteEnd n]> (<[3 := ReadEnd n]> t))) = t.
Proof.
  intros H. apply map_eq. intros i. pose proof (standard_none t 3 H ltac:(lia)). pose proof (standard_none t 4 H ltac:(lia)).
  rewrite !lookup_delete, !lookup_insert. repeat case_decide; subst; (done || congruence || lia).
Qed.

(** The system calls do what the command asks for. *)
Lemma runcmd_wiring buf c : ∀ t n, standard t → redirs_ok c → processes (runcmd buf c) t n = wiring buf c t n.
Proof.
  induction c as [argv|c IH f e m fd|l IHl r IHr|l IHl r IHr|c IH]; intros t n Ht Hr; cbn [runcmd wiring redirs_ok] in *.
  - by destruct argv.
  - destruct Hr as [Hfd Hr]. cbn [processes]. rewrite lowest_delete by done. rewrite (proj2 (Z.ltb_ge fd 0)) by lia.
    rewrite insert_delete_eq. apply IH; [by apply standard_insert|done].
  - destruct Hr as [Hl Hr]. unfold fork1. cbn [processes Z.eqb Pos.eqb]. rewrite (lowest_3 t), (lowest_4 t) by done. cbn [processes Z.eqb Pos.eqb].
    rewrite lookup_insert_eq, (lookup_insert_ne _ 4 3), lookup_insert_eq by lia. rewrite !plumbed, closed by (done || lia).
    rewrite IHl by (done || (apply standard_insert; [done|lia])). destruct (wiring buf l _ _) as [ls n1].
    rewrite IHr by (done || (apply standard_insert; [done|lia])). by destruct (wiring buf r _ _) as [rs n2].
  - destruct Hr as [Hl Hr]. unfold fork1. cbn [processes Z.eqb Pos.eqb]. rewrite IHl by done. destruct (wiring buf l t n) as [ls n1].
    rewrite IHr by done. by destruct (wiring buf r t n1) as [rs n2].
  - unfold fork1. cbn [processes Z.eqb Pos.eqb]. rewrite IH by done. destruct (wiring buf c t n) as [ps n1]. by rewrite app_nil_r.
Qed.

(** ** Commands that come from the parser *)

Definition good {A} (P : A → Prop) (r : presult A) : Prop := match r with POk a _ => P a | _ => True end.

Lemma good_bind {A B} (P : A → Prop) (Q : B → Prop) r (f : A → nat → presult B) :
  good P r → (∀ a s, P a → good Q (f a s)) → good Q (pbind r f).
Proof. destruct r; cbn; auto. Qed.

Lemma redir_ok tok c q eq : redirs_ok c → redirs_ok (redir tok c q eq).
Proof. unfold redir. destruct (_ =? _); cbn; intros; split; (done || lia). Qed.

Lemma add_arg_ok c a : redirs_ok c → redirs_ok (add_arg c a).
Proof. induction c; cbn; intuition. Qed.

Lemma parseredirs_ok b fuel : ∀ c s, redirs_ok c → good redirs_ok (parseredirs fuel b c s).
Proof.
  induction fuel as [|fuel IH]; intros c s Hc; cbn [parseredirs]; destruct (peek _ _ _) as [[|] s1]; try done.
  destruct (gettoken b s1) as [[[tok ?] ?] s2]. destruct (gettoken b s2) as [[[t q] e] s3]. destruct (negb _); [done|]. by apply IH, redir_ok.
Qed.

Lemma parseargs_ok b fuel : ∀ c argc s, redirs_ok c → good redirs_ok (parseargs fuel b c argc s).
Proof.
  induction fuel as [|fuel IH]; intros c argc s Hc; cbn [parseargs]; destruct (peek _ _ _) as [[|] s1]; try done;
    destruct (gettoken b s1) as [[[tok q] e] s2]; (destruct (_ =? 0); [done|]); (destruct (negb _); [done|]); (destruct (_ <=? _)%nat; [done|]); [done|].
  eapply good_bind; [apply parseredirs_ok, add_arg_ok, Hc|]. intros. by apply IH.
Qed.

Lemma parsebacks_ok b fuel : ∀ c s, redirs_ok c → good redirs_ok (parsebacks fuel b c s).
Proof.
  induction fuel as [|fuel IH]; intros c s Hc; cbn [parsebacks]; destruct (peek _ _ _) as [[|] s1]; try done.
  destruct (gettoken b s1) as [[[tok q] e] s2]. by apply IH.
Qed.

Lemma parse_ok b fuel : ∀ s, good redirs_ok (parseline fuel b s) ∧ good redirs_ok (parsepipe fuel b s) ∧
  good redirs_ok (parseexec fuel b s) ∧ good redirs_ok (parseblock fuel b s).
Proof.
  induction fuel as [|fuel IH]; intros s; [done|]. destruct (IH s) as (_ & Hp & He & _). split_and!.
  - cbn [parseline]. eapply good_bind; [exact Hp|]. intros c s1 Hc. eapply good_bind; [by apply parsebacks_ok|]. intros c1 s2 Hc1.
    destruct (peek _ _ _) as [[|] s3]; [|done]. destruct (gettoken b s3) as [[[? ?] ?] s4]. eapply good_bind; [apply IH|]. by intros d s5 Hd.
  - cbn [parsepipe]. eapply good_bind; [exact He|]. intros c s1 Hc.
    destruct (peek _ _ _) as [[|] s3]; [|done]. destruct (gettoken b s3) as [[[? ?] ?] s4]. eapply good_bind; [apply IH|]. by intros d s5 Hd.
  - cbn [parseexec]. destruct (peek _ _ _) as [[|] s1]; [apply IH|]. eapply good_bind; [by apply parseredirs_ok|]. intros. by apply parseargs_ok.
  - cbn [parseblock]. destruct (peek _ _ _) as [[|] s1]; cbn [negb]; [|done]. destruct (gettoken b s1) as [[[? ?] ?] s2]. eapply good_bind; [apply IH|].
    intros c s3 Hc. destruct (peek _ _ _) as [[|] s4]; cbn [negb]; [|done]. destruct (gettoken b s4) as [[[? ?] ?] s5]. by apply parseredirs_ok.
Qed.

Lemma parsecmd_ok b c buf s : parsecmd b = POk (c, buf) s → redirs_ok c.
Proof.
  unfold parsecmd. destruct (parse_ok b (4 * length b + 4) 0) as [H _]. destruct (parseline _ b 0) as [c' s'| |]; cbn [pbind good] in *; [|done..].
  destruct (peek _ _ _) as [f s1]. destruct (negb _); [done|]. by intros [= -> _ _].
Qed.

Definition table (p : process) : fdtable := match p with Running _ t | Waiting t => t end.

(** The descriptors of every process are its standard ones. *)
Lemma wiring_standard buf c : ∀ t n, standard t → redirs_ok c → Forall (λ p, standard (table p)) (wiring buf c t n).1.
Proof.
  induction c as [argv|c IH f e m fd|l IHl r IHr|l IHl r IHr|c IH]; intros t n Ht Hr; cbn [wiring redirs_ok] in *.
  - destruct argv; cbn [fst]; [constructor|]. by constructor.
  - destruct Hr. apply IH; [by apply standard_insert|done].
  - destruct Hr as [Hl Hr]. specialize (IHl (<[1 := WriteEnd n]> t) (S n) ltac:(apply standard_insert; [done|lia]) Hl). destruct (wiring buf l _ _) as [ls n1].
    specialize (IHr (<[0 := ReadEnd n]> t) n1 ltac:(apply standard_insert; [done|lia]) Hr). destruct (wiring buf r _ _) as [rs n2].
    cbn [fst] in *. rewrite !Forall_app. split_and!; [done..|]. by do 2 (apply Forall_cons; split; [done|]).
  - destruct Hr as [Hl Hr]. specialize (IHl t n Ht Hl). destruct (wiring buf l t n) as [ls n1]. specialize (IHr t n1 Ht Hr). destruct (wiring buf r t n1) as [rs n2].
    cbn [fst] in *. rewrite Forall_app, Forall_cons. done.
  - by apply IH.
Qed.


(** ** Example: [a|b] *)

Definition demo_table : fdtable := <[0 := Inherited 0]> (<[1 := Inherited 1]> {[2 := Inherited 2]}).

Lemma demo_standard : standard demo_table.
Proof.
  intros fd. unfold demo_table. rewrite !lookup_insert, lookup_singleton.
  destruct (decide (0 = fd)), (decide (1 = fd)), (decide (2 = fd)); split; intros H; (lia || (by eexists) || (by destruct H)).
Qed.

