(* ===== verification/Mkfs.v ===== *)
(** * The program that makes the disk image (src/mkfs.c)

    [mkfs] runs on the host and writes the image the kernel starts from: the
    superblock, an empty log, the inodes, the free map and the files.  The state is
    the image file, as blocks, and the counters [freeinode] and [freeblock].  The
    host is a little-endian machine; its files are given by [host], which has the
    contents of the file a path names, if it can be opened.  An assertion that
    fails and [exit(1)] are [panic].  Writes to the image succeed. *)

From S2P Require Import Prelude Mem CString State Disk Bio Log Fs Dir.

Record image := mkImage { im_size : Z; im_blocks : gmap Z (list Z); freeinode : Z; freeblock : Z }.
Abbreviation IM := (M image).

Definition im_block (s : image) (b : Z) : list Z := default zero_block (im_blocks s !! b).

(** ** Constants *)

Definition NINODES : Z := 200.
Definition nbitmap : Z := FSSIZE / (BSIZE * 8) + 1.
Definition ninodeblocks : Z := NINODES / IPB + 1.
Definition nlog : Z := LOGSIZE.
Definition nmeta : Z := 2 + nlog + ninodeblocks + nbitmap.

(** The word whose bytes in memory are those of [x], low byte first. *)
Definition xshort (x : Z) : Z := get16 [u8 x; u8 (Z.shiftr x 8)] 0.
Definition xint (x : Z) : Z := get32 [u8 x; u8 (Z.shiftr x 8); u8 (Z.shiftr x 16); u8 (Z.shiftr x 24)] 0.

Definition sb : superblock :=
  mkSuperblock (xint FSSIZE) (xint (FSSIZE - nmeta)) (xint NINODES) (xint nlog) (xint 2) (xint (2 + nlog))
    (xint (2 + nlog + ninodeblocks)).

(** [memmove(buf, &sb, sizeof(sb))] *)
Definition sb_bytes (d : superblock) : list Z :=
  concat (bytes_of_u32 <$> [sb_size d; sb_nblocks d; sb_ninodes d; sb_nlog d; sb_logstart d; sb_inodestart d; sb_bmapstart d]).

(** ** Sectors and inodes *)

(** Writing past the end extends the file; reading there fails. *)
Definition wsect (sec : Z) (buf : list Z) : IM unit :=
  modify (λ s, mkImage (Z.max (im_size s) (sec + 1)) (<[sec := buf]> (im_blocks s)) (freeinode s) (freeblock s)).

Definition rsect (sec : Z) : IM (list Z) :=
  s <- get ;; if sec <? im_size s then ret (im_block s sec) else panic "read".

Definition winode (inum : Z) (d : dinode) : IM unit :=
  let bn := IBLOCK inum sb in
  buf <- rsect bn ;; wsect bn (put_dinode buf (dinode_off inum) d).

Definition rinode (inum : Z) : IM dinode :=
  buf <- rsect (IBLOCK inum sb) ;; ret (get_dinode buf (dinode_off inum)).

Definition ialloc (type : Z) : IM Z :=
  inum <- gets freeinode ;;
  modify (λ s, mkImage (im_size s) (im_blocks s) (u32 (inum + 1)) (freeblock s)) ;;;
  winode inum (mkDinode (xshort type) 0 0 (xshort 1) (xint 0) (replicate 13 0)) ;;;
  ret inum.

(** [freeblock++] *)
Definition next_block : IM Z :=
  b <- gets freeblock ;;
  modify (λ s, mkImage (im_size s) (im_blocks s) (freeinode s) (u32 (b + 1))) ;;;
  ret b.

(** The bits of the blocks below [used]. *)
Fixpoint used_bits (used : nat) : list Z :=
  match used with O => zero_block | S i => set_bit (used_bits i) i end.

Definition balloc (used : Z) : IM unit :=
  if negb (used <? BSIZE * 8) then panic "used < BSIZE*8"
  else wsect (sb_bmapstart sb) (used_bits (Z.to_nat used)).

(** ** Files *)

Definition set_di_addrs (a : list Z) (d : dinode) : dinode :=
  mkDinode (di_type d) (di_major d) (di_minor d) (di_nlink d) (di_size d) a.
Definition set_di_size (n : Z) (d : dinode) : dinode :=
  mkDinode (di_type d) (di_major d) (di_minor d) (di_nlink d) n (di_addrs d).

(** The entry [i] of [din.addrs], set to a new block if it is 0. *)
Definition addr_block (din : dinode) (i : nat) : IM dinode :=
  if xint (di_addrs din !!! i) =? 0 then b <- next_block ;; ret (set_di_addrs (<[i := xint b]> (di_addrs din)) din)
  else ret din.

(** The block [x] with the number [fbn] in the file. *)
Definition data_block (din : dinode) (fbn : Z) : IM (dinode * Z) :=
  if fbn <? NDIRECT then
    din <- addr_block din (Z.to_nat fbn) ;; ret (din, xint (di_addrs din !!! Z.to_nat fbn))
  else
    din <- addr_block din (Z.to_nat NDIRECT) ;;
    let a := xint (di_addrs din !!! Z.to_nat NDIRECT) in
    let i := (4 * Z.to_nat (fbn - NDIRECT))%nat in
    indirect <- rsect a ;;
    if get32 indirect i =? 0 then
      b <- next_block ;;
      let indirect := put32 indirect i (xint b) in
      wsect a indirect ;;;
      ret (din, xint (get32 indirect i))
    else ret (din, xint (get32 indirect i)).

Fixpoint iappend_loop (fuel : nat) (din : dinode) (off : Z) (p : list Z) : IM (dinode * Z) :=
  match p with
  | [] => ret (din, off)
  | _ :: _ =>
      match fuel with
      | O => λ _, Spin
      | S fuel =>
          let fbn := off / BSIZE in
          if negb (fbn <? MAXFILE) then panic "fbn < MAXFILE"
          else
            r <- data_block din fbn ;;
            let (din, x) := r : dinode * Z in
            let n1 := Z.min (length p) ((fbn + 1) * BSIZE - off) in
            buf <- rsect x ;;
            wsect x (splice buf (Z.to_nat (off - fbn * BSIZE)) (take (Z.to_nat n1) p)) ;;;
            iappend_loop fuel din (off + n1) (drop (Z.to_nat n1) p)
      end
  end.

Definition iappend (inum : Z) (p : list Z) : IM unit :=
  din <- rinode inum ;;
  r <- iappend_loop (length p) din (xint (di_size din)) p ;;
  let (din, off) := r : dinode * Z in
  winode inum (set_di_size (xint off) din).

(** ** [main] *)

(** The last part of a path, as POSIX has it. *)
Definition basename (path : list Z) : list Z :=
  match path with
  | [] => [46]
  | _ => match skip_slashes (reverse path) with [] => [slash] | r => reverse (span_elem r).1 end
  end.

(** [while((cc = read(fd, buf, sizeof(buf))) > 0) iappend(inum, buf, cc)] *)
Fixpoint append_file (fuel : nat) (inum : Z) (data : list Z) : IM unit :=
  match data with
  | [] => ret tt
  | _ :: _ =>
      match fuel with
      | O => λ _, Spin
      | S fuel => iappend inum (take BSIZE data) ;;; append_file fuel inum (drop BSIZE data)
      end
  end.

(** [for(i = 0; i < n; i++) wsect(i, zeroes)] *)
Fixpoint zero_sectors (n : nat) : IM unit :=
  match n with O => ret tt | S i => zero_sectors i ;;; wsect i zero_block end.

Definition append_entry (rootino inum : Z) (name : list Z) : IM unit :=
  iappend rootino (dirent_bytes (mkDirent (xshort inum) (dir_name name))).

Section main.
Context (host : list Z → option (list Z)).

Fixpoint add_files (rootino : Z) (paths : list (list Z)) : IM unit :=
  match paths with
  | [] => ret tt
  | path :: paths =>
      match host path with
      | None => panic "open"
      | Some data =>
          inum <- ialloc T_FILE ;;
          append_entry rootino inum (basename path) ;;;
          append_file (length data) inum data ;;;
          add_files rootino paths
      end
  end.

Definition mkfs_main (paths : list (list Z)) : IM unit :=
  modify (λ s, mkImage (im_size s) (im_blocks s) (freeinode s) nmeta) ;;;
  zero_sectors (Z.to_nat FSSIZE) ;;;
  wsect 1 (splice zero_block 0 (sb_bytes sb)) ;;;
  rootino <- ialloc T_DIR ;;
  if negb (rootino =? ROOTINO) then panic "rootino == ROOTINO"
  else
    append_entry rootino rootino [46] ;;;
    append_entry rootino rootino [46; 46] ;;;
    add_files rootino paths ;;;
    din <- rinode rootino ;;
    let off := xint (di_size din) in
    let off := (off / BSIZE + 1) * BSIZE in
    winode rootino (set_di_size (xint off) din) ;;;
    used <- gets freeblock ;;
    balloc used.

(** The image file is empty at the start. *)
Definition mkfs (paths : list (list Z)) : result image unit := mkfs_main paths (mkImage 0 ∅ 1 0).
End main.
