(* ===== verification/MkfsSpec.v ===== *)
(** * The image that [mkfs] makes (src/mkfs.c)

    The image is seen as a block store [V] in which the free map is already the one
    that [balloc] writes at the end: [view].  In this view taking the next block is
    the allocation of FsTx.v, so the invariant [fs_ok] of the file system can be
    followed from the empty image on. *)

From stdpp Require Import functions.
From S2P Require Import Prelude Mem CString State Disk Bio BioSpec Log LogSpec Fs FsTx FsFile FsBmap FsDinode FsWrite FsRw FsInv Dir Mkfs.

Implicit Types (s : image) (V : Z → list Z) (addrs : list Z).

(** ** Words and the layout *)

Lemma xint_id x : is_u32 x → xint x = x.
Proof.
  intros Hx. unfold xint, get32, slice. cbn [drop take]. unfold u32_of_bytes. rewrite !Z.shiftr_div_pow2 by lia.
  unfold u8, is_u32 in *. Z.div_mod_to_equations. lia.
Qed.

Lemma sb_eq : sb = mkSuperblock 1000 941 200 30 2 32 58.
Proof. vm_compute. reflexivity. Qed.

Lemma mkfs_geom : geom sb 1000.
Proof. rewrite sb_eq. split; cbn; vm_compute; intuition congruence. Qed.

Lemma sb_layout : sb_size sb = 1000 ∧ sb_ninodes sb = 200 ∧ sb_inodestart sb = 32 ∧ sb_bmapstart sb = 58 ∧ bmap_block sb = 58.
Proof. rewrite sb_eq. done. Qed.
Ltac layout := destruct sb_layout as (Esz & Eni & Eis & Ebs & Ebm).

Lemma iblock_range inum : 0 <= inum < 208 → IBLOCK inum sb = iblock sb inum ∧ 32 <= iblock sb inum < 58.
Proof.
  layout. intros Hi. unfold IBLOCK, iblock. rewrite Eis. unfold IPB. assert (0 <= inum / 8 < 26) by (Z.div_mod_to_equations; lia).
  split; [|lia]. apply u32_small. unfold is_u32. lia.
Qed.

(** ** The view *)

Record view s V : Prop := {
  vw_size : im_size s = 1000;
  vw_block : ∀ b, b ≠ 58 → V b = im_block s b;
  vw_bits : V 58 = used_bits (Z.to_nat (freeblock s));
  vw_next : 59 <= freeblock s <= 1000;
  vw_zero : ∀ b, freeblock s <= b → V b = zero_block;
  vw_ok : ∀ b, block_ok (V b)
}.

Lemma used_bits_ok n : block_ok (used_bits n).
Proof. induction n; [apply zero_block_ok|by apply set_bit_ok]. Qed.

Lemma used_bits_used n c : (n <= 4096)%nat → (c < 4096)%nat → bit_used (used_bits n) c = bool_decide (c < n)%nat.
Proof.
  intros Hn Hc. induction n as [|n IH]; cbn [used_bits].
  - unfold bit_used, byte_at, zero_block. rewrite lookup_total_replicate_2; [done|].
    unfold BSIZE. apply Nat.Div0.div_lt_upper_bound. lia.
  - rewrite set_bit_used, IH by (done || lia || apply used_bits_ok). repeat case_bool_decide; (done || lia).
Qed.

Lemma view_used s V c : view s V → 0 <= c < 4096 → used sb V c = bool_decide (c < freeblock s).
Proof.
  layout. intros [_ _ Hb ? _ _] Hc. unfold used. rewrite Ebm, Hb, used_bits_used by lia. apply bool_decide_ext. lia.
Qed.

Lemma view_meta s V : view s V → meta_used sb V.
Proof.
  layout. intros Hv b Hb. rewrite (view_used s) by (done || lia). apply bool_decide_true. pose proof (vw_next _ _ Hv). lia.
Qed.

Lemma view_first s V : view s V → freeblock s < 1000 → first_free sb V (freeblock s).
Proof.
  layout. intros Hv Hf. pose proof (vw_next _ _ Hv). split_and!; [lia|lia| |].
  - rewrite (view_used s) by (done || lia). apply bool_decide_false. lia.
  - intros c Hc. rewrite (view_used s) by (done || lia). apply bool_decide_true. lia.
Qed.

(** ** Sectors *)

Lemma rsect_spec s V b : view s V → 0 <= b < 1000 → b ≠ 58 → rsect b s = Ret (V b) s.
Proof.
  intros [Hs Hb _ _ _ _] Hr Hne. unfold rsect. mrun. rewrite Hs, (proj2 (Z.ltb_lt _ _)), Hb by (done || lia). done.
Qed.

(** Two states with the same counters. *)
Definition counters s s' : Prop := freeinode s' = freeinode s ∧ freeblock s' = freeblock s.

Lemma wsect_spec s V b d : view s V → 0 <= b < freeblock s → b ≠ 58 → block_ok d →
  ∃ s', wsect b d s = Ret tt s' ∧ view s' (<[b := d]> V) ∧ counters s s'.
Proof.
  intros [Hs Hb Hm Hn Hz Hok] Hr Hne Hd. eexists. split; [reflexivity|]. split; [|done]. split; cbn [im_size im_blocks freeblock].
  - lia.
  - intros c Hc. unfold im_block. cbn [im_blocks]. destruct (decide (b = c)) as [<-|].
    + by rewrite fn_lookup_insert, lookup_insert_eq.
    + rewrite fn_lookup_insert_ne, lookup_insert_ne by done. by apply Hb.
  - by rewrite fn_lookup_insert_ne.
  - done.
  - intros c Hc. rewrite fn_lookup_insert_ne by lia. by apply Hz.
  - intros c. destruct (decide (b = c)) as [<-|]; [by rewrite fn_lookup_insert|by rewrite fn_lookup_insert_ne].
Qed.

Lemma next_block_spec s V : view s V → freeblock s < 1000 →
  ∃ s', next_block s = Ret (freeblock s) s' ∧ view s' (alloc_block sb (freeblock s) V) ∧
    freeinode s' = freeinode s ∧ freeblock s' = freeblock s + 1.
Proof.
  layout. intros [Hs Hb Hm Hn Hz Hok] Hf. eexists. split; [reflexivity|]. cbn [freeinode freeblock].
  rewrite u32_small by (unfold is_u32; lia). split; [|done]. unfold alloc_block. rewrite Ebm. split; cbn [im_size im_blocks freeblock].
  - done.
  - intros c Hc. destruct (decide (c = freeblock s)) as [->|].
    + rewrite fn_lookup_insert, <- (Hz (freeblock s)), Hb by lia. done.
    + rewrite !fn_lookup_insert_ne by done. by apply Hb.
  - rewrite fn_lookup_insert_ne, fn_lookup_insert, Hm by lia.
    replace (Z.to_nat (freeblock s + 1)) with (S (Z.to_nat (freeblock s))) by lia. done.
  - lia.
  - intros c Hc. rewrite !fn_lookup_insert_ne by lia. apply Hz. lia.
  - intros c. destruct (decide (freeblock s = c)) as [<-|]; [rewrite fn_lookup_insert; apply zero_block_ok|].
    rewrite fn_lookup_insert_ne by done. destruct (decide (58 = c)) as [<-|].
    + rewrite fn_lookup_insert. by apply set_bit_ok.
    + by rewrite fn_lookup_insert_ne.
Qed.

(** ** The block of a file *)

(** There is an indirect block if one is needed. *)
Definition lean addrs (cnt : Z) : Prop := ind addrs = 0 ↔ cnt <= 12.

(** The blocks of a file of [cnt] data blocks. *)
Definition taken (cnt : Z) : Z := cnt + (if 12 <? cnt then 1 else 0).

(** The file has its block [n], which was there or has been taken. *)
Record extended s V addrs cnt n s' V' addrs' : Prop := {
  ex_view : view s' V';
  ex_inode : freeinode s' = freeinode s;
  ex_free : freeblock s' = freeblock s + need addrs cnt n;
  ex_grown : grown sb V addrs cnt V' addrs' (Z.max cnt (n + 1));
  ex_data : ∀ m, 0 <= m < cnt → V' (block_at V addrs m) = V (block_at V addrs m);
  ex_zero : n = cnt → V' (block_at V' addrs' n) = zero_block;
  ex_lean : lean addrs cnt → lean addrs' (Z.max cnt (n + 1))
}.

Lemma data_word b : is_data sb b → is_u32 b ∧ b ≠ 0 ∧ 58 < b < 1000.
Proof. layout. unfold is_data, is_u32. rewrite Ebs, Esz. lia. Qed.

Lemma is_data_xint b : is_data sb b → xint b = b ∧ (b =? 0) = false.
Proof. intros (? & ? & _)%data_word. split; [by apply xint_id|by apply Z.eqb_neq]. Qed.

Lemma data_block_old s V din cnt n : view s V → file_ok sb V (di_addrs din) cnt → 0 <= n < cnt →
  data_block din n s = Ret (din, block_at V (di_addrs din) n) s.
Proof.
  intros Hv Hf Hn. destruct (file_block _ _ _ _ n Hf Hn) as [Hd _]. destruct (is_data_xint _ Hd) as [Hx Hz].
  unfold data_block, addr_block, NDIRECT. destruct (Z.ltb_spec n 12).
  - rewrite block_at_direct in * by done. rewrite Hx, Hz. mrun. by rewrite Hx.
  - pose proof (fo_ind _ _ _ _ Hf ltac:(lia)) as Hi. destruct (file_ind _ _ _ _ Hf Hi) as [Hdi _].
    destruct (is_data_xint _ Hdi) as [Hxi Hzi]. rewrite block_at_ind in * by done. change (di_addrs din !!! Z.to_nat 12) with (ind (di_addrs din)).
    rewrite Hxi, Hzi. mrun. change (di_addrs din !!! Z.to_nat 12) with (ind (di_addrs din)). rewrite Hxi.
    mcall (rsect_spec s V (ind (di_addrs din)) Hv ltac:(apply data_word in Hdi; lia) ltac:(apply data_word in Hdi; lia)).
    by rewrite Hz, Hx.
Qed.

(** The blocks of the file keep their contents when another is taken. *)
Lemma alloc_keeps s V addrs cnt m : view s V → freeblock s < 1000 → file_ok sb V addrs cnt → 0 <= m < cnt →
  alloc_block sb (freeblock s) V (block_at V addrs m) = V (block_at V addrs m).
Proof.
  intros Hv Hfr Hf Hm. destruct (file_block _ _ _ _ m Hf Hm) as [Hd Hu]. destruct (is_data_range sb _ mkfs_geom _ Hd) as [_ ?].
  apply alloc_other; [|done]. intros E. rewrite E in Hu. destruct (view_first _ _ Hv Hfr) as (_ & Hu' & _). congruence.
Qed.

Lemma addr_block_new s V din i : view s V → freeblock s < 1000 → di_addrs din !!! i = 0 →
  ∃ s', addr_block din i s = Ret (set_di_addrs (<[i := freeblock s]> (di_addrs din)) din) s' ∧
    view s' (alloc_block sb (freeblock s) V) ∧ freeinode s' = freeinode s ∧ freeblock s' = freeblock s + 1.
Proof.
  intros Hv Hf Hz. destruct (next_block_spec s V Hv Hf) as (s' & R & ? & ? & ?). exists s'. split_and!; [|done..].
  unfold addr_block. rewrite Hz, xint_id by done. cbn [Z.eqb]. mcall R. rewrite xint_id; [done|].
  pose proof (vw_next _ _ Hv). unfold is_u32. lia.
Qed.

Lemma data_block_direct s V din cnt : let addrs := di_addrs din in
  view s V → freeblock s < 1000 → file_ok sb V addrs cnt → 0 <= cnt < 12 →
  ∃ s' V' addrs', data_block din cnt s = Ret (set_di_addrs addrs' din, block_at V' addrs' cnt) s' ∧ extended s V addrs cnt cnt s' V' addrs'.
Proof.
  intros addrs Hv Hfr Hf Hc. set (b := freeblock s). pose proof (vw_next _ _ Hv). fold b in H, Hfr.
  destruct (addr_block_new s V din (Z.to_nat cnt) Hv Hfr) as (s' & R & Hv' & Hi & Hb').
  { rewrite <- (block_at_direct V) by lia. apply (fo_end _ _ _ _ Hf). lia. }
  fold addrs b in R, Hv'. pose proof (fo_len _ _ _ _ Hf) as Hl.
  assert (<[Z.to_nat cnt := b]> addrs !!! Z.to_nat cnt = b) as Hat by (apply list_lookup_total_insert_eq; lia).
  exists s', (alloc_block sb b V), (<[Z.to_nat cnt := b]> addrs). rewrite block_at_direct, Hat by lia. split.
  - unfold data_block, NDIRECT. rewrite (proj2 (Z.ltb_lt _ _)) by lia. mcall R. cbn [di_addrs set_di_addrs].
    rewrite Hat, xint_id by (unfold is_u32; lia). done.
  - split; [done|done| | | | |].
    + unfold need. rewrite (proj2 (Z.ltb_ge _ _)), (proj2 (Z.leb_gt 12 cnt)) by lia. cbn [andb]. lia.
    + rewrite Z.max_r by lia. apply (grown_direct sb _ mkfs_geom); [done|by eapply view_meta|apply Hv|by apply view_first|lia].
    + intros m Hm. by apply (alloc_keeps s V addrs cnt).
    + intros _. rewrite block_at_direct, Hat by lia. apply alloc_same.
    + unfold lean. assert (ind (<[Z.to_nat cnt := b]> addrs) = ind addrs) as -> by (apply list_lookup_total_insert_ne; lia). lia.
Qed.

(** The second part of [data_block], the indirect block being there. *)
Definition entry_block (din : dinode) (n : Z) : IM (dinode * Z) :=
  let a := xint (ind (di_addrs din)) in
  let i := (4 * Z.to_nat (n - 12))%nat in
  indirect <- rsect a ;;
  if get32 indirect i =? 0 then
    b <- next_block ;;
    let indirect := put32 indirect i (xint b) in
    wsect a indirect ;;;
    ret (din, xint (get32 indirect i))
  else ret (din, xint (get32 indirect i)).

Lemma entry_block_new s V din cnt : let addrs := di_addrs din in
  view s V → freeblock s < 1000 → file_ok sb V addrs cnt → 12 <= cnt < 140 → ind addrs ≠ 0 →
  ∃ s' V', entry_block din cnt s = Ret (din, block_at V' addrs cnt) s' ∧ extended s V addrs cnt cnt s' V' addrs.
Proof.
  intros addrs Hv Hfr Hf Hc Hne. set (b := freeblock s). pose proof (vw_next _ _ Hv) as Hn. fold b in Hn, Hfr.
  destruct (file_ind _ _ _ _ Hf Hne) as [Hdi Hui]. destruct (data_word _ Hdi) as (_ & _ & Hir). destruct (is_data_xint _ Hdi) as [Hx _].
  pose proof (view_first _ _ Hv Hfr) as Hfirst. fold b in Hfirst.
  assert (ind addrs < b) as Hib.
  { rewrite (view_used s) in Hui by (done || lia). by apply bool_decide_eq_true in Hui. }
  destruct (next_block_spec s V Hv Hfr) as (s1 & R1 & Hv1 & Hi1 & Hb1). fold b in R1, Hv1, Hb1.
  set (i := (4 * Z.to_nat (cnt - 12))%nat). set (d := put32 (V (ind addrs)) i b).
  assert (i + 4 <= length (V (ind addrs)))%nat as Hlen by (destruct (vw_ok _ _ Hv (ind addrs)) as [-> _]; unfold i, BSIZE; lia).
  assert (get32 d i = b) as Hget by (unfold d; rewrite get32_put32_same by done; apply u32_small; unfold is_u32; lia).
  assert (get32 (V (ind addrs)) i = 0) as Hzero by (unfold i; rewrite <- block_at_ind by (done || lia); apply (fo_end _ _ _ _ Hf); lia).
  destruct (wsect_spec s1 _ (ind addrs) d Hv1) as (s2 & R2 & Hv2 & Hi2 & Hb2).
  { lia. } { lia. } { apply block_ok_put32; [apply Hv|]. destruct (vw_ok _ _ Hv (ind addrs)) as [E _]. by rewrite E in Hlen. }
  set (V' := <[ind addrs := d]> (alloc_block sb b V)) in *.
  assert (block_at V' addrs cnt = b) as Hat by (rewrite block_at_ind by (done || lia); unfold V'; by rewrite fn_lookup_insert).
  exists s2, V'. rewrite Hat. split.
  - unfold entry_block. fold addrs. rewrite Hx. mcall (rsect_spec s V (ind addrs) Hv ltac:(lia) ltac:(lia)). fold i.
    rewrite Hzero. cbn [Z.eqb]. mcall R1.
    rewrite (xint_id b) by (unfold is_u32; lia). fold d. mcall R2. by rewrite Hget, xint_id by (unfold is_u32; lia).
  - split; [done|congruence| | | | |].
    + rewrite Hb2, Hb1. unfold need. rewrite (proj2 (Z.ltb_ge _ _)), (proj2 (Z.eqb_neq _ _) Hne), andb_false_r by lia. lia.
    + rewrite Z.max_r by lia. apply (grown_indirect sb _ mkfs_geom); [done|by eapply view_meta|apply Hv|done|lia|done].
    + intros m Hm. unfold V'. rewrite fn_lookup_insert_ne by (by apply not_eq_sym, (file_block_not_ind sb V addrs cnt)).
      by apply (alloc_keeps s V addrs cnt).
    + intros _. rewrite Hat. unfold V'. rewrite fn_lookup_insert_ne by lia. apply alloc_same.
    + unfold lean. lia.
Qed.

Lemma extended_trans s V addrs cnt n s1 V1 addrs1 s2 V2 addrs2 :
  grown sb V addrs cnt V1 addrs1 cnt → (∀ m, 0 <= m < cnt → V1 (block_at V addrs m) = V (block_at V addrs m)) →
  freeinode s1 = freeinode s → freeblock s1 + need addrs1 cnt n = freeblock s + need addrs cnt n →
  (lean addrs cnt → lean addrs2 (Z.max cnt (n + 1))) →
  extended s1 V1 addrs1 cnt n s2 V2 addrs2 → extended s V addrs cnt n s2 V2 addrs2.
Proof.
  intros G Hd Hi Hn Hlean [? ? ? G2 Hd2 ? _]. split; [done|congruence|lia|by eapply (grown_trans sb _ mkfs_geom)| |done|done].
  intros m Hm. rewrite <- (gr_old _ _ _ _ _ _ _ G m Hm), Hd2, (gr_old _ _ _ _ _ _ _ G m Hm) by done. by apply Hd.
Qed.

Lemma data_block_indirect s V din cnt : let addrs := di_addrs din in
  view s V → freeblock s + need addrs cnt cnt <= 1000 → file_ok sb V addrs cnt → 12 <= cnt < 140 →
  ∃ s' V' addrs', data_block din cnt s = Ret (set_di_addrs addrs' din, block_at V' addrs' cnt) s' ∧ extended s V addrs cnt cnt s' V' addrs'.
Proof.
  intros addrs Hv Hfr Hf Hc. pose proof (vw_next _ _ Hv). pose proof (fo_len _ _ _ _ Hf) as Hl.
  assert (∀ s, data_block din cnt s = (din <- addr_block din 12 ;; entry_block din cnt) s) as E.
  { intros s'. unfold data_block, NDIRECT. by rewrite (proj2 (Z.ltb_ge cnt 12)) by lia. }
  rewrite E. clear E. unfold need in Hfr. rewrite (proj2 (Z.ltb_ge _ _)), (proj2 (Z.leb_le 12 cnt)) in Hfr by lia. cbn [andb] in Hfr.
  destruct (Z.eqb_spec (ind addrs) 0) as [Hz|Hne].
  - destruct (addr_block_new s V din 12 Hv ltac:(lia) Hz) as (s1 & R1 & Hv1 & Hi1 & Hb1). fold addrs in R1.
    set (b := freeblock s) in *. set (addrs1 := <[12%nat := b]> addrs) in *.
    assert (ind addrs1 = b) as Eb by (apply list_lookup_total_insert_eq; lia).
    pose proof (grown_ind sb _ mkfs_geom V addrs cnt b Hf (view_meta _ _ Hv) (vw_ok _ _ Hv _) (view_first _ _ Hv ltac:(lia)) Hz) as G1.
    destruct (entry_block_new s1 _ (set_di_addrs addrs1 din) cnt Hv1) as (s2 & V2 & R2 & X); cbn [di_addrs set_di_addrs] in *.
    { lia. } { apply G1. } { done. } { lia. }
    exists s2, V2, addrs1. split; [by mcall R1|]. apply (extended_trans s V addrs cnt cnt s1 (alloc_block sb b V) addrs1); try done.
    + intros m Hm. by apply (alloc_keeps s V addrs cnt m Hv ltac:(lia)).
    + unfold need. rewrite (proj2 (Z.ltb_ge _ _)), (proj2 (Z.leb_le 12 cnt)), Hz, Eb, (proj2 (Z.eqb_neq b 0)) by lia. cbn [andb Z.eqb]. lia.
    + unfold lean. lia.
  - destruct (file_ind _ _ _ _ Hf Hne) as [Hdi _]. destruct (is_data_xint _ Hdi) as [Hx Hxz].
    destruct (entry_block_new s V din cnt Hv ltac:(lia) Hf Hc Hne) as (s1 & V1 & R1 & X1).
    exists s1, V1, addrs. split; [|done]. unfold addr_block. change (di_addrs din !!! 12%nat) with (ind addrs). rewrite Hx, Hxz. mrun.
    rewrite R1. by destruct din.
Qed.

Lemma data_block_spec s V din cnt n : let addrs := di_addrs din in
  view s V → freeblock s + need addrs cnt n <= 1000 → file_ok sb V addrs cnt → 0 <= n <= cnt → n < 140 →
  ∃ s' V' addrs', data_block din n s = Ret (set_di_addrs addrs' din, block_at V' addrs' n) s' ∧ extended s V addrs cnt n s' V' addrs'.
Proof.
  intros addrs Hv Hfr Hf Hn Hn'. destruct (decide (n = cnt)) as [->|Hne].
  - destruct (decide (cnt < 12)).
    + apply data_block_direct; [done| |done|lia]. unfold need in Hfr. rewrite (proj2 (Z.ltb_ge _ _)), (proj2 (Z.leb_gt 12 cnt)) in Hfr by lia.
      cbn [andb] in Hfr. lia.
    + apply data_block_indirect; [done|done|done|lia].
  - exists s, V, addrs. split; [rewrite (data_block_old s V din cnt) by (done || lia); by destruct din|].
    split; [done|done| | |done|lia|by rewrite Z.max_l by lia].
    + unfold need. rewrite (proj2 (Z.ltb_lt _ _)) by lia. lia.
    + rewrite Z.max_l by lia. apply grown_refl; [done|by eapply view_meta].
Qed.

Lemma need_taken addrs cnt n : lean addrs cnt → 0 <= n <= cnt → need addrs cnt n = taken (Z.max cnt (n + 1)) - taken cnt :> Z.
Proof.
  unfold lean, need, taken. intros Hl Hn. destruct (Z.eqb_spec (ind addrs) 0), (Z.leb_spec 12 n), (Z.ltb_spec n cnt),
    (Z.ltb_spec 12 cnt), (Z.ltb_spec 12 (Z.max cnt (n + 1))); cbn [andb]; lia.
Qed.

(** ** [iappend] *)

(** The bytes [p] have been put at [off] of the file, which had [cnt] blocks. *)
Record appended s V addrs cnt off p s' V' addrs' cnt' : Prop := {
  ap_view : view s' V';
  ap_inode : freeinode s' = freeinode s;
  ap_free : freeblock s' = freeblock s + taken cnt' - taken cnt;
  ap_grown : grown sb V addrs cnt V' addrs' cnt';
  ap_bytes : overwritten V addrs cnt V' addrs' cnt' off p;
  ap_lean : lean addrs' cnt'
}.

Lemma appended_refl s V addrs cnt off : view s V → file_ok sb V addrs cnt → lean addrs cnt → appended s V addrs cnt off [] s V addrs cnt.
Proof.
  intros Hv Hf Hl. split; [done|done|lia|apply grown_refl; [done|by eapply view_meta]| |done].
  intros i Hi. rewrite decide_False by (cbn; lia). by rewrite decide_True by lia.
Qed.

Lemma overwritten_trans V addrs cnt off (m : nat) p V1 addrs1 cnt1 V2 addrs2 cnt2 :
  (m <= length p)%nat → 0 <= off → off + m <= cnt1 * 512 → cnt <= cnt1 →
  overwritten V addrs cnt V1 addrs1 cnt1 off (take m p) → overwritten V1 addrs1 cnt1 V2 addrs2 cnt2 (off + m) (drop m p) →
  overwritten V addrs cnt V2 addrs2 cnt2 off p.
Proof.
  intros Hm Hoff Hin Hc B1 B2 i Hi. rewrite B2 by done. rewrite length_drop.
  destruct (decide (off + m <= i < off + m + (length p - m)%nat)).
  - rewrite decide_True by lia. rewrite lookup_total_drop. f_equal. lia.
  - destruct (decide (i < cnt1 * 512)) as [Hi1|Hi1]; [|by rewrite !decide_False by lia].
    rewrite B1 by lia. rewrite length_take, Nat.min_l by lia. destruct (decide (off <= i < off + m)).
    + rewrite decide_True by lia. apply lookup_total_take_lt. lia.
    + by rewrite (decide_False (P := off <= i < off + length p)) by lia.
Qed.

(** One turn of the loop. *)
Lemma iappend_turn fuel s V din cnt off p : let addrs := di_addrs din in
  view s V → file_ok sb V addrs cnt → lean addrs cnt → 0 <= off <= cnt * 512 → off < 140 * 512 → p ≠ [] → Forall is_byte p →
  let cnt1 := Z.max cnt (off / 512 + 1) in let m := Z.min (length p) (512 - off mod 512) in
  freeblock s + taken cnt1 - taken cnt <= 1000 →
  ∃ s' V' addrs', iappend_loop (S fuel) din off p s = iappend_loop fuel (set_di_addrs addrs' din) (off + m) (drop (Z.to_nat m) p) s' ∧
    appended s V addrs cnt off (take (Z.to_nat m) p) s' V' addrs' cnt1.
Proof.
  intros addrs Hv Hf Hl Hoff Hmax Hp Hb cnt1 m Hfree. destruct (block_off off) as [Eo Ho].
  assert (0 < length p) as Hlen by (destruct p; [done|cbn; lia]). set (n := off / 512) in *. set (r := off mod 512) in *.
  assert (0 <= n <= cnt ∧ n < 140) as [Hn Hn'] by lia. pose proof (need_taken addrs cnt n Hl Hn) as Hneed. fold cnt1 in Hneed.
  destruct (data_block_spec s V din cnt n Hv) as (s1 & V1 & addrs1 & R1 & X1); [fold addrs; lia|done|lia|lia|].
  destruct X1 as [Hv1 Hi1 Hf1 G1 Hd1 Hz1 Hl1]. fold addrs cnt1 in G1, Hd1, Hf1, Hl1. set (b := block_at V1 addrs1 n) in *.
  destruct (file_block _ _ _ _ n (gr_ok _ _ _ _ _ _ _ G1)) as [Hdata Hused]; [lia|]. fold b in Hdata, Hused.
  destruct (data_word _ Hdata) as (_ & _ & Hbr).
  assert (b < freeblock s1) as Hbf by (rewrite (view_used s1) in Hused by (done || lia); by apply bool_decide_eq_true in Hused).
  set (chunk := take (Z.to_nat m) p). assert (length chunk = Z.to_nat m) as Hch by (unfold chunk; rewrite length_take; lia).
  destruct (wsect_spec s1 V1 b (splice (V1 b) (Z.to_nat r) chunk) Hv1) as (s2 & R2 & Hv2 & Hi2 & Hf2); [lia|lia| |].
  { apply splice_ok; [apply Hv1|by apply Forall_take|lia]. }
  exists s2, (<[b := splice (V1 b) (Z.to_nat r) chunk]> V1), addrs1. split.
  - destruct p as [|c p]; [done|]. cbn [iappend_loop]. change (off / BSIZE) with n. unfold MAXFILE, NDIRECT, NINDIRECT.
    rewrite (proj2 (Z.ltb_lt n _)) by lia. cbn [negb]. mcall R1. fold b. mcall (rsect_spec s1 V1 b Hv1 ltac:(lia) ltac:(lia)).
    change (Z.of_nat BSIZE) with 512. replace ((n + 1) * 512 - off) with (512 - r) by lia. fold m chunk.
    replace (off - n * 512) with r by lia. by mcall R2.
  - split; [done|congruence|lia| | |by apply Hl1].
    + eapply (grown_trans sb _ mkfs_geom); [exact G1|].
      by apply (grown_write sb 1000 V1 addrs1 cnt1 n _ mkfs_geom (gr_ok _ _ _ _ _ _ _ G1) (gr_meta _ _ _ _ _ _ _ G1) ltac:(lia)).
    + rewrite Eo. apply (overwritten_block sb 1000 V addrs cnt n V1 addrs1 r chunk mkfs_geom); try done; [apply Hv1|lia|lia].
Qed.

Lemma taken_mono c c' : c <= c' → taken c <= taken c'.
Proof. unfold taken. intros. destruct (Z.ltb_spec 12 c), (Z.ltb_spec 12 c'); lia. Qed.

Lemma iappend_loop_spec fuel : ∀ s V din cnt off p, let addrs := di_addrs din in
  view s V → file_ok sb V addrs cnt → lean addrs cnt → 0 <= off <= cnt * 512 → off + length p <= 140 * 512 →
  Forall is_byte p → (length p <= fuel)%nat →
  let cnt' := Z.max cnt (nblocks (off + length p)) in
  freeblock s + taken cnt' - taken cnt <= 1000 →
  ∃ s' V' addrs', iappend_loop fuel din off p s = Ret (set_di_addrs addrs' din, off + length p) s' ∧
    appended s V addrs cnt off p s' V' addrs' cnt'.
Proof.
  induction fuel as [|fuel IH]; intros s V din cnt off p addrs Hv Hf Hl Hoff Hmax Hb Hfuel cnt' Hfree.
  all: destruct (decide (p = [])) as [->|Hne].
  1,3: (exists s, V, addrs; unfold cnt'; cbn [length] in *; rewrite Z.add_0_r in *; split; [by destruct din|];
    rewrite Z.max_l by (pose proof (nblocks_bound off); lia); by apply appended_refl).
  { destruct p; [done|cbn in Hfuel; lia]. }
  destruct (turn_end off p ltac:(lia) Hne) as (Hm0 & _ & Hn & Hend & _).
  set (m := Z.min (length p) (512 - off mod 512)) in *. set (cnt1 := Z.max cnt (off / 512 + 1)).
  assert (0 < length p) by (destruct p; [done|cbn; lia]). pose proof (taken_mono cnt1 cnt' ltac:(lia)) as Hmono.
  destruct (iappend_turn fuel s V din cnt off p Hv Hf Hl Hoff) as (s1 & V1 & addrs1 & R1 & A1); [lia|done|done|fold cnt1; lia|].
  fold m addrs cnt1 in R1, A1. destruct A1 as [Hv1 Hi1 Hf1 G1 B1 Hl1].
  assert (length (drop (Z.to_nat m) p) = Z.to_nat (length p - m)) as Hld by (rewrite length_drop; lia).
  assert (off + m + length (drop (Z.to_nat m) p) = off + length p) as Hsum by lia.
  assert (Z.max cnt1 (nblocks (off + length p)) = cnt') as Hc1 by lia.
  destruct (IH s1 V1 (set_di_addrs addrs1 din) cnt1 (off + m) (drop (Z.to_nat m) p)) as (s2 & V2 & addrs2 & R2 & A2);
    cbn [di_addrs set_di_addrs]; rewrite ?Hsum, ?Hc1 in *; [done|apply G1|done|lia|done|by apply Forall_drop|lia|lia|].
  cbn [di_addrs set_di_addrs] in A2. destruct A2 as [Hv2 Hi2 Hf2 G2 B2 Hl2].
  exists s2, V2, addrs2. split; [by rewrite R1, R2|]. split; [done|congruence|lia|by eapply (grown_trans sb _ mkfs_geom)| |done].
  apply (overwritten_trans V addrs cnt off (Z.to_nat m) p V1 addrs1 cnt1); rewrite ?Z2Nat.id by lia; first [done | lia].
Qed.

(** ** Inodes *)

Lemma grown_inodes V addrs cnt V1 addrs1 cnt1 j : grown sb V addrs cnt V1 addrs1 cnt1 → 0 <= j < 208 → stored sb V1 j = stored sb V j.
Proof.
  layout. intros G Hj. destruct (iblock_range j Hj) as [_ Hr]. unfold stored. rewrite (gr_frame _ _ _ _ _ _ _ G); [done| |lia].
  intros Hin. destruct (file_elem_data _ _ _ _ _ (gr_ok _ _ _ _ _ _ _ G) Hin) as [Hd _]. apply data_word in Hd. lia.
Qed.

(** The file of the inode [inum] has grown, and its inode is stored. *)
Section store.
Context V V1 (inum : Z) (d' : dinode).
Hypotheses (Hok : fs_ok sb V) (Hlive : live sb V inum) (Hblocks : ∀ b, block_ok (V1 b)).
Abbreviation d := (stored sb V inum).
Hypotheses (Hgrown : grown sb V (di_addrs d) (dinode_cnt d) V1 (di_addrs d') (dinode_cnt d'))
  (Htype : di_type d' ≠ 0) (Hd' : dinode_ok d') (Hsize : 0 <= di_size d' <= 140 * 512).
Abbreviation V' := (store_inode sb inum d' V1).

Lemma stored_new : stored sb V' inum = d'.
Proof using Hblocks Hd'. by apply stored_same. Qed.

Lemma stored_old j : 0 <= j < 208 → j ≠ inum → stored sb V' j = stored sb V j.
Proof using Hblocks Hgrown. intros Hj Hne. rewrite stored_other by done. by eapply grown_inodes. Qed.

Lemma live_range j : live sb V j → 0 <= j < 200.
Proof using Type. layout. intros [Hj _]. lia. Qed.

Lemma store_live j : live sb V' j ↔ live sb V j.
Proof using Hblocks Hgrown Htype Hd' Hlive. clear Hsize.
  layout. unfold live. destruct (decide (j = inum)) as [->|Hne].
  - rewrite stored_new. destruct Hlive. tauto.
  - split; intros [Hj Ht]; (split; [done|]); rewrite stored_old in * by (done || lia); done.
Qed.

Lemma store_data : same_data sb V1 V'.
Proof using Hlive. layout. apply store_inode_same_data. pose proof (live_range _ Hlive). destruct (iblock_range inum); lia. Qed.

Lemma store_kept j : live sb V j → j ≠ inum → let a := di_addrs (stored sb V j) in let c := dinode_cnt (stored sb V j) in
  file_ok sb V' a c ∧ blocks V' a c = blocks V a c ∧ apart_from V' (di_addrs d') (dinode_cnt d') a c ∧
  ∀ i, 0 <= i < c * 512 → fbyte V' a i = fbyte V a i.
Proof using Hok Hlive Hgrown.
  intros Hj Hne a c. destruct (fk_file _ _ Hok j Hj) as (Hf & _).
  destruct (grown_other sb _ mkfs_geom _ _ _ _ _ _ a c Hgrown Hf) as (Hf1 & Hap & Hby & Hbl); [by apply (fk_apart _ _ Hok)|].
  pose proof store_data as Hs. pose proof (λ n, same_data_block sb _ mkfs_geom V1 V' a c n Hs Hf1) as Hat.
  pose proof (λ n, same_data_block sb _ mkfs_geom V1 V' _ _ n Hs (gr_ok _ _ _ _ _ _ _ Hgrown)) as Hat'.
  assert (∀ a c, (∀ n, block_at V' a n = block_at V1 a n) → blocks V' a c = blocks V1 a c) as Heq.
  { intros a' c' E. unfold blocks. f_equal. apply list_fmap_ext. intros ? n _. apply E. }
  split_and!; [by eapply (same_data_ok sb _ mkfs_geom)|by rewrite Heq| |].
  - intros b. rewrite !Heq by done. apply Hap.
  - intros i Hi. rewrite (same_data_bytes sb _ mkfs_geom V1 V' a c) by done. by apply Hby.
Qed.

Lemma store_fs : fs_ok sb V'.
Proof using Hok Hlive Hblocks Hgrown Htype Hd' Hsize.
  split.
  - intros j Hj%store_live dj. unfold dj. destruct (decide (j = inum)) as [->|Hne].
    + rewrite stored_new. split_and!; [|lia|lia|done]. eapply (same_data_ok sb _ mkfs_geom); [exact store_data|apply Hgrown].
    + rewrite stored_old by (done || pose proof (live_range _ Hj); lia). destruct (fk_file _ _ Hok j Hj) as (_ & ? & ?).
      split_and!; [by apply store_kept|lia|lia|done].
  - intros i j Hi%store_live Hj%store_live Hne di dj. pose proof (live_range _ Hi). pose proof (live_range _ Hj). unfold di, dj.
    destruct (decide (i = inum)) as [->|Hni], (decide (j = inum)) as [->|Hnj].
    + done.
    + rewrite stored_new, stored_old by (done || lia). by apply store_kept.
    + rewrite stored_new, stored_old by (done || lia). intros b H1 H2. destruct (store_kept i Hi Hni) as (_ & _ & Hap & _). by apply (Hap b).
    + rewrite !stored_old by (done || lia). intros b. destruct (store_kept i Hi Hni) as (_ & -> & _), (store_kept j Hj Hnj) as (_ & -> & _).
      by apply (fk_apart _ _ Hok).
  - intros b Hb. rewrite (same_data_used sb V1) by exact store_data. by apply (gr_meta _ _ _ _ _ _ _ Hgrown).
Qed.

Lemma store_on_disk j : live sb V j → j ≠ inum → on_disk sb V' j = on_disk sb V j.
Proof using Hok Hlive Hblocks Hgrown.
  intros Hj Hne. pose proof (live_range _ Hj). unfold on_disk. rewrite stored_old by (done || lia). apply fbytes_ext. intros i Hi.
  apply store_kept; [done|done|]. pose proof (nblocks_bound (di_size (stored sb V j))). unfold dinode_cnt. lia.
Qed.

Lemma store_bytes i : 0 <= i < dinode_cnt d' * 512 → fbyte V' (di_addrs d') i = fbyte V1 (di_addrs d') i.
Proof using Hlive Hgrown. intros Hi. eapply (same_data_bytes sb _ mkfs_geom); [exact store_data|apply Hgrown|done]. Qed.
End store.

Lemma rinode_spec s V inum : view s V → 0 <= inum < 208 → rinode inum s = Ret (stored sb V inum) s.
Proof.
  intros Hv Hi. destruct (iblock_range inum Hi) as [E Hr]. unfold rinode. rewrite E.
  by mcall (rsect_spec s V (iblock sb inum) Hv ltac:(lia) ltac:(lia)).
Qed.

Lemma winode_spec s V inum d : view s V → 0 <= inum < 208 →
  ∃ s', winode inum d s = Ret tt s' ∧ view s' (store_inode sb inum d V) ∧ counters s s'.
Proof.
  intros Hv Hi. destruct (iblock_range inum Hi) as [E Hr]. pose proof (vw_next _ _ Hv).
  destruct (wsect_spec s V (iblock sb inum) (put_dinode (V (iblock sb inum)) (dinode_off inum) d) Hv) as (s' & R & Hv' & Hc); [lia|lia| |].
  { apply put_dinode_ok; [apply Hv|apply dinode_off_bound]. }
  exists s'. split; [|done]. unfold winode. rewrite E. by mcall (rsect_spec s V (iblock sb inum) Hv ltac:(lia) ltac:(lia)).
Qed.

(** ** The file system under construction *)

Record built s V : Prop := {
  bt_view : view s V;
  bt_fs : fs_ok sb V;
  bt_next : 1 <= freeinode s <= 200;
  bt_live : ∀ j, live sb V j ↔ 1 <= j < freeinode s;
  bt_lean : ∀ j, live sb V j → lean (di_addrs (stored sb V j)) (dinode_cnt (stored sb V j));
  bt_slack : ∀ j, live sb V j → let d := stored sb V j in
    ∀ i, di_size d <= i < dinode_cnt d * 512 → fbyte V (di_addrs d) i = 0
}.

(** The inode [inum] is changed to [d'] and its file to [data]; [n] blocks are taken. *)
Record changed s V inum (d' : dinode) (data : list Z) (n : Z) s' V' : Prop := {
  ch_built : built s' V';
  ch_inode : freeinode s' = freeinode s;
  ch_free : freeblock s' = freeblock s + n;
  ch_stored : stored sb V' inum = d';
  ch_data : on_disk sb V' inum = data;
  ch_other : ∀ j, live sb V j → j ≠ inum → stored sb V' j = stored sb V j ∧ on_disk sb V' j = on_disk sb V j;
  ch_meta : ∀ b, b < 32 → V' b = V b
}.

Lemma grown_low V addrs cnt V1 addrs1 cnt1 b : grown sb V addrs cnt V1 addrs1 cnt1 → b < 32 → V1 b = V b.
Proof.
  layout. intros G Hb. apply (gr_frame _ _ _ _ _ _ _ G); [|lia]. intros Hin.
  destruct (file_elem_data _ _ _ _ _ (gr_ok _ _ _ _ _ _ _ G) Hin) as [Hd _]. apply data_word in Hd. lia.
Qed.

(** Storing the inode of a file that has grown. *)
Lemma store_changed s V inum s1 V1 d' data n : let d := stored sb V inum in
  built s V → live sb V inum → view s1 V1 → freeinode s1 = freeinode s → freeblock s1 = freeblock s + n →
  grown sb V (di_addrs d) (dinode_cnt d) V1 (di_addrs d') (dinode_cnt d') → lean (di_addrs d') (dinode_cnt d') →
  di_type d' ≠ 0 → dinode_ok d' → 0 <= di_size d' <= 140 * 512 →
  (∀ i, di_size d' <= i < dinode_cnt d' * 512 → fbyte V1 (di_addrs d') i = 0) → dinode_data V1 d' = data →
  ∃ s' V', winode inum d' s1 = Ret tt s' ∧ changed s V inum d' data n s' V'.
Proof.
  intros d [Hv Hok Hnext Hlv Hln Hsl] Hlive Hv1 Hi1 Hf1 G Hl' Ht Hd' Hsz Hz Hdata. pose proof (live_range V _ Hlive) as Hr.
  destruct (winode_spec s1 V1 inum d' Hv1 ltac:(lia)) as (s' & R & Hv' & Hi & Hf). exists s', (store_inode sb inum d' V1). split; [done|].
  pose proof (vw_ok _ _ Hv1) as Hb. pose proof (nblocks_bound (di_size d')) as Hnb.
  assert (∀ i, 0 <= i < dinode_cnt d' * 512 → fbyte (store_inode sb inum d' V1) (di_addrs d') i = fbyte V1 (di_addrs d') i) as Hby
    by (by apply (store_bytes V)).
  split; [split| | | | | |].
  - done.
  - by apply (store_fs V).
  - by rewrite Hi, Hi1.
  - intros j. rewrite (store_live V V1 inum d') by done. by rewrite Hi, Hi1.
  - intros j Hj%(store_live V V1 inum d' Hlive Hb G Ht Hd'). destruct (decide (j = inum)) as [->|Hne]; [by rewrite (stored_new V1)|].
    rewrite (stored_old V) by (done || pose proof (live_range V _ Hj); lia). by apply Hln.
  - intros j Hj%(store_live V V1 inum d' Hlive Hb G Ht Hd') dj i Hi'. unfold dj in *. destruct (decide (j = inum)) as [->|Hne].
    + rewrite (stored_new V1) in * by done. rewrite Hby by lia. by apply Hz.
    + rewrite (stored_old V) in * by (done || pose proof (live_range V _ Hj); lia).
      destruct (fk_file _ _ Hok j Hj) as (_ & Hszj & _). destruct (store_kept V V1 inum d' Hok Hlive G j Hj Hne) as (_ & _ & _ & Hk). rewrite Hk by lia.
      by apply Hsl.
  - congruence.
  - lia.
  - by apply stored_new.
  - unfold on_disk. rewrite (stored_new V1) by done. rewrite <- Hdata. unfold dinode_data. apply fbytes_ext. intros i Hi'. apply Hby.
    unfold dinode_cnt. lia.
  - intros j Hj Hne. split; [apply (stored_old V); [done|done|pose proof (live_range V _ Hj); lia|done]|by apply (store_on_disk V)].
  - intros b Hb'. unfold store_inode. destruct (iblock_range inum); [lia|]. rewrite fn_lookup_insert_ne by lia. by eapply grown_low.
Qed.

Lemma dinode_ok_grow d addrs n : dinode_ok d → length addrs = 13%nat → Forall is_u32 addrs → is_u32 n →
  dinode_ok (set_di_size n (set_di_addrs addrs d)).
Proof. intros [? ? ? ? ? ? ?] ? ? ?. by split. Qed.

Lemma iappend_spec s V inum p : let d := stored sb V inum in let size := di_size d + length p in
  let n := taken (nblocks size) - taken (dinode_cnt d) in
  built s V → live sb V inum → Forall is_byte p → size <= 140 * 512 → freeblock s + n <= 1000 →
  ∃ addrs s' V', iappend inum p s = Ret tt s' ∧
    changed s V inum (set_di_size size (set_di_addrs addrs d)) (on_disk sb V inum ++ p) n s' V'.
Proof.
  intros d size n Hbt Hlive Hb Hsz Hfree. pose proof Hbt as [Hv Hok _ _ Hln Hsl]. pose proof (live_range V _ Hlive) as Hr.
  destruct (fk_file _ _ Hok inum Hlive) as (Hf & Hsz0 & Hdok). fold d in Hf, Hsz0, Hdok.
  pose proof (nblocks_bound (di_size d)) as Hn0. pose proof (nblocks_le (di_size d) size ltac:(lia)) as Hmono.
  pose proof (nblocks_bound size) as Hn1. fold (dinode_cnt d) in Hn0, Hmono.
  destruct (iappend_loop_spec (length p) s V d (dinode_cnt d) (di_size d) p Hv Hf (Hln inum Hlive)) as (s1 & V1 & addrs & R1 & A1);
    [lia|done|done|done|fold size; rewrite Z.max_r by lia; lia|]. fold size in R1, A1. rewrite Z.max_r in A1 by lia.
  destruct A1 as [Hv1 Hi1 Hf1 G1 B1 Hl1]. set (d' := set_di_size size (set_di_addrs addrs d)).
  assert (length (on_disk sb V inum) = Z.to_nat (di_size d)) as Hlen by apply length_on_disk.
  destruct (store_changed s V inum s1 V1 d' (on_disk sb V inum ++ p) n Hbt Hlive Hv1 Hi1) as (s' & V' & R2 & C); fold d; try done.
  - lia.
  - apply Hlive.
  - apply dinode_ok_grow; [done|apply G1|eapply (file_words sb _ mkfs_geom), G1|unfold is_u32; lia].
  - cbn [di_size d' set_di_size]. lia.
  - intros i Hi. change (dinode_cnt d') with (nblocks size) in Hi. change (di_size d') with size in Hi. change (di_addrs d') with addrs. rewrite B1 by lia.
    rewrite decide_False by lia. case_decide; [|done]. apply (Hsl inum Hlive). fold d. lia.
  - unfold dinode_data. cbn [di_size di_addrs d' set_di_size set_di_addrs]. apply list_total_eq; rewrite length_fbytes; [rewrite length_app; lia|].
    intros i Hi. rewrite lookup_fbytes, B1 by lia. case_decide.
    + rewrite lookup_total_app_r by lia. f_equal. lia.
    + rewrite decide_True by lia. rewrite lookup_total_app_l by lia. unfold on_disk, dinode_data. fold d. by rewrite lookup_fbytes by lia.
  - exists addrs, s', V'. split; [|done]. unfold iappend. mcall (rinode_spec s V inum Hv ltac:(lia)). fold d.
    rewrite (xint_id (di_size d)) by apply Hdok. mcall R1. rewrite xint_id by (unfold is_u32; lia). exact R2.
Qed.

(** ** [ialloc] *)

Lemma empty_file_ok V : file_ok sb V (replicate 13 0) 0.
Proof.
  split; [done|lia|constructor|constructor| |lia]. intros n Hn. unfold block_at, ind. destruct (Z.ltb_spec n 12); [|done].
  apply lookup_total_replicate_2. lia.
Qed.

(** A new inode: the files there were are kept. *)
Record created s V inum (d' : dinode) s' V' : Prop := {
  cr_built : built s' V';
  cr_inode : freeinode s' = freeinode s + 1;
  cr_free : freeblock s' = freeblock s;
  cr_live : live sb V' inum;
  cr_stored : stored sb V' inum = d';
  cr_data : on_disk sb V' inum = [];
  cr_other : ∀ j, live sb V j → live sb V' j ∧ stored sb V' j = stored sb V j ∧ on_disk sb V' j = on_disk sb V j;
  cr_meta : ∀ b, b < 32 → V' b = V b
}.

Section create.
Context s V (type : Z).
Hypotheses (Hbt : built s V) (Hnext : freeinode s < 200) (Htype : 0 < type < 32768).
Abbreviation inum := (freeinode s).
Abbreviation d' := (mkDinode type 0 0 1 0 (replicate 13 0)).
Abbreviation V' := (store_inode sb inum d' V).

Lemma create_ok : dinode_ok d'.
Proof using Htype.
  assert (i16 (u16 type) = type) by (unfold i16, u16; rewrite !(Z.mod_small type 65536), (proj2 (Z.ltb_lt _ _)) by lia; lia).
  split; first [done | by repeat constructor].
Qed.

Lemma create_new : stored sb V' inum = d'.
Proof using Hbt Htype. apply stored_same; [apply (bt_view _ _ Hbt)|exact create_ok]. Qed.

Lemma create_old j : j ≠ inum → stored sb V' j = stored sb V j.
Proof using Hbt. intros. apply stored_other; [apply (bt_view _ _ Hbt)|done]. Qed.

Lemma create_data : same_data sb V V'.
Proof using Hbt Hnext.
  layout. pose proof (bt_next _ _ Hbt). apply store_inode_same_data. destruct (iblock_range inum); lia.
Qed.

Lemma create_live j : live sb V' j ↔ j = inum ∨ live sb V j.
Proof using Hbt Hnext Htype.
  layout. pose proof (bt_next _ _ Hbt). unfold live. destruct (decide (j = inum)) as [->|Hne].
  - rewrite create_new. cbn [di_type]. rewrite Eni. split; [by left|intros _; lia].
  - rewrite create_old by done. tauto.
Qed.

Lemma create_old_live j : live sb V j → j ≠ inum.
Proof using Hbt. intros Hj%(bt_live _ _ Hbt). lia. Qed.

Lemma create_bytes j i : live sb V j → 0 <= i < dinode_cnt (stored sb V j) * 512 →
  fbyte V' (di_addrs (stored sb V j)) i = fbyte V (di_addrs (stored sb V j)) i.
Proof using Hbt Hnext.
  intros Hj Hi. destruct (fk_file _ _ (bt_fs _ _ Hbt) j Hj) as (Hf & _). by eapply (same_data_bytes sb _ mkfs_geom); [exact create_data|exact Hf|].
Qed.

Lemma create_fs : fs_ok sb V'.
Proof using Hbt Hnext Htype.
  pose proof (bt_fs _ _ Hbt) as Hok. split.
  - intros j [->|Hj]%create_live dj; unfold dj; [rewrite create_new; split_and!; [apply empty_file_ok|done|done|exact create_ok]|].
    rewrite create_old by (by apply create_old_live). destruct (fk_file _ _ Hok j Hj) as (? & ? & ?).
    split_and!; [by eapply (same_data_ok sb _ mkfs_geom); [exact create_data|]|lia|lia|done].
  - intros i j [->|Hi]%create_live [->|Hj]%create_live Hne di dj; unfold di, dj; [done| | |].
    1,2: rewrite create_new, create_old by done; intros b Hb1 Hb2; cbn [di_addrs dinode_cnt] in *; by apply elem_of_nil in Hb1 || by apply elem_of_nil in Hb2.
    pose proof (create_old_live i Hi). pose proof (create_old_live j Hj). rewrite !create_old by done.
    destruct (fk_file _ _ Hok i Hi) as (Hfi & _), (fk_file _ _ Hok j Hj) as (Hfj & _). intros b.
    rewrite !elem_blocks. setoid_rewrite (λ n, same_data_block sb _ mkfs_geom V V' _ _ n create_data Hfi).
    setoid_rewrite (λ n, same_data_block sb _ mkfs_geom V V' _ _ n create_data Hfj). rewrite <- !elem_blocks. by apply (fk_apart _ _ Hok).
  - intros b Hb. rewrite (same_data_used sb V) by exact create_data. by apply (fk_meta _ _ Hok).
Qed.

Lemma ialloc_spec : ∃ s' V', ialloc type s = Ret inum s' ∧ created s V inum d' s' V'.
Proof using Hbt Hnext Htype.
  pose proof Hbt as [Hv Hok Hnx Hlv Hln Hsl].
  set (s0 := mkImage (im_size s) (im_blocks s) (inum + 1) (freeblock s)).
  assert (view s0 V) as Hv0 by (destruct Hv; by split).
  destruct (winode_spec s0 V inum d' Hv0 ltac:(lia)) as (s' & R & Hv' & Hi & Hf). cbn [freeinode freeblock s0] in Hi, Hf.
  exists s', V'. split.
  { unfold ialloc. mrun. rewrite u32_small by (unfold is_u32; lia). fold s0.
    assert (xshort type = type) as -> by (unfold xshort, get16, slice; cbn [drop take]; unfold u16_of_bytes; rewrite Z.shiftr_div_pow2 by lia; divmod).
    change (xshort 1) with 1. change (xint 0) with 0. by mcall R. }
  split; [split| | | | | | |].
  - done.
  - exact create_fs.
  - lia.
  - intros j. rewrite create_live, Hlv, Hi. lia.
  - intros j [->|Hj]%create_live; [rewrite create_new; done|rewrite create_old by (by apply create_old_live); by apply Hln].
  - intros j [->|Hj]%create_live dj i Hi'; unfold dj in *; [rewrite create_new in *; change (dinode_cnt d') with 0 in Hi'; cbn [di_size] in Hi'; lia|].
    rewrite create_old in * by (by apply create_old_live). destruct (fk_file _ _ Hok j Hj) as (_ & ? & _).
    rewrite create_bytes by (done || lia). by apply Hsl.
  - done.
  - done.
  - apply create_live. by left.
  - exact create_new.
  - unfold on_disk. by rewrite create_new.
  - intros j Hj. pose proof (create_old_live j Hj). split_and!; [apply create_live; by right|by apply create_old|].
    unfold on_disk. rewrite create_old by done. apply fbytes_ext. intros i Hi'. apply create_bytes; [done|].
    pose proof (nblocks_bound (di_size (stored sb V j))). unfold dinode_cnt. lia.
  - intros b Hb. unfold store_inode. destruct (iblock_range inum); [lia|]. by rewrite fn_lookup_insert_ne by lia.
Qed.
End create.
