(* ===== verification/MkfsCorrect.v ===== *)
(** * What [mkfs] leaves on the disk (src/mkfs.c)

    The files given to [mkfs] are on the image, under their names in the root
    directory, in a file system that satisfies the invariant of FsInv.v. *)

From stdpp Require Import functions.
From S2P Require Import Prelude Mem CString State Disk Bio BioSpec Log LogSpec Fs FsTx FsFile FsBmap FsDinode FsWrite FsRw FsInv Dir Mkfs MkfsSpec.

Implicit Types (s : image) (V : Z → list Z).

(** ** Appending in several steps *)

Lemma changed_refl s V inum n : built s V → n = 0 → changed s V inum (stored sb V inum) (on_disk sb V inum) n s V.
Proof. intros Hb ->. split; try done. lia. Qed.

Lemma changed_live s V inum d data n s' V' j : built s V → changed s V inum d data n s' V' → live sb V' j ↔ live sb V j.
Proof. intros Hb C. rewrite (bt_live _ _ (ch_built _ _ _ _ _ _ _ _ C)), (bt_live _ _ Hb), (ch_inode _ _ _ _ _ _ _ _ C). done. Qed.

Lemma changed_trans s V inum d1 data1 n1 s1 V1 d2 data2 n2 s2 V2 : built s V →
  changed s V inum d1 data1 n1 s1 V1 → changed s1 V1 inum d2 data2 n2 s2 V2 → changed s V inum d2 data2 (n1 + n2) s2 V2.
Proof.
  intros Hb C1 C2. pose proof (λ j, changed_live _ _ _ _ _ _ _ _ j Hb C1) as Hl. destruct C1 as [B1 I1 F1 S1 D1 O1 M1], C2 as [B2 I2 F2 S2 D2 O2 M2].
  split; [done|congruence|lia|done|done| |intros b Hb'; by rewrite M2, M1].
  intros j Hj Hne. destruct (O1 j Hj Hne) as [<- <-]. apply O2; [by apply Hl|done].
Qed.

Definition grown_to (d d' : dinode) (size : Z) : Prop := ∃ addrs, d' = set_di_size size (set_di_addrs addrs d).

Lemma append_file_spec fuel : ∀ s V inum data, let d := stored sb V inum in let size := di_size d + length data in
  let n := taken (nblocks size) - taken (dinode_cnt d) in
  built s V → live sb V inum → Forall is_byte data → size <= 140 * 512 → freeblock s + n <= 1000 → (length data <= fuel)%nat →
  ∃ d' s' V', append_file fuel inum data s = Ret tt s' ∧ grown_to d d' size ∧ changed s V inum d' (on_disk sb V inum ++ data) n s' V'.
Proof.
  induction fuel as [|fuel IH]; intros s V inum data d size n Hb Hl Hby Hsz Hfree Hfuel.
  all: destruct (decide (data = [])) as [->|Hne].
  1,3: (exists d, s, V; unfold n, size; cbn [length] in *; rewrite Z.add_0_r, app_nil_r; split_and!; [done|by exists (di_addrs d); destruct d|];
    apply changed_refl; [done|unfold dinode_cnt; lia]).
  { destruct data; [done|cbn in Hfuel; lia]. }
  assert (0 < length data) by (destruct data; [done|cbn; lia]).
  set (p := take 512 data). set (q := drop 512 data). assert (length data = length p + length q)%nat as Hpq by (unfold p, q; by rewrite <- length_app, take_drop).
  assert (length p = Nat.min 512 (length data)) as Hp by (unfold p; by rewrite length_take).
  pose proof (nblocks_le (di_size d + length p) size ltac:(lia)) as Hm. pose proof (taken_mono _ _ Hm) as Ht.
  destruct (iappend_spec s V inum p Hb Hl) as (addrs & s1 & V1 & R1 & C1); [by apply Forall_take|fold d; lia|fold d; lia|]. fold d in C1.
  set (d1 := set_di_size (di_size d + length p) (set_di_addrs addrs d)) in *. pose proof C1 as [B1 I1 F1 S1 D1 O1 M1].
  assert (dinode_cnt d1 = nblocks (di_size d + length p)) as Ec by done. assert (di_size d1 = di_size d + length p) as Es by done.
  destruct (IH s1 V1 inum q) as (d2 & s2 & V2 & R2 & (addrs2 & E2) & C2); rewrite ?S1, ?Ec, ?Es in *.
  { done. } { by apply (changed_live s V inum _ _ _ s1 V1 inum Hb C1). } { by apply Forall_drop. } { lia. }
  { replace (di_size d + length p + length q) with size by lia. lia. } { lia. }
  replace (di_size d + length p + length q) with size in * by lia. rewrite D1, <- app_assoc in C2. unfold p, q in C2. rewrite take_drop in C2.
  exists d2, s2, V2. split_and!.
  - destruct data; [done|]. cbn [append_file]. change BSIZE with 512%nat. by mcall R1.
  - exists addrs2. by rewrite E2.
  - replace n with (taken (nblocks (di_size d + length p)) - taken (dinode_cnt d) + (taken (nblocks size) - taken (nblocks (di_size d + length p)))) by lia.
    by eapply changed_trans.
Qed.

(** ** The root directory *)

(** A directory entry, and the entries of the root directory for these names. *)
Abbreviation entry inum name := (dirent_bytes (mkDirent inum (dir_name name))).
Definition listing (names : list (list Z)) : list Z :=
  entry 1 [46] ++ entry 1 [46; 46] ++ concat (imap (λ i name, entry (2 + i) name) names).

Lemma listing_snoc names name : listing (names ++ [name]) = listing names ++ entry (2 + length names) name.
Proof.
  unfold listing. rewrite imap_app, concat_app. cbn [imap concat]. rewrite app_nil_r, <- !app_assoc. unfold compose. by rewrite Nat.add_0_r.
Qed.

Lemma length_listing names : length (listing names) = (16 * (2 + length names))%nat.
Proof.
  induction names as [|name names IH] using rev_ind; [done|]. rewrite listing_snoc, !length_app, IH, length_dirent_bytes. cbn [length]. lia.
Qed.

(** The blocks that the contents of the files take. *)
Definition space (files : list (list Z * list Z)) : Z := foldr (λ f n, taken (nblocks (length f.2)) + n) 0 files.

Lemma space_cons f l : space (f :: l) = taken (nblocks (length f.2)) + space l.
Proof. done. Qed.

Lemma space_app l k : space (l ++ k) = space l + space k.
Proof. induction l as [|f l IH]; [done|]. rewrite <- app_comm_cons, !space_cons, IH. lia. Qed.

Lemma space_nonneg l : 0 <= space l.
Proof.
  induction l as [|f l IH]; [done|]. rewrite space_cons. pose proof (nblocks_bound (length f.2)). unfold taken. destruct (12 <? _); lia.
Qed.

(** The blocks that all of the image takes. *)
Definition total (files : list (list Z * list Z)) : Z := taken (nblocks (16 * (2 + length files))) + space files.

Lemma total_snoc files f : total files <= total (files ++ [f]).
Proof.
  unfold total. rewrite space_app, length_app. pose proof (space_nonneg [f]).
  pose proof (taken_mono _ _ (nblocks_le (16 * (2 + length files)) (16 * (2 + (length files + length [f])%nat)) ltac:(cbn; lia))). lia.
Qed.

Lemma total_app files l : total files <= total (files ++ l).
Proof.
  induction l as [|f l IH] using rev_ind; [by rewrite app_nil_r|]. rewrite app_assoc. etrans; [exact IH|apply total_snoc].
Qed.

(** ** The files *)

(** The image after the files, names with contents, have been added. *)
Record holds s V (files : list (list Z * list Z)) : Prop := {
  ho_built : built s V;
  ho_next : freeinode s = 2 + length files;
  ho_free : freeblock s = 59 + total files;
  ho_root : di_type (stored sb V 1) = T_DIR ∧ di_nlink (stored sb V 1) = 1;
  ho_list : on_disk sb V 1 = listing files.*1;
  ho_file : ∀ (i : nat) name data, files !! i = Some (name, data) →
    di_type (stored sb V (2 + i)) = T_FILE ∧ di_nlink (stored sb V (2 + i)) = 1 ∧ on_disk sb V (2 + i) = data;
  ho_boot : V 1 = splice zero_block 0 (sb_bytes sb) ∧ ∀ b, 2 <= b < 32 → V b = zero_block
}.

Lemma holds_live s V files j : holds s V files → live sb V j ↔ 1 <= j < 2 + length files.
Proof. intros H. rewrite (bt_live _ _ (ho_built _ _ _ H)), (ho_next _ _ _ H). done. Qed.

Lemma holds_root_size s V files : holds s V files → di_size (stored sb V 1) = 16 * (2 + length files).
Proof.
  intros H. pose proof (length_on_disk sb V 1) as E. rewrite (ho_list _ _ _ H), length_listing, length_fmap in E.
  destruct (fk_file _ _ (bt_fs _ _ (ho_built _ _ _ H)) 1) as (_ & ? & _); [apply (holds_live s V files); [done|lia]|]. lia.
Qed.

Lemma xshort_id x : 0 <= x < 65536 → xshort x = x.
Proof.
  intros. unfold xshort, get16, slice. cbn [drop take]. unfold u16_of_bytes. rewrite Z.shiftr_div_pow2 by lia. divmod.
Qed.

(** A new entry of the root directory. *)
Lemma append_entry_spec s V inum name : let d := stored sb V 1 in let size := di_size d + 16 in
  let n := taken (nblocks size) - taken (dinode_cnt d) in
  built s V → live sb V 1 → 0 <= inum < 65536 → Forall is_byte name → size <= 140 * 512 → freeblock s + n <= 1000 →
  ∃ d' s' V', append_entry 1 inum name s = Ret tt s' ∧ grown_to d d' size ∧ changed s V 1 d' (on_disk sb V 1 ++ entry inum name) n s' V'.
Proof.
  intros d size n Hb Hl Hi Hn Hsz Hfree.
  destruct (iappend_spec s V 1 (entry inum name) Hb Hl (dirent_bytes_byte inum name Hn)) as (addrs & s' & V' & R & C);
    rewrite length_dirent_bytes in *; fold d; [done|done|].
  eexists _, s', V'. split_and!; [|by exists addrs|exact C]. unfold append_entry. by rewrite xshort_id.
Qed.

Section files.
Context (host : list Z → option (list Z)).

(** One file: its inode, its entry and its contents. *)
Lemma add_file_spec s V files path data (rest : IM unit) : let files' := files ++ [(basename path, data)] in
  holds s V files → length files < 198 → Forall is_byte (basename path) → Forall is_byte data → length data <= 140 * 512 → total files' <= 941 →
  ∃ s' V', holds s' V' files' ∧
    (inum <- ialloc T_FILE ;; append_entry 1 inum (basename path) ;;; append_file (length data) inum data ;;; rest) s = rest s'.
Proof.
  intros files' H Hlen Hname Hdata Hsz Htot. pose proof (holds_root_size _ _ _ H) as Hroot. pose proof (total_snoc files (basename path, data)) as Hts.
  fold files' in Hts. pose proof (λ j, holds_live s V files j H) as Hlv. destruct H as [Hb Hnx Hfr [Ht Hln] Hlist Hfile [Hb1 Hb2]].
  unfold total in Hfr. set (inum := 2 + length files) in *.
  assert (total files' = taken (nblocks (16 * (3 + length files))) + space files + taken (nblocks (length data))) as Etot.
  { unfold files', total. rewrite space_app, space_cons, length_app. cbn [length snd]. replace (16 * (2 + (length files + 1)%nat)) with (16 * (3 + length files)) by lia.
    unfold space at 2. cbn [foldr]. lia. }
  assert (0 <= taken (nblocks (length data))) as Htd.
  { pose proof (nblocks_bound (length data)). unfold taken. destruct (12 <? _); lia. }
  destruct (ialloc_spec s V T_FILE Hb ltac:(lia) ltac:(done)) as (s1 & V1 & R1 & C1). rewrite Hnx in R1, C1. fold inum in R1, C1.
  destruct C1 as [B1 I1 F1 L1 S1 D1 O1 M1]. destruct (O1 1) as (L11 & S11 & D11); [apply Hlv; lia|].
  destruct (append_entry_spec s1 V1 inum (basename path) B1 L11) as (d2 & s2 & V2 & R2 & (a2 & E2) & C2); [lia|done| | |];
    rewrite S11, ?Hroot in *; unfold dinode_cnt in *; rewrite ?Hroot in *; [lia| |].
  { replace (16 * inum + 16) with (16 * (3 + length files)) by lia. lia. }
  replace (16 * inum + 16) with (16 * (3 + length files)) in * by lia.
  pose proof (λ j, changed_live _ _ _ _ _ _ _ _ j B1 C2) as L2. destruct C2 as [B2 I2 F2 S2 D2 O2 M2].
  destruct (O2 inum L1 ltac:(lia)) as [S2i D2i]. rewrite S1 in S2i. rewrite D1 in D2i.
  destruct (append_file_spec (length data) s2 V2 inum data B2) as (d3 & s3 & V3 & R3 & (a3 & E3) & C3); rewrite ?S2i in *; cbn [di_size] in *;
    unfold dinode_cnt in *; cbn [di_size] in *; [by apply L2|done|lia| |done|].
  { change (taken (nblocks 0)) with 0. replace (0 + length data) with (Z.of_nat (length data)) by lia. lia. }
  rewrite D2i in C3. cbn [app] in C3. pose proof (λ j, changed_live _ _ _ _ _ _ _ _ j B2 C3) as L3. destruct C3 as [B3 I3 F3 S3 D3 O3 M3].
  change (taken (nblocks 0)) with 0 in F3. replace (0 + length data) with (Z.of_nat (length data)) in * by lia.
  destruct (O3 1 ltac:(apply L2; done) ltac:(lia)) as [S31 D31].
  exists s3, V3. split; [|mcall R1; mcall R2; by mcall R3]. split.
  - done.
  - unfold files'. rewrite length_app. cbn [length]. lia.
  - lia.
  - rewrite S31, S2, E2. done.
  - rewrite D31, D2, D11, Hlist. unfold files'. rewrite fmap_app. cbn [fmap list_fmap fst]. by rewrite listing_snoc, length_fmap.
  - intros i name' data' Hi. unfold files' in Hi. apply lookup_app_Some in Hi as [Hi|[Hge Hi]].
    + pose proof (lookup_lt_Some _ _ _ Hi). destruct (Hfile i name' data' Hi) as (? & ? & ?).
      destruct (O1 (2 + i)) as (Lj & Sj & Dj); [apply Hlv; lia|]. destruct (O2 (2 + i) Lj ltac:(lia)) as [Sj2 Dj2].
      destruct (O3 (2 + i) ltac:(by apply L2) ltac:(lia)) as [Sj3 Dj3]. by rewrite Sj3, Sj2, Sj, Dj3, Dj2, Dj.
    + apply list_lookup_singleton_Some in Hi as [Hi [= <- <-]]. replace (2 + i) with inum by lia. by rewrite S3, E3, D3.
  - split; [by rewrite M3, M2, M1 by lia|]. intros b Hbr. rewrite M3, M2, M1 by lia. by apply Hb2.
Qed.

Lemma skip_slashes_bytes l : Forall is_byte l → Forall is_byte (skip_slashes l).
Proof using Type. induction 1 as [|x l Hx Hl IH]; [constructor|]. cbn [skip_slashes]. case_match; [done|by constructor]. Qed.

Lemma span_elem_bytes l : Forall is_byte l → Forall is_byte (span_elem l).1.
Proof using Type.
  induction 1 as [|x l Hx Hl IH]; [constructor|]. cbn [span_elem]. case_match; [constructor|]. destruct (span_elem l). by constructor.
Qed.

Lemma basename_bytes path : Forall is_byte path → Forall is_byte (basename path).
Proof using Type.
  intros Hp. unfold basename. destruct path as [|c path]; [repeat constructor; done|].
  assert (Forall is_byte (skip_slashes (reverse (c :: path)))) as Hs by (by apply skip_slashes_bytes, Forall_reverse).
  destruct (skip_slashes _); [repeat constructor; done|]. by apply Forall_reverse, span_elem_bytes.
Qed.

(** The host has this file, and the image has room for its contents. *)
Definition host_file (path data : list Z) : Prop :=
  host path = Some data ∧ Forall is_byte path ∧ Forall is_byte data ∧ length data <= 140 * 512.

Definition named (paths datas : list (list Z)) : list (list Z * list Z) := zip (basename <$> paths) datas.

Lemma add_files_spec paths datas : Forall2 host_file paths datas → ∀ s V files,
  holds s V files → length files + length paths <= 198 → total (files ++ named paths datas) <= 941 →
  ∃ s' V', add_files host 1 paths s = Ret tt s' ∧ holds s' V' (files ++ named paths datas).
Proof using Type.
  induction 1 as [|path data paths datas (Hh & Hp & Hd & Hl) _ IH]; intros s V files H Hlen Htot.
  { exists s, V. unfold named. cbn. by rewrite app_nil_r. }
  cbn [length] in Hlen. assert (files ++ named (path :: paths) (data :: datas) = (files ++ [(basename path, data)]) ++ named paths datas) as E
    by (by rewrite <- app_assoc). rewrite E in *.
  pose proof (total_app (files ++ [(basename path, data)]) (named paths datas)) as Ht.
  destruct (add_file_spec s V files path data (add_files host 1 paths) H) as (s1 & V1 & H1 & R1); [lia|by apply basename_bytes|done|done|lia|].
  destruct (IH s1 V1 _ H1) as (s2 & V2 & R2 & H2); [rewrite length_app; cbn [length]; lia|done|].
  exists s2, V2. split; [|done]. cbn [add_files]. rewrite Hh. by rewrite R1.
Qed.

(** ** The empty file system *)

Lemma zero_sectors_spec n s : (∀ b, im_block s b = zero_block) → 0 <= im_size s →
  ∃ s', zero_sectors n s = Ret tt s' ∧ im_size s' = Z.max (im_size s) n ∧ (∀ b, im_block s' b = zero_block) ∧ counters s s'.
Proof using Type.
  intros Hz Hs. induction n as [|n (s1 & R & Hsz & Hz1 & Hc)].
  { exists s. split_and!; [done| |done|done]. lia. }
  eexists. cbn [zero_sectors]. mcall R. split_and!; [reflexivity| |intros b|exact Hc].
  - cbn [im_size]. lia.
  - specialize (Hz1 b). unfold im_block in *. cbn [im_blocks]. destruct (decide (Z.of_nat n = b)) as [<-|].
    + by rewrite lookup_insert_eq.
    + by rewrite lookup_insert_ne.
Qed.

Lemma sb_block_ok : block_ok (splice zero_block 0 (sb_bytes sb)).
Proof using Type. apply splice_ok; [apply zero_block_ok|repeat constructor; vm_compute; intuition congruence|vm_compute; lia]. Qed.

(** The image before the first inode: no file, and all data blocks free. *)
Lemma empty_built s : im_size s = 1000 → (∀ b, b ≠ 1 → im_block s b = zero_block) → im_block s 1 = splice zero_block 0 (sb_bytes sb) →
  freeinode s = 1 → freeblock s = 59 → ∃ V, built s V ∧ V 1 = splice zero_block 0 (sb_bytes sb) ∧ ∀ b, 2 <= b < 32 → V b = zero_block.
Proof using Type.
  layout. intros Hs Hz Hb1 Hi Hf. set (V := <[58 := used_bits 59]> (im_block s)). exists V.
  assert (∀ b, b ≠ 58 → V b = im_block s b) as HV by (intros; unfold V; by rewrite fn_lookup_insert_ne).
  assert (view s V) as Hv.
  { split; [done|done|unfold V; by rewrite fn_lookup_insert, Hf|lia|intros b Hb; rewrite HV, Hz by lia; done|].
    intros b. destruct (decide (b = 58)) as [->|]; [unfold V; rewrite fn_lookup_insert; apply used_bits_ok|]. rewrite HV by done.
    destruct (decide (b = 1)) as [->|]; [rewrite Hb1; apply sb_block_ok|rewrite Hz by done; apply zero_block_ok]. }
  assert (∀ j, ¬ live sb V j) as Hnl.
  { intros j [Hj Ht]. apply Ht. destruct (iblock_range j ltac:(lia)) as [_ ?]. unfold stored. rewrite HV, Hz by lia.
    unfold get_dinode. cbn [di_type]. unfold get16, slice, zero_block. pose proof (dinode_off_bound j).
    rewrite drop_replicate, take_replicate. replace (Nat.min 2 (BSIZE - dinode_off j)) with 2%nat by (unfold BSIZE; lia). done. }
  split_and!; [|by rewrite HV|intros b Hb; rewrite HV, Hz by lia; done].
  split; [done| |lia| | |].
  - split; [intros j Hj; by destruct (Hnl j)|intros i j Hj; by destruct (Hnl i)|by eapply view_meta].
  - intros j. split; [intros Hj; by destruct (Hnl j)|lia].
  - intros j Hj. by destruct (Hnl j).
  - intros j Hj. by destruct (Hnl j).
Qed.
End files.

(** The root directory with the entries for itself and its parent. *)
Lemma root_spec s V : built s V → freeinode s = 1 → freeblock s = 59 →
  V 1 = splice zero_block 0 (sb_bytes sb) → (∀ b, 2 <= b < 32 → V b = zero_block) →
  ∃ s1 s2 s' V', ialloc T_DIR s = Ret 1 s1 ∧ append_entry 1 1 [46] s1 = Ret tt s2 ∧ append_entry 1 1 [46; 46] s2 = Ret tt s' ∧ holds s' V' [].
Proof.
  intros Hb Hi Hf Hb1 Hb2. destruct (ialloc_spec s V T_DIR Hb ltac:(lia) ltac:(done)) as (s1 & V1 & R1 & C1). rewrite Hi in R1, C1.
  destruct C1 as [B1 I1 F1 L1 S1 D1 O1 M1].
  assert (∀ n, Forall is_byte (replicate n 46)) as Hdot by (intros; apply Forall_replicate; done).
  destruct (append_entry_spec s1 V1 1 [46] B1 L1) as (d2 & s2 & V2 & R2 & (a2 & E2) & C2);
    rewrite ?S1 in *; cbn [di_size dinode_cnt] in *; [lia|apply (Hdot 1%nat)|lia|rewrite F1, Hf; vm_compute; congruence|].
  pose proof (changed_live _ _ _ _ _ _ _ _ 1 B1 C2) as L2. destruct C2 as [B2 I2 F2 S2 D2 O2 M2]. rewrite E2 in S2.
  destruct (append_entry_spec s2 V2 1 [46; 46] B2 (proj2 L2 L1)) as (d3 & s3 & V3 & R3 & (a3 & E3) & C3);
    rewrite ?S2 in *; cbn [di_size set_di_size] in *; [lia|apply (Hdot 2%nat)|lia|rewrite F2, F1, Hf; vm_compute; congruence|].
  destruct C3 as [B3 I3 F3 S3 D3 O3 M3].
  exists s1, s2, s3, V3. split_and!; [done..|]. split; [done|cbn; lia| | |rewrite D3, D2, D1; by rewrite app_nil_l|done|].
  - rewrite F3, F2, F1, Hf. vm_compute. done.
  - rewrite S3, E3. done.
  - split; [by rewrite M3, M2, M1 by lia|]. intros b Hb'. rewrite M3, M2, M1 by lia. by apply Hb2.
Qed.

(** The size of the root directory is rounded up, past the last entry. *)
Lemma fix_root_spec s V files : let size := 16 * (2 + length files) in let size' := (size / 512 + 1) * 512 in
  holds s V files → size mod 512 ≠ 0 → size' <= 140 * 512 →
  ∃ s' V', winode 1 (set_di_size (xint size') (stored sb V 1)) s = Ret tt s' ∧
    changed s V 1 (set_di_size size' (stored sb V 1)) (listing files.*1 ++ replicate (Z.to_nat (size' - size)) 0) 0 s' V'.
Proof.
  intros size size' H Hmod Hmax. pose proof (holds_root_size _ _ _ H) as Hroot. fold size in Hroot.
  pose proof (proj2 (holds_live _ _ _ 1 H) ltac:(lia)) as Hlive. destruct H as [Hb _ _ [Ht _] Hlist _ _].
  pose proof Hb as [Hv Hok _ _ Hln Hsl]. destruct (fk_file _ _ Hok 1 Hlive) as (Hf & _ & Hd). set (d := stored sb V 1) in *.
  assert (size = 512 * (size / 512) + size mod 512 ∧ 0 < size mod 512 < 512) as [Es Hm] by (pose proof (block_off size); lia).
  rewrite xint_id by (unfold is_u32; lia). set (d' := set_di_size size' d).
  assert (dinode_cnt d = size / 512 + 1 ∧ dinode_cnt d' = size / 512 + 1) as [Ec Ec'].
  { unfold dinode_cnt. rewrite Hroot. change (di_size d') with size'. unfold nblocks. split; symmetry;
    [apply Z.div_unique with (size mod 512 - 1); lia|apply Z.div_unique with 511; lia]. }
  destruct (store_changed s V 1 s V d' (listing files.*1 ++ replicate (Z.to_nat (size' - size)) 0) 0 Hb Hlive Hv) as (s' & V' & R & C); fold d.
  - done.
  - lia.
  - rewrite Ec', <- Ec. apply grown_refl; [done|by eapply view_meta].
  - rewrite Ec', <- Ec. by apply Hln.
  - change (di_type d ≠ 0). by rewrite Ht.
  - destruct Hd. split; try done. change (di_size d') with size'. unfold is_u32. lia.
  - change (di_size d') with size'. lia.
  - change (di_size d') with size'. rewrite Ec'. lia.
  - rewrite <- Hlist. pose proof (length_on_disk sb V 1) as Hlen. fold d in Hlen. rewrite Hroot in Hlen.
    apply list_total_eq; unfold dinode_data; rewrite length_fbytes; change (di_size d') with size'.
    + rewrite length_app, length_replicate. lia.
    + intros i Hi. rewrite lookup_fbytes by lia. destruct (decide (i < Z.to_nat size)%nat).
      * rewrite lookup_total_app_l by lia. unfold on_disk, dinode_data. fold d. by rewrite lookup_fbytes by lia.
      * rewrite lookup_total_app_r, lookup_total_replicate_2 by lia. apply (Hsl 1 Hlive). fold d. rewrite Hroot, Ec. lia.
  - by exists s', V'.
Qed.

(** ** The theorem *)

(** What is on the image [s]. *)
Record mkfs_image (files : list (list Z * list Z)) s : Prop := {
  mi_size : im_size s = FSSIZE;
  mi_sb : sb_of (im_block s 1) = sb;
  mi_log : im_block s (sb_logstart sb) = zero_block;
  mi_blocks : ∀ b, block_ok (im_block s b);
  mi_fs : fs_ok sb (im_block s);
  mi_live : ∀ j, live sb (im_block s) j ↔ 1 <= j < 2 + length files;
  mi_root : di_type (stored sb (im_block s) ROOTINO) = T_DIR ∧ di_size (stored sb (im_block s) ROOTINO) mod BSIZE = 0 ∧
    ∃ n, on_disk sb (im_block s) ROOTINO = listing files.*1 ++ replicate n 0;
  mi_file : ∀ (i : nat) name data, files !! i = Some (name, data) →
    di_type (stored sb (im_block s) (2 + i)) = T_FILE ∧ on_disk sb (im_block s) (2 + i) = data
}.

(** [balloc] writes the free map of the view. *)
Lemma free_map_spec s V : view s V → ∃ s', balloc (freeblock s) s = Ret tt s' ∧ im_size s' = 1000 ∧ ∀ b, im_block s' b = V b.
Proof.
  layout. intros [Hs Hb Hm Hn _ _]. unfold balloc. change (BSIZE * 8) with 4096. rewrite (proj2 (Z.ltb_lt _ _)), Ebs by lia. cbn [negb].
  eexists. split; [reflexivity|]. split; [cbn [im_size]; lia|]. intros b. unfold im_block. cbn [im_blocks].
  destruct (decide (58 = b)) as [<-|]; [by rewrite lookup_insert_eq, Hm|]. rewrite lookup_insert_ne by done. by rewrite Hb.
Qed.

Lemma mkfs_image_of s V s' files d data n s1 V1 : holds s V files → di_type d = T_DIR → di_size d mod BSIZE = 0 → data = listing files.*1 ++ replicate n 0 →
  changed s V 1 d data 0 s1 V1 → im_size s' = 1000 → (∀ b, im_block s' b = V1 b) → mkfs_image files s'.
Proof.
  intros H Ht Hm Ed C Hs' Hb'. pose proof (λ j, changed_live _ _ _ _ _ _ _ _ j (ho_built _ _ _ H) C) as Hlv.
  destruct C as [B1 I1 F1 S1 D1 O1 M1]. pose proof (λ j, holds_live s V files j H) as Hl.
  assert (same_fs sb V1 (im_block s')) as Hsame by (intros b _; apply Hb').
  destruct H as [Hbt Hnx _ [Hrt _] Hli Hfi [Hb1 Hb2]]. pose proof (bt_fs _ _ B1) as Hok.
  assert (∀ j, live sb V j → stored sb (im_block s') j = stored sb V1 j ∧ on_disk sb (im_block s') j = on_disk sb V1 j) as Hst.
  { intros j Hj. split; [apply (same_fs_stored sb V1); [by destruct Hj as [? _]; lia|done]|].
    apply (same_fs_on_disk sb 1000 V1); [apply mkfs_geom|done|by apply Hlv|done]. }
  split.
  - done.
  - rewrite Hb', M1, Hb1 by lia. vm_compute. reflexivity.
  - change (sb_logstart sb) with 2. rewrite Hb', M1 by lia. by apply Hb2.
  - intros b. rewrite Hb'. apply B1.
  - by apply (same_fs_ok sb 1000 V1); [apply mkfs_geom| |].
  - intros j. rewrite (same_fs_live sb V1) by done. by rewrite Hlv.
  - destruct (Hst 1) as [E1 E2]; [apply Hl; lia|]. unfold ROOTINO. rewrite E1, E2, S1, D1, Ed. split_and!; [done|done|by exists n].
  - intros i name data' Hi. pose proof (lookup_lt_Some _ _ _ Hi). destruct (Hfi i name data' Hi) as (? & _ & ?).
    assert (live sb V (2 + i)) as Hli' by (apply Hl; lia).
    destruct (Hst (2 + i) Hli') as [-> ->]. destruct (O1 (2 + i) Hli' ltac:(lia)) as [-> ->]. done.
Qed.

(** [mkfs] runs to its end. *)
Lemma mkfs_spec host paths datas :
  Forall2 (host_file host) paths datas → length paths <= 198 → (length paths + 2) mod 32 ≠ 0 → total (named paths datas) <= 941 →
  ∃ s, mkfs host paths = Ret tt s ∧ mkfs_image (named paths datas) s.
Proof.
  intros Hin Hlen Hmod Htot. set (files := named paths datas) in *.
  assert (length files = length paths) as Hfl by (unfold files, named; rewrite length_zip, length_fmap, (Forall2_length _ _ _ Hin); lia).
  destruct (zero_sectors_spec (Z.to_nat FSSIZE) (mkImage 0 ∅ 1 nmeta) ltac:(done) ltac:(done)) as (s1 & R1 & Hs1 & Hz1 & Hi1 & Hf1).
  destruct (empty_built (mkImage (Z.max (im_size s1) (1 + 1)) (<[1 := splice zero_block 0 (sb_bytes sb)]> (im_blocks s1)) (freeinode s1) (freeblock s1)))
    as (V2 & B2 & Hb1 & Hb2); [by rewrite Hs1| | |done|done|].
  { intros b Hb. specialize (Hz1 b). unfold im_block in *. cbn [im_blocks]. by rewrite lookup_insert_ne. }
  { unfold im_block. cbn [im_blocks]. by rewrite lookup_insert_eq. }
  destruct (root_spec _ V2 B2 ltac:(done) ltac:(done) Hb1 Hb2) as (s3 & s4 & s5 & V5 & R3 & R4 & R5 & H5).
  destruct (add_files_spec host paths datas Hin s5 V5 [] H5 ltac:(cbn; lia) Htot) as (s6 & V6 & R6 & H6). cbn [app] in H6. fold files in H6.
  assert (16 * (2 + length files) mod 512 ≠ 0) as Hm6 by (rewrite Hfl; Z.div_mod_to_equations; lia).
  destruct (fix_root_spec s6 V6 files H6 Hm6) as (s7 & V7 & R7 & C7); [Z.div_mod_to_equations; lia|].
  destruct (free_map_spec s7 V7 (bt_view _ _ (ch_built _ _ _ _ _ _ _ _ C7))) as (s8 & R8 & Hs8 & Hb8).
  exists s8. split.
  - unfold mkfs, mkfs_main. mrun. cbn [im_size im_blocks freeinode freeblock]. mcall R1. unfold wsect. mrun. mcall R3. cbn [Z.eqb ROOTINO Pos.eqb negb].
    mcall R4. mcall R5. mcall R6. mcall (rinode_spec s6 V6 1 (bt_view _ _ (ho_built _ _ _ H6)) ltac:(lia)).
    rewrite (holds_root_size _ _ _ H6), (xint_id (16 * _)) by (unfold is_u32; lia). change (Z.of_nat BSIZE) with 512. mcall R7. exact R8.
  - eapply mkfs_image_of; [exact H6| | |reflexivity|exact C7|done|done]; [apply (ho_root _ _ _ H6)|by apply Z.mod_mul].
Qed.

(** C20: [mkfs] makes a sound file system with the files it is given.  If their
    blocks fit on the disk and the entries of the root directory do not fill its
    last block, [mkfs] ends without an error; the image has the superblock the
    kernel reads, an empty log, and satisfies the invariant of the file system (no
    block belongs to two files, the free map has every block of a file); the root
    directory lists the files by the last part of their paths, and the file of each
    entry has the contents of the file on the host. *)
Theorem mkfs_correct host paths datas :
  Forall2 (host_file host) paths datas → length paths <= 198 → (length paths + 2) mod 32 ≠ 0 → total (named paths datas) <= 941 →
  ∃ s, mkfs host paths = Ret tt s ∧ mkfs_image (named paths datas) s ∧ geom sb FSSIZE.
Proof.
  intros Hin Hlen Hmod Htot. destruct (mkfs_spec host paths datas Hin Hlen Hmod Htot) as (s & R & Hi). exists s. split_and!; [done|done|exact mkfs_geom].
Qed.

(** If the entries fill their last block, as 30 files with the two others do, the
    size of the root directory is that of one block more than the directory has:
    its second block has the number 0. *)
Lemma mkfs_root_hole :
  match mkfs (λ _, Some []) (replicate 30 [97]) with
  | Ret _ s => di_size (stored sb (im_block s) 1) = 1024 ∧ block_at (im_block s) (di_addrs (stored sb (im_block s) 1)) 1 = 0
  | _ => False
  end.
Proof. vm_compute. done. Qed.

(** ** Example: the file u/a *)

Lemma mkfs_correct_witness : ∃ s, mkfs (λ _, Some [104; 105]) [[117; 47; 97]] = Ret tt s ∧
  on_disk sb (im_block s) 2 = [104; 105] ∧ fs_ok sb (im_block s) ∧
  ∃ n, on_disk sb (im_block s) 1 = entry 1 [46] ++ entry 1 [46; 46] ++ entry 2 [97] ++ replicate n 0.
Proof.
  destruct (mkfs_correct (λ _, Some [104; 105]) [[117; 47; 97]] [[104; 105]]) as (s & R & [_ _ _ _ Hfs _ (_ & _ & n & Hr) Hf] & _).
  - constructor; [|constructor]. split_and!; [done|repeat constructor; unfold is_byte; lia..|cbn; lia].
  - cbn. lia.
  - vm_compute. congruence.
  - vm_compute. congruence.
  - exists s. split_and!; [done|by apply (Hf 0%nat [97])|done|]. exists n. exact Hr.
Defined.
