(* ===== verification/ConsoleSpec.v ===== *)
(** * The console as a line editor (src/console.c)

    The characters typed are edited in a line and put in a queue when the line
    ends; a read takes a line, or what it has room for, from the queue.  The ring
    [input] with its three indices, which wrap around at 32 bits, implements this. *)

From S2P Require Import Prelude Mem CString State Mmu Spinlock Kalloc Vm Proc Sleeplock Disk Bio Log Fs Pipe LogSpec LogCommit File FsRw LogTx BioSpec BioCorrect FileSpec Console.

Implicit Types (k : kernel) (i : input).

(** ** Output *)

(** The cursor is in the first 24 rows and the screen accepts output. *)
Record screen_ok (s : screen) : Prop := {
  so_pos : 0 <= sc_pos s < 24 * 80;
  so_live : sc_panicked s = false
}.

(** Output changes the screen only. *)
Definition printed k k' : Prop := ∃ s, k' = set_k_screen s k ∧ screen_ok s.

Lemma printed_refl k : screen_ok (k_screen k) → printed k k.
Proof. intros. exists (k_screen k). split; [by destruct k|done]. Qed.

Lemma printed_trans k1 k2 k3 : printed k1 k2 → printed k2 k3 → printed k1 k3.
Proof. intros (s & -> & _) (s' & -> & ?). by exists s'. Qed.

Lemma printed_ok k k' : printed k k' → screen_ok (k_screen k').
Proof. by intros (s & -> & ?). Qed.

Lemma uartputc_printed c k : screen_ok (k_screen k) → ∃ k', uartputc c k = Ret tt k' ∧ printed k k'.
Proof.
  intros [? ?]. eexists. split; [reflexivity|]. eexists. split; [reflexivity|]. destruct (sc_uart _); by split.
Qed.

Lemma scroll_pos crt pos : 0 <= pos <= 24 * 80 + 79 → 0 <= (scroll crt pos).2 < 24 * 80.
Proof.
  intros Hp. unfold scroll. destruct (Z.leb_spec 24 (pos / 80)); cbn [snd]; Z.div_mod_to_equations; lia.
Qed.

Lemma cgaputc_printed c k : screen_ok (k_screen k) → ∃ k', cgaputc c k = Ret tt k' ∧ printed k k'.
Proof.
  intros [Hp Hl]. unfold cgaputc. mrun. set (s := k_screen k) in *.
  match goal with |- context [let '(_, _) := ?e in _] => destruct e as [crt pos] eqn:E end.
  assert (0 <= pos <= 24 * 80 + 79) as Hr.
  { repeat case_match; simplify_eq; Z.div_mod_to_equations; lia. }
  rewrite (proj2 (Z.ltb_ge pos 0)) by lia. assert ((pos >? 25 * 80) = false) as -> by lia. cbn [orb].
  pose proof (scroll_pos crt pos Hr) as Hs. destruct (scroll crt pos) as [crt' pos']. cbn [snd] in Hs.
  eexists. split; [reflexivity|]. eexists. split; [reflexivity|]. split; [|done]. cbn [sc_pos set_sc_pos]. unfold u16. rewrite Z.mod_small by lia. lia.
Qed.

Lemma consputc_printed c k : screen_ok (k_screen k) → ∃ k', consputc c k = Ret tt k' ∧ printed k k'.
Proof.
  intros Hs. unfold consputc. mrun. rewrite (so_live _ Hs). cbv iota.
  assert (∃ k1, (if c =? BACKSPACE then uartputc 8 ;;; uartputc 32 ;;; uartputc 8 else uartputc c) k = Ret tt k1 ∧ printed k k1) as (k1 & R1 & P1).
  { destruct (c =? BACKSPACE); [|by apply uartputc_printed].
    destruct (uartputc_printed 8 k Hs) as (k1 & R1 & P1), (uartputc_printed 32 k1 (printed_ok _ _ P1)) as (k2 & R2 & P2),
      (uartputc_printed 8 k2 (printed_ok _ _ P2)) as (k3 & R3 & P3).
    exists k3. split; [mcall R1; by mcall R2|]. by eapply printed_trans, printed_trans. }
  destruct (cgaputc_printed c k1 (printed_ok _ _ P1)) as (k2 & R2 & P2). exists k2. split; [by mcall R1|by eapply printed_trans].
Qed.

(** A loop whose body prints. *)
Lemma foreach_printed {X} (l : list X) (body : X → K unit) (P : kernel → Prop) :
  (∀ k k', P k → printed k k' → P k') →
  (∀ x k, P k → screen_ok (k_screen k) → ∃ k', body x k = Ret tt k' ∧ printed k k') →
  ∀ k, P k → screen_ok (k_screen k) → ∃ k', foreach l body k = Ret tt k' ∧ printed k k'.
Proof.
  intros HP Hb. induction l as [|x l IH]; intros k Hk Hs; [exists k; split; [done|by apply printed_refl]|].
  destruct (Hb x k Hk Hs) as (k1 & R1 & P1), (IH k1 (HP _ _ Hk P1) (printed_ok _ _ P1)) as (k2 & R2 & P2).
  exists k2. split; [cbn [foreach]; by mcall R1|by eapply printed_trans].
Qed.

Lemma printed_held k k' ls : printed k k' → set_k_held ls k' = set_k_held ls (set_k_screen (k_screen k') k).
Proof. by intros (s & -> & _). Qed.

Lemma cprintf_printed fmt argp k : k_held k = [] → screen_ok (k_screen k) → ∃ k', cprintf true fmt argp k = Ret tt k' ∧ printed k k'.
Proof.
  intros Hh Hs. unfold cprintf, when. mcall (acquire_eq LCons k ltac:(rewrite Hh; apply not_elem_of_nil)). rewrite Hh.
  destruct (foreach_printed (format fmt argp) consputc (λ _, True) ltac:(done) ltac:(intros; by apply consputc_printed)
    (set_k_held [LCons] k) I Hs) as (k1 & R1 & (s & -> & Hs1)).
  mcall R1. rewrite (release_eq LCons _ []) by (done || apply not_elem_of_nil).
  eexists. split; [reflexivity|]. exists s. split; [|done]. rewrite <- Hh. by destruct k.
Qed.

Lemma procdump_printed k : k_held k = [] → screen_ok (k_screen k) → ∃ k', procdump true k = Ret tt k' ∧ printed k k'.
Proof.
  intros Hh Hs. apply (foreach_printed _ _ (λ k, k_held k = [])); [by intros k0 k' Hk (s & -> & _)| |done|done].
  clear k Hh Hs. intros x k Hh Hs. mrun. unfold when. destruct (negb _); [|exists k; split; [done|by apply printed_refl]].
  edestruct cprintf_printed as (k1 & R1 & P1); [exact Hh|exact Hs|]. mcall R1.
  assert (k_held k1 = []) as Hh1 by (by destruct P1 as (s & -> & _)). pose proof (printed_ok _ _ P1) as Hs1.
  assert (∀ k2, printed k1 k2 → ∃ k', cprintf true [newline] (args []) k2 = Ret tt k' ∧ printed k k') as Hlast.
  { intros k2 P2. destruct (cprintf_printed [newline] (args []) k2) as (k3 & R3 & P3); [by destruct P2 as (s & -> & _)|by eapply printed_ok|].
    exists k3. split; [done|]. by eapply printed_trans, printed_trans. }
  destruct (is_state SLEEPING _).
  - mrun. set (pcs := take _ _).
    destruct (foreach_printed pcs (λ pc, cprintf true (chars " %p") (args [mkVararg pc []])) (λ k, k_held k = [])) with (k := k1)
      as (k2 & R2 & P2); [by intros k0 k' Hk (s & -> & _)|intros pc k0 Hk0 Hs0; by apply cprintf_printed|done|done|].
    mcall R2. by apply Hlast.
  - mrun. by apply Hlast, printed_refl.
Qed.

(** ** The editor *)

(** The queue and the line after the character [c]. *)
Definition type_char (c : Z) (x : list Z * list Z) : list Z * list Z :=
  let (q, l) := x in
  if c =? ctrl_P then x
  else if c =? ctrl_U then (q, [])
  else if (c =? ctrl_H) || (c =? 127) then (q, take (length l - 1) l)
  else if (c =? 0) || (128 <=? length q + length l) then x
  else
    let c := if c =? 13 then newline else c in
    if (c =? newline) || (c =? ctrl_D) || (Z.of_nat (length q + length l) =? 127) then (q ++ l ++ [c], [])
    else (q, l ++ [c]).

(** What a read of [n] bytes takes from the queue, and what it leaves; it does
    not end as long as it runs out of input.  A control-D that ends a read which
    has got something is left for the next read. *)
Fixpoint read_input (n : nat) (some : bool) (q : list Z) : option (list Z * list Z) :=
  match n, q with
  | O, _ => Some ([], q)
  | S n, [] => None
  | S n, c :: q' =>
      if c =? ctrl_D then Some ([], if some then q else q')
      else if c =? newline then Some ([c], q')
      else '(bs, r) ← read_input n true q'; Some (c :: bs, r)
  end.

(** ** The ring *)

Record ring i (q l : list Z) : Prop := {
  ri_len : length (in_buf i) = 128%nat;
  ri_r : is_u32 (in_r i);
  ri_w : in_w i = u32 (in_r i + length q);
  ri_e : in_e i = u32 (in_r i + length q + length l);
  ri_room : length q + length l <= 128;
  ri_ring : ∀ j : nat, (j < length q + length l)%nat → ring_at i (in_r i + j) = (q ++ l) !!! j
}.

Lemma u32_mod128 n : u32 n mod INPUT_BUF = n mod 128.
Proof. unfold u32, INPUT_BUF. Z.div_mod_to_equations. lia. Qed.

Lemma ring_at_eq i n : ring_at i n = in_buf i !!! Z.to_nat (n mod 128).
Proof. unfold ring_at. by rewrite u32_mod128. Qed.

(** Different places of the ring, seen from the read index. *)
Lemma ring_place r a b : 0 <= a < 128 → 0 <= b < 128 → (r + a) mod 128 = (r + b) mod 128 → a = b.
Proof. intros. Z.div_mod_to_equations. lia. Qed.

Lemma ring_edge i q l : ring i q l → (in_e i =? in_w i) = bool_decide (l = []) ∧ u32 (in_e i - in_w i) = length l ∧
  u32 (in_e i - in_r i) = length q + length l ∧ (in_r i =? in_w i) = bool_decide (q = []).
Proof.
  intros [_ Hr Hw He Hm _]. rewrite He, Hw. unfold is_u32 in Hr.
  assert (∀ l : list Z, length l = 0 :> Z ↔ l = []) as Hnil by (intros [|]; cbn; split; (done || lia)).
  split_and!.
  - apply eq_true_iff_eq. rewrite Z.eqb_eq, bool_decide_eq_true, <- Hnil. unfold u32. Z.div_mod_to_equations. lia.
  - unfold u32. Z.div_mod_to_equations. lia.
  - unfold u32. Z.div_mod_to_equations. lia.
  - apply eq_true_iff_eq. rewrite Z.eqb_eq, bool_decide_eq_true, <- Hnil. unfold u32. Z.div_mod_to_equations. lia.
Qed.

Lemma ring_erase i q l c : ring i q (l ++ [c]) → ring (set_in_e (u32 (in_e i - 1)) i) q l ∧ ring_at i (in_e i - 1) = c.
Proof.
  intros [Hl Hr Hw He Hm Hg]. rewrite length_app in *. cbn [length] in *. split.
  - split; cbn [in_buf in_r in_w in_e set_in_e]; [done|done|done| |lia|].
    + rewrite He. unfold u32. Z.div_mod_to_equations. lia.
    + intros j Hj. change (ring_at i (in_r i + j) = (q ++ l) !!! j). rewrite Hg by lia. rewrite app_assoc. by rewrite lookup_total_app_l by (rewrite length_app; lia).
  - rewrite ring_at_eq, He. rewrite <- (list_lookup_total_middle (q ++ l) [] c (length q + length l)) by (rewrite length_app; lia).
    rewrite <- app_assoc, <- Hg, ring_at_eq by lia. do 2 f_equal. unfold u32. Z.div_mod_to_equations. lia.
Qed.

Definition push (c : Z) i : input :=
  set_in_e (u32 (in_e i + 1)) (set_in_buf (<[Z.to_nat (in_e i mod INPUT_BUF) := c]> (in_buf i)) i).

Lemma ring_push i q l c : ring i q l → length q + length l < 128 → ring (push c i) q (l ++ [c]).
Proof.
  intros [Hl Hr Hw He Hm Hg] Hroom. assert (in_e i mod INPUT_BUF = (in_r i + (length q + length l)%nat) mod 128) as Epos.
  { rewrite He, u32_mod128. f_equal. lia. }
  assert (0 <= in_e i mod INPUT_BUF < 128) as Hpos by (apply Z.mod_pos_bound; done).
  split; cbn [push in_buf in_r in_w in_e set_in_e set_in_buf]; rewrite ?length_app; cbn [length].
  - by rewrite length_insert.
  - done.
  - done.
  - rewrite He. unfold u32. Z.div_mod_to_equations. lia.
  - lia.
  - intros j Hj. rewrite ring_at_eq. cbn [push in_buf in_r set_in_e set_in_buf]. rewrite app_assoc.
    destruct (decide (j = length q + length l)%nat) as [->|Hne].
    + rewrite <- Epos, list_lookup_total_insert_eq by lia. rewrite list_lookup_total_middle; [done|rewrite length_app; lia].
    + rewrite lookup_total_app_l by (rewrite length_app; lia). rewrite list_lookup_total_insert_ne.
      * rewrite <- ring_at_eq. apply Hg. lia.
      * rewrite Epos. intros E. apply Hne. apply Z2Nat.inj in E; [|apply Z.mod_pos_bound; lia..]. apply ring_place in E; lia.
Qed.

Lemma ring_commit i q l : ring i q l → ring (set_in_w (in_e i) i) (q ++ l) [].
Proof.
  intros [Hl Hr Hw He Hm Hg]. split; cbn [in_buf in_r in_w in_e set_in_w]; rewrite ?length_app; cbn [length]; [done|done| | |lia|].
  - rewrite He. f_equal. lia.
  - rewrite He. f_equal. lia.
  - intros j Hj. rewrite app_nil_r. apply Hg. lia.
Qed.

Lemma ring_take i q l c : ring i (c :: q) l → ring (set_in_r (u32 (in_r i + 1)) i) q l ∧ ring_at i (in_r i) = c.
Proof.
  intros [Hl Hr Hw He Hm Hg]. cbn [length] in *. split.
  - split; cbn [in_buf in_r in_w in_e set_in_r]; [done|apply u32_range| | |lia|].
    + rewrite Hw. unfold u32. Z.div_mod_to_equations. lia.
    + rewrite He. unfold u32. Z.div_mod_to_equations. lia.
    + intros j Hj. specialize (Hg (S j) ltac:(lia)). change (((c :: q) ++ l) !!! S j) with ((q ++ l) !!! j) in Hg. rewrite <- Hg, !ring_at_eq. cbn [in_buf set_in_r]. do 2 f_equal.
      unfold u32. Z.div_mod_to_equations. lia.
  - specialize (Hg 0%nat ltac:(lia)). by rewrite Z.add_0_r in Hg.
Qed.

Lemma ring_untake i q l c : ring i (c :: q) l → set_in_r (u32 (u32 (in_r i + 1) - 1)) (set_in_r (u32 (in_r i + 1)) i) = i.
Proof.
  intros [_ Hr _ _ _ _]. destruct i as [b r w e]. unfold set_in_r. cbn [in_buf in_r in_w in_e] in *. f_equal. unfold is_u32, u32 in *. Z.div_mod_to_equations. lia.
Qed.

(** ** The interrupt handler *)

Definition wake_readers (pt : list proc) : list proc := (λ p, if wakes CInput p then set_p_state RUNNABLE p else p) <$> pt.

(** The handler changes the screen, the ring and the processes that wait for
    input, which are woken when the queue has grown from [q] to [q']. *)
Record typed k (q : list Z) k' (q' : list Z) : Prop := {
  ty_frame : k' = set_k_ptable (k_ptable k') (set_k_input (k_input k') (set_k_screen (k_screen k') k));
  ty_screen : screen_ok (k_screen k');
  ty_queue : ∃ more, q' = q ++ more;
  ty_woken : k_ptable k' = if decide (q' = q) then k_ptable k else wake_readers (k_ptable k)
}.

Lemma typed_printed k k' q i : printed k k' → typed k q (set_k_input i k') q.
Proof.
  intros (s & -> & Hs). split; [by destruct k|done|exists []; by rewrite app_nil_r|by rewrite decide_True].
Qed.

Lemma wake_readers_twice pt : wake_readers (wake_readers pt) = wake_readers pt.
Proof.
  unfold wake_readers. rewrite <- list_fmap_compose. apply list_fmap_ext. intros _ p _. cbn. unfold wakes.
  assert (is_state SLEEPING (set_p_state RUNNABLE p) = false) as Er by done.
  destruct (is_state SLEEPING p && bool_decide (p_chan p = Some CInput)) eqn:E; [by rewrite Er|by rewrite E].
Qed.

Lemma typed_trans k1 q1 k2 q2 k3 q3 : typed k1 q1 k2 q2 → typed k2 q2 k3 q3 → typed k1 q1 k3 q3.
Proof.
  intros [F1 S1 [m1 E1] W1] [F2 S2 [m2 E2] W2]. split; [|done|exists (m1 ++ m2); by rewrite E2, E1, app_assoc|].
  - rewrite F2, F1. by destruct k1.
  - rewrite W2, W1. destruct (decide (q2 = q1)) as [->|Hne]; [done|]. destruct (decide (q3 = q2)) as [->|]; [by rewrite decide_False|].
    rewrite wake_readers_twice, decide_False; [done|]. intros E. apply Hne. subst q2 q3.
    apply (f_equal length) in E. rewrite !length_app in E. destruct m1; [by rewrite app_nil_r|cbn in E; lia].
Qed.

Lemma typed_held k q k' q' : typed k q k' q' → k_held k' = k_held k.
Proof. intros [-> _ _ _]. done. Qed.

Lemma kill_line_spec k q l : ring (k_input k) q l → newline ∉ l → screen_ok (k_screen k) →
  ∃ k', kill_line (length l) k = Ret tt k' ∧ ring (k_input k') q [] ∧ typed k q k' q.
Proof.
  revert k. induction l as [|c l IH] using rev_ind; intros k Hr Hn Hs.
  { exists k. split_and!; [done|done|]. replace k with (set_k_input (k_input k) k) at 2 by (by destruct k). by apply typed_printed, printed_refl. }
  rewrite length_app, Nat.add_1_r. cbn [kill_line]. mrun. destruct (ring_edge _ _ _ Hr) as (Ee & _), (ring_erase _ _ _ _ Hr) as [Hr' Hc].
  rewrite Ee, Hc, bool_decide_false by (by destruct l). rewrite not_elem_of_app, list_elem_of_singleton in Hn. destruct Hn as [Hn Hcn].
  rewrite (proj2 (Z.eqb_neq c newline)) by done. cbn [negb andb]. unfold upd_input. mrun.
  destruct (consputc_printed BACKSPACE (set_k_input (set_in_e (u32 (in_e (k_input k) - 1)) (k_input k)) k) Hs) as (k1 & R1 & P1). mcall R1.
  assert (k_input k1 = set_in_e (u32 (in_e (k_input k) - 1)) (k_input k)) as Ei by (by destruct P1 as (s & -> & _)).
  destruct (IH k1) as (k2 & R2 & Hr2 & T2); [by rewrite Ei|done|by eapply printed_ok|].
  exists k2. split_and!; [done|done|]. eapply typed_trans; [|exact T2].
  destruct P1 as (s & -> & Hs1). by apply (typed_printed k (set_k_screen s k)); exists s.
Qed.

Lemma backspace_spec k q l : ring (k_input k) q l → screen_ok (k_screen k) →
  ∃ k', when (negb (in_e (k_input k) =? in_w (k_input k)))
      (upd_input (λ i, set_in_e (u32 (in_e i - 1)) i) ;;; consputc BACKSPACE) k = Ret tt k' ∧
    ring (k_input k') q (take (length l - 1) l) ∧ typed k q k' q.
Proof.
  intros Hr Hs. destruct (ring_edge _ _ _ Hr) as (-> & _). destruct l as [|c l _] using rev_ind; cbn [bool_decide negb].
  - exists k. split_and!; [done|done|]. replace k with (set_k_input (k_input k) k) at 2 by (by destruct k). by apply typed_printed, printed_refl.
  - rewrite bool_decide_false by (by destruct l). cbn [when negb]. destruct (ring_erase _ _ _ _ Hr) as [Hr' _]. unfold upd_input. mrun.
    destruct (consputc_printed BACKSPACE (set_k_input (set_in_e (u32 (in_e (k_input k) - 1)) (k_input k)) k) Hs) as (k1 & R1 & (s & -> & Hs1)).
    eexists. split; [exact R1|]. rewrite length_app, Nat.add_sub, take_app_length. split; [exact Hr'|].
    by apply (typed_printed k (set_k_screen s k)); exists s.
Qed.

(** The default case, for a character that there is room for. *)
Lemma put_char_spec k q l c : k_held k = [LCons] → ring (k_input k) q l → newline ∉ l → screen_ok (k_screen k) → length q + length l < 128 →
  let fin := (c =? newline) || (c =? ctrl_D) || (Z.of_nat (length q + length l) =? 127) in
  let q' := if fin then q ++ l ++ [c] else q in let l' := if fin then [] else l ++ [c] in
  ∃ k', (upd_input (push c) ;;; consputc c ;;; i <- gets k_input ;;
      when ((c =? newline) || (c =? ctrl_D) || (in_e i =? u32 (in_r i + INPUT_BUF)))
        (upd_input (λ i, set_in_w (in_e i) i) ;;; wakeup CInput)) k = Ret tt k' ∧
    ring (k_input k') q' l' ∧ newline ∉ l' ∧ typed k q k' q'.
Proof.
  intros Hh Hr Hn Hs Hroom fin q' l'. pose proof (ring_push _ _ _ c Hr Hroom) as Hr1. unfold upd_input at 1. mrun.
  destruct (consputc_printed c (set_k_input (push c (k_input k)) k) Hs) as (k1 & R1 & (s & -> & Hs1)). mcall R1.
  set (k1 := set_k_screen s (set_k_input (push c (k_input k)) k)) in *. change (k_input k1) with (push c (k_input k)).
  assert (typed k q k1 q) as T1 by (by apply (typed_printed k (set_k_screen s k)); exists s).
  assert ((in_e (push c (k_input k)) =? u32 (in_r (push c (k_input k)) + INPUT_BUF)) = (Z.of_nat (length q + length l) =? 127)) as ->.
  { rewrite (ri_e _ _ _ Hr1), length_app. cbn [length]. pose proof (ri_r _ _ _ Hr1) as Hu. set (r := in_r (push c (k_input k))) in *.
    apply eq_true_iff_eq. rewrite !Z.eqb_eq. unfold u32, is_u32, INPUT_BUF in *. Z.div_mod_to_equations. lia. }
  fold fin. unfold q', l'. destruct fin eqn:Ef; cbn [when].
  - unfold upd_input. mrun. rewrite wakeup_eq by (cbn; rewrite Hh; set_solver). eexists. split; [reflexivity|]. split_and!.
    + exact (ring_commit _ _ _ Hr1).
    + apply not_elem_of_nil.
    + eapply typed_trans; [exact T1|]. split; [by destruct k1|exact Hs1|by exists (l ++ [c])|].
      rewrite decide_False; [done|]. intros E. apply (f_equal length) in E. rewrite !length_app in E. cbn in E. lia.
  - exists k1. split_and!; [done|exact Hr1| |done]. unfold fin in Ef. apply orb_false_iff in Ef as [[Ef _]%orb_false_iff _].
    apply Z.eqb_neq in Ef. rewrite not_elem_of_app, list_elem_of_singleton. by split; [|apply not_eq_sym].
Qed.

Lemma console_char_spec k q l c : k_held k = [LCons] → ring (k_input k) q l → newline ∉ l → screen_ok (k_screen k) →
  let x := type_char c (q, l) in
  ∃ k', console_char c k = Ret (c =? ctrl_P) k' ∧ ring (k_input k') x.1 x.2 ∧ newline ∉ x.2 ∧ typed k q k' x.1.
Proof.
  intros Hh Hr Hn Hs x. assert (typed k q k q) as T0.
  { replace k with (set_k_input (k_input k) k) at 2 by (by destruct k). by apply typed_printed, printed_refl. }
  destruct (ring_edge _ _ _ Hr) as (_ & Ekill & Efree & _). unfold console_char, x, type_char. mrun.
  destruct (Z.eqb_spec c ctrl_P) as [->|HP]; [by exists k|]. destruct (Z.eqb_spec c ctrl_U) as [->|HU].
  { rewrite Ekill, Nat2Z.id. destruct (kill_line_spec k q l Hr Hn Hs) as (k1 & R1 & Hr1 & T1). exists k1. split; [by mcall R1|].
    split_and!; [done|apply not_elem_of_nil|done]. }
  destruct ((c =? ctrl_H) || (c =? 127)).
  { destruct (backspace_spec k q l Hr Hs) as (k1 & R1 & Hr1 & T1). exists k1. split; [by mcall R1|]. split_and!; [done| |done].
    intros Hin. apply Hn. cbn [snd] in Hin. rewrite <- (take_drop (length l - 1) l). apply elem_of_app. by left. }
  rewrite Efree. unfold INPUT_BUF at 1. destruct (Z.eqb_spec c 0) as [->|H0]; cbn [negb andb orb when]; [by exists k|].
  destruct (Z.ltb_spec (length q + length l) 128) as [Hlt|Hge]; cbn [when]; [rewrite (proj2 (Z.leb_gt 128 _)) by lia|].
  2: { rewrite (proj2 (Z.leb_le 128 _)) by lia. by exists k. }
  cbv zeta. set (c' := if c =? 13 then newline else c).
  destruct (put_char_spec k q l c' Hh Hr Hn Hs Hlt) as (k1 & R1 & Hr1 & Hn1 & T1). exists k1. split; [by mcall R1|].
  destruct ((c' =? newline) || (c' =? ctrl_D) || (Z.of_nat (length q + length l) =? 127)); done.
Qed.

Lemma console_chars_spec cs : ∀ k q l, k_held k = [LCons] → ring (k_input k) q l → newline ∉ l → screen_ok (k_screen k) →
  let x := foldl (flip type_char) (q, l) cs in
  ∃ d k', console_chars cs k = Ret d k' ∧ ring (k_input k') x.1 x.2 ∧ newline ∉ x.2 ∧ typed k q k' x.1.
Proof.
  induction cs as [|c cs IH]; intros k q l Hh Hr Hn Hs.
  { exists false, k. split_and!; [done|done|done|]. replace k with (set_k_input (k_input k) k) at 2 by (by destruct k). by apply typed_printed, printed_refl. }
  destruct (console_char_spec k q l c Hh Hr Hn Hs) as (k1 & R1 & Hr1 & Hn1 & T1). cbn [foldl flip].
  destruct (type_char c (q, l)) as [q1 l1]. cbn [fst snd] in *.
  destruct (IH k1 q1 l1) as (d & k2 & R2 & Hr2 & Hn2 & T2); [by rewrite (typed_held _ _ _ _ T1)|done|done|apply T1|].
  eexists _, k2. split_and!; [cbn [console_chars]; mcall R1; by mcall R2|done|done|by eapply typed_trans].
Qed.

Lemma consoleintr_spec k q l cs : k_held k = [] → ring (k_input k) q l → newline ∉ l → screen_ok (k_screen k) →
  let x := foldl (flip type_char) (q, l) cs in
  ∃ k', consoleintr cs k = Ret tt k' ∧ ring (k_input k') x.1 x.2 ∧ newline ∉ x.2 ∧ typed k q k' x.1.
Proof.
  intros Hh Hr Hn Hs x. unfold consoleintr. mcall (acquire_eq LCons k ltac:(rewrite Hh; apply not_elem_of_nil)). rewrite Hh.
  destruct (console_chars_spec cs (set_k_held [LCons] k) q l eq_refl Hr Hn Hs) as (d & k1 & R1 & Hr1 & Hn1 & T1). fold x in Hr1, Hn1, T1.
  mcall R1. rewrite (bind_eq _ _ _ _ _ (release_eq LCons k1 [] (typed_held _ _ _ _ T1) (not_elem_of_nil _))).
  assert (typed k q (set_k_held [] k1) x.1) as T2.
  { destruct T1 as [F1 S1 Q1 W1]. split; [|done|done|done]. rewrite F1, <- Hh. by destruct k. }
  destruct d; cbn [when]; [|by exists (set_k_held [] k1)].
  destruct (procdump_printed (set_k_held [] k1) eq_refl (ty_screen _ _ _ _ T2)) as (k2 & R2 & (s & -> & Hs2)).
  eexists. split_and!; [exact R2|exact Hr1|done|]. eapply typed_trans; [exact T2|].
  split; [by destruct k1|done|exists []; by rewrite app_nil_r|by rewrite decide_True].
Qed.

(** ** Reading *)

Section read.
Context `{W : Wakeups} `{D : DiskDriver}.

Lemma wait_input_ready fuel k q l : ring (k_input k) q l → q ≠ [] → wait_input fuel k = Ret true k.
Proof using Type.
  intros Hr Hq. destruct (ring_edge _ _ _ Hr) as (_ & _ & _ & E). rewrite bool_decide_false in E by done.
  destruct fuel; cbn [wait_input]; mrun; by rewrite E.
Qed.

Lemma consoleread_loop_spec n : ∀ some k q l bs q', ring (k_input k) q l → read_input n some q = Some (bs, q') →
  ∃ i, consoleread_loop n some k = Ret (bs, false) (set_k_input i k) ∧ ring i q' l.
Proof using Type.
  induction n as [|n IH]; intros some k q l bs q' Hr Hq; cbn [read_input] in Hq.
  { destruct q; injection Hq as <- <-; exists (k_input k); (split; [by destruct k|done]). }
  destruct q as [|c q]; [done|]. destruct (ring_take _ _ _ _ Hr) as [Hr1 Hc]. cbn [consoleread_loop].
  mcall (wait_input_ready wakeups k (c :: q) l Hr ltac:(done)). cbn [negb]. mrun. rewrite Hc. unfold upd_input. mrun.
  destruct (c =? ctrl_D).
  { destruct some; injection Hq as <- <-; unfold when; mrun; [|by eexists].
    exists (k_input k). split; [|done]. unfold ret. f_equal.
    etrans; [|exact (f_equal (λ i, set_k_input i k) (ring_untake _ q l c Hr))]. by destruct k. }
  destruct (c =? newline).
  { injection Hq as <- <-. by eexists. }
  destruct (read_input n true q) as [[bs1 r1]|] eqn:E; [|done]. injection Hq as <- <-.
  destruct (IH true (set_k_input (set_in_r (u32 (in_r (k_input k) + 1)) (k_input k)) k) q l bs1 r1 Hr1 E) as (i & R & Hi).
  exists i. split; [|done]. by mcall R.
Qed.

(** The file of the console, locked by the process [pid]. *)
Record console_inode k pid ip : Prop := {
  ci_slot : (ip < length (k_icache k))%nat;
  ci_ref : 1 <= i_ref (inode_at k ip);
  ci_valid : i_valid (inode_at k ip) = true;
  ci_lock : i_lock (inode_at k ip) = mkSleeplock true pid
}.

Lemma running_woken k pid c : running k pid → running (woken c k) pid.
Proof using Type. intros. eapply log_frame_running; [apply woken_frame|done]. Qed.

Lemma relock k ip pid : console_inode k pid ip →
  upd_inode ip (set_i_lock (mkSleeplock true pid)) (upd_inode ip (set_i_lock (mkSleeplock false 0)) k) = k.
Proof using Type.
  intros [Hs _ _ Hl]. unfold upd_inode. cbn [k_icache set_k_icache].
  assert (alter (set_i_lock (mkSleeplock true pid)) ip (alter (set_i_lock (mkSleeplock false 0)) ip (k_icache k)) = k_icache k) as ->; [|by destruct k].
  apply list_eq. intros j. destruct (decide (ip = j)) as [<-|]; [|by rewrite !list_lookup_alter_ne].
  rewrite !list_lookup_alter_eq. pose proof (list_lookup_lookup_total_lt (k_icache k) ip Hs) as E. fold (inode_at k ip) in E. rewrite E. cbn.
  f_equal. rewrite <- Hl. by destruct (inode_at k ip).
Qed.

Lemma consoleread_spec k pid ip q l n bs q' : running k pid → console_inode k pid ip → ring (k_input k) q l →
  read_input (Z.to_nat n) false q = Some (bs, q') →
  ∃ i, consoleread ip n k = Ret (Z.of_nat (length bs), bs) (woken (CInodeLock ip) (set_k_input i k)) ∧ ring i q' l.
Proof using Type.
  intros Hrun Hci Hr Hq. pose proof Hci as [Hs Href Hv Hl]. unfold consoleread. mcall (iunlock_held pid k ip Hrun Href Hl).
  set (k1 := woken (CInodeLock ip) (upd_inode ip (set_i_lock (mkSleeplock false 0)) k)).
  assert (running k1 pid) as Hrun1 by (by apply running_woken). pose proof Hrun1 as [Hh1 _].
  mcall (acquire_eq LCons k1 ltac:(rewrite Hh1; apply not_elem_of_nil)). rewrite Hh1.
  destruct (consoleread_loop_spec (Z.to_nat n) false (set_k_held [LCons] k1) q l bs q' Hr Hq) as (i & R & Hi). mcall R.
  mcall (release_eq LCons (set_k_input i (set_k_held [LCons] k1)) [] eq_refl (not_elem_of_nil _)).
  set (k2 := set_k_held [] (set_k_input i (set_k_held [LCons] k1))).
  assert (k2 = set_k_input i k1) as -> by (unfold k2; rewrite <- Hh1; by destruct k1).
  destruct (inode_at_alter k (set_k_input i k1) (set_i_lock (mkSleeplock false 0)) ip Hs eq_refl) as [Ei El].
  rewrite (bind_eq _ _ _ _ _ (ilock_valid pid (set_k_input i k1) ip Hrun1 ltac:(by rewrite Ei) ltac:(by rewrite Ei) ltac:(by rewrite Ei) ltac:(by rewrite El))).
  mrun. exists i. split; [|done]. cbn [fst snd]. unfold ret. f_equal.
  etrans; [|exact (f_equal (λ k, woken (CInodeLock ip) (set_k_input i k)) (relock k ip pid Hci))]. by destruct k.
Qed.

(** C21: The console is a line editor with a queue.  The interrupt handler does to
    the ring what the editor does to its queue and line, for any characters,
    across wrap-around of the indices and with a full buffer; it does not panic,
    wakes the readers exactly when the queue has grown, and changes nothing else
    but the screen.  A read that the queue can satisfy returns the bytes it takes
    from the queue, up to a newline, a control-D or the number asked for. *)
Theorem console_correct k q l : ring (k_input k) q l → newline ∉ l →
  (∀ cs, k_held k = [] → screen_ok (k_screen k) →
    let x := foldl (flip type_char) (q, l) cs in
    ∃ k', consoleintr cs k = Ret tt k' ∧ ring (k_input k') x.1 x.2 ∧ newline ∉ x.2 ∧ typed k q k' x.1) ∧
  (∀ pid ip n bs q', running k pid → console_inode k pid ip → read_input (Z.to_nat n) false q = Some (bs, q') →
    ∃ i, consoleread ip n k = Ret (Z.of_nat (length bs), bs) (woken (CInodeLock ip) (set_k_input i k)) ∧ ring i q' l).
Proof using Type.
  intros Hr Hn. split; [intros cs Hh Hs; by apply consoleintr_spec|]. intros pid ip n bs q' Hrun Hci Hq. by eapply consoleread_spec.
Qed.
End read.

(** ** Example: the line hi, typed with a mistake, is read *)

Definition demo_console (k : kernel) : kernel :=
  set_k_screen (mkScreen (replicate 2000 0) 0 false [] false) (set_k_input (mkInput (replicate 128 0) 4294967294 4294967294 4294967294) k).

Lemma demo_console_ring k : ring (k_input (demo_console k)) [] [].
Proof. split; [done|done|done|done|cbn; lia|cbn; lia]. Qed.

(** A process with the console open, and a line in the queue. *)
Definition demo_reader : kernel :=
  set_k_input (mkInput ([104; 105; 10] ++ replicate 125 0) 0 3 3)
    (set_k_icache [mkInode ROOTDEV 3 1 (mkSleeplock true 1) true T_DEV CONSOLE 0 1 0 (replicate 13 0)] (demo_process kernel0)).

Lemma demo_reader_ring : ring (k_input demo_reader) [104; 105; 10] [].
Proof.
  split; [done|done|done|done|cbn; lia|]. intros j Hj. cbn [length Nat.add] in Hj. destruct j as [|[|[|j]]]; [done|done|done|lia].
Qed.

Lemma console_correct_witness :
  (∃ k', consoleintr [104; 106; 8; 105; 13] (demo_console kernel0) = Ret tt k' ∧ ring (k_input k') [104; 105; 10] []) ∧
  ∃ k', consoleread (W := 0%nat) 0 100 demo_reader = Ret (3, [104; 105; 10]) k'.
Proof.
  split.
  - destruct (console_correct (W := 0%nat) (D := memide) (demo_console kernel0) [] [] (demo_console_ring _) (not_elem_of_nil _)) as [Hi _].
    destruct (Hi [104; 106; 8; 105; 13] eq_refl) as (k' & R & Hr & _); [split; cbn; [lia|done]|]. by exists k'.
  - destruct (console_correct (W := 0%nat) (D := memide) demo_reader _ [] demo_reader_ring (not_elem_of_nil _)) as [_ Hread].
    destruct (Hread 1 0%nat 100 [104; 105; 10] []) as (i & R & _); [|split; [apply Nat.lt_0_1|cbn; lia|done|done]|done|by eexists].
    exact (demo_process_running kernel0 eq_refl eq_refl).
Defined.
