(* ===== verification/DirSpec.v ===== *)
(** * Directories (src/fs.c: dirlookup, dirlink)

    A directory is a file of entries of 16 bytes.  [dirlookup] finds the first entry
    in use that has the name, and [dirlink] puts a new entry in the first one that
    is not in use, or at the end. *)

From stdpp Require Import functions.
From S2P Require Import Prelude Mem CString State Mmu Spinlock Kalloc Vm Proc Sleeplock Disk Bio BioSpec BioCorrect.
From S2P Require Import Log LogSpec LogCommit LogTx Fs FsTx FsFile FsBmap FsDinode FsWrite FsRw FsInv File LogCorrect FileSpec Dir Mkfs MkfsSpec MkfsCorrect.

(** ** Entries *)

Definition entry_at (data : list Z) (j : nat) : dirent := dirent_of (slice data (16 * j) 16).
Definition dir_entries (data : list Z) : list dirent := entry_at data <$> seq 0 (length data / 16).

(** The entry is in use and has the name; it is not in use. *)
Definition has_name (name : list Z) (de : dirent) : bool := negb (de_inum de =? 0) && (namecmp name (de_name de) =? 0).
Definition is_free (de : dirent) : bool := de_inum de =? 0.

Definition find_entry (name data : list Z) : option nat := find_index (has_name name) (dir_entries data).
(** The place for a new entry. *)
Definition find_slot (data : list Z) : nat := default (length data / 16)%nat (find_index is_free (dir_entries data)).

Lemma lookup_entries data j de : dir_entries data !! j = Some de ↔ (j < length data / 16)%nat ∧ de = entry_at data j.
Proof.
  unfold dir_entries. rewrite list_lookup_fmap_Some. split.
  - intros (i & -> & [-> Hi]%lookup_seq). done.
  - intros [Hj ->]. exists j. split; [done|]. by rewrite lookup_seq_lt.
Qed.

Lemma length_entries data : length (dir_entries data) = (length data / 16)%nat.
Proof. unfold dir_entries. by rewrite length_fmap, length_seq. Qed.

Lemma find_slot_le data : (find_slot data <= length data / 16)%nat.
Proof.
  unfold find_slot. destruct (find_index _ _) as [i|] eqn:E; [|done]. apply find_index_Some in E as [(de & Hi & _) _].
  apply lookup_lt_Some in Hi. rewrite length_entries in Hi. change (i <= length data / 16)%nat. lia.
Qed.

(** A name as [dirlink] stores it is found by [namecmp]. *)
Lemma strncmp_stored n : ∀ name, strncmp_bytes name (take n (pad n (cstr name))) n = 0.
Proof.
  induction n as [|n IH]; intros name; [done|]. destruct name as [|c name]; cbn [cstr strncmp_bytes hd tl].
  - unfold pad. cbn. done.
  - destruct (Z.eqb_spec c 0) as [->|Hc]; [done|]. unfold pad. cbn [app length Nat.sub take hd tl negb andb]. rewrite Z.eqb_refl. cbn [negb andb]. apply IH.
Qed.

Lemma namecmp_stored name : namecmp name (dir_name name) = 0.
Proof. apply strncmp_stored. Qed.

Lemma dirent_bytes_of inum name : 0 <= inum < 65536 → dirent_of (dirent_bytes (mkDirent inum (dir_name name))) = mkDirent inum (dir_name name).
Proof.
  intros Hi. unfold dirent_of, dirent_bytes, get16, slice. cbn [de_inum de_name bytes_of_u16 app drop take]. f_equal.
  rewrite <- (Z.mod_small inum 65536) at 3 by lia. apply (u16_of_bytes_of_u16 inum).
Qed.

(** ** A directory with a new entry *)

Section patched.
Context (data : list Z) (j : nat) (e : list Z).
Hypotheses (Hmod : (length data mod 16 = 0)%nat) (Hj : (j <= length data / 16)%nat) (He : length e = 16%nat).
Abbreviation data' := (patch data (16 * j) e).

Lemma patched_pos : (16 * j <= length data)%nat.
Proof using Hj. clear Hmod He. pose proof (Nat.div_mod_eq (length data) 16). lia. Qed.

Lemma patched_count : (length data' / 16 = Nat.max (length data / 16) (S j))%nat.
Proof using Hmod Hj He.
  pose proof patched_pos. pose proof (Nat.div_mod_eq (length data) 16). rewrite length_patch, He by done.
  destruct (decide (j < length data / 16)%nat).
  - rewrite !Nat.max_l by lia. done.
  - rewrite !Nat.max_r by lia. symmetry. apply (Nat.div_unique _ 16 (S j) 0); lia.
Qed.

Lemma patched_entry i : (i < Nat.max (length data / 16) (S j))%nat →
  entry_at data' i = if decide (i = j) then dirent_of e else entry_at data i.
Proof using Hmod Hj He.
  intros Hi. pose proof patched_pos as Hp. pose proof (Nat.div_mod_eq (length data) 16) as Hd. unfold entry_at, slice, patch.
  assert (length (take (16 * j) data) = 16 * j)%nat as Hl by (rewrite length_take; lia). case_decide as E.
  - subst i. f_equal. rewrite drop_app_length' by done. rewrite take_app_length' by done. done.
  - f_equal. destruct (decide (i < j)%nat).
    + rewrite drop_app_le, take_app_le by (rewrite ?length_drop; lia). rewrite skipn_firstn_comm, take_take. f_equal. lia.
    + rewrite drop_app_ge, Hl, drop_app_ge, He by (rewrite ?Hl, ?He; lia). rewrite drop_drop. f_equal. f_equal. lia.
Qed.

Lemma patched_lookup i : dir_entries data' !! i =
  if decide (i = j) then Some (dirent_of e) else dir_entries data !! i.
Proof using Hmod Hj He.
  apply option_eq. intros de. rewrite lookup_entries, patched_count. case_decide as E.
  - subst i. split; [intros [Hi ->]; rewrite patched_entry by done; by rewrite decide_True|intros [= <-]; split; [lia|]].
    rewrite patched_entry by lia. by rewrite decide_True.
  - rewrite lookup_entries. split; intros [Hi ->]; (split; [lia|]); rewrite patched_entry by lia; by rewrite decide_False.
Qed.
End patched.

(** Lists that agree where the predicate can hold have the same first index. *)
Lemma find_index_agree {A} (P : A → bool) (l l' : list A) :
  (∀ i x, P x = true → l !! i = Some x ↔ l' !! i = Some x) → find_index P l = find_index P l'.
Proof.
  intros Hag. apply option_eq. intros i. rewrite !find_index_Some.
  assert (∀ l l' : list A, (∀ i x, P x = true → l !! i = Some x ↔ l' !! i = Some x) →
    ((∃ x, l !! i = Some x ∧ P x = true) ∧ ∀ j y, (j < i)%nat → l !! j = Some y → P y = false) →
    (∃ x, l' !! i = Some x ∧ P x = true) ∧ ∀ j y, (j < i)%nat → l' !! j = Some y → P y = false) as Himp.
  { intros l1 l2 H [(x & Hx & Px) Hb]. split; [exists x; split; [by apply H|done]|].
    intros j y Hj Hy. destruct (P y) eqn:Py; [|done]. apply H in Hy; [|done]. by rewrite (Hb j y) in Py. }
  split; apply Himp; [done|]. intros j x Hx. symmetry. by apply Hag.
Qed.

Lemma slot_free data de : dir_entries data !! find_slot data = Some de → is_free de = true.
Proof.
  unfold find_slot. destruct (find_index _ _) as [i|] eqn:E; cbn [default from_option id].
  - apply find_index_Some in E as [(x & Hx & Px) _]. change (dir_entries data !! i = Some de → is_free de = true). intros. by simplify_eq.
  - intros [Hi _]%lookup_entries. change (length data / 16 < length data / 16)%nat in Hi. lia.
Qed.

Section linked.
Context (data name : list Z) (inum : Z).
Hypotheses (Hmod : (length data mod 16 = 0)%nat) (Hinum : 0 < inum < 65536).
Abbreviation data' := (patch data (16 * find_slot data) (dirent_bytes (mkDirent inum (dir_name name)))).

Lemma linked_lookup i : dir_entries data' !! i =
  if decide (i = find_slot data) then Some (mkDirent inum (dir_name name)) else dir_entries data !! i.
Proof using Hmod Hinum.
  rewrite patched_lookup by (done || apply find_slot_le || apply length_dirent_bytes). by rewrite dirent_bytes_of by lia.
Qed.

Lemma linked_found : find_entry name data = None → find_entry name data' = Some (find_slot data).
Proof using Hmod Hinum.
  unfold find_entry. rewrite find_index_None, find_index_Some. intros Hnone. split.
  - exists (mkDirent inum (dir_name name)). rewrite linked_lookup, decide_True by done. split; [done|].
    unfold has_name. cbn [de_inum de_name]. by rewrite namecmp_stored, (proj2 (Z.eqb_neq inum 0)) by lia.
  - intros i de Hi. rewrite linked_lookup, decide_False by lia. apply Hnone.
Qed.

Lemma linked_other name' : namecmp name' (dir_name name) ≠ 0 → find_entry name' data' = find_entry name' data.
Proof using Hmod Hinum.
  intros Hne. apply find_index_agree. intros i de [Hu Hn]%andb_true_iff. rewrite linked_lookup. case_decide as E; [|done]. subst i. split.
  - intros [= <-]. cbn [de_name] in Hn. by apply Z.eqb_eq in Hn.
  - intros Hf%slot_free. unfold is_free in Hf. by rewrite Hf in Hu.
Qed.
End linked.

(** ** The inode cache *)

Section dir.
Context `{W : Wakeups} `{D : DiskDriver} `{DOk : !DiskDriverOk D} `{DV : Devsw}.
Context (sb : superblock) (pid : Z).
Implicit Types (k : kernel) (V : Z → list Z) (bl : list Z).

Definition cached dev inum (i : inode) : bool := (i_ref i >? 0) && (i_dev i =? dev) && (i_inum i =? inum).

(** A reference to the inode [inum] at the slot [ip] of the cache. *)
Record igot k dev inum ip k' : Prop := {
  ig_slot : (ip < length (k_icache k))%nat;
  ig_inode : i_dev (inode_at k' ip) = dev ∧ i_inum (inode_at k' ip) = inum;
  ig_ref : i_ref (inode_at k' ip) = i_ref (inode_at k ip) + 1;
  ig_fresh : cached dev inum (inode_at k ip) = false → i_ref (inode_at k ip) = 0 ∧ i_valid (inode_at k' ip) = false;
  ig_frame : ∃ g, k' = upd_inode ip g k
}.

Lemma iget_spec k dev inum : LIcache ∉ k_held k → (∃ ip i, k_icache k !! ip = Some i ∧ (cached dev inum i = true ∨ i_ref i = 0)) →
  ∃ ip k', iget dev inum k = Ret ip k' ∧ igot k dev inum ip k'.
Proof using Type.
  intros Hh Hex. unfold iget. mcall (acquire_eq LIcache k Hh). unfold upd_i.
  assert (∀ ip g, (ip < length (k_icache k))%nat → inode_at (upd_inode ip g k) ip = g (inode_at k ip)) as Hat.
  { intros ip g Hs. by apply (inode_at_alter k (upd_inode ip g k)). }
  assert (∀ ip g, release LIcache (upd_inode ip g (set_k_held (LIcache :: k_held k) k)) = Ret tt (upd_inode ip g k)) as Hrel.
  { intros ip g. rewrite (release_eq LIcache _ (k_held k)) by done. by destruct k. }
  change (k_icache (set_k_held (LIcache :: k_held k) k)) with (k_icache k).
  destruct (find_index (cached dev inum) (k_icache k)) as [ip|] eqn:E; fold (cached dev inum); rewrite E.
  - apply find_index_Some in E as [(i & Hi & Pi) _]. pose proof (lookup_lt_Some _ _ _ Hi) as Hs.
    assert (inode_at k ip = i) as Ei by (unfold inode_at; by apply list_lookup_total_correct).
    exists ip, (upd_inode ip (λ i, set_i_ref (i_ref i + 1) i) k). mrun. mcall (Hrel ip (λ i, set_i_ref (i_ref i + 1) i)). split; [done|].
    pose proof Pi as Pi'. unfold cached in Pi. apply andb_true_iff in Pi as [[_ Pd%Z.eqb_eq]%andb_true_iff Pn%Z.eqb_eq].
    split; [done|rewrite Hat, Ei by done; done|by rewrite Hat by done|rewrite Ei; congruence|by eexists].
  - rewrite find_index_None in E. destruct Hex as (ip0 & i0 & Hi0 & [Hc|Hr0]); [by rewrite (E ip0 i0 Hi0) in Hc|].
    mrun. change (k_icache (set_k_held (LIcache :: k_held k) k)) with (k_icache k).
    destruct (find_index (λ ip, i_ref ip =? 0) (k_icache k)) as [ip|] eqn:E2.
    2: { rewrite find_index_None in E2. specialize (E2 ip0 i0 Hi0). by rewrite Hr0 in E2. }
    apply find_index_Some in E2 as [(i & Hi & Pi%Z.eqb_eq) _]. pose proof (lookup_lt_Some _ _ _ Hi) as Hs.
    assert (inode_at k ip = i) as Ei by (unfold inode_at; by apply list_lookup_total_correct).
    set (g := λ i, set_i_valid false (set_i_ref 1 (set_i_inum inum (set_i_dev dev i)))).
    exists ip, (upd_inode ip g k). mrun. mcall (Hrel ip g). split; [done|]. split; [done|rewrite Hat by done; done|rewrite Hat, Ei by done; cbn; lia|rewrite Hat, Ei by done; done|by eexists].
Qed.

(** ** Scanning a directory *)

(** [dp] is a directory, loaded, with whole entries. *)
Record directory k V dp : Prop := {
  dr_sync : inode_sync sb k V dp;
  dr_type : i_type (inode_at k dp) = T_DIR;
  dr_whole : i_size (inode_at k dp) mod 16 = 0
}.
Abbreviation contents k V dp := (on_disk sb V (i_inum (inode_at k dp))).

Lemma directory_ext k k' V dp : k_icache k' = k_icache k → directory k V dp → directory k' V dp.
Proof using Type.
  intros E [[? ? ? ? ?] ? ?]. assert (inode_at k' dp = inode_at k dp) as Ei by (unfold inode_at; by rewrite E).
  split; [split|..]; rewrite ?E, ?Ei; done.
Qed.

Lemma directory_length k V dp : fs_ok sb V → directory k V dp →
  Z.of_nat (length (contents k V dp)) = i_size (inode_at k dp) ∧ (length (contents k V dp) mod 16 = 0)%nat ∧ 0 <= i_size (inode_at k dp) <= 140 * 512.
Proof using Type.
  intros Hok [Hs _ Hm]. pose proof (fi_size _ _ _ _ (inode_sync_file sb k V dp Hok Hs)) as Hsz. rewrite length_on_disk, (is_stored _ _ _ _ Hs).
  cbn [di_size dinode_of]. split_and!; [lia| |lia|lia]. apply Nat2Z.inj. rewrite Nat2Z.inj_mod, Z2Nat.id by lia. done.
Qed.

(** The kernel after some reads. *)
Definition read_only (w : bool) k V bl k' : Prop := fsx w sb k' pid V bl ∅ ∧ k_disk k' = k_disk k ∧ log_frame k k'.

Lemma read_only_trans w k V bl k1 k2 : read_only w k V bl k1 → read_only w k1 V bl k2 → read_only w k V bl k2.
Proof using Type. intros (_ & D1 & F1) (X & D2 & F2). split_and!; [done|congruence|by eapply log_frame_trans]. Qed.

Lemma read_dirent_spec {w} k V bl dp (j : nat) msg : fsx w sb k pid V bl ∅ → fs_ok sb V → directory k V dp → room sb bl 0 →
  (j < length (contents k V dp) / 16)%nat →
  ∃ k', read_dirent dp (j * DIRENT_SIZE) msg k = Ret (entry_at (contents k V dp) j) k' ∧ read_only w k V bl k'.
Proof using DOk.
  intros Hx Hok Hd Hr Hj. destruct (directory_length _ _ _ Hok Hd) as (Hlen & Hmod & Hsz). pose proof (dr_sync _ _ _ Hd) as Hs.
  pose proof (inode_sync_file sb k V dp Hok Hs) as Hfi. pose proof (Nat.div_mod_eq (length (contents k V dp)) 16) as Hdm.
  unfold DIRENT_SIZE. destruct (readi_spec sb pid k V bl dp (j * 16) 16 Hx Hfi Hr) as (k' & R & X & Dk & F); [lia|lia|lia|].
  rewrite decide_True in R by lia. replace (Z.min 16 (i_size (inode_at k dp) - j * 16)) with 16 in R by lia.
  exists k'. split; [|done]. unfold read_dirent, DIRENT_SIZE. mcall R. cbn [fst snd]. cbn [Z.eqb Pos.eqb negb]. unfold ret. f_equal. unfold entry_at. f_equal.
  unfold on_disk, dinode_data. rewrite (is_stored _ _ _ _ Hs). cbn [di_addrs di_size dinode_of].
  replace (Z.to_nat (i_size (inode_at k dp))) with (16 * j + (16 + (Z.to_nat (i_size (inode_at k dp)) - 16 * j - 16)))%nat by lia.
  rewrite !fbytes_app. unfold slice. rewrite drop_app_length' by (by rewrite length_fbytes). rewrite take_app_length' by (by rewrite length_fbytes).
  f_equal. lia.
Qed.

(** The loop over the entries from [a] on: it goes on where [P] does not hold. *)
Lemma dir_scan {w R} V bl dp msg (P : dirent → bool) (g : nat → dirent → K (option R)) k0 :
  fs_ok sb V → room sb bl 0 → (∀ j de, P de = false → g j de = ret None) →
  let es := contents k0 V dp in
  ∀ n a k, (a + n = length es / 16)%nat → fsx w sb k pid V bl ∅ → directory k V dp → inode_at k dp = inode_at k0 dp →
    let loop := foreach_exit (seq a n) (λ j, de <- read_dirent dp (j * DIRENT_SIZE) msg ;; g j de) in
    (∃ k', loop k = Ret None k' ∧ read_only w k V bl k' ∧ ∀ j, (a <= j < a + n)%nat → P (entry_at es j) = false) ∨
    ∃ j k', (a <= j < a + n)%nat ∧ P (entry_at es j) = true ∧ (∀ i, (a <= i < j)%nat → P (entry_at es i) = false) ∧
      read_only w k V bl k' ∧ ∀ r k'', g j (entry_at es j) k' = Ret (Some r) k'' → loop k = Ret (Some r) k''.
Proof using DOk.
  intros Hok Hr Hg es. induction n as [|n IH]; intros a k Ha Hx Hd Ei loop.
  { left. exists k. split_and!; [done| |lia]. split_and!; [done|done|apply log_frame_refl]. }
  assert (contents k V dp = es) as Ees by (by rewrite Ei).
  destruct (read_dirent_spec k V bl dp a msg Hx Hok Hd Hr) as (k1 & R1 & O1); [rewrite Ees; lia|]. rewrite Ees in R1.
  unfold loop. cbn [seq foreach_exit]. destruct (P (entry_at es a)) eqn:Pa.
  - right. exists a, k1. split_and!; [lia|lia|done|lia|done|]. intros r k'' Hgr. mcall R1. by mcall Hgr.
  - pose proof (log_frame_icache _ _ (proj2 (proj2 O1))) as Ec.
    assert (∀ rest : option R → K (option R), ((o <- (de <- read_dirent dp (a * DIRENT_SIZE) msg ;; g a de) ;; rest o) k) = rest None k1) as Hstep.
    { intros rest. mcall R1. rewrite Hg by done. by mrun. }
    destruct (IH (S a) k1) as [(k2 & R2 & O2 & Hno)|(j & k2 & Hj & Pj & Hno & O2 & Hgo)]; [lia|apply O1|by eapply directory_ext|unfold inode_at; by rewrite Ec| |].
    + left. exists k2. split_and!; [by rewrite Hstep|by eapply read_only_trans|].
      intros j Hj. destruct (decide (j = a)) as [->|]; [done|]. apply Hno. lia.
    + right. exists j, k2. split_and!; [lia|lia|done| |by eapply read_only_trans|].
      * intros i Hi. destruct (decide (i = a)) as [->|]; [done|]. apply Hno. lia.
      * intros r k'' Hgr. rewrite Hstep. by apply Hgo.
Qed.

Lemma entries_seq k V dp : fs_ok sb V → directory k V dp → entries (i_size (inode_at k dp)) = seq 0 (length (contents k V dp) / 16).
Proof using Type.
  intros Hok Hd. destruct (directory_length _ _ _ Hok Hd) as (Hlen & Hmod & Hsz). unfold entries, DIRENT_SIZE. f_equal.
  pose proof (Nat.div_mod_eq (length (contents k V dp)) 16) as Hdm. set (n := length (contents k V dp)) in *. set (q := (n / 16)%nat) in *.
  assert ((i_size (inode_at k dp) + 16 - 1) / 16 = q) as ->; [|lia]. symmetry. apply Z.div_unique with 15; lia.
Qed.

Lemma find_index_entries (P : dirent → bool) data j : (j < length data / 16)%nat → P (entry_at data j) = true →
  (∀ i, (0 <= i < j)%nat → P (entry_at data i) = false) → find_index P (dir_entries data) = Some j.
Proof using Type.
  intros Hj Pj Hno. apply find_index_Some. split.
  - exists (entry_at data j). split; [by apply lookup_entries|done].
  - intros i de Hi [_ ->]%lookup_entries. apply Hno. lia.
Qed.

Lemma find_index_entries_none (P : dirent → bool) data : (∀ i, (0 <= i < length data / 16)%nat → P (entry_at data i) = false) →
  find_index P (dir_entries data) = None.
Proof using Type. intros Hno. apply find_index_None. intros i de [Hi ->]%lookup_entries. apply Hno. lia. Qed.

(** There is a slot of the cache for the inode. *)
Definition slot_for k dev inum : Prop := ∃ ip i, k_icache k !! ip = Some i ∧ (cached dev inum i = true ∨ i_ref i = 0).

Lemma dirlookup_spec {w} k V bl dp name : fsx w sb k pid V bl ∅ → fs_ok sb V → directory k V dp → room sb bl 0 →
  let data := contents k V dp in
  match find_entry name data with
  | None => ∃ k', dirlookup dp name k = Ret None k' ∧ read_only w k V bl k'
  | Some j => slot_for k ROOTDEV (de_inum (entry_at data j)) →
      ∃ ip k1 k', dirlookup dp name k = Ret (Some (ip, Z.of_nat j * 16)) k' ∧ read_only w k V bl k1 ∧ igot k1 ROOTDEV (de_inum (entry_at data j)) ip k'
  end.
Proof using DOk.
  intros Hx Hok Hd Hr data. unfold dirlookup, get_inode. mrun. rewrite (dr_type _ _ _ Hd). cbn [Z.eqb T_DIR Pos.eqb negb].
  rewrite (is_dev _ _ _ _ (dr_sync _ _ _ Hd)), (entries_seq k V dp Hok Hd).
  destruct (dir_scan (w := w) V bl dp "dirlookup read" (has_name name) (λ j de, if de_inum de =? 0 then ret None
    else if namecmp name (de_name de) =? 0 then ip <- iget ROOTDEV (de_inum de) ;; ret (Some (ip, j * DIRENT_SIZE)) else ret None) k Hok Hr)
    with (n := (length data / 16)%nat) (a := O) (k := k) as [(k' & R & O & Hno)|(j & k1 & Hj & Pj & Hno & O & Hgo)]; try done.
  { intros j de. unfold has_name. destruct (de_inum de =? 0); [done|]. cbn [negb andb]. by intros ->. }
  - unfold find_entry. rewrite find_index_entries_none by done. by exists k'.
  - fold data in Pj, Hno. unfold find_entry. rewrite (find_index_entries _ data j) by (done || lia). intros Hslot.
    assert (k_icache k1 = k_icache k) as Ec by (apply log_frame_icache, O). assert (running k1 pid) as [Hh _] by (eapply fsx_running, O).
    destruct (iget_spec k1 ROOTDEV (de_inum (entry_at data j))) as (ip & k' & R & G); [rewrite Hh; apply not_elem_of_nil|by unfold slot_for in Hslot; rewrite Ec|].
    exists ip, k1, k'. split_and!; [|done|done]. apply Hgo. unfold has_name in Pj. apply andb_true_iff in Pj as [Pn Pm]. fold data.
    apply negb_true_iff in Pn. rewrite Pn, Pm. by mcall R.
Qed.

(** The directory after [dirlink]. *)
Record linked k V dp name inum k' V' : Prop := {
  ln_fs : fs_ok sb V';
  ln_dir : directory k' V' dp;
  ln_inum : i_inum (inode_at k' dp) = i_inum (inode_at k dp);
  ln_data : contents k V' dp = patch (contents k V dp) (16 * find_slot (contents k V dp)) (dirent_bytes (mkDirent inum (dir_name name)));
  ln_live : ∀ j, live sb V' j ↔ live sb V j;
  ln_other : ∀ j, live sb V j → j ≠ i_inum (inode_at k dp) → on_disk sb V' j = on_disk sb V j;
  ln_disk : k_disk k' = k_disk k
}.

(** The loop of [dirlink] that looks for a free entry. *)
Lemma find_slot_loop {w} k V bl dp : fsx w sb k pid V bl ∅ → fs_ok sb V → directory k V dp → room sb bl 0 →
  ∃ o k', foreach_exit (entries (i_size (inode_at k dp))) (λ j : nat, de <- read_dirent dp (j * DIRENT_SIZE) "dirlink read" ;;
      ret (if de_inum de =? 0 then Some (j * DIRENT_SIZE) else None)) k = Ret o k' ∧ read_only w k V bl k' ∧
    default (length (entries (i_size (inode_at k dp))) * DIRENT_SIZE) o = 16 * find_slot (contents k V dp).
Proof using DOk.
  intros Hx Hok Hd Hr. rewrite (entries_seq k V dp Hok Hd), length_seq. set (data := contents k V dp). unfold find_slot.
  destruct (dir_scan (w := w) V bl dp "dirlink read" is_free (λ j de, ret (if de_inum de =? 0 then Some (j * DIRENT_SIZE) else None)) k Hok Hr)
    with (n := (length data / 16)%nat) (a := O) (k := k) as [(k' & R & O & Hno)|(j & k1 & Hj & Pj & Hno & O & Hgo)]; try done.
  { intros j de. unfold is_free. by intros ->. }
  - exists None, k'. split_and!; [done|done|]. rewrite find_index_entries_none by done. unfold DIRENT_SIZE. cbn [default from_option]. unfold id. lia.
  - fold data in Pj, Hno, Hgo. eexists (Some _), k1. split_and!; [apply Hgo; unfold is_free in Pj; by rewrite Pj|done|].
    rewrite (find_index_entries _ data j) by (done || lia). unfold DIRENT_SIZE. cbn [default from_option]. unfold id. lia.
Qed.

Lemma dirlink_spec k V bl dp name inum : fsx true sb k pid V bl ∅ → fs_ok sb V → directory k V dp → room sb bl 0 →
  let data := contents k V dp in let d := inode_at k dp in let off := 16 * find_slot data in
  find_entry name data = None → 0 < inum < 65536 → Forall is_byte name → off + 16 <= 140 * 512 →
  need_all (i_addrs d) (nblocks (i_size d)) (nblocks (Z.max (i_size d) (off + 16))) <= free_count sb V →
  has_room sb bl (2 * turns off (dirent_bytes (mkDirent inum (dir_name name))) + 1) →
  ∃ k' V' bl', dirlink dp name inum k = Ret 0 k' ∧ fsx true sb k' pid V' bl' ∅ ∧ linked k V dp name inum k' V'.
Proof using DOk.
  intros Hx Hok Hd Hr data d off Hnone Hi Hname Hmax Hneed Hroom. destruct (directory_length _ _ _ Hok Hd) as (Hlen & Hmod & Hsz).
  fold data d in Hlen, Hmod, Hsz. pose proof (dirlookup_spec k V bl dp name Hx Hok Hd Hr) as Hlook. cbv zeta in Hlook. fold data in Hlook.
  rewrite Hnone in Hlook. destruct Hlook as (k1 & R1 & X1 & D1 & F1). pose proof (log_frame_icache _ _ F1) as Ec1.
  pose proof (directory_ext k k1 V dp Ec1 Hd) as Hd1. assert (inode_at k1 dp = d) as Ei1 by (unfold d, inode_at; by rewrite Ec1).
  destruct (find_slot_loop k1 V bl dp X1 Hok Hd1 Hr) as (o & k2 & R2 & (X2 & D2 & F2) & Eoff). rewrite Ei1 in R2, Eoff. fold d data off in Eoff.
  pose proof (log_frame_icache _ _ F2) as Ec2. pose proof (directory_ext k1 k2 V dp Ec2 Hd1) as Hd2.
  assert (inode_at k2 dp = d) as Ei2 by (rewrite <- Ei1; unfold inode_at; by rewrite Ec2).
  set (e := dirent_bytes (mkDirent inum (dir_name name))) in *. assert (length e = 16%nat) as He by apply length_dirent_bytes.
  pose proof (find_slot_le data) as Hsl. pose proof (Nat.div_mod_eq (length data) 16) as Hdm.
  destruct (writei_spec sb pid k2 V bl dp off e X2 (inode_sync_file sb k2 V dp Hok (dr_sync _ _ _ Hd2))) as (k3 & V3 & bl3 & R3 & X3 & W3);
    rewrite ?Ei2, ?He; [lia|lia|by apply dirent_bytes_byte|done|done|]. pose proof (wn_inode _ _ _ _ _ _ _ _ W3) as (addrs & Ei3).
  pose proof (wn_disk _ _ _ _ _ _ _ _ W3) as D3.
  destruct (written_files sb k2 V dp off e k3 V3 Hok (dr_sync _ _ _ Hd2)) as (Hok3 & Hs3 & Hdata & Hlv & Hoth); [rewrite Ei2; lia|done|].
  rewrite Ei2, He in *. exists k3, V3, bl3. split_and!; [|done|].
  - unfold dirlink. mcall R1. unfold get_inode. mrun. rewrite Ei1. mcall R2. rewrite Eoff. fold e. by mcall R3.
  - split; [done| |by rewrite Ei3| |done|done|congruence].
    + split; [done|rewrite Ei3; apply (dr_type _ _ _ Hd)|]. rewrite Ei3. cbn [i_size set_i_size]. pose proof (dr_whole _ _ _ Hd) as Hw. fold d in Hw.
      destruct (Z.max_spec (i_size d) (off + 16%nat)) as [[_ ->]|[_ ->]]; [|done]. unfold off. replace (16 * find_slot data + 16%nat) with ((find_slot data + 1) * 16) by lia.
      by apply Z.mod_mul.
    + fold d. rewrite Hdata. fold data e. assert (Z.to_nat off = (16 * find_slot data)%nat) as -> by (unfold off; lia). done.
Qed.

(** C11: What [dirlink] enters, [dirlookup] finds.  In a directory that has no entry
    of the name and with room for one, [dirlink] returns 0 and leaves a consistent
    file system in which the directory has the new entry, at the first free place
    or at the end, and every other file its contents.  From then on, in any state
    of the kernel with these contents, [dirlookup] of the name returns a
    reference to the inode that was entered and the offset of its entry; other
    names are found as before. *)
Theorem dirlink_dirlookup k V bl dp name inum : fsx true sb k pid V bl ∅ → fs_ok sb V → directory k V dp → room sb bl 0 →
  let data := contents k V dp in let d := inode_at k dp in let off := 16 * find_slot data in
  find_entry name data = None → 0 < inum < 65536 → Forall is_byte name → off + 16 <= 140 * 512 →
  need_all (i_addrs d) (nblocks (i_size d)) (nblocks (Z.max (i_size d) (off + 16))) <= free_count sb V →
  has_room sb bl (2 * turns off (dirent_bytes (mkDirent inum (dir_name name))) + 1) →
  ∃ k' V' bl', dirlink dp name inum k = Ret 0 k' ∧ fsx true sb k' pid V' bl' ∅ ∧ linked k V dp name inum k' V' ∧
    (∀ name', namecmp name' (dir_name name) ≠ 0 → find_entry name' (contents k V' dp) = find_entry name' data) ∧
    ∀ w k2 bl2, fsx w sb k2 pid V' bl2 ∅ → directory k2 V' dp → i_inum (inode_at k2 dp) = i_inum d → room sb bl2 0 → slot_for k2 ROOTDEV inum →
      ∃ ip k3 k4, dirlookup dp name k2 = Ret (Some (ip, off)) k4 ∧ read_only w k2 V' bl2 k3 ∧ igot k3 ROOTDEV inum ip k4.
Proof using DOk.
  intros Hx Hok Hd Hr data d off Hnone Hi Hname Hmax Hneed Hroom. destruct (directory_length _ _ _ Hok Hd) as (_ & Hmod & _).
  destruct (dirlink_spec k V bl dp name inum Hx Hok Hd Hr Hnone Hi Hname Hmax Hneed Hroom) as (k' & V' & bl' & R & X & Hln).
  exists k', V', bl'. pose proof (ln_data _ _ _ _ _ _ _ Hln) as Hdata. split_and!; [done|done|done| |].
  - intros name' Hne. rewrite Hdata. by apply linked_other.
  - intros w k2 bl2 X2 Hd2 Ei Hr2 Hs2. pose proof (dirlookup_spec k2 V' bl2 dp name X2 (ln_fs _ _ _ _ _ _ _ Hln) Hd2 Hr2) as Hlook. cbv zeta in Hlook.
    unfold d in Ei. rewrite Ei, Hdata, linked_found in Hlook by done.
    assert (de_inum (entry_at (patch data (16 * find_slot data) (dirent_bytes (mkDirent inum (dir_name name)))) (find_slot data)) = inum) as Ede.
    { rewrite patched_entry by (done || lia || apply find_slot_le || apply length_dirent_bytes). rewrite decide_True, dirent_bytes_of by (done || lia). done. }
    fold data in Hlook. rewrite Ede in Hlook. destruct (Hlook Hs2) as (ip & k3 & k4 & R4 & O4 & G4). exists ip, k3, k4. split_and!; [|done|done].
    rewrite R4. do 3 f_equal. unfold off. lia.
Qed.
End dir.

(** ** Example: an entry in the root directory of an image that mkfs has made *)

Definition demo_dir (s : image) (k : kernel) : kernel :=
  set_k_icache [load_dinode (stored sb (im_block s) 1) (mkInode ROOTDEV 1 1 (mkSleeplock true 1) true 0 0 0 0 0 []);
                mkInode 0 0 0 (mkSleeplock false 0) false 0 0 0 0 0 []]
  (set_k_sb sb (set_k_disk (mkDisk 1000 (im_blocks s) []) (demo_log k))).

Section demo.
Context (s : image) (Hs : mkfs_image [] s).

Lemma demo_dir_idle k1 : binit kernel0 = Ret tt k1 → fs_idle sb 1 (demo_dir s k1) (im_block s).
Proof using Hs.
  intros Hrun. destruct (binit_boot k1 Hrun) as [Ept Eh].
  destruct (binit_spec kernel0 kernel0_blank) as (k1' & Hrun' & Hb). assert (k1 = k1') as -> by congruence.
  split; [|done|done|exact mkfs_geom]. split; try done.
  - apply (binv_boot kernel0 k1' (demo_dir s k1')); [done|done|exact (demo_process_running k1' Ept Eh)|exact (mi_blocks _ _ Hs)].
  - split; [constructor|intros b Hx; by apply elem_of_nil in Hx|done|unfold NBUF; cbn; lia|apply not_elem_of_nil].
  - rewrite (mi_log _ _ Hs), get32_zero. done.
Qed.

(** The root directory of an image without files. *)
Lemma demo_root : ∃ m : nat, on_disk sb (im_block s) 1 = listing [] ++ replicate (480 + 512 * m) 0.
Proof using Hs.
  destruct (mi_root _ _ Hs) as (_ & Hm & n & E). unfold ROOTINO in *. pose proof (length_on_disk sb (im_block s) 1) as Hl.
  rewrite E, length_app, length_replicate, length_listing in Hl. cbn [fmap list_fmap length] in Hl. change (Z.of_nat BSIZE) with 512 in Hm.
  destruct (fk_file _ _ (mi_fs _ _ Hs) 1) as (_ & Hsz & _); [by apply (mi_live _ _ Hs)|].
  exists (Z.to_nat (di_size (stored sb (im_block s) 1) / 512) - 1)%nat. rewrite E. do 2 f_equal.
  set (size := di_size (stored sb (im_block s) 1)) in *. Z.div_mod_to_equations. lia.
Qed.

Lemma demo_entries m j : let data := listing [] ++ replicate (480 + 512 * m) 0 in
  entry_at data j = match j with O => mkDirent 1 (dir_name [46]) | 1%nat => mkDirent 1 (dir_name [46; 46]) | _ => entry_at data j end ∧
  ((2 <= j)%nat → is_free (entry_at data j) = true).
Proof using Type.
  intros data. assert (length (listing []) = 32%nat) as Hl by apply length_listing. split.
  - destruct j as [|[|j]]; [vm_compute; reflexivity|vm_compute; reflexivity|done].
  - intros Hj. assert (∀ a, u16_of_bytes (take 2 (replicate a 0)) = 0) as Hz by (intros [|[|[|a]]]; done).
    unfold is_free, entry_at, dirent_of, get16. cbn [de_inum]. unfold slice. rewrite drop_0. unfold data.
    rewrite drop_app_ge by lia. by rewrite drop_replicate, take_replicate, Hz.
Qed.

Lemma demo_slot : find_entry [97] (on_disk sb (im_block s) 1) = None ∧ find_slot (on_disk sb (im_block s) 1) = 2%nat ∧
  (512 <= length (on_disk sb (im_block s) 1))%nat.
Proof using Hs.
  destruct demo_root as (m & ->). set (data := listing [] ++ replicate (480 + 512 * m) 0).
  assert (length data = 512 * (m + 1))%nat as Hlen by (unfold data; rewrite length_app, length_replicate, length_listing; cbn [length]; lia).
  assert (length data / 16 = 32 * (m + 1))%nat as Hdiv by (rewrite Hlen; symmetry; apply (Nat.div_unique _ 16 _ 0); lia).
  split_and!; [| |lia].
  - apply find_index_entries_none. intros j Hj. destruct (demo_entries m j) as [E F]. fold data in E, F. destruct j as [|[|j]]; [by rewrite E..|].
    unfold has_name. specialize (F ltac:(lia)). unfold is_free in F. by rewrite F.
  - unfold find_slot. rewrite (find_index_entries _ data 2); [done|lia| |].
    + by apply (demo_entries m 2).
    + intros j Hj. destruct (demo_entries m j) as [E _]. fold data in E. destruct j as [|[|j]]; [by rewrite E..|lia].
Qed.

Lemma demo_directory k : directory sb (demo_dir s k) (im_block s) 0.
Proof using Hs.
  destruct (mi_root _ _ Hs) as (Ht & Hm & _). unfold ROOTINO in *. change (Z.of_nat BSIZE) with 512 in Hm.
  set (d := stored sb (im_block s) 1) in *.
  split; [split|..]; change (inode_at (demo_dir s k) 0) with (load_dinode d (mkInode ROOTDEV 1 1 (mkSleeplock true 1) true 0 0 0 0 0 [])); cbn [load_dinode].
  - cbn. lia.
  - done.
  - change (di_type d ≠ T_DEV). by rewrite Ht.
  - change (live sb (im_block s) 1). by apply (mi_live _ _ Hs).
  - change (d = dinode_of (load_dinode d (mkInode ROOTDEV 1 1 (mkSleeplock true 1) true 0 0 0 0 0 []))). by destruct d.
  - done.
  - change (di_size d mod 16 = 0). Z.div_mod_to_equations. lia.
Qed.
End demo.

Lemma dirlink_dirlookup_witness : ∃ s k1, mkfs (λ _, None) [] = Ret tt s ∧ binit kernel0 = Ret tt k1 ∧
  ∃ k2 k3 V', begin_op (W := 0%nat) (demo_dir s k1) = Ret tt k2 ∧ dirlink (W := 0%nat) (DV := no_devices) 0 [97] 5 k2 = Ret 0 k3 ∧
    find_entry [97] (on_disk sb V' 1) = Some 2%nat ∧ fs_ok sb V'.
Proof.
  destruct (mkfs_spec (λ _, None) [] []) as (s & R & Hs); [constructor|cbn; lia|done|vm_compute; congruence|].
  destruct (binit_spec kernel0 kernel0_blank) as (k1 & Hrun & _). exists s, k1. split; [exact R|]. split; [exact Hrun|].
  destruct (fs_begin_op (W := 0%nat) sb 1 (demo_dir s k1) (im_block s) (demo_dir_idle s Hs k1 Hrun)) as (k2 & R2 & X2 & _ & F2).
  pose proof (log_frame_icache _ _ F2) as Ec. pose proof (directory_ext sb _ k2 _ _ Ec (demo_directory s Hs k1)) as Hd.
  assert (i_inum (inode_at k2 0) = 1) as Ei by (unfold inode_at; rewrite Ec; done).
  destruct (demo_slot s Hs) as (Hn & Hsl & Hlen). pose proof (mi_fs _ _ Hs) as Hok.
  destruct (directory_length sb k2 (im_block s) 0 Hok Hd) as (Hsz & Hmod & Hmax). rewrite Ei in Hsz, Hmod.
  destruct (dirlink_dirlookup (W := 0%nat) (DV := no_devices) sb 1 k2 (im_block s) [] 0 [97] 5 X2 Hok Hd) as (k3 & V' & bl' & R3 & X3 & Hln & _);
    rewrite ?Ei, ?Hsl in *.
  - split_and!; [lia|vm_compute; congruence|cbn; lia].
  - exact Hn.
  - lia.
  - repeat constructor; unfold is_byte; lia.
  - cbn. lia.
  - rewrite Z.max_l by lia. unfold need_all. destruct (Z.ltb_spec 12 (nblocks (i_size (inode_at k2 0)))), (Z.eqb_spec (ind (i_addrs (inode_at k2 0))) 0); cbn [andb]; try lia.
    exfalso. apply (fo_ind _ _ _ _ (fi_ok _ _ _ _ (inode_sync_file sb k2 (im_block s) 0 Hok (dr_sync _ _ _ _ Hd)))); done.
  - vm_compute. intuition congruence.
  - exists k2, k3, V'. split; [exact R2|]. split; [exact R3|]. split; [|exact (ln_fs _ _ _ _ _ _ _ _ Hln)].
    pose proof (ln_data _ _ _ _ _ _ _ _ Hln) as E. rewrite Ei in E. rewrite E. etrans; [apply linked_found; [done|lia|done]|by rewrite Hsl].
Defined.
