(* ===== verification/Segment.v ===== *)
(** * Segments, gates and the task state (src/mmu.h, src/asm.h, src/vm.c, src/trap.c)

    The tables the processor consults when a trap comes in: the global
    descriptor table [seginit] fills, the interrupt descriptor table [tvinit]
    fills, and the task state [switchuvm] points at the kernel stack of the
    process.  A bit field of [w] bits keeps the low [w] bits of what is
    assigned to it.  How the processor reads a descriptor is written out as
    [seg_base], [seg_limit] and [gate_offset]; the lemmas show that it reads
    back what the macros were given, and that the table the boot code builds
    with the assembler macro [SEG_ASM] has the bytes of the C macro [SEG]. *)

From S2P Require Import Prelude Mem CString State Mmu ProcLife Trap.

Definition SEG_KCODE : Z := 1.
Definition SEG_KDATA : Z := 2.
Definition SEG_TSS : Z := 5.
Definition NSEGS : nat := 6.

Definition STA_X : Z := 8.
Definition STA_W : Z := 2.
Definition STA_R : Z := 2.
Definition STS_T32A : Z := 9.
Definition STS_IG32 : Z := 14.
Definition STS_TG32 : Z := 15.

(** What a field of [w] bits keeps of [v]. *)
Definition bits (w v : Z) : Z := v mod 2 ^ w.

(** [struct segdesc] *)
Record segdesc := mkSegdesc {
  sd_lim_15_0 : Z;
  sd_base_15_0 : Z;
  sd_base_23_16 : Z;
  sd_type : Z;
  sd_s : Z;
  sd_dpl : Z;
  sd_p : Z;
  sd_lim_19_16 : Z;
  sd_avl : Z;
  sd_rsv1 : Z;
  sd_db : Z;
  sd_g : Z;
  sd_base_31_24 : Z
}.

Definition SEG (type base lim dpl : Z) : segdesc :=
  mkSegdesc (bits 16 (Z.land (Z.shiftr lim 12) 65535)) (bits 16 (Z.land (u32 base) 65535))
    (bits 8 (Z.land (Z.shiftr (u32 base) 16) 255)) (bits 4 type) 1 (bits 2 dpl) 1
    (bits 4 (Z.shiftr (u32 lim) 28)) 0 0 1 1 (bits 8 (Z.shiftr (u32 base) 24)).

Definition SEG16 (type base lim dpl : Z) : segdesc :=
  mkSegdesc (bits 16 (Z.land lim 65535)) (bits 16 (Z.land (u32 base) 65535))
    (bits 8 (Z.land (Z.shiftr (u32 base) 16) 255)) (bits 4 type) 1 (bits 2 dpl) 1
    (bits 4 (Z.shiftr (u32 lim) 16)) 0 0 1 0 (bits 8 (Z.shiftr (u32 base) 24)).

Definition set_sd_s (v : Z) (d : segdesc) : segdesc :=
  mkSegdesc (sd_lim_15_0 d) (sd_base_15_0 d) (sd_base_23_16 d) (sd_type d) v (sd_dpl d) (sd_p d) (sd_lim_19_16 d)
    (sd_avl d) (sd_rsv1 d) (sd_db d) (sd_g d) (sd_base_31_24 d).

(** The eight bytes of a descriptor, the fields from the lowest bit up. *)
Definition segdesc_bytes (d : segdesc) : list Z :=
  bytes_of_u16 (sd_lim_15_0 d) ++ bytes_of_u16 (sd_base_15_0 d) ++
  [sd_base_23_16 d;
   sd_type d + 16 * sd_s d + 32 * sd_dpl d + 128 * sd_p d;
   sd_lim_19_16 d + 16 * sd_avl d + 32 * sd_rsv1 d + 64 * sd_db d + 128 * sd_g d;
   sd_base_31_24 d].

(** [SEG_NULLASM] and [SEG_ASM] of src/asm.h. *)
Definition SEG_NULLASM : list Z := bytes_of_u16 0 ++ bytes_of_u16 0 ++ [0; 0; 0; 0].
Definition SEG_ASM (type base lim : Z) : list Z :=
  bytes_of_u16 (Z.land (Z.shiftr lim 12) 65535) ++ bytes_of_u16 (Z.land base 65535) ++
  [Z.land (Z.shiftr base 16) 255; Z.lor 144 type; Z.lor 192 (Z.land (Z.shiftr lim 28) 15);
   Z.land (Z.shiftr base 24) 255].

(** The table of src/bootasm.S and src/entryother.S. *)
Definition boot_gdt : list Z :=
  SEG_NULLASM ++ SEG_ASM (Z.lor STA_X STA_R) 0 4294967295 ++ SEG_ASM STA_W 0 4294967295.

(** [struct gatedesc] and [SETGATE]. *)
Record gatedesc := mkGatedesc {
  gd_off_15_0 : Z;
  gd_cs : Z;
  gd_args : Z;
  gd_rsv1 : Z;
  gd_type : Z;
  gd_s : Z;
  gd_dpl : Z;
  gd_p : Z;
  gd_off_31_16 : Z
}.

Definition SETGATE (istrap : bool) (sel off d : Z) : gatedesc :=
  mkGatedesc (bits 16 (Z.land (u32 off) 65535)) (bits 16 sel) 0 0 (if istrap then STS_TG32 else STS_IG32) 0
    (bits 2 d) 1 (bits 16 (Z.shiftr (u32 off) 16)).

(** The fields of [struct taskstate] that the kernel sets. *)
Record taskstate := mkTaskstate { ts_esp0 : Z; ts_ss0 : Z; ts_iomb : Z }.

Definition seginit (gdt : list segdesc) : list segdesc :=
  let gdt := <[Z.to_nat SEG_KCODE := SEG (Z.lor STA_X STA_R) 0 4294967295 0]> gdt in
  let gdt := <[Z.to_nat SEG_KDATA := SEG STA_W 0 4294967295 0]> gdt in
  let gdt := <[Z.to_nat SEG_UCODE := SEG (Z.lor STA_X STA_R) 0 4294967295 DPL_USER]> gdt in
  <[Z.to_nat SEG_UDATA := SEG STA_W 0 4294967295 DPL_USER]> gdt.

(** [tvinit]'s loop over the gates from [i] on, and its last gate.
    [vectors] are the addresses of the entry points of vectors.S. *)
Fixpoint tvinit_loop (vectors : Z → Z) (n i : nat) (idt : list gatedesc) : list gatedesc :=
  match n with
  | O => idt
  | S n => tvinit_loop vectors n (S i) (<[i := SETGATE false (Z.shiftl SEG_KCODE 3) (vectors i) 0]> idt)
  end.
Definition tvinit (vectors : Z → Z) (idt : list gatedesc) : list gatedesc :=
  let idt := tvinit_loop vectors 256 0 idt in
  <[Z.to_nat T_SYSCALL := SETGATE true (Z.shiftl SEG_KCODE 3) (vectors T_SYSCALL) DPL_USER]> idt.

(** The part of [switchuvm] that sets the descriptor of the task state at
    address [ts_addr], and the task state. *)
Definition switchuvm_tss (ts_addr kstack : Z) (gdt : list segdesc) : list segdesc * taskstate :=
  (<[Z.to_nat SEG_TSS := set_sd_s 0 (SEG16 STS_T32A ts_addr (104 - 1) 0)]> gdt,
   mkTaskstate (u32 (kstack + KSTACKSIZE)) (Z.shiftl SEG_KDATA 3) 65535).

(** ** What the processor reads *)

Definition seg_base (d : segdesc) : Z := sd_base_15_0 d + 65536 * sd_base_23_16 d + 16777216 * sd_base_31_24 d.
Definition seg_limit (d : segdesc) : Z :=
  let l := sd_lim_15_0 d + 65536 * sd_lim_19_16 d in if sd_g d =? 1 then l * 4096 + 4095 else l.
Definition gate_offset (g : gatedesc) : Z := gd_off_15_0 g + 65536 * gd_off_31_16 g.

Ltac field_arith :=
  unfold bits; rewrite ?Z.shiftr_div_pow2 by lia;
  change 65535 with (Z.ones 16); change 255 with (Z.ones 8); change 15 with (Z.ones 4);
  rewrite ?Z.land_ones by lia; change (2 ^ 28) with 268435456; change (2 ^ 24) with 16777216;
  change (2 ^ 16) with 65536; change (2 ^ 12) with 4096; change (2 ^ 8) with 256; change (2 ^ 4) with 16;
  change (2 ^ 2) with 4.

(** The base and the limit of a normal segment, the limit in whole pages. *)
Lemma seg_base_SEG type base lim dpl : is_u32 base → seg_base (SEG type base lim dpl) = base.
Proof. intros Hb. unfold seg_base, SEG. cbn. field_arith. divmod. Qed.

Lemma seg_limit_SEG type base lim dpl : is_u32 lim → seg_limit (SEG type base lim dpl) = lim / 4096 * 4096 + 4095.
Proof. intros Hb. unfold seg_limit, SEG. cbn. field_arith. divmod. Qed.

(** A segment with its limit in bytes. *)
Lemma seg_base_SEG16 type base lim dpl : is_u32 base → seg_base (SEG16 type base lim dpl) = base.
Proof. intros Hb. unfold seg_base, SEG16. cbn. field_arith. divmod. Qed.

Lemma seg_limit_SEG16 type base lim dpl : 0 <= lim < 1048576 → seg_limit (SEG16 type base lim dpl) = lim.
Proof. intros Hb. unfold seg_limit, SEG16. cbn. field_arith. divmod. Qed.

Lemma gate_offset_SETGATE istrap sel off d : is_u32 off → gate_offset (SETGATE istrap sel off d) = off.
Proof. intros Hb. unfold gate_offset, SETGATE. cbn. field_arith. divmod. Qed.

(** The assembler macro and the C macro make the same eight bytes. *)
Lemma SEG_ASM_SEG type base lim : is_u32 base → is_u32 lim → 0 <= type < 16 →
  SEG_ASM type base lim = segdesc_bytes (SEG type base lim 0).
Proof.
  intros Hb Hl Ht. unfold SEG_ASM, segdesc_bytes, SEG. cbn [sd_lim_15_0 sd_base_15_0 sd_base_23_16 sd_type sd_s sd_dpl
    sd_p sd_lim_19_16 sd_avl sd_rsv1 sd_db sd_g sd_base_31_24].
  rewrite (lor_low 9 type 4 ltac:(lia) Ht : Z.lor 144 type = 144 + type).
  assert (0 <= Z.land (Z.shiftr lim 28) 15 < 2 ^ 4) as Hlim by (field_arith; divmod).
  rewrite (lor_low 12 (Z.land (Z.shiftr lim 28) 15) 4 ltac:(lia) Hlim : Z.lor 192 _ = 192 + _). rewrite !u32_small by done. unfold bytes_of_u16. cbn [app].
  repeat apply (f_equal2 cons); [field_arith; divmod..|done].
Qed.
