(* ===== verification/Asm.v ===== *)
(** * The assembly of traps and context switches (src/trapasm.S, src/vectors.pl, src/swtch.S)

    The registers and the kernel memory of one processor, the instructions the
    assembly files use, what the processor does when a trap comes in
    ([interrupt]) and on [iret], and the code of the files as lists of
    instructions.  A list is a straight piece of code; it is left through its
    last instruction, which sets [eip].  Addresses are those of the flat
    kernel segments; faults of the instructions themselves (a bad selector, a
    page that is not mapped) are not modelled. *)

From S2P Require Import Prelude Mem CString State Mmu Proc ProcLife Trap Segment.

Inductive reg := EAX | ECX | EDX | EBX | ESP | EBP | ESI | EDI.
Inductive sreg := CS | SS | DS | ES | FS | GS.

Record machine := mkMachine {
  m_eax : Z; m_ecx : Z; m_edx : Z; m_ebx : Z; m_esp : Z; m_ebp : Z; m_esi : Z; m_edi : Z;
  m_cs : Z; m_ss : Z; m_ds : Z; m_es : Z; m_fs : Z; m_gs : Z;
  m_eip : Z; m_eflags : Z; m_mem : mem
}.

Definition get_reg (r : reg) (s : machine) : Z :=
  match r with
  | EAX => m_eax s | ECX => m_ecx s | EDX => m_edx s | EBX => m_ebx s
  | ESP => m_esp s | EBP => m_ebp s | ESI => m_esi s | EDI => m_edi s
  end.

Definition set_reg (r : reg) (v : Z) (s : machine) : machine :=
  let '(mkMachine a c d b sp bp si di cs ss ds es fs gs ip fl m) := s in
  match r with
  | EAX => mkMachine v c d b sp bp si di cs ss ds es fs gs ip fl m
  | ECX => mkMachine a v d b sp bp si di cs ss ds es fs gs ip fl m
  | EDX => mkMachine a c v b sp bp si di cs ss ds es fs gs ip fl m
  | EBX => mkMachine a c d v sp bp si di cs ss ds es fs gs ip fl m
  | ESP => mkMachine a c d b v bp si di cs ss ds es fs gs ip fl m
  | EBP => mkMachine a c d b sp v si di cs ss ds es fs gs ip fl m
  | ESI => mkMachine a c d b sp bp v di cs ss ds es fs gs ip fl m
  | EDI => mkMachine a c d b sp bp si v cs ss ds es fs gs ip fl m
  end.

Definition get_seg (r : sreg) (s : machine) : Z :=
  match r with
  | CS => m_cs s | SS => m_ss s | DS => m_ds s | ES => m_es s | FS => m_fs s | GS => m_gs s
  end.

Definition set_seg (r : sreg) (v : Z) (s : machine) : machine :=
  let '(mkMachine a c d b sp bp si di cs ss ds es fs gs ip fl m) := s in
  match r with
  | CS => mkMachine a c d b sp bp si di v ss ds es fs gs ip fl m
  | SS => mkMachine a c d b sp bp si di cs v ds es fs gs ip fl m
  | DS => mkMachine a c d b sp bp si di cs ss v es fs gs ip fl m
  | ES => mkMachine a c d b sp bp si di cs ss ds v fs gs ip fl m
  | FS => mkMachine a c d b sp bp si di cs ss ds es v gs ip fl m
  | GS => mkMachine a c d b sp bp si di cs ss ds es fs v ip fl m
  end.

Definition set_eip (v : Z) (s : machine) : machine :=
  let '(mkMachine a c d b sp bp si di cs ss ds es fs gs _ fl m) := s in
  mkMachine a c d b sp bp si di cs ss ds es fs gs v fl m.
Definition set_eflags (v : Z) (s : machine) : machine :=
  let '(mkMachine a c d b sp bp si di cs ss ds es fs gs ip _ m) := s in
  mkMachine a c d b sp bp si di cs ss ds es fs gs ip v m.
Definition set_mem (v : mem) (s : machine) : machine :=
  let '(mkMachine a c d b sp bp si di cs ss ds es fs gs ip fl _) := s in
  mkMachine a c d b sp bp si di cs ss ds es fs gs ip fl v.

(** ** Instructions *)

Inductive instr :=
| Pushl (r : reg)
| PushlSeg (r : sreg)
| PushlImm (v : Z)
| Pushal
| Popl (r : reg)
| PoplSeg (r : sreg)
| Popal
| MovlReg (src dst : reg)
| MovlImm (v : Z) (dst : reg)
| MovlLoad (off : Z) (base dst : reg)
| MovlStore (src : reg) (off : Z) (base : reg)
| MovwImm (v : Z) (dst : reg)
| MovwSeg (src : reg) (dst : sreg)
| AddlImm (v : Z) (dst : reg)
| Call (target next : Z)
| Jmp (target : Z)
| Retl.

(** A push and a pop of 32 bits. *)
Definition push (v : Z) (s : machine) : machine :=
  let sp := u32 (m_esp s - 4) in set_mem (st32 (m_mem s) sp v) (set_reg ESP sp s).
Definition top (s : machine) : Z := ld32 (m_mem s) (m_esp s).
Definition pop (s : machine) : machine := set_reg ESP (u32 (m_esp s + 4)) s.

Definition pop_reg (r : reg) (s : machine) : machine := set_reg r (top s) (pop s).
Definition pop_seg (r : sreg) (s : machine) : machine := set_seg r (u16 (top s)) (pop s).

(** The flags CF, PF, AF, ZF, SF and OF after the addition of [a] and [b]. *)
Definition even_ones (v : Z) : bool :=
  Nat.even (length (filter (λ i : nat, Z.testbit v i = true) (seq 0 8))).
Definition add_flags (a b old : Z) : Z :=
  let r := u32 (a + b) in
  let flag (c : bool) (w : Z) := if c then w else 0 in
  Z.lor (Z.land old (Z.lnot 2261))
    (flag (4294967296 <=? a + b) 1 + flag (even_ones r) 4 + flag (16 <=? a mod 16 + b mod 16) 16 +
     flag (r =? 0) 64 + flag (2147483648 <=? r) 128 + flag (negb (i32 a + i32 b =? i32 r)) 2048).

Definition step (i : instr) (s : machine) : machine :=
  match i with
  | Pushl r => push (get_reg r s) s
  | PushlSeg r => push (get_seg r s) s
  | PushlImm v => push (u32 v) s
  | Pushal =>
      let sp := m_esp s in
      push (m_edi s) (push (m_esi s) (push (m_ebp s) (push sp
        (push (m_ebx s) (push (m_edx s) (push (m_ecx s) (push (m_eax s) s)))))))
  | Popl r => pop_reg r s
  | PoplSeg r => pop_seg r s
  | Popal =>
      pop_reg EAX (pop_reg ECX (pop_reg EDX (pop_reg EBX (pop (pop_reg EBP (pop_reg ESI (pop_reg EDI s)))))))
  | MovlReg src dst => set_reg dst (get_reg src s) s
  | MovlImm v dst => set_reg dst (u32 v) s
  | MovlLoad off base dst => set_reg dst (ld32 (m_mem s) (u32 (get_reg base s + off))) s
  | MovlStore src off base => set_mem (st32 (m_mem s) (u32 (get_reg base s + off)) (get_reg src s)) s
  | MovwImm v dst => set_reg dst (get_reg dst s / 65536 * 65536 + u16 v) s
  | MovwSeg src dst => set_seg dst (u16 (get_reg src s)) s
  | AddlImm v dst =>
      set_eflags (add_flags (get_reg dst s) v (m_eflags s)) (set_reg dst (u32 (get_reg dst s + v)) s)
  | Call target next => set_eip target (push next s)
  | Jmp target => set_eip target s
  | Retl => set_eip (top s) (pop s)
  end.

Fixpoint run (code : list instr) (s : machine) : machine :=
  match code with
  | [] => s
  | i :: code => run code (step i s)
  end.

(** ** Traps *)

(** The tables of a processor. *)
Record tables := mkTables { t_gdt : list segdesc; t_idt : list gatedesc; t_ts : taskstate }.

Definition cpl (s : machine) : Z := Z.land (m_cs s) 3.

(** A trap with vector [n]: through the gate, to the stack of the task state if
    it comes from a less privileged level, with the error code [err] of the
    exceptions that have one.  [int] instructions ([soft]) need the privilege
    the gate asks for.  [None]: the processor raises another exception. *)
Definition interrupt (t : tables) (soft : bool) (n : Z) (err : option Z) (s : machine) : option machine :=
  g ← t_idt t !! Z.to_nat n;
  c ← t_gdt t !! Z.to_nat (gd_cs g / 8);
  if (gd_p g =? 0) || (soft && (gd_dpl g <? cpl s)) || (cpl s <? sd_dpl c) then None
  else
    let s1 := if sd_dpl c <? cpl s
      then push (m_esp s) (push (m_ss s) (set_seg SS (ts_ss0 (t_ts t)) (set_reg ESP (ts_esp0 (t_ts t)) s)))
      else s in
    let s2 := push (m_eip s) (push (m_cs s) (push (m_eflags s) s1)) in
    let s3 := match err with Some e => push e s2 | None => s2 end in
    (* TF, NT, RF and VM are cleared, and IF by an interrupt gate *)
    let off := Z.lor 213248 (if gd_type g =? STS_IG32 then FL_IF else 0) in
    Some (set_eflags (Z.land (m_eflags s) (Z.lnot off))
      (set_seg CS (gd_cs g / 4 * 4 + sd_dpl c) (set_eip (gate_offset g) s3))).

(** The selector names a segment that level [l] may not use. *)
Definition forbidden (t : tables) (l sel : Z) : bool :=
  match t_gdt t !! Z.to_nat (sel / 8) with
  | Some d => negb (sel / 8 =? 0) && (sd_dpl d <? l)
  | None => false
  end.
Definition drop_seg (t : tables) (l : Z) (r : sreg) (s : machine) : machine :=
  if forbidden t l (get_seg r s) then set_seg r 0 s else s.

(** [iret] at level 0; on a return to a less privileged level the stack comes
    from the frame and data segments that level may not use are dropped. *)
Definition iret (t : tables) (s : machine) : machine :=
  let old := cpl s in
  let s1 := pop (set_eip (top s) s) in
  let s2 := pop_seg CS s1 in
  let s3 := pop (set_eflags (top s2) s2) in
  if old <? cpl s3 then
    let esp := top s3 in
    let ss := u16 (top (pop s3)) in
    let l := cpl s3 in
    drop_seg t l GS (drop_seg t l FS (drop_seg t l ES (drop_seg t l DS (set_seg SS ss (set_reg ESP esp s3)))))
  else s3.

(** ** src/vectors.pl *)

(** The exceptions for which the processor pushes an error code. *)
Definition has_error_code (i : Z) : bool := (i =? 8) || ((10 <=? i) && (i <=? 14)) || (i =? 17).

Section code.
Context (alltraps trap_addr trap_next : Z).

Definition vector (i : Z) : list instr :=
  (if negb (has_error_code i) then [PushlImm 0] else []) ++ [PushlImm i; Jmp alltraps].

(** ** src/trapasm.S *)

(** From [alltraps] to the call of [trap]; [trap_next] is where it returns to. *)
Definition alltraps_entry : list instr :=
  [PushlSeg DS; PushlSeg ES; PushlSeg FS; PushlSeg GS; Pushal;
   MovwImm (Z.shiftl SEG_KDATA 3) EAX; MovwSeg EAX DS; MovwSeg EAX ES;
   Pushl ESP; Call trap_addr trap_next].
End code.

Definition trapret (t : tables) (s : machine) : machine :=
  iret t (run [Popal; PoplSeg GS; PoplSeg FS; PoplSeg ES; PoplSeg DS; AddlImm 8 ESP] s).

(** After the call of [trap]. *)
Definition alltraps_exit (t : tables) (s : machine) : machine := trapret t (run [AddlImm 4 ESP] s).

(** ** src/swtch.S *)

Definition swtch : list instr :=
  [MovlLoad 4 ESP EAX; MovlLoad 8 ESP EDX;
   Pushl EBP; Pushl EBX; Pushl ESI; Pushl EDI;
   MovlStore ESP 0 EAX; MovlReg EDX ESP;
   Popl EDI; Popl ESI; Popl EBX; Popl EBP; Retl].

(** ** src/user/usys.S and src/initcode.S *)

(** A stub up to its [int] instruction, which is followed by [after]; the rest
    of the stub is [ret]. *)
Definition SYSCALL (num after : Z) (s : machine) : machine := set_eip after (run [MovlImm num EAX] s).

(** The first user program up to its first [int]: exec(init, argv). *)
Definition SYS_exec : Z := 7.
Definition initcode (init argv after : Z) (s : machine) : machine :=
  set_eip after (run [PushlImm argv; PushlImm init; PushlImm 0; MovlImm SYS_exec EAX] s).

(** ** The structures on the stack *)

Definition ld16 (m : mem) (a : Z) : Z := u16_of_bytes [ldb m a; ldb m (a + 1)].

(** The [struct trapframe] at [a]. *)
Definition tf_at (m : mem) (a : Z) : trapframe :=
  mkTrapframe (ld32 m a) (ld32 m (a + 4)) (ld32 m (a + 8)) (ld32 m (a + 16)) (ld32 m (a + 20)) (ld32 m (a + 24))
    (ld32 m (a + 28)) (ld16 m (a + 32)) (ld16 m (a + 36)) (ld16 m (a + 40)) (ld16 m (a + 44)) (ld32 m (a + 48))
    (ld32 m (a + 52)) (ld32 m (a + 56)) (ld16 m (a + 60)) (ld32 m (a + 64)) (ld32 m (a + 68)) (ld16 m (a + 72)).

(** The [struct context] at [a]. *)
Definition context_at (m : mem) (a : Z) : context :=
  mkContext (ld32 m a) (ld32 m (a + 4)) (ld32 m (a + 8)) (ld32 m (a + 12)) (ld32 m (a + 16)).

(** What [allocproc] writes on a new kernel stack, below the room for the trap
    frame: the address of [trapret] and a context that starts at [forkret]. *)
Definition allocproc_stack `{L : Layout} (m : mem) (kstack : Z) : mem :=
  let sp := kstack + KSTACKSIZE in
  let sp := sp - TF_SIZE in
  let sp := sp - 4 in
  let m := st32 m sp trapret_addr in
  let sp := sp - CONTEXT_SIZE in
  let m := memset m sp 0 (Z.to_nat CONTEXT_SIZE) in
  st32 m (sp + 16) forkret_addr.
