(* ===== verification/AsmSpec.v ===== *)
(** * Traps and context switches, down to the stack

    The trap frame the C code is given is the state of the interrupted
    program, and [trapret] makes the state of the program again from the frame
    ([trap_roundtrip] for traps from user mode, [trap_kernel_roundtrip] for
    interrupts of the kernel itself).  [swtch] is a switch of coroutines
    ([swtch_coroutine]), and the stack [allocproc] prepares makes the first
    switch to a new process arrive in user mode with its trap frame
    ([new_process_starts]). *)

From S2P Require Import Prelude Mem CString State Mmu Proc ProcLife Trap Segment Asm.

(** ** Pushed words *)

(** Memory after the words [vs] are pushed, in order, on a stack with top [sp]. *)
Fixpoint pushw (m : mem) (sp : Z) (vs : list Z) : mem :=
  match vs with
  | [] => m
  | v :: vs => pushw (st32 m (sp - 4) v) (sp - 4) vs
  end.

Definition depth (top : Z) (vs : list Z) : Z := top - 4 * Z.of_nat (length vs).

Lemma pushw_snoc vs : ∀ m sp v, pushw m sp (vs ++ [v]) = st32 (pushw m sp vs) (depth sp vs - 4) v.
Proof.
  unfold depth. induction vs as [|w vs IH]; intros m sp v; cbn [app pushw length].
  - f_equal. lia.
  - rewrite IH. f_equal. lia.
Qed.

Lemma ldb_pushw_out vs : ∀ m sp b, ¬ (depth sp vs <= b < sp) → ldb (pushw m sp vs) b = ldb m b.
Proof.
  unfold depth. induction vs as [|w vs IH]; intros m sp b Hb; cbn [pushw length] in *; [done|].
  rewrite IH by lia. apply ldb_st32_out. lia.
Qed.

Lemma pushw_word vs : ∀ m sp i v, vs !! i = Some v →
  ∃ m', ∀ b, sp - 4 * (Z.of_nat i + 1) <= b < sp - 4 * Z.of_nat i →
    ldb (pushw m sp vs) b = ldb (st32 m' (sp - 4 * (Z.of_nat i + 1)) v) b.
Proof.
  induction vs as [|w vs IH]; intros m sp i v Hi; [by rewrite lookup_nil in Hi|].
  destruct i as [|i]; cbn [lookup list_lookup pushw] in *.
  - injection Hi as ->. exists m. intros b Hb. rewrite ldb_pushw_out by (unfold depth; lia). done.
  - destruct (IH (st32 m (sp - 4) w) (sp - 4) i v Hi) as [m' Hm']. exists m'. intros b Hb.
    rewrite Hm' by lia. do 2 f_equal. lia.
Qed.

Lemma ld32_pushw m sp vs (i : nat) v a : vs !! i = Some v → a = sp - 4 * (Z.of_nat i + 1) → ld32 (pushw m sp vs) a = u32 v.
Proof.
  intros Hi ->. destruct (pushw_word vs m sp i v Hi) as [m' Hm'].
  rewrite <- (ld32_st32_same m' (sp - 4 * (Z.of_nat i + 1)) v). apply ld32_ext. intros b Hb. apply Hm'. lia.
Qed.

Lemma ld16_pushw m sp vs (i : nat) v a : vs !! i = Some v → a = sp - 4 * (Z.of_nat i + 1) → ld16 (pushw m sp vs) a = u16 v.
Proof.
  intros Hi ->. destruct (pushw_word vs m sp i v Hi) as [m' Hm'].
  unfold ld16. rewrite !Hm' by lia. rewrite !ldb_st32. repeat case_decide; try lia. apply (u16_of_bytes_of_u16 v).
Qed.

(** The same memory, seen as bytes and words. *)
Lemma ld16_ld32 m a : u16 (ld32 m a) = ld16 m a.
Proof.
  pose proof (ldb_byte m a). pose proof (ldb_byte m (a + 1)). unfold ld16, ld32, u32_of_bytes, u16_of_bytes. divmod.
Qed.

Lemma push_eq v a c d b bp si di cs ss ds es fs gs ip fl m top vs :
  4 * (Z.of_nat (length vs) + 1) <= top <= 4294967296 →
  push v (mkMachine a c d b (depth top vs) bp si di cs ss ds es fs gs ip fl (pushw m top vs)) =
  mkMachine a c d b (depth top (vs ++ [v])) bp si di cs ss ds es fs gs ip fl (pushw m top (vs ++ [v])).
Proof.
  intros Ht. unfold push. cbn [m_esp m_mem set_reg set_mem]. rewrite pushw_snoc.
  assert (u32 (depth top vs - 4) = depth top (vs ++ [v])) as ->.
  { unfold depth. rewrite length_app. cbn [length]. rewrite u32_small; [lia|]. unfold is_u32. lia. }
  do 2 f_equal. unfold depth. rewrite length_app. cbn [length]. lia.
Qed.

Lemma push_first v a c d b bp si di cs ss ds es fs gs ip fl m top :
  4 <= top <= 4294967296 →
  push v (mkMachine a c d b top bp si di cs ss ds es fs gs ip fl m) =
  mkMachine a c d b (depth top [v]) bp si di cs ss ds es fs gs ip fl (pushw m top [v]).
Proof.
  intros Ht. etrans; [|apply (push_eq v a c d b bp si di cs ss ds es fs gs ip fl m top []); cbn; lia].
  cbn [pushw]. do 2 f_equal. unfold depth. cbn. lia.
Qed.

Lemma pop_eq a c d b bp si di cs ss ds es fs gs ip fl m base n :
  0 <= base + 4 * (n + 1) < 4294967296 →
  pop (mkMachine a c d b (base + 4 * n) bp si di cs ss ds es fs gs ip fl m) =
  mkMachine a c d b (base + 4 * (n + 1)) bp si di cs ss ds es fs gs ip fl m.
Proof. intros H. unfold pop. cbn [m_esp set_reg]. f_equal. rewrite u32_small; [lia|]. unfold is_u32. lia. Qed.

Lemma pop_reg_eq r a c d b bp si di cs ss ds es fs gs ip fl m base n :
  0 <= base + 4 * (n + 1) < 4294967296 →
  pop_reg r (mkMachine a c d b (base + 4 * n) bp si di cs ss ds es fs gs ip fl m) =
  set_reg r (ld32 m (base + 4 * n)) (mkMachine a c d b (base + 4 * (n + 1)) bp si di cs ss ds es fs gs ip fl m).
Proof. intros H. unfold pop_reg. by rewrite pop_eq. Qed.

Lemma pop_seg_eq r a c d b bp si di cs ss ds es fs gs ip fl m base n :
  0 <= base + 4 * (n + 1) < 4294967296 →
  pop_seg r (mkMachine a c d b (base + 4 * n) bp si di cs ss ds es fs gs ip fl m) =
  set_seg r (ld16 m (base + 4 * n)) (mkMachine a c d b (base + 4 * (n + 1)) bp si di cs ss ds es fs gs ip fl m).
Proof. intros H. unfold pop_seg. rewrite pop_eq by done. unfold top. cbn [m_mem m_esp]. by rewrite ld16_ld32. Qed.

Ltac mfields := cbn [m_eax m_ecx m_edx m_ebx m_esp m_ebp m_esi m_edi m_cs m_ss m_ds m_es m_fs m_gs m_eip m_eflags m_mem
  get_reg set_reg get_seg set_seg set_eip set_eflags set_mem].
Ltac pushes := repeat (rewrite push_eq by (cbn [length app]; lia); cbn [app]).
Ltac pops := repeat (rewrite pop_eq by lia).

(** ** The tables *)

Definition kernel_tables (vectors : Z → Z) (ts_addr kstack : Z) (gdt0 : list segdesc) (idt0 : list gatedesc) : tables :=
  let p := switchuvm_tss ts_addr kstack (seginit gdt0) in mkTables (fst p) (tvinit vectors idt0) (snd p).

Lemma length_tvinit_loop vectors n : ∀ i idt, length (tvinit_loop vectors n i idt) = length idt.
Proof. induction n as [|n IH]; intros i idt; cbn; [done|]. by rewrite IH, length_insert. Qed.

Lemma lookup_tvinit_loop vectors n : ∀ i idt j, (i + n ≤ length idt)%nat → (i ≤ j < i + n)%nat →
  tvinit_loop vectors n i idt !! j = Some (SETGATE false (Z.shiftl SEG_KCODE 3) (vectors j) 0).
Proof.
  assert (∀ n i idt j, (j < i)%nat → tvinit_loop vectors n i idt !! j = idt !! j) as Hlow.
  { clear n. induction n as [|n IH]; intros i idt j Hj; cbn; [done|]. rewrite IH by lia. apply list_lookup_insert_ne. lia. }
  induction n as [|n IH]; intros i idt j Hl Hj; [lia|]. cbn [tvinit_loop].
  destruct (decide (j = i)) as [->|].
  - rewrite Hlow by lia. apply list_lookup_insert_eq. lia.
  - apply IH; [rewrite length_insert; lia|lia].
Qed.

(** Every gate leads to its vector in the kernel's code segment, with
    interrupts off; that of system calls leaves them on and is open to users. *)
Lemma lookup_tvinit vectors idt n : length idt = 256%nat → 0 <= n < 256 →
  tvinit vectors idt !! Z.to_nat n =
    Some (SETGATE (n =? T_SYSCALL) (Z.shiftl SEG_KCODE 3) (vectors n) (if n =? T_SYSCALL then DPL_USER else 0)).
Proof.
  intros Hl Hn. unfold tvinit. destruct (Z.eqb_spec n T_SYSCALL) as [->|Hne].
  - apply list_lookup_insert_eq. rewrite length_tvinit_loop, Hl. unfold T_SYSCALL. lia.
  - rewrite list_lookup_insert_ne by (unfold T_SYSCALL in *; lia). rewrite lookup_tvinit_loop by lia.
    do 2 f_equal. by rewrite Z2Nat.id by lia.
Qed.

Lemma lookup_kernel_code ts_addr kstack gdt0 : length gdt0 = NSEGS →
  fst (switchuvm_tss ts_addr kstack (seginit gdt0)) !! 1%nat = Some (SEG (Z.lor STA_X STA_R) 0 4294967295 0).
Proof. destruct gdt0 as [|? [|? [|? [|? [|? [|? [|]]]]]]]; intros [=]. reflexivity. Qed.

(** ** Entry *)

(** Registers hold 32 bits and selectors 16. *)
Record machine_ok (s : machine) : Prop := {
  mo_regs : Forall is_u32 [m_eax s; m_ecx s; m_edx s; m_ebx s; m_esp s; m_ebp s; m_esi s; m_edi s; m_eip s; m_eflags s];
  mo_segs : Forall (λ v, 0 <= v < 65536) [m_cs s; m_ss s; m_ds s; m_es s; m_fs s; m_gs s]
}.

(** The state of a program as a trap frame. *)
Definition frame_of (s : machine) (n err : Z) : trapframe :=
  mkTrapframe (m_edi s) (m_esi s) (m_ebp s) (m_ebx s) (m_edx s) (m_ecx s) (m_eax s) (m_gs s) (m_fs s) (m_es s) (m_ds s)
    n err (m_eip s) (m_cs s) (m_eflags s) (m_esp s) (m_ss s).

(** The flags with which the kernel is entered. *)
Definition entry_flags (n fl : Z) : Z :=
  Z.land fl (Z.lnot (Z.lor 213248 (if n =? T_SYSCALL then 0 else FL_IF))).

(** The words the processor pushes: in user mode the stack of the program first. *)
Definition pushed_words (user : bool) (s : machine) (err : option Z) : list Z :=
  (if user then [m_ss s; m_esp s] else []) ++ [m_eflags s; m_cs s; m_eip s] ++ option_list err.

Section entry.
Context (vectors : Z → Z) (ts_addr kstack : Z) (gdt0 : list segdesc) (idt0 : list gatedesc).
Context (Hgdt : length gdt0 = NSEGS) (Hidt : length idt0 = 256%nat) (Hvec : ∀ n, is_u32 (vectors n)).
Notation t := (kernel_tables vectors ts_addr kstack gdt0 idt0).

Lemma interrupt_user soft n err s : 0 <= n < 256 → cpl s = 3 → (soft = true → n = T_SYSCALL) →
  100 <= kstack + KSTACKSIZE < 4294967296 →
  let top := kstack + KSTACKSIZE in
  interrupt t soft n err s = Some (mkMachine (m_eax s) (m_ecx s) (m_edx s) (m_ebx s) (depth top (pushed_words true s err))
    (m_ebp s) (m_esi s) (m_edi s) 8 16 (m_ds s) (m_es s) (m_fs s) (m_gs s) (vectors n) (entry_flags n (m_eflags s))
    (pushw (m_mem s) top (pushed_words true s err))).
Proof using Hgdt Hidt Hvec.
  intros Hn Hc Hsoft Hk top. unfold interrupt, kernel_tables. cbn [t_gdt t_idt t_ts].
  rewrite lookup_tvinit by done. cbn [mbind option_bind].
  change (Z.to_nat (gd_cs _ / 8)) with 1%nat. rewrite (lookup_kernel_code ts_addr kstack gdt0 Hgdt). cbn [mbind option_bind].
  rewrite Hc, gate_offset_SETGATE by done.
  replace (soft && _) with false.
  2: { destruct soft; [|done]. by rewrite (Hsoft eq_refl). }
  change (sd_dpl (SEG _ _ _ _)) with 0. cbn [gd_p SETGATE Z.eqb orb Z.ltb Z.compare gd_cs].
  cbn [switchuvm_tss snd ts_esp0 ts_ss0]. fold top. rewrite (u32_small top) by (unfold is_u32, top; lia).
  destruct s as [a c d b sp bp si di cs ss ds es fs gs ip fl m]. unfold pushed_words. mfields. unfold KSTACKSIZE in *.
  destruct err as [e|]; cbn [option_list app]; rewrite push_first by lia; pushes; unfold entry_flags; by destruct (n =? T_SYSCALL).
Qed.
Lemma interrupt_kernel n err s : 0 <= n < 256 → cpl s = 0 → 100 <= m_esp s < 4294967296 →
  interrupt t false n err s = Some (mkMachine (m_eax s) (m_ecx s) (m_edx s) (m_ebx s)
    (depth (m_esp s) (pushed_words false s err))
    (m_ebp s) (m_esi s) (m_edi s) 8 (m_ss s) (m_ds s) (m_es s) (m_fs s) (m_gs s) (vectors n) (entry_flags n (m_eflags s))
    (pushw (m_mem s) (m_esp s) (pushed_words false s err))).
Proof using Hgdt Hidt Hvec.
  intros Hn Hc Hk. unfold interrupt, kernel_tables. cbn [t_gdt t_idt t_ts].
  rewrite lookup_tvinit by done. cbn [mbind option_bind].
  change (Z.to_nat (gd_cs _ / 8)) with 1%nat. rewrite (lookup_kernel_code ts_addr kstack gdt0 Hgdt). cbn [mbind option_bind].
  rewrite Hc, gate_offset_SETGATE by done.
  change (sd_dpl (SEG _ _ _ _)) with 0. cbn [gd_p SETGATE Z.eqb orb andb Z.ltb Z.compare gd_cs].
  destruct s as [a c d b sp bp si di cs ss ds es fs gs ip fl m]. unfold pushed_words. mfields. cbn [m_esp] in Hk.
  destruct err as [e|]; cbn [option_list app]; rewrite push_first by lia; pushes; unfold entry_flags; by destruct (n =? T_SYSCALL).
Qed.

(** A user program cannot raise any other trap with [int]. *)
Lemma interrupt_refused n err s : 0 <= n < 256 → n ≠ T_SYSCALL → cpl s = 3 → interrupt t true n err s = None.
Proof using Hgdt Hidt.
  intros Hn Hne Hc. unfold interrupt, kernel_tables. cbn [t_gdt t_idt t_ts].
  rewrite lookup_tvinit by done. cbn [mbind option_bind].
  change (Z.to_nat (gd_cs _ / 8)) with 1%nat. rewrite (lookup_kernel_code ts_addr kstack gdt0 Hgdt). cbn [mbind option_bind].
  by rewrite Hc, (proj2 (Z.eqb_neq _ _) Hne).
Qed.
End entry.

(** The words from the error code down to the return address of [trap]. *)
Definition frame_words (s : machine) (n err tf next : Z) : list Z :=
  [err; n; m_ds s; m_es s; m_fs s; m_gs s; m_eax s; m_ecx s; m_edx s; m_ebx s; tf + 32; m_ebp s; m_esi s; m_edi s; tf; next].

Lemma run_app c1 c2 s : run (c1 ++ c2) s = run c2 (run c1 s).
Proof. revert s. induction c1 as [|i c1 IH]; intros s; cbn; [done|apply IH]. Qed.

Ltac pushes_on := repeat (rewrite push_eq by (rewrite ?length_app; cbn [length]; lia); mfields).

(** After the entry point of its vector a trap has pushed an error code and its number. *)
Lemma vector_run alltraps n err top vs a c d b bp si di cs ss ds es fs gs ip fl m :
  0 <= n < 256 → (is_Some err ↔ has_error_code n = true) → 100 <= top < 4294967296 → (length vs ≤ 5)%nat →
  run (vector alltraps n) (mkMachine a c d b (depth top (vs ++ option_list err)) bp si di cs ss ds es fs gs ip fl
    (pushw m top (vs ++ option_list err))) =
  mkMachine a c d b (depth top (vs ++ [default 0 err; n])) bp si di cs ss ds es fs gs alltraps fl
    (pushw m top (vs ++ [default 0 err; n])).
Proof.
  intros Hn Herr Htop Hvs. assert (u32 n = n) as En by (apply u32_small; unfold is_u32; lia).
  unfold vector. destruct err as [e|]; cbn [default].
  - change (option_list (Some e)) with [e]. change (id e) with e. rewrite (proj1 Herr) by done. cbn [negb app run step]. rewrite En. pushes_on. by rewrite <- app_assoc.
  - destruct (has_error_code n); [by destruct (proj2 Herr eq_refl)|]. cbn [negb app run step]. change (option_list None) with (@nil Z). rewrite En, app_nil_r.
    change (u32 0) with 0. pushes_on. by rewrite <- app_assoc.
Qed.

(** [alltraps] up to the call of [trap]. *)
Lemma alltraps_run trap_addr next s top vs cs ss ip fl :
  100 <= top < 4294967296 → (length vs ≤ 7)%nat →
  let tf := depth top vs - 48 in
  let ws := vs ++ [m_ds s; m_es s; m_fs s; m_gs s; m_eax s; m_ecx s; m_edx s; m_ebx s; tf + 32; m_ebp s; m_esi s; m_edi s;
    tf; next] in
  run (alltraps_entry trap_addr next)
    (mkMachine (m_eax s) (m_ecx s) (m_edx s) (m_ebx s) (depth top vs) (m_ebp s) (m_esi s) (m_edi s)
      cs ss (m_ds s) (m_es s) (m_fs s) (m_gs s) ip fl (pushw (m_mem s) top vs)) =
  mkMachine (m_eax s / 65536 * 65536 + 16) (m_ecx s) (m_edx s) (m_ebx s) (depth top ws) (m_ebp s) (m_esi s) (m_edi s)
    cs ss 16 16 (m_fs s) (m_gs s) trap_addr fl (pushw (m_mem s) top ws).
Proof.
  intros Htop Hvs tf ws. destruct s as [a c d b sp bp si di cs0 ss0 ds es fs gs ip0 fl0 m]. unfold ws. mfields.
  unfold alltraps_entry. cbn [run step]. mfields. pushes_on. rewrite <- !app_assoc. cbn [app].
  change (u16 (Z.shiftl SEG_KDATA 3)) with 16.
  assert (u16 (a / 65536 * 65536 + 16) = 16) as -> by divmod.
  assert (depth top (vs ++ [ds; es; fs; gs]) = tf + 32) as ->
    by (unfold tf, depth; rewrite length_app; cbn [length]; lia).
  assert (depth top (vs ++ [ds; es; fs; gs; a; c; d; b; tf + 32; bp; si; di]) = tf) as ->
    by (unfold tf, depth; rewrite length_app; cbn [length]; lia).
  done.
Qed.

(** ** Return *)

(** The state of a program that a trap frame describes. *)
Definition user_state (f : trapframe) (m : mem) : machine :=
  mkMachine (tf_eax f) (tf_ecx f) (tf_edx f) (tf_ebx f) (tf_esp f) (tf_ebp f) (tf_esi f) (tf_edi f)
    (tf_cs f) (tf_ss f) (tf_ds f) (tf_es f) (tf_fs f) (tf_gs f) (tf_eip f) (tf_eflags f) m.

(** The data segments of the frame are open to user mode. *)
Definition user_segments (t : tables) (f : trapframe) : Prop :=
  Forall (λ sel, forbidden t 3 sel = false) [tf_ds f; tf_es f; tf_fs f; tf_gs f].

(** The pops of [trapret]. *)
Lemma trapret_pops s tf : m_esp s = tf → 0 <= tf → tf + 76 < 4294967296 →
  let m := m_mem s in let f := tf_at m tf in
  ∃ fl, run [Popal; PoplSeg GS; PoplSeg FS; PoplSeg ES; PoplSeg DS; AddlImm 8 ESP] s =
    mkMachine (tf_eax f) (tf_ecx f) (tf_edx f) (tf_ebx f) (tf + 4 * 14) (tf_ebp f) (tf_esi f) (tf_edi f)
      (m_cs s) (m_ss s) (tf_ds f) (tf_es f) (tf_fs f) (tf_gs f) (m_eip s) fl m.
Proof.
  intros Htf H0 H1 m f. destruct s as [a c d b sp bp si di cs ss ds es fs gs ip fl m0].
  cbn [m_mem m_esp m_cs m_ss m_eip] in *. subst m f. replace sp with (tf + 4 * 0) by lia. cbn [run step].
  repeat (first [rewrite pop_reg_eq by lia|rewrite pop_seg_eq by lia|rewrite pop_eq by lia]; mfields).
  eexists. unfold tf_at. cbn [tf_eax tf_ecx tf_edx tf_ebx tf_ebp tf_esi tf_edi tf_ds tf_es tf_fs tf_gs].
  f_equal; [|f_equal; lia]. rewrite u32_small; [lia|]. unfold is_u32. lia.
Qed.

(** [iret] in the kernel. *)
Lemma iret_eq t a c d b bp si di cs ss ds es fs gs ip fl m base n :
  Z.land cs 3 = 0 → 0 <= base + 4 * n → base + 4 * (n + 5) < 4294967296 →
  let cs' := ld16 m (base + 4 * (n + 1)) in
  let l := Z.land cs' 3 in
  let ip' := ld32 m (base + 4 * n) in
  let fl' := ld32 m (base + 4 * (n + 2)) in
  iret t (mkMachine a c d b (base + 4 * n) bp si di cs ss ds es fs gs ip fl m) =
  if 0 <? l then
    drop_seg t l GS (drop_seg t l FS (drop_seg t l ES (drop_seg t l DS
      (mkMachine a c d b (ld32 m (base + 4 * (n + 3))) bp si di cs' (ld16 m (base + 4 * (n + 4))) ds es fs gs ip' fl' m))))
  else mkMachine a c d b (base + 4 * (n + 3)) bp si di cs' ss ds es fs gs ip' fl' m.
Proof.
  intros Hcs H0 H1 cs' l ip' fl'. unfold iret, cpl at 1. mfields. rewrite Hcs.
  change (top (mkMachine a c d b (base + 4 * n) bp si di cs ss ds es fs gs ip fl m)) with ip'.
  rewrite pop_eq by lia. rewrite pop_seg_eq by lia. mfields. fold cs'.
  replace (n + 1 + 1) with (n + 2) by lia.
  change (top (mkMachine a c d b (base + 4 * (n + 2)) bp si di cs' ss ds es fs gs ip' fl m)) with fl'.
  rewrite pop_eq by lia. replace (n + 2 + 1) with (n + 3) by lia. unfold cpl. mfields. fold l.
  rewrite pop_eq by lia. replace (n + 3 + 1) with (n + 4) by lia. unfold top. mfields. by rewrite ld16_ld32.
Qed.

Lemma trapret_user t s tf : m_esp s = tf → 0 <= tf → tf + 76 < 4294967296 → cpl s = 0 →
  let f := tf_at (m_mem s) tf in
  Z.land (tf_cs f) 3 = 3 → user_segments t f → trapret t s = user_state f (m_mem s).
Proof.
  intros Htf H0 H1 Hcpl f Hcs Hseg. destruct (trapret_pops s tf Htf H0 H1) as [fl R]. unfold trapret. rewrite R. clear R.
  fold f. rewrite iret_eq by (lia || done). change (ld16 (m_mem s) (tf + 4 * (14 + 1))) with (tf_cs f). rewrite Hcs.
  cbn [Z.ltb Z.compare].
  apply Forall_cons in Hseg as [Hds Hseg]. apply Forall_cons in Hseg as [Hes Hseg].
  apply Forall_cons in Hseg as [Hfs Hseg]. apply Forall_cons in Hseg as [Hgs _].
  unfold drop_seg. mfields. rewrite Hds. mfields. rewrite Hes. mfields. rewrite Hfs. mfields. rewrite Hgs. done.
Qed.

(** Back into the kernel: the stack is where it was. *)
Lemma trapret_kernel t s tf : m_esp s = tf → 0 <= tf → tf + 76 < 4294967296 → cpl s = 0 →
  let f := tf_at (m_mem s) tf in
  Z.land (tf_cs f) 3 = 0 →
  trapret t s = mkMachine (tf_eax f) (tf_ecx f) (tf_edx f) (tf_ebx f) (tf + 68) (tf_ebp f) (tf_esi f) (tf_edi f)
    (tf_cs f) (m_ss s) (tf_ds f) (tf_es f) (tf_fs f) (tf_gs f) (tf_eip f) (tf_eflags f) (m_mem s).
Proof.
  intros Htf H0 H1 Hcpl f Hcs. destruct (trapret_pops s tf Htf H0 H1) as [fl R]. unfold trapret. rewrite R. clear R.
  fold f. rewrite iret_eq by (lia || done). change (ld16 (m_mem s) (tf + 4 * (14 + 1))) with (tf_cs f). rewrite Hcs.
  done.
Qed.

(** ** Round trips *)

(** The tables as booting and [switchuvm] leave them. *)
Record traps_ready (vectors : Z → Z) (kstack : Z) (gdt0 : list segdesc) (idt0 : list gatedesc) : Prop := {
  tr_gdt : length gdt0 = NSEGS;
  tr_idt : length idt0 = 256%nat;
  tr_vectors : ∀ n, is_u32 (vectors n);
  tr_kstack : 0 <= kstack ∧ kstack + KSTACKSIZE < 4294967296
}.

(** The exceptions for which the processor pushes an error code: double fault,
    invalid task state, segment not present, stack fault, general protection,
    page fault and alignment check. *)
Definition error_vectors : list Z := [8; 10; 11; 12; 13; 14; 17].

(** A trap the processor raises: an error code comes with the exceptions that
    have one, and only the gate of system calls is open to [int]. *)
Record trap_of (soft : bool) (n : Z) (err : option Z) : Prop := {
  to_vector : 0 <= n < 256;
  to_err : is_Some err ↔ n ∈ error_vectors;
  to_code : is_u32 (default 0 err);
  to_soft : soft = true → n = T_SYSCALL
}.

Lemma has_error_code_vectors n : has_error_code n = true ↔ n ∈ error_vectors.
Proof.
  unfold has_error_code, error_vectors. rewrite !orb_true_iff, andb_true_iff, !Z.leb_le, !Z.eqb_eq, !elem_of_cons, elem_of_nil. lia.
Qed.

Lemma trap_pushes soft n err : trap_of soft n err → is_Some err ↔ has_error_code n = true.
Proof. intros H. rewrite has_error_code_vectors. apply H. Qed.

Lemma pushes_dec n (err : option Z) : bool_decide (is_Some err) = bool_decide (n ∈ error_vectors) → is_Some err ↔ n ∈ error_vectors.
Proof. do 2 case_bool_decide; naive_solver. Qed.

Lemma trap_of_syscall : trap_of true T_SYSCALL None.
Proof. split; [done|by apply pushes_dec|done|done]. Qed.

Lemma entry_flags_if n fl : Z.testbit (entry_flags n fl) 9 = (n =? T_SYSCALL) && Z.testbit fl 9.
Proof.
  unfold entry_flags. rewrite Z.land_spec, Z.lnot_spec, Z.lor_spec by lia.
  change (Z.testbit 213248 9) with false. destruct (n =? T_SYSCALL); cbn [orb andb].
  - by rewrite Z.bits_0, andb_true_r.
  - change (Z.testbit FL_IF 9) with true. by rewrite andb_false_r.
Qed.

(** Read back the pushed word, trying the words up to the [i]-th. *)
Ltac read_word i :=
  first [ solve [etrans; [eapply (ld32_pushw _ _ _ i); [reflexivity|lia]|apply u32_small; assumption]]
        | solve [etrans; [eapply (ld16_pushw _ _ _ i); [reflexivity|lia]|apply Z.mod_small; assumption]]
        | match i with S ?j => read_word j end ].

(** What the stack holds when [trap] is called: its argument and the frame. *)
Lemma frame_words_read s n err next top user (m : mem) :
  machine_ok s → 0 <= n < 256 → is_u32 err → is_u32 next → 100 <= top < 4294967296 →
  let vs := (if user : bool then [m_ss s; m_esp s] else []) ++ [m_eflags s; m_cs s; m_eip s] in
  let tf := depth top (vs ++ [err; n]) - 48 in
  let ws := (vs ++ [err; n]) ++ [m_ds s; m_es s; m_fs s; m_gs s; m_eax s; m_ecx s; m_edx s; m_ebx s; tf + 32; m_ebp s;
    m_esi s; m_edi s; tf; next] in
  let m' := pushw m top ws in
  depth top ws = tf - 8 ∧ ld32 m' (tf - 8) = next ∧ ld32 m' (tf - 4) = tf ∧
  tf_at m' tf = mkTrapframe (m_edi s) (m_esi s) (m_ebp s) (m_ebx s) (m_edx s) (m_ecx s) (m_eax s) (m_gs s) (m_fs s)
    (m_es s) (m_ds s) n err (m_eip s) (m_cs s) (m_eflags s)
    (if user then m_esp s else ld32 m (tf + 68)) (if user then m_ss s else ld16 m (tf + 72)).
Proof.
  intros [Hr Hs] Hn He Hnx Htop vs tf ws m'.
  destruct s as [a c d b sp bp si di cs ss ds es fs gs ip fl m0].
  cbn [m_eax m_ecx m_edx m_ebx m_esp m_ebp m_esi m_edi m_cs m_ss m_ds m_es m_fs m_gs m_eip m_eflags] in *.
  repeat (rewrite Forall_cons in Hr; destruct Hr as [? Hr]). repeat (rewrite Forall_cons in Hs; destruct Hs as [? Hs]).
  assert (is_u32 n) by (unfold is_u32; lia).
  destruct user.
  - assert (tf = top - 76) as Etf by (unfold tf, vs, depth; cbn [app length]; lia).
    assert (is_u32 tf) by (unfold is_u32; lia). unfold m', ws, vs, tf_at. clearbody tf. unfold depth. cbn [app length].
    split_and!; [lia|read_word 20%nat..|]. f_equal; read_word 18%nat.
  - assert (tf = top - 68) as Etf by (unfold tf, vs, depth; cbn [app length]; lia).
    assert (is_u32 tf) by (unfold is_u32; lia). unfold m', ws, vs, tf_at. clearbody tf. unfold depth. cbn [app length].
    split_and!; [lia|read_word 18%nat..|]. f_equal; [read_word 16%nat..| |].
    + apply ld32_ext. intros x Hx. apply ldb_pushw_out. unfold depth. cbn [length]. lia.
    + unfold ld16. rewrite !ldb_pushw_out by (unfold depth; cbn [length]; lia). done.
Qed.

(** The code that runs on a trap before [trap] is called. *)
Definition trap_prologue (alltraps trap_addr next n : Z) : list instr :=
  vector alltraps n ++ alltraps_entry trap_addr next.

(** What [trap] is entered with: its return address, its argument [tf], and
    the kernel's data segments. *)
Record trap_entered (trap_addr next tf : Z) (s : machine) : Prop := {
  te_eip : m_eip s = trap_addr;
  te_esp : m_esp s = tf - 8;
  te_next : ld32 (m_mem s) (m_esp s) = next;
  te_arg : ld32 (m_mem s) (m_esp s + 4) = tf;
  te_level : cpl s = 0;
  te_ds : m_ds s = Z.shiftl SEG_KDATA 3;
  te_es : m_es s = Z.shiftl SEG_KDATA 3
}.

Lemma alltraps_exit_eq t s tf : m_esp s = tf - 4 → 4 <= tf < 4294967296 →
  ∃ fl, alltraps_exit t s = trapret t (set_eflags fl (set_reg ESP tf s)).
Proof.
  intros He Ht. eexists. unfold alltraps_exit. cbn [run step get_reg]. rewrite He.
  replace (u32 (tf - 4 + 4)) with tf; [done|]. rewrite u32_small; [lia|]. unfold is_u32. lia.
Qed.

Lemma alltraps_exit_user t s tf : m_esp s = tf - 4 → 4 <= tf → tf + 76 < 4294967296 → cpl s = 0 →
  let f := tf_at (m_mem s) tf in
  Z.land (tf_cs f) 3 = 3 → user_segments t f → alltraps_exit t s = user_state f (m_mem s).
Proof.
  intros He H0 H1 Hc f Hcs Hseg. destruct (alltraps_exit_eq t s tf He) as [fl ->]; [lia|].
  destruct s as [a c d b sp bp si di cs ss ds es fs gs ip fl0 m].
  refine (trapret_user t (mkMachine a c d b tf bp si di cs ss ds es fs gs ip fl m) tf eq_refl _ H1 Hc Hcs Hseg). lia.
Qed.

Lemma user_state_frame s n err m : user_state (frame_of s n err) m = set_mem m s.
Proof. by destruct s. Qed.

(** A trap from user mode, up to the call of [trap] and after it. *)
Lemma trap_from_user vectors ts_addr kstack gdt0 idt0 alltraps trap_addr next s soft n err :
  traps_ready vectors kstack gdt0 idt0 → trap_of soft n err → machine_ok s → cpl s = 3 → is_u32 next →
  let t := kernel_tables vectors ts_addr kstack gdt0 idt0 in
  let tf := kstack + KSTACKSIZE - TF_SIZE in
  let code := default 0 err in
  ∃ s1, interrupt t soft n err s = Some s1 ∧ m_eip s1 = vectors n ∧
    let s2 := run (trap_prologue alltraps trap_addr next n) s1 in
    trap_entered trap_addr next tf s2 ∧ tf_at (m_mem s2) tf = frame_of s n code ∧
    Z.testbit (m_eflags s2) 9 = (n =? T_SYSCALL) && Z.testbit (m_eflags s) 9 ∧
    (∀ b, ¬ (tf - 8 <= b < kstack + KSTACKSIZE) → ldb (m_mem s2) b = ldb (m_mem s) b) ∧
    ∀ s3, m_esp s3 = tf - 4 → cpl s3 = 0 →
      let f := tf_at (m_mem s3) tf in
      Z.land (tf_cs f) 3 = 3 → user_segments t f →
      alltraps_exit t s3 = user_state f (m_mem s3) ∧ (f = frame_of s n code → alltraps_exit t s3 = set_mem (m_mem s3) s).
Proof.
  intros [Hg Hi Hv [Hk0 Hk1]] Ht Hs Hc Hnx t tf code. pose proof (trap_pushes _ _ _ Ht) as Herr. destruct Ht as [Hn _ Hcode Hsoft]. unfold KSTACKSIZE, TF_SIZE in *.
  set (top := kstack + 4096) in *. assert (100 <= top < 4294967296) as Htop by (unfold top; lia).
  eexists. split; [apply (interrupt_user vectors ts_addr kstack gdt0 idt0 Hg Hi Hv soft n err s Hn Hc Hsoft); exact Htop|].
  split; [done|]. cbv zeta. set (vs := [m_ss s; m_esp s; m_eflags s; m_cs s; m_eip s]).
  destruct (frame_words_read s n code next top true (m_mem s) Hs Hn Hcode Hnx Htop) as (Ed & Rn & Ra & Rf).
  unfold trap_prologue. rewrite run_app.
  change (pushed_words true s err) with (vs ++ option_list err). change (kstack + KSTACKSIZE) with top.
  rewrite vector_run by (done || cbn; lia). rewrite alltraps_run by (done || cbn; lia).
  change (([m_ss s; m_esp s] ++ [m_eflags s; m_cs s; m_eip s])) with vs in *. fold code.
  assert (depth top (vs ++ [code; n]) - 48 = tf) as Etf by (unfold depth, tf; cbn [app length vs]; lia).
  rewrite Etf in Ed, Rn, Ra, Rf |- *. set (ws := (vs ++ [code; n]) ++ _) in *. mfields. rewrite Ed.
  split_and!; [split; mfields; try done| exact Rf|apply entry_flags_if| |].
  - by replace (tf - 8 + 4) with (tf - 4) by lia.
  - intros b Hb. apply ldb_pushw_out. rewrite Ed. exact Hb.
  - intros s3 He3 Hc3 Hcs Hseg. set (f := tf_at (m_mem s3) tf) in *. assert (alltraps_exit t s3 = user_state f (m_mem s3)) as R
      by (apply alltraps_exit_user; [done|unfold tf; lia|unfold tf; lia|done..]).
    split; [exact R|]. intros Ef. rewrite R, Ef. apply user_state_frame.
Qed.

(** C9: A trap from user mode hands the C code the exact state of the program,
    and returning makes the state again.  With the tables [seginit], [tvinit]
    and [switchuvm] set up, every trap the processor raises goes through the
    vector of its number to [trap] on the kernel stack of the process; the
    frame [trap] is given holds the registers, the number and the error code;
    interrupts are off unless it is a system call; no other memory is written;
    whatever frame [trap] leaves, the return is to the state the frame
    describes, which is the state at the trap if [trap] leaves the frame alone;
    and the program itself can raise no trap but a system call. *)
Theorem trap_roundtrip vectors ts_addr kstack gdt0 idt0 alltraps trap_addr next s soft n err :
  traps_ready vectors kstack gdt0 idt0 → trap_of soft n err → machine_ok s → cpl s = 3 → is_u32 next →
  let t := kernel_tables vectors ts_addr kstack gdt0 idt0 in
  let tf := kstack + KSTACKSIZE - TF_SIZE in
  let code := default 0 err in
  (∀ n' err', 0 <= n' < 256 → n' ≠ T_SYSCALL → interrupt t true n' err' s = None) ∧
  ∃ s1, interrupt t soft n err s = Some s1 ∧ m_eip s1 = vectors n ∧
    let s2 := run (trap_prologue alltraps trap_addr next n) s1 in
    trap_entered trap_addr next tf s2 ∧ tf_at (m_mem s2) tf = frame_of s n code ∧
    Z.testbit (m_eflags s2) 9 = (n =? T_SYSCALL) && Z.testbit (m_eflags s) 9 ∧
    (∀ b, ¬ (tf - 8 <= b < kstack + KSTACKSIZE) → ldb (m_mem s2) b = ldb (m_mem s) b) ∧
    ∀ s3, m_esp s3 = tf - 4 → cpl s3 = 0 →
      let f := tf_at (m_mem s3) tf in
      Z.land (tf_cs f) 3 = 3 → user_segments t f →
      alltraps_exit t s3 = user_state f (m_mem s3) ∧ (f = frame_of s n code → alltraps_exit t s3 = set_mem (m_mem s3) s).
Proof.
  intros Hr Ht Hs Hc Hnx t tf code. split; [|by apply trap_from_user].
  intros n' err' Hn' Hne. apply interrupt_refused; [apply Hr..|done|done|done].
Qed.

Lemma alltraps_exit_kernel t s tf : m_esp s = tf - 4 → 4 <= tf → tf + 76 < 4294967296 → cpl s = 0 →
  let f := tf_at (m_mem s) tf in
  Z.land (tf_cs f) 3 = 0 →
  alltraps_exit t s = mkMachine (tf_eax f) (tf_ecx f) (tf_edx f) (tf_ebx f) (tf + 68) (tf_ebp f) (tf_esi f) (tf_edi f)
    (tf_cs f) (m_ss s) (tf_ds f) (tf_es f) (tf_fs f) (tf_gs f) (tf_eip f) (tf_eflags f) (m_mem s).
Proof.
  intros He H0 H1 Hc f Hcs. destruct (alltraps_exit_eq t s tf He) as [fl ->]; [lia|].
  destruct s as [a c d b sp bp si di cs ss ds es fs gs ip fl0 m].
  refine (trapret_kernel t (mkMachine a c d b tf bp si di cs ss ds es fs gs ip fl m) tf eq_refl _ H1 Hc Hcs). lia.
Qed.

(** The same for an interrupt of the kernel itself: the frame is built on
    the stack in use, below what it holds, and when [trap] leaves the frame
    alone the interrupted code goes on in the state it was in, with the stack
    pointer where it was and nothing above it written. *)
Theorem trap_kernel_roundtrip vectors ts_addr kstack gdt0 idt0 alltraps trap_addr next s n err :
  traps_ready vectors kstack gdt0 idt0 → trap_of false n err → machine_ok s → cpl s = 0 → is_u32 next →
  100 <= m_esp s < 4294967288 →
  let t := kernel_tables vectors ts_addr kstack gdt0 idt0 in
  let tf := m_esp s - 68 in
  ∃ s1, interrupt t false n err s = Some s1 ∧ m_eip s1 = vectors n ∧
    let s2 := run (trap_prologue alltraps trap_addr next n) s1 in
    trap_entered trap_addr next tf s2 ∧ m_ss s2 = m_ss s ∧
    (∃ x y, tf_at (m_mem s2) tf = set_tf_ss y (set_tf_esp x (frame_of s n (default 0 err)))) ∧
    Z.testbit (m_eflags s2) 9 = (n =? T_SYSCALL) && Z.testbit (m_eflags s) 9 ∧
    (∀ b, ¬ (tf - 8 <= b < m_esp s) → ldb (m_mem s2) b = ldb (m_mem s) b) ∧
    ∀ s3, m_esp s3 = tf - 4 → cpl s3 = 0 → m_ss s3 = m_ss s →
      tf_at (m_mem s3) tf = tf_at (m_mem s2) tf → alltraps_exit t s3 = set_mem (m_mem s3) s.
Proof.
  intros [Hg Hi Hv _] Ht Hs Hc Hnx Hsp t tf. pose proof (trap_pushes _ _ _ Ht) as Herr. destruct Ht as [Hn _ Hcode _]. set (code := default 0 err) in *.
  eexists. split; [apply (interrupt_kernel vectors ts_addr kstack gdt0 idt0 Hg Hi Hv n err s Hn Hc); lia|].
  split; [done|]. cbv zeta. set (vs := [m_eflags s; m_cs s; m_eip s]).
  destruct (frame_words_read s n code next (m_esp s) false (m_mem s) Hs Hn Hcode Hnx) as (Ed & Rn & Ra & Rf); [lia|].
  unfold trap_prologue. rewrite run_app. change (pushed_words false s err) with (vs ++ option_list err).
  rewrite vector_run by (done || cbn; lia). rewrite alltraps_run by (done || cbn; lia).
  change ([] ++ [m_eflags s; m_cs s; m_eip s]) with vs in *. fold code.
  assert (depth (m_esp s) (vs ++ [code; n]) - 48 = tf) as Etf by (unfold depth, tf; cbn [app length vs]; lia).
  rewrite Etf in Ed, Rn, Ra, Rf |- *. set (ws := (vs ++ [code; n]) ++ _) in *. mfields. rewrite Ed.
  split_and!; [split; mfields; try done|done| |apply entry_flags_if| |].
  - by replace (tf - 8 + 4) with (tf - 4) by lia.
  - eexists _, _. rewrite Rf. reflexivity.
  - intros b Hb. apply ldb_pushw_out. rewrite Ed. exact Hb.
  - intros s3 He3 Hc3 Hss Ef. rewrite Rf in Ef.
    rewrite (alltraps_exit_kernel t s3 tf) by (first [done | unfold tf; lia | by rewrite Ef]). rewrite Ef.
    destruct s. cbn in *. f_equal; [unfold tf; lia|done].
Qed.

(** ** Context switches *)

(** The memory [swtch] leaves. *)
Definition swtch_mem (s : machine) : mem :=
  st32 (pushw (m_mem s) (m_esp s) [m_ebp s; m_ebx s; m_esi s; m_edi s]) (ld32 (m_mem s) (m_esp s + 4)) (m_esp s - 16).

Lemma swtch_run s : 16 <= m_esp s → m_esp s + 12 < 4294967296 →
  let old := ld32 (m_mem s) (m_esp s + 4) in
  let new := ld32 (m_mem s) (m_esp s + 8) in
  let m := swtch_mem s in
  let cx := context_at m new in
  new + 20 < 4294967296 →
  run swtch s = mkMachine old (m_ecx s) new (cx_ebx cx) (new + 20) (cx_ebp cx) (cx_esi cx) (cx_edi cx)
    (m_cs s) (m_ss s) (m_ds s) (m_es s) (m_fs s) (m_gs s) (cx_eip cx) (m_eflags s) m.
Proof.
  intros H0 H1 old new m cx H2. pose proof (ld32_range (m_mem s) (m_esp s + 4)) as Ho. fold old in Ho.
  pose proof (ld32_range (m_mem s) (m_esp s + 8)) as Hn. fold new in Hn. unfold is_u32 in Ho, Hn.
  unfold m, swtch_mem in *. fold old in cx |- *.
  destruct s as [a c d b sp bp si di cs ss ds es fs gs ip fl m0].
  cbn [m_esp m_mem m_ecx m_ebp m_ebx m_esi m_edi m_cs m_ss m_ds m_es m_fs m_gs m_eflags] in *.
  unfold swtch. cbn [run step]. mfields.
  rewrite (u32_small (sp + 4)) by (unfold is_u32; lia). rewrite (u32_small (sp + 8)) by (unfold is_u32; lia). fold old new.
  rewrite push_first by lia. mfields. pushes. mfields. rewrite (u32_small (old + 0)) by (unfold is_u32; lia).
  rewrite Z.add_0_r. replace (depth sp [bp; b; si; di]) with (sp - 16) by (unfold depth; cbn [length]; lia).
  set (m' := st32 _ old _) in *.
  replace (mkMachine old c new b new bp si di cs ss ds es fs gs ip fl m')
    with (mkMachine old c new b (new + 4 * 0) bp si di cs ss ds es fs gs ip fl m') by (f_equal; lia).
  repeat (first [rewrite pop_reg_eq by lia|rewrite pop_eq by lia]; mfields). unfold cx, context_at, top. mfields.
  cbn [cx_edi cx_esi cx_ebx cx_ebp cx_eip]. do 2 f_equal. lia.
Qed.

(** The bytes two memories agree on. *)
Definition agree (m m' : mem) (a n : Z) : Prop := ∀ b, a <= b < a + n → ldb m b = ldb m' b.

(** The ranges [a .. a+n) and [b .. b+k) have no byte in common. *)
Definition apart (a n b k : Z) : Prop := a + n <= b ∨ b + k <= a.

Lemma ld32_agree m m' a n b : agree m m' a n → a <= b → b + 4 <= a + n → ld32 m b = ld32 m' b.
Proof. intros H Ha Hb. apply ld32_ext. intros x Hx. apply H. lia. Qed.

Lemma context_at_agree m m' a : agree m m' a 20 → context_at m a = context_at m' a.
Proof. intros H. unfold context_at. f_equal; (eapply ld32_agree; [exact H|lia|lia]). Qed.

Lemma swtch_mem_agree s a n : apart a n (m_esp s - 16) 16 → apart a n (ld32 (m_mem s) (m_esp s + 4)) 4 →
  agree (swtch_mem s) (m_mem s) a n.
Proof.
  intros H1 H2 b Hb. unfold swtch_mem, apart in *. rewrite ldb_st32_out by lia. apply ldb_pushw_out.
  unfold depth. cbn [length]. lia.
Qed.

(** A call of [swtch(old, new)]: there is room on the stack, the new context
    lies below the top of memory, and neither it nor the variable [old] points
    at overlaps the context that is saved. *)
Record swtch_call (s : machine) (old new : Z) : Prop := {
  sc_old : ld32 (m_mem s) (m_esp s + 4) = old;
  sc_new : ld32 (m_mem s) (m_esp s + 8) = new;
  sc_room : 16 <= m_esp s ∧ m_esp s + 12 < 4294967296;
  sc_top : 0 <= new ∧ new + 20 < 4294967296;
  sc_apart : apart new 20 (m_esp s - 16) 20;
  sc_old_self : apart old 4 (m_esp s - 16) 20;
  sc_old_new : apart new 20 old 4
}.

Lemma swtch_to s old new : swtch_call s old new →
  let cx := context_at (m_mem s) new in
  run swtch s = mkMachine old (m_ecx s) new (cx_ebx cx) (new + 20) (cx_ebp cx) (cx_esi cx) (cx_edi cx)
    (m_cs s) (m_ss s) (m_ds s) (m_es s) (m_fs s) (m_gs s) (cx_eip cx) (m_eflags s) (swtch_mem s).
Proof.
  intros [<- <- [H0 H1] [H2 H3] Ha Hb Hc] cx. rewrite (swtch_run s H0 H1 H3). fold cx.
  rewrite (context_at_agree (swtch_mem s) (m_mem s)); [done|]. apply swtch_mem_agree; [unfold apart in *; lia|done].
Qed.

(** The saved context. *)
Lemma swtch_saved s old new : machine_ok s → swtch_call s old new →
  ld32 (swtch_mem s) old = m_esp s - 16 ∧
  context_at (swtch_mem s) (m_esp s - 16) = mkContext (m_edi s) (m_esi s) (m_ebx s) (m_ebp s) (ld32 (m_mem s) (m_esp s)).
Proof.
  intros [Hr _] [<- <- [H0 H1] _ Ha Hb _].
  repeat (rewrite Forall_cons in Hr; destruct Hr as [? Hr]). unfold swtch_mem, apart in *. split.
  - rewrite ld32_st32_same. apply u32_small. unfold is_u32. lia.
  - unfold context_at. rewrite !ld32_st32_ne by lia. f_equal; [read_word 3%nat..|].
    replace (m_esp s - 16 + 16) with (m_esp s) by lia. apply ld32_ext. intros b Hb'. apply ldb_pushw_out.
    unfold depth. cbn [length]. lia.
Qed.

(** C13: [swtch] is a switch of coroutines.  It leaves in [*old] the address of a
    context with the callee-saved registers and the return address, writes
    nothing else, and goes on where the context [new] was saved.  When any
    thread later switches to the saved context, with its bytes as they were
    left, the first call returns: to its return address, with its stack and
    its callee-saved registers. *)
Theorem swtch_coroutine s old new :
  machine_ok s → swtch_call s old new →
  let s1 := run swtch s in
  let saved := m_esp s - 16 in
  let cx := context_at (m_mem s) new in
  (m_eip s1 = cx_eip cx ∧ m_esp s1 = new + 20 ∧ m_ebp s1 = cx_ebp cx ∧ m_ebx s1 = cx_ebx cx ∧ m_esi s1 = cx_esi cx ∧
    m_edi s1 = cx_edi cx) ∧
  ld32 (m_mem s1) old = saved ∧
  (∀ a n, apart a n saved 16 → apart a n old 4 → agree (m_mem s1) (m_mem s) a n) ∧
  ∀ s' old', swtch_call s' old' saved → agree (m_mem s') (m_mem s1) saved 20 →
    let s2 := run swtch s' in
    m_eip s2 = ld32 (m_mem s) (m_esp s) ∧ m_esp s2 = m_esp s + 4 ∧ m_ebp s2 = m_ebp s ∧ m_ebx s2 = m_ebx s ∧
    m_esi s2 = m_esi s ∧ m_edi s2 = m_edi s.
Proof.
  intros Hs Hc s1 saved cx. unfold s1. rewrite (swtch_to s old new Hc). fold cx. mfields.
  destruct (swtch_saved s old new Hs Hc) as [Ho Hx]. pose proof (sc_old _ _ _ Hc) as Eo.
  split; [done|]. split; [done|]. split.
  - intros a n H1 H2. apply swtch_mem_agree; [done|by rewrite Eo].
  - intros s' old' Hc' Ha. rewrite (swtch_to s' old' saved Hc'). mfields.
    rewrite (context_at_agree _ _ _ Ha). unfold saved. rewrite Hx. cbn. split_and!; [done|lia|done..].
Qed.

Section new_process.
Context `{L : Layout}.

(** The context and the return address [allocproc] puts on the stack. *)
Lemma allocproc_stack_read m kstack : is_u32 forkret_addr → is_u32 trapret_addr →
  let tf := kstack + KSTACKSIZE - TF_SIZE in
  context_at (allocproc_stack m kstack) (tf - 24) = mkContext 0 0 0 0 forkret_addr ∧
  ld32 (allocproc_stack m kstack) (tf - 4) = trapret_addr.
Proof.
  intros Hf Ht tf. unfold allocproc_stack, CONTEXT_SIZE. fold tf. replace (tf - 4 - 20) with (tf - 24) by lia.
  assert (∀ m a, tf - 24 <= a → a + 4 <= tf - 4 → ld32 (memset m (tf - 24) 0 (Z.to_nat 20)) a = 0) as Hz.
  { intros m' a Ha Hb. unfold ld32. rewrite !ldb_memset. repeat case_decide; try lia. done. }
  assert (∀ m, ld32 (memset m (tf - 24) 0 (Z.to_nat 20)) (tf - 4) = ld32 m (tf - 4)) as Ho.
  { intros m'. apply ld32_ext. intros b Hb. rewrite ldb_memset. case_decide; [lia|done]. }
  split.
  - unfold context_at. rewrite (ld32_st32_same _ (tf - 24 + 16)), (u32_small forkret_addr) by done.
    rewrite !ld32_st32_ne by lia. by rewrite !Hz by lia.
  - rewrite ld32_st32_ne by lia. rewrite Ho, ld32_st32_same. by apply u32_small.
Qed.

(** C30: The first switch to a process.  On the stack [allocproc] prepared, a
    [swtch] to its context goes to [forkret] with the address of [trapret] as
    its return address; when [forkret] returns, [trapret] runs on the trap
    frame at the top of the stack and the process starts in user mode in
    exactly the state the frame describes. *)
Theorem new_process_starts t s old m0 kstack :
  is_u32 forkret_addr → is_u32 trapret_addr → 100 <= kstack + KSTACKSIZE < 4294967296 →
  let tf := kstack + KSTACKSIZE - TF_SIZE in
  swtch_call s old (tf - 24) → agree (m_mem s) (allocproc_stack m0 kstack) (tf - 24) 24 →
  let s1 := run swtch s in
  m_eip s1 = forkret_addr ∧ m_esp s1 = tf - 4 ∧
  ∀ s2, m_esp s2 = tf - 4 → cpl s2 = 0 → agree (m_mem s2) (m_mem s) (tf - 4) 4 →
    let f := tf_at (m_mem s2) tf in
    Z.land (tf_cs f) 3 = 3 → user_segments t f →
    let s3 := run [Retl] s2 in
    m_eip s3 = trapret_addr ∧ trapret t s3 = user_state f (m_mem s2).
Proof using Type.
  intros Hf Ht Hk tf Hc Ha s1. destruct (allocproc_stack_read m0 kstack Hf Ht) as [Hcx Hret]. fold tf in Hcx, Hret.
  unfold s1. rewrite (swtch_to _ _ _ Hc). mfields.
  rewrite (context_at_agree _ (allocproc_stack m0 kstack)) by (intros b Hb; apply Ha; lia). rewrite Hcx. cbn [cx_eip].
  split; [done|]. split; [lia|]. intros s2 He Hl Hag Hcs Hseg. unfold KSTACKSIZE, TF_SIZE in *.
  destruct s2 as [a c d b sp bp si di cs ss ds es fs gs ip fl m]. cbn [m_esp m_mem] in *. subst sp.
  cbn [run step]. unfold pop, top. mfields. replace (u32 (tf - 4 + 4)) with tf
    by (rewrite u32_small; [lia|unfold is_u32, tf; lia]).
  split.
  - rewrite (ld32_agree _ _ _ _ _ Hag) by lia. rewrite <- Hret. eapply ld32_agree; [exact Ha|lia|lia].
  - set (s3 := mkMachine _ _ _ _ tf _ _ _ _ _ _ _ _ _ _ _ _).
    refine (trapret_user t s3 tf eq_refl _ _ Hl Hcs Hseg); unfold tf; lia.
Qed.
End new_process.

(** ** Examples *)

(** A user program, the tables at boot, and the kernel stack of a process. *)
Definition demo_program : machine := mkMachine 1 2 3 4 12000 5 6 7 27 35 35 35 0 0 100 518 ∅.
Definition demo_vectors (n : Z) : Z := u32 (2148532224 + n).
Definition demo_gdt : list segdesc := replicate 6 (SEG16 0 0 0 0).
Definition demo_idt : list gatedesc := replicate 256 (SETGATE false 0 0 0).
Definition demo_kstack : Z := 2155872256.
Definition demo_tables : tables := kernel_tables demo_vectors 2148600000 demo_kstack demo_gdt demo_idt.

Lemma demo_traps_ready : traps_ready demo_vectors demo_kstack demo_gdt demo_idt.
Proof. split; [done|done|intros n; apply u32_range|unfold demo_kstack, KSTACKSIZE; lia]. Qed.

Lemma demo_program_ok : machine_ok demo_program.
Proof. split; repeat constructor; done. Qed.

Lemma set_esp_mem v s : m_mem (set_reg ESP v s) = m_mem s ∧ cpl (set_reg ESP v s) = cpl s ∧ m_esp (set_reg ESP v s) = v ∧
  m_ss (set_reg ESP v s) = m_ss s.
Proof. by destruct s. Qed.

(** A page fault of the program on a page it may not write, and back. *)
Lemma trap_roundtrip_witness :
  ∃ s1 s3, interrupt demo_tables false 14 (Some 6) demo_program = Some s1 ∧ alltraps_exit demo_tables s3 = set_mem (m_mem s3) demo_program.
Proof.
  destruct (trap_roundtrip demo_vectors 2148600000 demo_kstack demo_gdt demo_idt 2148549000 2148540000 2148549020
    demo_program false 14 (Some 6) demo_traps_ready) as (_ & s1 & Hi & _ & He & Hf & _ & _ & Hr).
  { split; [lia|by apply pushes_dec|done|done]. }
  { apply demo_program_ok. }
  { done. }
  { done. }
  set (s2 := run _ s1) in *. set (tf := demo_kstack + KSTACKSIZE - TF_SIZE) in *.
  destruct (set_esp_mem (tf - 4) s2) as (Em & Ec & Ee & _).
  exists s1, (set_reg ESP (tf - 4) s2). split; [done|].
  refine (proj2 (Hr (set_reg ESP (tf - 4) s2) Ee _ _ _) _); rewrite ?Em, ?Ec, ?Hf; [apply (te_level _ _ _ _ He)|done| |done].
  repeat constructor.
Defined.

(** The kernel on its stack, with interrupts on. *)
Definition demo_kernel : machine := mkMachine 1 2 3 4 2155876000 5 6 7 8 16 16 16 0 0 2148540100 518 ∅.

(** A timer interrupt of the kernel, and back. *)
Lemma trap_kernel_roundtrip_witness :
  ∃ s1 s3, interrupt demo_tables false 32 None demo_kernel = Some s1 ∧ alltraps_exit demo_tables s3 = set_mem (m_mem s3) demo_kernel.
Proof.
  destruct (trap_kernel_roundtrip demo_vectors 2148600000 demo_kstack demo_gdt demo_idt 2148549000 2148540000 2148549020
    demo_kernel 32 None demo_traps_ready) as (s1 & Hi & _ & He & Hss & _ & _ & _ & Hr).
  { split; [lia|by apply pushes_dec|done|done]. }
  { split; repeat constructor; done. }
  { done. }
  { done. }
  { cbn. lia. }
  destruct (set_esp_mem (m_esp demo_kernel - 68 - 4) (run (trap_prologue 2148549000 2148540000 2148549020 32) s1)) as (Em & Ec & Ee & Es).
  exists s1, (set_reg ESP (m_esp demo_kernel - 68 - 4) (run (trap_prologue 2148549000 2148540000 2148549020 32) s1)).
  split; [done|]. apply Hr; [done|rewrite Ec; apply (te_level _ _ _ _ He)| |by rewrite Em].
  by rewrite Es.
Defined.

(** A thread that has called [swtch(old, new)] from before the address [ret]. *)
Definition calling (m : mem) (sp ret old new : Z) : machine :=
  mkMachine 0 0 0 11 sp 12 13 14 8 16 16 16 0 0 0 2 (st32 (st32 (st32 m sp ret) (sp + 4) old) (sp + 8) new).

Lemma calling_swtch m sp ret old new : is_u32 old → is_u32 new → 16 <= sp → sp + 12 < 4294967296 → new + 20 < 4294967296 →
  apart new 20 (sp - 16) 20 → apart old 4 (sp - 16) 20 → apart new 20 old 4 → swtch_call (calling m sp ret old new) old new.
Proof.
  intros Ho Hn H0 H1 H2 H3 H4 H5. split; cbn [calling m_mem m_esp]; [| |lia|unfold is_u32 in Hn; lia|done..].
  - rewrite ld32_st32_ne, ld32_st32_same by lia. by apply u32_small.
  - rewrite ld32_st32_same. by apply u32_small.
Qed.

Lemma calling_agree m sp ret old new a n : apart a n sp 12 → agree (m_mem (calling m sp ret old new)) m a n.
Proof. intros H b Hb. cbn [calling m_mem]. unfold apart in H. by rewrite !ldb_st32_out by lia. Qed.

(** The scheduler switches to a process, which later switches back. *)
Lemma swtch_coroutine_witness :
  let s := calling ∅ 2155900000 2148540500 2148700000 2155873000 in
  ∃ s2, m_eip s2 = 2148540500 ∧ m_esp s2 = 2155900004 ∧ m_ebx s2 = 11.
Proof.
  intros s. destruct (swtch_coroutine s 2148700000 2155873000) as (_ & _ & _ & Hback).
  { split; repeat constructor; done. }
  { apply calling_swtch; unfold apart, is_u32; lia. }
  set (m1 := m_mem (run swtch s)) in *. change (m_esp s - 16) with 2155899984 in Hback.
  destruct (Hback (calling m1 2155875000 2148541000 2148700100 2155899984) 2148700100) as (E1 & E2 & _ & E3 & _).
  { apply calling_swtch; unfold apart, is_u32; lia. }
  { apply calling_agree. unfold apart. cbn. lia. }
  exists (run swtch (calling m1 2155875000 2148541000 2148700100 2155899984)). split_and!; [|exact E2|exact E3].
  etrans; [exact E1|]. cbn [s calling m_mem m_esp]. rewrite !ld32_st32_ne, ld32_st32_same by lia. done.
Defined.

(** The first switch to a process on [demo_kstack]. *)
Lemma new_process_starts_witness :
  let L := {| data_addr := 2148573184; end_addr := 2148663296; forkret_addr := 2148541008; trapret_addr := 2148549632 |} in
  m_eip (run swtch (calling (@allocproc_stack L ∅ demo_kstack) 2155900000 2148540500 2148700000 2155876252)) = 2148541008.
Proof.
  intros L. set (s := calling _ _ _ _ _).
  destruct (@new_process_starts L demo_tables s 2148700000 ∅ demo_kstack) as (E & _); [done|done|done| | |exact E].
  - apply calling_swtch; unfold apart, is_u32, demo_kstack, KSTACKSIZE, TF_SIZE; lia.
  - apply calling_agree. unfold apart, demo_kstack, KSTACKSIZE, TF_SIZE. lia.
Defined.
