(* ===== verification/Mp.v ===== *)
(** * The multiprocessor tables (src/mp.c, src/mp.h)

    At boot [mpinit] looks for the tables in which the firmware describes the
    processors and the interrupt controllers, and notes the ids it needs.  The
    memory it searches is not changed.  The places and tables lie below the end
    of the address space, so addresses in them do not wrap around.  The theorems say which table is found,
    what is taken from a well-formed one, however many entries of which kind
    it has, and what happens on an entry of unknown type: the [break] leaves
    the [switch] and not the loop, so the loop never ends. *)

From S2P Require Import Prelude Mem CString State Mmu Spinlock Kalloc Vm.

Definition MPPROC : Z := 0.
Definition MPBUS : Z := 1.
Definition MPIOAPIC : Z := 2.
Definition MPIOINTR : Z := 3.
Definition MPLINTR : Z := 4.

(** [sizeof] of [struct mp], [struct mpconf], [struct mpproc] and [struct mpioapic]. *)
Definition MP_SIZE : Z := 16.
Definition MPCONF_SIZE : Z := 44.
Definition MPPROC_SIZE : Z := 20.
Definition MPIOAPIC_SIZE : Z := 8.

Definition mp_physaddr (m : mem) (p : Z) : Z := ld32 m (p + 4).
Definition mp_imcrp (m : mem) (p : Z) : Z := ldb m (p + 12).
Definition mpconf_length (m : mem) (p : Z) : Z := u16_of_bytes [ldb m (p + 4); ldb m (p + 5)].
Definition mpconf_version (m : mem) (p : Z) : Z := ldb m (p + 6).
Definition mpconf_lapicaddr (m : mem) (p : Z) : Z := ld32 m (p + 36).

(** The globals [mpinit] sets: [lapic], the [apicid] of the entries of [cpus],
    [ncpu], [ioapicid], and the bytes written to ports. *)
Record mpstate := mkMpstate {
  mp_lapic : Z;
  mp_cpus : list Z;
  mp_ncpu : nat;
  mp_ioapicid : Z;
  mp_out : list (Z * Z)
}.

Definition set_lapic (v : Z) (s : mpstate) : mpstate := mkMpstate v (mp_cpus s) (mp_ncpu s) (mp_ioapicid s) (mp_out s).
Definition set_ioapicid (v : Z) (s : mpstate) : mpstate := mkMpstate (mp_lapic s) (mp_cpus s) (mp_ncpu s) v (mp_out s).
Definition outb (port v : Z) (s : mpstate) : mpstate :=
  mkMpstate (mp_lapic s) (mp_cpus s) (mp_ncpu s) (mp_ioapicid s) (mp_out s ++ [(port, u8 v)]).

(** [cpus[ncpu].apicid = apicid; ncpu++], if there is room. *)
Definition add_cpu (apicid : Z) (s : mpstate) : mpstate :=
  if decide (mp_ncpu s < NCPU)%nat
  then mkMpstate (mp_lapic s) (<[mp_ncpu s := apicid]> (mp_cpus s)) (S (mp_ncpu s)) (mp_ioapicid s) (mp_out s)
  else s.

(** [sum(addr, len)] *)
Fixpoint sum_from (m : mem) (addr : Z) (len : nat) (sum : Z) : Z :=
  match len with
  | O => sum
  | S n => sum_from m (addr + 1) n (sum + ldb m addr)
  end.
Definition sum (m : mem) (addr : Z) (len : Z) : Z := u8 (sum_from m addr (Z.to_nat len) 0).

(** [memcmp(p, lit, n) == 0] *)
Definition signature (m : mem) (p : Z) (lit : list Z) : bool := bool_decide (mem_bytes m p (length lit) = lit).
Definition MP_SIG : list Z := [95; 77; 80; 95].
Definition PCMP_SIG : list Z := [80; 67; 77; 80].

(** [mpsearch1(a, len)]; [n] is the number of times the loop can go round. *)
Fixpoint mpsearch1_loop (n : nat) (m : mem) (p e : Z) : Z :=
  match n with
  | O => 0
  | S n =>
      if p <? e then
        if signature m p MP_SIG && (sum m p MP_SIZE =? 0) then p else mpsearch1_loop n m (p + MP_SIZE) e
      else 0
  end.
Definition mpsearch1 (m : mem) (a len : Z) : Z :=
  let addr := P2V a in
  let e := addr + len in
  mpsearch1_loop (Z.to_nat ((len + MP_SIZE - 1) / MP_SIZE)) m addr e.

Definition mpsearch (m : mem) : Z :=
  let bda := P2V 1024 in
  let p := Z.shiftl (Z.lor (Z.shiftl (ldb m (bda + 15)) 8) (ldb m (bda + 14))) 4 in
  let mp :=
    if negb (p =? 0) then mpsearch1 m p 1024
    else
      let p := Z.lor (Z.shiftl (ldb m (bda + 20)) 8) (ldb m (bda + 19)) * 1024 in
      mpsearch1 m (u32 (p - 1024)) 1024 in
  if negb (mp =? 0) then mp else mpsearch1 m 983040 65536.

(** [mpconfig]: the configuration table and the floating pointer. *)
Definition mpconfig (m : mem) : option (Z * Z) :=
  let mp := mpsearch m in
  if (mp =? 0) || (mp_physaddr m mp =? 0) then None
  else
    let conf := P2V (mp_physaddr m mp) in
    if negb (signature m conf PCMP_SIG) then None
    else if negb (mpconf_version m conf =? 1) && negb (mpconf_version m conf =? 4) then None
    else if negb (sum m conf (mpconf_length m conf) =? 0) then None
    else Some (conf, mp).

(** The loop over the entries; the value is [ismp]. *)
Fixpoint mpinit_loop (fuel : nat) (m : mem) (p e : Z) (ismp : bool) : M mpstate bool :=
  if p <? e then
    match fuel with
    | O => λ _, Spin
    | S fuel =>
        let type := ldb m p in
        if type =? MPPROC then
          modify (add_cpu (ldb m (p + 1))) ;;;
          mpinit_loop fuel m (p + MPPROC_SIZE) e ismp
        else if type =? MPIOAPIC then
          modify (set_ioapicid (ldb m (p + 1))) ;;;
          mpinit_loop fuel m (p + MPIOAPIC_SIZE) e ismp
        else if (type =? MPBUS) || (type =? MPIOINTR) || (type =? MPLINTR) then
          mpinit_loop fuel m (p + 8) e ismp
        else (* default: break leaves the switch *)
          mpinit_loop fuel m p e false
    end
  else ret ismp.

(** [imcr] is what the port 0x23 reads as. *)
Definition mpinit (fuel : nat) (m : mem) (imcr : Z) : M mpstate unit :=
  match mpconfig m with
  | None => panic "Expect to run on an SMP"
  | Some (conf, mp) =>
      modify (set_lapic (mpconf_lapicaddr m conf)) ;;;
      ismp <- mpinit_loop fuel m (conf + MPCONF_SIZE) (conf + mpconf_length m conf) true ;;
      if negb ismp then panic "Didn't find a suitable machine"
      else
        when (negb (mp_imcrp m mp =? 0))
          (modify (outb 34 112) ;;; modify (outb 35 (Z.lor imcr 1)))
  end.

(** ** Where the floating pointer is looked for *)

Definition ebda (m : mem) : Z := 16 * (256 * ldb m (P2V 1039) + ldb m (P2V 1038)).
Definition base_memory (m : mem) : Z := 1024 * (256 * ldb m (P2V 1044) + ldb m (P2V 1043)).

(** The addresses [a], [a + 16], ... of [n] structures. *)
Definition every16 (a : Z) (n : nat) : list Z := (λ i : nat, P2V a + 16 * Z.of_nat i) <$> seq 0 n.

(** The first KB of the extended BIOS data area if there is one, else the last
    KB of base memory; then the last 64 KB below 1 MB. *)
Definition places (m : mem) : list Z :=
  every16 (if decide (ebda m = 0) then u32 (base_memory m - 1024) else ebda m) 64 ++ every16 983040 4096.

Definition total (l : list Z) : Z := foldr Z.add 0 l.

(** A floating pointer structure: its signature and the sum of its bytes. *)
Definition floating (m : mem) (p : Z) : bool :=
  bool_decide (mem_bytes m p 4 = MP_SIG) && (u8 (total (mem_bytes m p 16)) =? 0).

Lemma sum_from_eq m len : ∀ addr n, sum_from m addr len n = n + total (mem_bytes m addr len).
Proof.
  induction len as [|len IH]; intros addr n; cbn [sum_from]; [unfold mem_bytes; cbn; lia|].
  rewrite IH, mem_bytes_S. unfold total. cbn [foldr]. lia.
Qed.

Lemma sum_eq m addr len : sum m addr len = u8 (total (mem_bytes m addr (Z.to_nat len))).
Proof. unfold sum. by rewrite sum_from_eq. Qed.

Lemma mpsearch1_loop_eq m (n : nat) : ∀ p, p > 0 →
  mpsearch1_loop n m p (p + 16 * Z.of_nat n) =
  default 0 (find (floating m) ((λ i : nat, p + 16 * Z.of_nat i) <$> seq 0 n)).
Proof.
  induction n as [|n IH]; intros p Hp; [done|]. cbn [mpsearch1_loop].
  rewrite (proj2 (Z.ltb_lt _ _)) by lia. rewrite <- cons_seq, fmap_cons. cbn [find].
  replace (p + 16 * Z.of_nat 0) with p by lia. unfold floating at 1, signature.
  rewrite sum_eq. change (length MP_SIG) with 4%nat. change (Z.to_nat MP_SIZE) with 16%nat.
  destruct (bool_decide _ && _); [done|].
  replace (p + 16 * Z.of_nat (S n)) with (p + MP_SIZE + 16 * Z.of_nat n) by (unfold MP_SIZE; lia).
  rewrite IH by (unfold MP_SIZE; lia). rewrite <- fmap_S_seq, <- list_fmap_compose. do 2 f_equal.
  apply list_fmap_ext. intros i x _. cbn. unfold MP_SIZE. lia.
Qed.

Lemma mpsearch1_eq m a (n : nat) : P2V a > 0 → mpsearch1 m a (16 * Z.of_nat n) = default 0 (find (floating m) (every16 a n)).
Proof.
  intros Ha. unfold mpsearch1. replace (Z.to_nat _) with n by (unfold MP_SIZE; divmod). by apply mpsearch1_loop_eq.
Qed.

(** The word of two bytes of the BIOS data area. *)
Lemma lor_bytes a b : is_byte a → is_byte b → Z.lor (Z.shiftl a 8) b = 256 * a + b.
Proof. intros _ Hb. rewrite Z.shiftl_mul_pow2, lor_low by (unfold is_byte in *; lia). lia. Qed.

Lemma find_app {A} (f : A → bool) l1 l2 : find f (l1 ++ l2) = match find f l1 with Some x => Some x | None => find f l2 end.
Proof. induction l1 as [|x l1 IH]; cbn; [done|]. by destruct (f x). Qed.

Lemma find_every16 m a n p : P2V a > 0 → find (floating m) (every16 a n) = Some p → p ≠ 0.
Proof.
  intros Ha [Hin _]%find_some. apply list_elem_of_In, list_elem_of_fmap in Hin as (i & -> & _). lia.
Qed.

(** [mpsearch] returns the first floating pointer structure. *)
Lemma mpsearch_eq m : mpsearch m = default 0 (find (floating m) (places m)).
Proof.
  pose proof (ldb_byte m (P2V 1039)). pose proof (ldb_byte m (P2V 1038)).
  pose proof (ldb_byte m (P2V 1044)) as Hb1. pose proof (ldb_byte m (P2V 1043)) as Hb2.
  unfold mpsearch. cbv zeta. change (P2V 1024 + 15) with (P2V 1039). change (P2V 1024 + 14) with (P2V 1038).
  change (P2V 1024 + 20) with (P2V 1044). change (P2V 1024 + 19) with (P2V 1043).
  rewrite !lor_bytes, Z.shiftl_mul_pow2 by (done || lia). change (2 ^ 4) with 16.
  replace ((256 * ldb m (P2V 1039) + ldb m (P2V 1038)) * 16) with (ebda m) by (unfold ebda; lia).
  replace ((256 * ldb m (P2V 1044) + ldb m (P2V 1043)) * 1024) with (base_memory m) by (unfold base_memory; lia).
  set (a := if decide (ebda m = 0) then u32 (base_memory m - 1024) else ebda m).
  assert (P2V a > 0) as Ha.
  { unfold a, P2V, KERNBASE. unfold is_byte in *. case_decide.
    - unfold base_memory in *. divmod.
    - rewrite u32_small; unfold is_u32, ebda in *; lia. }
  assert ((if negb (ebda m =? 0) then mpsearch1 m (ebda m) 1024 else mpsearch1 m (u32 (base_memory m - 1024)) 1024) =
    default 0 (find (floating m) (every16 a 64))) as ->.
  { rewrite <- (mpsearch1_eq m a 64 Ha). unfold a. destruct (Z.eqb_spec (ebda m) 0); case_decide; done. }
  rewrite (mpsearch1_eq m 983040 4096 : _ → mpsearch1 m 983040 65536 = _) by done.
  unfold places. fold a. rewrite find_app. destruct (find _ (every16 a 64)) as [p|] eqn:E; [|done]. cbn [default].
  apply find_every16 in E; [|done]. by rewrite (proj2 (Z.eqb_neq (id p) 0)).
Qed.

(** ** The configuration table *)

(** The entries of the table: a processor, an I/O APIC, or one of the others. *)
Inductive mp_entry :=
| EProc (apicid : Z) (rest : list Z)
| EIoapic (apicno : Z) (rest : list Z)
| EOther (type : Z) (rest : list Z).

Definition entry_bytes (x : mp_entry) : list Z :=
  match x with
  | EProc id rest => MPPROC :: id :: rest
  | EIoapic id rest => MPIOAPIC :: id :: rest
  | EOther type rest => type :: rest
  end.

Definition entry_ok (x : mp_entry) : Prop :=
  match x with
  | EProc _ rest => length rest = 18%nat
  | EIoapic _ rest => length rest = 6%nat
  | EOther type rest => type ∈ [MPBUS; MPIOINTR; MPLINTR] ∧ length rest = 7%nat
  end.

(** What one entry does to the state. *)
Definition note (s : mpstate) (x : mp_entry) : mpstate :=
  match x with
  | EProc id _ => add_cpu id s
  | EIoapic id _ => set_ioapicid id s
  | EOther _ _ => s
  end.

Definition apicids (es : list mp_entry) : list Z := omap (λ x, match x with EProc id _ => Some id | _ => None end) es.
Definition ioapicids (es : list mp_entry) : list Z := omap (λ x, match x with EIoapic id _ => Some id | _ => None end) es.

(** The bytes [bs] lie at [p]. *)
Definition bytes_at (m : mem) (p : Z) (bs : list Z) : Prop := mem_bytes m p (length bs) = bs.

Lemma bytes_at_cons m p b bs : bytes_at m p (b :: bs) ↔ ldb m p = b ∧ bytes_at m (p + 1) bs.
Proof. unfold bytes_at. cbn [length]. rewrite mem_bytes_S. split; [by intros [= -> ->]|by intros [-> ->]]. Qed.

Lemma bytes_at_app m bs1 bs2 : ∀ p, bytes_at m p (bs1 ++ bs2) ↔ bytes_at m p bs1 ∧ bytes_at m (p + Z.of_nat (length bs1)) bs2.
Proof.
  induction bs1 as [|b bs1 IH]; intros p; cbn [app length].
  - replace (p + Z.of_nat 0) with p by lia. split; [by split|by intros [_ ?]].
  - rewrite !bytes_at_cons, IH. replace (p + 1 + Z.of_nat (length bs1)) with (p + Z.of_nat (S (length bs1))) by lia. tauto.
Qed.

(** One turn of the loop. *)
Lemma mpinit_loop_entry fuel m p e ismp s x : entry_ok x → bytes_at m p (entry_bytes x) → p < e →
  mpinit_loop (S fuel) m p e ismp s = mpinit_loop fuel m (p + Z.of_nat (length (entry_bytes x))) e ismp (note s x).
Proof.
  intros Hx Hb Hp. cbn [mpinit_loop]. rewrite (proj2 (Z.ltb_lt _ _) Hp).
  destruct x as [id rest|id rest|type rest]; cbn [entry_bytes entry_ok note length] in *.
  - rewrite !bytes_at_cons in Hb. destruct Hb as (-> & -> & _). cbn [Z.eqb MPPROC]. mrun. by rewrite Hx.
  - rewrite !bytes_at_cons in Hb. destruct Hb as (-> & -> & _). cbn [Z.eqb MPPROC MPIOAPIC]. mrun. by rewrite Hx.
  - rewrite !bytes_at_cons in Hb. destruct Hb as (-> & _), Hx as [Ht Hx]. rewrite Hx.
    rewrite !elem_of_cons in Ht. destruct Ht as [-> |[-> |[-> |Ht]]]; [done..|by apply elem_of_nil in Ht].
Qed.

Lemma mpinit_loop_entries m es : ∀ fuel p e ismp s, Forall entry_ok es → bytes_at m p (es ≫= entry_bytes) →
  p + Z.of_nat (length (es ≫= entry_bytes)) <= e → (length es ≤ fuel)%nat →
  mpinit_loop fuel m p e ismp s =
    mpinit_loop (fuel - length es) m (p + Z.of_nat (length (es ≫= entry_bytes))) e ismp (foldl note s es).
Proof.
  induction es as [|x es IH]; intros fuel p e ismp s Hes Hb He Hf; cbn [length mbind list_bind foldl].
  - rewrite Nat.sub_0_r. by replace (p + Z.of_nat 0) with p by lia.
  - apply Forall_cons in Hes as [Hx Hes]. rewrite bind_cons in Hb, He. apply bytes_at_app in Hb as [Hbx Hb].
    rewrite length_app in He. cbn [length] in Hf. destruct fuel as [|fuel]; [lia|].
    assert (0 < Z.of_nat (length (entry_bytes x))) by (destruct x; cbn; lia).
    rewrite (mpinit_loop_entry _ _ _ _ _ _ x) by (done || lia). rewrite IH by (done || lia).
    rewrite length_app. f_equal. lia.
Qed.

(** A loop that cannot end after the entries cannot end. *)
Lemma mpinit_loop_spin m es : ∀ fuel p e ismp s, Forall entry_ok es → bytes_at m p (es ≫= entry_bytes) →
  let p' := p + Z.of_nat (length (es ≫= entry_bytes)) in
  p' < e → (∀ fuel ismp s, mpinit_loop fuel m p' e ismp s = Spin) → mpinit_loop fuel m p e ismp s = Spin.
Proof.
  induction es as [|x es IH]; intros fuel p e ismp s Hes Hb p' He Hspin.
  - rewrite <- (Hspin fuel ismp s). unfold p'. cbn. by rewrite Z.add_0_r.
  - apply Forall_cons in Hes as [Hx Hes]. unfold p' in *. rewrite bind_cons in Hb, He, Hspin. apply bytes_at_app in Hb as [Hbx Hb].
    rewrite length_app in He, Hspin. destruct fuel as [|fuel].
    + cbn [mpinit_loop]. by rewrite (proj2 (Z.ltb_lt _ _)) by lia.
    + rewrite (mpinit_loop_entry _ _ _ _ _ _ x) by (done || lia). rewrite Nat2Z.inj_add, Z.add_assoc in *. by apply IH.
Qed.

(** The state after the entries. *)
Lemma foldl_note es : ∀ s, length (mp_cpus s) = NCPU → (mp_ncpu s ≤ NCPU)%nat →
  let ids := take (NCPU - mp_ncpu s) (apicids es) in
  foldl note s es = mkMpstate (mp_lapic s) (take (mp_ncpu s) (mp_cpus s) ++ ids ++ drop (mp_ncpu s + length ids) (mp_cpus s))
    (mp_ncpu s + length ids) (default (mp_ioapicid s) (last (ioapicids es))) (mp_out s).
Proof.
  induction es as [|x es IH]; intros s Hl Hn ids.
  - cbn [foldl]. unfold ids. destruct s as [la cpus n io out]. cbn [mp_lapic mp_cpus mp_ncpu mp_ioapicid mp_out].
    change (apicids []) with (@nil Z). rewrite take_nil. cbn [app length]. by rewrite Nat.add_0_r, take_drop.
  - cbn [foldl]. destruct x as [id rest|id rest|type rest]; cbn [note].
    + unfold add_cpu. case_decide as Hlt.
      * rewrite IH by (cbn; rewrite ?length_insert; lia || done). cbn [mp_lapic mp_cpus mp_ncpu mp_ioapicid mp_out].
        unfold ids. change (apicids (EProc id rest :: es)) with (id :: apicids es).
        replace (NCPU - mp_ncpu s)%nat with (S (NCPU - S (mp_ncpu s))) by lia. cbn [take length].
        set (k := take _ (apicids es)). rewrite (take_S_r _ _ id) by (apply list_lookup_insert_eq; lia).
        rewrite take_insert_ge, drop_insert_lt, <- app_assoc by lia. cbn [app].
        by replace (mp_ncpu s + S (length k))%nat with (S (mp_ncpu s) + length k)%nat by lia.
      * rewrite IH by done. unfold ids. replace (NCPU - mp_ncpu s)%nat with 0%nat by lia. done.
    + rewrite IH by done. cbn [set_ioapicid mp_lapic mp_cpus mp_ncpu mp_ioapicid mp_out].
      unfold ids. change (apicids (EIoapic id rest :: es)) with (apicids es).
      change (ioapicids (EIoapic id rest :: es)) with (id :: ioapicids es). rewrite last_cons. by destruct (last (ioapicids es)).
    + by rewrite IH.
Qed.

(** ** [mpinit] *)

(** The tables of a machine: the floating pointer at [mp], the configuration
    table at [conf] with the entries [es]. *)
Record mp_tables (m : mem) (mp conf : Z) (es : list mp_entry) : Prop := {
  mt_found : find (floating m) (places m) = Some mp;
  mt_phys : mp_physaddr m mp ≠ 0;
  mt_conf : conf = P2V (mp_physaddr m mp);
  mt_sig : bytes_at m conf PCMP_SIG;
  mt_version : mpconf_version m conf = 1 ∨ mpconf_version m conf = 4;
  mt_sum : u8 (total (mem_bytes m conf (Z.to_nat (mpconf_length m conf)))) = 0;
  mt_ok : Forall entry_ok es;
  mt_entries : bytes_at m (conf + MPCONF_SIZE) (es ≫= entry_bytes)
}.

Lemma places_pos m p : find (floating m) (places m) = Some p → p ≠ 0.
Proof.
  unfold places. rewrite find_app. intros E. destruct (find _ (every16 _ 64)) as [q|] eqn:Eq.
  - injection E as <-. apply find_every16 in Eq; [done|].
    pose proof (ldb_byte m (P2V 1039)). pose proof (ldb_byte m (P2V 1038)).
    pose proof (ldb_byte m (P2V 1044)). pose proof (ldb_byte m (P2V 1043)). unfold is_byte in *.
    unfold P2V at 1, KERNBASE. case_decide; [unfold base_memory in *; divmod|].
    rewrite u32_small; unfold is_u32, ebda in *; lia.
  - apply find_every16 in E; [done|]. done.
Qed.

Lemma mpconfig_found m mp conf es : mp_tables m mp conf es → mpconfig m = Some (conf, mp).
Proof.
  intros [Hf Hp -> Hs Hv Hsum _ _]. unfold mpconfig. rewrite mpsearch_eq, Hf. cbn [default]. unfold id.
  rewrite (proj2 (Z.eqb_neq _ _) (places_pos _ _ Hf)), (proj2 (Z.eqb_neq _ _) Hp). cbn [orb].
  unfold signature. rewrite bool_decide_true by exact Hs. cbn [negb].
  rewrite sum_eq, Hsum. destruct Hv as [-> | ->]; done.
Qed.

(** C27: [mpinit] on the tables of a machine.  It uses the first floating
    pointer structure in the order of the specification, and from the
    configuration table it points to it takes the address of the local APIC,
    the ids of the first [NCPU] processors in their order, and the id of the
    last I/O APIC, whatever other entries there are; it ends after one turn of
    the loop per entry, and switches the interrupt mode if the floating
    pointer says so. *)
Theorem mpinit_correct m mp conf es imcr s fuel :
  mp_tables m mp conf es → mpconf_length m conf = MPCONF_SIZE + Z.of_nat (length (es ≫= entry_bytes)) →
  mp_ncpu s = O → length (mp_cpus s) = NCPU → (length es ≤ fuel)%nat →
  let ids := take NCPU (apicids es) in
  mpinit fuel m imcr s = Ret tt (mkMpstate (mpconf_lapicaddr m conf) (ids ++ drop (length ids) (mp_cpus s)) (length ids)
    (default (mp_ioapicid s) (last (ioapicids es)))
    (mp_out s ++ if decide (mp_imcrp m mp = 0) then [] else [(34, 112); (35, u8 (Z.lor imcr 1))])).
Proof.
  intros Ht Hlen Hn Hl Hf ids. unfold mpinit. rewrite (mpconfig_found _ _ _ _ Ht). mrun.
  set (s1 := set_lapic _ s). assert (mpinit_loop fuel m (conf + MPCONF_SIZE) (conf + mpconf_length m conf) true s1 =
    Ret true (foldl note s1 es)) as R.
  { rewrite (mpinit_loop_entries m es) by (first [apply Ht | lia]).
    destruct (fuel - length es)%nat; cbn [mpinit_loop]; by rewrite (proj2 (Z.ltb_ge _ _)) by lia. }
  mcall R. rewrite (foldl_note es s1 Hl) by (cbn; lia). unfold s1. cbn [set_lapic mp_lapic mp_cpus mp_ncpu mp_ioapicid mp_out].
  rewrite Hn. cbn [take app]. rewrite Nat.sub_0_r. fold ids. cbn [negb].
  destruct (Z.eqb_spec (mp_imcrp m mp) 0); case_decide; try done; cbn [negb when].
  - unfold ret. by rewrite app_nil_r.
  - mrun. unfold modify, outb. cbn [mp_lapic mp_cpus mp_ncpu mp_ioapicid mp_out]. by rewrite <- app_assoc.
Qed.

(** C40: An entry of unknown type stops the boot without a word: the [break]
    under [default] leaves the [switch], the loop goes on with the same entry,
    and neither the end of the loop nor the panic after it is ever reached. *)
Theorem mpinit_unknown_entry m mp conf es imcr s :
  mp_tables m mp conf es →
  let p := conf + MPCONF_SIZE + Z.of_nat (length (es ≫= entry_bytes)) in
  p < conf + mpconf_length m conf → MPLINTR < ldb m p → ∀ fuel, mpinit fuel m imcr s = Spin.
Proof.
  intros Ht p Hp Hty fuel. unfold mpinit. rewrite (mpconfig_found _ _ _ _ Ht). mrun.
  set (s1 := set_lapic _ s). set (e := conf + mpconf_length m conf) in *.
  assert (∀ fuel ismp s, mpinit_loop fuel m p e ismp s = Spin) as Hloop.
  { clear fuel. induction fuel as [|fuel IH]; intros ismp s'; cbn [mpinit_loop]; rewrite (proj2 (Z.ltb_lt _ _) Hp); [done|].
    unfold MPLINTR in Hty. unfold MPPROC, MPIOAPIC, MPBUS, MPIOINTR, MPLINTR.
    rewrite !(proj2 (Z.eqb_neq (ldb m p) _)) by lia. apply IH. }
  assert (mpinit_loop fuel m (conf + MPCONF_SIZE) e true s1 = Spin) as R; [|unfold bind; by rewrite R].
  apply (mpinit_loop_spin m es); [apply Ht|apply Ht|lia|apply Hloop].
Qed.

(** ** Examples *)

(** A machine with one processor, one I/O APIC and one more entry of the given
    type; the floating pointer is at the start of the extended BIOS data area. *)
Definition demo_entries : list mp_entry := [EProc 5 (replicate 18 0); EIoapic 7 (replicate 6 0)].
Definition demo_mp (type checksum : Z) : mem :=
  let m := store_bytes ∅ (P2V 1038) [0; 16] in
  let m := store_bytes m (P2V 65536) (MP_SIG ++ [0; 0; 2; 0; 1; 4; 30; 0; 128; 0; 0; 0]) in
  store_bytes m (P2V 131072) (PCMP_SIG ++ [80; 0; 4; checksum] ++ replicate 26 0 ++ [3; 0; 0; 0; 224; 254; 0; 0; 0; 0] ++
    (demo_entries ≫= entry_bytes) ++ type :: replicate 7 0).

Lemma demo_mp_tables m es : Forall entry_ok es → find (floating m) (places m) = Some (P2V 65536) →
  mp_physaddr m (P2V 65536) = 131072 → mpconf_version m (P2V 131072) = 4 →
  u8 (total (mem_bytes m (P2V 131072) (Z.to_nat (mpconf_length m (P2V 131072))))) = 0 →
  bytes_at m (P2V 131072) PCMP_SIG → bytes_at m (P2V 131072 + MPCONF_SIZE) (es ≫= entry_bytes) →
  mp_tables m (P2V 65536) (P2V 131072) es.
Proof. intros Hes Hf Ep Hv Hs Hsig He. split; [done|by rewrite Ep|by rewrite Ep|done|by right|done|done|done]. Qed.

Lemma mpinit_correct_witness :
  mpinit 3 (demo_mp MPBUS 140) 0 (mkMpstate 0 (replicate 8 0) 0 0 []) =
    Ret tt (mkMpstate 4276092928 [5; 0; 0; 0; 0; 0; 0; 0] 1 7 [(34, 112); (35, 1)]).
Proof.
  refine (mpinit_correct (demo_mp MPBUS 140) (P2V 65536) (P2V 131072) (demo_entries ++ [EOther MPBUS (replicate 7 0)]) 0
    (mkMpstate 0 (replicate 8 0) 0 0 []) 3 _ _ eq_refl eq_refl _); [|vm_compute; reflexivity|cbn; lia].
  apply demo_mp_tables; [|vm_compute; reflexivity..]. repeat constructor.
Defined.

Lemma mpinit_unknown_entry_witness : mpinit 1000 (demo_mp 9 132) 0 (mkMpstate 0 (replicate 8 0) 0 0 []) = Spin.
Proof.
  apply (mpinit_unknown_entry (demo_mp 9 132) (P2V 65536) (P2V 131072) demo_entries 0); [|vm_compute; reflexivity..].
  apply demo_mp_tables; [|vm_compute; reflexivity..]. repeat constructor.
Defined.
