(* ===== verification/Bootmain.v ===== *)
(** * The boot loader (src/bootmain.c)

    [bootmain] reads the ELF image of the kernel from the disk, sector by
    sector, into physical memory.  The disk is a function from sector numbers
    to sectors; [waitdisk] waits for the controller and has no other effect.
    A segment need not start on a sector boundary, neither in the file nor in
    memory, so [readseg] writes more than it is asked to, before and after the
    segment; the theorem states what that requires of the order of the
    segments and that then every segment is in memory as the file has it,
    followed by zeros up to its size in memory. *)

From S2P Require Import Prelude Mem CString State Mmu Spinlock Kalloc Vm VmSpec Uvm Copyout Exec.

Definition SECTSIZE : Z := 512.

(** Where the headers are read to. *)
Definition elf_scratch : Z := 65536.

Section boot.
Context (disk : Z → list Z).

(** The sector the controller reads, from the bytes in its registers 0x1F3 to 0x1F6. *)
Definition lba (r3 r4 r5 r6 : Z) : Z := r3 + 256 * r4 + 65536 * r5 + 16777216 * Z.land r6 15.

Definition readsect (m : mem) (dst offset : Z) : mem :=
  store_bytes m dst (disk (lba (u8 offset) (u8 (Z.shiftr offset 8)) (u8 (Z.shiftr offset 16))
    (u8 (Z.lor (Z.shiftr offset 24) 224)))).

(** [readseg(pa, count, offset)], with 32-bit addresses; [n] is the number of
    turns of its loop, as long as [pa] does not pass the end of the addresses. *)
Fixpoint readseg_loop (n : nat) (m : mem) (pa epa offset : Z) : mem :=
  match n with
  | O => m
  | S n => if pa <? epa then readseg_loop n (readsect m pa offset) (u32 (pa + SECTSIZE)) epa (u32 (offset + 1)) else m
  end.
Definition readseg (m : mem) (pa count offset : Z) : mem :=
  let epa := u32 (pa + count) in
  let pa := u32 (pa - offset mod SECTSIZE) in
  let offset := offset / SECTSIZE + 1 in
  readseg_loop (Z.to_nat ((epa - pa + SECTSIZE - 1) / SECTSIZE)) m pa epa offset.

(** The loop over the program headers, [n] of them from address [ph] on. *)
Fixpoint bootmain_loop (n : nat) (m : mem) (ph : Z) : mem :=
  match n with
  | O => m
  | S n =>
      let pa := ld32 m (ph + 12) in
      let filesz := ld32 m (ph + 16) in
      let memsz := ld32 m (ph + 20) in
      let m := readseg m pa filesz (ld32 m (ph + 4)) in
      let m := if memsz >? filesz then stosb m (u32 (pa + filesz)) 0 (Z.to_nat (memsz - filesz)) else m in
      bootmain_loop n m (u32 (ph + 32))
  end.

(** [bootmain]: the entry point it calls and the memory then, or [None] when it
    returns because the image is not an ELF file. *)
Definition bootmain (m : mem) : option (Z * mem) :=
  let m := readseg m elf_scratch 4096 0 in
  if negb (ld32 m elf_scratch =? ELF_MAGIC) then None
  else
    let phoff := ld32 m (elf_scratch + 28) in
    let phnum := u16_of_bytes [ldb m (elf_scratch + 44); ldb m (elf_scratch + 45)] in
    let m := bootmain_loop (Z.to_nat phnum) m (u32 (elf_scratch + phoff)) in
    Some (ld32 m (elf_scratch + 24), m).

(** ** The image *)

(** The byte of the kernel's file at each offset; the file starts at sector 1. *)
Context (file : Z → Z).
Context (Hdisk : ∀ k, 0 <= k < 268435455 → length (disk (k + 1)) = 512%nat ∧
  ∀ i : nat, (i < 512)%nat → disk (k + 1) !!! i = file (512 * k + i)).
Context (Hbyte : ∀ o, is_byte (file o)).

Lemma lba_sector k : 0 <= k < 268435456 →
  lba (u8 k) (u8 (Z.shiftr k 8)) (u8 (Z.shiftr k 16)) (u8 (Z.lor (Z.shiftr k 24) 224)) = k.
Proof using Type.
  intros Hk. unfold lba. rewrite !Z.shiftr_div_pow2 by lia. rewrite Z.lor_comm.
  change (2 ^ 8) with 256. change (2 ^ 16) with 65536. change (2 ^ 24) with 16777216.
  assert (0 <= k / 16777216 < 2 ^ 4) as Hh by divmod.
  change 224 with (14 * 2 ^ 4). rewrite lor_low by lia. change (2 ^ 4) with 16 in *.
  change 15 with (Z.ones 4). rewrite Z.land_ones by lia. change (2 ^ 4) with 16. divmod.
Qed.

Lemma ldb_readsect m dst k b : 0 <= k < 268435455 →
  ldb (readsect m dst (k + 1)) b = if decide (dst <= b < dst + 512) then file (512 * k + (b - dst)) else ldb m b.
Proof using Hdisk Hbyte.
  intros Hk. destruct (Hdisk k Hk) as [Hl Hf]. unfold readsect. rewrite lba_sector by lia. rewrite ldb_store_bytes.
  - rewrite Hl. change (Z.of_nat 512) with 512. case_decide; [|done]. rewrite Hf by lia. f_equal. lia.
  - apply Forall_lookup. intros i x Hi. pose proof (lookup_lt_Some _ _ _ Hi) as Hlt.
    rewrite <- (list_lookup_total_correct _ _ _ Hi), Hf by lia. apply Hbyte.
Qed.

Lemma ldb_readseg_loop n : ∀ m pa epa k b, 0 <= k → k + Z.of_nat n < 268435456 → pa + 512 * (Z.of_nat n - 1) < epa →
  0 <= pa → pa + 512 * Z.of_nat n < 4294967296 →
  ldb (readseg_loop n m pa epa (k + 1)) b =
    if decide (pa <= b < pa + 512 * Z.of_nat n) then file (512 * k + (b - pa)) else ldb m b.
Proof using Hdisk Hbyte.
  induction n as [|n IH]; intros m pa epa k b Hk Hn He Hp Hw; cbn [readseg_loop].
  - case_decide; [lia|done].
  - rewrite (proj2 (Z.ltb_lt _ _)) by lia. unfold SECTSIZE. rewrite !u32_small by (unfold is_u32; lia).
    rewrite IH by lia. rewrite ldb_readsect by lia.
    repeat case_decide; try lia; f_equal; lia.
Qed.

(** The first byte [readseg] writes, and how many. *)
Definition seg_start (pa offset : Z) : Z := pa - offset mod 512.
Definition seg_span (count offset : Z) : Z := 512 * ((offset mod 512 + count + 511) / 512).

(** [readseg] fills whole sectors with the bytes of the file. *)
Lemma ldb_readseg m pa count offset b : 0 <= count → 0 <= offset → offset + count < 137438952000 →
  let start := seg_start pa offset in
  0 <= start → start + seg_span count offset < 4294967296 →
  ldb (readseg m pa count offset) b =
    if decide (start <= b < start + seg_span count offset) then file (offset + (b - pa)) else ldb m b.
Proof using Hdisk Hbyte.
  intros Hc Ho Hmax start Hs He. unfold readseg, SECTSIZE. cbv zeta.
  rewrite (u32_small (pa + count)), (u32_small (pa - offset mod 512)) by (unfold start, seg_start, seg_span, is_u32 in *; divmod).
  set (n := Z.to_nat _). assert (512 * Z.of_nat n = seg_span count offset) as En.
  { unfold n, seg_span. rewrite Z2Nat.id by divmod. f_equal. f_equal. lia. }
  fold (seg_start pa offset). fold start. rewrite ldb_readseg_loop.
  - rewrite En. case_decide; [|done]. f_equal. unfold start, seg_start. divmod.
  - divmod.
  - unfold seg_span in En. divmod.
  - unfold seg_span, start, seg_start in *. divmod.
  - done.
  - by rewrite En.
Qed.

(** Words of the file, and the program header at offset [o] of it. *)
Definition fword (o : Z) : Z := u32_of_bytes [file o; file (o + 1); file (o + 2); file (o + 3)].
Definition fhalf (o : Z) : Z := u16_of_bytes [file o; file (o + 1)].

Record segment := mkSegment { sg_off : Z; sg_paddr : Z; sg_filesz : Z; sg_memsz : Z }.
Definition segment_at (o : Z) : segment := mkSegment (fword (o + 4)) (fword (o + 12)) (fword (o + 16)) (fword (o + 20)).
Definition nth_segment (i : nat) : segment := segment_at (fword 28 + 32 * Z.of_nat i).

(** The bytes of memory that belong to a segment, and those that are written
    when it is loaded. *)
Definition in_image (g : segment) (b : Z) : Prop := sg_paddr g <= b < sg_paddr g + Z.max (sg_filesz g) (sg_memsz g).
Definition touched (g : segment) (b : Z) : Prop :=
  (seg_start (sg_paddr g) (sg_off g) <= b < seg_start (sg_paddr g) (sg_off g) + seg_span (sg_filesz g) (sg_off g)) ∨
  (sg_paddr g + sg_filesz g <= b < sg_paddr g + sg_memsz g).

(** The segment is in memory. *)
Definition loaded (m : mem) (g : segment) : Prop :=
  (∀ i, 0 <= i < sg_filesz g → ldb m (sg_paddr g + i) = file (sg_off g + i)) ∧
  (∀ i, sg_filesz g <= i < sg_memsz g → ldb m (sg_paddr g + i) = 0).

(** The headers are in the scratch page. *)
Definition headers (m : mem) : Prop := ∀ i, 0 <= i < 4096 → ldb m (elf_scratch + i) = file i.

Lemma ld32_headers m o : headers m → 0 <= o → o + 4 <= 4096 → ld32 m (elf_scratch + o) = fword o.
Proof using Type.
  intros H H0 H1. unfold ld32, fword. rewrite <- !Z.add_assoc. by rewrite !H by lia.
Qed.

Lemma fword_range o : 0 <= fword o < 4294967296.
Proof using Hbyte.
  pose proof (Hbyte o). pose proof (Hbyte (o + 1)). pose proof (Hbyte (o + 2)). pose proof (Hbyte (o + 3)).
  unfold fword, u32_of_bytes, is_byte in *. lia.
Qed.

(** The segment, with the rest of its sectors, is within the addresses. *)
Definition fits (g : segment) : Prop :=
  0 <= seg_start (sg_paddr g) (sg_off g) ∧
  seg_start (sg_paddr g) (sg_off g) + seg_span (sg_filesz g) (sg_off g) < 4294967296 ∧
  sg_paddr g + sg_memsz g <= 4294967296.

(** Loading one segment. *)
Definition load_segment (m : mem) (g : segment) : mem :=
  let m := readseg m (sg_paddr g) (sg_filesz g) (sg_off g) in
  if sg_memsz g >? sg_filesz g
  then stosb m (u32 (sg_paddr g + sg_filesz g)) 0 (Z.to_nat (sg_memsz g - sg_filesz g)) else m.

Lemma load_segment_spec m g : 0 <= sg_off g < 4294967296 → 0 <= sg_filesz g < 4294967296 → fits g →
  loaded (load_segment m g) g ∧ ∀ b, ¬ touched g b → ldb (load_segment m g) b = ldb m b.
Proof using Hdisk Hbyte.
  intros Ho Hf (Hs & He & Hm). set (m1 := readseg m (sg_paddr g) (sg_filesz g) (sg_off g)).
  assert (∀ b, ldb (load_segment m g) b =
    if decide (sg_paddr g + sg_filesz g <= b < sg_paddr g + sg_memsz g) then 0 else ldb m1 b) as Hl.
  { intros b. unfold load_segment. fold m1. rewrite Z.gtb_ltb. destruct (Z.ltb_spec (sg_filesz g) (sg_memsz g)).
    - rewrite u32_small by (unfold is_u32, seg_start in *; divmod). rewrite ldb_stosb. rewrite Z2Nat.id by lia. repeat case_decide; done || lia.
    - case_decide; [lia|done]. }
  assert (∀ b, ldb m1 b = _) as H1 by (intros b; apply ldb_readseg; lia). cbv zeta in H1.
  split; [split|].
  - intros i Hi. rewrite Hl, decide_False, H1 by lia. rewrite decide_True; [f_equal; lia|].
    unfold seg_start, seg_span. divmod.
  - intros i Hi. by rewrite Hl, decide_True by lia.
  - intros b Hb. unfold touched in Hb. rewrite Hl, decide_False by tauto. by rewrite H1, decide_False by tauto.
Qed.

(** The loop loads the segments from the [i]-th on, and keeps what they do not touch. *)
Lemma bootmain_loop_spec n : ∀ m i, headers m → 0 <= fword 28 → fword 28 + 32 * Z.of_nat (i + n) <= 4096 →
  (∀ j b, (i ≤ j < i + n)%nat → touched (nth_segment j) b → ¬ (elf_scratch <= b < elf_scratch + 4096)) →
  (∀ j k b, (i ≤ j < k)%nat → (k < i + n)%nat → in_image (nth_segment j) b → ¬ touched (nth_segment k) b) →
  (∀ j, (i ≤ j < i + n)%nat → fits (nth_segment j)) →
  let m' := bootmain_loop n m (elf_scratch + fword 28 + 32 * Z.of_nat i) in
  headers m' ∧ (∀ b, (∀ j, (i ≤ j < i + n)%nat → ¬ touched (nth_segment j) b) → ldb m' b = ldb m b) ∧
  ∀ j, (i ≤ j < i + n)%nat → loaded m' (nth_segment j).
Proof using Hdisk Hbyte.
  induction n as [|n IH]; intros m i Hh H0 Hmax Hapart Hord Hfit m'.
  { split_and!; [done|done|lia]. }
  assert (m' = bootmain_loop n (load_segment m (nth_segment i)) (elf_scratch + fword 28 + 32 * Z.of_nat (S i))) as Em.
  { unfold m'. cbn [bootmain_loop]. unfold load_segment, nth_segment, segment_at. cbn [sg_off sg_paddr sg_filesz sg_memsz].
    rewrite <- !(Z.add_assoc elf_scratch), !ld32_headers by (done || lia).
    unfold elf_scratch in *. rewrite (u32_small (65536 + _)) by (unfold is_u32; lia). f_equal. lia. }
  set (g := nth_segment i) in *.
  destruct (load_segment_spec m g (fword_range _) (fword_range _) (Hfit i ltac:(lia))) as [Hld Hkeep].
  set (m1 := load_segment m g) in *.
  assert (headers m1) as Hh1.
  { intros o Ho. rewrite Hkeep; [by apply Hh|]. intros Ht. apply (Hapart i (elf_scratch + o)); [lia|done|lia]. }
  destruct (IH m1 (S i) Hh1 H0) as (Hh' & Hk' & Hl').
  { lia. }
  { intros j b Hj. apply Hapart. lia. }
  { intros j k b Hj Hk. apply Hord; lia. }
  { intros j Hj. apply Hfit. lia. }
  rewrite <- Em in Hh', Hk', Hl'. split_and!; [done| |].
  - intros b Hb. rewrite Hk' by (intros j Hj; apply Hb; lia). apply Hkeep, Hb. lia.
  - intros j Hj. destruct (decide (j = i)) as [->|]; [|apply Hl'; lia].
    fold g. assert (∀ b, in_image g b → ldb m' b = ldb m1 b) as Hsame.
    { intros b Hb. apply Hk'. intros k Hk. apply (Hord i k b); [lia|lia|done]. }
    pose proof (fword_range _ : 0 <= sg_filesz g < _) as Hfs. destruct Hld as [L1 L2].
    split; intros o Ho; rewrite Hsame by (unfold in_image; lia).
    + by apply L1.
    + by apply L2.
Qed.

(** An image the loader can load: its program headers are in its first page,
    every segment is within the addresses, none is loaded over the headers,
    and none over one that is loaded before it. *)
Record bootable : Prop := {
  bo_magic : fword 0 = ELF_MAGIC;
  bo_headers : fword 28 + 32 * fhalf 44 <= 4096;
  bo_fits : ∀ j : nat, Z.of_nat j < fhalf 44 → fits (nth_segment j);
  bo_scratch : ∀ (j : nat) b, Z.of_nat j < fhalf 44 → touched (nth_segment j) b → ¬ (elf_scratch <= b < elf_scratch + 4096);
  bo_order : ∀ (j k : nat) b, (j < k)%nat → Z.of_nat k < fhalf 44 → in_image (nth_segment j) b → ¬ touched (nth_segment k) b
}.

Lemma ldb_headers m b : ldb (readseg m elf_scratch 4096 0) b =
  if decide (elf_scratch <= b < elf_scratch + 4096) then file (b - elf_scratch) else ldb m b.
Proof using Hdisk Hbyte.
  assert (seg_start elf_scratch 0 = elf_scratch ∧ seg_span 4096 0 = 4096) as [Es Ep] by done.
  rewrite ldb_readseg; rewrite ?Es, ?Ep; done.
Qed.

Lemma readseg_headers m : headers (readseg m elf_scratch 4096 0).
Proof using Hdisk Hbyte. intros i Hi. rewrite ldb_headers, decide_True by lia. f_equal. lia. Qed.

End boot.

(** ** Example *)

(** An image with two segments, 8 bytes at offset 4100 for address 0x100004,
    with 24 bytes of zeros after them, and 2 at offset 4608 for 0x100200. *)
Definition demo_image : list Z :=
  bytes_of_u32 ELF_MAGIC ++ replicate 20 0 ++ bytes_of_u32 1048588 ++ bytes_of_u32 52 ++ replicate 12 0 ++ [2; 0] ++ replicate 6 0 ++
  bytes_of_u32 1 ++ bytes_of_u32 4100 ++ bytes_of_u32 0 ++ bytes_of_u32 1048580 ++ bytes_of_u32 8 ++ bytes_of_u32 32 ++ replicate 8 0 ++
  bytes_of_u32 1 ++ bytes_of_u32 4608 ++ bytes_of_u32 0 ++ bytes_of_u32 1049088 ++ bytes_of_u32 2 ++ bytes_of_u32 2 ++ replicate 8 0 ++
  replicate 3984 0 ++ [11; 12; 13; 14; 15; 16; 17; 18] ++ replicate 500 0 ++ [21; 22].
Definition demo_file (o : Z) : Z := u8 (default 0 (demo_image !! Z.to_nat o)).
Definition demo_disk (k : Z) : list Z := (λ i : nat, demo_file (512 * (k - 1) + i)) <$> seq 0 512.

Lemma demo_sectors k : 0 <= k < 268435455 → length (demo_disk (k + 1)) = 512%nat ∧
  ∀ i : nat, (i < 512)%nat → demo_disk (k + 1) !!! i = demo_file (512 * k + i).
Proof.
  intros _. unfold demo_disk. split; [by rewrite length_fmap, length_seq|]. intros i Hi.
  apply list_lookup_total_correct. rewrite list_lookup_fmap, lookup_seq_lt by done. cbn [fmap option_fmap option_map Nat.add].
  do 2 f_equal. lia.
Qed.

Lemma demo_bootable : bootable demo_file.
Proof.
  assert (fhalf demo_file 44 = 2) as En by (vm_compute; reflexivity).
  assert (nth_segment demo_file 0 = mkSegment 4100 1048580 8 32) as E0 by (vm_compute; reflexivity).
  assert (nth_segment demo_file 1 = mkSegment 4608 1049088 2 2) as E1 by (vm_compute; reflexivity).
  split; [vm_compute; reflexivity|vm_compute; discriminate| | |]; rewrite En.
  - intros [|[|j]] Hj; [rewrite E0|rewrite E1|lia]; (split_and!; vm_compute; (reflexivity || discriminate)).
  - intros [|[|j]] b Hj; [rewrite E0|rewrite E1|lia]; unfold touched, elf_scratch;
      cbn [sg_off sg_paddr sg_filesz sg_memsz]; unfold seg_start, seg_span; divmod.
  - intros [|j] [|[|k]] b Hj Hk; try lia. rewrite E0, E1. unfold touched, in_image.
    cbn [sg_off sg_paddr sg_filesz sg_memsz]. unfold seg_start, seg_span. divmod.
Qed.

