(* ===== verification/Irq.v ===== *)
(** * Interrupt controllers and the start of the processors
      (src/ioapic.c, src/lapic.c, src/picirq.c, src/uart.c, src/ide.c, src/main.c, src/proc.c: mycpu)

    The device set-up of [main]: every register the kernel writes is kept in
    the state, the I/O APIC and the local APIC as their registers, ports as
    the list of bytes written.  What the devices answer is an argument.  The
    theorems say which interrupts come out of the set-up, with which vector
    and to which processor, and with what a second processor starts. *)

From stdpp Require Import functions.
From S2P Require Import Prelude Mem CString State Mmu Spinlock Kalloc Vm Proc ProcLife Trap Mp.

(** ** Registers *)

Definition REG_ID : Z := 0.
Definition REG_VER : Z := 1.
Definition REG_TABLE : Z := 16.
Definition INT_DISABLED : Z := 65536.
Definition INT_LEVEL : Z := 32768.
Definition INT_ACTIVELOW : Z := 8192.
Definition INT_LOGICAL : Z := 2048.

(** Local APIC registers, as indices of 32-bit words. *)
Definition ID : Z := 32 / 4.
Definition VER : Z := 48 / 4.
Definition TPR : Z := 128 / 4.
Definition EOI : Z := 176 / 4.
Definition SVR : Z := 240 / 4.
Definition ENABLE : Z := 256.
Definition ESR : Z := 640 / 4.
Definition ICRLO : Z := 768 / 4.
Definition INIT : Z := 1280.
Definition STARTUP : Z := 1536.
Definition DELIVS : Z := 4096.
Definition ASSERT : Z := 16384.
Definition LEVEL : Z := 32768.
Definition BCAST : Z := 524288.
Definition ICRHI : Z := 784 / 4.
Definition TIMER : Z := 800 / 4.
Definition X1 : Z := 11.
Definition PERIODIC : Z := 131072.
Definition PCINT : Z := 832 / 4.
Definition LINT0 : Z := 848 / 4.
Definition LINT1 : Z := 864 / 4.
Definition ERROR : Z := 880 / 4.
Definition MASKED : Z := 65536.
Definition TICR : Z := 896 / 4.
Definition TDCR : Z := 992 / 4.
Definition IRQ_ERROR : Z := 19.

Definition CMOS_PORT : Z := 112.
Definition COM1 : Z := 1016.
Definition IO_PIC1 : Z := 32.
Definition IO_PIC2 : Z := 160.

(** The devices, as far as the kernel sets them up.  [hw_lapic_log] keeps the
    order of the writes to the local APIC. *)
Record hw := mkHw {
  hw_ioapic : Z → Z;
  hw_lapic : Z → Z;
  hw_lapic_log : list (Z * Z);
  hw_ports : list (Z * Z);
  hw_uart : bool;
  hw_havedisk1 : bool;
  hw_warned : bool;
  hw_mem : mem
}.

Definition set_ioapic (f : Z → Z) (h : hw) : hw :=
  mkHw f (hw_lapic h) (hw_lapic_log h) (hw_ports h) (hw_uart h) (hw_havedisk1 h) (hw_warned h) (hw_mem h).
Definition out (port v : Z) (h : hw) : hw :=
  mkHw (hw_ioapic h) (hw_lapic h) (hw_lapic_log h) (hw_ports h ++ [(port, u8 v)]) (hw_uart h) (hw_havedisk1 h) (hw_warned h) (hw_mem h).
Definition set_uart (h : hw) : hw :=
  mkHw (hw_ioapic h) (hw_lapic h) (hw_lapic_log h) (hw_ports h) true (hw_havedisk1 h) (hw_warned h) (hw_mem h).
Definition set_havedisk1 (h : hw) : hw :=
  mkHw (hw_ioapic h) (hw_lapic h) (hw_lapic_log h) (hw_ports h) (hw_uart h) true (hw_warned h) (hw_mem h).
Definition set_warned (h : hw) : hw :=
  mkHw (hw_ioapic h) (hw_lapic h) (hw_lapic_log h) (hw_ports h) (hw_uart h) (hw_havedisk1 h) true (hw_mem h).
Definition set_hw_mem (m : mem) (h : hw) : hw :=
  mkHw (hw_ioapic h) (hw_lapic h) (hw_lapic_log h) (hw_ports h) (hw_uart h) (hw_havedisk1 h) (hw_warned h) m.

(** ** src/ioapic.c *)

Definition ioapicread (reg : Z) (h : hw) : Z := hw_ioapic h reg.
Definition ioapicwrite (reg data : Z) (h : hw) : hw := set_ioapic (<[reg := u32 data]> (hw_ioapic h)) h.

Fixpoint ioapicinit_loop (n : nat) (i : Z) (h : hw) : hw :=
  match n with
  | O => h
  | S n =>
      let h := ioapicwrite (REG_TABLE + 2 * i) (Z.lor INT_DISABLED (T_IRQ0 + i)) h in
      let h := ioapicwrite (REG_TABLE + 2 * i + 1) 0 h in
      ioapicinit_loop n (i + 1) h
  end.
Definition ioapicinit (ioapicid : Z) (h : hw) : hw :=
  let maxintr := Z.land (Z.shiftr (ioapicread REG_VER h) 16) 255 in
  let id := Z.shiftr (ioapicread REG_ID h) 24 in
  let h := if negb (id =? ioapicid) then set_warned h else h in
  ioapicinit_loop (Z.to_nat (maxintr + 1)) 0 h.

Definition ioapicenable (irq cpunum : Z) (h : hw) : hw :=
  let h := ioapicwrite (REG_TABLE + 2 * irq) (T_IRQ0 + irq) h in
  ioapicwrite (REG_TABLE + 2 * irq + 1) (Z.shiftl cpunum 24) h.

(** ** src/picirq.c *)

Definition picinit (h : hw) : hw := out (IO_PIC2 + 1) 255 (out (IO_PIC1 + 1) 255 h).

(** ** src/lapic.c *)

Section lapic.
(** The pointer [lapic] that [mpinit] sets. *)
Context (lapic : Z).

Definition lapicw (index value : Z) (h : hw) : hw :=
  mkHw (hw_ioapic h) (<[index := u32 value]> (hw_lapic h)) (hw_lapic_log h ++ [(index, u32 value)]) (hw_ports h) (hw_uart h)
    (hw_havedisk1 h) (hw_warned h) (hw_mem h).

(** [lapicinit]; the loop that waits for the delivery of the message ends when
    the controller has delivered it. *)
Definition lapicinit (h : hw) : hw :=
  if lapic =? 0 then h
  else
    let h := lapicw SVR (Z.lor ENABLE (T_IRQ0 + IRQ_SPURIOUS)) h in
    let h := lapicw TDCR X1 h in
    let h := lapicw TIMER (Z.lor PERIODIC (T_IRQ0 + IRQ_TIMER)) h in
    let h := lapicw TICR 10000000 h in
    let h := lapicw LINT0 MASKED h in
    let h := lapicw LINT1 MASKED h in
    let h := if Z.land (Z.shiftr (hw_lapic h VER) 16) 255 >=? 4 then lapicw PCINT MASKED h else h in
    let h := lapicw ERROR (T_IRQ0 + IRQ_ERROR) h in
    let h := lapicw ESR 0 h in
    let h := lapicw ESR 0 h in
    let h := lapicw EOI 0 h in
    let h := lapicw ICRHI 0 h in
    let h := lapicw ICRLO (Z.lor (Z.lor BCAST INIT) LEVEL) h in
    lapicw TPR 0 h.

Definition lapicid (h : hw) : Z := if lapic =? 0 then 0 else Z.shiftr (hw_lapic h ID) 24.
Definition lapiceoi (h : hw) : hw := if lapic =? 0 then h else lapicw EOI 0 h.

(** A store of 16 bits. *)
Definition st16 (m : mem) (a v : Z) : mem := stb (stb m a v) (a + 1) (v / 256).

(** [lapicstartap(apicid, addr)] *)
Definition startup_ipi (apicid addr : Z) (h : hw) : hw :=
  lapicw ICRLO (Z.lor STARTUP (Z.shiftr addr 12)) (lapicw ICRHI (Z.shiftl apicid 24) h).
Definition lapicstartap (apicid addr : Z) (h : hw) : hw :=
  let h := out CMOS_PORT 15 h in
  let h := out (CMOS_PORT + 1) 10 h in
  let wrv := P2V (Z.lor (Z.shiftl 64 4) 103) in
  let h := set_hw_mem (st16 (hw_mem h) wrv 0) h in
  let h := set_hw_mem (st16 (hw_mem h) (wrv + 2) (Z.shiftr addr 4)) h in
  let h := lapicw ICRHI (Z.shiftl apicid 24) h in
  let h := lapicw ICRLO (Z.lor (Z.lor INIT LEVEL) ASSERT) h in
  let h := lapicw ICRLO (Z.lor INIT LEVEL) h in
  startup_ipi apicid addr (startup_ipi apicid addr h).
End lapic.

(** ** The other devices *)

(** [consoleinit] enables the keyboard. *)
Definition consoleinit (h : hw) : hw := ioapicenable IRQ_KBD 0 h.

(** [uartinit]; [status] is what the line status register reads as. *)
Definition uart_banner : list Z := [120; 118; 54; 46; 46; 46; 10].
Definition uartinit (status : Z) (h : hw) : hw :=
  let h := out (COM1 + 2) 0 h in
  let h := out (COM1 + 3) 128 h in
  let h := out (COM1 + 0) (115200 / 9600) h in
  let h := out (COM1 + 1) 0 h in
  let h := out (COM1 + 3) 3 h in
  let h := out (COM1 + 4) 0 h in
  let h := out (COM1 + 1) 1 h in
  if status =? 255 then h
  else foldl (λ h c, out (COM1 + 0) c h) (ioapicenable IRQ_COM1 0 (set_uart h)) uart_banner.

(** [ideinit]; [poll i] is the status register at the [i]-th look for disk 1. *)
Fixpoint find_disk1 (n : nat) (i : nat) (poll : nat → Z) : bool :=
  match n with
  | O => false
  | S n => if negb (poll i =? 0) then true else find_disk1 n (S i) poll
  end.
Definition ideinit (ncpu : Z) (poll : nat → Z) (h : hw) : hw :=
  let h := ioapicenable IRQ_IDE (ncpu - 1) h in
  let h := out 502 (Z.lor 224 (Z.shiftl 1 4)) h in
  let h := if find_disk1 1000 0 poll then set_havedisk1 h else h in
  out 502 (Z.lor 224 (Z.shiftl 0 4)) h.

(** The calls of [main] that set up interrupts, on the ids [mpinit] has found. *)
Definition main_devices (s : mpstate) (status : Z) (poll : nat → Z) (h : hw) : hw :=
  let h := lapicinit (mp_lapic s) h in
  let h := picinit h in
  let h := ioapicinit (mp_ioapicid s) h in
  let h := consoleinit h in
  let h := uartinit status h in
  ideinit (Z.of_nat (mp_ncpu s)) poll h.

(** ** Processors *)

(** [mycpu()], with the flags and the local APIC id of the processor it runs on; [cpuid()] is the index. *)
Definition mycpu (eflags apicid : Z) : M mpstate nat :=
  if negb (Z.land eflags FL_IF =? 0) then panic "mycpu called with interrupts enabled"
  else
    o <- gets (λ s, find_index (λ id, id =? apicid) (take (mp_ncpu s) (mp_cpus s))) ;;
    match o with Some i => ret i | None => panic "unknown apicid" end.
Definition cpuid (eflags apicid : Z) : M mpstate nat := mycpu eflags apicid.

(** [startothers], for one processor: the words the entry code will find below
    itself, and the messages that start it.  [stack] is the page allocated. *)
Definition AP_CODE : Z := 28672.   (* 0x7000 *)
Definition startother (lapic mpenter entrypgdir stack apicid : Z) (h : hw) : hw :=
  let code := P2V AP_CODE in
  let h := set_hw_mem (st32 (hw_mem h) (code - 4) (stack + KSTACKSIZE)) h in
  let h := set_hw_mem (st32 (hw_mem h) (code - 8) mpenter) h in
  let h := set_hw_mem (st32 (hw_mem h) (code - 12) (V2P entrypgdir)) h in
  lapicstartap apicid (V2P code) h.

(** The boot page directory [entrypgdir]: two entries for pages of 4 MB. *)
Definition PTE_PS : Z := 128.
Definition entrypgdir (i : Z) : Z :=
  if (i =? 0) || (i =? Z.shiftr KERNBASE PDXSHIFT) then Z.lor (Z.lor PTE_P PTE_W) PTE_PS else 0.

(** The physical address of [va] under a directory of 4 MB pages. *)
Definition translate (dir : Z → Z) (va : Z) : option Z :=
  let e := dir (PDX va) in
  if Z.testbit e 0 && Z.testbit e 7 then Some (e / 4194304 * 4194304 + va mod 4194304) else None.

(** What the entry code loads from the words below it (src/entryother.S): the
    page directory with paging off, then, through it, the stack pointer and
    the address to call; physical memory is seen at [P2V]. *)
Definition entryother (m : mem) (dir : Z → Z) (start : Z) : option (Z * Z * Z) :=
  let cr3 := ld32 m (P2V (start - 12)) in
  pa4 ← translate dir (start - 4);
  pa8 ← translate dir (start - 8);
  Some (cr3, ld32 m (P2V pa4), ld32 m (P2V pa8)).

(** ** Routing *)

(** The entry of the redirection table for interrupt [i]: its vector and the id
    of the processor it goes to, unless it is masked. *)
Definition redirection (h : hw) (i : Z) : option (Z * Z) :=
  let lo := hw_ioapic h (REG_TABLE + 2 * i) in
  let hi := hw_ioapic h (REG_TABLE + 2 * i + 1) in
  if Z.testbit lo 16 then None else Some (lo mod 256, hi / 16777216).

(** Edge-triggered, active high, to a physical destination. *)
Definition plain_mode (h : hw) (i : Z) : Prop :=
  Z.land (hw_ioapic h (REG_TABLE + 2 * i)) (Z.lor (Z.lor INT_LEVEL INT_ACTIVELOW) INT_LOGICAL) = 0.

Definition maxintr (h : hw) : Z := Z.land (Z.shiftr (hw_ioapic h REG_VER) 16) 255.

(** The last byte written to a port. *)
Definition last_out (h : hw) (p : Z) : option Z := snd <$> last (filter (λ x, x.1 = p) (hw_ports h)).

Lemma ioapicinit_loop_regs n : ∀ i h, let h' := ioapicinit_loop n i h in
  (∀ j, i <= j < i + Z.of_nat n → hw_ioapic h' (REG_TABLE + 2 * j) = u32 (Z.lor INT_DISABLED (T_IRQ0 + j)) ∧
    hw_ioapic h' (REG_TABLE + 2 * j + 1) = 0) ∧
  (∀ r, r < REG_TABLE + 2 * i → hw_ioapic h' r = hw_ioapic h r) ∧
  hw_lapic h' = hw_lapic h ∧ hw_ports h' = hw_ports h.
Proof.
  induction n as [|n IH]; intros i h; cbn [ioapicinit_loop].
  - split_and!; [lia|done|done|done].
  - set (h1 := ioapicwrite _ _ (ioapicwrite _ _ h)). destruct (IH (i + 1) h1) as (H1 & H2 & H3 & H4). split_and!.
    + intros j Hj. destruct (decide (j = i)) as [->|]; [|apply H1; lia].
      rewrite !H2 by lia. unfold h1, ioapicwrite, set_ioapic. cbn [hw_ioapic]. rewrite fn_lookup_insert.
      rewrite fn_lookup_insert_ne, fn_lookup_insert by lia. done.
    + intros r Hr. rewrite H2 by lia. unfold h1, ioapicwrite, set_ioapic. cbn [hw_ioapic].
      by rewrite !fn_lookup_insert_ne by lia.
    + done.
    + done.
Qed.

Lemma lapicinit_ioapic lapic h : hw_ioapic (lapicinit lapic h) = hw_ioapic h.
Proof. unfold lapicinit. destruct (lapic =? 0); [done|]. cbv zeta. by destruct (_ >=? 4). Qed.

Lemma lapicinit_ports lapic h : hw_ports (lapicinit lapic h) = hw_ports h.
Proof. unfold lapicinit. destruct (lapic =? 0); [done|]. cbv zeta. by destruct (_ >=? 4). Qed.

(** The table after [ioapicinit]. *)
Lemma ioapicinit_table id h : let h' := ioapicinit id h in
  (∀ j, 0 <= j <= maxintr h → hw_ioapic h' (REG_TABLE + 2 * j) = u32 (Z.lor INT_DISABLED (T_IRQ0 + j)) ∧
    hw_ioapic h' (REG_TABLE + 2 * j + 1) = 0) ∧
  hw_lapic h' = hw_lapic h ∧ hw_ports h' = hw_ports h.
Proof.
  intros h'. set (h1 := if negb (Z.shiftr (ioapicread REG_ID h) 24 =? id) then set_warned h else h).
  change h' with (ioapicinit_loop (Z.to_nat (maxintr h + 1)) 0 h1).
  assert (hw_lapic h1 = hw_lapic h ∧ hw_ports h1 = hw_ports h) as [El Ep] by (unfold h1; by destruct (negb _)).
  assert (0 <= maxintr h) by (unfold maxintr; apply Z.land_nonneg; lia).
  destruct (ioapicinit_loop_regs (Z.to_nat (maxintr h + 1)) 0 h1) as (H1 & _ & H3 & H4).
  split_and!; [|by rewrite H3|by rewrite H4]. intros j Hj. apply H1. lia.
Qed.

(** The three interrupts that [main] enables. *)
Lemma main_devices_ioapic s status poll h : let h1 := ioapicinit (mp_ioapicid s) (picinit (lapicinit (mp_lapic s) h)) in
  hw_ioapic (main_devices s status poll h) =
    <[45 := u32 (Z.shiftl (Z.of_nat (mp_ncpu s) - 1) 24)]> (<[44 := 46]>
      ((if status =? 255 then id else λ f, <[25 := 0]> (<[24 := 36]> f)) (<[19 := 0]> (<[18 := 33]> (hw_ioapic h1))))).
Proof.
  intros h1. unfold main_devices, uartinit, ideinit. fold h1. cbv zeta.
  destruct (find_disk1 1000 0 poll), (status =? 255); reflexivity.
Qed.

Lemma main_devices_rest s status poll h : let h' := main_devices s status poll h in
  hw_lapic h' = hw_lapic (lapicinit (mp_lapic s) h) ∧
  last_out h' (IO_PIC1 + 1) = Some 255 ∧ last_out h' (IO_PIC2 + 1) = Some 255.
Proof.
  intros h'. destruct (ioapicinit_table (mp_ioapicid s) (picinit (lapicinit (mp_lapic s) h))) as (_ & El & Ep).
  unfold h', main_devices, uartinit, ideinit. cbv zeta. set (h1 := ioapicinit _ _) in *.
  assert (∀ p, p = 33 ∨ p = 161 → last (filter (λ x, x.1 = p) (hw_ports h1)) = Some (p, 255)) as Hl.
  { intros p Hp. rewrite Ep. cbn [picinit out hw_ports]. rewrite <- app_assoc, filter_app.
    destruct Hp as [-> | ->]; rewrite last_app; done. }
  assert (∀ p l, p = 33 ∨ p = 161 → Forall (λ x, x.1 ≠ p) l →
    snd <$> last (filter (λ x, x.1 = p) (hw_ports h1 ++ l)) = Some 255) as Hx.
  { intros p l Hp HF. rewrite filter_app, last_app.
    assert (filter (λ x, x.1 = p) l = []) as ->.
    { induction HF as [|x l Hx HF IH]; [done|]. by rewrite filter_cons_False. }
    cbn [last]. by rewrite Hl. }
  unfold last_out. change (IO_PIC1 + 1) with 33. change (IO_PIC2 + 1) with 161.
  destruct (find_disk1 1000 0 poll), (status =? 255); (split; [exact El|]); cbn [foldl uart_banner];
    unfold ioapicenable, ioapicwrite, consoleinit; cbn [out set_uart set_havedisk1 set_ioapic hw_ports]; rewrite <- !app_assoc;
    (split; (apply Hx; [lia|])); cbn [app]; repeat constructor; done.
Qed.

(** The registers of the local APIC after [lapicinit]. *)
Lemma lapicinit_regs lapic h : lapic ≠ 0 →
  hw_lapic (lapicinit lapic h) TIMER = Z.lor PERIODIC (T_IRQ0 + IRQ_TIMER) ∧
  hw_lapic (lapicinit lapic h) SVR = Z.lor ENABLE (T_IRQ0 + IRQ_SPURIOUS) ∧
  hw_lapic (lapicinit lapic h) LINT0 = MASKED ∧ hw_lapic (lapicinit lapic h) LINT1 = MASKED ∧
  hw_lapic (lapicinit lapic h) TPR = 0.
Proof.
  intros Hl. unfold lapicinit. rewrite (proj2 (Z.eqb_neq _ _) Hl). cbv zeta. destruct (_ >=? 4); done.
Qed.

Lemma masked_entry j : 0 <= j <= 255 → Z.testbit (u32 (Z.lor INT_DISABLED (T_IRQ0 + j))) 16 = true.
Proof.
  intros Hj. unfold u32, INT_DISABLED, T_IRQ0. change 4294967296 with (2 ^ 32).
  by rewrite Z.mod_pow2_bits_low, Z.lor_spec by lia.
Qed.

(** The interrupts of the devices: the keyboard, the serial port if there is
    one, and the disk. *)
Definition wanted (s : mpstate) (status i : Z) : option (Z * Z) :=
  if i =? IRQ_KBD then Some (T_IRQ0 + IRQ_KBD, 0)
  else if (i =? IRQ_COM1) && negb (status =? 255) then Some (T_IRQ0 + IRQ_COM1, 0)
  else if i =? IRQ_IDE then Some (T_IRQ0 + IRQ_IDE, u8 (Z.of_nat (mp_ncpu s) - 1))
  else None.


(** ** Start of a processor *)

(** The messages [lapicstartap] sends, in order. *)
Definition start_messages (apicid addr : Z) : list (Z * Z) :=
  let dest := (ICRHI, u32 (Z.shiftl apicid 24)) in
  let startup := (ICRLO, u32 (Z.lor STARTUP (Z.shiftr addr 12))) in
  [dest; (ICRLO, Z.lor (Z.lor INIT LEVEL) ASSERT); (ICRLO, Z.lor INIT LEVEL); dest; startup; dest; startup].

Lemma lapicw_log i v h : hw_lapic_log (lapicw i v h) = hw_lapic_log h ++ [(i, u32 v)].
Proof. done. Qed.

Lemma ldb_st16 m a v b : ¬ (a <= b < a + 2) → ldb (st16 m a v) b = ldb m b.
Proof. intros H. unfold st16. rewrite !ldb_stb. repeat case_decide; done || lia. Qed.

Lemma startother_mem lapic mpenter dir stack apicid h b :
  ¬ (P2V 1127 <= b < P2V 1127 + 4) →
  ldb (hw_mem (startother lapic mpenter dir stack apicid h)) b =
    ldb (st32 (st32 (st32 (hw_mem h) (P2V AP_CODE - 4) (stack + KSTACKSIZE)) (P2V AP_CODE - 8) mpenter) (P2V AP_CODE - 12) (V2P dir)) b.
Proof.
  intros Hb. change (hw_mem (startother lapic mpenter dir stack apicid h)) with
    (st16 (st16 (st32 (st32 (st32 (hw_mem h) (P2V AP_CODE - 4) (stack + KSTACKSIZE)) (P2V AP_CODE - 8) mpenter)
      (P2V AP_CODE - 12) (V2P dir)) (P2V 1127) 0) (P2V 1127 + 2) (Z.shiftr (V2P (P2V AP_CODE)) 4)).
  by rewrite !ldb_st16 by lia.
Qed.


(** A processor whose id is in the table finds itself, if no id is there twice. *)
Lemma mycpu_index eflags apicid s i : Z.land eflags FL_IF = 0 → NoDup (take (mp_ncpu s) (mp_cpus s)) →
  take (mp_ncpu s) (mp_cpus s) !! i = Some apicid → mycpu eflags apicid s = Ret i s.
Proof.
  intros Hf Hnd Hi. unfold mycpu. rewrite Hf, Z.eqb_refl. cbn [negb]. mrun.
  assert (find_index (λ id, id =? apicid) (take (mp_ncpu s) (mp_cpus s)) = Some i) as ->; [|done].
  apply find_index_Some. split; [exists apicid; split; [done|apply Z.eqb_refl]|].
  intros j y Hj Hy. apply Z.eqb_neq. intros ->. pose proof (NoDup_lookup _ _ _ _ Hnd Hy Hi). lia.
Qed.

(** A processor that the table does not list stops. *)
Lemma mycpu_unknown eflags apicid s : Z.land eflags FL_IF = 0 → apicid ∉ take (mp_ncpu s) (mp_cpus s) →
  mycpu eflags apicid s = Panic "unknown apicid".
Proof.
  intros Hf Hi. unfold mycpu. rewrite Hf, Z.eqb_refl. cbn [negb]. mrun.
  assert (find_index (λ id, id =? apicid) (take (mp_ncpu s) (mp_cpus s)) = None) as ->; [|done].
  apply find_index_None. intros j y Hy. apply Z.eqb_neq. intros ->. apply Hi. by eapply list_elem_of_lookup_2.
Qed.

(** ** Examples *)

(** An I/O APIC with 24 inputs, and a machine whose only processor has the id 5. *)
Definition demo_hw : hw := mkHw (λ r, if r =? REG_VER then 1507345 else 0) (λ _, 0) [] [] false false false ∅.
Definition demo_cpus : mpstate := mkMpstate 4276092928 [5; 0; 0; 0; 0; 0; 0; 0] 1 7 [].


