(* ===== verification/AsmTypes.v ===== *)
(** * The widths of registers, and system calls from user code

    Every instruction, every trap and every return keeps the registers of a
    processor 32 bits wide and its selectors 16 ([asm_types]).  The stubs of
    src/user/usys.S, put together with the trap path, make a system call a
    function call: the number goes in, the result comes out in [eax], and
    nothing else that the caller relies on changes ([syscall_stub]).
    SyscallSpec.v adds what the kernel does in between. *)

From S2P Require Import Prelude Mem CString State Mmu Proc ProcLife Trap Segment Asm AsmSpec.

(** Immediates that are loaded as addresses fit. *)
Definition instr_ok (i : instr) : Prop :=
  match i with Call target _ | Jmp target => is_u32 target | _ => True end.

Lemma get_reg_ok r s : machine_ok s → is_u32 (get_reg r s).
Proof. intros [Hr _]. repeat (rewrite Forall_cons in Hr; destruct Hr as [? Hr]). by destruct r. Qed.

Lemma get_seg_ok r s : machine_ok s → 0 <= get_seg r s < 65536.
Proof. intros [_ Hs]. repeat (rewrite Forall_cons in Hs; destruct Hs as [? Hs]). by destruct r. Qed.

Lemma set_reg_ok r v s : is_u32 v → machine_ok s → machine_ok (set_reg r v s).
Proof.
  intros Hv [Hr Hs]. repeat (rewrite Forall_cons in Hr; destruct Hr as [? Hr]).
  destruct s, r; (split; [repeat (constructor; [assumption|]); constructor|exact Hs]).
Qed.

Lemma set_seg_ok r v s : 0 <= v < 65536 → machine_ok s → machine_ok (set_seg r v s).
Proof.
  intros Hv [Hr Hs]. repeat (rewrite Forall_cons in Hs; destruct Hs as [? Hs]).
  destruct s, r; (split; [exact Hr|repeat (constructor; [assumption|]); constructor]).
Qed.

Lemma set_eip_ok v s : is_u32 v → machine_ok s → machine_ok (set_eip v s).
Proof.
  intros Hv [Hr Hs]. repeat (rewrite Forall_cons in Hr; destruct Hr as [? Hr]).
  destruct s; (split; [repeat (constructor; [assumption|]); constructor|exact Hs]).
Qed.

Lemma set_eflags_ok v s : is_u32 v → machine_ok s → machine_ok (set_eflags v s).
Proof.
  intros Hv [Hr Hs]. repeat (rewrite Forall_cons in Hr; destruct Hr as [? Hr]).
  destruct s; (split; [repeat (constructor; [assumption|]); constructor|exact Hs]).
Qed.

Lemma set_mem_ok m s : machine_ok s → machine_ok (set_mem m s).
Proof. intros [Hr Hs]. destruct s. by split. Qed.

Lemma u16_range z : 0 <= u16 z < 65536.
Proof. unfold u16. apply Z.mod_pos_bound. lia. Qed.

Create HintDb asm.
#[export] Hint Resolve get_reg_ok get_seg_ok set_reg_ok set_seg_ok set_eip_ok set_eflags_ok set_mem_ok u32_range u16_range
  ld32_range : asm.

Lemma push_ok v s : machine_ok s → machine_ok (push v s).
Proof. unfold push. auto with asm. Qed.

Lemma pop_ok s : machine_ok s → machine_ok (pop s).
Proof. unfold pop. auto with asm. Qed.

Lemma top_ok s : is_u32 (top s).
Proof. apply ld32_range. Qed.
#[export] Hint Resolve push_ok pop_ok top_ok : asm.

Lemma pop_reg_ok r s : machine_ok s → machine_ok (pop_reg r s).
Proof. unfold pop_reg. auto with asm. Qed.

Lemma pop_seg_ok r s : machine_ok s → machine_ok (pop_seg r s).
Proof. unfold pop_seg. auto with asm. Qed.
#[export] Hint Resolve pop_reg_ok pop_seg_ok : asm.

Lemma lor_range a b : is_u32 a → is_u32 b → is_u32 (Z.lor a b).
Proof.
  unfold is_u32. change 4294967296 with (2 ^ 32). intros Ha Hb.
  rewrite <- (Z.mod_small a (2 ^ 32)), <- (Z.mod_small b (2 ^ 32)) by done.
  rewrite <- !Z.land_ones, <- Z.land_lor_distr_l, Z.land_ones by lia. by apply Z.mod_pos_bound.
Qed.

Lemma land_range a b : is_u32 a → is_u32 (Z.land a b).
Proof.
  unfold is_u32. change 4294967296 with (2 ^ 32). intros Ha.
  rewrite <- (Z.mod_small a (2 ^ 32)) by done.
  rewrite <- Z.land_ones, <- Z.land_assoc, (Z.land_comm (Z.ones 32)), Z.land_assoc, Z.land_ones by lia. by apply Z.mod_pos_bound.
Qed.

Lemma add_flags_ok a b old : is_u32 old → is_u32 (add_flags a b old).
Proof.
  intros Ho. unfold add_flags. apply lor_range; [by apply land_range|]. unfold is_u32.
  repeat (match goal with |- context [if ?c then _ else _] => destruct c end); lia.
Qed.

Lemma step_ok i s : instr_ok i → machine_ok s → machine_ok (step i s).
Proof.
  intros Hi Hs. pose proof (λ r, get_reg_ok r s Hs) as Hr.
  destruct i; cbn [step instr_ok] in *; auto 20 with asm.
  - apply set_reg_ok; [|done]. specialize (Hr dst). pose proof (u16_range v). unfold is_u32 in *. divmod.
  - apply set_eflags_ok; [|auto with asm]. apply add_flags_ok. destruct Hs as [H _].
    repeat (rewrite Forall_cons in H; destruct H as [? H]). done.
Qed.

Lemma run_ok code s : Forall instr_ok code → machine_ok s → machine_ok (run code s).
Proof. intros Hc. revert s. induction Hc as [|i code Hi Hc IH]; intros s Hs; cbn; [done|]. by apply IH, step_ok. Qed.

Lemma drop_seg_ok t l r s : machine_ok s → machine_ok (drop_seg t l r s).
Proof. intros Hs. unfold drop_seg. case_match; [|done]. apply set_seg_ok; [lia|done]. Qed.

Lemma iret_ok t s : machine_ok s → machine_ok (iret t s).
Proof.
  intros Hs. unfold iret. cbv zeta. case_match; [|auto 10 with asm].
  do 4 apply drop_seg_ok. auto 20 with asm.
Qed.

(** The fields of the tables fit in a processor's registers. *)
Record tables_ok (t : tables) : Prop := {
  tk_gates : Forall (λ g, 0 <= gd_off_15_0 g < 65536 ∧ 0 <= gd_off_31_16 g < 65536 ∧ 0 <= gd_cs g < 65532) (t_idt t);
  tk_level : Forall (λ d, 0 <= sd_dpl d < 4) (t_gdt t);
  tk_stack : is_u32 (ts_esp0 (t_ts t)) ∧ 0 <= ts_ss0 (t_ts t) < 65536
}.

Lemma interrupt_ok t soft n err s s' : tables_ok t → machine_ok s → interrupt t soft n err s = Some s' → machine_ok s'.
Proof.
  intros [Hg Hd [He Hss]] Hs. unfold interrupt.
  destruct (t_idt t !! Z.to_nat n) as [g|] eqn:Eg; [|done]. cbn [mbind option_bind].
  destruct (t_gdt t !! Z.to_nat (gd_cs g / 8)) as [c|] eqn:Ec; [|done]. cbn [mbind option_bind].
  case_match; [done|]. intros [= <-].
  pose proof (Forall_lookup_1 _ _ _ _ Hg Eg) as (G1 & G2 & G3). pose proof (Forall_lookup_1 _ _ _ _ Hd Ec) as D.
  cbv beta in *. apply set_eflags_ok.
  { apply land_range. destruct Hs as [Hr0 _]. repeat (rewrite Forall_cons in Hr0; destruct Hr0 as [? Hr0]). done. }
  apply set_seg_ok; [divmod|]. apply set_eip_ok; [unfold gate_offset, is_u32; lia|].
  assert (∀ s, machine_ok s → machine_ok (match err with Some e => push e s | None => s end)) as Herr.
  { intros s1 Hs1. destruct err; auto with asm. }
  apply Herr. do 3 apply push_ok. destruct (sd_dpl c <? cpl s); [|done]. auto 10 with asm.
Qed.

Lemma bits_range w v : 0 <= w → 0 <= bits w v < 2 ^ w.
Proof. intros Hw. unfold bits. apply Z.mod_pos_bound. lia. Qed.

(** The tables the kernel sets up are well formed if what was there before is. *)
Lemma kernel_tables_ok vectors ts_addr kstack gdt0 idt0 :
  length gdt0 = NSEGS → length idt0 = 256%nat → Forall (λ d, 0 <= sd_dpl d < 4) gdt0 →
  tables_ok (kernel_tables vectors ts_addr kstack gdt0 idt0).
Proof.
  intros Hg Hi Hd. split; cbn [kernel_tables t_idt t_gdt t_ts].
  - apply Forall_lookup. intros i g Hl. pose proof (lookup_lt_Some _ _ _ Hl) as Hlt.
    assert (length (tvinit vectors idt0) = 256%nat) as El by (unfold tvinit; by rewrite length_insert, length_tvinit_loop).
    rewrite El in Hlt. rewrite <- (Nat2Z.id i), (lookup_tvinit vectors idt0) in Hl by lia. injection Hl as <-.
    cbn [SETGATE gd_off_15_0 gd_off_31_16 gd_cs]. pose proof (bits_range 16 (Z.land (u32 (vectors i)) 65535)).
    pose proof (bits_range 16 (Z.shiftr (u32 (vectors i)) 16)). change (bits 16 (Z.shiftl SEG_KCODE 3)) with 8. lia.
  - cbn [switchuvm_tss fst]. unfold seginit. cbv zeta.
    repeat (apply Forall_insert; [|first [change (0 <= 0 < 4); lia|change (0 <= 3 < 4); lia]]). done.
  - cbn [switchuvm_tss snd ts_esp0 ts_ss0]. split; [apply u32_range|done].
Qed.



(** ** System calls *)

(** [SYSCALL] only sets the number and the instruction pointer. *)
Lemma SYSCALL_eq num after s : is_u32 num →
  SYSCALL num after s = mkMachine num (m_ecx s) (m_edx s) (m_ebx s) (m_esp s) (m_ebp s) (m_esi s) (m_edi s)
    (m_cs s) (m_ss s) (m_ds s) (m_es s) (m_fs s) (m_gs s) after (m_eflags s) (m_mem s).
Proof. intros Hn. destruct s. unfold SYSCALL. cbn [run step set_reg set_eip]. by rewrite u32_small. Qed.

(** A system call is a function call.  A stub of the user library enters
    [trap] with the number of the call in the [eax] of the frame and the
    caller's stack pointer in its [esp], from which the arguments are fetched;
    when the kernel has put a result into the frame and changed nothing else
    in it, the stub returns to its caller with the result in [eax] and with
    every other register, the stack pointer past the return address, and the
    flags as they were at the call. *)
Lemma syscall_stub vectors ts_addr kstack gdt0 idt0 alltraps trap_addr next s num after :
  traps_ready vectors kstack gdt0 idt0 → machine_ok s → cpl s = 3 → is_u32 next → is_u32 num → is_u32 after →
  let t := kernel_tables vectors ts_addr kstack gdt0 idt0 in
  let tf := kstack + KSTACKSIZE - TF_SIZE in
  user_segments t (frame_of s 0 0) → m_esp s + 4 < 4294967296 →
  ∃ s1, interrupt t true T_SYSCALL None (SYSCALL num after s) = Some s1 ∧
    let s2 := run (trap_prologue alltraps trap_addr next T_SYSCALL) s1 in
    let f := tf_at (m_mem s2) tf in
    trap_entered trap_addr next tf s2 ∧ f = frame_of (SYSCALL num after s) T_SYSCALL 0 ∧
    ∀ s3 r, m_esp s3 = tf - 4 → cpl s3 = 0 → tf_at (m_mem s3) tf = set_tf_eax r f →
      ld32 (m_mem s3) (m_esp s) = ld32 (m_mem s) (m_esp s) →
      run [Retl] (alltraps_exit t s3) =
        mkMachine r (m_ecx s) (m_edx s) (m_ebx s) (m_esp s + 4) (m_ebp s) (m_esi s) (m_edi s)
          (m_cs s) (m_ss s) (m_ds s) (m_es s) (m_fs s) (m_gs s) (ld32 (m_mem s) (m_esp s)) (m_eflags s) (m_mem s3).
Proof.
  intros Hr Hs Hc Hnx Hnum Haf t tf Hseg Hsp. set (s0 := SYSCALL num after s).
  assert (machine_ok s0) as Hs0.
  { unfold s0. rewrite SYSCALL_eq by done. destruct Hs as [Hrg Hsg]. split; [|exact Hsg].
    repeat (rewrite Forall_cons in Hrg; destruct Hrg as [? Hrg]).
    repeat (constructor; [assumption|]). constructor. }
  destruct (trap_from_user vectors ts_addr kstack gdt0 idt0 alltraps trap_addr next s0 true T_SYSCALL None Hr)
    as (s1 & Hi & _ & He & Hf & _ & _ & Hret); [apply trap_of_syscall|done|unfold s0; by rewrite SYSCALL_eq|done|].
  exists s1. split; [exact Hi|]. cbv zeta in *. fold t tf in He, Hf, Hret |- *. set (s2 := run _ s1) in *. rewrite Hf.
  assert (frame_of s0 T_SYSCALL (default 0 None) =
    frame_of (mkMachine num (m_ecx s) (m_edx s) (m_ebx s) (m_esp s) (m_ebp s) (m_esi s) (m_edi s)
      (m_cs s) (m_ss s) (m_ds s) (m_es s) (m_fs s) (m_gs s) after (m_eflags s) (m_mem s)) T_SYSCALL 0) as Ef
    by (unfold s0; by rewrite SYSCALL_eq).
  split; [exact He|]. split; [done|]. rewrite Ef.
  intros s3 r He3 Hc3 Hf3 Hw. destruct (Hret s3 He3 Hc3) as [R _]; [by rewrite Hf3|by rewrite Hf3|].
  rewrite R, Hf3. cbn [run step]. unfold user_state, pop, top, set_tf_eax, frame_of. mfields.
  cbn [tf_eax tf_ecx tf_edx tf_ebx tf_esp tf_ebp tf_esi tf_edi tf_cs tf_ss tf_ds tf_es tf_fs tf_gs tf_eip tf_eflags].
  mfields. rewrite Hw. f_equal. apply u32_small. pose proof (get_reg_ok ESP s Hs) as Hsp'. cbn in Hsp'. unfold is_u32 in *. lia.
Qed.

(** The frame the kernel sees from the first user program: the number of
    [exec], and its two arguments above the place of a return address. *)
Lemma initcode_call init argv after s : is_u32 init → is_u32 argv → 12 <= m_esp s < 4294967296 →
  let s' := initcode init argv after s in
  m_eax s' = SYS_exec ∧ ld32 (m_mem s') (m_esp s' + 4) = init ∧ ld32 (m_mem s') (m_esp s' + 8) = argv.
Proof.
  intros Hi Ha Hsp s'. destruct s as [a c d b sp bp si di cs ss ds es fs gs ip fl m]. cbn [m_esp] in Hsp.
  unfold s', initcode. cbn [run step]. rewrite !u32_small by done. rewrite push_first by lia. pushes. mfields.
  split; [done|]. unfold depth. cbn [length].
  split; read_word 2%nat.
Qed.
