(* ===== verification/SyscallSpec.v ===== *)
(** * A system call from the user's call to its return

    The stub of src/user/usys.S, the entry of a trap, [trap] and [syscall] of
    the kernel, and the return, put together.  The machine's memory holds the
    trap frame that the kernel state has as [p_tf] of the current process. *)

From S2P Require Import Prelude Mem CString State Mmu Proc ProcLife Fs Disk Bio BioCorrect Rtc SysProc SysFile Console Trap ForkSpec Demo Segment Asm AsmSpec AsmTypes.

Section calls.
Context `{W : Wakeups} `{D : DiskDriver} `{DV : Devsw} `{L : Layout} `{C : Clock}.

(** The routine behind a number; a number without one fails. *)
Definition serve (num : Z) : K Z :=
  match (if (0 <? num) && (num <? 26) then mjoin (syscalls !! Z.to_nat num) else None) with
  | Some f => f
  | None => ret (-1)
  end.

Definition with_eax (r : Z) (x : proc) : proc := set_p_tf (set_tf_eax (u32 r) (p_tf x)) x.

Lemma syscall_serves k p r k1 : k_cur k = Some p →
  serve (i32 (tf_eax (p_tf (proc_at k p)))) k = Ret r k1 → syscall k = Ret tt (upd_proc p (with_eax r) k1).
Proof.
  intros Hc R. unfold syscall, curproc, myproc. mrun. rewrite Hc. mrun. change (Z.of_nat (length syscalls)) with 26.
  rewrite Z.gtb_ltb. unfold serve in R. destruct (if _ && _ then _ else _) as [f|].
  - by mcall R.
  - by injection R as <- <-.
Qed.

(** [trap] on a system call of a process that is not killed runs the routine
    on a state in which the frame is the process's, and puts its result in
    [eax]. *)
Lemma trap_serves f q k p r k1 :
  tf_trapno f = T_SYSCALL → k_cur k = Some p → (p < length (k_ptable k))%nat → p_killed (proc_at k p) = false →
  serve (i32 (tf_eax f)) (upd_proc p (set_p_tf f) k) = Ret r k1 →
  p_killed (proc_at k1 p) = false → (p < length (k_ptable k1))%nat →
  trap f q k = Ret tt (upd_proc p (with_eax r) k1).
Proof.
  intros Hn Hc Hp Hk R Hk1 Hp1. set (k0 := upd_proc p (set_p_tf f) k) in *.
  assert (syscall k0 = Ret tt (upd_proc p (with_eax r) k1)) as Rs.
  { apply syscall_serves; [done|]. unfold k0 at 1. by rewrite proc_at_upd by done. }
  unfold trap. rewrite Hn, Z.eqb_refl. unfold curproc, myproc. mrun. rewrite Hc. mrun. rewrite Hk. cbn [when]. mrun.
  unfold upd. mrun. fold k0. mcall Rs. rewrite proc_at_upd by done. 
  assert (p_killed (with_eax r (proc_at k1 p)) = false) as -> by (by destruct (proc_at k1 p)). reflexivity.
Qed.

(** C14: A system call.  When user code calls the stub with number [num], the
    kernel's [trap] gets the frame of the caller with [num] in [eax]; if the
    routine of that number, run for a process that is not killed, returns [r]
    and leaves the frame alone, [trap] returns, and the return from the trap
    and from the stub puts the caller after its call with [r] in [eax] and
    every other register, the segments and the flags as they were.  A number
    without a routine returns -1 in the same way. *)
Theorem syscall_correct vectors ts_addr kstack gdt0 idt0 alltraps trap_addr next s num after k p q r k1 :
  traps_ready vectors kstack gdt0 idt0 → machine_ok s → cpl s = 3 → is_u32 next → is_u32 num → is_u32 after →
  let t := kernel_tables vectors ts_addr kstack gdt0 idt0 in
  let tf := kstack + KSTACKSIZE - TF_SIZE in
  let f := frame_of (SYSCALL num after s) T_SYSCALL 0 in
  user_segments t (frame_of s 0 0) → m_esp s + 4 < 4294967296 →
  k_cur k = Some p → (p < length (k_ptable k))%nat → p_killed (proc_at k p) = false →
  serve (i32 num) (upd_proc p (set_p_tf f) k) = Ret r k1 →
  p_killed (proc_at k1 p) = false → (p < length (k_ptable k1))%nat → p_tf (proc_at k1 p) = f →
  ∃ s1, interrupt t true T_SYSCALL None (SYSCALL num after s) = Some s1 ∧
    let s2 := run (trap_prologue alltraps trap_addr next T_SYSCALL) s1 in
    trap_entered trap_addr next tf s2 ∧ tf_at (m_mem s2) tf = f ∧
    ∃ k2, trap (tf_at (m_mem s2) tf) q k = Ret tt k2 ∧
    ∀ s3, m_esp s3 = tf - 4 → cpl s3 = 0 → tf_at (m_mem s3) tf = p_tf (proc_at k2 p) →
      ld32 (m_mem s3) (m_esp s) = ld32 (m_mem s) (m_esp s) →
      run [Retl] (alltraps_exit t s3) =
        mkMachine (u32 r) (m_ecx s) (m_edx s) (m_ebx s) (m_esp s + 4) (m_ebp s) (m_esi s) (m_edi s)
          (m_cs s) (m_ss s) (m_ds s) (m_es s) (m_fs s) (m_gs s) (ld32 (m_mem s) (m_esp s)) (m_eflags s) (m_mem s3).
Proof.
  intros Hr Hs Hl Hnx Hnum Haf t tf f Hseg Hsp Hc Hp Hk R Hk1 Hp1 Hf1.
  destruct (syscall_stub vectors ts_addr kstack gdt0 idt0 alltraps trap_addr next s num after Hr Hs Hl Hnx Hnum Haf Hseg Hsp)
    as (s1 & Hi & He & Hf & Hret). exists s1. split; [exact Hi|]. cbv zeta in *. fold t tf in He, Hf, Hret |- *.
  split; [exact He|]. split; [exact Hf|]. rewrite Hf in Hret |- *. fold f in Hret |- *.
  assert (tf_eax f = num) as En by (unfold f; by rewrite SYSCALL_eq).
  eexists. split; [apply (trap_serves f q k p r k1); [done..|by rewrite En|done|done]|].
  intros s3 He3 Hc3 Hf3. rewrite proc_at_upd in Hf3 by done. apply Hret; [done|done|].
  rewrite Hf3, <- Hf1. unfold with_eax. by destruct (proc_at k1 p).
Qed.
End calls.

(** ** Example: getpid *)

#[local] Instance demo_wakeups : Wakeups := 1%nat.
#[local] Instance demo_clock : Clock := λ _ _, 0.

Definition demo_frame : trapframe := frame_of (SYSCALL 11 104 demo_program) T_SYSCALL 0.

Lemma syscall_correct_witness : ∃ s1, interrupt demo_tables true T_SYSCALL None (SYSCALL 11 104 demo_program) = Some s1 ∧
  let f := tf_at (m_mem (run (trap_prologue 2148549000 2148540000 2148549020 T_SYSCALL) s1)) (demo_kstack + KSTACKSIZE - TF_SIZE) in
  f = demo_frame ∧ ∃ k2, trap f (mkIrq 0 0 [] true) (demo_process kernel0) = Ret tt k2.
Proof.
  destruct (syscall_correct demo_vectors 2148600000 demo_kstack demo_gdt demo_idt 2148549000 2148540000 2148549020 demo_program
    11 104 (demo_process kernel0) 0 (mkIrq 0 0 [] true) 1 (upd_proc 0 (set_p_tf demo_frame) (demo_process kernel0))
    demo_traps_ready demo_program_ok) as (s1 & Hi & _ & Hf & k2 & Hk & _);
    [reflexivity|done|done|done|by repeat constructor|reflexivity|reflexivity|cbn; lia|reflexivity|reflexivity|reflexivity|cbn; lia|reflexivity|].
  exists s1. split; [exact Hi|]. split; [exact Hf|]. exists k2. exact Hk.
Defined.
