(* ===== verification/Uprog.v ===== *)
(** * Small user programs (src/user/cat.c, wc.c, echo.c, ls.c, kill.c, ln.c, mkdir.c, rm.c, init.c, zombie.c, date.c)

    A program is an interaction tree over the system calls it makes; [printf]
    writes one byte per call.  [exit] does not return.  What the calls do is
    the business of a handler, so that the same programs can be run on any
    model of the kernel. *)

From ITree Require Import ITree ITreeFacts Events.State Events.StateFacts.
From S2P Require Import Prelude Mem Ulib Sh.

(** ** System calls *)

(** Calls on files; [None] from [Read] is the result -1. *)
Variant ioE : Type → Type :=
| EOpen (path : list Z) (mode : Z) : ioE Z
| EClose (fd : Z) : ioE Z
| ERead (fd : Z) (n : nat) : ioE (option (list Z))
| EWrite (fd : Z) (bs : list Z) : ioE Z
| EExit (status : Z) : ioE void.

(** What [fstat] stores. *)
Record ustat := mkUstat { us_type : Z; us_ino : Z; us_size : Z }.
(** What [date] stores. *)
Record udate := mkUdate { ud_second : Z; ud_minute : Z; ud_hour : Z; ud_day : Z; ud_month : Z; ud_year : Z }.

(** Calls on processes and directories. *)
Variant sysE : Type → Type :=
| ELink (old new : list Z) : sysE Z
| EUnlink (path : list Z) : sysE Z
| EMkdir (path : list Z) : sysE Z
| EMknod (path : list Z) (major minor : Z) : sysE Z
| EKill (pid : Z) : sysE Z
| EFork : sysE Z
| EWait : sysE Z
| EExec (path : list Z) (argv : list (list Z)) : sysE Z
| EDup (fd : Z) : sysE Z
| ESleep (n : Z) : sysE Z
| EFstat (fd : Z) : sysE (option ustat)
| EDate : sysE (option udate).

Declare Scope uprog_scope.
Delimit Scope uprog_scope with uprog.
Notation "'let*' x ':=' t 'in' k" := (ITree.bind t (λ x, k)) (at level 200, x name, right associativity) : uprog_scope.
Notation "t ';*' k" := (ITree.bind t (λ _, k)) (at level 199, right associativity) : uprog_scope.
#[local] Open Scope uprog_scope.

Definition done_with {E R} (x : R) : itree E R := go (RetF x).

Section programs.
Context {E : Type → Type} {HI : ioE -< E}.

Definition sys_open (path : list Z) (mode : Z) : itree E Z := trigger (EOpen path mode).
Definition sys_close (fd : Z) : itree E Z := trigger (EClose fd).
Definition sys_read (fd : Z) (n : nat) : itree E (option (list Z)) := trigger (ERead fd n).
Definition sys_write (fd : Z) (bs : list Z) : itree E Z := trigger (EWrite fd bs).
Definition sys_exit {A} (status : Z) : itree E A := let* x := trigger (EExit status) in match x : void with end.

(** [printf(fd, fmt, ...)]: [putc] writes one byte at a time. *)
Fixpoint put (fd : Z) (cs : list Z) : itree E unit :=
  match cs with
  | [] => done_with tt
  | c :: cs => sys_write fd [c] ;* put fd cs
  end.
Definition uprintf (fd : Z) (fmt : list Z) (args : list parg) : itree E unit := put fd (printf fmt args).
Definition str (s : list Z) : parg := mkParg 1 s.
Definition num (n : Z) : parg := mkParg n [].

(** ** cat.c *)

Definition cat (fd : Z) : itree E unit :=
  ITree.iter (λ _ : unit,
    let* n := sys_read fd 512 in
    match n with
    | Some [] => done_with (inr tt)
    | Some bs =>
        let* r := sys_write 1 bs in
        if negb (r =? length bs)
        then uprintf 1 (text "cat: write error" ++ NL) [] ;* sys_exit 0
        else done_with (inl tt)
    | None => uprintf 1 (text "cat: read error" ++ NL) [] ;* sys_exit 0
    end) tt.

Fixpoint cat_files (names : list (list Z)) : itree E unit :=
  match names with
  | [] => sys_exit 0
  | name :: names =>
      let* fd := sys_open name 0 in
      if fd <? 0 then uprintf 1 (text "cat: cannot open %s" ++ NL) [str name] ;* sys_exit 0
      else cat fd ;* sys_close fd ;* cat_files names
  end.
(** [main]; the arguments after the name of the program. *)
Definition cat_main (args : list (list Z)) : itree E unit :=
  match args with
  | [] => cat 0 ;* sys_exit 0
  | _ => cat_files args
  end.

(** ** wc.c *)

(** [strchr(" \r\t\n\v", c)] *)
Definition wc_space (c : Z) : bool := has [32; 13; 9; 10; 11] c.

(** The counters [l], [w], [c] and [inword]. *)
Record wcount := mkWcount { wc_l : Z; wc_w : Z; wc_c : Z; wc_in : bool }.

Definition wc_char (k : wcount) (x : Z) : wcount :=
  let c := i32 (wc_c k + 1) in
  let l := if x =? 10 then i32 (wc_l k + 1) else wc_l k in
  if wc_space x then mkWcount l (wc_w k) c false
  else if negb (wc_in k) then mkWcount l (i32 (wc_w k + 1)) c true
  else mkWcount l (wc_w k) c true.

Definition wc_read (fd : Z) : itree E wcount :=
  ITree.iter (λ k : wcount,
    let* n := sys_read fd 512 in
    match n with
    | Some [] => done_with (inr k)
    | Some bs => done_with (inl (foldl wc_char k bs))
    | None => uprintf 1 (text "wc: read error" ++ NL) [] ;* sys_exit 0
    end) (mkWcount 0 0 0 false).
Definition wc (fd : Z) (name : list Z) : itree E unit :=
  let* k := wc_read fd in
  uprintf 1 (text "%d %d %d %s" ++ NL) [num (wc_l k); num (wc_w k); num (wc_c k); str name].

Fixpoint wc_files (names : list (list Z)) : itree E unit :=
  match names with
  | [] => sys_exit 0
  | name :: names =>
      let* fd := sys_open name 0 in
      if fd <? 0 then uprintf 1 (text "wc: cannot open %s" ++ NL) [str name] ;* sys_exit 0
      else wc fd name ;* sys_close fd ;* wc_files names
  end.
Definition wc_main (args : list (list Z)) : itree E unit :=
  match args with
  | [] => wc 0 [] ;* sys_exit 0
  | _ => wc_files args
  end.

(** ** echo.c *)

Fixpoint echo_loop (args : list (list Z)) : itree E unit :=
  match args with
  | [] => sys_exit 0
  | a :: rest =>
      uprintf 1 (text "%s%s") [str a; str (match rest with [] => NL | _ => text " " end)] ;* echo_loop rest
  end.
Definition echo_main (args : list (list Z)) : itree E unit := echo_loop args.
End programs.

(** ** Programs that use the other calls *)

Definition T_DIR : Z := 1.
Definition T_FILE : Z := 2.
Definition DIRSIZ : nat := 14.
Definition O_RDWR : Z := 2.

(** [fmtname]: what follows the last slash, padded with blanks. *)
Definition after_slash (path : list Z) : list Z :=
  reverse (take (run_length (λ c, negb (c =? 47)) (reverse path)) (reverse path)).
Definition fmtname (path : list Z) : list Z :=
  let p := after_slash path in
  if bool_decide (DIRSIZ ≤ length p)%nat then p else p ++ replicate (DIRSIZ - length p) 32.

Section more_programs.
Context {E : Type → Type} {HI : ioE -< E} {HS : sysE -< E}.

(** [stat] of the library. *)
Definition ustat_path (path : list Z) : itree E (option ustat) :=
  let* fd := sys_open path O_RDONLY in
  if fd <? 0 then done_with None
  else
    let* r := trigger (EFstat fd) in
    sys_close fd ;* done_with r.

Definition ls_line (name : list Z) (st : ustat) : itree E unit :=
  uprintf 1 (text "%s %d %d %d" ++ NL) [str (fmtname name); num (us_type st); num (us_ino st); num (us_size st)].

(** The loop over the entries of a directory: 16 bytes each, the inode number
    and the name. *)
Definition ls_dir (fd : Z) (path : list Z) : itree E unit :=
  ITree.iter (λ _ : unit,
    let* r := sys_read fd 16 in
    match r with
    | Some (lo :: hi :: name) =>
        if negb (Nat.eqb (length name) DIRSIZ) then done_with (inr tt)
        else if lo + 256 * hi =? 0 then done_with (inl tt)
        else
          let buf := path ++ [47] ++ cstr name 0 in
          let* st := ustat_path buf in
          match st with
          | None => uprintf 1 (text "ls: cannot stat %s" ++ NL) [str buf] ;* done_with (inl tt)
          | Some st => ls_line buf st ;* done_with (inl tt)
          end
    | _ => done_with (inr tt)
    end) tt.

Definition ls (path : list Z) : itree E unit :=
  let* fd := sys_open path 0 in
  if fd <? 0 then uprintf 2 (text "ls: cannot open %s" ++ NL) [str path]
  else
    let* o := trigger (EFstat fd) in
    match o with
    | None => uprintf 2 (text "ls: cannot stat %s" ++ NL) [str path] ;* sys_close fd ;* done_with tt
    | Some st =>
        (if us_type st =? T_FILE then ls_line path st
         else if us_type st =? T_DIR then
           if bool_decide (512 < length path + 1 + DIRSIZ + 1)%nat then uprintf 1 (text "ls: path too long" ++ NL) []
           else ls_dir fd path
         else done_with tt) ;*
        sys_close fd ;* done_with tt
    end.

Fixpoint ls_files (names : list (list Z)) : itree E unit :=
  match names with
  | [] => sys_exit 0
  | name :: names => ls name ;* ls_files names
  end.
Definition ls_main (args : list (list Z)) : itree E unit :=
  match args with [] => ls (text ".") ;* sys_exit 0 | _ => ls_files args end.

(** kill.c *)
Fixpoint kill_loop (args : list (list Z)) : itree E unit :=
  match args with
  | [] => sys_exit 0
  | a :: args => trigger (EKill (atoi a)) ;* kill_loop args
  end.
Definition kill_main (args : list (list Z)) : itree E unit :=
  match args with
  | [] => uprintf 2 (text "usage: kill pid..." ++ NL) [] ;* sys_exit 0
  | _ => kill_loop args
  end.

(** ln.c *)
Definition ln_main (args : list (list Z)) : itree E unit :=
  match args with
  | [old; new] =>
      let* r := trigger (ELink old new) in
      (if r <? 0 then uprintf 2 (text "link %s %s: failed" ++ NL) [str old; str new] else done_with tt) ;* sys_exit 0
  | _ => uprintf 2 (text "Usage: ln old new" ++ NL) [] ;* sys_exit 0
  end.

(** mkdir.c and rm.c: the loop stops at the first name that fails. *)
Fixpoint each (call : list Z → itree E Z) (failed : list Z) (args : list (list Z)) : itree E unit :=
  match args with
  | [] => sys_exit 0
  | a :: args =>
      let* r := call a in
      if r <? 0 then uprintf 2 failed [str a] ;* sys_exit 0 else each call failed args
  end.
Definition mkdir_main (args : list (list Z)) : itree E unit :=
  match args with
  | [] => uprintf 2 (text "Usage: mkdir files..." ++ NL) [] ;* sys_exit 0
  | _ => each (λ a, trigger (EMkdir a)) (text "mkdir: %s failed to create" ++ NL) args
  end.
Definition rm_main (args : list (list Z)) : itree E unit :=
  match args with
  | [] => uprintf 2 (text "Usage: rm files..." ++ NL) [] ;* sys_exit 0
  | _ => each (λ a, trigger (EUnlink a)) (text "rm: %s failed to delete" ++ NL) args
  end.

(** zombie.c *)
Definition zombie_main : itree E unit :=
  let* pid := trigger EFork in
  (if pid >? 0 then trigger (ESleep 5) ;* done_with tt else done_with tt) ;* sys_exit 0.

(** date.c *)
Definition date_main : itree E unit :=
  let* o := trigger EDate in
  match o with
  | None => uprintf 2 (text " date failed " ++ NL) [] ;* sys_exit 0
  | Some r =>
      uprintf 1 (text "%d/%d/%d %d:%d:%d" ++ NL)
        [num (ud_day r); num (ud_month r); num (ud_year r); num (ud_hour r); num (ud_minute r); num (ud_second r)] ;*
      sys_exit 0
  end.

(** init.c: the loop that waits for the shell, and the loop for ever. *)
Definition init_wait (pid : Z) : itree E unit :=
  ITree.iter (λ _ : unit,
    let* wpid := trigger EWait in
    if (0 <=? wpid) && negb (wpid =? pid) then uprintf 1 (text "zombie!" ++ NL) [] ;* done_with (inl tt)
    else done_with (inr tt)) tt.
Definition init_round : itree E unit :=
  uprintf 1 (text "init: starting sh" ++ NL) [] ;*
  let* pid := trigger EFork in
  if pid <? 0 then uprintf 1 (text "init: fork failed" ++ NL) [] ;* sys_exit 0
  else if pid =? 0 then
    trigger (EExec (text "sh") [text "sh"]) ;*
    uprintf 1 (text "init: exec sh failed" ++ NL) [] ;* sys_exit 0
  else init_wait pid.
Definition init_main : itree E unit :=
  let* fd := sys_open (text "console") O_RDWR in
  (if fd <? 0 then trigger (EMknod (text "console") 1 1) ;* sys_open (text "console") O_RDWR ;* done_with tt
   else done_with tt) ;*
  trigger (EDup 0) ;* trigger (EDup 0) ;*
  ITree.iter (λ _ : unit, init_round ;* done_with (inl tt)) tt.
End more_programs.
