(* ===== verification/UprogSpec.v ===== *)
(** * cat and wc do what they are for

    The programs of Uprog.v run on a model of files: a file, or whatever a
    descriptor is connected to, delivers its bytes in pieces of any sizes and
    may fail at its end.  However the bytes are cut up, [cat] copies them and
    [wc] counts them, file by file, up to the first that cannot be opened or
    read; both end. *)

From ITree Require Import ITree ITreeFacts Events.State Events.StateFacts.
From S2P Require Import Prelude Mem Ulib Sh Uprog.
#[local] Open Scope uprog_scope.

(** ** Files *)

(** The pieces a file delivers, and whether it ends with an error. *)
Record source := mkSource { sr_pieces : list (list Z); sr_fails : bool }.
Definition source_ok (s : source) : Prop := Forall (λ p, p ≠ []) (sr_pieces s).
Definition contents (s : source) : list Z := concat (sr_pieces s).

(** The files there are, the open descriptors, and what has been written to
    the descriptor 1. *)
Record world := mkWorld { w_files : gmap (list Z) source; w_fds : gmap Z source; w_out : list Z }.

Definition set_fds (t : gmap Z source) (w : world) : world := mkWorld (w_files w) t (w_out w).
Definition wrote (bs : list Z) (w : world) : world := mkWorld (w_files w) (w_fds w) (w_out w ++ bs).

(** The lowest free descriptor of 16. *)
Definition free_fd (t : gmap Z source) : option Z := Z.of_nat <$> find_index (λ i : nat, bool_decide (t !! Z.of_nat i = None)) (seq 0 16).

(** What is left of a source after a read of [n] bytes. *)
Definition after_read (n : nat) (s : source) : source :=
  match sr_pieces s with
  | [] => s
  | p :: ps => mkSource (match drop n p with [] => ps | rest => rest :: ps end) (sr_fails s)
  end.
Definition read_result (n : nat) (s : source) : option (list Z) :=
  match sr_pieces s with
  | [] => if sr_fails s then None else Some []
  | p :: _ => Some (take n p)
  end.

(** A process that has ended. *)
Variant endE : Type → Type := Ended (w : world) : endE void.

Definition handle : ioE ~> Monads.stateT world (itree endE) := λ _ e w,
  match e with
  | EOpen path _ =>
      match w_files w !! path, free_fd (w_fds w) with
      | Some s, Some fd => done_with (set_fds (<[fd := s]> (w_fds w)) w, fd)
      | _, _ => done_with (w, -1)
      end
  | EClose fd => done_with (set_fds (delete fd (w_fds w)) w, 0)
  | ERead fd n =>
      match w_fds w !! fd with
      | Some s => done_with (set_fds (<[fd := after_read n s]> (w_fds w)) w, read_result n s)
      | None => done_with (w, None)
      end
  | EWrite fd bs => done_with (if fd =? 1 then wrote bs w else w, Z.of_nat (length bs))
  | EExit _ => ITree.bind (ITree.trigger (Ended w)) (λ x : void, match x with end)
  end.

Definition ended {A} (w : world) : itree endE A := ITree.bind (ITree.trigger (Ended w)) (λ x : void, match x with end).

Notation runs p w := (interp_state handle p w).

(** ** Single calls *)

Lemma run_bind {A B} (t : itree ioE A) (k : A → itree ioE B) w :
  runs (ITree.bind t k) w ≈ ITree.bind (runs t w) (λ r, runs (k (snd r)) (fst r)).
Proof. rewrite interp_state_bind. reflexivity. Qed.

Lemma run_call {A B} (e : ioE A) (k : A → itree ioE B) w w' a :
  handle A e w = done_with (w', a) → runs (ITree.bind (trigger e) k) w ≈ runs (k a) w'.
Proof.
  intros H. rewrite run_bind. rewrite interp_state_trigger.
  change (subevent A e) with e. rewrite H. unfold done_with. rewrite Eqit.bind_ret_l. reflexivity.
Qed.

Lemma run_exit {A} w : runs (@sys_exit ioE _ A 0) w ≈ ended w.
Proof.
  unfold sys_exit. rewrite run_bind. rewrite interp_state_trigger. change (subevent void (EExit 0)) with (EExit 0).
  cbn [handle]. rewrite bind_bind. unfold ended. apply eutt_eq_bind. intros [].
Qed.

Lemma ended_then {A B} w (k : A → itree endE B) : ITree.bind (ended w) k ≈ ended w.
Proof. unfold ended. rewrite bind_bind. apply eutt_eq_bind. intros []. Qed.

Lemma run_then_exit {A B} (k : A → itree ioE B) w : runs (ITree.bind (sys_exit 0) k) w ≈ ended w.
Proof. by rewrite run_bind, run_exit, ended_then. Qed.

Lemma run_put_end cs : ∀ w, runs (@put ioE _ 1 cs) w ≈ done_with (wrote cs w, tt).
Proof.
  induction cs as [|c cs IH]; intros w; cbn [put].
  - unfold done_with. rewrite interp_state_ret. destruct w. unfold wrote. cbn. by rewrite app_nil_r.
  - rewrite (run_call (EWrite 1 [c]) _ w (wrote [c] w) 1) by done. rewrite IH.
    unfold wrote. cbn [w_files w_fds w_out]. by rewrite <- app_assoc.
Qed.

Lemma run_put cs {B} (k : itree ioE B) w : runs (put 1 cs ;* k) w ≈ runs k (wrote cs w).
Proof. rewrite run_bind, run_put_end. unfold done_with. by rewrite Eqit.bind_ret_l. Qed.

(** ** Reading a source to its end *)

Lemma after_read_ok n s : source_ok s → source_ok (after_read n s).
Proof.
  unfold source_ok, after_read. destruct s as [[|p ps] f]; cbn [sr_pieces]; [done|]. intros [Hp Hps]%Forall_cons.
  destruct (drop n p) eqn:E; cbn [sr_pieces]; [done|]. by constructor.
Qed.

Lemma contents_read n p ps f : contents (mkSource (p :: ps) f) = take n p ++ contents (after_read n (mkSource (p :: ps) f)).
Proof.
  unfold contents, after_read. cbn [sr_pieces concat]. rewrite <- (take_drop n p) at 1. rewrite <- app_assoc.
  by destruct (drop n p).
Qed.

Lemma after_read_fails n s : sr_fails (after_read n s) = sr_fails s.
Proof. unfold after_read. by destruct (sr_pieces s). Qed.

Lemma take_piece (p : list Z) : p ≠ [] → ∃ c bs, take 512 p = c :: bs.
Proof. destruct p as [|c p]; [done|]. intros _. by exists c, (take 511 p). Qed.

(** The source that has been read to its end. *)
Definition empty (s : source) : source := mkSource [] (sr_fails s).

Lemma empty_after n s : empty (after_read n s) = empty s.
Proof. unfold empty. by rewrite after_read_fails. Qed.

(** One turn of a loop that reads. *)
Lemma read_turn {B} (k : option (list Z) → itree ioE B) fd s w : w_fds w !! fd = Some s →
  runs (ITree.bind (sys_read fd 512) k) w ≈ runs (k (read_result 512 s)) (set_fds (<[fd := after_read 512 s]> (w_fds w)) w).
Proof. intros H. apply (run_call (ERead fd 512)). cbn [handle]. by rewrite H. Qed.

(** ** A loop over files *)

Lemma free_fd_spec t fd : free_fd t = Some fd → 0 <= fd ∧ t !! fd = None.
Proof.
  unfold free_fd. intros (i & Hi & ->)%fmap_Some. apply find_index_Some in Hi as [(x & Hx & Hd) _].
  apply lookup_seq in Hx as [-> _]. apply bool_decide_eq_true in Hd. split; [lia|exact Hd].
Qed.

(** The message with a name in it. *)
Lemma printf_name (pre : list Z) name : Forall (λ c, c ≠ 37) pre → printf (pre ++ [37; 115] ++ NL) [str name] = pre ++ name ++ NL.
Proof.
  unfold printf. induction pre as [|c pre IH]; intros H; [done|]. apply Forall_cons in H as [Hc H].
  cbn [app printf_loop]. rewrite (proj2 (Z.eqb_neq _ _) Hc). f_equal. by apply IH.
Qed.

(** A world in which programs can run: sources deliver non-empty pieces and a
    descriptor is free. *)
Record world_ok (w : world) : Prop := {
  wk_files : map_Forall (λ _ s, source_ok s) (w_files w);
  wk_free : is_Some (free_fd (w_fds w))
}.

(** Opening a file, or not. *)
Lemma open_turn {B} (k : Z → itree ioE B) name w : world_ok w →
  (w_files w !! name = None ∧ runs (ITree.bind (sys_open name 0) k) w ≈ runs (k (-1)) w) ∨
  ∃ s fd, w_files w !! name = Some s ∧ source_ok s ∧ 0 <= fd ∧ w_fds w !! fd = None ∧
    runs (ITree.bind (sys_open name 0) k) w ≈ runs (k fd) (set_fds (<[fd := s]> (w_fds w)) w).
Proof.
  intros [Hf [fd Hfd]]. destruct (w_files w !! name) as [s|] eqn:E.
  - right. exists s, fd. destruct (free_fd_spec _ _ Hfd). split_and!; [done|exact (Hf _ _ E)|done|done|].
    apply (run_call (EOpen name 0)). cbn [handle]. by rewrite E, Hfd.
  - left. split; [done|]. apply (run_call (EOpen name 0)). cbn [handle]. by rewrite E.
Qed.

(** One turn of the loop over the arguments: [prog] reads a source to its end,
    prints [out] and exits if the source failed. *)
Definition consumes (prog : Z → itree ioE unit) (s : source) (out : list Z) : Prop := ∀ fd w, w_fds w !! fd = Some s →
  let w' := set_fds (<[fd := empty s]> (w_fds w)) (wrote out w) in
  runs (prog fd) w ≈ if sr_fails s then ended w' else done_with (w', tt).

Lemma file_turn (prog : Z → itree ioE unit) (rest : itree ioE unit) (msg out : list Z) name w : world_ok w →
  (∀ s, w_files w !! name = Some s → source_ok s → consumes prog s out) →
  let turn := let* fd := sys_open name 0 in
    if fd <? 0 then put 1 msg ;* sys_exit 0 else prog fd ;* sys_close fd ;* rest in
  match w_files w !! name with
  | None => runs turn w ≈ ended (wrote msg w)
  | Some s => if sr_fails s then ∃ t, runs turn w ≈ ended (mkWorld (w_files w) t (w_out w ++ out))
              else runs turn w ≈ runs rest (wrote out w)
  end.
Proof.
  intros Hw Hprog. cbv zeta.
  destruct (open_turn (λ fd, if fd <? 0 then put 1 msg ;* sys_exit 0 else prog fd ;* sys_close fd ;* rest) name w Hw)
    as [[E R]|(s & fd & E & Hs & Hfd & Hnew & R)]; rewrite E.
  - rewrite R. cbn [Z.ltb Z.compare]. by rewrite run_put, run_exit.
  - rewrite (proj2 (Z.ltb_ge _ _)) in R by lia. set (w1 := set_fds _ w) in R.
    pose proof (Hprog s E Hs fd w1 (lookup_insert_eq _ _ _)) as Rc. cbv zeta in Rc.
    rewrite (run_bind (prog fd)), Rc in R. destruct (sr_fails s).
    + exists (<[fd := empty s]> (w_fds w1)). by rewrite R, ended_then.
    + unfold done_with in R. rewrite Eqit.bind_ret_l in R. cbn [fst snd] in R.
      unfold sys_close in R. rewrite (run_call (EClose fd) _ _ _ _ eq_refl) in R. rewrite R.
      unfold w1, wrote, set_fds. cbn [w_files w_fds w_out]. by rewrite insert_insert_eq, delete_insert_id.
Qed.

(** What such a program prints for its arguments: it stops at the first file it
    cannot open or read. *)
Fixpoint files_output (missing : list Z → list Z) (out : list Z → source → list Z) (files : gmap (list Z) source)
    (names : list (list Z)) : list Z :=
  match names with
  | [] => []
  | name :: names =>
      match files !! name with
      | None => missing name
      | Some s => out name s ++ if sr_fails s then [] else files_output missing out files names
      end
  end.

Lemma files_run (progs : list (list Z) → itree ioE unit) (prog : list Z → Z → itree ioE unit) (missing : list Z → list Z)
    (out : list Z → source → list Z) (good : source → Prop) :
  progs [] = sys_exit 0 →
  (∀ name names, progs (name :: names) = (let* fd := sys_open name 0 in
    if fd <? 0 then put 1 (missing name) ;* sys_exit 0 else prog name fd ;* sys_close fd ;* progs names)) →
  (∀ name s, source_ok s → good s → consumes (prog name) s (out name s)) →
  ∀ names w, world_ok w → map_Forall (λ _ s, good s) (w_files w) →
  ∃ t, runs (progs names) w ≈ ended (mkWorld (w_files w) t (w_out w ++ files_output missing out (w_files w) names)).
Proof.
  intros H0 Hs Hprog. induction names as [|name names IH]; intros w Hw Hg; cbn [files_output].
  { exists (w_fds w). rewrite H0, run_exit, app_nil_r. destruct w. reflexivity. }
  rewrite Hs. pose proof (file_turn (prog name) (progs names) (missing name)) as T.
  destruct (w_files w !! name) as [s|] eqn:E.
  - specialize (T (out name s) name w Hw). rewrite E in T.
    specialize (T ltac:(intros ? [= <-] ?; apply Hprog; [done|exact (Hg _ _ E)])). cbv zeta in T.
    destruct (sr_fails s); [by rewrite app_nil_r|].
    destruct (IH (wrote (out name s) w)) as [t Ht]; [by destruct Hw|done|].
    exists t. rewrite T, Ht. cbn [w_files w_out wrote]. by rewrite <- app_assoc.
  - specialize (T [] name w Hw). rewrite E in T. specialize (T ltac:(done)). exists (w_fds w). exact T.
Qed.

(** ** cat *)

Definition cat_error : list Z := text "cat: read error" ++ NL.

Lemma cat_run n : ∀ fd s w, (length (contents s) < n)%nat → w_fds w !! fd = Some s → source_ok s →
  let w' := set_fds (<[fd := empty s]> (w_fds w)) (wrote (contents s) w) in
  runs (cat fd) w ≈ if sr_fails s then ended (wrote cat_error w') else done_with (w', tt).
Proof.
  induction n as [|n IH]; intros fd s w Hn Hs Hok w'; [lia|]. unfold cat. rewrite unfold_iter, bind_bind.
  rewrite (read_turn _ fd s w Hs). destruct s as [[|p ps] f].
  - assert (set_fds (<[fd := after_read 512 (mkSource [] f)]> (w_fds w)) w = w') as ->.
    { unfold w'. destruct w. unfold set_fds, wrote, contents. cbn. by rewrite app_nil_r. }
    destruct f; cbn [read_result sr_pieces sr_fails].
    + rewrite bind_bind. unfold uprintf. rewrite run_put, run_then_exit. reflexivity.
    + unfold done_with at 1. rewrite Eqit.bind_ret_l. rewrite interp_state_ret. reflexivity.
  - pose proof Hok as [Hp _]%Forall_cons. destruct (take_piece p Hp) as (c & bs & Et).
    cbn [read_result sr_pieces]. rewrite Et, bind_bind.
    rewrite (run_call (EWrite 1 (c :: bs)) _ _ _ _ eq_refl). cbn [Z.eqb Pos.eqb]. rewrite Z.eqb_refl. cbn [negb].
    unfold done_with at 1. rewrite Eqit.bind_ret_l, interp_state_tau, tau_eutt.
    set (s1 := after_read 512 (mkSource (p :: ps) f)). set (w1 := wrote _ _).
    pose proof (contents_read 512 p ps f) as Ec. fold s1 in Ec. rewrite Et in Ec.
    assert (set_fds (<[fd := empty s1]> (w_fds w1)) (wrote (contents s1) w1) = w') as Ew.
    { unfold w', w1, set_fds, wrote. cbn [w_files w_fds w_out]. unfold s1 at 1.
      by rewrite insert_insert_eq, empty_after, Ec, <- app_assoc. }
    fold (@cat ioE _ fd). rewrite (IH fd s1 w1), Ew.
    + unfold s1 at 1. rewrite after_read_fails. reflexivity.
    + rewrite Ec, length_app in Hn. cbn [length] in Hn. lia.
    + apply lookup_insert_eq.
    + by apply after_read_ok.
Qed.

Definition cat_out (s : source) : list Z := contents s ++ if sr_fails s then cat_error else [].

Lemma cat_consumes s : source_ok s → consumes cat s (cat_out s).
Proof.
  intros Hok fd w Hs w'. rewrite (cat_run (S (length (contents s))) fd s w) by (done || lia).
  unfold w', cat_out. destruct (sr_fails s); [|by rewrite app_nil_r].
  unfold wrote, set_fds. cbn [w_files w_fds w_out]. by rewrite <- app_assoc.
Qed.

Lemma cat_files_run names w : world_ok w →
  ∃ t, runs (cat_files names) w ≈ ended (mkWorld (w_files w) t (w_out w ++
    files_output (λ name, text "cat: cannot open " ++ name ++ NL) (λ _, cat_out) (w_files w) names)).
Proof.
  intros Hw. apply (files_run cat_files (λ _, cat) _ _ (λ _, True)); [done| |by intros; apply cat_consumes|done|done].
  intros name rest. cbn [cat_files]. unfold uprintf.
  change (text "cat: cannot open %s" ++ NL) with (text "cat: cannot open " ++ [37; 115] ++ NL).
  by rewrite printf_name by (by repeat constructor).
Qed.

(** [cat] copies: without arguments it writes what the descriptor 0
    delivers, with arguments what the named files hold, one after the other; a
    source that fails at its end adds the message of a read error and a name
    that cannot be opened its own message, and either stops it.  In whatever
    pieces the bytes arrive, every byte is written once, in order, and [cat]
    ends. *)
Theorem cat_correct w : world_ok w →
  (∀ s, w_fds w !! 0 = Some s → source_ok s → ∃ t, runs (cat_main []) w ≈ ended (mkWorld (w_files w) t (w_out w ++ cat_out s))) ∧
  (∀ name names, ∃ t, runs (cat_main (name :: names)) w ≈ ended (mkWorld (w_files w) t (w_out w ++
    files_output (λ name, text "cat: cannot open " ++ name ++ NL) (λ _, cat_out) (w_files w) (name :: names)))).
Proof.
  intros Hw. split; [|intros; by apply cat_files_run].
  intros s Hs Hok. exists (<[0 := empty s]> (w_fds w)). unfold cat_main. rewrite run_bind, (cat_consumes s Hok 0 w Hs).
  destruct (sr_fails s); [by rewrite ended_then|].
  unfold done_with. rewrite Eqit.bind_ret_l, run_exit. reflexivity.
Qed.

(** ** wc *)

Definition wc_error : list Z := text "wc: read error" ++ NL.

(** Lines, words and bytes: a word starts where a byte that is not a space
    follows one that is, or is the first. *)
Definition lines (bs : list Z) : Z := length (filter (λ c, c = 10) bs).
Definition words_after (prev : Z) (bs : list Z) : Z :=
  length (filter (λ ab, wc_space (fst ab) = true ∧ wc_space (snd ab) = false) (zip (prev :: bs) bs)).
Definition words (bs : list Z) : Z := words_after 32 bs.

Definition wc_report (name : list Z) (bs : list Z) : list Z :=
  let dec n := printint n 10 true in
  dec (lines bs) ++ [32] ++ dec (words bs) ++ [32] ++ dec (length bs) ++ [32] ++ name ++ NL.
Definition wc_out (name : list Z) (s : source) : list Z :=
  if sr_fails s then wc_error else wc_report name (contents s).

Lemma wc_count bs : ∀ prev l w c, 0 <= l <= c → 0 <= w <= c → c + length bs < 2 ^ 31 →
  ∃ b, foldl wc_char (mkWcount l w c (negb (wc_space prev))) bs = mkWcount (l + lines bs) (w + words_after prev bs) (c + length bs) b.
Proof.
  induction bs as [|x bs IH]; intros prev l w c Hl Hw Hc.
  { eexists. cbn. by rewrite !Z.add_0_r. }
  cbn [length] in Hc. cbn [foldl].
  assert (∀ n, 0 <= n <= c → i32 (n + 1) = n + 1) as Hi by (intros; apply i32_small; lia).
  assert (lines (x :: bs) = (if x =? 10 then 1 else 0) + lines bs) as ->.
  { unfold lines. rewrite filter_cons. destruct (Z.eqb_spec x 10), (decide (x = 10)); try done. cbn [length]. lia. }
  assert (words_after prev (x :: bs) = (if wc_space prev && negb (wc_space x) then 1 else 0) + words_after x bs) as ->.
  { unfold words_after. cbn [zip_with]. rewrite filter_cons. cbn [fst snd].
    case_decide as D; [destruct D as [-> ->]; cbn [length andb negb]; lia|].
    destruct (wc_space prev), (wc_space x); cbn [andb negb]; (lia || by destruct D). }
  unfold wc_char at 2. cbn [wc_l wc_w wc_c wc_in]. rewrite !Hi by lia.
  destruct (IH x (if x =? 10 then l + 1 else l) (if wc_space prev && negb (wc_space x) then w + 1 else w) (c + 1)) as [b Hb];
    [destruct (x =? 10); lia|destruct (_ && _); lia|lia|].
  exists b. etrans; [etrans; [|exact Hb]|].
  - f_equal. by destruct (wc_space prev), (wc_space x).
  - cbn [length]. f_equal; [destruct (x =? 10)|destruct (_ && _)|]; lia.
Qed.

Lemma wc_counts bs : length bs < 2 ^ 31 →
  ∃ b, foldl wc_char (mkWcount 0 0 0 false) bs = mkWcount (lines bs) (words bs) (length bs) b.
Proof. intros H. apply (wc_count bs 32); lia. Qed.

Lemma wc_printf l w c name : printf (text "%d %d %d %s" ++ NL) [num l; num w; num c; str name] =
  printint (i32 l) 10 true ++ [32] ++ printint (i32 w) 10 true ++ [32] ++ printint (i32 c) 10 true ++ [32] ++ name ++ NL.
Proof. reflexivity. Qed.

(** The loop that reads, from any counts. *)
Definition wc_turn (fd : Z) (k : wcount) : itree ioE (wcount + wcount) :=
  let* n := sys_read fd 512 in
  match n with
  | Some [] => done_with (inr k)
  | Some bs => done_with (inl (foldl wc_char k bs))
  | None => uprintf 1 (text "wc: read error" ++ NL) [] ;* sys_exit 0
  end.

Lemma wc_loop n : ∀ fd s w k, (length (contents s) < n)%nat → w_fds w !! fd = Some s → source_ok s →
  let w' := set_fds (<[fd := empty s]> (w_fds w)) w in
  runs (ITree.iter (wc_turn fd) k) w ≈ if sr_fails s then ended (wrote wc_error w') else done_with (w', foldl wc_char k (contents s)).
Proof.
  induction n as [|n IH]; intros fd s w k Hn Hs Hok w'; [lia|]. rewrite unfold_iter. unfold wc_turn at 1. rewrite bind_bind.
  rewrite (read_turn _ fd s w Hs). destruct s as [[|p ps] f].
  - destruct f; cbn [read_result sr_pieces sr_fails].
    + rewrite bind_bind. unfold uprintf. rewrite run_put, run_then_exit. reflexivity.
    + unfold done_with at 1. rewrite Eqit.bind_ret_l. rewrite interp_state_ret. reflexivity.
  - pose proof Hok as [Hp _]%Forall_cons. destruct (take_piece p Hp) as (c & bs & Et).
    cbn [read_result sr_pieces]. rewrite Et.
    unfold done_with at 1. rewrite Eqit.bind_ret_l, interp_state_tau, tau_eutt.
    set (s1 := after_read 512 (mkSource (p :: ps) f)). set (w1 := set_fds _ w).
    pose proof (contents_read 512 p ps f) as Ec. fold s1 in Ec. rewrite Et in Ec.
    assert (set_fds (<[fd := empty s1]> (w_fds w1)) w1 = w') as Ew.
    { unfold w', w1, set_fds. cbn [w_files w_fds w_out]. unfold s1 at 1. by rewrite insert_insert_eq, empty_after. }
    rewrite (IH fd s1 w1), Ew.
    + rewrite Ec, foldl_app. unfold s1 at 1. rewrite after_read_fails. reflexivity.
    + rewrite Ec, length_app in Hn. cbn [length] in Hn. lia.
    + apply lookup_insert_eq.
    + by apply after_read_ok.
Qed.

Lemma filter_length_le {A} (P : A → Prop) `{∀ x, Decision (P x)} (l : list A) : (length (filter P l) ≤ length l)%nat.
Proof. induction l as [|x l IH]; [done|]. rewrite filter_cons. case_decide; cbn [length]; lia. Qed.

Lemma wc_consumes name s : source_ok s → length (contents s) < 2 ^ 31 → consumes (λ fd, wc fd name) s (wc_out name s).
Proof.
  intros Hok Hlen fd w Hs w'. unfold wc, wc_read. rewrite run_bind.
  pose proof (wc_loop (S (length (contents s))) fd s w (mkWcount 0 0 0 false) ltac:(lia) Hs Hok) as R. cbv zeta in R.
  unfold wc_turn in R. rewrite R. unfold w', wc_out. destruct (sr_fails s); [by rewrite ended_then|].
  unfold done_with at 1. rewrite Eqit.bind_ret_l. cbn [fst snd].
  destruct (wc_counts (contents s) Hlen) as [b ->]. cbn [wc_l wc_w wc_c]. unfold uprintf. rewrite wc_printf.
  pose proof (filter_length_le (λ c, c = 10) (contents s)) as Hl.
  pose proof (filter_length_le (λ ab, wc_space (fst ab) = true ∧ wc_space (snd ab) = false) (zip (32 :: contents s) (contents s))) as Hw.
  rewrite length_zip_with in Hw. rewrite !i32_small by (unfold lines, words, words_after; lia).
  by rewrite run_put_end.
Qed.

Lemma wc_files_run names w : world_ok w → map_Forall (λ _ s, length (contents s) < 2 ^ 31) (w_files w) →
  ∃ t, runs (wc_files names) w ≈ ended (mkWorld (w_files w) t (w_out w ++
    files_output (λ name, text "wc: cannot open " ++ name ++ NL) wc_out (w_files w) names)).
Proof.
  intros Hw Hlen. apply (files_run wc_files (λ name fd, wc fd name) _ _ (λ s, length (contents s) < 2 ^ 31));
    [done| |by intros; apply wc_consumes|done|done].
  intros name rest. cbn [wc_files]. unfold uprintf.
  change (text "wc: cannot open %s" ++ NL) with (text "wc: cannot open " ++ [37; 115] ++ NL).
  by rewrite printf_name by (by repeat constructor).
Qed.

(** C32: [wc] counts: for what the descriptor 0 delivers, or for each named
    file, it prints the number of newlines, the number of places where a word
    starts, and the number of bytes, if that is less than 2^31; in whatever
    pieces the bytes arrive, so that a word cut by the end of the buffer is one
    word.  It stops, with a message, at the first file that cannot be opened or
    read. *)
Theorem wc_correct w : world_ok w → map_Forall (λ _ s, length (contents s) < 2 ^ 31) (w_files w) →
  (∀ s, w_fds w !! 0 = Some s → source_ok s → length (contents s) < 2 ^ 31 →
    ∃ t, runs (wc_main []) w ≈ ended (mkWorld (w_files w) t (w_out w ++ wc_out [] s))) ∧
  (∀ name names, ∃ t, runs (wc_main (name :: names)) w ≈ ended (mkWorld (w_files w) t (w_out w ++
    files_output (λ name, text "wc: cannot open " ++ name ++ NL) wc_out (w_files w) (name :: names)))).
Proof.
  intros Hw Hlen. split; [|intros; by apply wc_files_run].
  intros s Hs Hok Hl. exists (<[0 := empty s]> (w_fds w)). unfold wc_main. rewrite run_bind, (wc_consumes [] s Hok Hl 0 w Hs).
  destruct (sr_fails s); [by rewrite ended_then|].
  unfold done_with. rewrite Eqit.bind_ret_l, run_exit. reflexivity.
Qed.

(** ** Two files, one of them cut in the middle of a word *)

Definition sample : world :=
  mkWorld (<[text "a" := mkSource [text "one tw"; text "o" ++ NL] false]> (<[text "b" := mkSource [text "x"] true]> ∅))
    (<[0 := mkSource [text "hi" ++ NL] false]> ∅) [].

Lemma sample_ok : world_ok sample ∧ map_Forall (λ _ s, length (contents s) < 2 ^ 31) (w_files sample).
Proof.
  split; [split|].
  - apply map_Forall_to_list. vm_compute. repeat constructor; discriminate.
  - by exists 1.
  - unfold sample. cbn [w_files]. repeat (apply map_Forall_insert_2; [reflexivity|]). apply map_Forall_empty.
Qed.

Lemma cat_correct_witness :
  (∃ t, runs (cat_main []) sample ≈ ended (mkWorld (w_files sample) t (text "hi" ++ NL))) ∧
  (∃ t, runs (cat_main [text "a"; text "b"; text "c"]) sample ≈
    ended (mkWorld (w_files sample) t (text "one two" ++ NL ++ text "xcat: read error" ++ NL))) ∧
  (∃ t, runs (cat_main [text "c"]) sample ≈ ended (mkWorld (w_files sample) t (text "cat: cannot open c" ++ NL))).
Proof.
  destruct (cat_correct sample (proj1 sample_ok)) as [H0 H]. split; [|split].
  - apply (H0 (mkSource [text "hi" ++ NL] false)); [reflexivity|by repeat constructor].
  - apply (H (text "a") [text "b"; text "c"]).
  - apply (H (text "c") []).
Defined.

Lemma wc_correct_witness :
  (∃ t, runs (wc_main []) sample ≈ ended (mkWorld (w_files sample) t (text "1 1 3 " ++ NL))) ∧
  (∃ t, runs (wc_main [text "a"; text "b"]) sample ≈
    ended (mkWorld (w_files sample) t (text "1 2 8 a" ++ NL ++ text "wc: read error" ++ NL))).
Proof.
  destruct sample_ok as [Ho Hl]. destruct (wc_correct sample Ho Hl) as [H0 H]. split.
  - apply (H0 (mkSource [text "hi" ++ NL] false)); [reflexivity|by repeat constructor|reflexivity].
  - apply (H (text "a") [text "b"]).
Defined.
